(* ===== verification/_CoqProject ===== *)
-Q . S2P
Prelude.v
Receiver.v
GoStrings.v
GoText.v
Errors.v
Crypto.v
Encodings.v
Keys.v
Digest.v
Paths.v
File.v
Timestamp.v
Dsse.v
Toy.v
FileTheorems.v
DsseTheorems.v
Registry.v
Host.v
FileSigner.v
CertSigners.v
AwsCerts.v
Intoto.v
Attestation.v
Source.v
Sched.v
MultiSource.v
VerifiedSource.v
Archivista.v
Constraints.v
PolicyStep.v
KMS.v
KmsClients.v
KmsVaults.v
KmsTheorems.v
Policy.v
PolicySound.v
Hooks.v
Environment.v
Ptrace.v
Context.v
ContextRun.v
CI.v
CITheorems.v
CloudIdentity.v
K8s.v
CloudTheorems.v
NetworkTrace.v
NetworkProxy.v
Git.v
GitTheorems.v
Fulcio.v
CommandRun.v
CommandRunTheorems.v
Product.v
ProductTheorems.v
Documents.v
Images.v
Packages.v
DocumentTheorems.v
OciTheorems.v
PackageTheorems.v
Provenance.v
ProvenanceTheorems.v
SecretScan.v
SecretScanner.v
SecretTheorems.v
PolicySig.v
PolicyVerify.v
Attestors.v
Run.v
Verify.v
SignerTheorems.v
ToyWorld.v
AttestorTheorems.v
VerifyTheorems.v
PolicyTheorems.v
SourceTheorems.v
RunTheorems.v
RoundTrip.v
DataTheorems.v
