(* ===== verification/Prelude.v ===== *)
(** * A verification development for go-witness

    go-witness runs attestors around the steps of a supply chain, signs what they
    found as in-toto statements in DSSE envelopes, and verifies such envelopes
    against a signed policy. This library models its Go code as executable Gallina
    functions, from the entry points down to the attestors, signers and sources, and
    proves what makes it correct.

    ** How the parts interact

    [Run] (Run.v) makes an attestation context, runs the attestors stage by stage
    (Context.v), every attestor of a stage in a goroutine of its own, and signs the
    collection of what completed as an in-toto statement in a DSSE envelope (Dsse.v).
    The attestors read files, the environment, processes, the network, tokens and
    services; those of a later stage read what earlier ones recorded: the product
    attestor the materials, the document and image attestors the products, link and
    slsa everything that completed. A signer comes from a registered provider: files,
    Fulcio, SPIFFE, Vault or a cloud KMS.

    [Verify] (Verify.v) runs the policyverify attestor through [Run]. That one verifies
    the policy's signature (PolicySig.v), makes a verified source of the policy's keys
    and roots (VerifiedSource.v) over a source of envelopes (memory, archivista, or
    several), and runs the policy engine on it (Policy.v): for each step it searches
    collections, checks functionaries, attestations and rego policies, follows back
    references, and compares artifacts between the steps.

    ** Conventions

    - A Go function that returns [(T, error)] is a function to [res T], whose values
      are [Ok], [Err] with a value of the type [error], and [Panic] for a run-time
      panic (nil dereference, index out of range, a failed assertion, [MustCompile]).
      [error] has one constructor per error type of the source; Errors.v is the
      [Error] method.
    - State is passed explicitly: an operation that changes a receiver returns the
      new state next to its result. A method that can fail half way is in the monad
      [recv] of Receiver.v, which keeps what was changed before the error.
    - A Go map is a [gmap]; [for k, v := range m] visits it in an order chosen by the
      class [RangeOrder], for which all theorems are quantified.
    - Goroutines are threads of an interleaving semantics ([stage_step] in Context.v),
      deliveries ordered by the class [Scheduler] (Sched.v), a list of events under a
      mutex (Hooks.v), or the step relation [step] of the network trace
      (NetworkProxy.v). The theorems hold for every interleaving.
    - The outside is an argument as well: the n-th request, the n-th answer of the
      kernel to the tracer, or the n-th reading of the clock has an answer of its own.
    - Bytes and strings are [string]. An int is a [Z]; where the source can leave the
      range of a type the wrap-around is written out: the uint64 totals of the network
      summary, the conversions between int8 and bytes of command names, the uint32 of
      inodes and addresses (NetworkTrace.v), and the file-size limit of the secret
      scanner (SecretScan.v).
    - The dynamic types behind an interface are a type argument with a class, or a
      sum: [attestor] and [registered] (Attestors.v), [Signer] and [Verifier] (Keys.v).
    - Code that is not part of the repository is a parameter, a type class with the
      operations that are called; see below.

    ** Files and the code they model (paths below src/)

    Shared: Prelude.v: [res], errors, loops over lists ([range_res], [collect]) and
    maps ([range_map]), tactics ([rw], [res_inv]) and the hint database [elems].
    Receiver.v: the monad of receivers. GoStrings.v, GoText.v, Paths.v, Encodings.v:
    the functions of strings, strconv, path/filepath, base64, hex and net/url that the
    source calls, written out. Errors.v: the [Error] methods. Host.v: the process, its
    files and the servers it asks. Sched.v: schedulers.

    - cryptoutil/: Crypto.v, Keys.v (keys, signers, verifiers), Digest.v (digest sets,
      gitoid, directory hashes). timestamp/: Timestamp.v. dsse/: Dsse.v. registry/:
      Registry.v. intoto/: Intoto.v.
    - attestation/: Attestation.v (factory.go, collection.go), Context.v (context.go,
      context_env.go), Hooks.v (execute_hooks.go), File.v (file/). environment/ and
      attestation/environment: Environment.v.
    - The attestors, a Module each: Product.v (material, product), CommandRun.v and
      Ptrace.v (commandrun and its tracer), CI.v (jwt, gitlab, github, jenkins,
      aws-codebuild), CloudIdentity.v and AwsCerts.v (gcp-iit, aws-iid), Git.v,
      Documents.v (sarif, vex, sbom), Images.v (docker, internal/docker, oci),
      Packages.v (maven, lockfiles, system-packages, omnitrail), K8s.v (k8smanifest),
      Provenance.v (link, slsa), SecretScan.v and SecretScanner.v (secretscan),
      NetworkTrace.v and NetworkProxy.v (networktrace), PolicyVerify.v (policyverify,
      slsa/). Attestors.v puts them behind the [Attestor] interface: the sum
      [attestor], the instance of [Runnable] that a run uses, and the registrations of
      their [init] functions in imports.go.
    - source/: Source.v (source.go, memory.go), MultiSource.v, VerifiedSource.v,
      Archivista.v (with archivista/).
    - policy/: Constraints.v, PolicyStep.v (step.go, rego.go), Policy.v; internal/policy:
      PolicySig.v.
    - signer/: FileSigner.v (registry.go, file/), Fulcio.v, CertSigners.v (vault/,
      spiffe/), KMS.v (kms/signerprovider.go), KmsClients.v (the options and caches
      that the clients share, kms/aws, kms/gcp), KmsVaults.v (kms/azure,
      kms/hashivault).
    - run.go, sign.go: Run.v. verify.go: Verify.v.

    Toy.v and ToyWorld.v are concrete instances of the classes of the core; the
    theorem files have those of the other components. The witnesses evaluate the
    theorems there.

    ** Parameters

    - Cryptography and formats: [CryptoLib], [GitoidLib], [TspLib], [JoseLib],
      [FulcioLib], [StatementJson], [CollectionJson], [PolicyJson], [AttestorJson],
      [ScanJson], [DockerJson], [SbomLib], [StructLib], [PkiLib], [TarLib].
    - Libraries: [GlobLib], [RegexpLib], [RegoLib], [GitleaksLib], [MimeLib],
      [OmnitrailLib], [GitLib], [K8sLib], [UrlLib].
    - The machine: [FileSystem], [ScanFS], [HostFiles], [ProcessEnv], [Machine],
      [UnixLib], [ExecLib], [BpfLib], [NetLib], [Clock], [RangeOrder], [Scheduler].
    - Services: [HttpLib], [ArchivistaApi], [CodeBuildApi], [ImdsApi], [FulcioApi],
      [WorkloadApi], [AwsApi], [GcpApi], [AzureApi], [VaultApi].

    The laws assumed of them, each where a theorem names it, are documented behaviour:
    [SignatureLaws] (a signature made with a key is accepted by its public key),
    [JsonLaws] (what encoding/json writes it can read: raw messages that it has written
    come back unchanged, and strings in UTF-8), [StructLaws], [JoseLaws] and
    [ImdsLaws] (a checked signature is one of the content that is returned),
    [respects_exclusion] (SourceTheorems.v), [star_patterns] (DataTheorems.v),
    [CommandsEnd] (every command ends, Attestors.v).

    ** Interfaces

    [Sourcer] and [VerifiedSourcer] are classes over the state of a source, with the
    memory, multi, archivista and verified sources as instances. What the policy engine
    needs of a verified source is stated twice: [VerifiedSourceLaws] for soundness,
    which the verified source discharges, and [supplies] for acceptance, which a memory
    source of signed runs discharges (PolicySound.v, RoundTrip.v). [AttestorOps] is the
    Go interface of attestors with its optional parts, [Runnable] its [Attest], and
    [ProvenanceViews] and [CommandRunOf] are the assertions that attestors make on each
    other; Attestors.v has the instances for the attestors of the repository, and
    [PolicyVerifyAttestor] (Verify.v) says that policyverify is one. [KeyClient]
    (KmsTheorems.v) is what the four KMS clients have in common.

    ** Theorems

    - VerifyTheorems.v, PolicyTheorems.v (over PolicySound.v): an accepted verification
      rests on a signed policy that is satisfied; a policy that is met is accepted; the
      parts: certificate constraints, rego, artifacts, keys; what is rejected.
      RoundTrip.v: what runs sign and a source loads, [Verify] accepts under a signed
      policy that expects it, when its strings are in UTF-8 and its attestors are read
      back with the same contents.
    - DsseTheorems.v: the pre-authentication encoding is injective, verification is
      sound, what Sign makes Verify accepts. SourceTheorems.v: searches refine abstract
      ones, do not depend on the schedule, justify their verifiers, never repeat.
    - RunTheorems.v (over ContextRun.v): stages end and run every attestor once in
      every interleaving; [Run] signs what ran. AttestorTheorems.v: the registry
      answers with the attestor of the name, and a run of the real attestors records
      the files that the command changed. Hooks.v, Registry.v, DataTheorems.v: hooks,
      options, digests and captured variables.
    - FileTheorems.v: the walk ends on any links and records exactly what it is to.
      CommandRunTheorems.v, ProductTheorems.v, CITheorems.v, CloudTheorems.v,
      GitTheorems.v, DocumentTheorems.v, OciTheorems.v, PackageTheorems.v,
      ProvenanceTheorems.v, SecretTheorems.v: what each attestor records, and where it
      does something else; of a traced command, that each process is reported with what
      was last seen of it. NetworkProxy.v has the theorems on the goroutines of the
      network trace: what is recorded is in the trace, and the shutdown ends, since it
      sets a deadline on the connections that are open.
    - SignerTheorems.v, KmsTheorems.v: which key and certificates a signer has, how old
      a key in a cache can be, and what the verifiers of the services accept.

    ** Fuel and bounds

    Every function is total. Most loops are recursions over lists. [drain] gets the
    number of alternatives, which it consumes one by one; [run_threads] gets
    [stage_steps], the number of steps the threads have left, which every step
    decreases (ContextRun.v); [RecordArtifacts] gets the number of paths that links
    lead to, and more fuel changes nothing (FileTheorems.v); the scan of secrets
    recurses over the layers that are left, at most four; the tracer and the renewal of
    Vault tokens recurse over the answers they get; the key of a Kubernetes subject is
    found within one more attempt than there are subjects. Constants are those of the
    code: three attempts at Fulcio, five minutes for a cached key, a channel of a
    hundred connections, a search depth of three.

    ** Not modelled

    The programs in C that the kernel runs for the network trace and their generated
    loaders ([BpfLib] is what the Go code sees of them); log, which only writes; the
    JSON schemas (schemagen/ and the [Schema] methods) and the generated deep copies of
    the policy; the tool check-certs; test doubles and the fake KMS clients.
    Cancellation of a context is modelled where the result depends on it (Fulcio, the
    network trace) and left out elsewhere, as are the deadlines of other connections.
    In the sum
    of Attestors.v one [Attest] is one step of a stage, so the network trace, which
    runs all the time that the command does, is registered next to it and has its own
    step relation. Data races are excluded by the atomicity of the operations under the
    mutexes of the code.
*)
From Stdlib Require Export Ascii.
From stdpp Require Export ssreflect base gmap strings list pretty fin_maps sets sorting.
From stdpp Require Import options.

#[global] Unset Default Proof Using.

(** * Byte strings

    Go strings and byte slices are both sequences of bytes; both are modelled
    by [string], whose characters are the 256 [ascii] values. *)

Abbreviation bytes := string (only parsing).

(** [fmt.Sprintf("%d", n)] for the lengths and counters of the source. *)
Definition itoa (n : nat) : string := pretty n.
Definition ztoa (z : Z) : string := pretty z.

(** A [time.Time]: the instant in nanoseconds and the text its [String] method
    prints, which depends on the location the value carries. *)
Record Time := mkTime { unix_nano : Z; time_text : string }.

(** [t.After(u)] *)
Definition After (t u : Z) : bool := bool_decide (u < t)%Z.

(** * Go's [error] values *)

(** One constructor per error type the source declares, [Errorf] for
    [errors.New] and for [fmt.Errorf] without [%w] (the formatted text), [Wrapf]
    for [fmt.Errorf("...: %w", err)], [Wrapped] where more text follows, [Joined] for [errors.Join], and
    [External] for errors that come out of code the model takes as a parameter.
    The [Actual] of [ErrRegoInvalidData] is the Go type name its [%T] prints.
    The [Verifiers] of dsse's [ErrNoMatchingSigs] are kept as the three things
    its [Error] method reads of each: whether the verifier interface is nil
    (first component [None]), what its [KeyID] returns, and the [Error] field. *)
Inductive error : Type :=
  | Errorf (msg : string)
  | Wrapf (msg : string) (e : error)
  | Wrapped (before : string) (e : error) (after : string)
  | Joined (es : list error)
  | External (msg : string)
  (* cryptoutil *)
  | ErrUnsupportedHash (name : string)
  | ErrUnsupportedPEM (t : string)
  | ErrInvalidPemBlock
  | ErrUnsupportedKeyType (t : string)
  | ErrVerifyFailed
  | ErrInvalidSigner
  | ErrInvalidCertificate
  (* dsse *)
  | ErrNoSignatures
  | ErrNoMatchingSigs (verifiers : list (option (option string) * option error))
  | ErrThresholdNotMet (Theshold Actual : Z)
  | ErrInvalidThreshold (t : Z)
  (* source *)
  | ErrDuplicateReference (reference : string)
  (* attestation *)
  | ErrAttestor (Name RunType Reason : string)
  | ErrAttestationNotFound (t : string)
  | ErrAttestorNotFound (t : string)
  (* policy *)
  | ErrVerifyArtifactsFailed (Reasons : list string)
  | ErrNoCollections (Step : string)
  | ErrMissingAttestation (Step Attestation : string)
  | ErrPolicyExpired (t : Time)
  | ErrKeyIDMismatch (Expected Actual : string)
  | ErrMismatchArtifact (Path : string)
  | ErrRegoInvalidData (Path Expected Actual : string)
  | ErrPolicyDenied (Reasons : list string)
  | ErrConstraintCheckFailed (errs : list error)
  | ErrInvalidOption (Option Reason : string)
  | ErrUnknownStep (step : string)
  | ErrArtifactCycle (step : string)
  (* the attestors of tokens and CI systems, signer/spiffe *)
  | ErrInvalidToken (token : string)
  | ErrNotGitlab
  | ErrNotGitHub
  | ErrNotJenkins
  | ErrNotGCPIIT
  | ErrInvalidSVID (reason : string).

(** * Results *)

(** What a call of a Go function that returns [(T, error)] does: it returns a
    value, returns a non-nil error, or panics. *)
Inductive res (A : Type) : Type :=
  | Ok (a : A)
  | Err (e : error)
  | Panic (why : string).
Arguments Ok {A} a.
Arguments Err {A} e.
Arguments Panic {A} why.

#[export] Instance res_ret : MRet res := λ A a, Ok a.
#[export] Instance res_bind : MBind res := λ A B f m,
  match m with
  | Ok a => f a
  | Err e => Err e
  | Panic w => Panic w
  end.
#[export] Instance res_fmap : FMap res := λ A B f m,
  match m with
  | Ok a => Ok (f a)
  | Err e => Err e
  | Panic w => Panic w
  end.

Lemma res_bind_ok {A B} (m : res A) (f : A → res B) b :
  m ≫= f = Ok b → ∃ a, m = Ok a ∧ f a = Ok b.
Proof. destruct m; simpl; [eauto|done..]. Qed.

Lemma res_fmap_ok {A B} (f : A → B) (m : res A) b :
  f <$> m = Ok b → ∃ a, m = Ok a ∧ b = f a.
Proof. destruct m; simpl; intros; by simplify_eq; eauto. Qed.

(** [if err != nil { return fmt.Errorf("msg: %w", err) }] *)
Definition wrap {A} (msg : string) (m : res A) : res A :=
  match m with
  | Err e => Err (Wrapf msg e)
  | _ => m
  end.

(** [if err != nil { return f(err) }] *)
Definition on_error {A} (f : error → error) (m : res A) : res A :=
  match m with
  | Err e => Err (f e)
  | _ => m
  end.

(** The error a call left, for callers that only look at [err]. *)
Definition err_of {A} (m : res A) : option error :=
  match m with Err e => Some e | _ => None end.

Definition is_ok {A} (m : res A) : bool :=
  match m with Ok _ => true | _ => false end.

Definition no_panic {A} (m : res A) : Prop := ∀ w, m ≠ Panic w.

(** A Go function that returns only [error]. *)
Abbreviation err := (res unit) (only parsing).
Definition nil_error : err := Ok tt.

(** A loop [for _, x := range l { ... }] whose body may return early with an
    error: the accumulator is the loop's state. *)
Fixpoint range_res {A S} (f : S → A → res S) (s : S) (l : list A) : res S :=
  match l with
  | [] => Ok s
  | x :: l => s' ← f s x; range_res f s' l
  end.

Lemma wrap_ok {A} msg (m : res A) a : wrap msg m = Ok a ↔ m = Ok a.
Proof. by destruct m. Qed.

Lemma on_error_ok {A} f (m : res A) a : on_error f m = Ok a ↔ m = Ok a.
Proof. by destruct m. Qed.

(** Hypotheses that a chain of calls returned a value, taken apart. *)
Ltac res_inv :=
  repeat match goal with
  | H : mbind _ _ = Ok _ |- _ => apply res_bind_ok in H as (? & ? & H)
  | H : fmap _ _ = Ok _ |- _ => apply res_fmap_ok in H as (? & ? & ?)
  | H : wrap _ _ = Ok _ |- _ => apply wrap_ok in H
  | H : on_error _ _ = Ok _ |- _ => apply on_error_ok in H
  end; simplify_eq.

(** Membership in lists that are written out. *)
Create HintDb elems.
#[export] Hint Resolve list_elem_of_here list_elem_of_further : elems.

Lemma range_res_app {A S} (f : S → A → res S) s l1 l2 :
  range_res f s (l1 ++ l2) = s' ← range_res f s l1; range_res f s' l2.
Proof. revert s; induction l1 as [|x l1 IH]; intros s; [done|]. simpl. destruct (f s x); simpl; auto. Qed.

(** A loop invariant. *)
Lemma range_res_inv {A S} (f : S → A → res S) (P : S → Prop) l s s' :
  (∀ s x s', x ∈ l → P s → f s x = Ok s' → P s') →
  P s → range_res f s l = Ok s' → P s'.
Proof.
  revert s; induction l as [|x l IH]; intros s Hstep HP; simpl; [by intros; simplify_eq|].
  intros (s1 & Hs1 & H)%res_bind_ok. eapply IH; [|by eapply Hstep; [left|..]|done].
  intros ? y ? Hy. apply Hstep. by right.
Qed.

Lemma pair_of_snd {X Y} (p : X * Y) y : p.2 = y → p = (p.1, y).
Proof. by intros <-; destruct p. Qed.

(** A loop that never fails: [I] is its invariant, [R] what its state only grows
    by, and [Q x] what the step for [x] has done, which lasts. *)
Lemma range_res_total {A S} (f : S → A → res S) (I : S → Prop) (R : S → S → Prop) (Q : A → S → Prop) l s :
  Reflexive R → Transitive R →
  (∀ x s1 s2, Q x s1 → R s1 s2 → Q x s2) →
  (∀ x s1, x ∈ l → I s1 → ∃ s2, f s1 x = Ok s2 ∧ I s2 ∧ R s1 s2 ∧ Q x s2) →
  I s → ∃ s', range_res f s l = Ok s' ∧ I s' ∧ R s s' ∧ ∀ x, x ∈ l → Q x s'.
Proof.
  intros Hrefl Htrans Hlast. revert s; induction l as [|x l IH]; intros s Hstep HI; cbn [range_res].
  { exists s. split_and!; [done|done|done|by intros ? ?%not_elem_of_nil]. }
  destruct (Hstep x s) as (s1 & Hs1 & HI1 & HR1 & HQ1); [left|done|].
  destruct (IH s1) as (s' & Hs' & HI' & HR' & HQ'); [by intros; apply Hstep; [right|]|done|].
  exists s'. rw Hs1. split; [done|]. split; [done|]. split; [by etrans|].
  intros y [->|Hy]%elem_of_cons; [by eapply Hlast|by apply HQ'].
Qed.

(** A step of a loop that ran to completion: the invariant [I] holds before it,
    and what comes after only grows the state by [R]. *)
Lemma range_res_step {A S} (f : S → A → res S) (I : S → Prop) (R : S → S → Prop) l s s' x :
  Reflexive R → Transitive R →
  (∀ x s1 s2, I s1 → f s1 x = Ok s2 → I s2 ∧ R s1 s2) →
  I s → range_res f s l = Ok s' → x ∈ l →
  ∃ s1 s2, I s1 ∧ f s1 x = Ok s2 ∧ R s2 s'.
Proof.
  intros Hrefl Htrans Hstep. revert s; induction l as [|y l IH]; intros s HI Hr Hx; [by apply not_elem_of_nil in Hx|].
  cbn [range_res] in Hr. apply res_bind_ok in Hr as (s1 & Hs1 & Hr). destruct (Hstep _ _ _ HI Hs1) as [HI1 HR1].
  apply elem_of_cons in Hx as [->|Hx]; [|by eapply IH].
  exists s, s1. split; [done|]. split; [done|]. clear -Hrefl Htrans Hstep Hr HI1.
  revert s1 HI1 Hr. induction l as [|y l IH]; intros s1 HI1; cbn [range_res]; [by intros [= <-]|].
  intros (s2 & Hs2 & Hr)%res_bind_ok. destruct (Hstep _ _ _ HI1 Hs2) as [HI2 HR2]. etrans; [done|]. by apply IH.
Qed.

(** Induction over a loop that ran to completion. *)
Lemma range_res_ind {A S} (f : S → A → res S) (P : S → list A → Prop) s l s' :
  P s [] →
  (∀ s0 done x s1, P s0 done → f s0 x = Ok s1 → done ++ [x] `prefix_of` l → P s1 (done ++ [x])) →
  range_res f s l = Ok s' → P s' l.
Proof.
  intros H0 Hstep.
  cut (∀ l2 done s, done ++ l2 = l → P s done → range_res f s l2 = Ok s' → P s' l).
  { intros Hc. by apply (Hc l [] s). }
  induction l2 as [|x l2 IH]; intros done s1 Hl HP; simpl.
  { rw app_nil_r in Hl. intros; by simplify_eq. }
  intros (s2 & Hs2 & H)%res_bind_ok. apply (IH (done ++ [x]) s2); [by rw -assoc|..|done].
  eapply Hstep; [done..|]. exists l2. by rw -assoc.
Qed.

(** A loop that only looks for an error. *)
Lemma range_res_unit_ok {B} (f : B → err) l :
  range_res (λ _ x, f x) tt l = nil_error ↔ ∀ x, x ∈ l → f x = nil_error.
Proof.
  induction l as [|x l IH]; cbn [range_res].
  - split; [by intros _ ? ?%not_elem_of_nil|done].
  - destruct (f x) as [[]| |] eqn:Hx; cbn [mbind res_bind].
    + rw IH. split; [intros H y [->|?]%elem_of_cons; [done|by apply H]|]. intros H y Hy. apply H. by right.
    + split; [done|]. intros H. rw -Hx. apply H. left.
    + split; [done|]. intros H. rw -Hx. apply H. left.
Qed.

Lemma range_res_unit_err {B} (f : B → err) l e :
  range_res (λ _ x, f x) tt l = Err e →
  ∃ l1 x l2, l = l1 ++ x :: l2 ∧ f x = Err e ∧ ∀ y, y ∈ l1 → f y = nil_error.
Proof.
  induction l as [|x l IH]; cbn [range_res]; [done|].
  destruct (f x) as [[]| |] eqn:Hx; cbn [mbind res_bind]; [|intros [= ->]|done].
  - intros (l1 & y & l2 & -> & ? & Hl)%IH. exists (x :: l1), y, l2. split; [done|]. split; [done|].
    intros z [->|?]%elem_of_cons; [done|by apply Hl].
  - exists [], x, l. split; [done|]. split; [done|]. by intros ? ?%not_elem_of_nil.
Qed.

Lemma forallb_false {B} (f : B → bool) l : forallb f l = false ↔ ∃ x, x ∈ l ∧ f x = false.
Proof.
  induction l as [|x l IH]; cbn [forallb]; [split; [done|by intros (? & ?%not_elem_of_nil & _)]|].
  rw andb_false_iff IH. setoid_rewrite elem_of_cons. naive_solver.
Qed.

(** Lists related element by element. *)
Lemma Forall2_elem_of_l {X Y} (P : X → Y → Prop) l k x :
  Forall2 P l k → x ∈ l → ∃ y, y ∈ k ∧ P x y.
Proof.
  induction 1 as [|x' y l k Hp _ IH]; [by intros ?%not_elem_of_nil|].
  intros [->|(z & ? & ?)%IH]%elem_of_cons; [exists y|exists z]; (split; [|done]); [left|by right].
Qed.

Lemma Forall2_elem_of_r {X Y} (P : X → Y → Prop) l k y :
  Forall2 P l k → y ∈ k → ∃ x, x ∈ l ∧ P x y.
Proof. intros H%Forall2_flip Hy. by apply (Forall2_elem_of_l _ _ _ _ H). Qed.

(** A loop [for _, x := range l { ...; out = append(out, ys...) }] whose body
    computes what it appends from the element alone: *)
Fixpoint collect {A B} (f : A → res (list B)) (l : list A) : res (list B) :=
  match l with
  | [] => Ok []
  | x :: l => ys ← f x; zs ← collect f l; Ok (ys ++ zs)
  end.

Lemma collect_elem {A B} (f : A → res (list B)) l out y :
  collect f l = Ok out → y ∈ out ↔ ∃ x ys, x ∈ l ∧ f x = Ok ys ∧ y ∈ ys.
Proof.
  revert out; induction l as [|x l IH]; intros out H; simpl in H.
  { simplify_eq. split; [by intros ?%not_elem_of_nil|by intros (?&?&?%not_elem_of_nil&_)]. }
  apply res_bind_ok in H as (ys & Hys & (zs & Hzs & H)%res_bind_ok). simplify_eq.
  rw elem_of_app (IH _ Hzs). split.
  - intros [Hy|(x' & ys' & Hx & ? & ?)]; [exists x, ys|exists x', ys'];
      (split; [apply elem_of_cons; by auto|done]).
  - intros (x' & ys' & [->|Hx]%elem_of_cons & ? & ?); [left; congruence|right; by eauto].
Qed.

Lemma collect_ok {A B} (f : A → res (list B)) l out x :
  collect f l = Ok out → x ∈ l → ∃ ys, f x = Ok ys ∧ ∀ y, y ∈ ys → y ∈ out.
Proof.
  intros Hout Hx. assert (∃ ys, f x = Ok ys) as [ys Hys].
  { clear -Hout Hx. revert out Hout; induction l as [|x' l IH]; intros out; simpl; [by apply not_elem_of_nil in Hx|].
    intros (ys & Hys & (zs & Hzs & _)%res_bind_ok)%res_bind_ok.
    apply elem_of_cons in Hx as [->|Hx]; [by exists ys|by eapply IH]. }
  exists ys. split; [done|]. intros y Hy. apply (collect_elem f l out y Hout). by exists x, ys.
Qed.

Lemma collect_total {A B} (f : A → res (list B)) l :
  (∀ x, x ∈ l → ∃ ys, f x = Ok ys) → ∃ out, collect f l = Ok out.
Proof.
  induction l as [|x l IH]; intros Hf; [by eexists|].
  destruct (Hf x) as [ys Hys]; [left|]. destruct IH as [zs Hzs]; [intros; apply Hf; by right|].
  exists (ys ++ zs). by rw /= Hys /= Hzs.
Qed.

Lemma collect_app {A B} (f : A → res (list B)) l1 l2 :
  collect f (l1 ++ l2) = ys ← collect f l1; zs ← collect f l2; Ok (ys ++ zs).
Proof.
  induction l1 as [|x l1 IH]; simpl; [by destruct (collect f l2)|].
  rw IH. destruct (f x); [simpl|done..]. destruct (collect f l1); [simpl|done..].
  destruct (collect f l2); [simpl|done..]. by rw assoc_L.
Qed.

Lemma collect_pure {A B} (f : A → res (list B)) (h : A → list B) l :
  (∀ x, x ∈ l → f x = Ok (h x)) → collect f l = Ok (l ≫= h).
Proof.
  induction l as [|x l IH]; intros Hf; [done|]. cbn [collect]. rw Hf; [|left].
  rw IH; [done|]. intros. apply Hf. by right.
Qed.

(** [collect] is the accumulating loop. *)
Lemma collect_range_res {A B} (f : A → res (list B)) l acc :
  range_res (λ acc x, ys ← f x; Ok (acc ++ ys)) acc l = ys ← collect f l; Ok (acc ++ ys).
Proof.
  revert acc; induction l as [|x l IH]; intros acc; simpl; [by rw right_id_L|].
  destruct (f x); [simpl|done..]. rw IH. destruct (collect f l); [simpl|done..]. by rw assoc_L.
Qed.

(** * Iteration over maps

    Go fixes no order for [for k, v := range m]. A [RangeOrder] picks one for
    every range statement (identified by [site], which also counts repetitions
    of the same statement) and every map; the theorems hold for all of them. *)
Class RangeOrder := {
  range_map : nat → ∀ {K V} `{Countable K}, gmap K V → list (K * V);
  range_map_perm site K V `{Countable K} (m : gmap K V) :
    range_map site m ≡ₚ map_to_list m;
}.

(** The order used to evaluate the model on concrete inputs. *)
#[export] Program Instance canonical_order : RangeOrder :=
  {| range_map _ K V _ _ m := map_to_list m |}.
Next Obligation. done. Qed.

Section range_map.
Context `{RO : RangeOrder} {K V : Type} `{Countable K}.
Implicit Types m : gmap K V.

Lemma elem_of_range site m k v : (k, v) ∈ range_map site m ↔ m !! k = Some v.
Proof. rw range_map_perm. apply elem_of_map_to_list. Qed.

Lemma NoDup_fst_range site m : NoDup (range_map site m).*1.
Proof. rw range_map_perm. apply NoDup_fst_map_to_list. Qed.

Lemma range_map_empty site : range_map site (∅ : gmap K V) = [].
Proof.
  apply Permutation_nil_r. rw range_map_perm. by rw map_to_list_empty.
Qed.

(** Copying a map entry by entry, in any order. *)
Lemma foldl_insert_range site m (m0 : gmap K V) :
  foldl (λ acc kv, <[kv.1:=kv.2]> acc) m0 (range_map site m) = m ∪ m0.
Proof.
  assert (Hg : ∀ (l : list (K * V)) m0, NoDup l.*1 →
    foldl (λ acc kv, <[kv.1:=kv.2]> acc) m0 l = list_to_map l ∪ m0).
  { induction l as [|[k v] l IH]; intros m1 Hnd; simpl; [by rw left_id_L|].
    inversion Hnd; subst. rw IH //. rw -insert_union_r; [by rw insert_union_l|].
    by apply not_elem_of_list_to_map_1. }
  rw Hg; [|apply NoDup_fst_range]. f_equal.
  rw -{2}(list_to_map_to_list m). apply list_to_map_proper.
  - apply NoDup_fst_range.
  - apply range_map_perm.
Qed.
End range_map.

(** Copying a map under a partial renaming of its keys, with an error for a
    key that has no new name. *)
Section rename.
Context `{RO : RangeOrder} `{Countable K1, Countable K2} {V : Type}.
Variable f : K1 → option K2.
Variable bad : K1 → error.

Definition rename_step (acc : gmap K2 V) (kv : K1 * V) : res (gmap K2 V) :=
  match f kv.1 with
  | None => Err (bad kv.1)
  | Some k => Ok (<[k:=kv.2]> acc)
  end.

Lemma rename_cons acc k v l :
  range_res rename_step acc ((k, v) :: l) =
  match f k with
  | None => Err (bad k)
  | Some k2 => range_res rename_step (<[k2:=v]> acc) l
  end.
Proof.
  cbn [range_res].
  replace (rename_step acc (k, v)) with
    (match f k with None => Err (bad k) | Some k2 => Ok (<[k2:=v]> acc) end) by done.
  by destruct (f k).
Qed.

Lemma rename_list_ok l acc :
  (∀ k, k ∈ l.*1 → is_Some (f k)) →
  ∃ m', range_res rename_step acc l = Ok m'.
Proof.
  revert acc; induction l as [|[k v] l IH]; intros acc Hf; [by eexists|].
  destruct (Hf k) as [k2 Hk2]; [apply elem_of_cons; by left|]. rw rename_cons Hk2. apply IH. intros k' Hk'. apply Hf. apply elem_of_cons. by right.
Qed.

Lemma rename_list_err l acc k :
  k ∈ l.*1 → f k = None → ∃ k', range_res rename_step acc l = Err (bad k') ∧ f k' = None.
Proof.
  revert acc; induction l as [|[k1 v] l IH]; intros acc Hin Hf; [by apply not_elem_of_nil in Hin|].
  rw rename_cons. destruct (f k1) as [k2|] eqn:E; [|by eauto].
  apply elem_of_cons in Hin as [Hin|Hin]; [by simplify_eq/=|]. by apply IH.
Qed.

Hypothesis f_inj : ∀ k k' k2, f k = Some k2 → f k' = Some k2 → k = k'.

Lemma rename_list_lookup l acc m' k2 v :
  NoDup l.*1 → range_res rename_step acc l = Ok m' →
  m' !! k2 = Some v ↔
    (∃ k, (k, v) ∈ l ∧ f k = Some k2) ∨
    (acc !! k2 = Some v ∧ ∀ k, k ∈ l.*1 → f k ≠ Some k2).
Proof.
  revert acc; induction l as [|[k1 v1] l IH]; intros acc Hnd Hr.
  { simplify_eq/=. split; [right; split; [done|set_solver]|].
    intros [(?&?%not_elem_of_nil&_)|[? _]]; done. }
  inversion Hnd as [|? ? Hni Hnd']; subst. rw rename_cons in Hr.
  destruct (f k1) as [k'|] eqn:E; simplify_eq/=. rw (IH _ Hnd' Hr).
  destruct (decide (k' = k2)) as [->|Hne]; [rw lookup_insert_eq|rw lookup_insert_ne //].
  - split.
    + intros [(k&Hk&Hf)|[? Hno]]; [left; exists k; set_solver|].
      simplify_eq. left. exists k1. split; [left|done].
    + intros [(k&[?|Hk]%elem_of_cons&Hf)|[? Hno]]; [simplify_eq; right|left; by eauto|].
      * split; [done|]. intros k Hk Hf. destruct Hni. by rw (f_inj k1 k k2).
      * destruct (Hno k1); [apply elem_of_cons; by left|done].
  - split.
    + intros [(k&Hk&Hf)|[? Hno]]; [left; exists k; set_solver|]. right. split; [done|].
      intros k [->|Hk]%elem_of_cons; [congruence|by apply Hno].
    + intros [(k&[?|Hk]%elem_of_cons&Hf)|[? Hno]]; [simplify_eq|left; by eauto|].
      right. split; [done|]. intros k Hk. apply Hno. apply elem_of_cons. by right.
Qed.

Lemma rename_range_ok site (m : gmap K1 V) :
  (∀ k, is_Some (m !! k) → is_Some (f k)) →
  ∃ m', range_res rename_step ∅ (range_map site m) = Ok m' ∧
    ∀ k2 v, m' !! k2 = Some v ↔ ∃ k, m !! k = Some v ∧ f k = Some k2.
Proof.
  intros Hf. destruct (rename_list_ok (range_map site m) ∅) as [m' Hm'].
  { intros k ([? v]&->&Hin)%list_elem_of_fmap. apply elem_of_range in Hin. apply Hf. by eexists. }
  exists m'. split; [done|]. intros k2 v.
  rw (rename_list_lookup _ _ _ k2 v (NoDup_fst_range _ _) Hm') lookup_empty.
  setoid_rewrite elem_of_range. naive_solver.
Qed.

Lemma rename_range_err site (m : gmap K1 V) k :
  is_Some (m !! k) → f k = None →
  ∃ k', range_res rename_step ∅ (range_map site m) = Err (bad k') ∧ f k' = None.
Proof.
  intros [v Hv] Hf. apply rename_list_err with k; [|done].
  apply list_elem_of_fmap. exists (k, v). split; [done|]. by apply elem_of_range.
Qed.
End rename.
