(* ===== verification/Receiver.v ===== *)
(** Methods on a pointer receiver that can fail half way: a state and error monad.
    [recv S A] is a method of the receiver [S] with the results [(A, error)]; what
    it changed before an error stays changed. *)
From S2P Require Import Prelude.
From stdpp Require Import options.

Definition recv (S A : Type) : Type := S → S * res A.

#[export] Instance recv_ret S : MRet (recv S) := λ A a s, (s, Ok a).
#[export] Instance recv_bind S : MBind (recv S) := λ A B f m s,
  match m s with
  | (s, Ok a) => f a s
  | (s, Err e) => (s, Err e)
  | (s, Panic w) => (s, Panic w)
  end.

(** A call that leaves the receiver alone, an assignment to its fields, and the
    receiver itself. *)
Definition call {S A} (m : res A) : recv S A := λ s, (s, m).
Definition assign {S} (f : S → S) : recv S unit := λ s, (f s, Ok tt).
Definition self {S} : recv S S := λ s, (s, Ok s).

(** [for _, x := range l { ... }] *)
Fixpoint for_each {S A} (f : A → recv S unit) (l : list A) : recv S unit :=
  match l with
  | [] => mret tt
  | x :: l => f x ≫= λ _, for_each f l
  end.

Lemma recv_bind_ok {S A B} (m : recv S A) (f : A → recv S B) s s' b :
  (m ≫= f) s = (s', Ok b) → ∃ s1 a, m s = (s1, Ok a) ∧ f a s1 = (s', Ok b).
Proof. unfold mbind, recv_bind. destruct (m s) as [s1 [a|e|w]]; intros H; [eauto|done..]. Qed.

Lemma recv_call_ok {S A} (m : res A) (s s' : S) a : call m s = (s', Ok a) → m = Ok a ∧ s' = s.
Proof. by intros [= -> ->]. Qed.

Lemma recv_ret_ok {S A} (a b : A) (s s' : S) : (mret a : recv S A) s = (s', Ok b) → s' = s ∧ b = a.
Proof. by intros [= -> ->]. Qed.

Lemma recv_assign_ok {S} (f : S → S) s s' : assign f s = (s', Ok tt) → s' = f s.
Proof. by intros [= ->]. Qed.

(** Hypotheses that a chain of methods returned a value, taken apart. *)
Ltac recv_inv :=
  repeat match goal with
  | H : mbind _ _ _ = (_, Ok _) |- _ => apply recv_bind_ok in H as (? & ? & ? & H)
  | H : call _ _ = (_, Ok _) |- _ => apply recv_call_ok in H as [H ->]
  | H : mret _ _ = (_, Ok _) |- _ => apply recv_ret_ok in H as [-> H]
  | H : assign _ _ = (_, Ok ?u) |- _ => destruct u; apply recv_assign_ok in H as ->
  | H : self _ = (_, Ok _) |- _ => injection H as <- <-
  end; res_inv.

(** A loop whose body always succeeds and adds to the receiver. *)
Lemma for_each_ok {S A} (f : A → recv S unit) (P : S → list A → Prop) l s s' u :
  for_each f l s = (s', Ok u) → P s [] →
  (∀ s1 s2 x l', f x s1 = (s2, Ok tt) → P s1 l' → P s2 (l' ++ [x])) → P s' l.
Proof.
  intros Hrun HP Hstep. enough (∀ l' s, for_each f l s = (s', Ok u) → P s l' → P s' (l' ++ l)) as H.
  { by apply (H [] s). }
  clear Hrun HP s. induction l as [|x l IH]; intros l' s Hrun HP.
  - injection Hrun as -> _. by rw right_id_L.
  - cbn [for_each] in Hrun. apply recv_bind_ok in Hrun as (s1 & [] & Hx & Hrun).
    rw cons_middle assoc_L. eapply IH; [done|]. by eapply Hstep.
Qed.
