(* ===== verification/GoStrings.v ===== *)
(** The functions of Go's [strings], [strconv] and [fmt] packages the source
    calls, on byte strings, with their specifications: prefix, suffix and
    substring tests, splitting at a separator byte, joining, replacing, slicing
    and the [%+q] verb. *)
From S2P Require Import Prelude.
From stdpp Require Import options.

Create Rewrite HintDb gostr.

Abbreviation slen := String.length.

(** * Append *)

Lemma string_app_cons (x : ascii) (a b : string) :
  String x a +:+ b = String x (a +:+ b).
Proof. done. Qed.

Lemma string_app_nil_l (a : string) : "" +:+ a = a.
Proof. done. Qed.

Lemma string_app_nil_r (a : string) : a +:+ "" = a.
Proof. induction a as [|x a IH]; [done|]. by rw string_app_cons IH. Qed.

Lemma string_app_assoc (a b c : string) : (a +:+ b) +:+ c = a +:+ (b +:+ c).
Proof. induction a as [|x a IH]; [done|]. by rw !string_app_cons IH. Qed.

Lemma slen_app (a b : string) : slen (a +:+ b) = slen a + slen b.
Proof. induction a as [|x a IH]; [done|]. rw string_app_cons /=. by rw IH. Qed.

#[export] Hint Rewrite string_app_cons string_app_nil_l string_app_nil_r
  string_app_assoc slen_app : gostr.

Lemma string_app_inj_len (a a' b b' : string) :
  slen a = slen a' → a +:+ b = a' +:+ b' → a = a' ∧ b = b'.
Proof.
  revert a'. induction a as [|x a IH]; intros [|y a'] Hl; simplify_eq/=; [done..|].
  rw !string_app_cons. intros [= -> H]. by destruct (IH _ Hl H) as [-> ->].
Qed.

Lemma string_app_inj_len_r (a a' b b' : string) :
  slen b = slen b' → a +:+ b = a' +:+ b' → a = a' ∧ b = b'.
Proof.
  intros Hb H. apply string_app_inj_len; [|done].
  apply (f_equal slen) in H. rw !slen_app in H. lia.
Qed.

#[export] Instance string_app_inj_r (b : string) : Inj (=) (=) (λ a, a +:+ b).
Proof. intros a a' H. by apply string_app_inj_len_r in H as [-> _]. Qed.

(** * Prefixes, suffixes, substrings *)

(** [strings.HasPrefix(s, prefix)] *)
Fixpoint HasPrefix (s prefix : string) : bool :=
  match prefix, s with
  | "", _ => true
  | String y p, String x s => bool_decide (x = y) && HasPrefix s p
  | _, _ => false
  end.

Lemma HasPrefix_true s p : HasPrefix s p = true ↔ ∃ r, s = p +:+ r.
Proof.
  revert s; induction p as [|y p IH]; intros s; simpl.
  { split; [exists s; done|by destruct s]. }
  destruct s as [|x s]; simpl.
  { split; [done|]. intros [r Hr]. by rw string_app_cons in Hr. }
  rw andb_true_iff bool_decide_eq_true IH. split.
  - intros [-> [r ->]]. by exists r.
  - intros [r Hr]. rw string_app_cons in Hr. simplify_eq. split; [done|by exists r].
Qed.

Lemma HasPrefix_app p r : HasPrefix (p +:+ r) p = true.
Proof. apply HasPrefix_true. by exists r. Qed.

Lemma HasPrefix_refl s : HasPrefix s s = true.
Proof. apply HasPrefix_true. exists "". by rw string_app_nil_r. Qed.

(** The slice [s[n:]] and [s[:n]] for [n] within bounds. *)
Fixpoint drop_str (n : nat) (s : string) : string :=
  match n, s with
  | O, _ => s
  | S n, String _ s => drop_str n s
  | S _, "" => ""
  end.
Fixpoint take_str (n : nat) (s : string) : string :=
  match n, s with
  | S n, String x s => String x (take_str n s)
  | _, _ => ""
  end.

Lemma take_drop_str n s : take_str n s +:+ drop_str n s = s.
Proof.
  revert s; induction n as [|n IH]; intros [|x s]; simpl; [done..|].
  by rw string_app_cons IH.
Qed.

Lemma slen_take n s : slen (take_str n s) = n `min` slen s.
Proof. revert s; induction n as [|n IH]; intros [|x s]; simpl; [done..|]. by rw IH. Qed.

Lemma slen_drop n s : slen (drop_str n s) = slen s - n.
Proof. revert s; induction n as [|n IH]; intros [|x s]; simpl; [done..|]. by rw IH. Qed.

Lemma take_str_app a b : take_str (slen a) (a +:+ b) = a.
Proof. induction a as [|x a IH]; simpl; [by destruct b|]. by rw IH. Qed.

Lemma drop_str_app a b : drop_str (slen a) (a +:+ b) = b.
Proof. induction a as [|x a IH]; simpl; [by destruct b|]. by rw IH. Qed.

Lemma take_str_all n s : slen s ≤ n → take_str n s = s.
Proof.
  revert s; induction n as [|n IH]; intros [|x s]; simpl; [done|lia|done|].
  intros. f_equal. apply IH. lia.
Qed.

(** The Go slice expression [s[i:j]]: it panics unless [0 <= i <= j <= len(s)]. *)
Definition slice (s : string) (i j : Z) : res string :=
  if bool_decide (0 ≤ i ∧ i ≤ j ∧ j ≤ Z.of_nat (slen s))%Z
  then Ok (take_str (Z.to_nat (j - i)) (drop_str (Z.to_nat i) s))
  else Panic "slice bounds out of range".

Lemma slice_in_bounds s i j :
  (0 ≤ i)%Z → (i ≤ j)%Z → (j ≤ Z.of_nat (slen s))%Z →
  slice s i j = Ok (take_str (Z.to_nat (j - i)) (drop_str (Z.to_nat i) s)).
Proof. intros. unfold slice. by rw bool_decide_eq_true_2. Qed.

(** [strings.HasSuffix(s, suffix)] *)
Definition HasSuffix (s suffix : string) : bool :=
  bool_decide (slen suffix ≤ slen s) &&
  bool_decide (drop_str (slen s - slen suffix) s = suffix).

Lemma HasSuffix_true s p : HasSuffix s p = true ↔ ∃ r, s = r +:+ p.
Proof.
  unfold HasSuffix. rw andb_true_iff !bool_decide_eq_true. split.
  - intros [Hl Hd]. exists (take_str (slen s - slen p) s).
    by rw -{1}(take_drop_str (slen s - slen p) s) Hd.
  - intros [r ->]. rw slen_app. split; [lia|].
    replace (slen r + slen p - slen p) with (slen r) by lia. apply drop_str_app.
Qed.

(** [strings.Contains(s, sub)] *)
Fixpoint Contains (s sub : string) : bool :=
  HasPrefix s sub ||
  match s with
  | "" => false
  | String _ s => Contains s sub
  end.

Lemma Contains_nil sub : Contains "" sub = HasPrefix "" sub.
Proof. cbn. by destruct sub. Qed.
Lemma Contains_cons x s sub :
  Contains (String x s) sub = HasPrefix (String x s) sub || Contains s sub.
Proof. done. Qed.

Lemma Contains_true s sub : Contains s sub = true ↔ ∃ a b, s = a +:+ sub +:+ b.
Proof.
  induction s as [|x s IH].
  - rw Contains_nil HasPrefix_true. split.
    + intros [r Hr]. by exists "", r.
    + intros ([|y a] & b & Hs); [by exists b|done].
  - rw Contains_cons orb_true_iff HasPrefix_true IH. split.
    + intros [[r Hr]|(a & b & ->)]; [by exists "", r|by exists (String x a), b].
    + intros ([|y a] & b & Hs).
      * left. exists b. done.
      * right. rw string_app_cons in Hs. simplify_eq. by exists a, b.
Qed.

Lemma Contains_app_mid a sub b : Contains (a +:+ sub +:+ b) sub = true.
Proof. apply Contains_true. by exists a, b. Qed.

(** [strings.Index(s, sub)]: the byte offset of the first occurrence, or -1. *)
Fixpoint Index_go (off : Z) (s sub : string) : Z :=
  if HasPrefix s sub then off
  else match s with
       | "" => (-1)%Z
       | String _ s => Index_go (off + 1) s sub
       end.
Definition Index (s sub : string) : Z := Index_go 0 s sub.

Lemma Index_go_cons off x s sub :
  Index_go off (String x s) sub =
  if HasPrefix (String x s) sub then off else Index_go (off + 1) s sub.
Proof. done. Qed.

Lemma HasPrefix_slen s p : HasPrefix s p = true → slen p ≤ slen s.
Proof. intros [r ->]%HasPrefix_true. rw slen_app. lia. Qed.

Lemma Index_go_bounds off s sub :
  Contains s sub = true →
  (off ≤ Index_go off s sub)%Z ∧
  (Index_go off s sub + Z.of_nat (slen sub) ≤ off + Z.of_nat (slen s))%Z.
Proof.
  revert off; induction s as [|x s IH]; intros off.
  - rw Contains_nil. destruct sub; simpl; [lia|done].
  - rw Contains_cons Index_go_cons. destruct (HasPrefix _ _) eqn:HP.
    + apply HasPrefix_slen in HP. lia.
    + intros Hc. destruct (IH (off + 1)%Z Hc). cbn [slen]. lia.
Qed.

Lemma Index_bounds s sub :
  Contains s sub = true →
  (0 ≤ Index s sub)%Z ∧ (Index s sub + Z.of_nat (slen sub) ≤ Z.of_nat (slen s))%Z.
Proof. intros Hc. destruct (Index_go_bounds 0 s sub Hc). unfold Index. lia. Qed.

(** * Splitting and joining *)

(** [strings.Cut]-like helper: the text before the first [c] and, when [c]
    occurs, the text after it. *)
Fixpoint cut_byte (c : ascii) (s : string) : string * option string :=
  match s with
  | "" => ("", None)
  | String x s =>
      if bool_decide (x = c) then ("", Some s)
      else let '(a, b) := cut_byte c s in (String x a, b)
  end.

(** [strings.SplitN(s, sep, 2)] for a one-byte separator. *)
Definition SplitN2 (s : string) (c : ascii) : list string :=
  match cut_byte c s with
  | (a, None) => [a]
  | (a, Some b) => [a; b]
  end.

(** [strings.Split(s, sep)] for a one-byte separator. *)
Fixpoint SplitByte (s : string) (c : ascii) : list string :=
  match s with
  | "" => [""]
  | String x s =>
      if bool_decide (x = c) then "" :: SplitByte s c
      else match SplitByte s c with
           | [] => [String x ""]
           | p :: ps => String x p :: ps
           end
  end.

(** [strings.Join(elems, sep)] *)
Fixpoint Join (elems : list string) (sep : string) : string :=
  match elems with
  | [] => ""
  | [s] => s
  | s :: l => s +:+ sep +:+ Join l sep
  end.

Lemma SplitByte_ne_nil s c : SplitByte s c ≠ [].
Proof. destruct s; simpl; [done|]. case_decide; [done|]. by destruct (SplitByte _ _). Qed.

(** Splitting at a byte and joining with it is the identity. *)
Lemma Join_SplitByte s c : Join (SplitByte s c) (String c "") = s.
Proof.
  induction s as [|x s IH]; [done|]. simpl.
  destruct (SplitByte s c) as [|p ps] eqn:E; [by apply SplitByte_ne_nil in E|].
  case_bool_decide as Hx.
  - subst x. trans (String c (Join (p :: ps) (String c ""))); [done|by rw IH].
  - trans (String x (Join (p :: ps) (String c ""))); [by destruct ps|by rw IH].
Qed.

(** [strings.ReplaceAll(s, old, new)] for one-byte [old] and [new]. *)
Fixpoint ReplaceByte (s : string) (old new : ascii) : string :=
  match s with
  | "" => ""
  | String x s => String (if bool_decide (x = old) then new else x) (ReplaceByte s old new)
  end.

(** [strings.Replace(s, old, new, 1)] *)
Fixpoint Replace1 (s old new : string) : string :=
  if HasPrefix s old then new +:+ drop_str (slen old) s
  else match s with
       | "" => ""
       | String x s => String x (Replace1 s old new)
       end.

Lemma Replace1_spec s old new :
  Contains s old = true →
  ∃ a b, s = a +:+ old +:+ b ∧ Replace1 s old new = a +:+ new +:+ b.
Proof.
  induction s as [|x s IH].
  - rw Contains_nil. destruct old; [|done]. intros _. by exists "", "".
  - rw Contains_cons. cbn [Replace1].
    destruct (HasPrefix (String x s) old) eqn:HP; cbn [orb].
    + intros _. apply HasPrefix_true in HP as [r Hr]. exists "", r.
      split; [done|]. by rw Hr drop_str_app.
    + intros (a & b & -> & ->)%IH. by exists (String x a), b.
Qed.

(** [strings.ToLower] on the letters of ASCII, the case mapping of the rule
    identifiers it is applied to. *)
Definition ascii_lower (c : ascii) : ascii :=
  let n := nat_of_ascii c in
  if bool_decide (65 ≤ n ∧ n ≤ 90) then ascii_of_nat (n + 32) else c.
Fixpoint ToLower (s : string) : string :=
  match s with
  | "" => ""
  | String x s => String (ascii_lower x) (ToLower s)
  end.

(** * Cutting a variable *)

Lemma cut_byte_None c s a : cut_byte c s = (a, None) → a = s.
Proof.
  revert a; induction s as [|x s IH]; simpl; intros a H; [by simplify_eq|].
  case_bool_decide; [done|]. destruct (cut_byte c s) as [a' b'] eqn:E.
  simplify_eq. f_equal. by apply IH.
Qed.

Lemma cut_byte_Some c s a b : cut_byte c s = (a, Some b) → s = a +:+ String c b.
Proof.
  revert a; induction s as [|x s IH]; simpl; intros a H; [done|].
  case_bool_decide; [by simplify_eq|]. destruct (cut_byte c s) as [a' b'] eqn:E.
  simplify_eq. rw string_app_cons. f_equal. by apply IH.
Qed.

(** No byte of [s] is [c]. *)
Fixpoint byte_free (c : ascii) (s : string) : bool :=
  match s with
  | "" => true
  | String x s => negb (bool_decide (x = c)) && byte_free c s
  end.

Lemma cut_byte_free c a b : byte_free c a = true → cut_byte c (a +:+ String c b) = (a, Some b).
Proof.
  induction a as [|x a IH]; simpl; intros H.
  { by rw bool_decide_eq_true_2. }
  apply andb_true_iff in H as [H1%negb_true_iff H2]. by rw H1 (IH H2).
Qed.

Lemma cut_byte_key_free c s : byte_free c (cut_byte c s).1 = true.
Proof.
  induction s as [|x s IH]; simpl; [done|].
  case_bool_decide; [done|]. destruct (cut_byte c s) as [a b]. simpl in *.
  rw IH andb_true_r negb_true_iff. by apply bool_decide_eq_false_2.
Qed.

Lemma SplitByte_free c a : byte_free c a = true → SplitByte a c = [a].
Proof.
  induction a as [|x a IH]; [done|]. cbn [byte_free SplitByte]. intros [Hx%negb_true_iff Ha]%andb_true_iff.
  by rw Hx IH.
Qed.
Lemma SplitByte_cons_free c a b : byte_free c a = true → SplitByte (a +:+ String c b) c = a :: SplitByte b c.
Proof.
  induction a as [|x a IH]; intros Ha.
  - rw string_app_nil_l. cbn [SplitByte]. by rw bool_decide_eq_true_2.
  - cbn [byte_free] in Ha. apply andb_true_iff in Ha as [Hx%negb_true_iff Ha]. rw string_app_cons. cbn [SplitByte].
    by rw Hx IH.
Qed.
Lemma byte_free_app c a b : byte_free c (a +:+ b) = byte_free c a && byte_free c b.
Proof.
  induction a as [|x a IH]; [done|]. rw string_app_cons. cbn [byte_free]. by rw IH andb_assoc.
Qed.

(** The parts are free of the byte, and parts that are split back. *)
Lemma SplitByte_parts_free s c e : e ∈ SplitByte s c → byte_free c e = true.
Proof.
  revert e. induction s as [|x s IH]; intros e; cbn [SplitByte]; [by intros ->%list_elem_of_singleton|].
  case_bool_decide as Hx.
  - intros [->|He]%elem_of_cons; [done|by apply IH].
  - destruct (SplitByte s c) as [|p ps] eqn:Hs; [by apply SplitByte_ne_nil in Hs|].
    intros [->|He]%elem_of_cons; [|by apply IH; right].
    cbn [byte_free]. rw bool_decide_eq_false_2; [|done]. apply IH. left.
Qed.
Lemma SplitByte_Join c l : l ≠ [] → Forall (λ e, byte_free c e = true) l → SplitByte (Join l (String c "")) c = l.
Proof.
  intros Hne Hl. induction Hl as [|e l He Hl IH]; [done|]. destruct l as [|e' l]; [by apply SplitByte_free|].
  change (SplitByte (e +:+ String c (Join (e' :: l) (String c ""))) c = e :: e' :: l).
  rw SplitByte_cons_free; [|done]. by rw IH.
Qed.

(** * The [%+q] verb ([strconv.QuoteToASCII]) *)

Fixpoint nats_of_string (s : string) : list nat :=
  match s with
  | "" => []
  | String c s => nat_of_ascii c :: nats_of_string s
  end.

Definition hex_digit (n : nat) : ascii :=
  ascii_of_nat (if bool_decide (n < 10) then 48 + n else 87 + n).

(** [w] lower-case hexadecimal digits of [n]. *)
Fixpoint hex_pad (w : nat) (n : nat) : string :=
  match w with
  | O => ""
  | S w => hex_pad w (n `div` 16) +:+ String (hex_digit (n `mod` 16)) ""
  end.

Definition is_cont (b : nat) : bool := bool_decide (128 ≤ b ∧ b < 192).

(** [utf8.DecodeRune]: the rune at the head of the bytes and its width, or
    [None] for an invalid encoding (which has width 1). *)
Definition decode_rune (bs : list nat) : option (nat * nat) :=
  match bs with
  | [] => None
  | b0 :: tl =>
    if bool_decide (b0 < 128) then Some (b0, 1)
    else if bool_decide (194 ≤ b0 ∧ b0 < 224) then
      match tl with
      | b1 :: _ => if is_cont b1 then Some ((b0 - 192) * 64 + (b1 - 128), 2) else None
      | _ => None
      end
    else if bool_decide (224 ≤ b0 ∧ b0 < 240) then
      match tl with
      | b1 :: b2 :: _ =>
        if is_cont b1 && is_cont b2 &&
           negb (bool_decide (b0 = 224 ∧ b1 < 160)) &&
           negb (bool_decide (b0 = 237 ∧ 160 ≤ b1))
        then Some (((b0 - 224) * 64 + (b1 - 128)) * 64 + (b2 - 128), 3)
        else None
      | _ => None
      end
    else if bool_decide (240 ≤ b0 ∧ b0 < 245) then
      match tl with
      | b1 :: b2 :: b3 :: _ =>
        if is_cont b1 && is_cont b2 && is_cont b3 &&
           negb (bool_decide (b0 = 240 ∧ b1 < 144)) &&
           negb (bool_decide (b0 = 244 ∧ 144 ≤ b1))
        then Some ((((b0 - 240) * 64 + (b1 - 128)) * 64 + (b2 - 128)) * 64 + (b3 - 128), 4)
        else None
      | _ => None
      end
    else None
  end.

(** The escape of one decoded rune inside a quoted string. *)
Definition escape_rune (r : nat) : string :=
  match r with
  | 34 => String "\" (String (ascii_of_nat 34) "")
  | 92 => "\\"
  | 7 => "\a" | 8 => "\b" | 9 => "\t" | 10 => "\n" | 11 => "\v" | 12 => "\f" | 13 => "\r"
  | _ =>
    if bool_decide (32 ≤ r ∧ r < 127) then String (ascii_of_nat r) ""
    else if bool_decide (r < 32 ∨ r = 127) then "\x" +:+ hex_pad 2 r
    else if bool_decide (r < 65536) then "\u" +:+ hex_pad 4 r
    else "\U" +:+ hex_pad 8 r
  end.

(** [fuel] is the number of bytes left, so that every byte is reached. *)
Fixpoint quote_go (fuel : nat) (bs : list nat) : string :=
  match fuel, bs with
  | S fuel, b0 :: tl =>
    match decode_rune bs with
    | Some (r, w) => escape_rune r +:+ quote_go fuel (drop w bs)
    | None => "\x" +:+ hex_pad 2 b0 +:+ quote_go fuel tl
    end
  | _, _ => ""
  end.

Definition dquote : string := String (ascii_of_nat 34) "".

Definition QuoteToASCII (s : string) : string :=
  dquote +:+ quote_go (slen s) (nats_of_string s) +:+ dquote.

(** [%+q] of a slice of strings: the quoted elements in brackets. *)
Definition quote_list (l : list string) : string :=
  "[" +:+ Join (QuoteToASCII <$> l) " " +:+ "]".
(** [%v] of a slice of strings. *)
Definition show_list (l : list string) : string := "[" +:+ Join l " " +:+ "]".

(** * Decimal numerals *)

Definition is_digit (c : ascii) : bool :=
  bool_decide (48 ≤ nat_of_ascii c ∧ nat_of_ascii c ≤ 57).

Lemma pretty_N_char_digit x : is_digit (pretty_N_char x) = true.
Proof. unfold pretty_N_char. by repeat case_match. Qed.

Lemma pretty_N_go_free c x s :
  is_digit c = false → byte_free c s = true → byte_free c (pretty_N_go x s) = true.
Proof.
  intros Hc. revert s. induction (N.lt_wf_0 x) as [x _ IH]; intros s Hs.
  destruct (decide (x = 0)%N) as [->|Hx]; [by rw pretty_N_go_0|].
  rw pretty_N_go_step; [|lia]. apply IH; [by apply N.div_lt; lia|]. cbn [byte_free].
  rw Hs andb_true_r negb_true_iff. apply bool_decide_eq_false_2. intros Heq.
  by rw -Heq pretty_N_char_digit in Hc.
Qed.

(** The numeral of a length has no byte that is not a digit. *)
Lemma itoa_free c n : is_digit c = false → byte_free c (itoa n) = true.
Proof.
  intros Hc. unfold itoa, pretty, pretty_nat, pretty, pretty_N. case_decide.
  - simpl. rw andb_true_r negb_true_iff. apply bool_decide_eq_false_2. intros <-. done.
  - by apply pretty_N_go_free.
Qed.

(** A numeral followed by a non-digit byte can be read back. *)
Lemma itoa_cut_inj c n n' a a' :
  is_digit c = false → itoa n +:+ String c a = itoa n' +:+ String c a' → n = n' ∧ a = a'.
Proof.
  intros Hc H. apply (f_equal (cut_byte c)) in H.
  rw !cut_byte_free in H; [|by apply itoa_free..]. simplify_eq. split; [|done].
  unfold itoa in *. by apply (inj pretty).
Qed.
