(* ===== verification/GoText.v ===== *)
(** More of Go's [strings] and [strconv]: [TrimSpace] and [Atoi], with
    their specifications. *)
From S2P Require Import Prelude GoStrings.
From stdpp Require Import options.

(** * TrimSpace *)

Definition str_of_nats (l : list nat) : string := foldr (λ n s, String (ascii_of_nat n) s) "" l.

(** The UTF-8 encodings of the runes [unicode.IsSpace] accepts. *)
Definition space_encodings : list string :=
  str_of_nats <$>
    [ [9]; [10]; [11]; [12]; [13]; [32]; [194; 133]; [194; 160]; [225; 154; 128];
      [226; 128; 128]; [226; 128; 129]; [226; 128; 130]; [226; 128; 131]; [226; 128; 132];
      [226; 128; 133]; [226; 128; 134]; [226; 128; 135]; [226; 128; 136]; [226; 128; 137];
      [226; 128; 138]; [226; 128; 168]; [226; 128; 169]; [226; 128; 175]; [226; 129; 159];
      [227; 128; 128] ].

Definition space_prefix (s : string) : option string :=
  list_find (λ e, HasPrefix s e = true) space_encodings ≫= λ ie, Some ie.2.
Definition space_suffix (s : string) : option string :=
  list_find (λ e, HasSuffix s e = true) space_encodings ≫= λ ie, Some ie.2.

(** At most one space is taken off per byte of the string. *)
Fixpoint TrimLeftSpace_go (n : nat) (s : string) : string :=
  match n with
  | 0 => s
  | S n => match space_prefix s with
           | Some e => TrimLeftSpace_go n (drop_str (slen e) s)
           | None => s
           end
  end.
Fixpoint TrimRightSpace_go (n : nat) (s : string) : string :=
  match n with
  | 0 => s
  | S n => match space_suffix s with
           | Some e => TrimRightSpace_go n (take_str (slen s - slen e) s)
           | None => s
           end
  end.

(** [strings.TrimSpace] *)
Definition TrimSpace (s : string) : string :=
  let s := TrimLeftSpace_go (slen s) s in TrimRightSpace_go (slen s) s.

Lemma space_encodings_nonempty e : e ∈ space_encodings → 0 < slen e.
Proof.
  intros He. assert (Forall (λ e, 0 < slen e) space_encodings) as H
    by (refine (bool_decide_eq_true_1 _ _); by vm_compute).
  rewrite Forall_forall in H. by apply H.
Qed.

Lemma space_prefix_Some s e :
  space_prefix s = Some e → e ∈ space_encodings ∧ s = e +:+ drop_str (slen e) s.
Proof.
  unfold space_prefix. intros ([i e'] & (Hi & Hp & _)%list_find_Some & [= <-])%bind_Some.
  split; [by eapply list_elem_of_lookup_2|]. apply HasPrefix_true in Hp as [r ->]. by rw drop_str_app.
Qed.

Lemma space_suffix_Some s e :
  space_suffix s = Some e → e ∈ space_encodings ∧ s = take_str (slen s - slen e) s +:+ e.
Proof.
  unfold space_suffix. intros ([i e'] & (Hi & Hp & _)%list_find_Some & [= <-])%bind_Some.
  split; [by eapply list_elem_of_lookup_2|]. apply HasSuffix_true in Hp as [r ->].
  rw slen_app Nat.add_sub. by rw take_str_app.
Qed.

Lemma TrimLeftSpace_spec n s :
  slen s ≤ n → ∃ sp, s = sp +:+ TrimLeftSpace_go n s ∧ space_prefix (TrimLeftSpace_go n s) = None.
Proof.
  revert s; induction n as [|n IH]; intros s Hn.
  { destruct s; [|simpl in Hn; lia]. by exists "". }
  cbn [TrimLeftSpace_go]. destruct (space_prefix s) as [e|] eqn:He; [|by exists ""].
  apply space_prefix_Some in He as [Hin Hs]. apply space_encodings_nonempty in Hin.
  destruct (IH (drop_str (slen e) s)) as (sp & Hsp & Hnone); [rw slen_drop; lia|].
  exists (e +:+ sp). split; [|done]. by rw string_app_assoc -Hsp -Hs.
Qed.

Lemma TrimRightSpace_spec n s :
  slen s ≤ n → ∃ sp, s = TrimRightSpace_go n s +:+ sp ∧ space_suffix (TrimRightSpace_go n s) = None.
Proof.
  revert s; induction n as [|n IH]; intros s Hn.
  { destruct s; [|simpl in Hn; lia]. by exists "". }
  cbn [TrimRightSpace_go]. destruct (space_suffix s) as [e|] eqn:He.
  2:{ exists "". by rw string_app_nil_r. }
  apply space_suffix_Some in He as [Hin Hs]. apply space_encodings_nonempty in Hin.
  destruct (IH (take_str (slen s - slen e) s)) as (sp & Hsp & Hnone); [rw slen_take; lia|].
  exists (sp +:+ e). split; [|done]. by rw -string_app_assoc -Hsp -Hs.
Qed.

(** Trimming takes a prefix and a suffix off, and leaves no space at the end. *)
Lemma TrimSpace_spec s :
  ∃ sp sp', s = sp +:+ TrimSpace s +:+ sp' ∧ space_suffix (TrimSpace s) = None.
Proof.
  unfold TrimSpace. destruct (TrimLeftSpace_spec (slen s) s) as (sp & Hs & _); [done|].
  set (t := TrimLeftSpace_go (slen s) s) in *.
  destruct (TrimRightSpace_spec (slen t) t) as (sp' & Ht & Hnone); [done|].
  exists sp, sp'. split; [|done]. by rw -Ht.
Qed.

(** * Atoi *)

Fixpoint digits_value (s : string) (acc : Z) : option Z :=
  match s with
  | "" => Some acc
  | String c s =>
      if is_digit c then digits_value s (10 * acc + (Z.of_nat (nat_of_ascii c) - 48))%Z else None
  end.

Definition atoi_error (s : string) : error := External ("strconv.Atoi: parsing " +:+ s).

(** [strconv.Atoi], where int has 64 bits. *)
Definition Atoi (s : string) : res Z :=
  let '(neg, ds) := match s with
                    | String "-" r => (true, r)
                    | String "+" r => (false, r)
                    | _ => (false, s)
                    end in
  match ds with
  | "" => Err (atoi_error s)
  | _ =>
    match digits_value ds 0 with
    | None => Err (atoi_error s)
    | Some n =>
        if (neg : bool) then (if bool_decide (2 ^ 63 < n)%Z then Err (atoi_error s) else Ok (- n)%Z)
        else (if bool_decide (2 ^ 63 ≤ n)%Z then Err (atoi_error s) else Ok n)
    end
  end.

Lemma digits_value_nonneg s acc n : (0 ≤ acc)%Z → digits_value s acc = Some n → (0 ≤ n)%Z.
Proof.
  revert acc; induction s as [|c s IH]; intros acc Hacc; simpl; [by intros [= <-]|].
  unfold is_digit. case_bool_decide as Hc; [|done]. intros H. eapply IH; [|exact H]. lia.
Qed.

(** What [Atoi] reads fits an int. *)
Lemma Atoi_range s n : Atoi s = Ok n → (- 2 ^ 63 ≤ n < 2 ^ 63)%Z.
Proof.
  unfold Atoi. destruct (match s with String "-" r => _ | String "+" r => _ | _ => _ end) as [neg ds].
  destruct ds as [|c ds]; [done|]. destruct (digits_value (String c ds) 0) as [v|] eqn:Hv; [|done].
  apply digits_value_nonneg in Hv; [|done]. destruct neg; case_bool_decide; intros; simplify_eq; lia.
Qed.

Definition nul : ascii := Ascii.zero.

(** [utf8.ValidString] *)
Fixpoint valid_utf8_go (fuel : nat) (bs : list nat) : bool :=
  match fuel, bs with
  | S fuel, _ :: _ => match decode_rune bs with Some (_, w) => valid_utf8_go fuel (drop w bs) | None => false end
  | _, _ => true
  end.
Definition valid_utf8 (s : string) : bool := valid_utf8_go (slen s) (nats_of_string s).

(** [strings.CutPrefix] *)
Definition CutPrefix (s prefix : string) : option string :=
  if HasPrefix s prefix then Some (drop_str (slen prefix) s) else None.

Lemma CutPrefix_app p s : CutPrefix (p +:+ s) p = Some s.
Proof. unfold CutPrefix. rw HasPrefix_app. by rw drop_str_app. Qed.
Lemma CutPrefix_Some s p t : CutPrefix s p = Some t ↔ s = p +:+ t.
Proof.
  split; [|by intros ->; apply CutPrefix_app]. unfold CutPrefix. destruct (HasPrefix s p) eqn:Hp; [|done].
  apply HasPrefix_true in Hp as [r ->]. rw drop_str_app. by intros [= ->].
Qed.

(** * encoding/json *)

(** What encoding/json decodes into an [interface{}]; a number is kept as it prints. *)
Inductive Json :=
  | JNull
  | JBool (b : bool)
  | JNumber (repr : string)
  | JString (s : string)
  | JArray (l : list Json)
  | JObject (m : gmap string Json).

(** The index expression [m[k]], whose value is nil when there is no such key, and the
    comparison of it with nil. *)
Definition json_index (m : gmap string Json) (k : string) : Json := default JNull (m !! k).
Definition json_is_nil (v : Json) : bool := match v with JNull => true | _ => false end.

(** The assertions [v.(string)] and [v.(map[string]interface{})]. *)
Definition assert_string (v : Json) : res string :=
  match v with JString s => Ok s | _ => Panic "interface conversion: interface {} is not string" end.
Definition assert_object (v : Json) : res (gmap string Json) :=
  match v with JObject m => Ok m | _ => Panic "interface conversion: interface {} is not map[string]interface {}" end.
(** [v.(map[string]interface{})] with a second result *)
Definition as_object (v : Json) : option (gmap string Json) :=
  match v with JObject m => Some m | _ => None end.
