(* ===== verification/Errors.v ===== *)
(** The [Error] methods of the error types (cryptoutil/signer.go,
    cryptoutil/util.go, cryptoutil/digestset.go, dsse/dsse.go, policy/errors.go,
    source/memory.go, attestation/context.go, attestation/factory.go, the attestors
    of tokens and CI systems, signer/spiffe/spiffe.go). *)
From S2P Require Import Prelude GoStrings.
From stdpp Require Import options.

(** What fmt prints for a [%v]/[%w]/[%s] operand whose [Error] method panics: it
    recovers and reports the panic in the output. *)
Definition fmt_panic : string :=
  "%!v(PANIC=Error method: runtime error: invalid memory address or nil pointer dereference)".

(** One line of [ErrNoMatchingSigs.Error]: nothing for a verifier without an
    error, a nil dereference ([None]) for a nil verifier, and otherwise the key
    id (empty when [KeyID] fails) and the error as fmt prints it. *)
Definition NoMatchingSigs_line (v : option (option string)) (e : option (option string)) : option string :=
  match e with
  | None => Some ""
  | Some e_text =>
    match v with
    | None => None
    | Some kid => Some ("  " +:+ default "" kid +:+ ": " +:+ default fmt_panic e_text +:+
                        String (ascii_of_nat 10) "")
    end
  end.

Fixpoint concat_opt (l : list (option string)) : option string :=
  match l with
  | [] => Some ""
  | x :: l => s ← x; t ← concat_opt l; Some (s +:+ t)
  end.

Definition nl : string := String (ascii_of_nat 10) "".

(** A call of [err.Error()]; [None] when the call panics. *)
Fixpoint Error (e : error) : option string :=
  match e with
  | Errorf m => Some m
  | External m => Some m
  | Wrapf m e => Some (m +:+ ": " +:+ default fmt_panic (Error e))
  | Wrapped b e a => Some (b +:+ default fmt_panic (Error e) +:+ a)
  | Joined es => l ← mapM id (map Error es); Some (Join l nl)
  | ErrUnsupportedHash n => Some ("unsupported hash function: " +:+ n)
  | ErrUnsupportedPEM t => Some ("unsupported pem type: " +:+ t)
  | ErrInvalidPemBlock => Some "invalid pem block"
  | ErrUnsupportedKeyType t => Some ("unsupported signer key type: " +:+ t)
  | ErrVerifyFailed => Some "verification failed"
  | ErrInvalidSigner => Some "signer must not be nil"
  | ErrInvalidCertificate => Some "certificate must not be nil"
  | ErrNoSignatures => Some "no signatures in dsse envelope"
  | ErrNoMatchingSigs vs =>
      t ← concat_opt (map (λ v, NoMatchingSigs_line v.1
            (match v.2 with Some e => Some (Error e) | None => None end)) vs);
      Some ("no valid signatures for the provided verifiers found for keyids:" +:+ nl +:+ t)
  | ErrThresholdNotMet t a =>
      Some ("envelope did not meet verifier threshold. expected " +:+ ztoa t +:+
            " valid verifiers but got " +:+ ztoa a)
  | ErrInvalidThreshold t =>
      Some ("invalid threshold (" +:+ ztoa t +:+ "). thresholds must be greater than 0")
  | ErrDuplicateReference r =>
      Some ("references may only appear once in a memory source: " +:+ r)
  | ErrAttestor n r reason =>
      Some ("error returned for attestor " +:+ n +:+ " of run type " +:+ r +:+ ": " +:+ reason)
  | ErrAttestationNotFound t => Some ("attestation not found: " +:+ t)
  | ErrAttestorNotFound t => Some ("attestor not found: " +:+ t)
  | ErrVerifyArtifactsFailed rs => Some ("failed to verify artifacts: " +:+ show_list rs)
  | ErrNoCollections s => Some ("no collections found for step " +:+ s)
  | ErrMissingAttestation s a =>
      Some ("missing attestation in collection for step " +:+ s +:+ ": " +:+ a)
  | ErrPolicyExpired t => Some ("policy expired on " +:+ time_text t)
  | ErrKeyIDMismatch ex ac =>
      Some ("public key in policy has expected key id " +:+ ex +:+ " but got " +:+ ac)
  | ErrMismatchArtifact p => Some ("mismatched digests for " +:+ p)
  | ErrRegoInvalidData p ex ac =>
      Some ("invalid data from rego at " +:+ p +:+ ", expected " +:+ ex +:+ " but got " +:+ ac)
  | ErrPolicyDenied rs => Some ("policy was denied due to: " +:+ Join rs ", ")
  | ErrConstraintCheckFailed es =>
      Some ("cert failed constraints check: " +:+
            quote_list (map (λ e, default fmt_panic (Error e)) es))
  | ErrInvalidOption o r => Some ("invalid option (" +:+ o +:+ "): " +:+ r)
  | ErrUnknownStep s => Some ("policy has no step named " +:+ s)
  | ErrArtifactCycle s => Some ("cycle detected in step's artifact dependencies: " +:+ s)
  | ErrInvalidToken t => Some ("invalid token: " +:+ dquote +:+ t +:+ dquote)
  | ErrNotGitlab => Some "not in a gitlab ci job"
  | ErrNotGitHub => Some "not in a github ci job"
  | ErrNotJenkins => Some "not in a jenkins ci job"
  | ErrNotGCPIIT => Some "not a GCP IIT JWT"
  | ErrInvalidSVID r => Some ("invalid svid: " +:+ r)
  end.

(** The text fmt prints for an error operand. *)
Definition fmt_err (e : error) : string := default fmt_panic (Error e).
