(* ===== verification/Crypto.v ===== *)
(** cryptoutil: keys, verifiers, signers and X.509 wrappers (util.go,
    verifier.go, signer.go, rsa.go, ecdsa.go, ed25519.go, x509.go).

    The cryptographic primitives (crypto/rsa, crypto/ecdsa, crypto/ed25519, the
    hash functions, the DER parsers of crypto/x509 and its chain verification,
    pem, and the third-party decrypters) are the fields of the class
    [CryptoLib]; what the signature schemes promise is [SignatureLaws]. *)
From S2P Require Import Prelude GoStrings.
From stdpp Require Import options.

(** * Hash identifiers ([crypto.Hash]) *)

Abbreviation Hash := N (only parsing).
Definition SHA1 : Hash := 3%N.
Definition SHA256 : Hash := 5%N.
Definition SHA384 : Hash := 6%N.
Definition SHA512 : Hash := 7%N.

(** [crypto.Hash.String] *)
Definition Hash_String (h : Hash) : string :=
  match h with
  | 1%N => "MD4" | 2%N => "MD5" | 3%N => "SHA-1" | 4%N => "SHA-224"
  | 5%N => "SHA-256" | 6%N => "SHA-384" | 7%N => "SHA-512" | 8%N => "MD5+SHA1"
  | 9%N => "RIPEMD-160" | 10%N => "SHA3-224" | 11%N => "SHA3-256"
  | 12%N => "SHA3-384" | 13%N => "SHA3-512" | 14%N => "SHA-512/224"
  | 15%N => "SHA-512/256" | 16%N => "BLAKE2s-256" | 17%N => "BLAKE2b-256"
  | 18%N => "BLAKE2b-384" | 19%N => "BLAKE2b-512"
  | _ => "unknown hash value " +:+ pretty h
  end.

(** * The cryptographic libraries *)

(** Key material by Go type, over the abstract key types of [CryptoLib]. *)
Inductive AnyKeyOf (rpub rpriv epub epriv dpub dpriv : Type) : Type :=
  | KRSAPublic (k : rpub)
  | KRSAPrivate (k : rpriv)
  | KECDSAPublic (k : epub)
  | KECDSAPrivate (k : epriv)
  | KEd25519Public (k : dpub)
  | KEd25519Private (k : dpriv)
  | KOther (go_type : string).
Arguments KRSAPublic {_ _ _ _ _ _} k.
Arguments KRSAPrivate {_ _ _ _ _ _} k.
Arguments KECDSAPublic {_ _ _ _ _ _} k.
Arguments KECDSAPrivate {_ _ _ _ _ _} k.
Arguments KEd25519Public {_ _ _ _ _ _} k.
Arguments KEd25519Private {_ _ _ _ _ _} k.
Arguments KOther {_ _ _ _ _ _} go_type.

(** The fields of [x509.Certificate] the source reads; [URIs] are the strings
    [url.URL.String] gives, [Extensions] pairs of object identifier and value. *)
Record CertificateOf (key : Type) := mkCertificate {
  Raw : bytes;
  PublicKey : key;
  CommonName : string;
  Organization : list string;
  DNSNames : list string;
  EmailAddresses : list string;
  URIs : list string;
  Extensions : list (string * bytes);
}.
Arguments mkCertificate {key}.
Arguments Raw {key}.
Arguments PublicKey {key}.
Arguments CommonName {key}.
Arguments Organization {key}.
Arguments DNSNames {key}.
Arguments EmailAddresses {key}.
Arguments URIs {key}.
Arguments Extensions {key}.

(** A [pem.Block]; [DEKInfo] says whether its headers have a DEK-Info entry. *)
Record PemBlock := mkPemBlock { pem_Type : string; pem_DEKInfo : bool; pem_Bytes : bytes }.

(** What [interface{}] holds when the parsers return: a key or a certificate. *)
Inductive parsedOf (key cert : Type) : Type :=
  | PKey (k : key)
  | PCert (c : cert).
Arguments PKey {_ _} k.
Arguments PCert {_ _} c.

(** The password option handed to pemutil: an interactive prompt that answers
    with the empty password, or a password. *)
Inductive pemutil_option := WithPasswordPromptEmpty | WithPassword (pw : bytes).

Class CryptoLib := {
  RSAPublicKey : Type;  RSAPrivateKey : Type;
  ECDSAPublicKey : Type; ECDSAPrivateKey : Type;
  Ed25519PublicKey : Type; Ed25519PrivateKey : Type;
  AnyKey := AnyKeyOf RSAPublicKey RSAPrivateKey ECDSAPublicKey ECDSAPrivateKey
                     Ed25519PublicKey Ed25519PrivateKey;
  Certificate := CertificateOf AnyKey;
  (* the linked hash functions: [None] when Hash.New would panic *)
  hash_sum : Hash → option (bytes → bytes);
  rsa_public : RSAPrivateKey → RSAPublicKey;
  ecdsa_public : ECDSAPrivateKey → ECDSAPublicKey;
  ed25519_public : Ed25519PrivateKey → Ed25519PublicKey;
  (* signing: the first argument is what rand.Reader delivers *)
  rsa_SignPSS : bytes → RSAPrivateKey → Hash → bytes → res bytes;
  rsa_VerifyPSS : RSAPublicKey → Hash → bytes → bytes → err;
  rsa_VerifyPKCS1v15 : RSAPublicKey → Hash → bytes → bytes → err;
  ecdsa_SignASN1 : bytes → ECDSAPrivateKey → bytes → res bytes;
  ecdsa_VerifyASN1 : ECDSAPublicKey → bytes → bytes → bool;
  ed25519_Sign : Ed25519PrivateKey → bytes → bytes;
  ed25519_Verify : Ed25519PublicKey → bytes → bytes → bool;
  (* crypto/x509 and encoding/pem *)
  MarshalPKIXPublicKey : AnyKey → res bytes;
  ParsePKCS8PrivateKey : bytes → res AnyKey;
  ParsePKCS1PrivateKey : bytes → res RSAPrivateKey;
  ParseECPrivateKey : bytes → res ECDSAPrivateKey;
  ParsePKIXPublicKey : bytes → res AnyKey;
  ParsePKCS1PublicKey : bytes → res RSAPublicKey;
  ParseCertificate : bytes → res Certificate;
  DecryptPEMBlock : PemBlock → bytes → res bytes;
  pem_Decode : bytes → option PemBlock;
  pem_Encode : string → bytes → bytes;
  (* chain verification with any extended key usage: roots, intermediates and
     the time, [None] for the zero time, where the library takes the clock *)
  x509_Verify : Certificate → list Certificate → list Certificate → option Z → err;
  (* github.com/secure-systems-lab/go-securesystemslib/encrypted *)
  encrypted_Decrypt : bytes → bytes → res bytes;
  (* go.step.sm/crypto/pemutil *)
  pemutil_ParseCosignPrivateKey : bytes → bytes → res (parsedOf AnyKey Certificate);
  pemutil_Parse : bytes → pemutil_option → res (parsedOf AnyKey Certificate);
}.

(** What a signature scheme documents: a signature made with a private key is
    accepted under its public key, for the digest that was signed, and
    verification reports bad signatures as errors. *)
Class SignatureLaws `{CL : CryptoLib} := {
  rsa_sign_verify rnd k h d s :
    rsa_SignPSS rnd k h d = Ok s → rsa_VerifyPSS (rsa_public k) h d s = nil_error;
  ecdsa_sign_verify rnd k d s :
    ecdsa_SignASN1 rnd k d = Ok s → ecdsa_VerifyASN1 (ecdsa_public k) d s = true;
  ed25519_sign_verify k m :
    ed25519_Verify (ed25519_public k) m (ed25519_Sign k m) = true;
  rsa_VerifyPSS_no_panic k h d s : no_panic (rsa_VerifyPSS k h d s);
  rsa_VerifyPKCS1v15_no_panic k h d s : no_panic (rsa_VerifyPKCS1v15 k h d s);
}.

(** * Hex ([encoding/hex]) *)

Definition hex_byte (c : ascii) : string :=
  let n := nat_of_ascii c in
  String (hex_digit (n `div` 16)) (String (hex_digit (n `mod` 16)) "").

(** util.go: [HexEncode] ([hex.Encode] into a fresh slice). *)
Fixpoint HexEncode (src : bytes) : bytes :=
  match src with
  | "" => ""
  | String c s => hex_byte c +:+ HexEncode s
  end.

Definition unhex_digit (c : ascii) : option nat :=
  let n := nat_of_ascii c in
  if bool_decide (48 ≤ n ∧ n ≤ 57) then Some (n - 48)
  else if bool_decide (97 ≤ n ∧ n ≤ 102) then Some (n - 87)
  else if bool_decide (65 ≤ n ∧ n ≤ 70) then Some (n - 55)
  else None.

(** [hex.DecodeString] *)
Fixpoint HexDecode (s : string) : option bytes :=
  match s with
  | "" => Some ""
  | String a (String b s) =>
      x ← unhex_digit a; y ← unhex_digit b; t ← HexDecode s;
      Some (String (ascii_of_nat (16 * x + y)) t)
  | String _ "" => None
  end.

Lemma unhex_hex_digit n : n < 16 → unhex_digit (hex_digit n) = Some n.
Proof. intros H. do 16 (destruct n as [|n]; [done|]). lia. Qed.

Lemma HexDecode_HexEncode s : HexDecode (HexEncode s) = Some s.
Proof.
  induction s as [|c s IH]; [done|].
  assert (Hc : nat_of_ascii c < 256) by apply nat_ascii_bounded.
  assert (HexEncode (String c s) =
    String (hex_digit (nat_of_ascii c `div` 16))
      (String (hex_digit (nat_of_ascii c `mod` 16)) (HexEncode s))) as -> by done.
  pose proof (Nat.div_mod_eq (nat_of_ascii c) 16) as Hdm.
  pose proof (Nat.mod_upper_bound (nat_of_ascii c) 16 ltac:(done)) as Hm.
  assert (Hd : nat_of_ascii c `div` 16 < 16) by (apply Nat.Div0.div_lt_upper_bound; lia).
  cbn [HexDecode]. rw (unhex_hex_digit _ Hd) (unhex_hex_digit _ Hm).
  cbn [mbind option_bind]. rw IH. cbn [mbind option_bind].
  rw -Hdm. by rw ascii_nat_embedding.
Qed.

#[export] Instance HexEncode_inj : Inj (=) (=) HexEncode.
Proof. intros a b H. apply (f_equal HexDecode) in H. rw !HexDecode_HexEncode in H. by simplify_eq. Qed.

Lemma slen_HexEncode s : slen (HexEncode s) = 2 * slen s.
Proof. induction s as [|c s IH]; [done|]. cbn [HexEncode]. rw slen_app IH. simpl. lia. Qed.

Section util.
Context `{CL : CryptoLib}.

Abbreviation parsed := (parsedOf AnyKey Certificate) (only parsing).

(** * util.go *)

(** [io.ReadAll] of a reader: its bytes or its error. *)
Definition Reader := res bytes.

(** [Digest]/[DigestBytes]: [hash.New()] panics when the hash is not linked. *)
Definition DigestBytes (data : bytes) (hash : Hash) : res bytes :=
  match hash_sum hash with
  | Some h => Ok (h data)
  | None => Panic "crypto: requested hash function is unavailable"
  end.

Definition PublicPemBytes (pub : AnyKey) : res bytes :=
  keyBytes ← MarshalPKIXPublicKey pub;
  Ok (pem_Encode "PUBLIC KEY" keyBytes).

Definition GeneratePublicKeyID (pub : AnyKey) (hash : Hash) : res string :=
  pemBytes ← PublicPemBytes pub;
  digest ← DigestBytes pemBytes hash;
  Ok (HexEncode digest).

Definition PublicKeyPEMType : string := "PUBLIC KEY".
Definition PKCS1PublicKeyPEMType : string := "RSA PUBLIC KEY".
Definition sigstoreEncryptedPEMType : string := "ENCRYPTED SIGSTORE PRIVATE KEY".
Definition cosignEncryptedPEMType : string := "ENCRYPTED COSIGN PRIVATE KEY".

Definition UnmarshalPEMToPublicKey (pemBytes : bytes) : res AnyKey :=
  match pem_Decode pemBytes with
  | None => Err (Errorf "PEM decoding failed")
  | Some b =>
    if bool_decide (pem_Type b = PublicKeyPEMType) then ParsePKIXPublicKey (pem_Bytes b)
    else if bool_decide (pem_Type b = PKCS1PublicKeyPEMType)
    then KRSAPublic <$> ParsePKCS1PublicKey (pem_Bytes b)
    else Err (Errorf ("unknown Public key PEM file type: " +:+ pem_Type b +:+
                      ". Are you passing the correct public key?"))
  end.

Definition isSigstorePEMType (t : string) : bool :=
  bool_decide (t = sigstoreEncryptedPEMType) || bool_decide (t = cosignEncryptedPEMType).

(** [if key, err := parse(...); err == nil { return key, nil }] in sequence. *)
Fixpoint first_parse (ps : list (res parsed)) (otherwise : res parsed) : res parsed :=
  match ps with
  | [] => otherwise
  | Err _ :: ps => first_parse ps otherwise
  | p :: _ => p
  end.

(** The unencrypted formats, in the order the source tries them. *)
Definition unencrypted_parsers (der : bytes) : list (res parsed) :=
  [ PKey <$> ParsePKCS8PrivateKey der;
    (λ k, PKey (KRSAPrivate k)) <$> ParsePKCS1PrivateKey der;
    (λ k, PKey (KECDSAPrivate k)) <$> ParseECPrivateKey der;
    PKey <$> ParsePKIXPublicKey der;
    (λ k, PKey (KRSAPublic k)) <$> ParsePKCS1PublicKey der;
    PCert <$> ParseCertificate der ].

Definition TryParsePEMBlockWithPassword (block : option PemBlock) (password : option bytes)
    : res parsed :=
  match block with
  | None => Err ErrInvalidPemBlock
  | Some b =>
    match password with
    | None =>
      if isSigstorePEMType (pem_Type b)
      then Err (Errorf "encrypted sigstore private key requires a passphrase (use --key-passphrase, --key-passphrase-path, or WITNESS_KEY_PASSPHRASE)")
      else first_parse (unencrypted_parsers (pem_Bytes b)) (Err (ErrUnsupportedPEM (pem_Type b)))
    | Some pw =>
      if isSigstorePEMType (pem_Type b) then
        der ← wrap "failed to decrypt sigstore private key" (encrypted_Decrypt (pem_Bytes b) pw);
        key ← wrap "failed to parse decrypted sigstore private key" (ParsePKCS8PrivateKey der);
        Ok (PKey key)
      else if pem_DEKInfo b then
        decryptedDER ← wrap "failed to decrypt legacy encrypted PEM" (DecryptPEMBlock b pw);
        first_parse
          [ (λ k, PKey (KRSAPrivate k)) <$> ParsePKCS1PrivateKey decryptedDER;
            (λ k, PKey (KECDSAPrivate k)) <$> ParseECPrivateKey decryptedDER;
            PKey <$> ParsePKCS8PrivateKey decryptedDER ]
          (Err (Errorf "decrypted legacy encrypted PEM does not contain a supported private key format"))
      else first_parse (unencrypted_parsers (pem_Bytes b)) (Err (ErrUnsupportedPEM (pem_Type b)))
    end
  end.

Definition TryParsePEMBlock (block : option PemBlock) : res parsed :=
  TryParsePEMBlockWithPassword block None.

Definition TryParseKeyFromReaderWithPassword (r : Reader) (password : option bytes) : res parsed :=
  data ← r;
  match pem_Decode data, password with
  | Some b, Some pw =>
    if bool_decide (pem_Type b = sigstoreEncryptedPEMType) ||
       bool_decide (pem_Type b = cosignEncryptedPEMType)
    then pemutil_ParseCosignPrivateKey (pem_Bytes b) pw
    else if isSigstorePEMType (pem_Type b)
    then TryParsePEMBlockWithPassword (Some b) password
    else pemutil_Parse data
           (if bool_decide (slen pw = 0) then WithPasswordPromptEmpty else WithPassword pw)
  | None, Some pw =>
    pemutil_Parse data
      (if bool_decide (slen pw = 0) then WithPasswordPromptEmpty else WithPassword pw)
  | block, None => TryParsePEMBlockWithPassword block None
  end.

Definition TryParseKeyFromReader (r : Reader) : res parsed :=
  TryParseKeyFromReaderWithPassword r None.

Definition TryParseCertificate (data : bytes) : res Certificate :=
  possibleCert ← TryParseKeyFromReader (Ok data);
  match possibleCert with
  | PCert cert => Ok cert
  | PKey _ => Err (Errorf "data was a valid verifier but not a certificate")
  end.

Definition isSupportedAlg (alg : Hash) (supportedAlgs : option (list Hash)) : bool :=
  match supportedAlgs with
  | None => true
  | Some l => existsb (λ supportedAlg, bool_decide (alg = supportedAlg)) l
  end.

(** [supportedHashFuncs] is [None] for a nil slice. The error text quotes the
    hash name and prints the list of names. *)
Definition ComputeDigest (rawMessage : Reader) (hashFunc : Hash)
    (supportedHashFuncs : option (list Hash)) : res (bytes * Hash) :=
  if isSupportedAlg hashFunc supportedHashFuncs then
    data ← rawMessage;
    digest ← DigestBytes data hashFunc;
    Ok (digest, hashFunc)
  else Err (Errorf ("unsupported hash algorithm: " +:+ dquote +:+ Hash_String hashFunc +:+
                    dquote +:+ " not in " +:+
                    show_list (Hash_String <$> default [] supportedHashFuncs))).
End util.
