(* ===== verification/Encodings.v ===== *)
(** Go's [encoding/base64], [encoding/hex] and [net/url] decoders, and the finders
    of encoded text of attestation/secretscan/encoding.go, whose regular
    expressions are matched by hand-written leftmost-first matchers. *)
From S2P Require Import Prelude GoStrings Crypto.
From stdpp Require Import options.

(** * base64: StdEncoding and RawURLEncoding *)

Definition base64_char (n : nat) : ascii :=
  if bool_decide (n < 26) then ascii_of_nat (65 + n)
  else if bool_decide (n < 52) then ascii_of_nat (71 + n)
  else if bool_decide (n < 62) then ascii_of_nat (n - 4)
  else if bool_decide (n = 62) then "+"%char else "/"%char.

Fixpoint base64 (s : string) : string :=
  match s with
  | "" => ""
  | String a "" =>
      let n := nat_of_ascii a in
      String (base64_char (n `div` 4)) (String (base64_char (16 * (n `mod` 4))) "==")
  | String a (String b "") =>
      let n := nat_of_ascii a in let m := nat_of_ascii b in
      String (base64_char (n `div` 4)) (String (base64_char (16 * (n `mod` 4) + m `div` 16))
        (String (base64_char (4 * (m `mod` 16))) "="))
  | String a (String b (String c s)) =>
      let n := nat_of_ascii a in let m := nat_of_ascii b in let k := nat_of_ascii c in
      String (base64_char (n `div` 4)) (String (base64_char (16 * (n `mod` 4) + m `div` 16))
        (String (base64_char (4 * (m `mod` 16) + k `div` 64)) (String (base64_char (k `mod` 64)) (base64 s))))
  end.

Definition between (lo hi : nat) (c : ascii) : bool :=
  bool_decide (lo ≤ nat_of_ascii c ∧ nat_of_ascii c ≤ hi).
Definition is_alnum (c : ascii) : bool := between 65 90 c || between 97 122 c || between 48 57 c.

(** The value of a digit; the URL alphabet has [-] and [_] for [+] and [/]. *)
Definition b64_digit (url : bool) (c : ascii) : option nat :=
  if between 65 90 c then Some (nat_of_ascii c - 65)
  else if between 97 122 c then Some (nat_of_ascii c - 71)
  else if between 48 57 c then Some (nat_of_ascii c + 4)
  else if bool_decide (c = if url then "-"%char else "+"%char) then Some 62
  else if bool_decide (c = if url then "_"%char else "/"%char) then Some 63
  else None.

Definition b64_byte1 (x y : nat) : ascii := ascii_of_nat (4 * x + y `div` 16).
Definition b64_byte2 (y z : nat) : ascii := ascii_of_nat (16 * (y `mod` 16) + z `div` 4).
Definition b64_byte3 (z w : nat) : ascii := ascii_of_nat (64 * (z `mod` 4) + w).

(** Four digits at a time. With padding, an [=] is only allowed in the last
    quantum; without it, the last quantum has two or three digits. *)
Fixpoint b64_quanta (url padded : bool) (s : string) : option string :=
  match s with
  | "" => Some ""
  | String a (String b (String c (String d s'))) =>
      x ← b64_digit url a; y ← b64_digit url b;
      match b64_digit url c with
      | Some z =>
          match b64_digit url d with
          | Some w =>
              t ← b64_quanta url padded s';
              Some (String (b64_byte1 x y) (String (b64_byte2 y z) (String (b64_byte3 z w) t)))
          | None =>
              if padded && bool_decide (d = "="%char) && bool_decide (s' = "")
              then Some (String (b64_byte1 x y) (String (b64_byte2 y z) "")) else None
          end
      | None =>
          if padded && bool_decide (c = "="%char) && bool_decide (d = "="%char) && bool_decide (s' = "")
          then Some (String (b64_byte1 x y) "") else None
      end
  | String a (String b (String c "")) =>
      if padded then None
      else x ← b64_digit url a; y ← b64_digit url b; z ← b64_digit url c;
           Some (String (b64_byte1 x y) (String (b64_byte2 y z) ""))
  | String a (String b "") =>
      if padded then None
      else x ← b64_digit url a; y ← b64_digit url b; Some (String (b64_byte1 x y) "")
  | String _ "" => None
  end.

Fixpoint drop_newlines (s : string) : string :=
  match s with
  | "" => ""
  | String c s =>
      if bool_decide (nat_of_ascii c = 10 ∨ nat_of_ascii c = 13) then drop_newlines s else String c (drop_newlines s)
  end.
(** [DecodeString], which ignores line ends. *)
Definition b64_DecodeString (url padded : bool) (s : string) : option string :=
  b64_quanta url padded (drop_newlines s).

(** * net/url: QueryUnescape *)

Fixpoint QueryUnescape (s : string) : option string :=
  match s with
  | "" => Some ""
  | String "%" r =>
      match r with
      | String a (String b r') =>
          x ← unhex_digit a; y ← unhex_digit b; t ← QueryUnescape r';
          Some (String (ascii_of_nat (16 * x + y)) t)
      | _ => None
      end
  | String "+" r => t ← QueryUnescape r; Some (String " " t)
  | String c r => t ← QueryUnescape r; Some (String c t)
  end.

(** * Finders *)

(** The length of the longest prefix of bytes of a class. *)
Fixpoint run (p : ascii → bool) (s : string) : nat :=
  match s with
  | String c s => if p c then S (run p s) else 0
  | "" => 0
  end.

(** [FindAllString(s, -1)] for a matcher that gives the length of the match at
    the start of its argument, which is not empty. *)
Fixpoint find_all_go (m : string → option nat) (fuel : nat) (s : string) : list string :=
  match fuel, s with
  | S fuel, String _ tl =>
      match m s with
      | Some k => take_str k s :: find_all_go m fuel (drop_str k s)
      | None => find_all_go m fuel tl
      end
  | _, _ => []
  end.
Definition find_all (m : string → option nat) (s : string) : list string := find_all_go m (slen s) s.

(** encoding.go: [[A-Za-z0-9+/]{15,}={0,2}|[A-Za-z0-9_-]{15,}={0,2}] *)
Definition std_class (c : ascii) : bool := is_alnum c || bool_decide (c = "+"%char ∨ c = "/"%char).
Definition url_class (c : ascii) : bool := is_alnum c || bool_decide (c = "_"%char ∨ c = "-"%char).
Definition is_eq (c : ascii) : bool := bool_decide (c = "="%char).
Definition base64_alternative (p : ascii → bool) (s : string) : option nat :=
  let n := run p s in
  if bool_decide (15 ≤ n) then Some (n + run is_eq (drop_str n s) `min` 2) else None.
Definition base64Regex (s : string) : option nat :=
  match base64_alternative std_class s with
  | Some n => Some n
  | None => base64_alternative url_class s
  end.

(** [[0-9a-fA-F]{16,}] *)
Definition is_hex (c : ascii) : bool := between 48 57 c || between 97 102 c || between 65 70 c.
Definition hexRegex (s : string) : option nat :=
  let n := run is_hex s in if bool_decide (16 ≤ n) then Some n else None.

(** [(%[0-9a-fA-F]{2}){3,}]: the number of escapes at the start. *)
Fixpoint escapes (s : string) : nat :=
  match s with
  | String "%" (String a (String b s)) => if is_hex a && is_hex b then S (escapes s) else 0
  | _ => 0
  end.
Definition urlEncodedRegex (s : string) : option nat :=
  let n := escapes s in if bool_decide (3 ≤ n) then Some (3 * n) else None.

(** [[A-Za-z0-9_-]{2,}%3D[A-Za-z0-9_%\-]{2,}] *)
Definition token_class (c : ascii) : bool := url_class c || bool_decide (c = "%"%char).
Definition urlEqualSignRegex (s : string) : option nat :=
  let n := run url_class s in
  if bool_decide (2 ≤ n) && HasPrefix (drop_str n s) "%3D" then
    let m := run token_class (drop_str (n + 3) s) in
    if bool_decide (2 ≤ m) then Some (n + 3 + m) else None
  else None.

Definition findPotentialBase64Strings (content : string) : list string := find_all base64Regex content.
Definition findPotentialHexStrings (content : string) : list string :=
  filter (λ match_, Nat.even (slen match_) = true) (find_all hexRegex content).
Definition findPotentialURLStrings (content : string) : list string :=
  foldl (λ uniqueMatches match_,
    if bool_decide (match_ ∈ uniqueMatches) then uniqueMatches else uniqueMatches ++ [match_]) []
    (find_all urlEncodedRegex content ++ find_all urlEqualSignRegex content).

Definition decodeBase64String (encoded : string) : option bytes :=
  match b64_DecodeString false true encoded with
  | Some decoded => Some decoded
  | None => b64_DecodeString true false encoded
  end.
Definition decodeHexString (encoded : string) : option bytes := HexDecode encoded.
Definition decodeURLString (encoded : string) : option bytes := QueryUnescape encoded.

Record encodingScanner := mkScanner {
  scanner_Name : string;
  Finder : string → list string;
  Decoder : string → option bytes;
}.
Definition defaultEncodingScanners : list encodingScanner :=
  [ mkScanner "base64" findPotentialBase64Strings decodeBase64String;
    mkScanner "hex" findPotentialHexStrings decodeHexString;
    mkScanner "url" findPotentialURLStrings decodeURLString ].

(** * Round trips *)

Lemma base64_digit_char n : n < 64 → b64_digit false (base64_char n) = Some n.
Proof.
  intros Hn. assert (Forall (λ n, b64_digit false (base64_char n) = Some n) (seq 0 64)) as H
    by (refine (bool_decide_eq_true_1 _ _); by vm_compute).
  rewrite Forall_forall in H. apply H, elem_of_seq. lia.
Qed.

(** A byte of an encoding: a digit, or the padding. *)
Definition b64_out (c : ascii) : bool := std_class c || is_eq c.
Fixpoint all_bytes (p : ascii → bool) (s : string) : bool :=
  match s with "" => true | String c s => p c && all_bytes p s end.

Lemma all_bytes_app p a b : all_bytes p (a +:+ b) = all_bytes p a && all_bytes p b.
Proof. induction a as [|c a IH]; [done|]. rw string_app_cons /= IH. by rw andb_assoc. Qed.

Lemma base64_char_class n : n < 64 → std_class (base64_char n) = true.
Proof.
  intros Hn. assert (Forall (λ n, std_class (base64_char n) = true) (seq 0 64)) as H
    by (refine (bool_decide_eq_true_1 _ _); by vm_compute).
  rewrite Forall_forall in H. apply H, elem_of_seq. lia.
Qed.

(** Induction three bytes at a time. *)
Lemma string_ind3 (P : string → Prop) :
  P "" → (∀ a, P (String a "")) → (∀ a b, P (String a (String b ""))) →
  (∀ a b c s, P s → P (String a (String b (String c s)))) → ∀ s, P s.
Proof.
  intros H0 H1 H2 H3. fix IH 1. intros [|a [|b [|c s]]]; [apply H0|apply H1|apply H2|apply H3, IH].
Qed.

Lemma byte_bounds (c : ascii) : nat_of_ascii c < 256.
Proof. apply nat_ascii_bounded. Qed.

(** The arithmetic of a quantum. *)
Lemma quantum_digits (a b c : ascii) :
  let n := nat_of_ascii a in let m := nat_of_ascii b in let k := nat_of_ascii c in
  n `div` 4 < 64 ∧ 16 * (n `mod` 4) + m `div` 16 < 64 ∧ 4 * (m `mod` 16) + k `div` 64 < 64 ∧ k `mod` 64 < 64 ∧
  b64_byte1 (n `div` 4) (16 * (n `mod` 4) + m `div` 16) = a ∧
  b64_byte2 (16 * (n `mod` 4) + m `div` 16) (4 * (m `mod` 16) + k `div` 64) = b ∧
  b64_byte3 (4 * (m `mod` 16) + k `div` 64) (k `mod` 64) = c.
Proof.
  intros n m k. assert (Hn : n < 256) by apply byte_bounds. assert (Hm : m < 256) by apply byte_bounds.
  assert (Hk : k < 256) by apply byte_bounds.
  assert (Hn4 := Nat.div_mod_eq n 4). assert (Hm16 := Nat.div_mod_eq m 16). assert (Hk64 := Nat.div_mod_eq k 64).
  assert (n `mod` 4 < 4) by (by apply Nat.mod_upper_bound). assert (m `mod` 16 < 16) by (by apply Nat.mod_upper_bound).
  assert (k `mod` 64 < 64) by (by apply Nat.mod_upper_bound).
  assert (Hd1 : (16 * (n `mod` 4) + m `div` 16) `div` 16 = n `mod` 4).
  { rw Nat.mul_comm Nat.div_add_l //. rw (Nat.div_small (m `div` 16)); lia. }
  assert (Hm1 : (16 * (n `mod` 4) + m `div` 16) `mod` 16 = m `div` 16).
  { rw Nat.add_comm Nat.mul_comm Nat.Div0.mod_add. apply Nat.mod_small. lia. }
  assert (Hd2 : (4 * (m `mod` 16) + k `div` 64) `div` 4 = m `mod` 16).
  { rw Nat.mul_comm Nat.div_add_l //. rw (Nat.div_small (k `div` 64)); lia. }
  assert (Hm2 : (4 * (m `mod` 16) + k `div` 64) `mod` 4 = k `div` 64).
  { rw Nat.add_comm Nat.mul_comm Nat.Div0.mod_add. apply Nat.mod_small. lia. }
  unfold b64_byte1, b64_byte2, b64_byte3. rw Hd1 Hm1 Hd2 Hm2. split_and!; [lia..| | |].
  - rw -Hn4. apply ascii_nat_embedding.
  - rw -Hm16. apply ascii_nat_embedding.
  - rw -Hk64. apply ascii_nat_embedding.
Qed.

Lemma b64_quanta_base64 s : b64_quanta false true (base64 s) = Some s.
Proof.
  induction s as [|a|a b|a b c s IH] using string_ind3; [done|..].
  - destruct (quantum_digits a Ascii.zero Ascii.zero) as (H1 & H2 & _ & _ & Ha & _ & _).
    change (nat_of_ascii Ascii.zero) with 0 in *. rw Nat.Div0.div_0_l Nat.add_0_r in H2 Ha.
    cbn [base64 b64_quanta]. rw (base64_digit_char _ H1) (base64_digit_char _ H2) /=. by rw Ha.
  - destruct (quantum_digits a b Ascii.zero) as (H1 & H2 & H3 & _ & Ha & Hb & _).
    change (nat_of_ascii Ascii.zero) with 0 in *. rw Nat.Div0.div_0_l Nat.add_0_r in H3 Hb.
    cbn [base64 b64_quanta]. rw (base64_digit_char _ H1) (base64_digit_char _ H2) (base64_digit_char _ H3) /=. by rw Ha Hb.
  - destruct (quantum_digits a b c) as (H1 & H2 & H3 & H4 & Ha & Hb & Hc).
    cbn [base64 b64_quanta]. rw (base64_digit_char _ H1) (base64_digit_char _ H2) (base64_digit_char _ H3) (base64_digit_char _ H4).
    cbn [mbind option_bind]. rw IH. cbn [mbind option_bind]. by rw Ha Hb Hc.
Qed.

Fixpoint repeat_byte (c : ascii) (k : nat) : string :=
  match k with 0 => "" | S k => String c (repeat_byte c k) end.

(** An encoding is digits, four for three bytes, and at most two [=]. *)
Lemma base64_shape s :
  ∃ ds k, base64 s = ds +:+ repeat_byte "=" k ∧ k ≤ 2 ∧ all_bytes std_class ds = true ∧
          4 * slen s ≤ 3 * slen ds.
Proof.
  induction s as [|a|a b|a b c s IH] using string_ind3; cbn [base64].
  - exists "", 0. split_and!; [done|lia|done|simpl; lia].
  - destruct (quantum_digits a Ascii.zero Ascii.zero) as (H1 & H2 & _).
    change (nat_of_ascii Ascii.zero) with 0 in *. rw Nat.Div0.div_0_l Nat.add_0_r in H2.
    eexists (String _ (String _ "")), 2. split; [done|]. split; [done|]. cbn [all_bytes slen].
    rw (base64_char_class _ H1) (base64_char_class _ H2). split; [done|lia].
  - destruct (quantum_digits a b Ascii.zero) as (H1 & H2 & H3 & _).
    change (nat_of_ascii Ascii.zero) with 0 in *. rw Nat.Div0.div_0_l Nat.add_0_r in H3.
    eexists (String _ (String _ (String _ ""))), 1. split; [done|]. split; [lia|]. cbn [all_bytes slen].
    rw (base64_char_class _ H1) (base64_char_class _ H2) (base64_char_class _ H3). split; [done|lia].
  - destruct (quantum_digits a b c) as (H1 & H2 & H3 & H4 & _). destruct IH as (ds & k & -> & Hk & Hds & Hl).
    eexists (String _ (String _ (String _ (String _ ds)))), k. split; [done|]. split; [done|].
    cbn [all_bytes slen]. rw (base64_char_class _ H1) (base64_char_class _ H2) (base64_char_class _ H3) (base64_char_class _ H4) Hds.
    split; [done|lia].
Qed.

Lemma drop_newlines_id p s :
  (∀ c, p c = true → ¬ (nat_of_ascii c = 10 ∨ nat_of_ascii c = 13)) →
  all_bytes p s = true → drop_newlines s = s.
Proof.
  intros Hp. induction s as [|c s IH]; [done|]. cbn [all_bytes drop_newlines].
  intros [Hc Hs]%andb_true_iff. rw bool_decide_eq_false_2; [by rw IH|by apply Hp].
Qed.

Lemma class_bytes c :
  (std_class c = true → ¬ (nat_of_ascii c = 10 ∨ nat_of_ascii c = 13)) ∧
  (is_eq c = true → ¬ (nat_of_ascii c = 10 ∨ nat_of_ascii c = 13)) ∧
  (is_eq c = true → std_class c = false ∧ url_class c = false).
Proof. destruct c as [[] [] [] [] [] [] [] []]; vm_compute; (split_and!; [naive_solver lia..|done]). Qed.

Lemma all_bytes_impl (p q : ascii → bool) s :
  (∀ c, p c = true → q c = true) → all_bytes p s = true → all_bytes q s = true.
Proof.
  intros Hpq. induction s as [|c s IH]; [done|]. cbn [all_bytes].
  intros [Hc Hs]%andb_true_iff. by rw Hpq // IH.
Qed.

Lemma all_bytes_repeat p c k : p c = true → all_bytes p (repeat_byte c k) = true.
Proof. intros Hc. induction k as [|k IH]; [done|]. by rw /= Hc IH. Qed.

Lemma b64_DecodeString_base64 s : b64_DecodeString false true (base64 s) = Some s.
Proof.
  unfold b64_DecodeString. destruct (base64_shape s) as (ds & k & Hb & _ & Hds & _).
  rw (drop_newlines_id b64_out); [apply b64_quanta_base64| |].
  - intros c. unfold b64_out. destruct (class_bytes c) as (H1 & H2 & _). rw orb_true_iff. naive_solver.
  - rw Hb all_bytes_app. unfold b64_out. rw (all_bytes_impl std_class); [|by intros c ->|done].
    apply all_bytes_repeat. apply orb_true_iff. by right.
Qed.

Lemma decodeBase64String_base64 s : decodeBase64String (base64 s) = Some s.
Proof. unfold decodeBase64String. by rw b64_DecodeString_base64. Qed.

(** [QueryUnescape] reads an escape of every byte back. *)
Fixpoint percent_all (s : string) : string :=
  match s with "" => "" | String c s => String "%" (hex_byte c +:+ percent_all s) end.
Lemma QueryUnescape_percent_all s : QueryUnescape (percent_all s) = Some s.
Proof.
  induction s as [|c s IH]; [done|]. pose proof (HexDecode_HexEncode (String c "")) as Hc.
  cbn [HexEncode] in Hc. unfold hex_byte in Hc. rw string_app_nil_r in Hc. cbn [HexDecode] in Hc.
  cbn [percent_all]. unfold hex_byte. rw !string_app_cons string_app_nil_l. cbn [QueryUnescape].
  destruct (unhex_digit (hex_digit (nat_of_ascii c `div` 16))) as [x|]; [|done].
  destruct (unhex_digit (hex_digit (nat_of_ascii c `mod` 16))) as [y|]; [|done].
  rw IH. cbn [mbind option_bind] in Hc |- *. by simplify_eq.
Qed.

(** * What the finders find *)

Lemma run_app p a b : all_bytes p a = true → run p (a +:+ b) = slen a + run p b.
Proof.
  induction a as [|c a IH]; [done|]. cbn [all_bytes]. intros [Hc Ha]%andb_true_iff.
  rw string_app_cons /= Hc. by rw (IH Ha).
Qed.

Lemma run_stop p a c b : p c = false → run p (a +:+ String c b) = run p a.
Proof. intros Hc. induction a as [|x a IH]; [by rw /= Hc|]. rw string_app_cons /=. destruct (p x); [by rw IH|done]. Qed.

Lemma run_le p s : run p s ≤ slen s.
Proof. induction s as [|c s IH]; [done|]. simpl. destruct (p c); lia. Qed.

Lemma drop_str_app_le n a b : n ≤ slen a → drop_str n (a +:+ b) = drop_str n a +:+ b.
Proof.
  revert a; induction n as [|n IH]; intros a Hn; [done|]. destruct a as [|c a]; simpl in Hn; [lia|].
  rw string_app_cons. apply (IH a). lia.
Qed.
Lemma take_str_app_le n a b : n ≤ slen a → take_str n (a +:+ b) = take_str n a.
Proof.
  revert a; induction n as [|n IH]; intros a Hn; [by destruct a, b|]. destruct a as [|c a]; simpl in Hn; [lia|].
  rw string_app_cons. cbn [take_str]. rw IH; [done|lia].
Qed.

(** Enough fuel. *)
Lemma find_all_fuel m n s :
  (∀ s k, m s = Some k → 0 < k) → slen s ≤ n → find_all_go m n s = find_all m s.
Proof.
  intros Hm. unfold find_all. generalize (le_n (slen s)). generalize (slen s) at 2 4. intros f Hf. revert f s Hf.
  induction n as [|n IH]; intros f s Hf Hn; [destruct s; [by destruct f|simpl in Hn; lia]|].
  destruct s as [|c s]; [by destruct f|]. destruct f as [|f]; [simpl in Hf; lia|]. cbn [find_all_go slen] in *.
  destruct (m (String c s)) as [k|] eqn:Hk.
  - f_equal. apply Hm in Hk. apply IH; rw slen_drop; simpl; lia.
  - apply IH; lia.
Qed.

(** A separator that no match contains splits the search. *)
Lemma find_all_separator m c a b :
  (∀ s k, m s = Some k → 0 < k) →
  (∀ x a, m (String x a +:+ String c b) = m (String x a)) →
  (∀ s k, m s = Some k → k ≤ slen s) →
  m (String c b) = None →
  find_all m (a +:+ String c b) = find_all m a ++ find_all m b.
Proof.
  intros Hpos Hsep Hle Hc. remember (slen a) as n eqn:Hn. revert a Hn.
  induction (lt_wf n) as [n _ IH]. intros a ->. destruct a as [|x a].
  { rw string_app_nil_l. unfold find_all at 1 2. cbn [find_all_go slen]. by rw Hc. }
  unfold find_all at 1 2. rw slen_app. cbn [find_all_go slen Nat.add].
  change (String x a +:+ String c b) with (String x (a +:+ String c b)) in Hsep.
  assert (Hs := Hsep x a). rw string_app_cons in Hs |- *. rw Hs. cbn [find_all_go].
  destruct (m (String x a)) as [k|] eqn:Hk.
  - assert (Hk0 := Hpos _ _ Hk). assert (Hk1 := Hle _ _ Hk).
    rw -(string_app_cons x a) (take_str_app_le k) // (drop_str_app_le k) //. simpl. f_equal.
    rw !find_all_fuel //; [|rw slen_drop; simpl in *; lia|rw slen_app !slen_drop; simpl in *; lia].
    eapply IH; [|done]. rw slen_drop. simpl in *. lia.
  - rw !find_all_fuel //; [|rw slen_app; simpl; lia]. eapply IH; [|done]. simpl. lia.
Qed.

(** A byte that ends every match of the base64 pattern. *)
Definition separates (c : ascii) : bool := negb (std_class c) && negb (url_class c) && negb (is_eq c).

Lemma separates_inv c : separates c = true → std_class c = false ∧ url_class c = false ∧ is_eq c = false.
Proof. unfold separates. rw !andb_true_iff !negb_true_iff. naive_solver. Qed.

Lemma base64_alternative_stop p c a b :
  p c = false → is_eq c = false → base64_alternative p (a +:+ String c b) = base64_alternative p a.
Proof.
  intros Hp He. unfold base64_alternative. rw run_stop //. case_bool_decide; [|done].
  rw drop_str_app_le; [|apply run_le]. by rw run_stop.
Qed.

Lemma base64_alternative_bounds p s k : base64_alternative p s = Some k → 0 < k ∧ k ≤ slen s.
Proof.
  unfold base64_alternative. case_bool_decide as Hr; [|done]. intros [= <-].
  pose proof (run_le p s). pose proof (run_le is_eq (drop_str (run p s) s)) as He. rw slen_drop in He. lia.
Qed.

Lemma base64Regex_bounds s k : base64Regex s = Some k → 0 < k ∧ k ≤ slen s.
Proof.
  unfold base64Regex. destruct (base64_alternative std_class s) eqn:H1; [intros [= <-]|]; by eapply base64_alternative_bounds.
Qed.

Lemma find_base64_separator c a b :
  separates c = true →
  findPotentialBase64Strings (a +:+ String c b) = findPotentialBase64Strings a ++ findPotentialBase64Strings b.
Proof.
  intros (H1 & H2 & H3)%separates_inv. apply find_all_separator.
  - by intros s k [? _]%base64Regex_bounds.
  - intros x a'. unfold base64Regex. by rw !base64_alternative_stop.
  - by intros s k [_ ?]%base64Regex_bounds.
  - unfold base64Regex, base64_alternative. cbn [run]. by rw H1 H2.
Qed.

Lemma run_repeat p c k : p c = true → run p (repeat_byte c k) = k.
Proof. intros Hc. induction k as [|k IH]; [done|]. by rw /= Hc IH. Qed.
Lemma slen_repeat c k : slen (repeat_byte c k) = k.
Proof. induction k as [|k IH]; [done|]. by rw /= IH. Qed.

(** Eleven bytes are enough for their encoding to be found. *)
Lemma find_base64_whole s : 11 ≤ slen s → findPotentialBase64Strings (base64 s) = [base64 s].
Proof.
  intros Hs. destruct (base64_shape s) as (ds & k & He & Hk & Hds & Hl).
  assert (base64Regex (base64 s) = Some (slen (base64 s))) as Hm.
  { unfold base64Regex, base64_alternative. rw He run_app // slen_app slen_repeat.
    assert (run std_class (repeat_byte "=" k) = 0) as -> by (by destruct k).
    rw Nat.add_0_r drop_str_app run_repeat // bool_decide_eq_true_2; [|lia]. f_equal. lia. }
  unfold findPotentialBase64Strings, find_all. destruct (base64 s) as [|c e]; [done|]. cbn [find_all_go slen].
  rw Hm take_str_all; [|done]. f_equal. assert (drop_str (slen (String c e)) (String c e) = "") as ->.
  { rw -{2}(string_app_nil_r (String c e)). apply drop_str_app. }
  by destruct (slen e).
Qed.

Lemma find_base64_isolated a c1 s c2 b :
  separates c1 = true → separates c2 = true → 11 ≤ slen s →
  base64 s ∈ findPotentialBase64Strings (a +:+ String c1 (base64 s +:+ String c2 b)).
Proof.
  intros H1 H2 Hs. rw find_base64_separator // find_base64_separator // find_base64_whole //. set_solver.
Qed.

(** Every candidate is a part of the content. *)
Lemma find_all_part m s x : x ∈ find_all m s → ∃ a b, s = a +:+ x +:+ b.
Proof.
  unfold find_all. generalize (slen s) at 1. intros n. revert s. induction n as [|n IH]; intros s; [by intros ?%not_elem_of_nil|].
  destruct s as [|c s]; [by intros ?%not_elem_of_nil|]. cbn [find_all_go]. destruct (m (String c s)) as [k|].
  - intros [->|(a & b & Hs)%IH]%elem_of_cons.
    + exists "", (drop_str k (String c s)). by rw string_app_nil_l take_drop_str.
    + exists (take_str k (String c s) +:+ a), b. by rw string_app_assoc -Hs take_drop_str.
  - intros (a & b & ->)%IH. by exists (String c a), b.
Qed.

(** ** Examples *)

Example decode_url_escapes : decodeURLString "ab%3Dc+d" = Some "ab=c d".
Proof. vm_compute. reflexivity. Qed.
Example find_hex_even : findPotentialHexStrings "x 0123456789abcdef y 0123456789abcdef0" = ["0123456789abcdef"].
Proof. vm_compute. reflexivity. Qed.

(** The finder has an alternative for the URL alphabet with padding; the two
    decoders are for the standard alphabet with padding and for the URL alphabet
    without it. *)
Lemma padded_url_base64_not_decoded :
  findPotentialBase64Strings "_-_-_-_-_-_-_-_-_w==" = ["_-_-_-_-_-_-_-_-_w=="] ∧
  decodeBase64String "_-_-_-_-_-_-_-_-_w==" = None.
Proof. by vm_compute. Qed.
