(* ===== verification/Keys.v ===== *)
(** cryptoutil: the verifiers and signers (verifier.go, signer.go, rsa.go,
    ecdsa.go, ed25519.go, x509.go), with the theorem that what a signer signs
    its own verifier accepts. *)
From S2P Require Import Prelude GoStrings Crypto.
From stdpp Require Import options.

Section keys.
Context `{CL : CryptoLib}.

(** * Verifiers *)

(** The [Verifier] interface: the implementations of cryptoutil and, as the
    results its three methods give, any implementation from elsewhere. *)
Inductive Verifier : Type :=
  | RSAVerifier (pub : RSAPublicKey) (hash : Hash)
  | ECDSAVerifier (pub : ECDSAPublicKey) (hash : Hash)
  | ED25519Verifier (pub : Ed25519PublicKey)
  | X509Verifier (cert : Certificate) (roots intermediates : list Certificate)
                 (verifier : Verifier) (trustedTime : option Z)
  | ForeignVerifier (KeyID : res string) (Verify : bytes → bytes → err) (Bytes : res bytes).

(** x509.go: [certificatesToPool]; [AddCert] keeps one certificate per raw
    encoding, in order of insertion. *)
Definition AddCert (pool : list Certificate) (cert : Certificate) : list Certificate :=
  if existsb (λ c, bool_decide (Raw c = Raw cert)) pool then pool else pool ++ [cert].
Definition certificatesToPool (certs : list Certificate) : list Certificate :=
  foldl AddCert [] certs.

(** ** rsa.go *)

Definition RSAVerifier_KeyID (pub : RSAPublicKey) (hash : Hash) : res string :=
  GeneratePublicKeyID (KRSAPublic pub) hash.

(** PSS first, PKCS1v15 when it fails. *)
Definition RSAVerifier_Verify (pub : RSAPublicKey) (hash : Hash) (data sig : bytes) : err :=
  digest ← DigestBytes data hash;
  match rsa_VerifyPSS pub hash digest sig with
  | Err _ => rsa_VerifyPKCS1v15 pub hash digest sig
  | r => r
  end.

Definition RSAVerifier_Bytes (pub : RSAPublicKey) : res bytes := PublicPemBytes (KRSAPublic pub).

(** ** ecdsa.go *)

Definition ECDSAVerifier_KeyID (pub : ECDSAPublicKey) (hash : Hash) : res string :=
  GeneratePublicKeyID (KECDSAPublic pub) hash.

Definition ECDSAVerifier_Verify (pub : ECDSAPublicKey) (hash : Hash) (data sig : bytes) : err :=
  digest ← DigestBytes data hash;
  if ecdsa_VerifyASN1 pub digest sig then nil_error else Err ErrVerifyFailed.

Definition ECDSAVerifier_Bytes (pub : ECDSAPublicKey) : res bytes :=
  PublicPemBytes (KECDSAPublic pub).

(** ** ed25519.go *)

Definition ED25519Verifier_KeyID (pub : Ed25519PublicKey) : res string :=
  GeneratePublicKeyID (KEd25519Public pub) SHA256.

Definition ED25519Verifier_Verify (pub : Ed25519PublicKey) (data sig : bytes) : err :=
  if ed25519_Verify pub data sig then nil_error else Err ErrVerifyFailed.

Definition ED25519Verifier_Bytes (pub : Ed25519PublicKey) : res bytes :=
  PublicPemBytes (KEd25519Public pub).

(** ** x509.go *)

Definition X509Verifier_Verify (cert : Certificate) (roots intermediates : list Certificate)
    (verify : bytes → bytes → err) (trustedTime : option Z) (body sig : bytes) : err :=
  let rootPool := certificatesToPool roots in
  let intermediatePool := certificatesToPool intermediates in
  x509_Verify cert rootPool intermediatePool trustedTime;;
  verify body sig.

(** [BelongsToRoot] of the X.509 verifier with these fields. *)
Definition BelongsToRoot (cert : Certificate) (intermediates : list Certificate)
    (trustedTime : option Z) (root : Certificate) : err :=
  let rootPool := certificatesToPool [root] in
  let intermediatePool := certificatesToPool intermediates in
  x509_Verify cert rootPool intermediatePool trustedTime.

Definition X509Verifier_Bytes (cert : Certificate) : res bytes :=
  Ok (pem_Encode "CERTIFICATE" (Raw cert)).

(** ** The interface methods *)

Fixpoint Verifier_KeyID (v : Verifier) : res string :=
  match v with
  | RSAVerifier pub hash => RSAVerifier_KeyID pub hash
  | ECDSAVerifier pub hash => ECDSAVerifier_KeyID pub hash
  | ED25519Verifier pub => ED25519Verifier_KeyID pub
  | X509Verifier _ _ _ verifier _ => Verifier_KeyID verifier
  | ForeignVerifier kid _ _ => kid
  end.

Fixpoint Verifier_Verify (v : Verifier) (body sig : bytes) : err :=
  match v with
  | RSAVerifier pub hash => RSAVerifier_Verify pub hash body sig
  | ECDSAVerifier pub hash => ECDSAVerifier_Verify pub hash body sig
  | ED25519Verifier pub => ED25519Verifier_Verify pub body sig
  | X509Verifier cert roots intermediates verifier trustedTime =>
      X509Verifier_Verify cert roots intermediates (Verifier_Verify verifier) trustedTime body sig
  | ForeignVerifier _ verify _ => verify body sig
  end.

Definition Verifier_Bytes (v : Verifier) : res bytes :=
  match v with
  | RSAVerifier pub _ => RSAVerifier_Bytes pub
  | ECDSAVerifier pub _ => ECDSAVerifier_Bytes pub
  | ED25519Verifier pub => ED25519Verifier_Bytes pub
  | X509Verifier cert _ _ _ _ => X509Verifier_Bytes cert
  | ForeignVerifier _ _ b => b
  end.

(** * verifier.go *)

Record verifierOptions := mkVerifierOptions {
  vo_roots : list Certificate;
  vo_intermediates : list Certificate;
  vo_hash : Hash;
  vo_trustedTime : option Z;
}.
Definition VerifierOption := verifierOptions → verifierOptions.

Definition VerifyWithRoots (roots : list Certificate) : VerifierOption := λ vo,
  mkVerifierOptions roots (vo_intermediates vo) (vo_hash vo) (vo_trustedTime vo).
Definition VerifyWithIntermediates (ints : list Certificate) : VerifierOption := λ vo,
  mkVerifierOptions (vo_roots vo) ints (vo_hash vo) (vo_trustedTime vo).
Definition VerifyWithHash (h : Hash) : VerifierOption := λ vo,
  mkVerifierOptions (vo_roots vo) (vo_intermediates vo) h (vo_trustedTime vo).
Definition VerifyWithTrustedTime (t : Z) : VerifierOption := λ vo,
  mkVerifierOptions (vo_roots vo) (vo_intermediates vo) (vo_hash vo) (Some t).

(** The Go type name [%T] prints for a key. *)
Definition key_type (k : AnyKey) : string :=
  match k with
  | KRSAPublic _ => "*rsa.PublicKey"
  | KRSAPrivate _ => "*rsa.PrivateKey"
  | KECDSAPublic _ => "*ecdsa.PublicKey"
  | KECDSAPrivate _ => "*ecdsa.PrivateKey"
  | KEd25519Public _ => "ed25519.PublicKey"
  | KEd25519Private _ => "ed25519.PrivateKey"
  | KOther t => t
  end.

(** The key cases of [NewVerifier]'s type switch. *)
Definition NewKeyVerifier (pub : AnyKey) (hash : Hash) : res Verifier :=
  match pub with
  | KRSAPublic key => Ok (RSAVerifier key hash)
  | KECDSAPublic key => Ok (ECDSAVerifier key hash)
  | KEd25519Public key => Ok (ED25519Verifier key)
  | _ => Err (ErrUnsupportedKeyType (key_type pub))
  end.

(** x509.go: the key verifier of the certificate is made with the default
    options, that is with SHA256. *)
Definition NewX509Verifier (cert : Certificate) (intermediates roots : list Certificate)
    (trustedTime : option Z) : res Verifier :=
  verifier ← NewKeyVerifier (PublicKey cert) SHA256;
  Ok (X509Verifier cert roots intermediates verifier trustedTime).

Definition NewVerifier (pub : parsedOf AnyKey Certificate) (opts : list VerifierOption) : res Verifier :=
  let options := foldl (λ o opt, opt o) (mkVerifierOptions [] [] SHA256 None) opts in
  match pub with
  | PKey key => NewKeyVerifier key (vo_hash options)
  | PCert cert =>
      NewX509Verifier cert (vo_intermediates options) (vo_roots options) (vo_trustedTime options)
  end.

Definition NewVerifierFromReader (r : Reader) (opts : list VerifierOption) : res Verifier :=
  key ← TryParseKeyFromReader r;
  NewVerifier key opts.

(** * Signers *)

(** The [Signer] interface. A foreign signer is the results of its methods and,
    when it also implements [TrustBundler], its certificate, intermediates and
    roots. *)
Inductive Signer : Type :=
  | RSASigner (priv : RSAPrivateKey) (hash : Hash)
  | ECDSASigner (priv : ECDSAPrivateKey) (hash : Hash)
  | ED25519Signer (priv : Ed25519PrivateKey)
  | X509Signer (cert : Certificate) (roots intermediates : list Certificate) (signer : Signer)
  | ForeignSigner (KeyID : res string) (Sign : bytes → bytes → res bytes)
                  (Verifier_ : res Verifier)
                  (bundler : option (option Certificate * list Certificate * list Certificate)).

(** ** The methods, type by type. [rnd] is what [rand.Reader] delivers. *)

Definition RSASigner_KeyID (priv : RSAPrivateKey) (hash : Hash) : res string :=
  GeneratePublicKeyID (KRSAPublic (rsa_public priv)) hash.
Definition RSASigner_Sign (rnd : bytes) (priv : RSAPrivateKey) (hash : Hash) (body : bytes) : res bytes :=
  digest ← DigestBytes body hash;
  rsa_SignPSS rnd priv hash digest.
Definition RSASigner_Verifier (priv : RSAPrivateKey) (hash : Hash) : res Verifier :=
  Ok (RSAVerifier (rsa_public priv) hash).

Definition ECDSASigner_KeyID (priv : ECDSAPrivateKey) (hash : Hash) : res string :=
  GeneratePublicKeyID (KECDSAPublic (ecdsa_public priv)) hash.
Definition ECDSASigner_Sign (rnd : bytes) (priv : ECDSAPrivateKey) (hash : Hash) (body : bytes) : res bytes :=
  digest ← DigestBytes body hash;
  ecdsa_SignASN1 rnd priv digest.
Definition ECDSASigner_Verifier (priv : ECDSAPrivateKey) (hash : Hash) : res Verifier :=
  Ok (ECDSAVerifier (ecdsa_public priv) hash).

Definition ED25519Signer_KeyID (priv : Ed25519PrivateKey) : res string :=
  GeneratePublicKeyID (KEd25519Public (ed25519_public priv)) SHA256.
Definition ED25519Signer_Sign (priv : Ed25519PrivateKey) (body : bytes) : res bytes :=
  Ok (ed25519_Sign priv body).
(** [priv.Public()] of an ed25519 key is always an [ed25519.PublicKey]. *)
Definition ED25519Signer_Verifier (priv : Ed25519PrivateKey) : res Verifier :=
  Ok (ED25519Verifier (ed25519_public priv)).

(** The verifier of an X.509 signer has no trusted time. *)
Definition X509Signer_Verifier (cert : Certificate) (roots intermediates : list Certificate)
    (signer_Verifier : res Verifier) : res Verifier :=
  verifier ← signer_Verifier;
  Ok (X509Verifier cert roots intermediates verifier None).

Fixpoint Signer_KeyID (s : Signer) : res string :=
  match s with
  | RSASigner priv hash => RSASigner_KeyID priv hash
  | ECDSASigner priv hash => ECDSASigner_KeyID priv hash
  | ED25519Signer priv => ED25519Signer_KeyID priv
  | X509Signer _ _ _ signer => Signer_KeyID signer
  | ForeignSigner kid _ _ _ => kid
  end.

Fixpoint Signer_Sign (rnd : bytes) (s : Signer) (body : bytes) : res bytes :=
  match s with
  | RSASigner priv hash => RSASigner_Sign rnd priv hash body
  | ECDSASigner priv hash => ECDSASigner_Sign rnd priv hash body
  | ED25519Signer priv => ED25519Signer_Sign priv body
  | X509Signer _ _ _ signer => Signer_Sign rnd signer body
  | ForeignSigner _ sign _ _ => sign rnd body
  end.

Fixpoint Signer_Verifier (s : Signer) : res Verifier :=
  match s with
  | RSASigner priv hash => RSASigner_Verifier priv hash
  | ECDSASigner priv hash => ECDSASigner_Verifier priv hash
  | ED25519Signer priv => ED25519Signer_Verifier priv
  | X509Signer cert roots intermediates signer =>
      X509Signer_Verifier cert roots intermediates (Signer_Verifier signer)
  | ForeignSigner _ _ v _ => v
  end.

(** [signer.(cryptoutil.TrustBundler)] followed by [Certificate()],
    [Intermediates()] and [Roots()]. *)
Definition TrustBundler (s : Signer)
    : option (option Certificate * list Certificate * list Certificate) :=
  match s with
  | X509Signer cert roots intermediates _ => Some (Some cert, intermediates, roots)
  | ForeignSigner _ _ _ b => b
  | _ => None
  end.

Record signerOptions := mkSignerOptions {
  so_cert : option Certificate;
  so_intermediates : list Certificate;
  so_roots : list Certificate;
  so_hash : Hash;
}.
Definition SignerOption := signerOptions → signerOptions.

Definition SignWithCertificate (cert : option Certificate) : SignerOption := λ so,
  mkSignerOptions cert (so_intermediates so) (so_roots so) (so_hash so).
Definition SignWithIntermediates (ints : list Certificate) : SignerOption := λ so,
  mkSignerOptions (so_cert so) ints (so_roots so) (so_hash so).
Definition SignWithRoots (roots : list Certificate) : SignerOption := λ so,
  mkSignerOptions (so_cert so) (so_intermediates so) roots (so_hash so).
Definition SignWithHash (h : Hash) : SignerOption := λ so,
  mkSignerOptions (so_cert so) (so_intermediates so) (so_roots so) h.

(** x509.go: [NewX509Signer]; a nil interface or pointer is [None]. *)
Definition NewX509Signer (signer : option Signer) (cert : option Certificate)
    (intermediates roots : list Certificate) : res Signer :=
  match signer, cert with
  | None, _ => Err ErrInvalidSigner
  | Some _, None => Err ErrInvalidCertificate
  | Some s, Some c => Ok (X509Signer c roots intermediates s)
  end.

Definition NewSigner (priv : parsedOf AnyKey Certificate) (opts : list SignerOption) : res Signer :=
  let options := foldl (λ o opt, opt o) (mkSignerOptions None [] [] SHA256) opts in
  signer ← match priv with
           | PKey (KRSAPrivate key) => Ok (RSASigner key (so_hash options))
           | PKey (KECDSAPrivate key) => Ok (ECDSASigner key (so_hash options))
           | PKey (KEd25519Private key) => Ok (ED25519Signer key)
           | PKey k => Err (ErrUnsupportedKeyType (key_type k))
           | PCert _ => Err (ErrUnsupportedKeyType "*x509.Certificate")
           end;
  match so_cert options with
  | Some cert => NewX509Signer (Some signer) (Some cert) (so_intermediates options) (so_roots options)
  | None => Ok signer
  end.

Definition NewSignerFromReader (r : Reader) (opts : list SignerOption) : res Signer :=
  key ← TryParseKeyFromReader r;
  NewSigner key opts.

(** * Properties *)

(** The chains of certificates inside a verifier all verify. *)
Fixpoint chains_ok (v : Verifier) : Prop :=
  match v with
  | X509Verifier cert roots ints v t =>
      x509_Verify cert (certificatesToPool roots) (certificatesToPool ints) t = nil_error ∧
      chains_ok v
  | _ => True
  end.

(** No implementation from outside cryptoutil inside a signer. *)
Fixpoint native_signer (s : Signer) : bool :=
  match s with
  | X509Signer _ _ _ s => native_signer s
  | ForeignSigner _ _ _ _ => false
  | _ => true
  end.

Lemma native_signer_verifier s :
  native_signer s = true → ∃ v, Signer_Verifier s = Ok v.
Proof.
  induction s as [| | |c r i s IH|]; simpl; [by eexists..| |done].
  intros [v Hv]%IH. unfold X509Signer_Verifier. rw Hv. by eexists.
Qed.

(** What a cryptoutil signer signs, the verifier it hands out accepts. *)
Lemma Signer_Sign_Verify `{!SignatureLaws} rnd s body sig v :
  native_signer s = true →
  Signer_Sign rnd s body = Ok sig → Signer_Verifier s = Ok v → chains_ok v →
  Verifier_Verify v body sig = nil_error.
Proof.
  revert v; induction s as [k h|k h|k|c r i s IH|]; simpl; intros v Hn Hs Hv Hc; [..|done].
  1-3: cbv [RSASigner_Verifier ECDSASigner_Verifier ED25519Signer_Verifier] in Hv.
  - apply res_bind_ok in Hs as (d & Hd & Hs). simplify_eq/=. unfold RSAVerifier_Verify.
    rw Hd /=. by erewrite rsa_sign_verify.
  - apply res_bind_ok in Hs as (d & Hd & Hs). simplify_eq/=. unfold ECDSAVerifier_Verify.
    rw Hd /=. by erewrite ecdsa_sign_verify.
  - unfold ED25519Signer_Sign in Hs. simplify_eq/=.
    unfold ED25519Verifier_Verify. by rw ed25519_sign_verify.
  - apply res_bind_ok in Hv as (v' & Hv' & Hv). simplify_eq/=. destruct Hc as [Hx Hc].
    unfold X509Verifier_Verify. rw Hx /=. by apply IH.
Qed.

(** Signers that hold a key themselves: their signatures carry no certificate. *)
Definition key_signer (s : Signer) : bool :=
  match s with RSASigner _ _ | ECDSASigner _ _ | ED25519Signer _ => true | _ => false end.

Lemma key_signer_native s : key_signer s = true → native_signer s = true.
Proof. by destruct s. Qed.
Lemma key_signer_chains s v : key_signer s = true → Signer_Verifier s = Ok v → chains_ok v.
Proof. destruct s; simpl; intros ? Hv; try done; injection Hv as <-; done. Qed.

(** A signer that signed once has a linked hash, so its verifier does not panic. *)
Lemma key_signer_verify_no_panic `{!SignatureLaws} rnd s body sig v sig' :
  key_signer s = true → Signer_Sign rnd s body = Ok sig → Signer_Verifier s = Ok v →
  no_panic (Verifier_Verify v body sig').
Proof.
  destruct s as [k h|k h|k| |]; simpl; intros Hk Hs Hv w; try done; injection Hv as <-; simpl.
  - apply res_bind_ok in Hs as (d & Hd & _). unfold RSAVerifier_Verify. rw Hd /=.
    pose proof (rsa_VerifyPSS_no_panic (rsa_public k) h d sig' w).
    destruct (rsa_VerifyPSS _ _ _ _); [done| |done]. apply rsa_VerifyPKCS1v15_no_panic.
  - apply res_bind_ok in Hs as (d & Hd & _). unfold ECDSAVerifier_Verify. rw Hd /=.
    by destruct (ecdsa_VerifyASN1 _ _ _).
  - unfold ED25519Verifier_Verify. by destruct (ed25519_Verify _ _ _).
Qed.

(** A signer and its verifier have the same key id. *)
Lemma Signer_Verifier_KeyID s v :
  native_signer s = true → Signer_Verifier s = Ok v → Verifier_KeyID v = Signer_KeyID s.
Proof.
  revert v; induction s as [k h|k h|k|c r i s IH|]; simpl; intros v Hn Hv; [..|done].
  1-3: cbv [RSASigner_Verifier ECDSASigner_Verifier ED25519Signer_Verifier] in Hv; by simplify_eq.
  apply res_bind_ok in Hv as (v' & Hv' & Hv). simplify_eq/=. by apply IH.
Qed.

End keys.
