(* ===== verification/Digest.v ===== *)
(** cryptoutil: digest values and digest sets (digestset.go), the gitoid hasher
    (gitoid.go) and directory hashing (dirhash.go). *)
From S2P Require Import Prelude GoStrings Errors Crypto.
From stdpp Require Import options.

(** * Digest values *)

(** [DigestValue]; the embedded [crypto.Hash] is the field [dv_Hash]. *)
Record DigestValue := mkDV { dv_Hash : Hash; GitOID : bool; DirHash : bool }.

#[export] Instance DigestValue_eq_dec : EqDecision DigestValue.
Proof. solve_decision. Defined.
#[export] Program Instance DigestValue_countable : Countable DigestValue :=
  inj_countable' (λ dv, (dv_Hash dv, GitOID dv, DirHash dv))
                 (λ t, mkDV t.1.1 t.1.2 t.2) _.
Next Obligation. by intros []. Qed.

Abbreviation DigestSet := (gmap DigestValue string).

(** The tables [hashNames] and [hashesByName]. *)
Definition hashNames : gmap DigestValue string :=
  list_to_map
    [ (mkDV SHA256 false false, "sha256"); (mkDV SHA1 false false, "sha1");
      (mkDV SHA256 true false, "gitoid:sha256"); (mkDV SHA1 true false, "gitoid:sha1");
      (mkDV SHA256 false true, "dirHash") ].
Definition hashesByName : gmap string DigestValue :=
  list_to_map
    [ ("sha256", mkDV SHA256 false false); ("sha1", mkDV SHA1 false false);
      ("gitoid:sha256", mkDV SHA256 true false); ("gitoid:sha1", mkDV SHA1 true false);
      ("dirHash", mkDV SHA256 false true) ].

Definition HashToString (h : Hash) : res string :=
  match hashNames !! mkDV h false false with
  | Some name => Ok name
  | None => Err (ErrUnsupportedHash (Hash_String h))
  end.

Definition HashFromString (name : string) : res Hash :=
  match hashesByName !! name with
  | Some hash => Ok (dv_Hash hash)
  | None => Err (ErrUnsupportedHash name)
  end.

(** * Digest sets *)

Section sets.
Context `{RO : RangeOrder}.

(** The loop of [Equal] over the digests of the first set. *)
Fixpoint Equal_loop (l : list (DigestValue * string)) (second : DigestSet)
    (hasMatchingDigest : bool) : bool :=
  match l with
  | [] => hasMatchingDigest
  | (hash, digest) :: l =>
    match second !! hash with
    | None => Equal_loop l second hasMatchingDigest
    | Some otherDigest =>
      if bool_decide (digest = otherDigest) then Equal_loop l second true else false
    end
  end.
Definition DigestSet_Equal (ds second : DigestSet) : bool :=
  Equal_loop (range_map 0 ds) second false.

Definition ToNameMap (ds : DigestSet) : res (gmap string string) :=
  range_res (λ nameMap kv,
    match hashNames !! kv.1 with
    | None => Err (ErrUnsupportedHash (Hash_String (dv_Hash kv.1)))
    | Some name => Ok (<[name:=kv.2]> nameMap)
    end) ∅ (range_map 0 ds).

Definition NewDigestSet (digestsByName : gmap string string) : res DigestSet :=
  range_res (λ ds kv,
    match hashesByName !! kv.1 with
    | None => Err (ErrUnsupportedHash kv.1)
    | Some hash => Ok (<[hash:=kv.2]> ds)
    end) ∅ (range_map 0 digestsByName).

(** [MarshalJSON]/[UnmarshalJSON] of a digest set, over the JSON encoding of a
    map of strings. *)
Definition DigestSet_MarshalJSON (json_Marshal : gmap string string → res bytes)
    (ds : DigestSet) : res bytes :=
  nameMap ← ToNameMap ds;
  json_Marshal nameMap.
Definition DigestSet_UnmarshalJSON (json_Unmarshal : bytes → res (gmap string string))
    (data : bytes) : res DigestSet :=
  nameMap ← json_Unmarshal data;
  NewDigestSet nameMap.

(** * Lemmas on digest sets *)

Lemma Equal_loop_spec l second b :
  Equal_loop l second b = true ↔
    (∀ h d d', (h, d) ∈ l → second !! h = Some d' → d = d') ∧
    (b = true ∨ ∃ h d, (h, d) ∈ l ∧ is_Some (second !! h)).
Proof.
  revert b; induction l as [|[h d] l IH]; intros b; simpl.
  { split; [intros ->; split; [set_solver|by left]|]. intros [_ [->|(?&?&?%not_elem_of_nil&_)]]; done. }
  destruct (second !! h) as [d'|] eqn:Hh.
  - case_bool_decide as Hd; [subst d'; rw IH|].
    + split; intros [H1 H2]; (split; [|destruct H2 as [?|(h'&d'&Hin&Hs)]]).
      * intros h' d1 d2 [Heq|Hin]%elem_of_cons ?; simplify_eq; [done|by eapply H1].
      * right. exists h, d. split; [left|by eexists].
      * right. eauto with elems.
      * intros h' d1 d2 Hin. eapply H1. by right.
      * by left.
      * by left.
    + split; [done|]. intros [H1 _]. destruct Hd. eapply H1; [left|done].
  - rw IH. split; intros [H1 H2]; (split; [|destruct H2 as [?|(h'&d'&Hin&Hs)]]).
    + intros h' d1 d2 [Heq|Hin]%elem_of_cons ?; simplify_eq. by eapply H1.
    + by left.
    + right. eauto with elems.
    + intros h' d1 d2 Hin. eapply H1. by right.
    + by left.
    + right. apply elem_of_cons in Hin as [Heq|Hin]; [|by exists h', d'].
      simplify_eq. destruct Hs as [? Hs]. congruence.
Qed.

(** The declarative meaning of [Equal]: no disagreement, some agreement. *)
Definition digests_agree (ds second : DigestSet) : Prop :=
  (∀ h d d', ds !! h = Some d → second !! h = Some d' → d = d') ∧
  (∃ h d, ds !! h = Some d ∧ second !! h = Some d).

Lemma DigestSet_Equal_spec ds second :
  DigestSet_Equal ds second = true ↔ digests_agree ds second.
Proof.
  unfold DigestSet_Equal, digests_agree. rw Equal_loop_spec.
  setoid_rewrite elem_of_range. split; intros [H1 H2]; (split; [naive_solver|]).
  - destruct H2 as [?|(h & d & Hd & [d' Hd'])]; [done|].
    exists h, d. split; [done|]. by rw (H1 _ _ _ Hd Hd').
  - destruct H2 as (h & d & Hd & Hd'). right. exists h, d. split; [done|by eexists].
Qed.

Lemma DigestSet_Equal_sym a b : DigestSet_Equal a b = DigestSet_Equal b a.
Proof.
  apply eq_bool_prop_intro. rw !Is_true_true !DigestSet_Equal_spec.
  unfold digests_agree. split; intros [H1 (h & d & ? & ?)]; (split; [|by exists h, d]);
    intros; symmetry; by eapply H1.
Qed.

Lemma DigestSet_Equal_refl a : a ≠ ∅ → DigestSet_Equal a a = true.
Proof.
  intros Ha. apply DigestSet_Equal_spec. split; [naive_solver|].
  apply map_choose in Ha as (h & d & Hd). by exists h, d.
Qed.

(** The two tables are inverse to each other. *)
Lemma hashNames_hashesByName dv name :
  hashNames !! dv = Some name ↔ hashesByName !! name = Some dv.
Proof.
  split; intros H.
  - assert (Hall : map_Forall (λ dv name, hashesByName !! name = Some dv) hashNames)
      by (refine (bool_decide_eq_true_1 _ _); by vm_compute).
    by apply Hall.
  - assert (Hall : map_Forall (λ name dv, hashNames !! dv = Some name) hashesByName)
      by (refine (bool_decide_eq_true_1 _ _); by vm_compute).
    by apply Hall.
Qed.

Lemma hashNames_inj dv dv' name :
  hashNames !! dv = Some name → hashNames !! dv' = Some name → dv = dv'.
Proof. rw !hashNames_hashesByName. intros. by simplify_eq. Qed.

Lemma hashesByName_inj n n' dv :
  hashesByName !! n = Some dv → hashesByName !! n' = Some dv → n = n'.
Proof. rw -!hashNames_hashesByName. intros. by simplify_eq. Qed.

(** Every digest of the set is of a hash the tables know. *)
Definition supported (ds : DigestSet) : Prop := ∀ dv, is_Some (ds !! dv) → is_Some (hashNames !! dv).
Definition supported_names (m : gmap string string) : Prop :=
  ∀ n, is_Some (m !! n) → is_Some (hashesByName !! n).

Lemma ToNameMap_supported ds :
  supported ds →
  ∃ m, ToNameMap ds = Ok m ∧
    ∀ name d, m !! name = Some d ↔ ∃ dv, ds !! dv = Some d ∧ hashNames !! dv = Some name.
Proof.
  intros Hs. by apply (rename_range_ok (λ dv, hashNames !! dv)
    (λ dv, ErrUnsupportedHash (Hash_String (dv_Hash dv))) hashNames_inj 0 ds).
Qed.

Lemma NewDigestSet_supported m :
  supported_names m →
  ∃ ds, NewDigestSet m = Ok ds ∧
    ∀ dv d, ds !! dv = Some d ↔ ∃ n, m !! n = Some d ∧ hashesByName !! n = Some dv.
Proof.
  intros Hs. by apply (rename_range_ok (λ n, hashesByName !! n)
    ErrUnsupportedHash hashesByName_inj 0 m).
Qed.

Lemma ToNameMap_unsupported ds dv :
  is_Some (ds !! dv) → hashNames !! dv = None →
  ∃ dv', ToNameMap ds = Err (ErrUnsupportedHash (Hash_String (dv_Hash dv'))) ∧ hashNames !! dv' = None.
Proof.
  intros Hs Hn. by apply (rename_range_err (λ dv, hashNames !! dv)
    (λ dv, ErrUnsupportedHash (Hash_String (dv_Hash dv))) 0 ds dv).
Qed.

Lemma NewDigestSet_unsupported m n :
  is_Some (m !! n) → hashesByName !! n = None →
  ∃ n', NewDigestSet m = Err (ErrUnsupportedHash n') ∧ hashesByName !! n' = None.
Proof.
  intros Hs Hn. by apply (rename_range_err (λ n, hashesByName !! n) ErrUnsupportedHash 0 m n).
Qed.

Lemma digest_names_roundtrip ds m :
  supported ds → ToNameMap ds = Ok m → NewDigestSet m = Ok ds.
Proof.
  intros Hs Hm. destruct (ToNameMap_supported ds Hs) as (m' & Hm' & Hl). rw Hm in Hm'. simplify_eq.
  destruct (NewDigestSet_supported m') as (ds' & Hds' & Hl').
  { intros n [d Hd]. apply Hl in Hd as (dv & _ & Hn). rw hashNames_hashesByName in Hn. by eexists. }
  rw Hds'. f_equal. apply map_eq. intros dv. apply option_eq. intros d.
  rw Hl'. setoid_rewrite Hl. split.
  - intros (n & (dv' & Hd & Hn) & Hn'). rw -hashNames_hashesByName in Hn'.
    by rw (hashNames_inj dv dv' n).
  - intros Hd. destruct (Hs dv) as [n Hn]; [by eexists|]. exists n.
    split; [by exists dv|by apply hashNames_hashesByName].
Qed.

End sets.

(** * Calculating digests *)

(** github.com/edwarnicke/gitoid: [gitoid.New] over a reader that holds the
    given bytes, with or without [WithSha256]; the URI of the result and the
    bytes it leaves unread. *)
Class GitoidLib := {
  gitoid_New : bool → bytes → res string * bytes;
  gitoid_BLOB : string;
}.

Section calculate.
Context `{CL : CryptoLib} `{GL : GitoidLib}.

(** ** gitoid.go *)

(** The state of a [gitoidHasher]. *)
Record gitoidHasher := mkGitoidHasher { gh_buf : bytes; gh_hash : Hash }.

Definition gitoidHasher_Write (gh : gitoidHasher) (p : bytes) : gitoidHasher :=
  mkGitoidHasher (gh_buf gh +:+ p) (gh_hash gh).

(** [Sum] reads the buffer through gitoid.New, so it also changes the hasher. *)
Definition gitoidHasher_Sum (gh : gitoidHasher) (b : bytes) : bytes * gitoidHasher :=
  let '(g, rest) := gitoid_New (bool_decide (gh_hash gh = SHA256)) (gh_buf gh) in
  (match g with Ok uri => b +:+ uri | _ => "" end, mkGitoidHasher rest (gh_hash gh)).

Definition gitoidHasher_Reset (gh : gitoidHasher) : gitoidHasher :=
  mkGitoidHasher "" (gh_hash gh).

(** The digest sizes of [crypto.Hash.Size] for the hashes the tables name. *)
Definition Hash_Size (h : Hash) : nat :=
  if bool_decide (h = SHA1) then 20 else if bool_decide (h = SHA256) then 32 else 0.

(** [HashToString] only succeeds for SHA1 and SHA256, so only their sizes are used. *)
Definition gitoidHasher_Size (gh : gitoidHasher) : nat :=
  match HashToString (gh_hash gh) with
  | Ok hashName =>
      slen ("gitoid:" +:+ gitoid_BLOB +:+ ":" +:+ hashName +:+ ":") + 2 * Hash_Size (gh_hash gh)
  | _ => 0
  end.

(** ** digestset.go *)

(** [DigestValue.New] followed by writing all of the data: the hasher state a
    digest value gives. *)
Inductive hasher := HGitoid (gh : gitoidHasher) | HPlain (h : bytes → bytes) (data : bytes).

Definition DigestValue_New (dv : DigestValue) : res hasher :=
  if GitOID dv then Ok (HGitoid (mkGitoidHasher "" (dv_Hash dv)))
  else match hash_sum (dv_Hash dv) with
       | Some h => Ok (HPlain h "")
       | None => Panic "crypto: requested hash function is unavailable"
       end.
Definition hasher_Write (p : bytes) (h : hasher) : hasher :=
  match h with
  | HGitoid gh => HGitoid (gitoidHasher_Write gh p)
  | HPlain f data => HPlain f (data +:+ p)
  end.
(** [hashfunc.Sum(nil)] *)
Definition hasher_Sum (h : hasher) : bytes :=
  match h with
  | HGitoid gh => (gitoidHasher_Sum gh "").1
  | HPlain f data => f data
  end.

Definition CalculateDigestSet `{RO : RangeOrder} (r : Reader) (digestValues : list DigestValue)
    : res DigestSet :=
  hashfuncs ← range_res (λ (hashfuncs : gmap DigestValue hasher) digestValue,
                hashfunc ← DigestValue_New digestValue;
                Ok (<[digestValue:=hashfunc]> hashfuncs)) ∅ digestValues;
  data ← r;
  let hashfuncs := hasher_Write data <$> hashfuncs in
  Ok (foldl (λ (digestSet : DigestSet) kv,
        if GitOID kv.1 then <[kv.1:=hasher_Sum kv.2]> digestSet
        else <[kv.1:=HexEncode (hasher_Sum kv.2)]> digestSet) ∅ (range_map 0 hashfuncs)).

Definition CalculateDigestSetFromBytes `{RO : RangeOrder} (data : bytes) (hashes : list DigestValue)
    : res DigestSet :=
  CalculateDigestSet (Ok data) hashes.

(** ** File modes ([fs.FileMode]) *)

Definition ModeDir : Z := Z.shiftl 1 31.
Definition ModeSymlink : Z := Z.shiftl 1 27.
Definition ModeDevice : Z := Z.shiftl 1 26.
Definition ModeNamedPipe : Z := Z.shiftl 1 25.
Definition ModeSocket : Z := Z.shiftl 1 24.
Definition ModeCharDevice : Z := Z.shiftl 1 21.
Definition ModeIrregular : Z := Z.shiftl 1 19.
Definition ModePerm : Z := 511.
Definition ModeType : Z :=
  foldr Z.lor 0%Z [ModeDir; ModeSymlink; ModeNamedPipe; ModeSocket; ModeDevice; ModeCharDevice; ModeIrregular].

Definition mode_IsDir (m : Z) : bool := negb (bool_decide (Z.land m ModeDir = 0%Z)).
Definition mode_IsRegular (m : Z) : bool := bool_decide (Z.land m ModeType = 0%Z).
Definition mode_Perm (m : Z) : Z := Z.land m ModePerm.

(** [isHashableFile] of an opened file whose [Stat] gives this mode or error. *)
Definition isHashableFile (stat : res Z) : res bool :=
  mode ← stat;
  let isSpecial := negb (bool_decide (Z.land mode ModeCharDevice = 0%Z)) in
  if isSpecial then Ok false
  else if mode_IsRegular mode then Ok true
  else if mode_IsDir (mode_Perm mode) then Ok true
  else if bool_decide (Z.land mode ModeSymlink = 1%Z) then Ok true
  else Ok false.

(** A file as [os.Open] gives it: its [Stat] mode and what reading it gives. *)
Record OpenFile := mkOpenFile { file_Stat : res Z; file_Read : Reader }.

Definition CalculateDigestSetFromFile `{RO : RangeOrder} (os_Open : string → res OpenFile)
    (path : string) (hashes : list DigestValue) : res DigestSet :=
  file ← os_Open path;
  hashable ← isHashableFile (file_Stat file);
  if (hashable : bool) then CalculateDigestSet (file_Read file) hashes
  else Err (Errorf (path +:+ " is not a hashable file")).

(** ** dirhash.go *)

(** [open] gives an [*os.File] or another reader ([None] of the first component
    when [abstractedFile.( *os.File)] fails). *)
Definition summary_line (digest : bytes) (file : string) : string :=
  HexEncode digest +:+ "  " +:+ file +:+ nl.

Fixpoint DirhHash_loop (sha256 : bytes → bytes) (open : string → res (option OpenFile))
    (files : list string) (h : bytes) : res bytes :=
  match files with
  | [] => Ok h
  | file :: files =>
    if Contains file nl
    then Err (Errorf "dirhash: filenames with newlines are not supported")
    else
      r ← open file;
      match r with
      | None => Err (Errorf "dirhash: abstracted file is not an *os.File")
      | Some osFile =>
        if match file_Stat osFile with Ok m => mode_IsDir m | _ => false end
        then DirhHash_loop sha256 open files h
        else
          data ← file_Read osFile;
          DirhHash_loop sha256 open files (h +:+ summary_line (sha256 data) file)
      end
  end.

Definition DirhHashSha256 (files : list string) (open : string → res (option OpenFile)) : res string :=
  match hash_sum SHA256 with
  | None => Panic "crypto: requested hash function is unavailable"
  | Some sha256 =>
    let files := merge_sort String.le files in
    h ← DirhHash_loop sha256 open files "";
    Ok (HexEncode (sha256 h))
  end.

(** [dirhash.HashDir] (golang.org/x/mod) lists the files of a directory and
    applies the hash to them and to a function that opens them. *)
Definition CalculateDigestSetFromDir `{RO : RangeOrder}
    (HashDir : string → (list string → (string → res (option OpenFile)) → res string) → res string)
    (dir : string) (hashes : list DigestValue) : res DigestSet :=
  dirHash ← HashDir dir DirhHashSha256;
  NewDigestSet {["dirHash" := dirHash]}.

(** * Properties *)

Definition digest_text (dv : DigestValue) (data : bytes) : option string :=
  match DigestValue_New dv with
  | Ok h => let s := hasher_Sum (hasher_Write data h) in
            Some (if GitOID dv then s else HexEncode s)
  | _ => None
  end.

Lemma DigestValue_New_no_err dv e : DigestValue_New dv ≠ Err e.
Proof. unfold DigestValue_New. destruct (GitOID dv); [done|]. by destruct (hash_sum _). Qed.

Definition New_step (hashfuncs : gmap DigestValue hasher) (dv : DigestValue) :=
  hashfunc ← DigestValue_New dv; Ok (<[dv:=hashfunc]> hashfuncs).

Lemma New_steps_lookup dvs m0 m dv :
  range_res New_step m0 dvs = Ok m →
  m !! dv = if decide (dv ∈ dvs) then match DigestValue_New dv with Ok h => Some h | _ => None end
            else m0 !! dv.
Proof.
  revert m0; induction dvs as [|x dvs IH]; intros m0 H; simpl in H.
  { simplify_eq. by case_decide as Hd; [apply not_elem_of_nil in Hd|]. }
  apply res_bind_ok in H as (m1 & (h & Hh & Hm1)%res_bind_ok & Hr). simplify_eq.
  rw (IH _ Hr). destruct (decide (dv ∈ dvs)) as [Hin|Hin].
  { rw decide_True //. by right. }
  destruct (decide (x = dv)) as [->|Hne].
  - rw lookup_insert_eq decide_True; [by rw Hh|left].
  - rw lookup_insert_ne // decide_False //. by intros [?|?]%elem_of_cons.
Qed.

Lemma foldl_insert_lookup `{Countable K} {A B} (g : K → A → B) (l : list (K * A)) (m0 : gmap K B) k :
  NoDup l.*1 →
  foldl (λ acc kv, <[kv.1:=g kv.1 kv.2]> acc) m0 l !! k =
  match list_to_map (M:=gmap K A) l !! k with Some a => Some (g k a) | None => m0 !! k end.
Proof.
  revert m0; induction l as [|[k1 a1] l IH]; intros m0 Hnd; simpl; [done|].
  inversion Hnd; subst. rw IH //. destruct (decide (k1 = k)) as [->|Hne].
  - rw not_elem_of_list_to_map_1 // !lookup_insert_eq //.
  - rw !lookup_insert_ne //.
Qed.

(** What the digest set of some content holds. *)
Lemma CalculateDigestSet_lookup `{RO : RangeOrder} data dvs ds dv :
  CalculateDigestSet (Ok data) dvs = Ok ds →
  ds !! dv = if decide (dv ∈ dvs) then digest_text dv data else None.
Proof.
  unfold CalculateDigestSet. intros (m & Hm & H)%res_bind_ok. simplify_eq/=.
  set (g := λ (dv : DigestValue) h, if GitOID dv then hasher_Sum h else HexEncode (hasher_Sum h)).
  assert (Hext : ∀ l (acc : DigestSet),
    foldl (λ (digestSet : DigestSet) kv,
        if GitOID kv.1 then <[kv.1:=hasher_Sum kv.2]> digestSet
        else <[kv.1:=HexEncode (hasher_Sum kv.2)]> digestSet) acc l =
    foldl (λ acc kv, <[kv.1:=g kv.1 kv.2]> acc) acc l).
  { induction l as [|[k h] l IH]; intros acc; [done|]. simpl. rw IH. unfold g at 3. simpl.
    by destruct (GitOID k). }
  rw Hext foldl_insert_lookup; [|apply NoDup_fst_range].
  rw (list_to_map_proper _ _ (NoDup_fst_range 0 _) (range_map_perm _ _ _ _)) list_to_map_to_list.
  rw lookup_fmap (New_steps_lookup _ _ _ dv Hm) lookup_empty. unfold digest_text, g.
  case_decide; [|done]. by destruct (DigestValue_New dv).
Qed.

(** It succeeds exactly when every plain hash of the list is linked, and
    panics otherwise. *)
Definition linked (dvs : list DigestValue) : Prop :=
  Forall (λ dv, GitOID dv = true ∨ is_Some (hash_sum (dv_Hash dv))) dvs.

Lemma DigestValue_New_linked dv :
  GitOID dv = true ∨ is_Some (hash_sum (dv_Hash dv)) → ∃ h, DigestValue_New dv = Ok h.
Proof. unfold DigestValue_New. intros [->|[h ->]]; [by eexists|]. destruct (GitOID dv); by eexists. Qed.

Lemma CalculateDigestSet_total `{RO : RangeOrder} data dvs :
  linked dvs → ∃ ds, CalculateDigestSet (Ok data) dvs = Ok ds.
Proof.
  intros Hl. unfold CalculateDigestSet.
  assert (∀ m0, ∃ m, range_res New_step m0 dvs = Ok m) as Hm.
  { induction Hl as [|dv dvs Hdv Hl IH]; intros m0; [by eexists|]. cbn [range_res].
    destruct (DigestValue_New_linked dv Hdv) as [h Hh].
    assert (New_step m0 dv = Ok (<[dv:=h]> m0)) as -> by (unfold New_step; by rw Hh). apply IH. }
  destruct (Hm ∅) as [m Hm']. unfold New_step in Hm'. rw Hm'. by eexists.
Qed.

Lemma CalculateDigestSet_read_error `{RO : RangeOrder} e dvs :
  linked dvs → CalculateDigestSet (Err e) dvs = Err e.
Proof.
  intros [ds Hds]%(CalculateDigestSet_total ""). unfold CalculateDigestSet in *.
  by apply res_bind_ok in Hds as (m & -> & _).
Qed.

(** Digest sets of equal content agree as soon as they share a hash. *)
Lemma CalculateDigestSet_Equal `{RO : RangeOrder} data dvs dvs' ds ds' :
  CalculateDigestSet (Ok data) dvs = Ok ds → CalculateDigestSet (Ok data) dvs' = Ok ds' →
  (∃ dv, dv ∈ dvs ∧ dv ∈ dvs' ∧ is_Some (digest_text dv data)) → DigestSet_Equal ds ds' = true.
Proof.
  intros H H' (dv & Hin & Hin' & [d Hd]). apply DigestSet_Equal_spec.
  pose proof (CalculateDigestSet_lookup data dvs ds) as L.
  pose proof (CalculateDigestSet_lookup data dvs' ds') as L'. split.
  - intros h x x'. rw (L h H) (L' h H'). repeat case_decide; intros; by simplify_eq.
  - exists dv, d. rw (L dv H) (L' dv H') !decide_True //.
Qed.

(** With an injective hash in common, [Equal] only holds for equal content. *)
Lemma CalculateDigestSet_Equal_content `{RO : RangeOrder} a b dvs dvs' ds ds' dv h :
  CalculateDigestSet (Ok a) dvs = Ok ds → CalculateDigestSet (Ok b) dvs' = Ok ds' →
  dv ∈ dvs → dv ∈ dvs' → GitOID dv = false → hash_sum (dv_Hash dv) = Some h → Inj (=) (=) h →
  DigestSet_Equal ds ds' = true → a = b.
Proof.
  intros H H' Hin Hin' Hg Hh Hinj [Hagree _]%DigestSet_Equal_spec.
  specialize (Hagree dv (HexEncode (h a)) (HexEncode (h b))).
  rw (CalculateDigestSet_lookup a dvs ds dv H) (CalculateDigestSet_lookup b dvs' ds' dv H')
    !decide_True // /digest_text /DigestValue_New Hg Hh /= in Hagree.
  apply (inj h), (inj HexEncode). by apply Hagree.
Qed.

(** Of the four tests of [isHashableFile] only the regular-file test can
    succeed: the permission bits never contain the directory bit, and the
    symlink bit is not 1. *)
Lemma isHashableFile_regular m : isHashableFile (Ok m) = Ok (mode_IsRegular m).
Proof.
  unfold isHashableFile. simpl.
  assert (Hbit : ∀ k, Z.testbit ModeType k = true → mode_IsRegular m = true → Z.testbit m k = false).
  { unfold mode_IsRegular. intros k Hk Hr%bool_decide_eq_true.
    apply (f_equal (λ z, Z.testbit z k)) in Hr. rw Z.land_spec Hk Z.bits_0 in Hr. by destruct (Z.testbit m k). }
  assert (Hpow : ∀ k, (0 ≤ k)%Z → Z.testbit m k = false → Z.land m (Z.shiftl 1 k) = 0%Z).
  { intros k Hk Hf. apply Z.bits_inj'. intros j Hj.
    rw Z.land_spec Z.shiftl_1_l Z.bits_0. destruct (decide (j = k)) as [->|Hne].
    - by rw Hf.
    - by rw (Z.pow2_bits_false k j) ?andb_false_r. }
  assert (Z.land (mode_Perm m) ModeDir = 0%Z) as Hperm.
  { unfold mode_Perm, ModePerm, ModeDir. rw -Z.land_assoc. by rw Z.land_0_r. }
  assert (Z.land m ModeSymlink ≠ 1%Z) as Hsym.
  { intros Hx. apply (f_equal (λ z, Z.testbit z 0)) in Hx. rw Z.land_spec andb_false_r in Hx. done. }
  rw (bool_decide_eq_false_2 _ Hsym). unfold mode_IsDir. rw Hperm.
  destruct (mode_IsRegular m) eqn:Hr; simpl.
  - unfold ModeCharDevice. by rw (Hpow 21%Z) // (Hbit 21%Z).
  - by case_bool_decide.
Qed.

(** Listing the same files in another order gives the same directory hash. *)
Lemma DirhHashSha256_perm files files' open :
  files ≡ₚ files' → DirhHashSha256 files open = DirhHashSha256 files' open.
Proof.
  intros Hp. unfold DirhHashSha256. destruct (hash_sum SHA256); [|done].
  assert (merge_sort String.le files = merge_sort String.le files') as ->; [|done].
  apply (StronglySorted_unique String.le).
  - apply StronglySorted_merge_sort; apply _.
  - apply StronglySorted_merge_sort; apply _.
  - by rw !merge_sort_Permutation.
Qed.
End calculate.
