(* ===== verification/Paths.v ===== *)
(** The functions of Go's [path/filepath] the source calls, on Unix: [Clean],
    [Join], [Rel], [ToSlash] and [Walk], with the lemmas about paths below a
    base directory. *)
From S2P Require Import Prelude GoStrings Crypto Digest.
From stdpp Require Import options.

(** [os.PathSeparator] *)
Definition slash : ascii := "/".
Definition slash_str : string := "/".

(** * Clean, Join, Rel *)

(** One path element: [st] holds the elements kept so far, the last first. *)
Definition clean_step (rooted : bool) (st : list string) (c : string) : list string :=
  if bool_decide (c = "" ∨ c = ".") then st
  else if bool_decide (c = "..") then
    match st with
    | top :: st' => if bool_decide (top = "..") then c :: st else st'
    | [] => if rooted then [] else [".."]
    end
  else c :: st.

Definition is_rooted (path : string) : bool := HasPrefix path slash_str.
Definition clean_elems (path : string) : list string :=
  reverse (foldl (clean_step (is_rooted path)) [] (SplitByte path slash)).

Definition render (rooted : bool) (es : list string) : string :=
  if rooted then slash_str +:+ Join es slash_str
  else match es with [] => "." | _ => Join es slash_str end.

(** [filepath.Clean] *)
Definition Clean (path : string) : string := render (is_rooted path) (clean_elems path).

(** [filepath.Join]: empty elements at the front are ignored. *)
Fixpoint filepath_Join (elem : list string) : string :=
  match elem with
  | [] => ""
  | e :: elem' => if bool_decide (e = "") then filepath_Join elem' else Clean (Join elem slash_str)
  end.

(** The longest common prefix is taken off both lists. *)
Fixpoint strip_common (bs ts : list string) : list string * list string :=
  match bs, ts with
  | b :: bs', t :: ts' => if bool_decide (b = t) then strip_common bs' ts' else (bs, ts)
  | _, _ => (bs, ts)
  end.

Definition path_elems (path : string) : list string :=
  filter (λ c, c ≠ "") (SplitByte path slash).

(** [filepath.Rel] *)
Definition Rel (basepath targpath : string) : res string :=
  let base := Clean basepath in
  let targ := Clean targpath in
  if bool_decide (targ = base) then Ok "."
  else
    let base := if bool_decide (base = ".") then "" else base in
    let failure := Errorf ("Rel: can't make " +:+ targpath +:+ " relative to " +:+ basepath) in
    if negb (bool_decide (is_rooted base = is_rooted targ)) then Err failure
    else
      let '(bs, ts) := strip_common (path_elems base) (path_elems targ) in
      if match bs with b :: _ => bool_decide (b = "..") | [] => false end then Err failure
      else Ok (Join (((λ _, "..") <$> bs) ++ ts) slash_str).

(** [filepath.ToSlash], where the separator is the slash. *)
Definition ToSlash (path : string) : string := path.

(** * Walk *)

(** A file as [os.Lstat] finds it: its mode, and for a directory the answer of
    [readDirNames], each name with the answer of [os.Lstat] on it. *)
Inductive node := Node (mode : Z) (entries : res (list (string * res node))).
Definition node_mode (n : node) : Z := let 'Node m _ := n in m.
Definition node_IsDir (n : node) : bool := mode_IsDir (node_mode n).

(** [readDirNames] sorts. *)
Definition name_le (a b : string * res node) : Prop := String.le a.1 b.1.
#[export] Instance name_le_dec a b : Decision (name_le a b).
Proof. unfold name_le. apply _. Defined.
Fixpoint sort_tree (n : node) : node :=
  let 'Node m entries := n in
  Node m (match entries with
          | Ok l => Ok (merge_sort name_le
              (map (λ e, (e.1, match e.2 with Ok c => Ok (sort_tree c) | r => r end)) l))
          | r => r
          end).

Section walk.
Context {S : Type}.

(** A [WalkFunc] gets the path, the file info unless it is nil, and the error
    of finding the file out; it changes the captured state and answers nil
    ([false]) or [SkipDir] ([true]), or fails. *)
Definition WalkFunc := S → string → option Z → option error → res (S * bool).
Variable fn : WalkFunc.

Fixpoint walk (path : string) (n : node) (s : S) : res (S * bool) :=
  let 'Node m entries := n in
  if negb (mode_IsDir m) then fn s path (Some m) None
  else
    match entries with
    | Panic w => Panic w
    | Err e => fn s path (Some m) (Some e)
    | Ok names =>
        r ← fn s path (Some m) None;
        if (r.2 : bool) then Ok r
        else
          (fix loop (names : list (string * res node)) (s : S) : res (S * bool) :=
             match names with
             | [] => Ok (s, false)
             | (name, child) :: names =>
                 let filename := filepath_Join [path; name] in
                 match child with
                 | Panic w => Panic w
                 | Err e => r ← fn s filename None (Some e); loop names r.1
                 | Ok child =>
                     r ← walk filename child s;
                     if (r.2 : bool) && negb (node_IsDir child) then Ok r else loop names r.1
                 end
             end) names r.1
    end.

(** [filepath.Walk] *)
Definition Walk (Lstat : string → res node) (root : string) (s : S) : res S :=
  match Lstat root with
  | Panic w => Panic w
  | Err e => r ← fn s root None (Some e); Ok r.1
  | Ok n => r ← walk root (sort_tree n) s; Ok r.1
  end.

(** The loop over the entries of a directory. *)
Fixpoint walk_entries (path : string) (names : list (string * res node)) (s : S) : res (S * bool) :=
  match names with
  | [] => Ok (s, false)
  | (name, child) :: names =>
      let filename := filepath_Join [path; name] in
      match child with
      | Panic w => Panic w
      | Err e => r ← fn s filename None (Some e); walk_entries path names r.1
      | Ok child =>
          r ← walk filename child s;
          if (r.2 : bool) && negb (node_IsDir child) then Ok r else walk_entries path names r.1
      end
  end.
End walk.

Lemma walk_unfold {S} (fn : @WalkFunc S) path m entries s :
  walk fn path (Node m entries) s =
  if negb (mode_IsDir m) then fn s path (Some m) None
  else match entries with
       | Panic w => Panic w
       | Err e => fn s path (Some m) (Some e)
       | Ok names =>
           r ← fn s path (Some m) None;
           if (r.2 : bool) then Ok r else walk_entries fn path names r.1
       end.
Proof.
  simpl. destruct (negb _); [done|]. destruct entries as [names| |]; [|done..].
  destruct (fn s path (Some m) None) as [[s1 []]| |]; [done| |done..]. simpl.
  generalize s1. induction names as [|[name child] names IH]; intros s2; [done|]. simpl.
  destruct child as [c| |]; [|by destruct (fn _ _ _ _); simpl|done].
  destruct (walk _ _ _ _) as [[s3 b]| |]; [simpl|done..]. by destruct (_ && _).
Qed.

(** Induction on file trees: [on_children P n] says [P] of the files directly
    below a node. *)
Definition on_child (P : node → Prop) (e : string * res node) : Prop :=
  match e.2 with Ok c => P c | _ => True end.
Definition on_children (P : node → Prop) (n : node) : Prop :=
  let 'Node _ entries := n in match entries with Ok l => Forall (on_child P) l | _ => True end.
Lemma node_ind' (P : node → Prop) : (∀ n, on_children P n → P n) → ∀ n, P n.
Proof.
  intros HP. fix IH 1. intros [m [l| |]]; apply HP; [|exact I..].
  induction l as [|[name r] l IHl]; constructor; [|exact IHl].
  destruct r as [c| |]; [exact (IH c)|exact I..].
Qed.

(** * Splitting paths *)

Lemma SplitByte_cons_eq c s : SplitByte (String c s) c = "" :: SplitByte s c.
Proof. simpl. by rw bool_decide_eq_true_2. Qed.

Lemma SplitByte_cons_ne x c s :
  x ≠ c → ∃ p ps, SplitByte s c = p :: ps ∧ SplitByte (String x s) c = String x p :: ps.
Proof.
  intros Hne. simpl. rw bool_decide_eq_false_2 //.
  destruct (SplitByte s c) as [|p ps] eqn:E; [by apply SplitByte_ne_nil in E|]. by exists p, ps.
Qed.

Lemma SplitByte_app a b c : SplitByte (a +:+ String c b) c = SplitByte a c ++ SplitByte b c.
Proof.
  induction a as [|x a IH]; [by rw string_app_nil_l SplitByte_cons_eq|]. rw string_app_cons.
  destruct (decide (x = c)) as [->|Hne]; [by rw !SplitByte_cons_eq IH|].
  destruct (SplitByte_cons_ne x c a Hne) as (p & ps & Hp & ->).
  destruct (SplitByte_cons_ne x c (a +:+ String c b) Hne) as (q & qs & Hq & ->).
  rw IH Hp in Hq. by simplify_eq/=.
Qed.

Lemma SplitByte_elems c s : Forall (λ p, byte_free c p = true) (SplitByte s c).
Proof.
  induction s as [|x s IH]; [by repeat constructor|]. simpl. case_bool_decide as Hx; [by constructor|].
  assert (Hp : ∀ p, byte_free c p = true → byte_free c (String x p) = true).
  { intros p Hp. simpl. by rw bool_decide_eq_false_2. }
  destruct (SplitByte s c) as [|p ps]; inversion IH; subst; constructor; auto.
Qed.

(** * Names below a directory *)

(** A name [readDirNames] can give. *)
Definition valid_name (n : string) : bool :=
  bool_decide (n ≠ "" ∧ n ≠ "." ∧ n ≠ "..") && byte_free slash n.
Definition valid (n : string) : Prop := valid_name n = true.

Lemma valid_inv n : valid n → n ≠ "" ∧ n ≠ "." ∧ n ≠ ".." ∧ byte_free slash n = true.
Proof. unfold valid, valid_name. rw andb_true_iff bool_decide_eq_true. naive_solver. Qed.

Lemma clean_step_valid r st n : valid n → clean_step r st n = n :: st.
Proof.
  intros (H1 & H2 & H3 & _)%valid_inv. unfold clean_step.
  by rw !bool_decide_eq_false_2; [|naive_solver..].
Qed.

Lemma foldl_clean_valid r st ns : Forall valid ns → foldl (clean_step r) st ns = reverse ns ++ st.
Proof.
  intros Hv. revert st; induction Hv as [|n ns Hn _ IH]; intros st; [done|]. simpl.
  rw clean_step_valid // IH reverse_cons. by rw -assoc_L.
Qed.

(** The elements [Clean] leaves: those that go up, then names. *)
Definition normal (r : bool) (es : list string) : Prop :=
  ∃ k ns, es = replicate k ".." ++ ns ∧ Forall valid ns ∧ (r = true → k = 0).

Lemma clean_step_normal r st c :
  byte_free slash c = true → normal r (reverse st) → normal r (reverse (clean_step r st c)).
Proof.
  intros Hc (k & ns & Hst & Hns & Hr). unfold clean_step.
  case_bool_decide as H1; [by exists k, ns|]. case_bool_decide as H2; [subst c|].
  - destruct st as [|top st].
    { destruct r; [by exists 0, []|by exists 1, []]. }
    rw reverse_cons in Hst. destruct ns as [|n ns _] using rev_ind.
    + rw app_nil_r in Hst. destruct k as [|k]; [by apply app_eq_nil in Hst as [_ ?]|].
      rw replicate_S_end in Hst. apply app_inj_tail in Hst as [Hst ->].
      case_bool_decide; [|done]. exists (S (S k)), []. rw !reverse_cons Hst !replicate_S_end app_nil_r.
      split; [done|]. split; [done|]. intros ->. by specialize (Hr eq_refl).
    + rw assoc_L in Hst. apply app_inj_tail in Hst as [Hst ->].
      apply Forall_app in Hns as [Hns Hn%Forall_singleton%valid_inv].
      case_bool_decide; [naive_solver|]. by exists k, ns.
  - exists k, (ns ++ [c]). rw reverse_cons Hst assoc_L. split; [done|]. split; [|done].
    apply Forall_app. split; [done|]. apply Forall_singleton. unfold valid, valid_name.
    rw Hc andb_true_r. apply bool_decide_eq_true. naive_solver.
Qed.

Lemma clean_elems_normal p : normal (is_rooted p) (clean_elems p).
Proof.
  unfold clean_elems. generalize (is_rooted p). intros r.
  assert (normal r (reverse [])) as Hn by (by exists 0, []).
  revert Hn. generalize (@nil string). generalize (SplitByte_elems slash p).
  induction 1 as [|c l Hc _ IH]; intros st Hst; [done|]. simpl. apply IH. by apply clean_step_normal.
Qed.

Lemma is_rooted_app p n : p ≠ "" → is_rooted (p +:+ n) = is_rooted p.
Proof. unfold is_rooted, slash_str. destruct p as [|x p]; [done|]. intros _. rw string_app_cons. cbn. by destruct p, n. Qed.

Lemma is_rooted_free p : byte_free slash p = true → is_rooted p = false.
Proof.
  destruct p as [|x p]; [done|]. intros [H%negb_true_iff _]%andb_true_iff.
  unfold is_rooted, slash_str. cbn in *. apply andb_false_iff. by left.
Qed.

Lemma clean_elems_snoc p n :
  p ≠ "" → valid n → clean_elems (p +:+ String slash n) = clean_elems p ++ [n].
Proof.
  intros Hp Hn. unfold clean_elems. rw is_rooted_app // SplitByte_app foldl_app.
  rw (SplitByte_free slash n); [|by apply valid_inv in Hn as (_&_&_&?)]. simpl.
  by rw clean_step_valid // reverse_cons.
Qed.

(** Cleaning what [Clean] printed gives the same elements. *)
Lemma foldl_clean_dots j k :
  foldl (clean_step false) (replicate j "..") (replicate k "..") = replicate (k + j) "..".
Proof.
  revert j; induction k as [|k IH]; intros j; [done|].
  trans (foldl (clean_step false) (replicate (S j) "..") (replicate k "..")); [by destruct j|].
  rw IH. f_equal. lia.
Qed.

Lemma foldl_clean_normal r es : normal r es → foldl (clean_step r) [] es = reverse es.
Proof.
  intros (k & ns & -> & Hns & Hr). rw foldl_app foldl_clean_valid // reverse_app. f_equal.
  destruct r; [by rw (Hr eq_refl)|]. rw (foldl_clean_dots 0) Nat.add_0_r.
  by rw reverse_replicate.
Qed.

Lemma normal_free r es : normal r es → Forall (λ c, byte_free slash c = true) es.
Proof.
  intros (k & ns & -> & Hns & _). apply Forall_app. split; [by apply Forall_replicate|].
  eapply Forall_impl; [done|]. by intros n (_&_&_&?)%valid_inv.
Qed.

Lemma normal_nonempty r es : normal r es → Forall (λ c, c ≠ "") es.
Proof.
  intros (k & ns & -> & Hns & _). apply Forall_app. split; [by apply Forall_replicate|].
  eapply Forall_impl; [done|]. by intros n (?&_)%valid_inv.
Qed.

Lemma is_rooted_Join es :
  Forall (λ c, byte_free slash c = true) es → Forall (λ c, c ≠ "") es → es ≠ [] →
  is_rooted (Join es slash_str) = false.
Proof.
  intros Hf Hn. destruct Hf as [|c es Hc _]; [done|]. intros _. inversion Hn; subst.
  destruct es; cbn [Join]; [by apply is_rooted_free|]. by rw is_rooted_app ?is_rooted_free.
Qed.

Lemma render_elems r es :
  normal r es → is_rooted (render r es) = r ∧ path_elems (render r es) = if decide (r = false ∧ es = []) then ["."] else es.
Proof.
  intros Hn. assert (Hf := normal_free r es Hn). assert (He := normal_nonempty r es Hn).
  assert (filter (λ c, c ≠ "") es = es) as Hfil.
  { clear -He. induction He as [|c es Hc _ IH]; [done|]. by rw filter_cons_True // IH. }
  unfold path_elems.
  destruct r; cbn [render].
  - split; [apply (HasPrefix_app slash_str)|].
    destruct (decide (true = false ∧ es = [])) as [[? _]|_]; [done|].
    trans (filter (λ c, c ≠ "") ("" :: SplitByte (Join es slash_str) slash)); [done|].
    rw filter_cons_False; [|by intros []]. destruct es as [|c es]; [done|]. by rw SplitByte_Join.
  - destruct es as [|c es]; [done|]. rw is_rooted_Join //. split; [done|].
    destruct (decide (false = false ∧ c :: es = [])) as [[_ ?]|_]; [done|]. by rw SplitByte_Join.
Qed.

Lemma clean_elems_render r es : normal r es → clean_elems (render r es) = es.
Proof.
  intros Hn. unfold clean_elems. rw (proj1 (render_elems r es Hn)).
  assert (foldl (clean_step r) [] (SplitByte (render r es) slash) = foldl (clean_step r) [] es) as ->;
    [|by rw foldl_clean_normal // reverse_involutive].
  assert (Hf := normal_free r es Hn). destruct r; simpl.
  - trans (foldl (clean_step true) [] ("" :: SplitByte (Join es slash_str) slash)); [done|].
    destruct es as [|c es]; [done|]. by rw SplitByte_Join.
  - destruct es as [|c es]; [done|]. by rw SplitByte_Join.
Qed.

Lemma is_rooted_Clean p : is_rooted (Clean p) = is_rooted p.
Proof. apply (proj1 (render_elems _ _ (clean_elems_normal p))). Qed.
Lemma clean_elems_Clean p : clean_elems (Clean p) = clean_elems p.
Proof. apply clean_elems_render, clean_elems_normal. Qed.
Lemma Clean_Clean p : Clean (Clean p) = Clean p.
Proof. unfold Clean at 1. by rw is_rooted_Clean clean_elems_Clean. Qed.

(** The path of the file with these names below a directory, as the walk makes it. *)
Definition below (base : string) (ns : list string) : string :=
  foldl (λ p n, filepath_Join [p; n]) base ns.

Lemma Join_name p n :
  valid n →
  is_rooted (filepath_Join [p; n]) = is_rooted p ∧ clean_elems (filepath_Join [p; n]) = clean_elems p ++ [n].
Proof.
  intros Hn. assert (Hv := Hn). apply valid_inv in Hv as (H1 & H2 & H3 & H4). cbn [filepath_Join].
  case_bool_decide as Hp; [subst p|].
  - rw bool_decide_eq_false_2 // is_rooted_Clean clean_elems_Clean. simpl. rw is_rooted_free //.
    split; [done|]. unfold clean_elems. rw is_rooted_free // SplitByte_free //=. by rw clean_step_valid.
  - rw is_rooted_Clean clean_elems_Clean. cbn [Join]. unfold slash_str. rw string_app_cons string_app_nil_l.
    by rw is_rooted_app // clean_elems_snoc.
Qed.

Lemma below_elems base ns :
  Forall valid ns →
  is_rooted (below base ns) = is_rooted base ∧ clean_elems (below base ns) = clean_elems base ++ ns.
Proof.
  intros Hv. revert base; induction Hv as [|n ns Hn _ IH]; intros base; [by rw app_nil_r|].
  destruct (IH (filepath_Join [base; n])) as [H1 H2]. destruct (Join_name base n Hn) as [H3 H4].
  simpl. split; [by rw H1|]. by rw H2 H4 -assoc_L.
Qed.

Definition rel_path (ns : list string) : string :=
  match ns with [] => "." | _ => Join ns slash_str end.

Lemma strip_common_app es ns : strip_common es (es ++ ns) = ([], ns).
Proof. induction es as [|e es IH]; [by destruct ns|]. simpl. by rw bool_decide_eq_true_2. Qed.

(** The path relative to the base of a file below it is the path its names make. *)
Lemma Rel_below base ns : Forall valid ns → Rel base (below base ns) = Ok (rel_path ns).
Proof.
  intros Hv. destruct (below_elems base ns Hv) as [Hr He].
  assert (Hnb := clean_elems_normal base). assert (Hnt := clean_elems_normal (below base ns)).
  destruct (render_elems _ _ Hnb) as [Hrb Heb]. destruct (render_elems _ _ Hnt) as [Hrt Het].
  unfold Rel. case_bool_decide as Heq.
  { apply (f_equal clean_elems) in Heq. rw !clean_elems_Clean He in Heq.
    rw -{2}(app_nil_r (clean_elems base)) in Heq. by apply app_inv_head in Heq as ->. }
  assert (ns ≠ []) as Hne by (by intros ->).
  assert (is_rooted (if bool_decide (Clean base = ".") then "" else Clean base) = is_rooted (Clean (below base ns))) as Hroot.
  { rw is_rooted_Clean Hr. case_bool_decide as Hd; [|by rw is_rooted_Clean].
    by rw -(is_rooted_Clean base) Hd. }
  rw (bool_decide_eq_true_2 _ Hroot). cbn [negb].
  assert (path_elems (if bool_decide (Clean base = ".") then "" else Clean base) = clean_elems base) as Hpb.
  { case_bool_decide as Hd.
    - by rw -(clean_elems_Clean base) Hd.
    - unfold Clean in *. rw Heb decide_False //. intros [Hf Hnil]. rw Hf Hnil in Hd. done. }
  unfold Clean in Hpb |- * at 3. rw Hpb. unfold Clean. rw Het decide_False.
  2:{ intros [_ Hnil]. rw He in Hnil. by apply app_eq_nil in Hnil as [_ ?]. }
  rw He strip_common_app /=. by destruct ns.
Qed.

Lemma rel_path_inj ns ns' : Forall valid ns → Forall valid ns' → rel_path ns = rel_path ns' → ns = ns'.
Proof.
  assert (Hs : ∀ ns, Forall valid ns → ns ≠ [] → clean_elems (rel_path ns) = ns).
  { intros l Hl Hne. assert (normal false l) as Hn by (by exists 0, l).
    rw -{2}(clean_elems_render false l Hn). by destruct l. }
  intros Hv Hv' H. destruct (decide (ns = [])) as [->|Hne], (decide (ns' = [])) as [->|Hne']; [done|..].
  - apply (f_equal clean_elems) in H. rw (Hs ns') // in H.
  - apply (f_equal clean_elems) in H. rw (Hs ns) // in H.
  - apply (f_equal clean_elems) in H. by rw !Hs // in H.
Qed.
