(* ===== verification/File.v ===== *)
(** attestation/file/file.go: [RecordArtifacts] records the digests of the files
    below a directory, through symbolic links.

    The file system does not change while it is walked: it is the class
    [FileSystem]. The links lead to the finitely many paths [link_targets], which
    bounds the recursion of [RecordArtifacts] into links not visited yet; the
    recursion has this bound as fuel, and [RecordArtifacts_enough_fuel] shows that
    the fuel is never used up. *)
From S2P Require Import Prelude GoStrings Crypto Digest Paths.
From stdpp Require Import options.

Class FileSystem := {
  os_Lstat : string → res node;
  os_Stat : string → res Z;
  os_Open : string → res OpenFile;
  os_IsNotExist : error → bool;
  EvalSymlinks : string → res string;
  link_targets : gset string;
  EvalSymlinks_targets path linkedPath : EvalSymlinks path = Ok linkedPath → linkedPath ∈ link_targets;
  dirhash_HashDir : string → (list string → (string → res (option OpenFile)) → res string) → res string;
}.

(** The artifacts recorded so far and the links visited so far. *)
Abbreviation walk_state := (gmap string DigestSet * gset string)%type.

Section file.
Context `{CL : CryptoLib} `{GL : GitoidLib} `{RO : RangeOrder} `{FS : FileSystem}.
Variables (baseArtifacts : gmap string DigestSet) (hashes : list DigestValue).
Variables (processWasTraced : bool) (openedFiles : gmap string bool).
(** A pattern that did not compile is a nil glob. *)
Variable dirHashGlob : list (option (string → bool)).

Definition shouldRecord (path : string) (artifact : DigestSet) : bool :=
  if negb (bool_decide (is_Some (openedFiles !! path))) && processWasTraced then false
  else match baseArtifacts !! path with
       | Some previous => negb (DigestSet_Equal artifact previous)
       | None => true
       end.

(** The loop over the globs; a nil glob panics unless an earlier one matched. *)
Definition match_dir (relPath : string) : res bool :=
  range_res (λ dirHashMatch (globItem : option (string → bool)),
    if (dirHashMatch : bool) then Ok true
    else match globItem with
         | Some g => Ok (g relPath)
         | None => Panic "nil pointer dereference"
         end) false dirHashGlob.

(** The loop over the artifacts found behind a link. *)
Definition merge_linked (relPath : string) (artifacts symlinkedArtifacts : gmap string DigestSet)
    : gmap string DigestSet :=
  foldl (λ artifacts kv,
    let joinedPath := filepath_Join [relPath; kv.1] in
    if shouldRecord joinedPath kv.2 then <[joinedPath:=kv.2]> artifacts else artifacts)
    artifacts (range_map 0 symlinkedArtifacts).

(** The callback of the walk below [basePath]; [rec] is [RecordArtifacts]. *)
Definition visit (rec : string → gset string → res walk_state) (basePath : string) : WalkFunc :=
  λ st path info err,
  match err with
  | Some e => Err e
  | None =>
    relPath ← Rel basePath path;
    match info with
    | None => Panic "nil pointer dereference"
    | Some mode =>
      if mode_IsDir mode then
        dirHashMatch ← match_dir relPath;
        if (dirHashMatch : bool) then
          dir ← CalculateDigestSetFromDir dirhash_HashDir path hashes;
          Ok (<[relPath +:+ slash_str := dir]> st.1, st.2, true)
        else Ok (st, false)
      else if negb (bool_decide (Z.land mode ModeSymlink = 0%Z)) then
        match EvalSymlinks path with
        | Panic w => Panic w
        | Err e => if os_IsNotExist e then Ok (st, false) else Err e
        | Ok linkedPath =>
          if bool_decide (linkedPath ∈ st.2) then Ok (st, false)
          else
            r ← rec linkedPath ({[linkedPath]} ∪ st.2);
            Ok (merge_linked relPath st.1 r.1, r.2, false)
        end
      else
        artifact ← CalculateDigestSetFromFile os_Open path hashes;
        Ok (if shouldRecord relPath artifact then <[relPath:=artifact]> st.1 else st.1, st.2, false)
    end
  end.

(** [stuck] is the answer when the fuel is used up. *)
Fixpoint RecordArtifacts_fuel (stuck : res walk_state) (n : nat) (basePath : string)
    (visitedSymlinks : gset string) : res walk_state :=
  match n with
  | 0 => stuck
  | S n => Walk (visit (RecordArtifacts_fuel stuck n) basePath) os_Lstat basePath (∅, visitedSymlinks)
  end.

Definition RecordArtifacts (basePath : string) (visitedSymlinks : gset string) : res walk_state :=
  RecordArtifacts_fuel (Panic "out of fuel") (S (size link_targets)) basePath visitedSymlinks.

(** * Two walks that agree *)

Lemma walk_agree {S} (fn fn' : @WalkFunc S) (I : S → Prop) :
  (∀ s p i e, I s → fn s p i e = fn' s p i e ∧ ∀ r, fn s p i e = Ok r → I r.1) →
  ∀ n path s, I s → walk fn path n s = walk fn' path n s ∧ ∀ r, walk fn path n s = Ok r → I r.1.
Proof.
  intros Hfn. apply (node_ind' (λ n, ∀ path s, I s → _)). intros [m entries] IH path s Hs.
  rw !walk_unfold. destruct (negb _); [by apply Hfn|].
  destruct entries as [l| |]; [|by apply Hfn|done].
  destruct (Hfn s path (Some m) None Hs) as [Heq Hi]. rw -Heq.
  destruct (fn s path (Some m) None) as [[s1 skip]| |]; [|done..]. specialize (Hi _ eq_refl). simpl in *.
  destruct skip; [by split; [done|intros r [= <-]]|].
  clear Heq Hs. revert s1 Hi. clear s. induction IH as [|[name r] l Hc _ IHl]; intros s Hs.
  { split; [done|]. by intros ? [= <-]. }
  cbn [walk_entries]. destruct r as [c|e|w]; [| |done].
  - destruct (Hc (filepath_Join [path; name]) s Hs) as [Hw Hi]. rw -Hw.
    destruct (walk fn _ c s) as [[s1 skip]| |]; [|done..]. specialize (Hi _ eq_refl).
    cbn [mbind res_bind fst snd]. destruct (skip && _); [by split; [done|intros ? [= <-]]|]. by apply IHl.
  - destruct (Hfn s (filepath_Join [path; name]) None (Some e) Hs) as [Hw Hi]. rw -Hw.
    destruct (fn s _ None (Some e)) as [[s1 skip]| |]; [|done..]. specialize (Hi _ eq_refl).
    cbn [mbind res_bind fst snd]. by apply IHl.
Qed.

Lemma Walk_agree {S} (fn fn' : @WalkFunc S) (I : S → Prop) Lstat root s :
  (∀ s p i e, I s → fn s p i e = fn' s p i e ∧ ∀ r, fn s p i e = Ok r → I r.1) → I s →
  Walk fn Lstat root s = Walk fn' Lstat root s ∧ ∀ s', Walk fn Lstat root s = Ok s' → I s'.
Proof.
  intros Hfn Hs. unfold Walk. destruct (Lstat root) as [n|e|w]; [| |done].
  - destruct (walk_agree fn fn' I Hfn (sort_tree n) root s Hs) as [Hw Hi]. rw -Hw.
    destruct (walk _ _ _ _) as [r| |]; [|done..]. split; [done|]. intros s' [= <-]. by apply Hi.
  - destruct (Hfn s root None (Some e) Hs) as [Hw Hi]. rw -Hw.
    destruct (fn _ _ _ _) as [r| |]; [|done..]. split; [done|]. intros s' [= <-]. by apply Hi.
Qed.

(** * Fuel *)

(** Two recursive calls may differ where a link was visited before: the walk
    below a base only uses them on a new link with the links visited since. *)
Lemma visit_agree (rec rec' : string → gset string → res walk_state) visited basePath :
  (∀ p v, p ∈ link_targets → p ∈ v → p ∉ visited → visited ⊆ v →
     rec p v = rec' p v ∧ ∀ r, rec p v = Ok r → v ⊆ r.2) →
  ∀ st p i e, visited ⊆ st.2 →
    visit rec basePath st p i e = visit rec' basePath st p i e ∧
    ∀ r, visit rec basePath st p i e = Ok r → visited ⊆ r.1.2.
Proof.
  intros Hrec st p i e Hv. unfold visit. destruct e; [done|].
  destruct (Rel basePath p) as [relPath| |]; [simpl|done..]. destruct i as [mode|]; [|done].
  destruct (mode_IsDir mode).
  { split; [done|]. intros r ([] & _ & H)%res_bind_ok; [|by simplify_eq/=].
    apply res_bind_ok in H as (dir & _ & ?). by simplify_eq/=. }
  destruct (negb _).
  - destruct (EvalSymlinks p) as [linkedPath|e|w] eqn:Hl; [| |done].
    + case_bool_decide as Hin; [by split; [done|intros r [= <-]]|].
      destruct (Hrec linkedPath ({[linkedPath]} ∪ st.2)) as [Heq Hmono];
        [by eapply EvalSymlinks_targets|set_solver|set_solver|set_solver|].
      rw -Heq. split; [done|]. intros r (r' & Hr & [= <-])%res_bind_ok. apply Hmono in Hr. set_solver.
    + destruct (os_IsNotExist e); [|done]. by split; [done|intros r [= <-]].
  - split; [done|]. intros r (a & _ & [= <-])%res_bind_ok. done.
Qed.

Lemma RecordArtifacts_enough_fuel stuck stuck' visited n n' basePath :
  size (link_targets ∖ visited) < n → size (link_targets ∖ visited) < n' →
  RecordArtifacts_fuel stuck n basePath visited = RecordArtifacts_fuel stuck' n' basePath visited ∧
  ∀ r, RecordArtifacts_fuel stuck n basePath visited = Ok r → visited ⊆ r.2.
Proof.
  revert n' basePath visited. induction n as [|n IH]; intros [|n'] basePath visited Hn Hn'; [lia..|].
  cbn [RecordArtifacts_fuel]. apply (Walk_agree _ _ (λ st, visited ⊆ st.2)); [|done].
  apply visit_agree. intros p v Hp Hpv Hnv Hsub.
  assert (size (link_targets ∖ v) < size (link_targets ∖ visited)).
  { apply subset_size. set_solver. }
  apply IH; lia.
Qed.

(** The equation of the code: [RecordArtifacts] calls itself. *)
Lemma RecordArtifacts_eq basePath visited :
  RecordArtifacts basePath visited =
  Walk (visit RecordArtifacts basePath) os_Lstat basePath (∅, visited).
Proof.
  unfold RecordArtifacts. cbn [RecordArtifacts_fuel].
  apply (Walk_agree _ _ (λ st, visited ⊆ st.2)); [|done].
  apply visit_agree. intros p v Hp Hpv Hnv Hsub.
  assert (size (link_targets ∖ v) < size link_targets).
  { apply subset_size. set_solver. }
  apply (RecordArtifacts_enough_fuel _ _ v (size link_targets) (S (size link_targets)) p); lia.
Qed.
End file.

#[global] Arguments RecordArtifacts : simpl never.
