(* ===== verification/Timestamp.v ===== *)
(** timestamp: the RFC 3161 timestamper and verifier (tsp.go), the interfaces
    (timestamp.go) and the fake of fake.go. Parsing and checking of timestamp
    tokens (github.com/digitorus) and HTTP are the fields of [TspLib]. *)
From S2P Require Import Prelude GoStrings Crypto Keys.
From stdpp Require Import options.

(** A parsed timestamp token. *)
Record TspToken := mkTspToken { HashedMessage : bytes; ts_Time : Z }.
(** An HTTP response: the status code, the status line, the body. *)
Record HttpResponse := mkHttpResponse { StatusCode : Z; Status : string; Body : res bytes }.

Class TspLib `{CL : CryptoLib} := {
  tsp_CreateRequest : bytes → Hash → bool → res bytes;
  tsp_ParseResponse : bytes → res bytes;
  tsp_Parse : bytes → res TspToken;
  pkcs7_Parse : bytes → err;
  (* VerifyWithChain of the parsed token against a pool, [None] for a nil pool *)
  pkcs7_VerifyWithChain : bytes → option (list Certificate) → err;
  (* http.NewRequestWithContext (url, content type, body) and Client.Do *)
  http_NewRequest : string → string → bytes → err;
  http_Do : string → string → bytes → res HttpResponse;
}.

Section timestamp.
Context `{CL : CryptoLib} `{TL : !TspLib}.

(** * tsp.go *)

Record TSPTimestamper := mkTSPTimestamper {
  tst_url : string; tst_hash : Hash; tst_requestCertificate : bool }.
Definition TSPTimestamperOption := TSPTimestamper → TSPTimestamper.

Definition TimestampWithUrl (url : string) : TSPTimestamperOption := λ t,
  mkTSPTimestamper url (tst_hash t) (tst_requestCertificate t).
Definition TimestampWithHash (h : Hash) : TSPTimestamperOption := λ t,
  mkTSPTimestamper (tst_url t) h (tst_requestCertificate t).
Definition TimestampWithRequestCertificate (b : bool) : TSPTimestamperOption := λ t,
  mkTSPTimestamper (tst_url t) (tst_hash t) b.

Definition NewTimestamper (opts : list TSPTimestamperOption) : TSPTimestamper :=
  foldl (λ t opt, opt t) (mkTSPTimestamper "" SHA256 true) opts.

Definition TSPTimestamper_Timestamp (t : TSPTimestamper) (r : Reader) : res bytes :=
  data ← r;
  tsq ← tsp_CreateRequest data (tst_hash t) (tst_requestCertificate t);
  http_NewRequest (tst_url t) "application/timestamp-query" tsq;;
  resp ← http_Do (tst_url t) "application/timestamp-query" tsq;
  if bool_decide (StatusCode resp = 200 ∨ StatusCode resp = 201 ∨ StatusCode resp = 202)%Z then
    bodyBytes ← Body resp;
    tsp_ParseResponse bodyBytes
  else Err (Errorf ("request to timestamp authority failed: " +:+ Status resp)).

Record TSPVerifier := mkTSPVerifier { tsv_certChain : option (list Certificate); tsv_hash : Hash }.
Definition TSPVerifierOption := TSPVerifier → TSPVerifier.

Definition VerifyWithCerts (certs : list Certificate) : TSPVerifierOption := λ t,
  mkTSPVerifier (Some (foldl AddCert [] certs)) (tsv_hash t).
Definition TSPVerifyWithHash (h : Hash) : TSPVerifierOption := λ t,
  mkTSPVerifier (tsv_certChain t) h.

Definition NewTSPVerifier (opts : list TSPVerifierOption) : TSPVerifier :=
  foldl (λ v opt, opt v) (mkTSPVerifier None SHA256) opts.

Definition TSPVerifier_Verify (v : TSPVerifier) (tsrData signedData : Reader) : res Z :=
  tsrBytes ← tsrData;
  ts ← tsp_Parse tsrBytes;
  signed ← signedData;
  hashedData ← DigestBytes signed (tsv_hash v);
  if bool_decide (HashedMessage ts = hashedData) then
    pkcs7_Parse tsrBytes;;
    pkcs7_VerifyWithChain tsrBytes (tsv_certChain v);;
    Ok (ts_Time ts)
  else Err (Errorf "signed payload does not match timestamped payload").

(** * fake.go: the time and its RFC 3339 rendering *)

Record FakeTimestamper := mkFakeTimestamper { fake_T : Z; fake_Format : string }.
Definition FakeTimestamper_Timestamp (ft : FakeTimestamper) (r : Reader) : res bytes :=
  Ok (fake_Format ft).
Definition FakeTimestamper_Verify (ft : FakeTimestamper) (ts sig : Reader) : res Z :=
  b ← ts;
  if bool_decide (b = fake_Format ft) then Ok (fake_T ft) else Err (Errorf "mismatched time").

(** * timestamp.go: the interfaces *)

Inductive TimestampVerifier : Type :=
  | TVTSP (v : TSPVerifier)
  | TVFake (v : FakeTimestamper)
  | TVForeign (verify : Reader → Reader → res Z).
Definition TimestampVerifier_Verify (tv : TimestampVerifier) (ts sig : Reader) : res Z :=
  match tv with
  | TVTSP v => TSPVerifier_Verify v ts sig
  | TVFake v => FakeTimestamper_Verify v ts sig
  | TVForeign verify => verify ts sig
  end.

Inductive Timestamper : Type :=
  | TSTSP (t : TSPTimestamper)
  | TSFake (t : FakeTimestamper)
  | TSForeign (stamp : Reader → res bytes).
Definition Timestamper_Timestamp (t : Timestamper) (r : Reader) : res bytes :=
  match t with
  | TSTSP t => TSPTimestamper_Timestamp t r
  | TSFake t => FakeTimestamper_Timestamp t r
  | TSForeign stamp => stamp r
  end.

(** A token is only accepted for the data whose digest it carries, and only if
    its chain verifies. *)
Lemma TSPVerifier_Verify_sound v tsr sig t :
  TSPVerifier_Verify v (Ok tsr) (Ok sig) = Ok t →
  ∃ ts, tsp_Parse tsr = Ok ts ∧ ts_Time ts = t ∧
    DigestBytes sig (tsv_hash v) = Ok (HashedMessage ts) ∧
    pkcs7_VerifyWithChain tsr (tsv_certChain v) = nil_error.
Proof.
  unfold TSPVerifier_Verify. simpl. intros (ts & Hts & (d & Hd & H)%res_bind_ok)%res_bind_ok.
  case_bool_decide as Heq; [|done]. apply res_bind_ok in H as (_ & _ & ([] & Hc & H)%res_bind_ok).
  simplify_eq. by exists ts.
Qed.
End timestamp.
