(* ===== verification/Dsse.v ===== *)
(** dsse: envelopes, the pre-authentication encoding (dsse.go), signing
    (sign.go) and threshold verification with keys, certificates and trusted
    timestamps (verify.go). *)
From S2P Require Import Prelude GoStrings Errors Crypto Keys Timestamp.
From stdpp Require Import options.

(** * dsse.go *)

Definition PemTypeCertificate : string := "CERTIFICATE".
Definition TimestampRFC3161 : string := "tsp".

Record SignatureTimestamp := mkSignatureTimestamp { sts_Type : string; sts_Data : bytes }.

Record Signature := mkSignature {
  sig_KeyID : string;
  sig_Signature : bytes;
  sig_Certificate : bytes;
  sig_Intermediates : list bytes;
  sig_Timestamps : list SignatureTimestamp;
}.

Record Envelope := mkEnvelope {
  Payload : bytes;
  PayloadType : string;
  Signatures : list Signature;
}.

(** [fmt.Sprintf("%s %d %s %d %s", "DSSEv1", len(bodyType), bodyType, len(body), body)] *)
Definition preauthEncode (bodyType : string) (body : bytes) : bytes :=
  "DSSEv1" +:+ " " +:+ itoa (slen bodyType) +:+ " " +:+ bodyType +:+ " " +:+
  itoa (slen body) +:+ " " +:+ body.

(** The encoding determines the payload type and the payload: a signature over
    one envelope content is a signature over no other. *)
Lemma preauthEncode_inj t t' b b' :
  preauthEncode t b = preauthEncode t' b' → t = t' ∧ b = b'.
Proof.
  unfold preauthEncode. intros H. do 2 apply (inj (String.append _)) in H.
  apply itoa_cut_inj in H as [Hl H]; [|done].
  apply string_app_inj_len in H as [-> H]; [|done]. split; [done|].
  apply (inj (String.append " ")) in H. by apply itoa_cut_inj in H as [_ ->].
Qed.

Section dsse.
Context `{CL : CryptoLib} `{TL : !TspLib}.

(** * sign.go *)

(** A nil signer of the list is [None]. *)
Record signOptions := mkSignOptions {
  so_signers : list (option Signer);
  so_timestampers : list Timestamper;
}.
Definition SignOption := signOptions → signOptions.
Definition SignWithSigners (signers : list (option Signer)) : SignOption := λ so,
  mkSignOptions signers (so_timestampers so).
Definition SignWithTimestampers (ts : list Timestamper) : SignOption := λ so,
  mkSignOptions (so_signers so) ts.

(** The timestamps of one signature. *)
Definition timestamp_signature (timestampers : list Timestamper) (sig : bytes)
    : res (list SignatureTimestamp) :=
  collect (λ timestamper,
    timestamp ← Timestamper_Timestamp timestamper (Ok sig);
    Ok [mkSignatureTimestamp TimestampRFC3161 timestamp]) timestampers.

Definition pem_certificate (c : Certificate) : bytes := pem_Encode PemTypeCertificate (Raw c).

(** The body of the loop over the signers, for one non-nil signer. *)
Definition sign_one (rnd : bytes) (timestampers : list Timestamper) (pae : bytes) (signer : Signer)
    : res Signature :=
  sig ← Signer_Sign rnd signer pae;
  keyID ← Signer_KeyID signer;
  stamps ← timestamp_signature timestampers sig;
  match TrustBundler signer with
  | None => Ok (mkSignature keyID sig "" [] stamps)
  | Some (leaf, intermediates, _) =>
      Ok (mkSignature keyID sig
            (match leaf with Some c => pem_certificate c | None => "" end)
            (pem_certificate <$> intermediates) stamps)
  end.

(** [Sign]. [rnd i] is the randomness delivered to the i-th signer. The envelope
    the source also returns next to an error is read by no caller. *)
Definition Sign (rnd : nat → bytes) (bodyType : string) (body : Reader) (opts : list SignOption)
    : res Envelope :=
  let so := foldl (λ so opt, opt so) (mkSignOptions [] []) opts in
  if bool_decide (length (so_signers so) = 0)
  then Err (Errorf ("must have at least one signer, have " +:+ itoa (length (so_signers so))))
  else
    bodyBytes ← body;
    let pae := preauthEncode bodyType bodyBytes in
    sigs ← collect (λ isigner,
             match isigner.2 with
             | None => Ok []
             | Some signer =>
                 dsseSig ← sign_one (rnd isigner.1) (so_timestampers so) pae signer;
                 Ok [dsseSig]
             end) (imap (λ i s, (i, s)) (so_signers so));
    Ok (mkEnvelope bodyBytes bodyType sigs).

(** * verify.go *)

Record verificationOptions := mkVerificationOptions {
  roots : list Certificate;
  intermediates : list Certificate;
  verifiers : list (option Verifier);
  threshold : Z;
  timestampVerifiers : list TimestampVerifier;
}.
Definition VerificationOption := verificationOptions → verificationOptions.

Definition VerifyWithRoots (r : list Certificate) : VerificationOption := λ vo,
  mkVerificationOptions r (intermediates vo) (verifiers vo) (threshold vo) (timestampVerifiers vo).
Definition VerifyWithIntermediates (i : list Certificate) : VerificationOption := λ vo,
  mkVerificationOptions (roots vo) i (verifiers vo) (threshold vo) (timestampVerifiers vo).
Definition VerifyWithVerifiers (v : list (option Verifier)) : VerificationOption := λ vo,
  mkVerificationOptions (roots vo) (intermediates vo) v (threshold vo) (timestampVerifiers vo).
Definition VerifyWithThreshold (t : Z) : VerificationOption := λ vo,
  mkVerificationOptions (roots vo) (intermediates vo) (verifiers vo) t (timestampVerifiers vo).
Definition VerifyWithTimestampVerifiers (tv : list TimestampVerifier) : VerificationOption := λ vo,
  mkVerificationOptions (roots vo) (intermediates vo) (verifiers vo) (threshold vo) tv.

Definition default_verification_options : verificationOptions :=
  mkVerificationOptions [] [] [] 1 [].
Definition apply_verification_options (opts : list VerificationOption) : verificationOptions :=
  foldl (λ vo opt, opt vo) default_verification_options opts.

(** [CheckedVerifier]; a nil verifier or error is [None]. *)
Record CheckedVerifier := mkCheckedVerifier {
  cv_Verifier : option Verifier;
  cv_TimestampVerifiers : list TimestampVerifier;
  cv_Error : option error;
}.

(** The error value of a call, with panics let through. *)
Definition catch (m : err) : res (option error) :=
  match m with Ok _ => Ok None | Err e => Ok (Some e) | Panic w => Panic w end.

(** [verifyX509Time]: the verifier (nil when it cannot be made) and the error. *)
Definition verifyX509Time (cert : Certificate) (sigIntermediates roots : list Certificate)
    (pae sig : bytes) (trustedTime : Z) : res (option Verifier * option error) :=
  match NewX509Verifier cert sigIntermediates roots (Some trustedTime) with
  | Panic w => Panic w
  | Err e => Ok (None, Some e)
  | Ok verifier => e ← catch (Verifier_Verify verifier pae sig); Ok (Some verifier, e)
  end.

(** The certificates of [sig.Intermediates] that parse. *)
Definition parse_intermediates (ints : list bytes) : res (list Certificate) :=
  collect (λ int,
    match TryParseCertificate int with
    | Ok intCert => Ok [intCert]
    | Err _ => Ok []
    | Panic w => Panic w
    end) ints.

(** The nested loops over the timestamp verifiers and the signature's
    timestamps: what passed and what failed. *)
Record stamp_state := mkStampState {
  passedVerifier : option Verifier;
  failed : list (option Verifier);
  passedTimestampVerifiers : list TimestampVerifier;
  failedTimestampVerifiers : list TimestampVerifier;
}.

Definition check_timestamp (cert : Certificate) (sigIntermediates roots : list Certificate)
    (pae : bytes) (sig : Signature) (tv : TimestampVerifier) (st : stamp_state)
    (sigTimestamp : SignatureTimestamp) : res stamp_state :=
  match TimestampVerifier_Verify tv (Ok (sts_Data sigTimestamp)) (Ok (sig_Signature sig)) with
  | Panic w => Panic w
  | Err _ => Ok st
  | Ok timestamp =>
      ve ← verifyX509Time cert sigIntermediates roots pae (sig_Signature sig) timestamp;
      match ve with
      | (verifier, None) =>
          Ok (mkStampState verifier (failed st) (passedTimestampVerifiers st ++ [tv])
                (failedTimestampVerifiers st))
      | (verifier, Some _) =>
          Ok (mkStampState (passedVerifier st) (failed st ++ [verifier])
                (passedTimestampVerifiers st) (failedTimestampVerifiers st ++ [tv]))
      end
  end.

Definition check_timestamps (cert : Certificate) (sigIntermediates roots : list Certificate)
    (pae : bytes) (sig : Signature) (tvs : list TimestampVerifier) : res stamp_state :=
  range_res (λ st tv,
    range_res (check_timestamp cert sigIntermediates roots pae sig tv) st (sig_Timestamps sig))
    (mkStampState None [] [] []) tvs.

(** The certificate half of the loop body: the entries it appends. [None] is
    the [continue] taken when the certificate does not parse. *)
Definition check_certificate (options : verificationOptions) (now : Z) (pae : bytes) (sig : Signature)
    : res (option (list CheckedVerifier)) :=
  match TryParseCertificate (sig_Certificate sig) with
  | Panic w => Panic w
  | Err _ => Ok None
  | Ok cert =>
    ints ← parse_intermediates (sig_Intermediates sig);
    let sigIntermediates := ints ++ intermediates options in
    match timestampVerifiers options with
    | [] =>
        ve ← verifyX509Time cert sigIntermediates (roots options) pae (sig_Signature sig) now;
        Ok (Some [mkCheckedVerifier ve.1 [] ve.2])
    | tvs =>
        st ← check_timestamps cert sigIntermediates (roots options) pae sig tvs;
        match passedTimestampVerifiers st with
        | [] =>
            Ok (Some ((λ v, mkCheckedVerifier v (failedTimestampVerifiers st)
                              (Some (Errorf "no valid timestamps found"))) <$> failed st))
        | passed => Ok (Some [mkCheckedVerifier (passedVerifier st) passed None])
        end
    end
  end.

(** The loop over [options.verifiers]: the entries it appends. *)
Definition check_verifiers (vs : list (option Verifier)) (pae : bytes) (sig : Signature)
    : res (list CheckedVerifier) :=
  collect (λ ov,
    match ov with
    | None => Ok []
    | Some verifier =>
        e ← catch (Verifier_Verify verifier pae (sig_Signature sig));
        Ok [mkCheckedVerifier (Some verifier) [] e]
    end) vs.

(** The loop body of [Verify] for one signature: the entries it appends. *)
Definition check_signature (options : verificationOptions) (now : Z) (pae : bytes)
    (sig : Signature) : res (list CheckedVerifier) :=
  from_cert ← (if bool_decide (0 < slen (sig_Certificate sig))
               then check_certificate options now pae sig else Ok (Some []));
  match from_cert with
  | None => Ok []
  | Some cvs =>
      cvs' ← check_verifiers (verifiers options) pae sig;
      Ok (cvs ++ cvs')
  end.

(** The counter [verified] is incremented exactly where an entry without an
    error is appended, so it is the number of those entries. *)
Definition passed_entries (cvs : list CheckedVerifier) : list CheckedVerifier :=
  filter (λ cv, cv_Error cv = None) cvs.
Definition verified_count (cvs : list CheckedVerifier) : Z := Z.of_nat (length (passed_entries cvs)).

(** What [ErrNoMatchingSigs] keeps of a checked verifier. *)
Definition checked_view (cv : CheckedVerifier) : option (option string) * option error :=
  ((λ v, match Verifier_KeyID v with Ok kid => Some kid | _ => None end) <$> cv_Verifier cv,
   cv_Error cv).

(** [Envelope.Verify]: the checked verifiers (nil is the empty list) and the
    error. [now] is the reading of the clock. *)
Definition Envelope_Verify (e : Envelope) (now : Z) (opts : list VerificationOption)
    : res (list CheckedVerifier * option error) :=
  let options := apply_verification_options opts in
  if bool_decide (threshold options ≤ 0)%Z then
    Ok ([], Some (ErrInvalidThreshold (threshold options)))
  else
    let pae := preauthEncode (PayloadType e) (Payload e) in
    match Signatures e with
    | [] => Ok ([], Some ErrNoSignatures)
    | sigs =>
      checkedVerifiers ← collect (check_signature options now pae) sigs;
      let verified := verified_count checkedVerifiers in
      if bool_decide (verified = 0)%Z
      then Ok ([], Some (ErrNoMatchingSigs (checked_view <$> checkedVerifiers)))
      else if bool_decide (verified < threshold options)%Z
      then Ok (checkedVerifiers, Some (ErrThresholdNotMet (threshold options) verified))
      else Ok (checkedVerifiers, None)
    end.

(** ** Soundness *)

(** The time a certificate is checked at: the clock when there are no timestamp
    verifiers, and otherwise the time a timestamp of the signature attests. *)
Definition trusted_time (options : verificationOptions) (now : Z) (sig : Signature)
    (tvs : list TimestampVerifier) (t : Z) : Prop :=
  (timestampVerifiers options = [] ∧ tvs = [] ∧ t = now) ∨
  (∃ tv ts, tv ∈ timestampVerifiers options ∧ tv ∈ tvs ∧ ts ∈ sig_Timestamps sig ∧
     TimestampVerifier_Verify tv (Ok (sts_Data ts)) (Ok (sig_Signature sig)) = Ok t).

(** What a checked verifier without an error stands for. *)
Definition justified (options : verificationOptions) (now : Z) (pae : bytes) (sig : Signature)
    (cv : CheckedVerifier) : Prop :=
  ∃ v, cv_Verifier cv = Some v ∧
    Verifier_Verify v pae (sig_Signature sig) = nil_error ∧
    (Some v ∈ verifiers options ∨
     ∃ cert ints t, TryParseCertificate (sig_Certificate sig) = Ok cert ∧
       NewX509Verifier cert (ints ++ intermediates options) (roots options) (Some t) = Ok v ∧
       trusted_time options now sig (cv_TimestampVerifiers cv) t).

Lemma catch_None m : catch m = Ok None ↔ m = nil_error.
Proof. destruct m as [[]| |]; split; intros; simplify_eq/=; done. Qed.

Lemma verifyX509Time_None cert ints roots pae sig t ov :
  verifyX509Time cert ints roots pae sig t = Ok (ov, None) ↔
  ∃ v, ov = Some v ∧ NewX509Verifier cert ints roots (Some t) = Ok v ∧
       Verifier_Verify v pae sig = nil_error.
Proof.
  unfold verifyX509Time. destruct (NewX509Verifier _ _ _ _) as [v| |]; [|naive_solver..]. split.
  - intros (e & He & ?)%res_bind_ok. simplify_eq. exists v. by rw -catch_None.
  - intros (v' & -> & ? & Hc%catch_None). simplify_eq. by rw Hc.
Qed.

Lemma check_verifiers_justified options now pae sig cvs cv :
  check_verifiers (verifiers options) pae sig = Ok cvs → cv ∈ cvs → cv_Error cv = None →
  justified options now pae sig cv.
Proof.
  intros Hc Hin He. apply (collect_elem _ _ _ cv) in Hc. apply Hc in Hin as ([v|] & ys & Hv & Hy & Hcv);
    [|simplify_eq; by apply not_elem_of_nil in Hcv].
  apply res_bind_ok in Hy as (e & Hcatch & Hy). simplify_eq. apply list_elem_of_singleton in Hcv as ->.
  simpl in He. subst e. apply catch_None in Hcatch. exists v. naive_solver.
Qed.

(** The invariant of the timestamp loops: once a timestamp verifier passed, the
    passed verifier is one that verified at a time it attested. *)
Definition stamp_inv (cert : Certificate) (ints rts : list Certificate) (pae : bytes)
    (sig : Signature) (tvs : list TimestampVerifier) (st : stamp_state) : Prop :=
  passedTimestampVerifiers st = [] ∨
  ∃ v tv ts t, passedVerifier st = Some v ∧ tv ∈ tvs ∧ tv ∈ passedTimestampVerifiers st ∧
    ts ∈ sig_Timestamps sig ∧
    TimestampVerifier_Verify tv (Ok (sts_Data ts)) (Ok (sig_Signature sig)) = Ok t ∧
    NewX509Verifier cert ints rts (Some t) = Ok v ∧
    Verifier_Verify v pae (sig_Signature sig) = nil_error.

Lemma check_timestamps_inv cert ints rts pae sig tvs st :
  check_timestamps cert ints rts pae sig tvs = Ok st → stamp_inv cert ints rts pae sig tvs st.
Proof.
  unfold check_timestamps. apply (range_res_inv _ (stamp_inv cert ints rts pae sig tvs)); [|by left].
  intros s tv s' Htv HP. apply (range_res_inv _ (stamp_inv cert ints rts pae sig tvs)); [|done].
  clear s' HP s. intros s ts s' Hts HP. unfold check_timestamp.
  destruct (TimestampVerifier_Verify _ _ _) as [t| |] eqn:Ht; [|intros; by simplify_eq|done].
  intros ([ov [e|]] & Hve & Hs)%res_bind_ok; simplify_eq/=.
  - destruct HP as [->|(v & tv' & ts' & t' & H)]; [by left|]. right. exists v, tv', ts', t'. done.
  - apply verifyX509Time_None in Hve as (v & -> & ? & ?). right. exists v, tv, ts, t.
    repeat split; try done. apply elem_of_app. right. by apply list_elem_of_singleton.
Qed.

Lemma check_certificate_justified options now pae sig cvs cv :
  check_certificate options now pae sig = Ok (Some cvs) → cv ∈ cvs → cv_Error cv = None →
  justified options now pae sig cv.
Proof.
  unfold check_certificate. destruct (TryParseCertificate _) as [cert| |] eqn:Hcert; [|done..].
  intros (ints & _ & H)%res_bind_ok Hin He.
  destruct (timestampVerifiers options) as [|tv0 tvs] eqn:Htvs.
  - apply res_bind_ok in H as ([ov oe] & Hve & H). simplify_eq.
    apply list_elem_of_singleton in Hin as ->. simpl in He. subst oe.
    apply verifyX509Time_None in Hve as (v & -> & ? & ?). exists v. split; [done|]. split; [done|].
    right. exists cert, ints, now. repeat split; try done. left. by rw Htvs.
  - rw -Htvs in H. apply res_bind_ok in H as (st & Hst & H). apply check_timestamps_inv in Hst.
    destruct (passedTimestampVerifiers st) as [|p ps] eqn:Hp; simplify_eq.
    { apply list_elem_of_fmap in Hin as (? & -> & _). done. }
    apply list_elem_of_singleton in Hin as ->.
    unfold stamp_inv in Hst. rw Hp in Hst.
    destruct Hst as [?|(v & tv & ts & t & Hv & ? & ? & ? & ? & ? & ?)]; [done|].
    exists v. split; [done|]. split; [done|]. right. exists cert, ints, t. do 2 (split; [done|]).
    right. by exists tv, ts.
Qed.

Lemma check_signature_justified options now pae sig cvs cv :
  check_signature options now pae sig = Ok cvs → cv ∈ cvs → cv_Error cv = None →
  justified options now pae sig cv.
Proof.
  unfold check_signature. intros (fc & Hfc & H)%res_bind_ok Hin He.
  destruct fc as [cvs1|]; [|simplify_eq; by apply not_elem_of_nil in Hin].
  apply res_bind_ok in H as (cvs2 & H2 & H). simplify_eq. apply elem_of_app in Hin as [Hin|Hin].
  - case_bool_decide; [by eapply check_certificate_justified|]. simplify_eq.
    by apply not_elem_of_nil in Hin.
  - by eapply check_verifiers_justified.
Qed.

(** The outcomes of [Envelope_Verify] that return entries. *)
Lemma Envelope_Verify_entries e now opts cvs oe :
  Envelope_Verify e now opts = Ok (cvs, oe) → cvs ≠ [] →
  let options := apply_verification_options opts in
  let pae := preauthEncode (PayloadType e) (Payload e) in
  collect (check_signature options now pae) (Signatures e) = Ok cvs ∧
  (0 < threshold options)%Z ∧ (0 < verified_count cvs)%Z ∧
  (oe = None ∧ threshold options ≤ verified_count cvs ∨
   oe = Some (ErrThresholdNotMet (threshold options) (verified_count cvs)) ∧
   verified_count cvs < threshold options)%Z.
Proof.
  unfold Envelope_Verify. set (options := apply_verification_options opts). simpl.
  case_bool_decide as Ht; [naive_solver|].
  destruct (Signatures e) as [|sig sigs] eqn:Hs; [naive_solver|]. rw -Hs.
  intros (cvs' & Hc & H)%res_bind_ok Hne.
  assert (0 ≤ verified_count cvs')%Z by (unfold verified_count; lia).
  case_bool_decide; [naive_solver|]. case_bool_decide; simplify_eq;
    
    (split; [by rw Hs|]; split; [lia|]; split; [lia|]).
  - right. split; [done|lia].
  - left. split; [done|lia].
Qed.

(** A result without error is never the empty list. *)
Lemma Envelope_Verify_nonempty e now opts cvs :
  Envelope_Verify e now opts = Ok (cvs, None) → cvs ≠ [].
Proof.
  intros H ->. unfold Envelope_Verify in H. case_bool_decide; [done|].
  destruct (Signatures e); [done|]. apply res_bind_ok in H as (cvs' & _ & H).
  case_bool_decide as Hz; [done|]. case_bool_decide; [done|]. by simplify_eq.
Qed.

(** Every entry without an error of a successful verification is justified by a
    signature of the envelope. *)
Lemma Envelope_Verify_justified e now opts cvs oe cv :
  Envelope_Verify e now opts = Ok (cvs, oe) → cv ∈ cvs → cv_Error cv = None →
  ∃ sig, sig ∈ Signatures e ∧
    justified (apply_verification_options opts) now (preauthEncode (PayloadType e) (Payload e)) sig cv.
Proof.
  intros H Hin He. apply Envelope_Verify_entries in H as (Hc & _); [|by intros ->; apply not_elem_of_nil in Hin].
  apply (collect_elem _ _ _ cv) in Hc. apply Hc in Hin as (sig & ys & Hsig & Hys & Hy).
  exists sig. split; [done|]. by eapply check_signature_justified.
Qed.

Lemma verified_count_pos cvs : (0 < verified_count cvs)%Z → ∃ cv, cv ∈ cvs ∧ cv_Error cv = None.
Proof.
  unfold verified_count, passed_entries. intros H.
  destruct (filter _ cvs) as [|cv l] eqn:Hf; [simpl in H; lia|].
  assert (cv ∈ filter (λ cv, cv_Error cv = None) cvs) as Hin by (rw Hf; left).
  apply list_elem_of_filter in Hin as [? ?]. by exists cv.
Qed.

(** ** Round trip *)

Lemma sign_one_key rnd ts pae s sig :
  key_signer s = true → sign_one rnd ts pae s = Ok sig →
  Signer_Sign rnd s pae = Ok (sig_Signature sig) ∧ Signer_KeyID s = Ok (sig_KeyID sig) ∧
  sig_Certificate sig = "".
Proof.
  intros Hk. unfold sign_one. intros (b & Hb & (kid & Hkid & (st & _ & H)%res_bind_ok)%res_bind_ok)%res_bind_ok.
  rw Hb Hkid. destruct s; simplify_eq/=; done.
Qed.

(** What [Sign] puts in the envelope. *)
Lemma Sign_signatures rnd bt data opts env :
  Sign rnd bt (Ok data) opts = Ok env →
  let so := foldl (λ so opt, opt so) (mkSignOptions [] []) opts in
  Payload env = data ∧ PayloadType env = bt ∧
  ∀ sig, sig ∈ Signatures env ↔
    ∃ i s, so_signers so !! i = Some (Some s) ∧
      sign_one (rnd i) (so_timestampers so) (preauthEncode bt data) s = Ok sig.
Proof.
  unfold Sign. case_bool_decide; [done|]. simpl.
  intros (sigs & Hc & H1)%res_bind_ok. simplify_eq/=. split; [done|]. split; [done|].
  intros sig. rw (collect_elem _ _ _ sig Hc). split.
  - intros ([i [s|]] & ys & Hin & Hys & Hy); simplify_eq/=; [|by apply not_elem_of_nil in Hy].
    apply res_bind_ok in Hys as (sg & Hsg & Hys). simplify_eq. apply list_elem_of_singleton in Hy as ->.
    apply elem_of_lookup_imap in Hin as (j & x & Heq & Hl). simplify_eq. by exists j, s.
  - intros (i & s & Hl & Hsg). exists (i, Some s), [sig]. split; [|split].
    + apply elem_of_lookup_imap. by exists i, (Some s).
    + by rw /= Hsg.
    + by apply list_elem_of_singleton.
Qed.

(** The signatures of key signers, in the order of the signers. *)
Lemma sign_loop_Forall2 rnd ts pae (l : list (nat * option Signer)) ss sigs :
  l.*2 = Some <$> ss →
  collect (λ isigner,
    match isigner.2 with
    | None => Ok []
    | Some signer => dsseSig ← sign_one (rnd isigner.1) ts pae signer; Ok [dsseSig]
    end) l = Ok sigs →
  Forall2 (λ s sig, ∃ r, sign_one r ts pae s = Ok sig) ss sigs.
Proof.
  revert ss sigs; induction l as [|[i os] l IH]; intros [|s ss] sigs Hl H; simplify_eq/=; [constructor|].
  apply res_bind_ok in H as (ys & (sg & Hsg & Hys)%res_bind_ok & (zs & Hzs & H)%res_bind_ok).
  simplify_eq/=. constructor; [by eexists|]. by apply IH.
Qed.

Lemma Sign_key_Forall2 rnd bt data ts ss env :
  Sign rnd bt (Ok data) [SignWithSigners (Some <$> ss); SignWithTimestampers ts] = Ok env →
  Payload env = data ∧ PayloadType env = bt ∧
  Forall2 (λ s sig, ∃ r, sign_one r ts (preauthEncode bt data) s = Ok sig) ss (Signatures env).
Proof.
  unfold Sign. case_bool_decide; [done|]. simpl. intros (sigs & Hc & H1)%res_bind_ok. simplify_eq/=.
  split; [done|]. split; [done|]. eapply sign_loop_Forall2; [|exact Hc].
  rw fmap_imap /compose /=. generalize (Some <$> ss). intros l.
  apply list_eq. intros i. rw list_lookup_imap. by destruct (l !! i).
Qed.

(** The entries of one signature that one of the verifiers accepts. *)
Lemma check_signature_accepts options now pae sig v :
  sig_Certificate sig = "" → Some v ∈ verifiers options →
  Verifier_Verify v pae (sig_Signature sig) = nil_error →
  (∀ v', Some v' ∈ verifiers options → no_panic (Verifier_Verify v' pae (sig_Signature sig))) →
  ∃ cvs, check_signature options now pae sig = Ok cvs ∧
    mkCheckedVerifier (Some v) [] None ∈ cvs.
Proof.
  intros Hcert Hin Hv Hnp. unfold check_signature. rw Hcert /=. unfold check_verifiers.
  match goal with |- context [collect ?f _] => set (g := f) end.
  destruct (collect_total g (verifiers options)) as [out Hout].
  { intros [v'|] Hv'; [|by eexists]. simpl. specialize (Hnp v' Hv').
    destruct (Verifier_Verify v' _ _) as [| |w]; simpl; [by eexists..|]. by destruct (Hnp w). }
  rw Hout. eexists; split; [done|]. rw (collect_elem _ _ _ _ Hout).
  exists (Some v), [mkCheckedVerifier (Some v) [] None]. split; [done|]. split.
  - rw /g /= Hv. done.
  - by apply list_elem_of_singleton.
Qed.

Lemma verified_count_collect {A} (f : A → res (list CheckedVerifier)) l out :
  collect f l = Ok out →
  (∀ x ys, x ∈ l → f x = Ok ys → ∃ cv, cv ∈ ys ∧ cv_Error cv = None) →
  (Z.of_nat (length l) ≤ verified_count out)%Z.
Proof.
  revert out; induction l as [|x l IH]; intros out H Hf; simpl in H.
  { simplify_eq. unfold verified_count. simpl. lia. }
  apply res_bind_ok in H as (ys & Hys & (zs & Hzs & H)%res_bind_ok). simplify_eq.
  assert (Z.of_nat (length l) ≤ verified_count zs)%Z as Hl.
  { apply IH; [done|]. intros y ws Hy. apply Hf. by right. }
  destruct (Hf x ys) as (cv & Hin & He); [left|done|].
  unfold verified_count, passed_entries in *. rw filter_app length_app.
  assert (0 < length (filter (λ cv, cv_Error cv = None) ys)); [|simpl; lia].
  destruct (filter _ ys) as [|? ?] eqn:Hfil; [|simpl; lia].
  assert (cv ∈ filter (λ cv, cv_Error cv = None) ys) as Hx by by apply list_elem_of_filter.
  rw Hfil in Hx. by apply not_elem_of_nil in Hx.
Qed.

(** Verification accepts when every signature is accepted by some verifier. *)
Lemma Envelope_Verify_complete e now opts :
  let options := apply_verification_options opts in
  let pae := preauthEncode (PayloadType e) (Payload e) in
  (0 < threshold options ≤ Z.of_nat (length (Signatures e)))%Z →
  (∀ sig, sig ∈ Signatures e → sig_Certificate sig = "" ∧
     (∃ v, Some v ∈ verifiers options ∧ Verifier_Verify v pae (sig_Signature sig) = nil_error) ∧
     ∀ v, Some v ∈ verifiers options → no_panic (Verifier_Verify v pae (sig_Signature sig))) →
  ∃ cvs, Envelope_Verify e now opts = Ok (cvs, None) ∧
    ∀ sig v, sig ∈ Signatures e → Some v ∈ verifiers options →
      Verifier_Verify v pae (sig_Signature sig) = nil_error →
      mkCheckedVerifier (Some v) [] None ∈ cvs.
Proof.
  simpl. set (options := apply_verification_options opts).
  set (pae := preauthEncode _ _). intros [Ht Hlen] Hsigs.
  destruct (collect_total (check_signature options now pae) (Signatures e)) as [cvs Hcvs].
  { intros sig Hin. destruct (Hsigs sig Hin) as (Hc & (v & Hv & Hok) & Hnp).
    destruct (check_signature_accepts options now pae sig v) as (ys & ? & _); by eauto. }
  assert (Z.of_nat (length (Signatures e)) ≤ verified_count cvs)%Z as Hcount.
  { apply (verified_count_collect _ _ _ Hcvs). intros sig ys Hin Hys.
    destruct (Hsigs sig Hin) as (Hc & (v & Hv & Hok) & Hnp).
    destruct (check_signature_accepts options now pae sig v) as (ys' & Hys' & ?); try done.
    rw Hys in Hys'. simplify_eq. by eexists. }
  exists cvs. split.
  - unfold Envelope_Verify. fold options. rw bool_decide_eq_false_2; [|lia].
    destruct (Signatures e) eqn:Hs; [simpl in *; lia|]. rw -Hs in Hcvs Hcount Hlen. rw -Hs.
    fold pae. rw Hcvs /=. rw !bool_decide_eq_false_2; [done|lia|lia].
  - intros sig v Hin Hv Hok. destruct (Hsigs sig Hin) as (Hc & _ & Hnp).
    destruct (check_signature_accepts options now pae sig v) as (ys & Hys & ?); try done.
    rw (collect_elem _ _ _ _ Hcvs). by exists sig, ys.
Qed.

(** What key signers put in an envelope, their verifiers accept. *)
Lemma signed_verifies `{!SignatureLaws} ts pae ss vs sigs :
  Forall (λ s, key_signer s = true) ss →
  Forall2 (λ s v, Signer_Verifier s = Ok v) ss vs →
  Forall2 (λ s sig, ∃ r, sign_one r ts pae s = Ok sig) ss sigs →
  (∀ sig, sig ∈ sigs → sig_Certificate sig = "" ∧
     ∃ v, v ∈ vs ∧ Verifier_Verify v pae (sig_Signature sig) = nil_error) ∧
  (∀ v, v ∈ vs → (∀ sig', no_panic (Verifier_Verify v pae sig')) ∧
     ∃ sig, sig ∈ sigs ∧ Verifier_Verify v pae (sig_Signature sig) = nil_error).
Proof.
  intros Hk Hv. revert sigs. induction Hv as [|s v ss vs Hsv Hv IH]; intros sigs HF.
  { inversion HF; subst. split; [intros sig|intros v]; by intros ?%not_elem_of_nil. }
  inversion Hk as [|? ? Hks Hk']; subst. inversion HF as [|? sig ? sigs' [r Hr] HF']; subst.
  destruct (IH Hk' sigs' HF') as [IH1 IH2].
  destruct (sign_one_key _ _ _ _ _ Hks Hr) as (Hsign & _ & Hc).
  assert (Verifier_Verify v pae (sig_Signature sig) = nil_error) as Hok.
  { eapply Signer_Sign_Verify; [by apply key_signer_native|done..|by eapply key_signer_chains]. }
  split.
  - intros sig' [->|Hin]%elem_of_cons.
    + split; [done|]. eauto with elems.
    + destruct (IH1 sig' Hin) as (? & v' & ? & ?). split; [done|]. eauto with elems.
  - intros v' [->|Hin]%elem_of_cons.
    + split; [intros sig'; by eapply key_signer_verify_no_panic|]. eauto with elems.
    + destruct (IH2 v' Hin) as (? & sig' & ? & ?). split; [done|]. eauto with elems.
Qed.

Lemma elem_of_some_fmap {A} (x : A) (l : list A) : Some x ∈ Some <$> l ↔ x ∈ l.
Proof. rw list_elem_of_fmap. naive_solver. Qed.
End dsse.

(** What [Sign] makes with key signers is accepted under their verifiers. *)
Lemma Sign_key_verifies `{CL : CryptoLib} `{TL : !TspLib} `{SL : !SignatureLaws}
    (rnd : nat → bytes) (bt : string) (data : bytes) (ts : list Timestamper)
    (ss : list Signer) (vs : list Verifier) (env : Envelope) (now k : Z) :
  Forall (λ s, key_signer s = true) ss →
  Forall2 (λ s v, Signer_Verifier s = Ok v) ss vs →
  Sign rnd bt (Ok data) [SignWithSigners (Some <$> ss); SignWithTimestampers ts] = Ok env →
  (0 < k ≤ Z.of_nat (length ss))%Z →
  Payload env = data ∧ PayloadType env = bt ∧
  ∃ cvs, Envelope_Verify env now [VerifyWithVerifiers (Some <$> vs); VerifyWithThreshold k] =
           Ok (cvs, None) ∧
    ∀ v, v ∈ vs → mkCheckedVerifier (Some v) [] None ∈ cvs.
Proof.
  intros Hkey Hvs Hsign Hk.
  destruct (Sign_key_Forall2 _ _ _ _ _ _ Hsign) as (Hp & Ht & HF). split; [done|]. split; [done|].
  destruct (signed_verifies _ _ _ _ _ Hkey Hvs HF) as [Hsigs Hvers].
  pose proof (Forall2_length _ _ _ HF) as Hlen. rw -Hp -Ht in Hsigs Hvers.
  destruct (Envelope_Verify_complete env now [VerifyWithVerifiers (Some <$> vs); VerifyWithThreshold k])
    as (cvs & Hcvs & Hin); cbn [threshold verifiers apply_verification_options foldl
      VerifyWithThreshold VerifyWithVerifiers] in *; [lia| |].
  - intros sig Hsig. destruct (Hsigs sig Hsig) as (Hc & v & Hv & Hok). split; [done|]. split.
    + exists v. by rw elem_of_some_fmap.
    + intros v' Hv'. rw elem_of_some_fmap in Hv'. apply (proj1 (Hvers v' Hv')).
  - exists cvs. split; [done|]. intros v Hv. destruct (Hvers v Hv) as (_ & sig & Hsig & Hok).
    apply (Hin sig v); [done|by apply elem_of_some_fmap|done].
Qed.
