(* ===== verification/Toy.v ===== *)
(** Concrete instances of the parameter classes (cryptography, gitoid,
    timestamp tokens), used to evaluate the model on concrete inputs and to show
    that the laws assumed of the real libraries can hold. Keys are names; a
    signature is the signed text next to the key's name; the hash is a tagging
    of its input; an encoding is a tag, a bar and the contents. *)
From S2P Require Import Prelude GoStrings Crypto Keys Digest Timestamp.
From stdpp Require Import options.

(** [tag|contents] and its inverse. *)
Definition encode (tag contents : string) : string := tag +:+ "|" +:+ contents.
Definition decode (s : string) : option (string * string) :=
  match cut_byte "|" s with (tag, Some c) => Some (tag, c) | _ => None end.
Definition decode_as (tag s : string) : res string :=
  match decode s with
  | Some (t, c) => if bool_decide (t = tag) then Ok c else Err (External "malformed")
  | None => Err (External "malformed")
  end.

Definition toy_key := AnyKeyOf string string string string string string.

(** A certificate [name;issuer] for the ed25519 key [name], or for the RSA key if the
    name begins with ec2, issued by [issuer]. *)
Definition toy_certificate (raw : string) : CertificateOf toy_key :=
  let name := (cut_byte ";" raw).1 in
  mkCertificate raw (if HasPrefix name "ec2" then KRSAPublic name else KEd25519Public name) name [] [] [] [] [].
Definition toy_issuer (c : CertificateOf toy_key) : string := default "" (cut_byte ";" (Raw c)).2.

Definition toy_marshal (k : toy_key) : res bytes :=
  match k with
  | KRSAPublic n => Ok (encode "rsa" n)
  | KECDSAPublic n => Ok (encode "ec" n)
  | KEd25519Public n => Ok (encode "ed" n)
  | _ => Err (External "x509: unsupported public key type")
  end.

Definition toy_parse_pkix (der : bytes) : res toy_key :=
  match decode der with
  | Some (t, n) =>
      if bool_decide (t = "rsa") then Ok (KRSAPublic n)
      else if bool_decide (t = "ec") then Ok (KECDSAPublic n)
      else if bool_decide (t = "ed") then Ok (KEd25519Public n)
      else Err (External "malformed")
  | None => Err (External "malformed")
  end.

Definition toy_check (b : bool) : err := if b then nil_error else Err (External "bad").

#[export] Program Instance toy_crypto : CryptoLib := {|
  RSAPublicKey := string; RSAPrivateKey := string;
  ECDSAPublicKey := string; ECDSAPrivateKey := string;
  Ed25519PublicKey := string; Ed25519PrivateKey := string;
  hash_sum h := if bool_decide (h = SHA1 ∨ h = SHA256) then Some (λ d, "h" +:+ pretty h +:+ d) else None;
  rsa_public k := k;
  ecdsa_public k := k;
  ed25519_public k := k;
  rsa_SignPSS rnd k h d := Ok (k +:+ ":" +:+ d);
  rsa_VerifyPSS k h d s := toy_check (bool_decide (s = k +:+ ":" +:+ d));
  rsa_VerifyPKCS1v15 k h d s := toy_check (bool_decide (s = "v15:" +:+ k +:+ ":" +:+ d));
  ecdsa_SignASN1 rnd k d := Ok (k +:+ ":" +:+ d);
  ecdsa_VerifyASN1 k d s := bool_decide (s = k +:+ ":" +:+ d);
  ed25519_Sign k m := k +:+ ":" +:+ m;
  ed25519_Verify k m s := bool_decide (s = k +:+ ":" +:+ m);
  MarshalPKIXPublicKey := toy_marshal;
  ParsePKCS8PrivateKey der := KRSAPrivate <$> decode_as "rsapriv" der;
  ParsePKCS1PrivateKey der := decode_as "pkcs1priv" der;
  ParseECPrivateKey der := decode_as "ecpriv" der;
  ParsePKIXPublicKey := toy_parse_pkix;
  ParsePKCS1PublicKey der := decode_as "pkcs1" der;
  ParseCertificate der := if HasPrefix der "rsa" then Err (External "malformed") else Ok (toy_certificate der);
  DecryptPEMBlock b pw := Ok (pem_Bytes b);
  pem_Decode s := (λ tc, mkPemBlock tc.1 false tc.2) <$> decode s;
  pem_Encode tag der := encode tag der;
  x509_Verify c roots ints t :=
    toy_check (existsb (λ r, bool_decide (toy_issuer c = CommonName r)) roots);
  encrypted_Decrypt b pw := Ok b;
  pemutil_ParseCosignPrivateKey b pw := Ok (PKey (KRSAPrivate b));
  pemutil_Parse b o := Err (External "unsupported");
|}.

#[export] Instance toy_laws : SignatureLaws.
Proof.
  split; simpl.
  - intros rnd k h d s [= <-]. by rw bool_decide_eq_true_2.
  - intros rnd k d s [= <-]. by rw bool_decide_eq_true_2.
  - intros k m. by rw bool_decide_eq_true_2.
  - intros k h d s w. by case_bool_decide.
  - intros k h d s w. by case_bool_decide.
Qed.

#[export] Instance toy_gitoid : GitoidLib :=
  {| gitoid_New b data := (Ok ((if b then "gitoid:blob:sha256:" else "gitoid:blob:sha1:") +:+ data), "");
     gitoid_BLOB := "blob" |}.

(** A token is [time digits|digest]; the time is the length of the digits. *)
#[export] Instance toy_tsp : TspLib :=
  {| tsp_CreateRequest d h b := Ok d;
     tsp_ParseResponse b := Ok b;
     tsp_Parse b :=
       match decode b with
       | Some (t, d) => Ok (mkTspToken d (Z.of_nat (slen t)))
       | None => Err (External "malformed")
       end;
     pkcs7_Parse b := nil_error;
     pkcs7_VerifyWithChain b c := toy_check (bool_decide (is_Some c));
     http_NewRequest u c b := nil_error;
     http_Do u c b := Err (External "no network") |}.

(** The ed25519 verifier and signer of a name. *)
Definition toy_ed (name : string) : @Verifier toy_crypto :=
  @ED25519Verifier toy_crypto name.
Definition toy_signer (name : string) : @Signer toy_crypto :=
  @ED25519Signer toy_crypto name.
