(* ===== verification/FileTheorems.v ===== *)
(** What [RecordArtifacts] records (File.v): it ends on any links, every artifact
    it records is one the code is to record, and of a tree without links it
    records exactly those. *)
From S2P Require Import Prelude GoStrings Crypto Digest Toy Paths File.
From stdpp Require Import options.

Section theorems.
Context `{CL : CryptoLib} `{GL : GitoidLib} `{RO : RangeOrder} `{FS : FileSystem}.
Variables (baseArtifacts : gmap string DigestSet) (hashes : list DigestValue).
Variables (processWasTraced : bool) (openedFiles : gmap string bool).
Variable dirHashGlob : list (option (string → bool)).

Local Abbreviation RecordArtifacts := (RecordArtifacts baseArtifacts hashes processWasTraced openedFiles dirHashGlob).
Local Abbreviation RecordArtifacts_fuel := (RecordArtifacts_fuel baseArtifacts hashes processWasTraced openedFiles dirHashGlob).
Local Abbreviation shouldRecord := (shouldRecord baseArtifacts processWasTraced openedFiles).
Local Abbreviation visit := (visit baseArtifacts hashes processWasTraced openedFiles dirHashGlob).
Local Abbreviation match_dir := (match_dir dirHashGlob).
Local Abbreviation file_digest f := (CalculateDigestSetFromFile os_Open f hashes).
Local Abbreviation dir_digest f := (CalculateDigestSetFromDir dirhash_HashDir f hashes).

(** * Every artifact is to be recorded *)

(** [recorded base p ds]: below [base], [p] is the path of a file with these
    digests that is to be recorded, of a directory a glob matches, or of an
    artifact behind a link, itself to be recorded below the link's target. *)
Inductive recorded : string → string → DigestSet → Prop :=
  | recorded_file base f p ds :
      Rel base f = Ok p → file_digest f = Ok ds → shouldRecord p ds = true → recorded base p ds
  | recorded_dir base f rel ds :
      Rel base f = Ok rel → match_dir rel = Ok true → dir_digest f = Ok ds →
      recorded base (rel +:+ slash_str) ds
  | recorded_link base l rel base' q ds :
      Rel base l = Ok rel → EvalSymlinks l = Ok base' → recorded base' q ds →
      shouldRecord (filepath_Join [rel; q]) ds = true → recorded base (filepath_Join [rel; q]) ds.

Definition all_recorded (base : string) (m : gmap string DigestSet) : Prop :=
  map_Forall (recorded base) m.

Lemma merge_linked_recorded base l rel base' m m' :
  Rel base l = Ok rel → EvalSymlinks l = Ok base' →
  all_recorded base m → all_recorded base' m' →
  all_recorded base (merge_linked baseArtifacts processWasTraced openedFiles rel m m').
Proof.
  intros Hrel Hl Hm Hm'. unfold merge_linked.
  assert (Hin : ∀ q ds, (q, ds) ∈ range_map 0 m' → recorded base' q ds).
  { intros q ds Hq%elem_of_range. by apply Hm'. }
  clear Hm'. revert m Hm Hin. induction (range_map 0 m') as [|[q ds] l' IH]; intros m Hm Hin; [done|].
  cbn [foldl]. apply IH; [|by intros; apply Hin; right]. cbn [fst snd].
  destruct (shouldRecord _ _) eqn:Hs; [|done]. apply map_Forall_insert_2; [|done].
  eapply recorded_link; [done|done|apply Hin; left|done].
Qed.

Lemma visit_recorded rec base :
  (∀ p v r, p ∈ link_targets → rec p v = Ok r → all_recorded p r.1 ∧ r.2 ⊆ v ∪ link_targets) →
  ∀ st p i e r, all_recorded base st.1 → visit rec base st p i e = Ok r →
    all_recorded base r.1.1 ∧ r.1.2 ⊆ st.2 ∪ link_targets.
Proof.
  intros Hrec st p i e r Hst. unfold File.visit. destruct e; [done|].
  intros (rel & Hrel & H)%res_bind_ok. destruct i as [mode|]; [|done].
  assert (st.2 ⊆ st.2 ∪ link_targets) as Hsub by set_solver.
  destruct (mode_IsDir mode); [|destruct (negb _)].
  - apply res_bind_ok in H as ([] & Hm & H); [|by simplify_eq/=].
    apply res_bind_ok in H as (ds & Hds & [= <-]). split; [|done].
    apply map_Forall_insert_2; [by eapply recorded_dir|done].
  - destruct (EvalSymlinks p) as [l|e|w] eqn:Hl; [| |done].
    + case_bool_decide; [by simplify_eq/=|]. apply res_bind_ok in H as (r' & Hr & [= <-]).
      apply EvalSymlinks_targets in Hl as Ht. apply Hrec in Hr as [Hr1 Hr2]; [|done]. split.
      * by eapply merge_linked_recorded.
      * cbn [fst snd]. set_solver.
    + destruct (os_IsNotExist e); [|done]. by simplify_eq/=.
  - apply res_bind_ok in H as (ds & Hds & [= <-]). split; [|done]. cbn [fst].
    destruct (shouldRecord rel ds) eqn:Hs; [|done]. apply map_Forall_insert_2; [|done].
    by eapply recorded_file.
Qed.

Lemma RecordArtifacts_fuel_sound w n base visited r :
  RecordArtifacts_fuel (Panic w) n base visited = Ok r →
  all_recorded base r.1 ∧ r.2 ⊆ visited ∪ link_targets.
Proof.
  revert base visited r. induction n as [|n IH]; intros base visited r; [done|]. cbn [File.RecordArtifacts_fuel].
  apply (Walk_agree _ (visit (RecordArtifacts_fuel (Panic w) n) base)
    (λ st, all_recorded base st.1 ∧ st.2 ⊆ visited ∪ link_targets)).
  - intros st p i e [Hst Hv]. split; [done|]. intros r' Hr'.
    eapply visit_recorded in Hr' as [H1 H2]; [|by intros; apply IH|done]. set_solver.
  - split; [by apply map_Forall_empty|set_solver].
Qed.

(** C22: termination on any links. [RecordArtifacts] satisfies the recursive
    equation of the code, each call on a link visiting the target with the links
    visited so far; and any more fuel, whatever the answer at the end of the fuel
    is, gives the same result, so the recursion through links, cyclic ones too,
    ends. *)
Theorem RecordArtifacts_terminates basePath visitedSymlinks :
  RecordArtifacts basePath visitedSymlinks =
    Walk (visit RecordArtifacts basePath) os_Lstat basePath (∅, visitedSymlinks) ∧
  ∀ stuck k, RecordArtifacts_fuel stuck (S (size link_targets) + k) basePath visitedSymlinks =
             RecordArtifacts basePath visitedSymlinks.
Proof.
  split; [apply RecordArtifacts_eq|]. intros stuck k.
  assert (size (link_targets ∖ visitedSymlinks) ≤ size link_targets) by (apply subseteq_size; set_solver).
  apply RecordArtifacts_enough_fuel; lia.
Qed.

(** C21: soundness of the recorded artifacts, for any tree and links: a path that
    is recorded leads, through the links it passes, to a file or a directory
    that has the recorded digests; it is to be recorded at every link it passes
    (opened if the process was traced, not equal to the base artifact), or it is
    a directory that a glob of the context matches. Only targets of links are
    added to the visited ones. *)
Theorem RecordArtifacts_sound basePath visitedSymlinks artifacts visited :
  RecordArtifacts basePath visitedSymlinks = Ok (artifacts, visited) →
  (∀ p ds, artifacts !! p = Some ds → recorded basePath p ds) ∧
  visitedSymlinks ⊆ visited ∧ visited ⊆ visitedSymlinks ∪ link_targets.
Proof.
  intros H. assert (Hs := H). apply RecordArtifacts_fuel_sound in Hs as [Hs1 Hs2].
  split; [done|]. split; [|done].
  assert (size (link_targets ∖ visitedSymlinks) ≤ size link_targets) by (apply subseteq_size; set_solver).
  apply (RecordArtifacts_enough_fuel _ _ _ _ _ (Panic "out of fuel") (Panic "") visitedSymlinks
    (S (size link_targets)) (S (size link_targets)) basePath) in H; [done|lia|lia].
Qed.

(** * Trees without links *)

(** Every name is one a directory can hold, every entry is found, and no file is
    a link. *)
Inductive plain_tree : node → Prop :=
  | plain_file m entries :
      mode_IsDir m = false → Z.land m ModeSymlink = 0%Z → plain_tree (Node m entries)
  | plain_dir m l :
      mode_IsDir m = true →
      (∀ name r, (name, r) ∈ l → valid name ∧ ∃ c, r = Ok c ∧ plain_tree c) →
      plain_tree (Node m (Ok l)).

(** [reaches pre n ns m]: the walk of [n], whose names are [pre], comes to the
    file of names [ns] and mode [m]: it enters no directory a glob matches. *)
Inductive reaches : list string → node → list string → Z → Prop :=
  | reaches_here pre n : reaches pre n pre (node_mode n)
  | reaches_below pre m l name c ns m' :
      mode_IsDir m = true → match_dir (rel_path pre) = Ok false → (name, Ok c) ∈ l →
      reaches (pre ++ [name]) c ns m' → reaches pre (Node m (Ok l)) ns m'.

Section below.
Variable base : string.

(** What is recorded of the file of names [ns] and mode [m] below [base]. *)
Definition artifact_of (ns : list string) (m : Z) (p : string) (ds : DigestSet) : Prop :=
  if mode_IsDir m then
    match_dir (rel_path ns) = Ok true ∧ p = rel_path ns +:+ slash_str ∧ dir_digest (below base ns) = Ok ds
  else
    p = rel_path ns ∧ file_digest (below base ns) = Ok ds ∧ shouldRecord p ds = true.

(** Its digests can be calculated. *)
Definition readable (ns : list string) (m : Z) : Prop :=
  if mode_IsDir m then
    match_dir (rel_path ns) = Ok false ∨
    (match_dir (rel_path ns) = Ok true ∧ ∃ ds, dir_digest (below base ns) = Ok ds)
  else ∃ ds, file_digest (below base ns) = Ok ds.

Lemma rel_path_slash ns ns' : Forall valid ns → rel_path ns ≠ rel_path ns' +:+ slash_str.
Proof.
  intros Hv H. apply (f_equal (λ s, last (SplitByte s slash))) in H.
  unfold slash_str in H. rw (SplitByte_app (rel_path ns') "" slash) last_snoc in H.
  destruct ns as [|n ns]; [done|]. cbn [rel_path] in H. unfold slash_str in H.
  rw SplitByte_Join // in H.
  - apply last_Some_elem_of in H. rewrite Forall_forall in Hv. by apply Hv in H.
  - eapply Forall_impl; [done|]. by intros x (_&_&_&?)%valid_inv.
Qed.

(** The digests are a function of the path. *)
Lemma artifact_of_fun ns m ns' m' p ds ds' :
  Forall valid ns → Forall valid ns' →
  artifact_of ns m p ds → artifact_of ns' m' p ds' → ds = ds'.
Proof.
  unfold artifact_of. intros Hv Hv' H H'. destruct (mode_IsDir m), (mode_IsDir m').
  - destruct H as (_ & -> & Hd), H' as (_ & H & Hd').
    apply (inj (λ a, a +:+ slash_str)) in H. apply rel_path_inj in H as ->; congruence.
  - destruct H as (_ & -> & _), H' as (H & _). by apply symmetry, rel_path_slash in H.
  - destruct H as (-> & _), H' as (_ & H & _). by apply rel_path_slash in H.
  - destruct H as (-> & Hd & _), H' as (H & Hd' & _). apply rel_path_inj in H as ->; congruence.
Qed.

Definition from_artifacts (a : gmap string DigestSet) : Prop :=
  ∀ p ds, a !! p = Some ds → ∃ ns m, Forall valid ns ∧ artifact_of ns m p ds.

Lemma insert_artifact ns m p ds (a : gmap string DigestSet) :
  Forall valid ns → artifact_of ns m p ds → from_artifacts a →
  from_artifacts (<[p:=ds]> a) ∧
  ∀ q d, <[p:=ds]> a !! q = Some d ↔ a !! q = Some d ∨ (q = p ∧ d = ds).
Proof.
  intros Hv Ha Hfrom. split.
  - intros q d [[<- <-]|[_ Hq]]%lookup_insert_Some; [by exists ns, m|by apply Hfrom].
  - intros q d. rw lookup_insert_Some. split; [naive_solver|]. intros [Hq|[-> ->]]; [|by left].
    destruct (decide (p = q)) as [->|Hne]; [left|by right]. split; [done|].
    apply Hfrom in Hq as (ns' & m' & Hv' & Ha'). exact (artifact_of_fun _ _ _ _ _ _ _ Hv Hv' Ha Ha').
Qed.

(** One visit of the walk, of a file that is not a link. *)
Lemma visit_plain rec st ns m :
  Forall valid ns → mode_IsDir m = true ∨ Z.land m ModeSymlink = 0%Z →
  readable ns m → from_artifacts st.1 →
  ∃ a, visit rec base st (below base ns) (Some m) None =
         Ok (a, st.2, mode_IsDir m && match match_dir (rel_path ns) with Ok b => b | _ => false end) ∧
       from_artifacts a ∧ ∀ p ds, a !! p = Some ds ↔ st.1 !! p = Some ds ∨ artifact_of ns m p ds.
Proof.
  intros Hv Hm Hr Hfrom. unfold File.visit. rw Rel_below //=. unfold readable in Hr.
  destruct (mode_IsDir m) eqn:Hd.
  - destruct Hr as [Hr|[Hr [ds Hds]]]; rw Hr /=.
    + exists st.1. split; [by destruct st|]. split; [done|]. intros p ds. unfold artifact_of. rw Hd Hr.
      split; [by left|by intros [?|[? _]]].
    + rw Hds /=. eexists. split; [done|].
      assert (artifact_of ns m (rel_path ns +:+ slash_str) ds) as Ha by (unfold artifact_of; by rw Hd).
      destruct (insert_artifact ns m _ ds st.1 Hv Ha Hfrom) as [H1 H2]. split; [done|].
      intros p d. rw H2. apply or_iff_compat_l. split; [by intros [-> ->]|].
      unfold artifact_of. rw Hd. intros (_ & -> & Hd'). rw Hds in Hd'. by simplify_eq.
  - destruct Hm as [?|Hm]; [done|]. rw Hm /=. destruct Hr as [ds Hds]. rw Hds /=. eexists. split; [done|].
    destruct (shouldRecord (rel_path ns) ds) eqn:Hs.
    + assert (artifact_of ns m (rel_path ns) ds) as Ha by (unfold artifact_of; by rw Hd).
      destruct (insert_artifact ns m _ ds st.1 Hv Ha Hfrom) as [H1 H2]. split; [done|].
      intros p d. rw H2. apply or_iff_compat_l. split; [by intros [-> ->]|].
      unfold artifact_of. rw Hd. intros (-> & Hd' & _). rw Hds in Hd'. by simplify_eq.
    + split; [done|]. intros p d. unfold artifact_of. rw Hd. split; [by left|].
      intros [?|(-> & Hd' & Hs')]; [done|]. rw Hds in Hd'. simplify_eq. by rw Hs in Hs'.
Qed.

(** ** Sorting *)

Lemma node_mode_sort n : node_mode (sort_tree n) = node_mode n.
Proof. by destruct n. Qed.

Lemma sort_tree_child l name r' :
  (name, r') ∈ merge_sort name_le (map (λ e, (e.1, match e.2 with Ok c => Ok (sort_tree c) | r => r end)) l) ↔
  ∃ r, (name, r) ∈ l ∧ r' = match r with Ok c => Ok (sort_tree c) | _ => r end.
Proof.
  rw merge_sort_Permutation list_elem_of_fmap. split.
  - intros ([name1 r] & [= -> ->] & Hin). exists r. split; [done|]. by destruct r.
  - intros (r & Hin & ->). exists (name, r). split; [by destruct r|done].
Qed.

Lemma plain_tree_sort n : plain_tree n → plain_tree (sort_tree n).
Proof.
  induction n as [[m entries] IH] using node_ind'. intros Hn. inversion Hn as [|? l Hd Hl]; subst.
  { by apply plain_file. }
  cbn [sort_tree]. apply plain_dir; [done|]. intros name r' (r & Hin & ->)%sort_tree_child.
  destruct (Hl _ _ Hin) as (Hv & c & -> & Hc). split; [done|]. exists (sort_tree c). split; [done|].
  cbn [on_children] in IH. rewrite Forall_forall in IH. by apply (IH _ Hin).
Qed.

Lemma reaches_sort pre n ns m : reaches pre (sort_tree n) ns m ↔ reaches pre n ns m.
Proof.
  split.
  - remember (sort_tree n) as n' eqn:Hn'. intros H. revert n Hn'.
    induction H as [pre n'|pre m0 l name c ns m' Hd Hs Hin _ IH]; intros n Hx.
    { rw Hx node_mode_sort. constructor. }
    destruct n as [m1 entries]. cbn [sort_tree] in Hx.
      destruct entries as [l0| |]; simplify_eq.
      apply sort_tree_child in Hin as ([c0| |] & Hin & Hc); simplify_eq.
      eapply reaches_below; [done|done|done|]. by apply IH.
  - induction 1 as [pre n|pre m0 l name c ns m' Hd Hs Hin _ IH].
    { rw -node_mode_sort. constructor. }
    cbn [sort_tree]. eapply reaches_below; [done|done| |done]. apply sort_tree_child. by exists (Ok c).
Qed.

(** ** The whole walk *)

Lemma below_snoc ns name : filepath_Join [below base ns; name] = below base (ns ++ [name]).
Proof. unfold below. by rw foldl_app. Qed.

(** The state after a walk: the artifacts of the files [R] are added. *)
Definition adds (R : list string → Z → Prop) (st : walk_state) (r : res (walk_state * bool)) (skip : bool → Prop) : Prop :=
  ∃ a b, r = Ok (a, st.2, b) ∧ skip b ∧ from_artifacts a ∧
    ∀ p ds, a !! p = Some ds ↔ st.1 !! p = Some ds ∨ ∃ ns m, R ns m ∧ artifact_of ns m p ds.

Lemma walk_plain rec n : plain_tree n → ∀ pre st,
  Forall valid pre → from_artifacts st.1 →
  (∀ ns m, reaches pre n ns m → readable ns m) →
  adds (reaches pre n) st (walk (visit rec base) (below base pre) n st) (λ b, b = true → node_IsDir n = true).
Proof.
  induction n as [[m entries] IH] using node_ind'. intros Hn pre st Hpre Hfrom Hread. rw walk_unfold.
  assert (readable pre m) as Hr by (apply Hread; apply (reaches_here pre (Node m entries))).
  assert (mode_IsDir m = true ∨ Z.land m ModeSymlink = 0%Z) as Hm by (inversion Hn; auto).
  destruct (visit_plain rec st pre m Hpre Hm Hr Hfrom) as (a & Hvisit & Ha & Hl).
  inversion Hn as [? ? Hd _|? l Hd Hch]; subst; rw Hd; cbn [negb]; rw Hvisit Hd; cbn [mbind res_bind fst snd andb].
  { exists a, false. split_and!; [done..|]. intros p ds. rw Hl. apply or_iff_compat_l. split.
    - intros ?. exists pre, m. split; [apply (reaches_here pre (Node m entries))|done].
    - intros (ns & m' & Hreach & Hart). inversion Hreach; subst; [done|congruence]. }
  cbn [on_children] in IH. destruct (match_dir (rel_path pre)) as [[]| |] eqn:Hmd.
  { exists a, true. split_and!; [done..|]. intros p ds. rw Hl. apply or_iff_compat_l. split.
    - intros ?. exists pre, m. split; [apply (reaches_here pre (Node m (Ok l)))|done].
    - intros (ns & m' & Hreach & Hart). inversion Hreach; subst; [done|congruence]. }
  2,3: exfalso; unfold readable in Hr; rw Hd Hmd in Hr; destruct Hr as [?|[? _]]; done.
  cut (∀ l' st1, (∀ e, e ∈ l' → e ∈ l) → from_artifacts st1.1 →
    adds (λ ns m', ∃ name c, (name, Ok c) ∈ l' ∧ reaches (pre ++ [name]) c ns m') st1
      (walk_entries (visit rec base) (below base pre) l' st1) (λ b, b = false)).
  { intros Hloop. destruct (Hloop l (a, st.2)) as (a' & b & Hw & -> & Ha' & Hl'); [done|done|].
    exists a', false. split; [done|]. split; [done|]. split; [done|]. intros p ds. rw Hl' /= Hl. split.
    - intros [[?|?]|(ns & m' & (name & c & Hin & Hreach) & Hart)]; [by left|right|right].
      + exists pre, m. split; [apply (reaches_here pre (Node m (Ok l)))|done].
      + exists ns, m'. split; [by eapply reaches_below|done].
    - intros [?|(ns & m' & Hreach & Hart)]; [by left; left|].
      inversion Hreach; subst; [by left; right|right]. exists ns, m'. split; [by eauto|done]. }
  induction l' as [|[name r] l' IHl]; intros st1 Hsub Hfrom1; cbn [walk_entries].
  { exists st1.1, false. split; [by destruct st1|]. split_and!; [done..|]. intros p ds.
    split; [by left|]. intros [?|(? & ? & (? & ? & ?%not_elem_of_nil & _) & _)]; done. }
  assert ((name, r) ∈ l) as Hin by (apply Hsub; left).
  destruct (Hch name r Hin) as (Hv & c & -> & Hc). rewrite Forall_forall in IH.
  specialize (IH _ Hin Hc (pre ++ [name]) st1). rw below_snoc.
  destruct IH as (a1 & b & Hw & Hb & Ha1 & Hl1); [by apply Forall_app; auto|done| |].
  { intros ns m' Hreach. apply Hread. by eapply reaches_below. }
  rw Hw. cbn [mbind res_bind fst snd].
  assert (b && negb (node_IsDir c) = false) as -> by (destruct b; [by rw Hb|done]).
  destruct (IHl (a1, st1.2)) as (a2 & b2 & Hw2 & -> & Ha2 & Hl2); [by intros; apply Hsub; right|done|].
  exists a2, false. split; [done|]. split; [done|]. split; [done|]. intros p ds. rw Hl2 /= Hl1.
  setoid_rewrite elem_of_cons. clear. naive_solver.
Qed.
End below.

(** What is recorded of a tree without links, as a reference definition: when
    every file the walk comes to can be digested, the walk succeeds and records
    exactly the files it comes to, and the directories that a glob matches, whose
    contents it does not enter; each under its names joined with slashes (a
    directory with a slash at the end), if it is to be recorded. *)
Theorem RecordArtifacts_plain base visited tree :
  os_Lstat base = Ok tree → plain_tree tree →
  (∀ ns m, reaches [] tree ns m → readable base ns m) →
  ∃ artifacts, RecordArtifacts base visited = Ok (artifacts, visited) ∧
    ∀ p ds, artifacts !! p = Some ds ↔ ∃ ns m, reaches [] tree ns m ∧ artifact_of base ns m p ds.
Proof.
  intros Htree Hplain Hread. rw RecordArtifacts_eq. unfold Walk. rw Htree.
  destruct (walk_plain base (RecordArtifacts) (sort_tree tree)) with (pre := @nil string) (st := (∅ : gmap string DigestSet, visited))
    as (a & b & Hw & _ & _ & Hl).
  - by apply plain_tree_sort.
  - done.
  - intros p ds. by rw lookup_empty.
  - intros ns m Hr. apply Hread. by apply reaches_sort.
  - cbn [below foldl] in Hw. rw Hw. exists a. split; [done|]. intros p ds. rw Hl lookup_empty.
    setoid_rewrite reaches_sort. split; [by intros [?|?]|by right].
Qed.
End theorems.

(** * Examples *)

(** A file system given by its trees, its links and the contents of its files. *)
Definition not_exist : error := External "no such file or directory".
Definition find_or {V} (l : list (string * V)) (p : string) : res V :=
  match list_to_map (M:=gmap string V) l !! p with Some v => Ok v | None => Err not_exist end.
Definition is_not_exist (e : error) : bool :=
  match e with External m => bool_decide (m = "no such file or directory") | _ => false end.
Program Definition files_of (trees : list (string * node)) (links contents : list (string * string)) : FileSystem := {|
  os_Lstat p := find_or trees p;
  os_Stat p := node_mode <$> find_or trees p;
  os_Open p := c ← find_or contents p; Ok (mkOpenFile (Ok 0%Z) (Ok c));
  os_IsNotExist := is_not_exist;
  EvalSymlinks p := find_or links p;
  link_targets := list_to_set links.*2;
  dirhash_HashDir d h := Ok ("h1:" +:+ d);
|}.
Next Obligation.
  intros trees links contents p q. unfold find_or.
  destruct (list_to_map links !! p) as [q'|] eqn:Hp; [|done]. intros [= <-].
  apply elem_of_list_to_set, list_elem_of_fmap. apply elem_of_list_to_map_2 in Hp. by exists (p, q').
Qed.

Definition a_file : node := Node 0 (Err not_exist).
Definition a_link : node := Node ModeSymlink (Err not_exist).
Definition a_dir (l : list (string * node)) : node := Node ModeDir (Ok ((λ e, (e.1, Ok e.2)) <$> l)).
Definition sha256 : DigestValue := mkDV SHA256 false false.

(** "/w" holds a file, and a directory with a file and with a link back to "/w". *)
Definition cyclic : FileSystem :=
  files_of [("/w", a_dir [("sub", a_dir [("g", a_file); ("up", a_link)]); ("f", a_file)])]
    [("/w/sub/up", "/w")] [("/w/f", "F"); ("/w/sub/g", "G")].
(** The same without the link. *)
Definition plain_files : FileSystem :=
  files_of [("/w", a_dir [("sub", a_dir [("g", a_file)]); ("f", a_file)])] []
    [("/w/f", "F"); ("/w/sub/g", "G")].
(** Two links to one file outside of the directory. *)
Definition two_links : FileSystem :=
  files_of [("/w", a_dir [("l1", a_link); ("l2", a_link)]); ("/t", a_file)]
    [("/w/l1", "/t"); ("/w/l2", "/t")] [("/t", "T")].

Definition record (FS : FileSystem) (traced : bool) (opened : list string) (globs : list (option (string → bool)))
    : res walk_state :=
  @RecordArtifacts toy_crypto toy_gitoid _ FS ∅ [sha256] traced (list_to_map ((λ f, (f, true)) <$> opened)) globs "/w" ∅.
Definition recorded_paths (r : res walk_state) : res (list string) :=
  (λ st, merge_sort String.le (map_to_list st.1).*1) <$> r.

Example record_plain : recorded_paths (record plain_files false [] []) = Ok ["f"; "sub/g"].
Proof. vm_compute. reflexivity. Qed.
Example record_glob :
  recorded_paths (record plain_files false [] [Some (λ p, bool_decide (p = "sub"))]) = Ok ["f"; "sub/"].
Proof. vm_compute. reflexivity. Qed.
(** Behind the link the directory is walked once more, and the link not again. *)
Example record_cyclic :
  recorded_paths (record cyclic false [] []) = Ok ["f"; "sub/g"; "sub/up/f"; "sub/up/sub/g"].
Proof. vm_compute. reflexivity. Qed.
Example record_nil_glob : record plain_files false [] [None] = Panic "nil pointer dereference".
Proof. vm_compute. reflexivity. Qed.

(** The links of a directory are not all recorded: of two links to one file only
    the first one is; and when the process was traced, not even a link it opened,
    since the file behind it has another path below its own base. *)
Theorem RecordArtifacts_links_lost :
  recorded_paths (record two_links false [] []) = Ok ["l1"] ∧
  recorded_paths (record two_links true ["l1"; "l2"] []) = Ok [] ∧
  recorded_paths (record two_links true ["l1"; "l2"; "."] []) = Ok ["l1"].
Proof. by vm_compute. Qed.

(** Trees that are written out are plain, and their files can be enumerated. *)
Lemma plain_a_file : plain_tree a_file.
Proof. by apply plain_file. Qed.
Lemma plain_a_dir l : Forall (λ e, valid e.1 ∧ plain_tree e.2) l → plain_tree (a_dir l).
Proof.
  intros Hl. apply plain_dir; [done|]. rewrite Forall_forall in Hl.
  intros name r ([n' c] & [= -> ->] & Hin)%list_elem_of_fmap. apply Hl in Hin as [Hv Hc].
  split; [done|]. by exists c.
Qed.
Ltac plain_trees :=
  repeat first [apply plain_a_file | apply plain_a_dir
               | constructor; [split; [done|]|] | apply Forall_nil_2 ].
Ltac reach_inv Hr :=
  repeat match goal with
  | H : reaches _ _ (Node _ _) _ _ |- _ => inversion H; clear H; subst
  | H : reaches _ _ a_file _ _ |- _ => unfold a_file in H
  | H : reaches _ _ (a_dir _) _ _ |- _ => unfold a_dir in H; cbn [fmap list_fmap fst snd] in H
  | H : _ ∈ _ :: _ |- _ => apply elem_of_cons in H as [H|H]; simplify_eq
  | H : _ ∈ [] |- _ => by apply not_elem_of_nil in H
  end; try done.

Lemma RecordArtifacts_sound_witness :
  ∃ artifacts visited ds, record cyclic false [] [] = Ok (artifacts, visited) ∧
    artifacts !! "sub/up/f" = Some ds ∧
    @recorded toy_crypto toy_gitoid _ cyclic ∅ [sha256] false ∅ [] "/w" "sub/up/f" ds.
Proof.
  destruct (record cyclic false [] []) as [[artifacts visited]| |] eqn:H; [|by vm_compute in H..].
  assert (is_Some (artifacts !! "sub/up/f")) as [ds Hds].
  { assert (match record cyclic false [] [] with
            | Ok (a, _) => bool_decide (is_Some (a !! "sub/up/f")) | _ => false end = true) as Hb by (by vm_compute).
    rw H in Hb. by apply bool_decide_eq_true in Hb. }
  exists artifacts, visited, ds. split; [done|]. split; [done|].
  by apply (@RecordArtifacts_sound toy_crypto toy_gitoid _ cyclic ∅ [sha256] false ∅ [] "/w" ∅ artifacts visited).
Defined.

Lemma RecordArtifacts_plain_witness :
  ∃ artifacts, record plain_files false [] [] = Ok (artifacts, ∅) ∧
    ∀ p ds, artifacts !! p = Some ds ↔ ∃ ns m,
      reaches [] [] (a_dir [("sub", a_dir [("g", a_file)]); ("f", a_file)]) ns m ∧
      @artifact_of toy_crypto toy_gitoid _ plain_files ∅ [sha256] false ∅ [] "/w" ns m p ds.
Proof.
  apply (@RecordArtifacts_plain toy_crypto toy_gitoid _ plain_files ∅ [sha256] false ∅ [] "/w" ∅).
  - reflexivity.
  - plain_trees.
  - intros ns m Hr. reach_inv Hr; unfold readable; vm_compute; eauto.
Defined.
