(* ===== verification/DsseTheorems.v ===== *)
(** The properties of the dsse component, with witnesses on the concrete
    instances of Toy.v. *)
From S2P Require Import Prelude GoStrings Errors Crypto Keys Timestamp Dsse Toy.
From stdpp Require Import options.

(** C18: the pre-authentication encoding is injective: two contents with the
    same encoding have the same payload type and the same payload, so a signature
    over one envelope content is a signature over no other. *)
Theorem preauthEncode_injective (t t' : string) (b b' : bytes) :
  preauthEncode t b = preauthEncode t' b' → t = t' ∧ b = b'.
Proof. apply preauthEncode_inj. Qed.

Lemma preauthEncode_injective_witness :
  preauthEncode "a 1" "x" = preauthEncode "a 1" "x" ∧ ("a 1" = "a 1" ∧ "x" = "x").
Proof. split; [vm_compute; reflexivity|]. apply preauthEncode_injective. vm_compute. reflexivity. Defined.

(** C3: verification is sound: when [Verify] returns no error, the number of
    entries without an error reaches the threshold, there is at least one, and
    each of them carries a verifier that accepted a signature of this very
    envelope over the encoding of its content; that verifier is one the caller
    passed or is made from the signature's certificate against the caller's
    roots, at the clock or at a time attested by a timestamp verifier. *)
Theorem Envelope_Verify_sound `{CL : CryptoLib} `{TL : !TspLib} (e : Envelope) (now : Z)
    (opts : list VerificationOption) (cvs : list CheckedVerifier) :
  Envelope_Verify e now opts = Ok (cvs, None) →
  let options := apply_verification_options opts in
  (0 < threshold options ≤ verified_count cvs)%Z ∧
  (∃ cv, cv ∈ cvs ∧ cv_Error cv = None) ∧
  ∀ cv, cv ∈ cvs → cv_Error cv = None →
    ∃ sig, sig ∈ Signatures e ∧
      justified options now (preauthEncode (PayloadType e) (Payload e)) sig cv.
Proof.
  intros H options.
  destruct (Envelope_Verify_entries _ _ _ _ _ H (Envelope_Verify_nonempty _ _ _ _ H))
    as (_ & Ht & Hp & [[_ Hc]|[? _]]); [|done].
  split; [done|]. split; [by apply verified_count_pos|].
  intros cv Hin He. by eapply Envelope_Verify_justified.
Qed.

Definition toy_envelope : Envelope :=
  mkEnvelope "data" "type" [mkSignature "" ("alice:" +:+ preauthEncode "type" "data") "" [] []].

Lemma Envelope_Verify_sound_witness :
  Envelope_Verify toy_envelope 0 [VerifyWithVerifiers [Some (toy_ed "alice")]] =
    Ok ([mkCheckedVerifier (Some (toy_ed "alice")) [] None], None) ∧
  (0 < 1 ≤ verified_count [mkCheckedVerifier (Some (toy_ed "alice")) [] None])%Z.
Proof.
  split; [vm_compute; reflexivity|].
  refine (proj1 (Envelope_Verify_sound toy_envelope 0
    [VerifyWithVerifiers [Some (toy_ed "alice")]] _ _)).
  vm_compute. reflexivity.
Defined.

(** C7: what [Sign] makes, [Verify] accepts: for key signers and any
    timestampers, the envelope verifies under the signers' own verifiers at any
    threshold up to the number of signers, and every one of these verifiers is
    reported without an error. *)
Theorem Sign_Verify_roundtrip `{CL : CryptoLib} `{TL : !TspLib} `{SL : !SignatureLaws}
    (rnd : nat → bytes) (bt : string) (data : bytes) (ts : list Timestamper)
    (ss : list Signer) (vs : list Verifier) (env : Envelope) (now k : Z) :
  Forall (λ s, key_signer s = true) ss →
  Forall2 (λ s v, Signer_Verifier s = Ok v) ss vs →
  Sign rnd bt (Ok data) [SignWithSigners (Some <$> ss); SignWithTimestampers ts] = Ok env →
  (0 < k ≤ Z.of_nat (length ss))%Z →
  Payload env = data ∧ PayloadType env = bt ∧
  ∃ cvs, Envelope_Verify env now [VerifyWithVerifiers (Some <$> vs); VerifyWithThreshold k] =
           Ok (cvs, None) ∧
    ∀ v, v ∈ vs → mkCheckedVerifier (Some v) [] None ∈ cvs.
Proof. apply Sign_key_verifies. Qed.

Lemma Sign_Verify_roundtrip_witness :
  let ss := [RSASigner "r" SHA256; ECDSASigner "e" SHA256; ED25519Signer "d"] in
  let vs := [RSAVerifier "r" SHA256; ECDSAVerifier "e" SHA256; ED25519Verifier "d"] in
  ∃ env, Sign (λ _, "") "type" (Ok "data") [SignWithSigners (Some <$> ss); SignWithTimestampers []] = Ok env ∧
    ∃ cvs, Envelope_Verify env 0 [VerifyWithVerifiers (Some <$> vs); VerifyWithThreshold 3] = Ok (cvs, None).
Proof.
  intros ss vs. eexists. split; [vm_compute; reflexivity|].
  refine (let H := Sign_Verify_roundtrip (λ _, "") "type" "data" [] ss vs _ 0 3 _ _ _ _ in
          match proj2 (proj2 H) with ex_intro _ cvs Hc => ex_intro _ cvs (proj1 Hc) end).
  - repeat constructor.
  - repeat constructor.
  - vm_compute. reflexivity.
  - simpl. lia.
Defined.

(** The threshold counts signatures, not signers: an envelope that repeats
    one signature [k] times meets threshold [k] with the single verifier of that
    signature. *)
Theorem Envelope_Verify_replay `{CL : CryptoLib} `{TL : !TspLib} (e : Envelope) (now : Z)
    (sig : Signature) (v : Verifier) (k : nat) :
  0 < k → sig_Certificate sig = "" →
  Verifier_Verify v (preauthEncode (PayloadType e) (Payload e)) (sig_Signature sig) = nil_error →
  ∃ cvs, Envelope_Verify (mkEnvelope (Payload e) (PayloadType e) (replicate k sig)) now
           [VerifyWithVerifiers [Some v]; VerifyWithThreshold (Z.of_nat k)] = Ok (cvs, None).
Proof.
  intros Hk Hc Hok.
  destruct (Envelope_Verify_complete (mkEnvelope (Payload e) (PayloadType e) (replicate k sig)) now
    [VerifyWithVerifiers [Some v]; VerifyWithThreshold (Z.of_nat k)]) as (cvs & H & _).
  - simpl. rw length_replicate. lia.
  - simpl. intros s [-> _]%elem_of_replicate. split; [done|]. split.
    + exists v. split; [by apply list_elem_of_singleton|done].
    + intros v' [= ->]%list_elem_of_singleton w. by rw Hok.
  - by exists cvs.
Qed.

Lemma Envelope_Verify_replay_witness :
  ∃ cvs, Envelope_Verify (mkEnvelope "data" "type"
      (replicate 3 (mkSignature "" ("alice:" +:+ preauthEncode "type" "data") "" [] []))) 0
    [VerifyWithVerifiers [Some (toy_ed "alice")]; VerifyWithThreshold 3] = Ok (cvs, None).
Proof.
  apply (@Envelope_Verify_replay toy_crypto toy_tsp toy_envelope 0
    (mkSignature "" ("alice:" +:+ preauthEncode "type" "data") "" [] []) (toy_ed "alice") 3).
  - lia.
  - reflexivity.
  - vm_compute. reflexivity.
Defined.
