(* ===== verification/Registry.v ===== *)
(** registry: configurable options (option.go) and the registry of entities
    (registry.go). *)
From S2P Require Import Prelude GoStrings.
From stdpp Require Import options.

(** * option.go *)

(** [ConfigOption[T, TOption]]. A setter returns the entity and an error, and
    the entity is used even next to an error. *)
Record ConfigOption (T TOption : Type) := mkConfigOption {
  co_name : string;
  co_prefix : string;
  co_description : string;
  co_defaultVal : TOption;
  co_setter : T → TOption → T * option error;
}.
Arguments mkConfigOption {T TOption}.
Arguments co_name {T TOption}.
Arguments co_prefix {T TOption}.
Arguments co_description {T TOption}.
Arguments co_defaultVal {T TOption}.
Arguments co_setter {T TOption}.

Definition ConfigOption_Name {T TOption} (co : ConfigOption T TOption) : string :=
  if bool_decide (slen (co_prefix co) = 0) then co_name co
  else co_prefix co +:+ "-" +:+ co_name co.

Definition ConfigOption_SetPrefix {T TOption} (co : ConfigOption T TOption) (prefix : string)
    : ConfigOption T TOption :=
  mkConfigOption (co_name co) prefix (co_description co) (co_defaultVal co) (co_setter co).

(** The constructors [IntConfigOption], [StringConfigOption], ... differ in the
    option's type only. *)
Definition NewConfigOption {T TOption} (name description : string) (defaultVal : TOption)
    (setter : T → TOption → T * option error) : ConfigOption T TOption :=
  mkConfigOption name "" description defaultVal setter.

(** The dynamic types behind the [Configurer] interface: the six instances of
    [ConfigOption[T, _]], and anything else (an implementation from elsewhere,
    or a [ConfigOption] for another entity type). A duration is a count of
    nanoseconds, a nil string pointer is [None]. *)
Inductive Configurer (T : Type) : Type :=
  | CInt (o : ConfigOption T Z)
  | CString (o : ConfigOption T string)
  | CStringSlice (o : ConfigOption T (list string))
  | CBool (o : ConfigOption T bool)
  | CDuration (o : ConfigOption T Z)
  | CStringPtr (o : ConfigOption T (option string))
  | CForeign (name description : string).
Arguments CInt {T}.
Arguments CString {T}.
Arguments CStringSlice {T}.
Arguments CBool {T}.
Arguments CDuration {T}.
Arguments CStringPtr {T}.
Arguments CForeign {T}.

(** * registry.go *)

Record Entry (T : Type) := mkEntry {
  Entry_Factory : unit → T;
  Entry_Name : string;
  Entry_Options : list (Configurer T);
}.
Arguments mkEntry {T}.
Arguments Entry_Factory {T}.
Arguments Entry_Name {T}.
Arguments Entry_Options {T}.

(** [Registry[T]]: the map [entriesByName]. *)
Definition Registry (T : Type) := gmap string (Entry T).
Definition Registry_New {T} : Registry T := ∅.

Section registry.
Context {T : Type}.
Implicit Types r : Registry T.

(** [Register]: the new entry, and the registry that holds it. *)
Definition Register r (name : string) (factory : unit → T) (opts : list (Configurer T))
    : Registry T * Entry T :=
  let entry := mkEntry factory name opts in (<[name:=entry]> r, entry).

Definition Registry_Options r (name : string) : option (list (Configurer T)) :=
  Entry_Options <$> r !! name.

Definition Registry_Entry r (name : string) : option (Entry T) := r !! name.

Definition AllEntries `{RO : RangeOrder} r : list (Entry T) := (range_map 0 r).*2.

(** [SetOptions]: the entity is what the last setter called returned. *)
Fixpoint SetOptions (entity : T) (optSetters : list (T → T * option error)) : T * option error :=
  match optSetters with
  | [] => (entity, None)
  | setter :: optSetters =>
      let (result, e) := setter entity in
      match e with
      | Some e => (result, Some e)
      | None => SetOptions result optSetters
      end
  end.

(** What the type switch of [SetDefaultVals] does with one option. There is no
    case for [*ConfigOption[T, *string]]. *)
Definition set_default (entity : T) (opt : Configurer T) : T * option error :=
  match opt with
  | CInt o => co_setter o entity (co_defaultVal o)
  | CString o => co_setter o entity (co_defaultVal o)
  | CStringSlice o => co_setter o entity (co_defaultVal o)
  | CBool o => co_setter o entity (co_defaultVal o)
  | CDuration o => co_setter o entity (co_defaultVal o)
  | CStringPtr _ | CForeign _ _ => (entity, None)
  end.

Fixpoint SetDefaultVals (entity : T) (opts : list (Configurer T)) : T * option error :=
  match opts with
  | [] => (entity, None)
  | opt :: opts =>
      let (entity, e) := set_default entity opt in
      match e with
      | Some e => (entity, Some e)
      | None => SetDefaultVals entity opts
      end
  end.

(** [NewEntity]; [zero] is Go's zero value of the entity type. *)
Definition NewEntity (zero : T) r (name : string) (optSetters : list (T → T * option error))
    : T * option error :=
  match Registry_Entry r name with
  | None => (zero, Some (Errorf ("could not find entry with name " +:+ name)))
  | Some entry =>
      match SetDefaultVals (Entry_Factory entry ()) (Entry_Options entry) with
      | (result, Some e) => (result, Some e)
      | (result, None) => SetOptions result optSetters
      end
  end.

(** ** Lemmas *)

Lemma SetOptions_app entity s1 s2 :
  SetOptions entity (s1 ++ s2) =
  match SetOptions entity s1 with
  | (result, None) => SetOptions result s2
  | r => r
  end.
Proof.
  revert entity; induction s1 as [|s s1 IH]; intros entity; simpl; [done|].
  destruct (s entity) as [e [|]]; [done|apply IH].
Qed.

(** Setting the defaults is setting options, one setter per option. *)
Lemma SetDefaultVals_SetOptions entity opts :
  SetDefaultVals entity opts = SetOptions entity ((λ opt e, set_default e opt) <$> opts).
Proof.
  revert entity; induction opts as [|opt opts IH]; intros entity; simpl; [done|].
  destruct (set_default entity opt) as [e [|]]; [done|apply IH].
Qed.

(** A new entity is the factory's, through the defaults and then the setters;
    the first error stops it. *)
Lemma NewEntity_registered zero r name factory opts setters :
  NewEntity zero (Register r name factory opts).1 name setters =
  SetOptions (factory ()) (((λ opt e, set_default e opt) <$> opts) ++ setters).
Proof.
  unfold NewEntity, Registry_Entry. cbn [Register fst]. rw lookup_insert_eq SetOptions_app. cbn [Entry_Factory Entry_Options].
  rw SetDefaultVals_SetOptions. by destruct (SetOptions _ _) as [? [|]].
Qed.

Lemma Register_other r name name' factory opts :
  name ≠ name' → Registry_Entry (Register r name factory opts).1 name' = Registry_Entry r name'.
Proof. intros. unfold Registry_Entry. simpl. by rw lookup_insert_ne. Qed.

Lemma Register_same r name factory opts :
  Registry_Entry (Register r name factory opts).1 name = Some (Register r name factory opts).2.
Proof. unfold Registry_Entry. simpl. by rw lookup_insert_eq. Qed.

Lemma AllEntries_spec `{RO : RangeOrder} r entry :
  entry ∈ AllEntries r ↔ ∃ name, Registry_Entry r name = Some entry.
Proof.
  unfold AllEntries. rw list_elem_of_fmap. split.
  - intros ([name ?] & -> & Hin). exists name. by apply elem_of_range in Hin.
  - intros [name Hn]. exists (name, entry). split; [done|]. by apply elem_of_range.
Qed.

(** Options that hold a string pointer never get their default. *)
Lemma SetDefaultVals_pointers entity opts :
  (∀ opt, opt ∈ opts → ∃ o, opt = CStringPtr o) → SetDefaultVals entity opts = (entity, None).
Proof.
  induction opts as [|opt opts IH]; intros Hopts; [done|].
  destruct (Hopts opt) as [o ->]; [left|]. simpl. apply IH. intros. apply Hopts. by right.
Qed.
End registry.

(** An entity made from the registry is the factory's result passed through
    the setters of the registered options with their default values, in their
    order, and then through the caller's setters; the first setter that fails
    ends the sequence and its result and error are returned. *)
Theorem NewEntity_defaults {T} (zero : T) r name factory opts setters :
  NewEntity zero (Register r name factory opts).1 name setters =
  SetOptions (factory ()) (((λ opt e, set_default e opt) <$> opts) ++ setters).
Proof. apply NewEntity_registered. Qed.

(** The defaults of options of type string pointer are not applied: an entity
    registered with such options only is handed out as the factory made it. *)
Theorem NewEntity_pointer_defaults {T} (zero : T) r name factory opts
    (Hopts : ∀ opt, opt ∈ opts → ∃ o, opt = CStringPtr o) :
  NewEntity zero (Register r name factory opts).1 name [] = (factory (), None).
Proof.
  rw NewEntity_registered right_id_L. rw -SetDefaultVals_SetOptions. by apply SetDefaultVals_pointers.
Qed.

(** An entity with a string-pointer field, and an option that would set it. *)
Definition ptr_option : ConfigOption (option string) (option string) :=
  NewConfigOption "path" "a path" (Some "default") (λ _ v, (v, None)).

Lemma NewEntity_pointer_defaults_witness :
  NewEntity None (Register Registry_New "e" (λ _, None) [CStringPtr ptr_option]).1 "e" [] = (None, None).
Proof.
  apply (NewEntity_pointer_defaults None Registry_New "e" (λ _, None) [CStringPtr ptr_option]).
  intros opt ->%list_elem_of_singleton. by exists ptr_option.
Defined.
