(* ===== verification/Host.v ===== *)
(** What the programs around the library see of the process they run in: the
    environment, the files, and the servers they ask (packages os, net/url and
    net/http). The answers are parameters; the n-th request of an operation has an
    answer of its own, so that an operation that tries again can be answered
    differently. *)
From S2P Require Import Prelude GoStrings Errors Crypto.
From stdpp Require Import options.

(** [os.LookupEnv] *)
Class ProcessEnv := LookupEnv : string → option string.
Definition Getenv `{PE : ProcessEnv} (key : string) : string := default "" (LookupEnv key).

(** [os.Open] with what reading gives, and [os.ReadFile]. *)
Class HostFiles := {
  host_Open : string → res Reader;
  host_ReadFile : string → res bytes;
}.

(** net/url: [u.User = nil], and the query with a value added and encoded again. *)
Class UrlLib := {
  URL : Type;
  url_Parse : string → res URL;
  url_String : URL → string;
  url_Scheme : URL → string;
  url_Host : URL → string;
  url_Hostname : URL → string;
  url_Port : URL → string;
  url_no_User : URL → URL;
  Query_Get : URL → string → string;
  Query_Add : URL → string → string → URL;
}.

Record Request := mkRequest {
  req_Method : string;
  req_URL : string;
  req_Header : list (string * string);
  req_Body : bytes;
}.
Record Response := mkResponse { StatusCode : Z; Status : string; Body : Reader }.
Definition StatusOK : Z := 200.

(** [client.Do]: the n-th request; the client is one that keeps to HTTP/1.1 or
    one that does not. *)
Class HttpLib := http_Do : bool → nat → Request → res Response.

(** [http.NewRequest] fails on a URL that does not parse. *)
Definition NewRequest `{UL : UrlLib} (method url : string) (header : list (string * string)) (body : bytes)
    : res Request :=
  _ ← url_Parse url;
  Ok (mkRequest method url header body).
