(* ===== verification/FileSigner.v ===== *)
(** signer/file/file.go: the signer whose key and certificates are in files, and
    signer/registry.go. *)
From S2P Require Import Prelude GoStrings Errors Crypto Keys Registry Host.
From stdpp Require Import options.

Module FileSigner.

Record FileSignerProvider := mkFSP {
  KeyPath : string;
  CertPath : string;
  IntermediatePaths : list string;
  Passphrase : option string;
  PassphrasePath : string;
}.

Definition Option := FileSignerProvider → FileSignerProvider.
Definition WithKeyPath (keyPath : string) : Option := λ fsp,
  mkFSP keyPath (CertPath fsp) (IntermediatePaths fsp) (Passphrase fsp) (PassphrasePath fsp).
Definition WithCertPath (certPath : string) : Option := λ fsp,
  mkFSP (KeyPath fsp) certPath (IntermediatePaths fsp) (Passphrase fsp) (PassphrasePath fsp).
Definition WithIntermediatePaths (intermediatePaths : list string) : Option := λ fsp,
  mkFSP (KeyPath fsp) (CertPath fsp) intermediatePaths (Passphrase fsp) (PassphrasePath fsp).
Definition WithKeyPassphrase (pass : option string) : Option := λ fsp,
  mkFSP (KeyPath fsp) (CertPath fsp) (IntermediatePaths fsp) pass (PassphrasePath fsp).
Definition WithKeyPassphrasePath (path : string) : Option := λ fsp,
  mkFSP (KeyPath fsp) (CertPath fsp) (IntermediatePaths fsp) (Passphrase fsp) path.

Definition zero_FSP : FileSignerProvider := mkFSP "" "" [] None "".
Definition New (opts : list Option) : FileSignerProvider := foldl (λ fsp opt, opt fsp) zero_FSP opts.

(** The options of [init], for providers of the dynamic types [SP]: [project] is
    the assertion to [FileSignerProvider], [inject] the way back. A provider of
    another type is answered with the zero file provider next to the error. *)
Section options.
Context {SP : Type} (project : SP → option FileSignerProvider) (inject : FileSignerProvider → SP).

Definition fsp_setter {V} (opt : V → Option) (sp : SP) (v : V) : SP * option error :=
  match project sp with
  | None => (inject zero_FSP, Some (Errorf "provided signer provider is not a file signer provider"))
  | Some ksp => (inject (opt v ksp), None)
  end.

Definition file_options : list (Configurer SP) :=
  [ CString (NewConfigOption "key-path" "Path to the file containing the private key" "" (fsp_setter WithKeyPath));
    CStringPtr (NewConfigOption "key-passphrase" "Passphrase to decrypt the private key (prefer key-passphrase-path)."
      None (fsp_setter WithKeyPassphrase));
    CString (NewConfigOption "key-passphrase-path" "Path to a file containing the private key passphrase." ""
      (fsp_setter WithKeyPassphrasePath));
    CString (NewConfigOption "cert-path" "Path to the file containing the certificate for the private key" ""
      (fsp_setter WithCertPath));
    CStringSlice (NewConfigOption "intermediate-paths"
      "Paths to files containing intermediates required to establish trust of the signer's certificate to a root" []
      (fsp_setter WithIntermediatePaths)) ].
End options.

(** signer/registry.go: the registries are those of package registry. *)
Definition Register {SP : Type} (signerRegistry : Registry SP) (name : string) (factory : unit → SP)
    (opts : list (Configurer SP)) : Registry SP := (Registry.Register signerRegistry name factory opts).1.
Definition RegistryEntries `{RO : RangeOrder} {SP : Type} (signerRegistry : Registry SP) : list (Entry SP) :=
  AllEntries signerRegistry.
Definition NewSignerProvider {SP : Type} (zero : SP) (signerRegistry : Registry SP) (name : string)
    (opts : list (SP → SP * option error)) : SP * option error := NewEntity zero signerRegistry name opts.

Definition RegisterVerifier {VP : Type} (verifierRegistry : Registry VP) (name : string) (factory : unit → VP)
    (opts : list (Configurer VP)) : Registry VP := (Registry.Register verifierRegistry name factory opts).1.
Definition VerifierRegistryEntries `{RO : RangeOrder} {VP : Type} (verifierRegistry : Registry VP) : list (Entry VP) :=
  AllEntries verifierRegistry.
Definition NewVerifierProvider {VP : Type} (zero : VP) (verifierRegistry : Registry VP) (name : string)
    (opts : list (VP → VP * option error)) : VP * option error := NewEntity zero verifierRegistry name opts.

Definition is_newline (c : ascii) : bool := bool_decide (c = ascii_of_nat 13 ∨ c = ascii_of_nat 10).
(** [strings.TrimRight(s, "\r\n")] *)
Fixpoint TrimRight_newlines (s : string) : string :=
  match s with
  | "" => ""
  | String c s =>
      match TrimRight_newlines s with
      | "" => if is_newline c then "" else String c ""
      | t => String c t
      end
  end.
(** [strings.ContainsAny(s, "\r\n")] *)
Fixpoint ContainsAny_newlines (s : string) : bool :=
  match s with "" => false | String c s => is_newline c || ContainsAny_newlines s end.

Section signer.
Context `{CL : CryptoLib} `{PE : ProcessEnv} `{HF : HostFiles}.

Definition loadCert (path : string) : res Certificate :=
  certFile ← wrap "failed to load certificate" (host_Open path);
  match TryParseKeyFromReader certFile with
  | Err _ => Err (Errorf "failed to parse certificate")
  | Panic w => Panic w
  | Ok (PCert cert) => Ok cert
  | Ok (PKey _) => Err (Errorf (path +:+ " is not a x509 certificate"))
  end.

(** The passphrase: the explicit one, else the file's single line, else the
    environment's; [None] is the nil slice. *)
Definition read_passphrase (fsp : FileSignerProvider) : res (option bytes) :=
  match Passphrase fsp with
  | Some pass => Ok (Some pass)
  | None =>
      if bool_decide (PassphrasePath fsp ≠ "") then
        b ← wrap "failed to read key passphrase file" (host_ReadFile (PassphrasePath fsp));
        let s := TrimRight_newlines b in
        if ContainsAny_newlines s then Err (Errorf "passphrase file must contain a single line")
        else Ok (Some s)
      else Ok (LookupEnv "WITNESS_KEY_PASSPHRASE")
  end.

Definition Signer (fsp : FileSignerProvider) : res Keys.Signer :=
  keyFile ← wrap "failed to open key file" (host_Open (KeyPath fsp));
  pass ← read_passphrase fsp;
  key ← wrap "failed to load key" (TryParseKeyFromReaderWithPassword keyFile pass);
  leafOpts ← (if bool_decide (CertPath fsp ≠ "") then
                leaf ← wrap "failed to load certificate" (loadCert (CertPath fsp));
                Ok [SignWithCertificate (Some leaf)]
              else Ok []);
  intOpts ← (if bool_decide (0 < length (IntermediatePaths fsp)) then
               intermediates ← collect (λ path,
                 cert ← wrap "failed to load intermediate" (loadCert path); Ok [cert]) (IntermediatePaths fsp);
               Ok [SignWithIntermediates intermediates]
             else Ok []);
  NewSigner key (leafOpts ++ intOpts).
End signer.
End FileSigner.
