(* ===== verification/CertSigners.v ===== *)
(** Signer providers that are given a key with its certificate: signer/vault
    (signerprovider.go and request.go, Module Vault), which asks the PKI engine of
    HashiCorp Vault, and signer/spiffe/spiffe.go (Module Spiffe), which asks the
    workload API of SPIFFE. The encoders, and the workload API, are classes. *)
From S2P Require Import Prelude GoStrings GoText Errors Crypto Keys Registry Host Toy.
From stdpp Require Import options.

(** ** signer/vault *)

Record issueRequest := mkIssueRequest {
  req_CommonName : string;
  req_AltNames : list string;
  req_Ttl : Z;
  req_RemoveRootsFromChain : bool;
}.
Record issueResponseData := mkIssueData {
  Certificate_ : string;
  IssuingCa : string;
  CaChain : list string;
  PrivateKey_ : string;
  PrivateKeyType : string;
  SerialNumber : string;
}.
Record issueResponse := mkIssueResponse {
  LeaseID : string;
  Renewable : bool;
  LeaseDuration : Z;
  Warnings : list string;
  Data : issueResponseData;
}.
Class PkiLib := {
  url_JoinPath : string → list string → res string;
  json_Encode_request : issueRequest → res bytes;
  json_Unmarshal_response : bytes → res issueResponse;
}.

Module Vault.

Definition defaultPkiSecretsEnginePath : string := "pki".

(** A duration is a count of nanoseconds. [requestIssuer] is the provider's own
    request unless it was replaced. *)
Record VaultSignerProvider := mkProvider {
  requestIssuer : option (res issueResponse);
  url : string;
  pkiSecretsEnginePath : string;
  token : string;
  namespace : string;
  role : string;
  commonName : string;
  altNames : list string;
  ttl : Z;
}.
Definition Option := VaultSignerProvider → VaultSignerProvider.
Definition WithUrl (v : string) : Option := λ p,
  mkProvider (requestIssuer p) v (pkiSecretsEnginePath p) (token p) (namespace p) (role p) (commonName p) (altNames p) (ttl p).
Definition WithPkiSecretsEnginePath (v : string) : Option := λ p,
  mkProvider (requestIssuer p) (url p) v (token p) (namespace p) (role p) (commonName p) (altNames p) (ttl p).
Definition WithToken (v : string) : Option := λ p,
  mkProvider (requestIssuer p) (url p) (pkiSecretsEnginePath p) v (namespace p) (role p) (commonName p) (altNames p) (ttl p).
Definition WithNamespace (v : string) : Option := λ p,
  mkProvider (requestIssuer p) (url p) (pkiSecretsEnginePath p) (token p) v (role p) (commonName p) (altNames p) (ttl p).
Definition WithRole (v : string) : Option := λ p,
  mkProvider (requestIssuer p) (url p) (pkiSecretsEnginePath p) (token p) (namespace p) v (commonName p) (altNames p) (ttl p).
Definition WithCommonName (v : string) : Option := λ p,
  mkProvider (requestIssuer p) (url p) (pkiSecretsEnginePath p) (token p) (namespace p) (role p) v (altNames p) (ttl p).
Definition WithAltNames (v : list string) : Option := λ p,
  mkProvider (requestIssuer p) (url p) (pkiSecretsEnginePath p) (token p) (namespace p) (role p) (commonName p) v (ttl p).
Definition WithTtl (v : Z) : Option := λ p,
  mkProvider (requestIssuer p) (url p) (pkiSecretsEnginePath p) (token p) (namespace p) (role p) (commonName p) (altNames p) v.
Definition New (opts : list Option) : VaultSignerProvider :=
  foldl (λ p opt, opt p) (mkProvider None "" "" "" "" "" "" [] 0) opts.

(** The options that [init] registers, for providers of the dynamic types [P]. *)
Section options_.
Context {P : Type} (project : P → option VaultSignerProvider) (inject : VaultSignerProvider → P).
Definition setter {V} (opt : V → Option) (p : P) (v : V) : P * option error :=
  match project p with
  | None => (p, Some (Errorf "provided signer provider is not a vault signer provider"))
  | Some vsp => (inject (opt v vsp), None)
  end.
Definition vault_options : list (Configurer P) :=
  [ CString (NewConfigOption "url" "Base url of the Vault instance to connect to" "" (setter WithUrl));
    CString (NewConfigOption "pki-secrets-engine-path" "Path to the Vault PKI Secrets Engine to use"
      defaultPkiSecretsEnginePath (setter WithPkiSecretsEnginePath));
    CString (NewConfigOption "token" "Token to use to connect to Vault" "" (setter WithToken));
    CString (NewConfigOption "namespace" "Vault namespace to use" "" (setter WithNamespace));
    CString (NewConfigOption "role" "Name of the Vault role to generate the certificate for" "" (setter WithRole));
    CString (NewConfigOption "commonname"
      "Common name to use for the generated certificate. Must be allowed by the vault role policy" "" (setter WithCommonName));
    CStringSlice (NewConfigOption "altnames"
      "Alt names to use for the generated certificate. All alt names must be allowed by the vault role policy" []
      (setter WithAltNames));
    CDuration (NewConfigOption "ttl"
      "Time to live for the generated certificate. Defaults to the vault role policy's configured TTL if not provided"
      0%Z (setter WithTtl)) ].
End options_.

Section vault.
Context `{CL : CryptoLib} `{HL : HttpLib} `{UL : UrlLib} `{PL : PkiLib}.

(** The request; it is sent once. *)
Definition issue_headers (p : VaultSignerProvider) : list (string * string) :=
  ("X-Vault-Token", token p) :: (if bool_decide (namespace p = "") then [] else [("X-Vault-Namespace", namespace p)]).
Definition requestCertificate (p : VaultSignerProvider) : res issueResponse :=
  url ← url_JoinPath (url p) ["v1"; pkiSecretsEnginePath p; "issue"; role p];
  buf ← json_Encode_request (mkIssueRequest (commonName p) (altNames p) (ttl p) true);
  req ← NewRequest "POST" url (issue_headers p) buf;
  resp ← http_Do false 0 req;
  respBytes ← Body resp;
  if bool_decide (StatusCode resp ≠ StatusOK) then Err (Errorf ("failed to issue new certificate: " +:+ respBytes))
  else json_Unmarshal_response respBytes.

(** The certificates of the chain, in its order. *)
Definition add_intermediate (acc : list Certificate) (i : string) : res (list Certificate) :=
  c ← wrap "could not parse intermediate certificate from response" (TryParseCertificate i);
  Ok (acc ++ [c]).
Definition Signer (p : VaultSignerProvider) : res Signer :=
  if bool_decide (url p = "") then Err (Errorf "url is a required option")
  else if bool_decide (token p = "") then Err (Errorf "token is a required option")
  else if bool_decide (role p = "") then Err (Errorf "role is a required option")
  else
    resp ← wrap "failed to issue certificate" (match requestIssuer p with Some r => r | None => requestCertificate p end);
    cert ← wrap "could not parse certificate from response" (TryParseCertificate (Certificate_ (Data resp)));
    intermediates ← range_res add_intermediate [] (CaChain (Data resp));
    NewSignerFromReader (Ok (PrivateKey_ (Data resp))) [SignWithCertificate (Some cert); SignWithIntermediates intermediates].
End vault.
End Vault.

(** ** signer/spiffe *)

(** The default SVID of the context that the workload API gives: its certificates
    and its private key, if there is one. *)
Class WorkloadApi `{CL : CryptoLib} :=
  FetchX509Context : string → res (list Certificate * option (parsedOf AnyKey Certificate)).

Module Spiffe.
Record SpiffeSignerProvider := mkProvider { SocketPath : string }.
Definition Option := SpiffeSignerProvider → SpiffeSignerProvider.
Definition WithSocketPath (socketPath : string) : Option := λ _, mkProvider socketPath.
Definition New (opts : list Option) : SpiffeSignerProvider := foldl (λ p opt, opt p) (mkProvider "") opts.
(** A provider is a value: the setter returns a changed copy. *)
Definition spiffe_options {P} (project : P → option SpiffeSignerProvider) (inject : SpiffeSignerProvider → P) : list (Configurer P) :=
  [ CString (NewConfigOption "socket-path" "Path to the SPIFFE Workload API Socket" ""
      (λ p v, match project p with
              | None => (p, Some (Errorf "provided signer provider is not a spiffe signer provider"))
              | Some ssp => (inject (WithSocketPath v ssp), None)
              end)) ].
Definition ErrInvalidSVID (e : string) : error := Errorf ("invalid svid: " +:+ e).

Definition Signer `{CL : CryptoLib} `{WA : !WorkloadApi} (p : SpiffeSignerProvider) : res Signer :=
  if bool_decide (SocketPath p = "") then Err (Errorf "socker path cannot be empty")
  else
    svid ← FetchX509Context (SocketPath p);
    match svid with
    | ([], _) => Err (ErrInvalidSVID "no certificates")
    | (_, None) => Err (ErrInvalidSVID "no private key")
    | (cert :: certs, Some key) => NewSigner key [SignWithIntermediates certs; SignWithCertificate (Some cert)]
    end.
End Spiffe.

(** ** Theorems *)
Section theorems.
Context `{CL : CryptoLib}.

(** A signer that is made of a key and a certificate: the key's own signer inside of
    one that has the certificate. *)
Lemma NewSigner_with_certificate key opts s cert ints :
  foldl (λ o opt, opt o) (mkSignerOptions None [] [] SHA256) opts = mkSignerOptions (Some cert) ints [] SHA256 →
  NewSigner key opts = Ok s → ∃ inner, key_signer inner = true ∧ s = X509Signer cert [] ints inner ∧
    NewSigner key [] = Ok inner.
Proof.
  unfold NewSigner. intros -> Hs. apply res_bind_ok in Hs as (inner & Hi & Hs). cbn in Hs. injection Hs as <-.
  exists inner. cbn in Hi |- *. split; [|split; [done|by rw Hi]].
  destruct key as [[]|]; try done; by injection Hi as <-.
Qed.

Section vault.
Context `{HL : HttpLib} `{UL : UrlLib} `{PL : PkiLib}.
Import Vault.

Lemma add_intermediates_ok acc chain ints : range_res add_intermediate acc chain = Ok ints →
  ∃ new, ints = acc ++ new ∧ Forall2 (λ i c, TryParseCertificate i = Ok c) chain new.
Proof.
  revert acc. induction chain as [|i chain IH]; intros acc; cbn [range_res].
  { intros [= <-]. exists []. by rw right_id_L. }
  intros (acc1 & H1 & (new & -> & Hnew)%IH)%res_bind_ok. unfold add_intermediate in H1.
  apply res_bind_ok in H1 as (c & Hc%wrap_ok & [= <-]). exists (c :: new). rw -assoc_L. split; [done|by constructor].
Qed.

(** A signer of the Vault provider has the key, the certificate and the chain of
    one answer of the PKI engine, which was asked with the token, at the role of the
    provider, for the names it was given; without an address, a token or a role
    nothing is asked. *)
Theorem Vault_Signer_sound p s : requestIssuer p = None → Vault.Signer p = Ok s →
  url p ≠ "" ∧ token p ≠ "" ∧ role p ≠ "" ∧
  ∃ u body answer resp cert ints key inner,
    url_JoinPath (url p) ["v1"; pkiSecretsEnginePath p; "issue"; role p] = Ok u ∧
    json_Encode_request (mkIssueRequest (commonName p) (altNames p) (ttl p) true) = Ok body ∧
    http_Do false 0 (mkRequest "POST" u (issue_headers p) body) = Ok answer ∧ StatusCode answer = StatusOK ∧
    (b ← Body answer; json_Unmarshal_response b) = Ok resp ∧
    TryParseCertificate (Certificate_ (Data resp)) = Ok cert ∧
    Forall2 (λ i c, TryParseCertificate i = Ok c) (CaChain (Data resp)) ints ∧
    TryParseKeyFromReader (Ok (PrivateKey_ (Data resp))) = Ok key ∧ NewSigner key [] = Ok inner ∧ key_signer inner = true ∧
    s = X509Signer cert [] ints inner.
Proof.
  intros Hown. unfold Vault.Signer. rw Hown. do 3 (case_bool_decide; [done|]). intros Hs.
  apply res_bind_ok in Hs as (resp & Hreq%wrap_ok & Hs). apply res_bind_ok in Hs as (cert & Hcert%wrap_ok & Hs).
  apply res_bind_ok in Hs as (ints & Hints & Hs). apply add_intermediates_ok in Hints as (new & -> & Hnew).
  apply res_bind_ok in Hs as (key & Hkey & Hs).
  apply (NewSigner_with_certificate _ _ _ cert new) in Hs as (inner & Hi & -> & Hn); [|done].
  unfold requestCertificate in Hreq. apply res_bind_ok in Hreq as (u & Hu & Hreq). apply res_bind_ok in Hreq as (body & Hb & Hreq).
  apply res_bind_ok in Hreq as (req & Hr & Hreq). apply res_bind_ok in Hreq as (answer & Ha & Hreq).
  apply res_bind_ok in Hreq as (bts & Hbytes & Hreq). case_bool_decide as Hstatus; [done|].
  unfold NewRequest in Hr. apply res_bind_ok in Hr as (? & _ & [= <-]).
  do 3 (split; [done|]). exists u, body, answer, resp, cert, new, key, inner.
  split_and!; try done; by first [rw Hbytes|destruct (decide (StatusCode answer = StatusOK))].
Qed.
End vault.

(** The signer of the SPIFFE provider has the first certificate of the SVID, with the
    other ones as intermediates, and its key. *)
Theorem Spiffe_Signer_sound `{WA : !WorkloadApi} p s : Spiffe.Signer p = Ok s →
  ∃ cert certs key inner, Spiffe.SocketPath p ≠ "" ∧ FetchX509Context (Spiffe.SocketPath p) = Ok (cert :: certs, Some key) ∧
    NewSigner key [] = Ok inner ∧ key_signer inner = true ∧ s = X509Signer cert [] certs inner.
Proof.
  unfold Spiffe.Signer. case_bool_decide as Hp; [done|]. intros Hs. apply res_bind_ok in Hs as ([[|cert certs] [key|]] & Hf & Hs); try done.
  apply (NewSigner_with_certificate _ _ _ cert certs) in Hs as (inner & Hi & -> & Hn); [|done].
  by exists cert, certs, key, inner.
Qed.
End theorems.

(** ** Examples *)

(** An engine that answers with the certificate of alice and the key of bob. *)
Definition toy_answer : issueResponse :=
  mkIssueResponse "" false 0 [] (mkIssueData "CERTIFICATE|alice;root" "" ["CERTIFICATE|mid;root"] "KEY|rsapriv|bob" "rsa" "1").
#[local] Instance toy_pki : PkiLib :=
  {| url_JoinPath u l := Ok (Join (u :: l) "/"); json_Encode_request r := Ok (req_CommonName r);
     json_Unmarshal_response b := Ok toy_answer |}.
#[local] Instance toy_url : UrlLib :=
  {| URL := string; url_Parse u := Ok u; url_String u := u; url_Scheme u := ""; url_Host u := ""; url_Hostname u := "";
     url_Port u := ""; url_no_User u := u; Query_Get u k := ""; Query_Add u k v := u |}.
#[local] Instance toy_http : HttpLib := λ _ _ req,
  if bool_decide (req_URL req = "https://vault/v1/pki/issue/ci") then Ok (mkResponse 200 "200 OK" (Ok "{}"))
  else Err (External "not found").
Definition toy_provider : Vault.VaultSignerProvider :=
  Vault.New [Vault.WithUrl "https://vault"; Vault.WithPkiSecretsEnginePath "pki"; Vault.WithToken "t"; Vault.WithRole "ci"].
Definition toy_pki_signer : Signer (CL:=toy_crypto) :=
  X509Signer (toy_certificate "alice;root") [] [toy_certificate "mid;root"] (RSASigner "bob" SHA256).

(** The certificate is not compared with the key. *)
Lemma Vault_Signer_sound_witness :
  Vault.Signer (CL:=toy_crypto) toy_provider = Ok toy_pki_signer ∧
  ∃ answer resp cert, http_Do false 0 (mkRequest "POST" "https://vault/v1/pki/issue/ci" [("X-Vault-Token", "t")] "") = Ok answer ∧
    TryParseCertificate (CL:=toy_crypto) (Certificate_ (Data resp)) = Ok cert.
Proof.
  assert (Vault.Signer (CL:=toy_crypto) toy_provider = Ok toy_pki_signer) as Hs by (vm_compute; reflexivity).
  split; [exact Hs|].
  destruct (Vault_Signer_sound (CL:=toy_crypto) toy_provider toy_pki_signer eq_refl Hs)
    as (_ & _ & _ & u & body & answer & resp & cert & ints & key & inner & Hu & Hb & Ha & _ & _ & Hc & _).
  injection Hu as <-. injection Hb as <-. exists answer, resp, cert. split; [exact Ha|exact Hc].
Defined.
