(* ===== verification/Intoto.v ===== *)
(** intoto: in-toto statements (statement.go). *)
From S2P Require Import Prelude GoStrings Crypto Digest.
From stdpp Require Import options.

Definition StatementType : string := "https://in-toto.io/Statement/v0.1".
Definition IntotoPayloadType : string := "application/vnd.in-toto+json".

Record Subject := mkSubject { subj_Name : string; subj_Digest : gmap string string }.

Record Statement := mkStatement {
  stmt_Type : string;
  stmt_Subject : list Subject;
  stmt_PredicateType : string;
  stmt_Predicate : bytes;
}.

Section intoto.
Context `{RO : RangeOrder}.

Definition DigestSetToSubject (name : string) (ds : DigestSet) : res Subject :=
  digestsByName ← ToNameMap ds;
  Ok (mkSubject name digestsByName).

Definition NewStatement (predicateType : string) (predicate : bytes)
    (subjects : gmap string DigestSet) : res Statement :=
  subjs ← collect (λ kv, subj ← DigestSetToSubject kv.1 kv.2; Ok [subj]) (range_map 0 subjects);
  Ok (mkStatement StatementType subjs predicateType predicate).

(** ** Lemmas *)

Definition supported_subjects (subjects : gmap string DigestSet) : Prop :=
  ∀ name ds, subjects !! name = Some ds → supported ds.

(** What a subject stands for: a name and the digest set its digests parse to. *)
Definition subject_of (subjects : gmap string DigestSet) (s : Subject) : Prop :=
  ∃ ds, subjects !! subj_Name s = Some ds ∧ NewDigestSet (subj_Digest s) = Ok ds.

Lemma DigestSetToSubject_supported name ds :
  supported ds → ∃ s, DigestSetToSubject name ds = Ok s ∧ subj_Name s = name ∧
    NewDigestSet (subj_Digest s) = Ok ds.
Proof.
  intros Hs. destruct (ToNameMap_supported ds Hs) as (m & Hm & _). unfold DigestSetToSubject. rw Hm.
  eexists. split; [done|]. split; [done|]. by apply (digest_names_roundtrip ds).
Qed.

(** The names come out in the order of the range, each once. *)
Lemma collect_subjects_names l subjs :
  collect (λ kv, subj ← DigestSetToSubject kv.1 kv.2; Ok [subj]) l = Ok subjs →
  subj_Name <$> subjs = l.*1.
Proof.
  revert subjs; induction l as [|[name ds] l IH]; intros subjs; cbn [collect].
  { intros. by simplify_eq. }
  intros (ys & Hy & (zs & Hzs & H)%res_bind_ok)%res_bind_ok. simplify_eq.
  apply res_bind_ok in Hy as (s & Hs & ?). simplify_eq. unfold DigestSetToSubject in Hs.
  res_inv. cbn. by rw (IH _ Hzs).
Qed.

Lemma NewStatement_supported pt p subjects :
  supported_subjects subjects →
  ∃ subjs, NewStatement pt p subjects = Ok (mkStatement StatementType subjs pt p) ∧
    NoDup (subj_Name <$> subjs) ∧
    (∀ name, name ∈ subj_Name <$> subjs ↔ is_Some (subjects !! name)) ∧
    (∀ s, s ∈ subjs → subject_of subjects s).
Proof.
  intros Hsup. destruct (collect_total (λ kv : string * DigestSet, subj ← DigestSetToSubject kv.1 kv.2; Ok [subj])
    (range_map 0 subjects)) as [subjs Hsubjs].
  { intros [name ds] Hin%elem_of_range. destruct (DigestSetToSubject_supported name ds) as (s & Hs & _);
      [by eapply Hsup|]. exists [s]. by rw /= Hs. }
  exists subjs. unfold NewStatement. rw Hsubjs. split; [done|].
  rw (collect_subjects_names _ _ Hsubjs). split; [apply NoDup_fst_range|]. split.
  - intros name. rw list_elem_of_fmap. split.
    + intros ([? ds] & -> & Hin%elem_of_range). by eexists.
    + intros [ds Hds]. exists (name, ds). split; [done|]. by apply elem_of_range.
  - intros s Hs. apply (collect_elem _ _ _ s Hsubjs) in Hs as ([name ds] & ys & Hin%elem_of_range & Hys & Hs).
    destruct (DigestSetToSubject_supported name ds) as (s' & Hs' & Hn & Hd); [by eapply Hsup|].
    rw /= Hs' /= in Hys. simplify_eq. apply list_elem_of_singleton in Hs as ->.
    by exists ds.
Qed.

Lemma ToNameMap_ok_supported (ds : DigestSet) m : ToNameMap ds = Ok m → supported ds.
Proof.
  intros Hm dv Hdv. destruct (hashNames !! dv) as [n|] eqn:Hn; [by eexists|].
  destruct (ToNameMap_unsupported ds dv Hdv Hn) as (? & ? & _). congruence.
Qed.

(** Every digest of a subject is a digest of the statement, and nothing else is. *)
Lemma NewStatement_digests pt p subjects stmt :
  NewStatement pt p subjects = Ok stmt →
  stmt_PredicateType stmt = pt ∧ stmt_Predicate stmt = p ∧ stmt_Type stmt = StatementType ∧
  ∀ name ds dv d, subjects !! name = Some ds → ds !! dv = Some d →
    ∃ sub n, sub ∈ stmt_Subject stmt ∧ subj_Digest sub !! n = Some d.
Proof.
  intros (subjs & Hs & [= <-])%res_bind_ok. do 3 (split; [done|]). intros name ds dv d Hn Hd.
  apply (elem_of_range 0) in Hn. destruct (collect_ok _ _ _ _ Hs Hn) as (ys & Hys & Hin).
  apply res_bind_ok in Hys as (sub & Hsub & [= <-]). exists sub.
  unfold DigestSetToSubject in Hsub. apply res_bind_ok in Hsub as (m & Hm & [= <-]). cbn [fst snd] in Hm.
  pose proof (ToNameMap_ok_supported _ _ Hm) as Hsup.
  destruct (Hsup dv) as [h Hh]; [by eexists|]. exists h. split; [apply Hin; left|]. cbn [subj_Digest].
  destruct (ToNameMap_supported ds Hsup) as (m' & Hm' & Hl). rw Hm in Hm'. injection Hm' as ->.
  apply Hl. by exists dv.
Qed.

Lemma ToNameMap_cases (ds : DigestSet) :
  (∃ m, ToNameMap ds = Ok m) ∨ (∃ h, ToNameMap ds = Err (ErrUnsupportedHash h)).
Proof.
  unfold ToNameMap. generalize (∅ : gmap string string).
  induction (range_map 0 ds) as [|[k v] l IH]; intros acc; simpl; [left; by eexists|].
  destruct (hashNames !! k); simpl; [apply IH|right; by eexists].
Qed.

Lemma DigestSetToSubject_cases name (ds : DigestSet) :
  (∃ s, DigestSetToSubject name ds = Ok s) ∨ (∃ h, DigestSetToSubject name ds = Err (ErrUnsupportedHash h)).
Proof.
  unfold DigestSetToSubject. destruct (ToNameMap_cases ds) as [[m ->]|[h ->]]; [left|right]; by eexists.
Qed.

Lemma NewStatement_unsupported pt p subjects name ds dv :
  subjects !! name = Some ds → is_Some (ds !! dv) → hashNames !! dv = None →
  ∃ h, NewStatement pt p subjects = Err (ErrUnsupportedHash h).
Proof.
  intros Hs Hd Hn. unfold NewStatement. apply (elem_of_range 0) in Hs.
  cut (∃ h, collect (λ kv : string * DigestSet, subj ← DigestSetToSubject kv.1 kv.2; Ok [subj])
    (range_map 0 subjects) = Err (ErrUnsupportedHash h)).
  { intros [h ->]. by eexists. }
  induction (range_map 0 subjects) as [|[n' d'] l IH]; [by apply not_elem_of_nil in Hs|].
  cbn [collect fst snd].
  destruct (DigestSetToSubject_cases n' d') as [[m Hm]|[h Hh]]; [|rw Hh; by eexists].
  rw Hm. cbn [mbind res_bind].
  apply elem_of_cons in Hs as [?|Hs]; [|destruct (IH Hs) as [h ->]; by eexists].
  simplify_eq. destruct (ToNameMap_unsupported d' dv) as (? & Hu & _); [done..|].
  unfold DigestSetToSubject in Hm. by rw Hu in Hm.
Qed.
End intoto.

(** The JSON encoding of statements (encoding/json over the struct's tags). *)
Class StatementJson := {
  json_Marshal_Statement : Statement → res bytes;
  json_Unmarshal_Statement : bytes → res Statement;
}.
