(* ===== verification/Attestation.v ===== *)
(** attestation: the attestor interfaces and the factory (factory.go), and
    collections (collection.go).

    The dynamic types behind the [Attestor] interface are the type [A]; the
    class [AttestorOps] states the methods and, for the optional interfaces,
    [Some] of the method's result when the dynamic type implements them. *)
From S2P Require Import Prelude GoStrings Crypto Digest Registry.
From stdpp Require Import options.

Record Product := mkProduct { prod_MimeType : string; prod_Digest : DigestSet }.

Class AttestorOps (A : Type) := {
  Attestor_Name : A → string;
  Attestor_Type : A → string;
  Attestor_RunType : A → string;
  Subjecter_Subjects : A → option (gmap string DigestSet);
  Materialer_Materials : A → option (gmap string DigestSet);
  Producer_Products : A → option (gmap string Product);
  BackReffer_BackRefs : A → option (gmap string DigestSet);
  Exporter_Export : A → option bool;
  MultiExporter_ExportedAttestations : A → option (list A);
  Experimental_IsExperimental : A → option bool;
  (* encoding/json on the dynamic type; decoding into a variable of the
     interface type leaves nil when the text is the JSON null *)
  json_Marshal_Attestor : A → res bytes;
  json_Unmarshal_Attestor : bytes → A → res (option A);
}.

(** [x, ok := attestor.(Iface)] on an attestor that can be nil. *)
Definition type_assert {A M} (f : A → option M) (attestor : option A) : option M :=
  match attestor with Some a => f a | None => None end.

(** * factory.go *)

(** The package's variables: the registry and the two indexes. *)
Record factory_state (A : Type) := mkFactoryState {
  attestorRegistry : Registry A;
  attestationsByType : gmap string (Entry A);
  attestationsByRun : gmap string (Entry A);
}.
Arguments mkFactoryState {A}.
Arguments attestorRegistry {A}.
Arguments attestationsByType {A}.
Arguments attestationsByRun {A}.

Section factory.
Context {A : Type} `{AO : AttestorOps A}.
Implicit Types fs : factory_state A.

Definition factory_init : factory_state A := mkFactoryState Registry_New ∅ ∅.

Definition RegisterAttestation fs (name predicateType run : string) (factoryFunc : unit → A)
    (opts : list (Configurer A)) : factory_state A :=
  let (reg, registrationEntry) := Register (attestorRegistry fs) name factoryFunc opts in
  mkFactoryState reg (<[predicateType:=registrationEntry]> (attestationsByType fs))
    (<[run:=registrationEntry]> (attestationsByRun fs)).

Definition RegisterAttestationWithTypes fs (name : string) (predicateTypes : list string)
    (run : string) (factoryFunc : unit → A) (opts : list (Configurer A)) : factory_state A :=
  let (reg, registrationEntry) := Register (attestorRegistry fs) name factoryFunc opts in
  mkFactoryState reg
    (foldl (λ m predicateType, <[predicateType:=registrationEntry]> m) (attestationsByType fs) predicateTypes)
    (<[run:=registrationEntry]> (attestationsByRun fs)).

(** The factory function, when the entry exists. *)
Definition FactoryByType fs (uri : string) : option (unit → A) :=
  Entry_Factory <$> attestationsByType fs !! uri.
Definition FactoryByName fs (name : string) : option (unit → A) :=
  Entry_Factory <$> Registry_Entry (attestorRegistry fs) name.

(** The options of the entry of that name, else of that type; of the zero entry
    when there is neither. *)
Definition AttestorOptions fs (nameOrType : string) : list (Configurer A) :=
  match Registry_Entry (attestorRegistry fs) nameOrType with
  | Some entry => Entry_Options entry
  | None => match attestationsByType fs !! nameOrType with
            | Some entry => Entry_Options entry
            | None => []
            end
  end.

(** The loop body of [GetAttestors]. *)
Definition get_attestor fs (nameOrType : string) : res A :=
  match (match FactoryByName fs nameOrType with
         | Some factory => Some factory
         | None => FactoryByType fs nameOrType
         end) with
  | None => Err (ErrAttestorNotFound nameOrType)
  | Some factory =>
      match SetDefaultVals (factory ()) (AttestorOptions fs nameOrType) with
      | (_, Some e) => Err e
      | (attestor, None) => Ok attestor
      end
  end.
Definition GetAttestors fs (nameOrTypes : list string) : res (list A) :=
  collect (λ nameOrType, attestor ← get_attestor fs nameOrType; Ok [attestor]) nameOrTypes.

Definition GetAttestor fs (nameOrType : string) : res A :=
  attestors ← GetAttestors fs [nameOrType];
  match attestors with
  | [] => Err (ErrAttestorNotFound nameOrType)
  | attestor :: _ => Ok attestor
  end.

Definition RegistrationEntries `{RO : RangeOrder} fs : list (Entry A) :=
  AllEntries (attestorRegistry fs).

Definition IsExperimental (attestor : A) : bool :=
  default false (Experimental_IsExperimental attestor).

(** ** Lemmas *)

Lemma GetAttestor_get fs n : GetAttestor fs n = get_attestor fs n.
Proof. unfold GetAttestor, GetAttestors. simpl. by destruct (get_attestor fs n). Qed.

Lemma GetAttestors_Forall2 fs ns atts :
  GetAttestors fs ns = Ok atts → Forall2 (λ n a, get_attestor fs n = Ok a) ns atts.
Proof.
  unfold GetAttestors. revert atts; induction ns as [|n ns IH]; intros atts; cbn [collect].
  { intros [= <-]. constructor. }
  intros (ys & Hys & (zs & Hzs & H)%res_bind_ok)%res_bind_ok. simplify_eq.
  apply res_bind_ok in Hys as (a & Ha & ?). simplify_eq. constructor; [done|]. by apply IH.
Qed.

(** Registration under a list of types: every type of the list leads to the new
    entry, every other type where it led before. *)
Lemma foldl_insert_same `{Countable K} {V} (v : V) (ks : list K) (m : gmap K V) k :
  foldl (λ m k, <[k:=v]> m) m ks !! k = if decide (k ∈ ks) then Some v else m !! k.
Proof.
  revert m; induction ks as [|k' ks IH]; intros m; cbn [foldl].
  { by destruct (decide (k ∈ [])) as [?%not_elem_of_nil|]. }
  rw IH. destruct (decide (k ∈ ks)) as [Hin|Hnin].
  - rw decide_True //. apply elem_of_cons. by right.
  - destruct (decide (k = k')) as [->|Hne].
    + rw lookup_insert_eq decide_True //. by left.
    + rw lookup_insert_ne // decide_False //. by rw elem_of_cons; intros [?|?].
Qed.

Lemma RegisterAttestationWithTypes_FactoryByType fs name types run f opts uri :
  FactoryByType (RegisterAttestationWithTypes fs name types run f opts) uri =
  if decide (uri ∈ types) then Some f else FactoryByType fs uri.
Proof. unfold FactoryByType. simpl. rw foldl_insert_same. by destruct (decide _). Qed.

Lemma RegisterAttestation_types fs name t run f opts :
  RegisterAttestation fs name t run f opts = RegisterAttestationWithTypes fs name [t] run f opts.
Proof. done. Qed.

(** A registered name is found by its name whatever the types say, and the
    attestor is the factory's with the registered defaults. *)
Lemma get_attestor_registered fs name types run f opts n :
  n = name ∨ (n ∈ types ∧ Registry_Entry (attestorRegistry fs) n = None) →
  get_attestor (RegisterAttestationWithTypes fs name types run f opts) n =
  match SetDefaultVals (f ()) opts with (_, Some e) => Err e | (a, None) => Ok a end.
Proof.
  intros Hn. unfold get_attestor, AttestorOptions, FactoryByName.
  destruct (decide (name = n)) as [<-|Hne].
  { cbn. unfold Registry_Entry. by rw lookup_insert_eq. }
  destruct Hn as [?|[Hin Hnone]]; [congruence|]. rw RegisterAttestationWithTypes_FactoryByType decide_True //.
  simpl. unfold Registry_Entry in *. rw lookup_insert_ne // Hnone /= foldl_insert_same decide_True //.
Qed.
End factory.

(** * collection.go *)

Definition CollectionType : string := "https://witness.testifysec.com/attestation-collection/v0.1".

(** A completed attestor (context.go); a nil [Error] is [None]. *)
Record CompletedAttestor (A : Type) := mkCompletedAttestor {
  comp_Attestor : A;
  comp_StartTime : Time;
  comp_EndTime : Time;
  comp_Error : option error;
}.
Arguments mkCompletedAttestor {A}.
Arguments comp_Attestor {A}.
Arguments comp_StartTime {A}.
Arguments comp_EndTime {A}.
Arguments comp_Error {A}.

(** The attestor of an entry can be nil, [None]: see [UnmarshalJSON] below. *)
Record CollectionAttestation (A : Type) := mkCollectionAttestation {
  ca_Type : string;
  ca_Attestation : option A;
  ca_StartTime : Time;
  ca_EndTime : Time;
}.
Arguments mkCollectionAttestation {A}.
Arguments ca_Type {A}.
Arguments ca_Attestation {A}.
Arguments ca_StartTime {A}.
Arguments ca_EndTime {A}.

Record Collection (A : Type) := mkCollection {
  coll_Name : string;
  coll_Attestations : list (CollectionAttestation A);
}.
Arguments mkCollection {A}.
Arguments coll_Name {A}.
Arguments coll_Attestations {A}.

(** [for k, v := range src { dst[k] = g(v) }] *)
Definition copy_into `{RO : RangeOrder} {V W} (site : nat) (g : string → string) (h : V → W)
    (dst : gmap string W) (src : gmap string V) : gmap string W :=
  foldl (λ acc kv, <[g kv.1:=h kv.2]> acc) dst (range_map site src).

Section collection.
Context `{RO : RangeOrder} {A : Type} `{AO : AttestorOps A}.

Definition NewCollectionAttestation (completed : CompletedAttestor A) : CollectionAttestation A :=
  mkCollectionAttestation (Attestor_Type (comp_Attestor completed)) (Some (comp_Attestor completed))
    (comp_StartTime completed) (comp_EndTime completed).

Definition NewCollection (name : string) (attestors : list (CompletedAttestor A)) : Collection A :=
  mkCollection name (NewCollectionAttestation <$> attestors).

(** The struct [UnmarshalJSON] decodes first. *)
Record proposedAttestation := mkProposed {
  proposed_Type : string;
  proposed_Attestation : bytes;
  proposed_StartTime : Time;
  proposed_EndTime : Time;
}.

(** [CollectionAttestation.UnmarshalJSON], over the decoding of that struct. *)
Definition CollectionAttestation_UnmarshalJSON (json_Unmarshal : bytes → res proposedAttestation)
    (fs : factory_state A) (data : bytes) : res (CollectionAttestation A) :=
  proposed ← json_Unmarshal data;
  match FactoryByType fs (proposed_Type proposed) with
  | None => Err (ErrAttestationNotFound (proposed_Type proposed))
  | Some factory =>
      newAttest ← json_Unmarshal_Attestor (proposed_Attestation proposed) (factory ());
      Ok (mkCollectionAttestation (proposed_Type proposed) newAttest
            (proposed_StartTime proposed) (proposed_EndTime proposed))
  end.

(** [fmt.Sprintf("%v/%v", typ, subject)] *)
Definition prefixed (typ subject : string) : string := typ +:+ "/" +:+ subject.

Definition Collection_Subjects (c : Collection A) : gmap string DigestSet :=
  foldl (λ allSubjects ca,
    match type_assert Subjecter_Subjects (ca_Attestation ca) with
    | None => allSubjects
    | Some subjects => copy_into 0 (prefixed (ca_Type ca)) id allSubjects subjects
    end) ∅ (coll_Attestations c).

Definition Collection_BackRefs (c : Collection A) : gmap string DigestSet :=
  foldl (λ backRefs ca,
    match type_assert BackReffer_BackRefs (ca_Attestation ca) with
    | None => backRefs
    | Some refs => copy_into 0 (prefixed (ca_Type ca)) id backRefs refs
    end) ∅ (coll_Attestations c).

Definition Collection_Materials (c : Collection A) : gmap string DigestSet :=
  foldl (λ materials ca,
    match type_assert Materialer_Materials (ca_Attestation ca) with
    | None => materials
    | Some mats => copy_into 0 id id materials mats
    end) ∅ (coll_Attestations c).

(** The two maps [Artifacts] fills in its loop: materials and products. *)
Definition artifact_step (acc : gmap string DigestSet * gmap string DigestSet)
    (ca : CollectionAttestation A) : gmap string DigestSet * gmap string DigestSet :=
  let allMaterials := match type_assert Materialer_Materials (ca_Attestation ca) with
                      | None => acc.1
                      | Some mats => copy_into 0 id id acc.1 mats
                      end in
  let allProducts := match type_assert Producer_Products (ca_Attestation ca) with
                     | None => acc.2
                     | Some prods => copy_into 0 id prod_Digest acc.2 prods
                     end in
  (allMaterials, allProducts).
Definition Collection_Artifacts (c : Collection A) : gmap string DigestSet :=
  let acc := foldl artifact_step (∅, ∅) (coll_Attestations c) in
  copy_into 1 id id acc.1 acc.2.

(** ** Copying maps *)

Lemma copy_into_id {V W} site (h : V → W) (dst : gmap string W) (src : gmap string V) :
  copy_into site id h dst src = (h <$> src) ∪ dst.
Proof.
  apply map_eq. intros k. unfold copy_into.
  rw (foldl_insert_lookup (λ _, h)); [|apply NoDup_fst_range].
  rw lookup_union lookup_fmap.
  assert (list_to_map (M:=gmap string V) (range_map site src) !! k = src !! k) as ->.
  { rw -{2}(list_to_map_to_list src). f_equal. apply list_to_map_proper; [apply NoDup_fst_range|apply range_map_perm]. }
  destruct (src !! k); simpl; by [rw union_Some_l|rw left_id].
Qed.

Lemma copy_into_inj {V W} site (g : string → string) (h : V → W) `{!Inj (=) (=) g}
    (dst : gmap string W) (src : gmap string V) :
  copy_into site g h dst src = (h <$> kmap g src) ∪ dst.
Proof.
  apply map_eq. intros k. unfold copy_into.
  assert (Hl : ∀ (l : list (string * V)) (m : gmap string W), NoDup l.*1 →
    foldl (λ acc kv, <[g kv.1:=h kv.2]> acc) m l = foldl (λ acc kv, <[kv.1:=h kv.2]> acc) m (prod_map g id <$> l)).
  { induction l as [|[k' v] l IH]; intros m Hnd; [done|]. simpl. inversion Hnd; subst. by apply IH. }
  assert (NoDup (prod_map g id <$> range_map site src).*1) as Hnd.
  { rw -list_fmap_compose (list_fmap_compose fst g). apply NoDup_fmap_2; [done|apply NoDup_fst_range]. }
  rw Hl; [|apply NoDup_fst_range]. rw (foldl_insert_lookup (λ _, h)) //. rw lookup_union lookup_fmap.
  assert (list_to_map (M:=gmap string V) (prod_map g id <$> range_map site src) = kmap g src) as ->.
  { unfold kmap. apply list_to_map_proper; [done|]. by rw range_map_perm. }
  destruct (kmap g src !! k); simpl; by [rw union_Some_l|rw left_id].
Qed.

#[export] Instance prefixed_inj typ : Inj (=) (=) (prefixed typ).
Proof. intros a b H. unfold prefixed in H. by do 2 apply (inj (String.append _)) in H. Qed.

(** ** What the maps of a collection hold: of each key, the value of the last
    attestation that has it. *)

Definition union_last {V} (ms : list (gmap string V)) : gmap string V :=
  foldl (λ acc m, m ∪ acc) ∅ ms.

Lemma union_last_app {V} (ms ms' : list (gmap string V)) :
  union_last (ms ++ ms') = union_last ms' ∪ union_last ms.
Proof.
  unfold union_last. rw foldl_app. generalize (foldl (λ acc m, m ∪ acc) ∅ ms). intros m0.
  revert m0. induction ms' as [|m ms' IH] using rev_ind; intros m0; simpl; [by rw left_id_L|].
  rw !foldl_app /= IH. by rw assoc_L.
Qed.

Lemma union_last_lookup {V} (ms : list (gmap string V)) k v :
  union_last ms !! k = Some v ↔
  ∃ i m, ms !! i = Some m ∧ m !! k = Some v ∧ ∀ j m', i < j → ms !! j = Some m' → m' !! k = None.
Proof.
  induction ms as [|m ms IH] using rev_ind.
  { rw lookup_empty. split; [done|]. by intros (?&?&?&_). }
  rw union_last_app. cbn [union_last foldl]. rw right_id_L. rw lookup_union_Some_raw IH. split.
  - intros [Hm|[Hm (i & m' & Hi & Hk & Hlast)]].
    + exists (length ms), m. split; [by apply list_lookup_middle|]. split; [done|].
      intros j m' Hj Hl. apply lookup_lt_Some in Hl. rw length_app /= in Hl. lia.
    + exists i, m'. split; [by apply lookup_app_l_Some|]. split; [done|].
      intros j m'' Hj Hl. apply lookup_app_Some in Hl as [Hl|[_ Hl]]; [by eapply Hlast|].
      by apply list_lookup_singleton_Some in Hl as [_ <-].
  - intros (i & m' & Hi & Hk & Hlast). apply lookup_app_Some in Hi as [Hi|[Hge Hi]].
    + right. split; [|exists i, m'; split; [done|split; [done|]]].
      * apply (Hlast (length ms) m); [by apply lookup_lt_Some in Hi|by apply list_lookup_middle].
      * intros j m'' Hj Hl. eapply Hlast; [done|]. by apply lookup_app_l_Some.
    + left. by apply list_lookup_singleton_Some in Hi as [_ <-].
Qed.

(** The maps that the attestations implementing an interface contribute. *)
Definition contributions {V} (get : CollectionAttestation A → option (gmap string V)) (c : Collection A)
    : list (gmap string V) := omap get (coll_Attestations c).

Lemma foldl_contributions {V} (get : CollectionAttestation A → option (gmap string V))
    (step : gmap string V → CollectionAttestation A → gmap string V) cas acc :
  (∀ acc ca, step acc ca = match get ca with None => acc | Some m => m ∪ acc end) →
  foldl step acc cas = union_last (omap get cas) ∪ acc.
Proof.
  intros Hstep. induction cas as [|ca cas IH] using rev_ind; simpl; [by rw left_id_L|].
  rw foldl_app /= IH Hstep omap_app union_last_app /=.
  destruct (get ca) as [m|]; cbn [union_last foldl]; rw ?left_id_L ?right_id_L; [|done]. by rw assoc_L.
Qed.

Definition prefixed_subjects (ca : CollectionAttestation A) : option (gmap string DigestSet) :=
  option_map (kmap (M2:=gmap string) (prefixed (ca_Type ca))) (type_assert Subjecter_Subjects (ca_Attestation ca)).
Definition prefixed_backrefs (ca : CollectionAttestation A) : option (gmap string DigestSet) :=
  option_map (kmap (M2:=gmap string) (prefixed (ca_Type ca))) (type_assert BackReffer_BackRefs (ca_Attestation ca)).
Definition materials_of (ca : CollectionAttestation A) : option (gmap string DigestSet) :=
  type_assert Materialer_Materials (ca_Attestation ca).
Definition product_digests_of (ca : CollectionAttestation A) : option (gmap string DigestSet) :=
  option_map (fmap (M:=gmap string) prod_Digest) (type_assert Producer_Products (ca_Attestation ca)).

Lemma Collection_Subjects_union c :
  Collection_Subjects c = union_last (contributions prefixed_subjects c).
Proof.
  unfold Collection_Subjects, contributions.
  rw (foldl_contributions prefixed_subjects); [by rw right_id_L|]. intros acc ca. unfold prefixed_subjects.
  destruct (type_assert Subjecter_Subjects _) as [m|]; [simpl|done]. by rw copy_into_inj map_fmap_id.
Qed.

Lemma Collection_BackRefs_union c :
  Collection_BackRefs c = union_last (contributions prefixed_backrefs c).
Proof.
  unfold Collection_BackRefs, contributions.
  rw (foldl_contributions prefixed_backrefs); [by rw right_id_L|]. intros acc ca. unfold prefixed_backrefs.
  destruct (type_assert BackReffer_BackRefs _) as [m|]; [simpl|done]. by rw copy_into_inj map_fmap_id.
Qed.

Lemma Collection_Materials_union c :
  Collection_Materials c = union_last (contributions materials_of c).
Proof.
  unfold Collection_Materials, contributions.
  rw (foldl_contributions materials_of); [by rw right_id_L|]. intros acc ca. unfold materials_of.
  destruct (type_assert Materialer_Materials _) as [m|]; [|done]. by rw copy_into_id map_fmap_id.
Qed.

Lemma artifact_step_components cas acc :
  foldl artifact_step acc cas =
  (union_last (omap materials_of cas) ∪ acc.1, union_last (omap product_digests_of cas) ∪ acc.2).
Proof.
  induction cas as [|ca cas IH] using rev_ind; [destruct acc; simpl; by rw !left_id_L|].
  rw foldl_app IH !omap_app !union_last_app /=. unfold artifact_step, materials_of, product_digests_of. simpl.
  destruct (type_assert Materialer_Materials _) as [m|], (type_assert Producer_Products _) as [p|]; cbn [fmap option_fmap option_map union_last foldl];
    rw ?copy_into_id ?map_fmap_id ?left_id_L ?right_id_L; f_equal; by rw assoc_L.
Qed.

(** The end state of the files: a product of the collection wins over every
    material of the same path, wherever its attestation stands. *)
Lemma Collection_Artifacts_union c :
  Collection_Artifacts c =
  union_last (contributions product_digests_of c) ∪ Collection_Materials c.
Proof.
  unfold Collection_Artifacts. rw artifact_step_components Collection_Materials_union copy_into_id map_fmap_id /= !right_id_L.
  done.
Qed.
End collection.
