(* ===== verification/Source.v ===== *)
(** source: where collections come from: the interface (source.go) and the memory
    source (memory.go). The other sources are in MultiSource.v, VerifiedSource.v
    and Archivista.v.

    The [Sourcer] and [VerifiedSourcer] interfaces are type classes over the type
    of the source's state; a search returns the new state and the result. *)
From S2P Require Import Prelude GoStrings Errors Crypto Keys Digest Timestamp Dsse Intoto Registry Attestation.
From stdpp Require Import options.

(** * source.go *)

Record CollectionEnvelope (A : Type) := mkCollectionEnvelope {
  ce_Envelope : Envelope;
  ce_Statement : Statement;
  ce_Collection : Collection A;
  ce_Reference : string;
}.
Arguments mkCollectionEnvelope {A}.
Arguments ce_Envelope {A}.
Arguments ce_Statement {A}.
Arguments ce_Collection {A}.
Arguments ce_Reference {A}.

(** The JSON encoding of collections and envelopes. A collection is decoded to
    its name and the texts of its attestations, which are then handed one by one
    to [CollectionAttestation.UnmarshalJSON]; it is encoded the same way. *)
Class CollectionJson := {
  json_Unmarshal_Collection : bytes → res (string * list bytes);
  json_Marshal_Collection : string → list bytes → res bytes;
  json_Unmarshal_proposed : bytes → res proposedAttestation;
  json_Marshal_proposed : proposedAttestation → res bytes;
  json_Unmarshal_Envelope : bytes → res Envelope;
  json_Marshal_Envelope : Envelope → res bytes;
}.

Class Sourcer (A S : Type) :=
  Search : S → string → list string → list string → S * res (list (CollectionEnvelope A)).

Section source.
Context {A : Type} `{AO : AttestorOps A} `{SJ : StatementJson} `{CJ : CollectionJson}.

(** [json.Unmarshal(data, &collection)] *)
Definition Collection_Unmarshal (fs : factory_state A) (data : bytes) : res (Collection A) :=
  raw ← json_Unmarshal_Collection data;
  atts ← collect (λ text,
           ca ← CollectionAttestation_UnmarshalJSON json_Unmarshal_proposed fs text; Ok [ca]) raw.2;
  Ok (mkCollection raw.1 atts).

Definition envelopeToCollectionEnvelope (fs : factory_state A) (reference : string) (env : Envelope)
    : res (CollectionEnvelope A) :=
  statement ← json_Unmarshal_Statement (Payload env);
  collection ← Collection_Unmarshal fs (stmt_Predicate statement);
  Ok (mkCollectionEnvelope env statement collection reference).
End source.

(** * memory.go *)

Record MemorySource (A : Type) := mkMemorySource {
  envelopesByReference : gmap string (CollectionEnvelope A);
  referencesByCollectionName : gmap string (list string);
  subjectDigestsByReference : gmap string (gset string);
  attestationsByReference : gmap string (gset string);
}.
Arguments mkMemorySource {A}.
Arguments envelopesByReference {A}.
Arguments referencesByCollectionName {A}.
Arguments subjectDigestsByReference {A}.
Arguments attestationsByReference {A}.

Section memory.
Context `{RO : RangeOrder} {A : Type} `{AO : AttestorOps A} `{SJ : StatementJson} `{CJ : CollectionJson}.
Implicit Types s : MemorySource A.
Implicit Types fs : factory_state A.

Definition NewMemorySource : MemorySource A := mkMemorySource ∅ ∅ ∅ ∅.

(** The loop that builds [subDigestIndex]. *)
Definition subDigestIndex (subjects : list Subject) : gset string :=
  foldl (λ index sub,
    foldl (λ index kv, index ∪ {[kv.2]}) index (range_map 0 (subj_Digest sub))) ∅ subjects.

(** The loop that builds [attestationIndex]: [Type] is called on every
    attestor, and panics on a nil one. *)
Definition attestationIndex (atts : list (CollectionAttestation A)) : res (gset string) :=
  range_res (λ index att,
    match ca_Attestation att with
    | None => Panic "runtime error: invalid memory address or nil pointer dereference"
    | Some attestor => Ok (index ∪ {[Attestor_Type attestor]})
    end) ∅ atts.

Definition LoadEnvelope fs s (reference : string) (env : Envelope) : res (MemorySource A) :=
  match envelopesByReference s !! reference with
  | Some _ => Err (ErrDuplicateReference reference)
  | None =>
      collEnv ← envelopeToCollectionEnvelope fs reference env;
      let name := coll_Name (ce_Collection collEnv) in
      index ← attestationIndex (coll_Attestations (ce_Collection collEnv));
      Ok (mkMemorySource
            (<[reference:=collEnv]> (envelopesByReference s))
            (<[name:=default [] (referencesByCollectionName s !! name) ++ [reference]]>
               (referencesByCollectionName s))
            (<[reference:=subDigestIndex (stmt_Subject (ce_Statement collEnv))]>
               (subjectDigestsByReference s))
            (<[reference:=index]> (attestationsByReference s)))
  end.

Definition LoadBytes fs s (reference : string) (data : bytes) : res (MemorySource A) :=
  env ← json_Unmarshal_Envelope data;
  LoadEnvelope fs s reference env.

Definition LoadReader fs s (reference : string) (r : res bytes) : res (MemorySource A) :=
  data ← r;
  LoadBytes fs s reference data.

(** [open] is what opening and reading a file by that path does. *)
Definition LoadFile (open : string → res (res bytes)) fs s (path : string) : res (MemorySource A) :=
  f ← open path;
  LoadReader fs s path f.

(** The body of the search loop for one reference: what it appends. *)
Definition memory_match s (subjectDigests attestations : list string) (reference : string)
    : list (CollectionEnvelope A) :=
  match envelopesByReference s !! reference with
  | None => []
  | Some env =>
      let indexSubjects := default ∅ (subjectDigestsByReference s !! reference) in
      let subjectMatchFound := existsb (λ d, bool_decide (d ∈ indexSubjects)) subjectDigests in
      let indexAttestations := default ∅ (attestationsByReference s !! reference) in
      let attestationsMatched := forallb (λ a, bool_decide (a ∈ indexAttestations)) attestations in
      if subjectMatchFound && attestationsMatched then [env] else []
  end.

Definition MemorySource_Search s (collectionName : string) (subjectDigests attestations : list string)
    : MemorySource A * res (list (CollectionEnvelope A)) :=
  (s, Ok (default [] (referencesByCollectionName s !! collectionName)
            ≫= memory_match s subjectDigests attestations)).

#[export] Instance memory_Sourcer : Sourcer A (MemorySource A) := MemorySource_Search.

(** ** The invariant of the indexes *)

Record memory_wf s : Prop := {
  wf_reference ref ce : envelopesByReference s !! ref = Some ce → ce_Reference ce = ref;
  wf_names ref name :
    ref ∈ default [] (referencesByCollectionName s !! name) ↔
    ∃ ce, envelopesByReference s !! ref = Some ce ∧ coll_Name (ce_Collection ce) = name;
  wf_nodup name : NoDup (default [] (referencesByCollectionName s !! name));
  wf_subjects ref ce : envelopesByReference s !! ref = Some ce →
    subjectDigestsByReference s !! ref = Some (subDigestIndex (stmt_Subject (ce_Statement ce)));
  wf_attestations ref ce : envelopesByReference s !! ref = Some ce →
    ∃ index, attestationIndex (coll_Attestations (ce_Collection ce)) = Ok index ∧
      attestationsByReference s !! ref = Some index;
}.

Lemma NewMemorySource_wf : memory_wf NewMemorySource.
Proof.
  split; simpl; try (intros *; by rw lookup_empty).
  - intros ref name. rw !lookup_empty. split; [by intros ?%not_elem_of_nil|]. by intros (? & ? & _).
  - intros name. rw lookup_empty. constructor.
Qed.

(** What a successful load did. *)
Lemma LoadEnvelope_inv fs s ref env s' :
  LoadEnvelope fs s ref env = Ok s' →
  envelopesByReference s !! ref = None ∧
  ∃ ce index, envelopeToCollectionEnvelope fs ref env = Ok ce ∧ ce_Reference ce = ref ∧ ce_Envelope ce = env ∧
    attestationIndex (coll_Attestations (ce_Collection ce)) = Ok index ∧
    let name := coll_Name (ce_Collection ce) in
    s' = mkMemorySource (<[ref:=ce]> (envelopesByReference s))
      (<[name:=default [] (referencesByCollectionName s !! name) ++ [ref]]> (referencesByCollectionName s))
      (<[ref:=subDigestIndex (stmt_Subject (ce_Statement ce))]> (subjectDigestsByReference s))
      (<[ref:=index]> (attestationsByReference s)).
Proof.
  unfold LoadEnvelope. destruct (envelopesByReference s !! ref) eqn:Hr; [done|].
  intros (ce & Hce & (index & Hi & H)%res_bind_ok)%res_bind_ok. simplify_eq. split; [done|].
  exists ce, index. split; [done|]. unfold envelopeToCollectionEnvelope in Hce. by res_inv.
Qed.

Lemma LoadEnvelope_wf fs s ref env s' :
  memory_wf s → LoadEnvelope fs s ref env = Ok s' → memory_wf s'.
Proof.
  intros [Href Hnames Hnd Hsub Hatt] (Hnew & ce & index & _ & Hcr & _ & Hi & ->)%LoadEnvelope_inv.
  set (name := coll_Name (ce_Collection ce)).
  assert (Hn : ∀ n, default [] (<[name:=default [] (referencesByCollectionName s !! name) ++ [ref]]>
      (referencesByCollectionName s) !! n) =
    default [] (referencesByCollectionName s !! n) ++ (if decide (n = name) then [ref] else [])).
  { intros n. destruct (decide (n = name)) as [->|?]; [by rw lookup_insert_eq|by rw lookup_insert_ne // right_id_L]. }
  assert (Hno : ∀ n, ref ∉ default [] (referencesByCollectionName s !! n)).
  { intros n (? & ? & _)%Hnames. congruence. }
  split; cbn [envelopesByReference referencesByCollectionName subjectDigestsByReference attestationsByReference].
  - intros r c [[-> ->]|[? ?]]%lookup_insert_Some; [done|by apply Href].
  - intros r n. rw Hn elem_of_app Hnames. split.
    + intros [(c & Hc & Hnm)|Hr].
      * exists c. split; [|done]. rw lookup_insert_ne //. congruence.
      * destruct (decide (n = name)); [|by apply not_elem_of_nil in Hr].
        apply list_elem_of_singleton in Hr as ->. exists ce. by rw lookup_insert_eq.
    + intros (c & [[-> ->]|[? ?]]%lookup_insert_Some & Hnm).
      * right. rw decide_True //. by apply list_elem_of_singleton.
      * left. by exists c.
  - intros n. rw Hn. apply NoDup_app. split; [done|]. split.
    + intros r Hr. destruct (decide (n = name)); [|apply not_elem_of_nil].
      intros ->%list_elem_of_singleton. by eapply Hno.
    + destruct (decide (n = name)); [apply NoDup_singleton|constructor].
  - intros r c [[-> ->]|[? ?]]%lookup_insert_Some; [by rw lookup_insert_eq|]. rw lookup_insert_ne //. by apply Hsub.
  - intros r c [[-> ->]|[? ?]]%lookup_insert_Some.
    + exists index. by rw lookup_insert_eq.
    + rw lookup_insert_ne //. by apply Hatt.
Qed.

(** ** What a search finds *)

(** The digests of a statement's subjects. *)
Definition statement_has_digest (st : Statement) (d : string) : Prop :=
  ∃ sub name, sub ∈ stmt_Subject st ∧ subj_Digest sub !! name = Some d.

(** The attestor types of a collection. *)
Definition collection_has_attestor (c : Collection A) (t : string) : Prop :=
  ∃ ca attestor, ca ∈ coll_Attestations c ∧ ca_Attestation ca = Some attestor ∧ Attestor_Type attestor = t.

Lemma elem_of_subDigestIndex subjects d :
  d ∈ subDigestIndex subjects ↔ ∃ sub name, sub ∈ subjects ∧ subj_Digest sub !! name = Some d.
Proof.
  assert (Hin : ∀ (l : list (string * string)) (index : gset string),
    d ∈ foldl (λ index kv, index ∪ {[kv.2]}) index l ↔ d ∈ index ∨ ∃ name, (name, d) ∈ l).
  { induction l as [|[n v] l IH]; intros index; simpl.
    - split; [by left|]. intros [?|[? ?%not_elem_of_nil]]; done.
    - rw IH. set_solver. }
  unfold subDigestIndex. cut (∀ index : gset string,
    d ∈ foldl (λ index sub, foldl (λ index kv, index ∪ {[kv.2]}) index (range_map 0 (subj_Digest sub))) index subjects
    ↔ d ∈ index ∨ ∃ sub name, sub ∈ subjects ∧ subj_Digest sub !! name = Some d).
  { intros H. rw H. set_solver. }
  induction subjects as [|sub subjects IH]; intros index; simpl.
  - split; [by left|]. intros [?|(? & ? & ?%not_elem_of_nil & _)]; done.
  - rw IH Hin. setoid_rewrite elem_of_range. split.
    + intros [[?|[n Hn]]|(sub' & n & ? & ?)]; [by left|right..].
      * eauto with elems.
      * eauto with elems.
    + intros [?|(sub' & n & [->|?]%elem_of_cons & ?)]; [by do 2 left|left; right; by exists n|].
      right. by exists sub', n.
Qed.

Lemma elem_of_attestationIndex atts index t :
  attestationIndex atts = Ok index →
  t ∈ index ↔ ∃ ca attestor, ca ∈ atts ∧ ca_Attestation ca = Some attestor ∧ Attestor_Type attestor = t.
Proof.
  unfold attestationIndex. revert index. induction atts as [|ca atts IH] using rev_ind; intros index.
  { simpl. intros. simplify_eq. split; [by intros ?%not_elem_of_empty|]. by intros (? & ? & ?%not_elem_of_nil & _). }
  rw range_res_app. intros (i' & Hi & H)%res_bind_ok. specialize (IH _ Hi). simpl in H.
  apply res_bind_ok in H as (i'' & H & Heq). simplify_eq/=.
  destruct (ca_Attestation ca) as [a|] eqn:Ha; simplify_eq/=. rw elem_of_union IH. split.
  - intros [(c & b & Hc & Hcb & Ht)|Ht].
    + exists c, b. split; [apply elem_of_app; by left|done].
    + apply elem_of_singleton in Ht as ->. exists ca, a. split; [apply elem_of_app; right; by left|done].
  - intros (c & b & [Hc|Hc]%elem_of_app & Hcb & Ht); [left; by exists c, b|].
    apply list_elem_of_singleton in Hc as ->. right. apply elem_of_singleton. congruence.
Qed.

(** What a query asks of an envelope of the source. *)
Definition matches_query (collectionName : string) (subjectDigests attestations : list string)
    (ce : CollectionEnvelope A) : Prop :=
  coll_Name (ce_Collection ce) = collectionName ∧
  (∃ d, d ∈ subjectDigests ∧ statement_has_digest (ce_Statement ce) d) ∧
  (∀ t, t ∈ attestations → collection_has_attestor (ce_Collection ce) t).

Lemma existsb_bool_decide (l : list string) (X : gset string) :
  existsb (λ d, bool_decide (d ∈ X)) l = true ↔ ∃ d, d ∈ l ∧ d ∈ X.
Proof.
  rw existsb_exists. setoid_rewrite bool_decide_eq_true. setoid_rewrite <-list_elem_of_In. done.
Qed.

Lemma forallb_bool_decide (l : list string) (X : gset string) :
  forallb (λ d, bool_decide (d ∈ X)) l = true ↔ ∀ d, d ∈ l → d ∈ X.
Proof.
  rw forallb_forall. setoid_rewrite bool_decide_eq_true. setoid_rewrite <-list_elem_of_In. done.
Qed.

Lemma memory_match_iff s sds atts ref ce ce' :
  memory_wf s → envelopesByReference s !! ref = Some ce →
  ce' ∈ memory_match s sds atts ref ↔
    ce' = ce ∧ matches_query (coll_Name (ce_Collection ce)) sds atts ce.
Proof.
  intros Hwf Hce. destruct (wf_attestations _ Hwf _ _ Hce) as (index & Hi & Hl).
  unfold memory_match, matches_query, statement_has_digest, collection_has_attestor.
  rw Hce (wf_subjects _ Hwf _ _ Hce) Hl /=.
  destruct (existsb _ _ && forallb _ _) eqn:E.
  - apply andb_true_iff in E as [E1%existsb_bool_decide E2]; pose proof (proj1 (forallb_bool_decide _ _) E2) as E3.
    rw list_elem_of_singleton. split; [|by intros [? _]]. intros ->. split; [done|]. split; [done|]. split.
    + destruct E1 as (d & ? & Hd). exists d. split; [done|]. by apply elem_of_subDigestIndex.
    + intros t Ht. apply (elem_of_attestationIndex _ _ t Hi). by apply E3.
  - split; [by intros ?%not_elem_of_nil|]. intros (_ & _ & (d & Hd & Hs) & Ha).
    exfalso. apply andb_false_iff in E as [E|E]; apply not_true_iff_false in E; apply E.
    + apply existsb_bool_decide. exists d. split; [done|]. by apply elem_of_subDigestIndex.
    + apply (proj2 (forallb_bool_decide _ _)). intros t Ht. apply (elem_of_attestationIndex _ _ t Hi). by apply Ha.
Qed.

Lemma MemorySource_Search_elem s name sds atts ce :
  memory_wf s →
  ce ∈ default [] (referencesByCollectionName s !! name) ≫= memory_match s sds atts ↔
  (∃ ref, envelopesByReference s !! ref = Some ce) ∧ matches_query name sds atts ce.
Proof.
  intros Hwf. rw list_elem_of_bind. split.
  - intros (ref & Hm & (c & Hc & Hn)%(wf_names _ Hwf)). subst name.
    apply (memory_match_iff _ _ _ _ _ _ Hwf Hc) in Hm. destruct Hm as [Heq Hq]. subst c. split; [by eexists|done].
  - intros [[ref Hc] Hq]. exists ref. split.
    + apply (memory_match_iff _ _ _ _ _ _ Hwf Hc). split; [done|]. by rw (proj1 Hq).
    + apply (wf_names _ Hwf). exists ce. split; [done|]. apply Hq.
Qed.

Lemma MemorySource_Search_NoDup s name sds atts :
  memory_wf s →
  NoDup (ce_Reference <$> (default [] (referencesByCollectionName s !! name) ≫= memory_match s sds atts)).
Proof.
  intros Hwf. pose proof (wf_nodup _ Hwf name) as Hnd.
  induction (default [] _) as [|ref refs IH]; [constructor|].
  inversion Hnd as [|? ? Hni Hnd']; subst. rw bind_cons fmap_app.
  apply NoDup_app. split; [|split; [|by apply IH]].
  - unfold memory_match. destruct (envelopesByReference s !! ref); [|constructor].
    destruct (_ && _); simpl; [apply NoDup_singleton|constructor].
  - assert (Hr : ∀ r c, c ∈ memory_match s sds atts r → ce_Reference c = r).
    { unfold memory_match. intros r c Hc. destruct (envelopesByReference s !! r) as [c'|] eqn:E;
        [|by apply not_elem_of_nil in Hc]. destruct (_ && _); [|by apply not_elem_of_nil in Hc].
      apply list_elem_of_singleton in Hc as ->. by apply (wf_reference _ Hwf). }
    intros x (c & -> & Hc%Hr)%list_elem_of_fmap (c' & Heq & (r & Hc'%Hr & Hin)%list_elem_of_bind)%list_elem_of_fmap.
    congruence.
Qed.
End memory.
