(* ===== verification/Sched.v ===== *)
(** Scheduling: the choices a Go scheduler makes between runnable goroutines, as
    a stream of numbers; every interleaving of finitely many goroutines is some
    stream. *)
From S2P Require Import Prelude.
From stdpp Require Import options.

Class Scheduler := pick : nat → nat.

(** The scheduler used to evaluate the model: always the first goroutine. *)
#[export] Instance fifo : Scheduler := λ _, 0.

Section sched.
Context `{SC : Scheduler} {X : Type}.
Implicit Types l : list X.

(** The k-th decision among the alternatives [l]: the choice and the rest. *)
Definition choose (k : nat) l : option (X * list X) :=
  let i := pick k `mod` length l in
  (λ x, (x, delete i l)) <$> l !! i.

(** All alternatives, in the order they are chosen from decision [k] on. *)
Fixpoint drain (fuel k : nat) l : list X :=
  match fuel with
  | 0 => []
  | S fuel =>
      match choose k l with
      | None => []
      | Some (x, l') => x :: drain fuel (S k) l'
      end
  end.
Definition arrivals l : list X := drain (length l) 0 l.

Lemma choose_spec k l :
  l ≠ [] → ∃ i x, choose k l = Some (x, delete i l) ∧ l !! i = Some x.
Proof.
  intros Hl. assert (length l ≠ 0) as Hlen by (by destruct l).
  destruct (lookup_lt_is_Some_2 l (pick k `mod` length l)) as [x Hx].
  { by apply Nat.mod_upper_bound. }
  exists (pick k `mod` length l), x. unfold choose. by rw Hx.
Qed.

Lemma drain_perm fuel k l : length l ≤ fuel → drain fuel k l ≡ₚ l.
Proof.
  revert k l; induction fuel as [|fuel IH]; intros k l Hf; [by destruct l; simpl in *; [|lia]|].
  cbn [drain]. destruct (decide (l = [])) as [->|Hl]; [done|].
  destruct (choose_spec k l Hl) as (i & x & -> & Hx). rw IH.
  - by rw -(delete_Permutation l i x).
  - rw length_delete; [lia|done].
Qed.

Lemma arrivals_perm l : arrivals l ≡ₚ l.
Proof. by apply drain_perm. Qed.
End sched.
