(* ===== verification/MultiSource.v ===== *)
(** source: the concurrent combination of sources (multi.go).

    Each source is searched by a goroutine of its own, which sends its result or
    its error over an unbuffered channel to one of two collecting goroutines.
    What can differ between runs is the order in which the sends are received;
    it is chosen by the [Scheduler]. *)
From S2P Require Import Prelude GoStrings Errors Crypto Keys Digest Timestamp Dsse Intoto Registry Attestation Source Sched.
From stdpp Require Import options.

Record MultiSource (S : Type) := NewMultiSource { ms_sources : list S }.
Arguments NewMultiSource {S}.
Arguments ms_sources {S}.

Section multi.
Context `{SC : Scheduler} {A S : Type} `{SS : Sourcer A S}.

Abbreviation outcome := (res (list (CollectionEnvelope A))) (only parsing).

(** The variables [results] and [errors]. *)
Record collected := mkCollected {
  col_results : list (CollectionEnvelope A);
  col_errors : list error;
}.

(** The receipt of one send; a goroutine that panics ends the process. *)
Definition receive (c : collected) (o : outcome) : res collected :=
  match o with
  | Ok res => Ok (mkCollected (col_results c ++ res) (col_errors c))
  | Err e => Ok (mkCollected (col_results c) (col_errors c ++ [e]))
  | Panic w => Panic w
  end.

Definition MultiSource_Search (s : MultiSource S) (collectionName : string)
    (subjectDigests attestations : list string)
    : MultiSource S * res (list (CollectionEnvelope A)) :=
  let searched := (λ src, Search src collectionName subjectDigests attestations) <$> ms_sources s in
  (NewMultiSource searched.*1,
   c ← range_res receive (mkCollected [] []) (arrivals searched.*2);
   match col_errors c with
   | [] => Ok (col_results c)
   | e :: _ => Err e
   end).

#[export] Instance multi_Sourcer : Sourcer A (MultiSource S) := MultiSource_Search.

(** ** Lemmas *)

Definition ok_results (os : list outcome) : list (CollectionEnvelope A) :=
  os ≫= λ o, match o with Ok r => r | _ => [] end.

Lemma receive_all os c :
  Forall no_panic os →
  range_res receive c os = Ok (mkCollected (col_results c ++ ok_results os) (col_errors c ++ omap err_of os)).
Proof.
  intros Hnp. revert c. induction Hnp as [|o os Ho Hos IH]; intros c.
  { destruct c. simpl. by rw !right_id_L. }
  unfold ok_results in *. cbn [range_res]. rw bind_cons. destruct o as [r|e|w]; [..|by destruct (Ho w)];
    cbn [receive mbind res_bind]; rw IH; simpl; by rw -assoc_L.
Qed.

Lemma omap_err_of_nil (os : list outcome) :
  Forall no_panic os → omap err_of os = [] ↔ ∀ o, o ∈ os → is_ok o = true.
Proof.
  intros Hnp. induction Hnp as [|o os Ho _ IH]; [set_solver|].
  destruct o as [r|e|w]; [..|by destruct (Ho w)]; simpl.
  - rw IH. set_solver.
  - split; [done|]. intros H. specialize (H (Err e)). rw elem_of_cons in H. by specialize (H (or_introl eq_refl)).
Qed.

Lemma elem_of_errors (os : list outcome) e : e ∈ omap err_of os → Err e ∈ os.
Proof.
  rw list_elem_of_omap. intros (o & Ho & He). destruct o; simplify_eq/=. done.
Qed.
End multi.
Arguments MultiSource_Search {_ _ _ _}.
