(* ===== verification/VerifiedSource.v ===== *)
(** source: the verification of the envelopes a source returns (verified.go), and
    the interface that the policy engine is given. *)
From S2P Require Import Prelude GoStrings Errors Crypto Keys Digest Timestamp Dsse Intoto Registry Attestation Source.
From stdpp Require Import options.

Section verified.
Context `{CL : CryptoLib} `{TL : !TspLib} {A : Type}.

(** [CollectionVerificationResult]; a nil verifier is [None]. *)
Record CollectionVerificationResult := mkCVR {
  cvr_Verifiers : list (option Verifier);
  cvr_ValidFunctionaries : list (option Verifier);
  cvr_Envelope : CollectionEnvelope A;
  cvr_Errors : list error;
  cvr_Warnings : list string;
}.
End verified.
Arguments CollectionVerificationResult {CL} A.

Class VerifiedSourcer `{CL : CryptoLib} (A S : Type) :=
  VerifiedSearch : S → string → list string → list string →
    S * res (list (CollectionVerificationResult A)).

(** [VerifiedSource]. The clock is read by every envelope verification: the n-th
    reading since the source was made is [vs_clock n]. *)
Record VerifiedSource `{CL : CryptoLib} `{TL : !TspLib} (S : Type) := mkVerifiedSource {
  vs_source : S;
  vs_verifyOpts : list VerificationOption;
  vs_clock : nat → Z;
  vs_tick : nat;
}.
Arguments mkVerifiedSource {CL TL S}.
Arguments vs_source {CL TL S}.
Arguments vs_verifyOpts {CL TL S}.
Arguments vs_clock {CL TL S}.
Arguments vs_tick {CL TL S}.

Section verified.
Context `{CL : CryptoLib} `{TL : !TspLib} {A S : Type} `{SS : Sourcer A S}.

Abbreviation CVR := (CollectionVerificationResult A) (only parsing).

Definition NewVerifiedSource (clock : nat → Z) (source : S) (verifyOpts : list VerificationOption)
    : VerifiedSource S := mkVerifiedSource source verifyOpts clock 0.

(** The loop body: the result for one envelope. *)
Definition verify_collection (opts : list VerificationOption) (now : Z)
    (toVerify : CollectionEnvelope A) : res CVR :=
  r ← Envelope_Verify (ce_Envelope toVerify) now opts;
  match r with
  | (_, Some e) => Ok (mkCVR [] [] toVerify [Wrapf "failed to verify envelope" e] [])
  | (envelopeVerifiers, None) =>
      let passedVerifiers := cv_Verifier <$> passed_entries envelopeVerifiers in
      Ok (mkCVR passedVerifiers [] toVerify
            (if bool_decide (length passedVerifiers = 0) then [Errorf "no verifiers passed"] else []) [])
  end.

Definition VerifiedSource_Search (s : VerifiedSource S) (collectionName : string)
    (subjectDigests attestations : list string) : VerifiedSource S * res (list CVR) :=
  let '(source, unverified) := Search (vs_source s) collectionName subjectDigests attestations in
  match unverified with
  | Err e => (mkVerifiedSource source (vs_verifyOpts s) (vs_clock s) (vs_tick s), Err e)
  | Panic w => (mkVerifiedSource source (vs_verifyOpts s) (vs_clock s) (vs_tick s), Panic w)
  | Ok envs =>
      (mkVerifiedSource source (vs_verifyOpts s) (vs_clock s) (vs_tick s + length envs),
       collect (λ ienv, r ← verify_collection (vs_verifyOpts s) (vs_clock s (vs_tick s + ienv.1)) ienv.2; Ok [r])
         (imap pair envs))
  end.

#[export] Instance verified_VerifiedSourcer : VerifiedSourcer A (VerifiedSource S) := VerifiedSource_Search.

(** ** Soundness of the results *)

(** A verifier of a result accepted a signature over the content of the result's
    own envelope; it was passed by the caller or made from the signature's
    certificate against the caller's roots. *)
Definition verifier_justified (opts : list VerificationOption) (now : Z) (r : CVR) (ov : option Verifier) : Prop :=
  let env := ce_Envelope (cvr_Envelope r) in
  ∃ sig cv, sig ∈ Signatures env ∧ cv_Verifier cv = ov ∧
    justified (apply_verification_options opts) now (preauthEncode (PayloadType env) (Payload env)) sig cv.

(** What is true of a result of a verified search. *)
Definition result_justified (opts : list VerificationOption) (r : CVR) : Prop :=
  ∃ now, (∀ ov, ov ∈ cvr_Verifiers r → verifier_justified opts now r ov) ∧
    (cvr_Verifiers r = [] ↔ cvr_Errors r ≠ []) ∧ cvr_ValidFunctionaries r = [] ∧ cvr_Warnings r = [].

Lemma elem_of_passed_entries cvs cv :
  cv ∈ passed_entries cvs ↔ cv ∈ cvs ∧ cv_Error cv = None.
Proof. unfold passed_entries. rw list_elem_of_filter. tauto. Qed.

Lemma verify_collection_justified opts now ce r :
  verify_collection opts now ce = Ok r → cvr_Envelope r = ce ∧ result_justified opts r.
Proof.
  unfold verify_collection. intros ([cvs [e|]] & He & Hr)%res_bind_ok; simplify_eq/=; (split; [done|]); exists now.
  - split; [by intros ? ?%not_elem_of_nil|done].
  - destruct (Envelope_Verify_entries _ _ _ _ _ He (Envelope_Verify_nonempty _ _ _ _ He)) as (_ & _ & Hp & _).
    apply verified_count_pos in Hp as (cv & Hcv & Hok).
    assert (Hlen : cv_Verifier <$> passed_entries cvs ≠ []).
    { assert (cv ∈ passed_entries cvs) as Hin by by apply elem_of_passed_entries.
      destruct (passed_entries cvs); [by apply not_elem_of_nil in Hin|done]. }
    split; [|split; [|done]]; cbn [cvr_Verifiers cvr_Errors].
    + intros ov (cv' & -> & [Hin He']%elem_of_passed_entries)%list_elem_of_fmap.
      destruct (Envelope_Verify_justified _ _ _ _ _ _ He Hin He') as (sig & Hsig & Hj).
      by exists sig, cv'.
    + rw bool_decide_eq_false_2; [done|]. by intros ?%nil_length_inv.
Qed.

Lemma VerifiedSource_Search_inv s name sds atts s' rs :
  VerifiedSource_Search s name sds atts = (s', Ok rs) →
  ∃ envs, (Search (vs_source s) name sds atts).2 = Ok envs ∧
    cvr_Envelope <$> rs = envs ∧ Forall (result_justified (vs_verifyOpts s)) rs.
Proof.
  unfold VerifiedSource_Search. destruct (Search _ _ _ _) as [src [envs| |]]; [|naive_solver..].
  intros [= _ Hc]. exists envs. split; [done|]. revert rs Hc. generalize (vs_tick s). intros tick.
  assert (Hg : ∀ (l : list (nat * CollectionEnvelope A)) rs,
    collect (λ ienv, r ← verify_collection (vs_verifyOpts s) (vs_clock s (tick + ienv.1)) ienv.2; Ok [r]) l = Ok rs →
    cvr_Envelope <$> rs = l.*2 ∧ Forall (result_justified (vs_verifyOpts s)) rs).
  { induction l as [|[i ce] l IH]; intros rs; cbn [collect]; [intros [= <-]; done|].
    intros (ys & (r & Hr & ?)%res_bind_ok & (zs & Hzs & ?)%res_bind_ok)%res_bind_ok. simplify_eq/=.
    apply verify_collection_justified in Hr as [? ?]. destruct (IH _ Hzs) as [IH1 IH2]. simplify_eq/=.
    split; [by rw IH1|]. by constructor. }
  intros rs Hc. destruct (Hg _ _ Hc) as [Hm HF]. split; [|done]. rw Hm fmap_imap.
  by rw (imap_ext _ (const id)) // imap_const list_fmap_id.
Qed.
End verified.
