(* ===== verification/Archivista.v ===== *)
(** archivista: the client (client.go, download.go, searchgitoids.go, store.go),
    and the source over it (source/archivista.go). The HTTP calls of
    github.com/in-toto/archivista/pkg/api are the class [ArchivistaApi]. *)
From S2P Require Import Prelude GoStrings Errors Crypto Keys Digest Timestamp Dsse Intoto Registry Attestation Source.
From stdpp Require Import options.

(** [http.Header] and [SearchGitoidVariables]. *)
Abbreviation Header := (gmap string (list string)) (only parsing).
Record SearchGitoidVariables := mkSearchGitoidVariables {
  sv_SubjectDigests : list string;
  sv_CollectionName : string;
  sv_Attestations : list string;
  sv_ExcludeGitoids : list string;
}.

(** The requests, by URL, argument and request options; the query answers with
    the gitoids of the edges of the response. *)
Class ArchivistaApi := {
  api_Download : string → string → list Header → res Envelope;
  api_GraphQlQuery : string → SearchGitoidVariables → list Header → res (list string);
  api_Store : string → Envelope → list Header → res string;
}.

(** * client.go *)

Record Client := mkClient { client_url : string; client_headers : option Header }.

Definition ErrClientNotConfigured : error := Errorf "archivista client is not configured".
Definition ErrURLNotConfigured : error := Errorf "archivista URL is not configured".

Definition WithHeaders (h : option Header) : Client → Client := λ c,
  match h with Some _ => mkClient (client_url c) h | None => c end.

(** A nil option is skipped. *)
Definition NewClient (url : string) (opts : list (option (Client → Client))) : Client :=
  foldl (λ c opt, match opt with Some opt => opt c | None => c end) (mkClient url None) opts.

(** The methods take a possibly nil receiver. *)
Definition archivistaRequestOpts (c : option Client) : list Header :=
  match c with
  | None => []
  | Some c => match client_headers c with None => [] | Some h => [h] end
  end.

Definition client_validate (c : option Client) : res Client :=
  match c with
  | None => Err ErrClientNotConfigured
  | Some c => if bool_decide (client_url c = "") then Err ErrURLNotConfigured else Ok c
  end.

Section client.
Context `{AR : ArchivistaApi}.

Definition Client_Download (c : option Client) (gitoid : string) : res Envelope :=
  cl ← client_validate c;
  api_Download (client_url cl) gitoid (archivistaRequestOpts c).

Definition SearchGitoids (c : option Client) (vars : SearchGitoidVariables) : res (list string) :=
  cl ← client_validate c;
  api_GraphQlQuery (client_url cl) vars (archivistaRequestOpts c).

Definition Client_Store (c : option Client) (env : Envelope) : res string :=
  cl ← client_validate c;
  api_Store (client_url cl) env (archivistaRequestOpts c).
End client.

(** * source/archivista.go *)

Record ArchivistaSource := mkArchivistaSource {
  as_client : option Client;
  seenGitoids : list string;
}.
Definition NewArchvistSource (client : option Client) : ArchivistaSource := mkArchivistaSource client [].

Section source.
Context {A : Type} `{AO : AttestorOps A} `{SJ : StatementJson} `{CJ : CollectionJson} `{AR : ArchivistaApi}.
Variable fs : factory_state A.

(** The loop over the gitoids: the gitoids seen and the envelopes collected. A
    gitoid is seen once it is downloaded, whether or not it can be decoded. The
    envelopes that the code returns next to an error are left out: the callers
    look at the error first. *)
Fixpoint download_all (client : option Client) (seen : list string)
    (envelopes : list (CollectionEnvelope A)) (gitoids : list string)
    : list string * res (list (CollectionEnvelope A)) :=
  match gitoids with
  | [] => (seen, Ok envelopes)
  | gitoid :: gitoids =>
      match Client_Download client gitoid with
      | Err e => (seen, Err e)
      | Panic w => (seen, Panic w)
      | Ok env =>
          match envelopeToCollectionEnvelope fs gitoid env with
          | Err e => (seen ++ [gitoid], Err e)
          | Panic w => (seen ++ [gitoid], Panic w)
          | Ok collectionEnv =>
              download_all client (seen ++ [gitoid]) (envelopes ++ [collectionEnv]) gitoids
          end
      end
  end.

Definition ArchivistaSource_Search (s : ArchivistaSource) (collectionName : string)
    (subjectDigests attestations : list string)
    : ArchivistaSource * res (list (CollectionEnvelope A)) :=
  match SearchGitoids (as_client s)
          (mkSearchGitoidVariables subjectDigests collectionName attestations (seenGitoids s)) with
  | Err e => (s, Err e)
  | Panic w => (s, Panic w)
  | Ok gitoids =>
      let '(seen, result) := download_all (as_client s) (seenGitoids s) [] gitoids in
      (mkArchivistaSource (as_client s) seen, result)
  end.

#[export] Instance archivista_Sourcer : Sourcer A ArchivistaSource := ArchivistaSource_Search.

(** ** Lemmas *)

(** The seen gitoids grow by a prefix of what was asked for, and by all of it
    when the loop completes. *)
Lemma download_all_seen client seen envs gitoids seen' r :
  download_all client seen envs gitoids = (seen', r) →
  ∃ done rest, gitoids = done ++ rest ∧ seen' = seen ++ done ∧
    (∀ envs', r = Ok envs' → rest = [] ∧
       ∃ new, envs' = envs ++ new ∧ ce_Reference <$> new = gitoids).
Proof.
  revert seen envs; induction gitoids as [|g gs IH]; intros seen envs H; simpl in H.
  { simplify_eq. exists [], []. split; [done|]. split; [by rw app_nil_r|].
    intros envs' [= <-]. split; [done|]. exists []. by rw app_nil_r. }
  destruct (Client_Download client g) as [env| |]; 
    [|simplify_eq; exists [], (g :: gs); rw app_nil_r; by split_and!..].
  destruct (envelopeToCollectionEnvelope fs g env) as [ce| |] eqn:Hce;
    [|simplify_eq; exists [g], gs; by split_and!..].
  apply IH in H as (done & rest & -> & -> & Hr). exists (g :: done), rest.
  split; [done|]. split; [by rw -assoc_L|]. intros envs' He. destruct (Hr _ He) as (-> & new & -> & Hnew).
  split; [done|]. exists (ce :: new). split; [by rw -assoc_L|]. rw fmap_cons Hnew. f_equal.
  unfold envelopeToCollectionEnvelope in Hce. by res_inv.
Qed.

Lemma ArchivistaSource_Search_inv s name sds atts s' r :
  ArchivistaSource_Search s name sds atts = (s', r) →
  as_client s' = as_client s ∧
  ((seenGitoids s' = seenGitoids s ∧ is_ok r = false) ∨
   ∃ gitoids done rest,
    SearchGitoids (as_client s) (mkSearchGitoidVariables sds name atts (seenGitoids s)) = Ok gitoids ∧
    gitoids = done ++ rest ∧ seenGitoids s' = seenGitoids s ++ done ∧
    ∀ envs, r = Ok envs → rest = [] ∧ ce_Reference <$> envs = gitoids).
Proof.
  unfold ArchivistaSource_Search.
  destruct (SearchGitoids _ _) as [gitoids|e|w] eqn:Hs; [|intros [= <- <-]; by auto..].
  destruct (download_all _ _ _ _) as [seen res] eqn:Hd. intros [= <- <-]. split; [done|]. right.
  apply download_all_seen in Hd as (done & rest & -> & -> & Hr). exists (done ++ rest), done, rest.
  do 3 (split; [done|]). intros envs He. destruct (Hr _ He) as (-> & new & -> & Hn). done.
Qed.
End source.
