(* ===== verification/Constraints.v ===== *)
(** policy: certificate constraints (constraints.go). The glob matcher and
    Fulcio's extension parser are the classes [GlobLib] and [FulcioLib]. *)
From S2P Require Import Prelude GoStrings Errors Crypto Keys.
From stdpp Require Import options.

Definition AllowAllConstraint : string := "*".

(** github.com/gobwas/glob: compilation, which can fail, and matching. *)
Class GlobLib := glob_Compile : string → res (string → bool).

(** [glob.MustCompile] panics when [Compile] fails. *)
Definition glob_MustCompile `{GL : GlobLib} (pattern : string) : res (string → bool) :=
  match glob_Compile pattern with
  | Ok g => Ok g
  | Err e => Panic (fmt_err e)
  | Panic w => Panic w
  end.

(** Fulcio's [certificate.Extensions] is a struct of strings: its field names in
    the order of [reflect.VisibleFields], and the parser of a certificate's
    extensions. A value of the struct is a map, with [""] for absent keys. *)
Abbreviation FulcioExtensions := (gmap string string) (only parsing).
Definition field (x : FulcioExtensions) (name : string) : string := default "" (x !! name).

Class FulcioLib := {
  Extensions_fields : list string;
  ParseExtensions : list (string * bytes) → res FulcioExtensions;
}.

Record CertConstraint := mkCertConstraint {
  cc_CommonName : string;
  cc_DNSNames : list string;
  cc_Emails : list string;
  cc_Organizations : list string;
  cc_URIs : list string;
  cc_Roots : list string;
  cc_Extensions : FulcioExtensions;
}.

(** policy.go: [TrustBundle] *)
Record TrustBundle `{CL : CryptoLib} := mkTrustBundle {
  tb_Root : Certificate;
  tb_Intermediates : list Certificate;
}.

(** ** checkCertConstraint *)

(** A single empty string counts as no value. *)
Definition drop_single_empty (l : list string) : list string :=
  match l with [""] => [] | _ => l end.

(** The loop over the values: what is left of [unmet], or the first unexpected
    value. *)
Fixpoint check_values (values : list string) (unmet : gset string) : string + gset string :=
  match values with
  | [] => inr unmet
  | value :: values =>
      if bool_decide (value ∈ unmet) then check_values values (unmet ∖ {[value]}) else inl value
  end.

Definition checkCertConstraint (attribute : string) (constraints values : list string) : err :=
  if bool_decide (constraints = [AllowAllConstraint]) then nil_error
  else
    let constraints := drop_single_empty constraints in
    let values := drop_single_empty values in
    if bool_decide (length constraints = 0 ∧ 0 < length values) then
      Err (Errorf ("not expecting any " +:+ attribute +:+ "(s), but cert has " +:+
                   itoa (length values) +:+ " " +:+ attribute +:+ "(s)"))
    else
      match check_values values (list_to_set constraints) with
      | inl value =>
          Err (Errorf ("cert has an unexpected " +:+ attribute +:+ " " +:+ value +:+
                       " given constraints " +:+ quote_list constraints))
      | inr unmet =>
          if bool_decide (0 < size unmet) then
            Err (Errorf ("cert with " +:+ attribute +:+ "(s) " +:+ quote_list values +:+
                         "Did not pass all constraints " +:+ quote_list constraints))
          else nil_error
      end.

(** The values meet the constraints when, after dropping a single empty string on
    either side, they are the constraints, without repetition. *)
Definition meets (constraints values : list string) : Prop :=
  constraints = [AllowAllConstraint] ∨
  (NoDup (drop_single_empty values) ∧
   ∀ x, x ∈ drop_single_empty values ↔ x ∈ drop_single_empty constraints).

Lemma check_values_inr values unmet rest :
  check_values values unmet = inr rest ↔
  NoDup values ∧ (∀ x, x ∈ values → x ∈ unmet) ∧ rest = unmet ∖ list_to_set values.
Proof.
  revert unmet; induction values as [|v vs IH]; intros unmet; cbn [check_values].
  - split.
    + intros [= <-]. split; [constructor|]. split; [by intros ? ?%not_elem_of_nil|set_solver].
    + intros (_ & _ & ->). f_equal. set_solver.
  - rw NoDup_cons list_to_set_cons. case_bool_decide as Hv.
    + rw IH. split.
      * intros (Hnd & Hin & ->). split; [split; [|done]|split].
        -- intros H%Hin. set_solver.
        -- intros x [->|H]%elem_of_cons; [done|]. apply Hin in H. set_solver.
        -- set_solver.
      * intros ([Hni Hnd] & Hin & ->). split; [done|]. split; [|set_solver].
        intros x Hx. apply elem_of_difference. split; [apply Hin; by right|]. set_solver.
    + split; [done|]. intros (_ & Hin & _). destruct Hv. apply Hin. left.
Qed.

Lemma checkCertConstraint_no_panic attribute constraints values :
  no_panic (checkCertConstraint attribute constraints values).
Proof.
  intros w. unfold checkCertConstraint. case_bool_decide; [done|]. simpl.
  case_bool_decide; [done|]. destruct (check_values _ _); [done|]. by case_bool_decide.
Qed.

Lemma checkCertConstraint_meets attribute constraints values :
  checkCertConstraint attribute constraints values = nil_error ↔ meets constraints values.
Proof.
  unfold checkCertConstraint, meets. case_bool_decide as Ha; [tauto|]. simpl.
  set (cs := drop_single_empty constraints). set (vs := drop_single_empty values).
  case_bool_decide as He.
  { split; [done|]. intros [?|[_ Hv]]; [done|]. destruct He as [Hc Hl], vs as [|v vs]; simpl in *; [lia|].
    apply nil_length_inv in Hc. specialize (Hv v). rw Hc in Hv. set_solver. }
  destruct (check_values vs (list_to_set cs)) as [v|rest] eqn:Hc.
  - split; [done|]. intros [?|[Hnd Hv]]; [done|].
    assert (check_values vs (list_to_set cs) = inr (list_to_set cs ∖ list_to_set vs)) as Hr.
    { apply check_values_inr. split; [done|]. split; [|done]. intros x. by rw Hv elem_of_list_to_set. }
    congruence.
  - apply check_values_inr in Hc as (Hnd & Hin & ->). case_bool_decide as Hs.
    + split; [done|]. intros [?|[_ Hv]]; [done|]. apply size_pos_elem_of in Hs as [x Hx]. set_solver.
    + split; [|done]. intros _. right. split; [done|]. intros x. split.
      * intros Hx. apply Hin in Hx. by apply elem_of_list_to_set in Hx.
      * intros Hx. apply dec_stable. intros Hnv. apply Hs.
        destruct (size (list_to_set cs ∖ list_to_set vs : gset string)) eqn:E; [|lia].
        apply size_empty_inv in E. set_solver.
Qed.

(** ** Check *)

Section check.
Context `{CL : CryptoLib} `{GL : GlobLib} `{FL : FulcioLib} `{RO : RangeOrder}.

(** The fields of an [X509Verifier] that the check reads. *)
Record x509_view := mkView { xv_cert : Certificate; xv_intermediates : list Certificate; xv_trustedTime : option Z }.
Definition view_belongs (v : x509_view) (root : Certificate) : err :=
  BelongsToRoot (xv_cert v) (xv_intermediates v) (xv_trustedTime v) root.

(** The loops over candidate roots: [true] as soon as the chain verifies. *)
Fixpoint belongs_to_some (v : x509_view) (roots : list Certificate) : res bool :=
  match roots with
  | [] => Ok false
  | root :: roots =>
      match view_belongs v root with
      | Ok _ => Ok true
      | Err _ => belongs_to_some v roots
      | Panic w => Panic w
      end
  end.

Definition candidate_roots (cc : CertConstraint) (trustBundles : gmap string TrustBundle) : list Certificate :=
  if bool_decide (cc_Roots cc = [AllowAllConstraint]) then tb_Root <$> (range_map 0 trustBundles).*2
  else omap (λ rootID, tb_Root <$> trustBundles !! rootID) (cc_Roots cc).

Definition checkTrustBundles (cc : CertConstraint) (v : x509_view) (trustBundles : gmap string TrustBundle) : err :=
  found ← belongs_to_some v (candidate_roots cc trustBundles);
  if (found : bool) then nil_error
  else Err (Errorf ("cert doesn't belong to any root specified by constraint " +:+ quote_list (cc_Roots cc))).

(** The body of the loop over the fields of [certificate.Extensions]. *)
Definition check_field (cc : CertConstraint) (extensions : FulcioExtensions) (name : string) : err :=
  if bool_decide (field (cc_Extensions cc) name = "") then nil_error
  else
    fieldGlob ← glob_MustCompile (field (cc_Extensions cc) name);
    if (fieldGlob (field extensions name) : bool) then nil_error
    else Err (Errorf ("cert field " +:+ name +:+ " doesn't match constraint " +:+
                      QuoteToASCII (field (cc_Extensions cc) name))).

Definition checkExtensions (cc : CertConstraint) (ext : list (string * bytes)) : err :=
  extensions ← wrap "error parsing fulcio cert extensions" (ParseExtensions ext);
  range_res (λ _ name, check_field cc extensions name) tt Extensions_fields.

(** The seven checks of [Check], in their order. *)
Definition cert_checks (cc : CertConstraint) (v : x509_view) (trustBundles : gmap string TrustBundle) : list err :=
  let cert := xv_cert v in
  [ checkCertConstraint "common name" [cc_CommonName cc] [CommonName cert];
    checkCertConstraint "dns name" (cc_DNSNames cc) (DNSNames cert);
    checkCertConstraint "email" (cc_Emails cc) (EmailAddresses cert);
    checkCertConstraint "organization" (cc_Organizations cc) (Organization cert);
    checkCertConstraint "uri" (cc_URIs cc) (URIs cert);
    checkTrustBundles cc v trustBundles;
    checkExtensions cc (Extensions cert) ].

(** The errors of a list of calls, which all run unless one panics. *)
Fixpoint all_errors (ms : list err) : res (list error) :=
  match ms with
  | [] => Ok []
  | Ok _ :: ms => all_errors ms
  | Err e :: ms => es ← all_errors ms; Ok (e :: es)
  | Panic w :: _ => Panic w
  end.

Definition CertConstraint_Check (cc : CertConstraint) (v : x509_view)
    (trustBundles : gmap string TrustBundle) : err :=
  errs ← all_errors (cert_checks cc v trustBundles);
  match errs with
  | [] => nil_error
  | _ => Err (ErrConstraintCheckFailed errs)
  end.

(** ** What an accepted certificate satisfies *)

Lemma all_errors_nil ms : all_errors ms = Ok [] ↔ Forall (λ m, m = nil_error) ms.
Proof.
  induction ms as [|[[]|e|w] ms IH]; simpl.
  - by split.
  - rw IH Forall_cons. unfold nil_error. tauto.
  - split; [|by inversion 1]. by destruct (all_errors ms).
  - split; [done|by inversion 1].
Qed.

Lemma all_errors_total ms : Forall no_panic ms → ∃ es, all_errors ms = Ok es.
Proof.
  induction 1 as [|[[]|e|w] ms Hm _ [es IH]]; simpl; [by eexists|by exists es| |by destruct (Hm w)].
  rw IH. by eexists.
Qed.

Lemma belongs_to_some_true v roots :
  belongs_to_some v roots = Ok true → ∃ root, root ∈ roots ∧ view_belongs v root = nil_error.
Proof.
  induction roots as [|root roots IH]; cbn [belongs_to_some]; [done|].
  destruct (view_belongs v root) as [[]| |] eqn:Hb; [|intros (r & ? & ?)%IH|done].
  - intros _. eauto with elems.
  - eauto with elems.
Qed.

Lemma elem_of_candidate_roots cc bundles root :
  root ∈ candidate_roots cc bundles →
  ∃ id b, bundles !! id = Some b ∧ tb_Root b = root ∧ (cc_Roots cc = [AllowAllConstraint] ∨ id ∈ cc_Roots cc).
Proof.
  unfold candidate_roots. case_bool_decide as Ha.
  - intros (b & -> & ([id b'] & -> & Hin%elem_of_range)%list_elem_of_fmap)%list_elem_of_fmap.
    exists id, b'. split; [done|]. split; [done|by left].
  - intros (id & Hid & Hb)%list_elem_of_omap. apply fmap_Some in Hb as (b & Hb & ->).
    exists id, b. split; [done|]. split; [done|by right].
Qed.

(** A chain to a root the constraint names (any root of the bundles for ["*"]). *)
Definition chains_to_named_root (cc : CertConstraint) (v : x509_view) (bundles : gmap string TrustBundle) : Prop :=
  ∃ id b, bundles !! id = Some b ∧ (cc_Roots cc = [AllowAllConstraint] ∨ id ∈ cc_Roots cc) ∧
    view_belongs v (tb_Root b) = nil_error.

Lemma checkTrustBundles_ok cc v bundles :
  checkTrustBundles cc v bundles = nil_error → chains_to_named_root cc v bundles.
Proof.
  unfold checkTrustBundles. intros ([|] & Hb & ?)%res_bind_ok; [|done].
  apply belongs_to_some_true in Hb as (root & Hin & Hr).
  apply elem_of_candidate_roots in Hin as (id & b & ? & <- & ?). by exists id, b.
Qed.

(** Every constrained extension field is matched by its glob. *)
Definition extensions_match (cc : CertConstraint) (ext : list (string * bytes)) : Prop :=
  ∃ extensions, ParseExtensions ext = Ok extensions ∧
  ∀ name, name ∈ Extensions_fields → field (cc_Extensions cc) name ≠ "" →
    ∃ g, glob_Compile (field (cc_Extensions cc) name) = Ok g ∧ g (field extensions name) = true.

Lemma checkExtensions_ok cc ext : checkExtensions cc ext = nil_error → extensions_match cc ext.
Proof.
  unfold checkExtensions. intros (x & Hx%wrap_ok & Hr)%res_bind_ok. exists x. split; [done|].
  intros name Hin Hne. apply (proj1 (range_res_unit_ok _ _)) with (x:=name) in Hr; [|done].
  unfold check_field in Hr. rw bool_decide_eq_false_2 // in Hr.
  apply res_bind_ok in Hr as (g & Hg & Hr). unfold glob_MustCompile in Hg.
  destruct (glob_Compile _) as [g'| |]; simplify_eq. exists g. split; [done|]. by destruct (g _).
Qed.

(** Everything an accepted certificate satisfies. *)
Definition certificate_accepted (cc : CertConstraint) (v : x509_view) (bundles : gmap string TrustBundle) : Prop :=
  let cert := xv_cert v in
  meets [cc_CommonName cc] [CommonName cert] ∧ meets (cc_DNSNames cc) (DNSNames cert) ∧
  meets (cc_Emails cc) (EmailAddresses cert) ∧ meets (cc_Organizations cc) (Organization cert) ∧
  meets (cc_URIs cc) (URIs cert) ∧ chains_to_named_root cc v bundles ∧
  extensions_match cc (Extensions cert).

Lemma CertConstraint_Check_ok cc v bundles :
  CertConstraint_Check cc v bundles = nil_error → certificate_accepted cc v bundles.
Proof.
  unfold CertConstraint_Check. intros (es & He & H)%res_bind_ok. destruct es; [|done].
  apply all_errors_nil in He. unfold cert_checks in He. rw !Forall_cons in He.
  destruct He as (?%checkCertConstraint_meets & ?%checkCertConstraint_meets & ?%checkCertConstraint_meets &
    ?%checkCertConstraint_meets & ?%checkCertConstraint_meets & ?%checkTrustBundles_ok & ?%checkExtensions_ok & _).
  by repeat split.
Qed.
End check.
