(* ===== verification/PolicyStep.v ===== *)
(** policy: steps, functionaries and step results (step.go) and the evaluation of
    rego policies (rego.go). OPA's parser and evaluator are the class
    [RegoLib]. *)
From S2P Require Import Prelude GoStrings Errors Crypto Keys Digest Timestamp Dsse Intoto Registry Attestation Source VerifiedSource Constraints.
From stdpp Require Import options.

(** The text of an error that the source formats with [err.Error()] itself. *)
Definition nil_deref : string := "runtime error: invalid memory address or nil pointer dereference".
Definition error_text (e : error) : res string :=
  match Error e with Some t => Ok t | None => Panic nil_deref end.

(** * Rego *)

(** The values OPA returns, as the type assertions of the source see them. *)
Inductive rego_value :=
  | RVArray (vs : list rego_value)
  | RVString (s : string)
  | RVOther (go_type : string).
Definition rego_type (v : rego_value) : string :=
  match v with RVArray _ => "[]interface {}" | RVString _ => "string" | RVOther t => t end.

(** An expression of a result: its text and value. *)
Record rego_expression := mkExpression { expr_Text : string; expr_Value : rego_value }.

Class RegoLib := {
  RegoModule : Type;
  JsonValue : Type;
  (* json.Decoder with UseNumber *)
  json_Decode : bytes → res JsonValue;
  ast_ParseModule : string → string → res RegoModule;
  (* fmt's %v of Package.Path *)
  module_path : RegoModule → string;
  (* input, modules, query: the expressions of each result *)
  rego_Eval : JsonValue → list RegoModule → string → res (list (list rego_expression));
}.

Record RegoPolicy := mkRegoPolicy { rp_Module : bytes; rp_Name : string }.

Section rego.
Context {A : Type} `{AO : AttestorOps A} `{RL : RegoLib}.

(** [json.Marshal] of a possibly nil attestor. *)
Definition json_Marshal_nilable (attestor : option A) : res bytes :=
  match attestor with Some a => json_Marshal_Attestor a | None => Ok "null" end.

(** The loop over the policies: the query, the paths it has, the modules. *)
Record rego_query := mkRegoQuery {
  rq_query : string;
  denyPaths : gset string;
  rq_modules : list RegoModule;
}.

Definition deny_path (m : RegoModule) : string := module_path m +:+ ".deny".

Definition add_policy (q : rego_query) (policy : RegoPolicy) : res rego_query :=
  parsedModule ← ast_ParseModule (rp_Name policy) (rp_Module policy);
  let packageDenyPathStr := deny_path parsedModule in
  if bool_decide (packageDenyPathStr ∈ denyPaths q)
  then Ok (mkRegoQuery (rq_query q) (denyPaths q) (rq_modules q ++ [parsedModule]))
  else Ok (mkRegoQuery (rq_query q +:+ deny_path parsedModule +:+ nl)
             (denyPaths q ∪ {[packageDenyPathStr]}) (rq_modules q ++ [parsedModule])).

(** The deny reasons of one expression. *)
Definition deny_reasons (value : rego_expression) : res (list string) :=
  match expr_Value value with
  | RVArray denyReasons =>
      collect (λ reason,
        match reason with
        | RVString s => Ok [s]
        | _ => Err (ErrRegoInvalidData (expr_Text value) "string" (rego_type (expr_Value value)))
        end) denyReasons
  | v => Err (ErrRegoInvalidData (expr_Text value) "[]interface{}" (rego_type v))
  end.

Definition EvaluateRegoPolicy (attestor : option A) (policies : list RegoPolicy) : err :=
  match policies with
  | [] => nil_error
  | _ =>
      attestorJson ← json_Marshal_nilable attestor;
      input ← json_Decode attestorJson;
      q ← range_res add_policy (mkRegoQuery "" ∅ []) policies;
      rs ← rego_Eval input (rq_modules q) (rq_query q);
      allDenyReasons ← collect (λ expression, collect deny_reasons expression) rs;
      match allDenyReasons with
      | [] => nil_error
      | _ =>
          (* attestor.Type() *)
          match attestor with
          | None => Panic nil_deref
          | Some a =>
              Err (Wrapf ("rego policy evaluation failed for attestor type " +:+ Attestor_Type a)
                     (ErrPolicyDenied allDenyReasons))
          end
      end
  end.

(** ** What a policy that passes was asked *)

(** The query's lines for a list of paths. *)
Definition query_of (paths : list string) : string := foldr (λ p q, p +:+ nl +:+ q) "" paths.

Lemma query_of_app p1 p2 : query_of (p1 ++ p2) = query_of p1 +:+ query_of p2.
Proof.
  induction p1 as [|p p1 IH]; [done|]. unfold query_of in *. cbn [app foldr]. rw IH.
  by rw !string_app_assoc.
Qed.

Definition query_inv (q : rego_query) : Prop :=
  ∃ paths, NoDup paths ∧ rq_query q = query_of paths ∧
    (∀ p, p ∈ denyPaths q ↔ p ∈ paths) ∧ (∀ p, p ∈ paths ↔ p ∈ deny_path <$> rq_modules q).

Lemma add_policy_inv q policy q' : query_inv q → add_policy q policy = Ok q' → query_inv q'.
Proof.
  intros (paths & Hnd & Hq & Hset & Hin) (m & _ & H)%res_bind_ok. cbv zeta in H. case_bool_decide as Hp; simplify_eq.
  - exists paths. do 3 (split; [done|]). intros p. simpl. rw fmap_app elem_of_app Hin. split; [by left|].
    intros [?|Hm]; [done|]. apply list_elem_of_singleton in Hm as ->. by apply Hin, Hset.
  - exists (paths ++ [deny_path m]). split; [|split; [|split]].
    + apply NoDup_app. split; [done|]. split; [|apply NoDup_singleton].
      intros p Hp1 ->%list_elem_of_singleton. by apply Hp, Hset.
    + rw query_of_app -Hq /=. by rw string_app_nil_r.
    + intros p. simpl. rw elem_of_union elem_of_app Hset elem_of_singleton list_elem_of_singleton. done.
    + intros p. simpl. rw fmap_app !elem_of_app Hin. done.
Qed.

Lemma add_policies_modules q policies q' :
  range_res add_policy q policies = Ok q' →
  ∃ ms, rq_modules q' = rq_modules q ++ ms ∧
    Forall2 (λ p m, ast_ParseModule (rp_Name p) (rp_Module p) = Ok m) policies ms.
Proof.
  revert q; induction policies as [|p ps IH]; intros q; cbn [range_res].
  { intros [= <-]. exists []. by rw right_id_L. }
  intros (q1 & H1 & (ms & Hms & HF)%IH)%res_bind_ok. unfold add_policy in H1.
  apply res_bind_ok in H1 as (m & Hm & H1). cbv zeta in H1. exists (m :: ms). split; [|by constructor].
  rw Hms. case_bool_decide; simplify_eq/=; by rw -assoc_L.
Qed.

(** The evaluation that a passing list of policies stands for: every module is
    evaluated, the query asks for the deny rules of each package exactly once,
    and no deny rule gives a reason. *)
Definition rego_passes (attestor : option A) (policies : list RegoPolicy) : Prop :=
  policies = [] ∨
  ∃ text input modules paths rs,
    json_Marshal_nilable attestor = Ok text ∧ json_Decode text = Ok input ∧
    Forall2 (λ p m, ast_ParseModule (rp_Name p) (rp_Module p) = Ok m) policies modules ∧
    NoDup paths ∧ (∀ p, p ∈ paths ↔ p ∈ deny_path <$> modules) ∧
    rego_Eval input modules (query_of paths) = Ok rs ∧
    ∀ exprs ex, exprs ∈ rs → ex ∈ exprs → expr_Value ex = RVArray [].

Lemma collect_nil {X Y} (f : X → res (list Y)) l :
  collect f l = Ok [] → ∀ x, x ∈ l → f x = Ok [].
Proof.
  induction l as [|y l IH]; cbn [collect]; [by intros _ ? ?%not_elem_of_nil|].
  intros (ys & Hy & (zs & Hz & H)%res_bind_ok)%res_bind_ok. simplify_eq.
  apply app_eq_nil in H as [-> ->]. intros x [->|Hx]%elem_of_cons; [done|by apply IH].
Qed.

Lemma EvaluateRegoPolicy_ok attestor policies :
  EvaluateRegoPolicy attestor policies = nil_error → rego_passes attestor policies.
Proof.
  unfold EvaluateRegoPolicy. destruct policies as [|p0 ps]; [by left|]. set (policies := p0 :: ps). intros H. right.
  apply res_bind_ok in H as (text & Ht & H). apply res_bind_ok in H as (input & Hi & H).
  apply res_bind_ok in H as (q & Hq & H). apply res_bind_ok in H as (rs & Hrs & H).
  apply res_bind_ok in H as (reasons & Hr & H).
  assert (query_inv q) as (paths & Hnd & Hqq & _ & Hin).
  { eapply (range_res_inv add_policy query_inv); [|..|exact Hq]; [intros ? ? ? _; apply add_policy_inv|].
    exists []. split; [constructor|]. split; [done|]. split; intros p; [set_solver|done]. }
  apply add_policies_modules in Hq as (ms & Hms & HF). simpl in Hms. subst ms.
  exists text, input, (rq_modules q), paths, rs. rw -Hqq. do 6 (split; [done|]).
  intros exprs ex Hexprs Hex. destruct reasons; [|by destruct attestor].
  apply (collect_nil _ _ Hr) in Hexprs. apply (collect_nil _ _ Hexprs) in Hex.
  unfold deny_reasons in Hex. destruct (expr_Value ex) as [vs| |]; [|done..].
  destruct vs as [|v vs]; [done|]. exfalso. pose proof (collect_nil _ _ Hex v ltac:(left)) as Hv. by destruct v.
Qed.
End rego.

(** * Steps *)

Record Functionary := mkFunctionary {
  func_Type : string;
  func_CertConstraint : CertConstraint;
  func_PublicKeyID : string;
}.
Record PolicyAttestation := mkPolicyAttestation {
  pa_Type : string;
  pa_RegoPolicies : list RegoPolicy;
}.
Record Step := mkStep {
  step_Name : string;
  step_Functionaries : list Functionary;
  step_Attestations : list PolicyAttestation;
  step_ArtifactsFrom : list string;
}.

Section step.
Context `{CL : CryptoLib} `{GL : GlobLib} `{FL : FulcioLib} `{RO : RangeOrder}.
Context {A : Type} `{AO : AttestorOps A} `{RL : RegoLib}.

Abbreviation CVR := (CollectionVerificationResult A) (only parsing).

Record RejectedCollection := mkRejected { rej_Collection : CVR; rej_Reason : error }.
Record StepResult := mkStepResult {
  sr_Step : string;
  sr_Passed : list CVR;
  sr_Rejected : list RejectedCollection;
}.

(** [Analyze]: some collection passed, and none that passed carries an error. *)
Definition Analyze (r : StepResult) : bool :=
  foldl (λ pass coll, if bool_decide (0 < length (cvr_Errors coll)) then false else pass)
    (bool_decide (0 < length (sr_Passed r))) (sr_Passed r).

Definition HasErrors (r : StepResult) : bool := bool_decide (0 < length (sr_Rejected r)).
Definition HasPassed (r : StepResult) : bool := bool_decide (0 < length (sr_Passed r)).

(** [StepResult.Error] *)
Definition StepResult_Error (r : StepResult) : res string :=
  errs ← collect (λ reject, t ← error_text (rej_Reason reject); Ok [t]) (sr_Rejected r);
  Ok ("attestations for step " +:+ sr_Step r +:+ " could not be used due to:" +:+ nl +:+ Join errs nl).

(** [Functionary.Validate]; a nil verifier is dereferenced. *)
Definition Functionary_Validate (f : Functionary) (verifier : option Verifier)
    (trustBundles : gmap string TrustBundle) : err :=
  match verifier with
  | None => Panic nil_deref
  | Some verifier =>
    verifierID ← wrap "could not get key id" (Verifier_KeyID verifier);
    if bool_decide (func_PublicKeyID f ≠ "" ∧ func_PublicKeyID f = verifierID) then nil_error
    else
      match verifier with
      | X509Verifier cert _ intermediates _ trustedTime =>
          match cc_Roots (func_CertConstraint f) with
          | [] => Err (Errorf ("verifier with ID " +:+ verifierID +:+
                      " is an x509 verifier, but no trusted roots provided in functionary"))
          | _ =>
              wrap ("verifier with ID " +:+ verifierID +:+ " doesn't meet certificate constraint")
                (CertConstraint_Check (func_CertConstraint f) (mkView cert intermediates trustedTime) trustBundles)
          end
      | _ => Err (Errorf ("verifier with ID " +:+ verifierID +:+
                          " is not a public key verifier or a x509 verifier"))
      end
  end.

(** ** validateAttestations *)

(** The map [found]: the last attestation of each type. *)
Definition found_attestations (c : Collection A) : gmap string (option A) :=
  foldl (λ found att, <[ca_Type att:=ca_Attestation att]> found) ∅ (coll_Attestations c).

(** The loop body for one expected attestation: the flag and the reasons. *)
Definition check_expected (s : Step) (found : gmap string (option A)) (acc : bool * list string)
    (expected : PolicyAttestation) : res (bool * list string) :=
  let '(attestor, ok) := match found !! pa_Type expected with
                         | Some attestor => (attestor, true)
                         | None => (None, false)
                         end in
  acc ← (if (ok : bool) then Ok acc
         else reason ← error_text (ErrMissingAttestation (step_Name s) (pa_Type expected));
              Ok (false, acc.2 ++ [reason]));
  match EvaluateRegoPolicy attestor (pa_RegoPolicies expected) with
  | Ok _ => Ok acc
  | Err e => t ← error_text e; Ok (false, acc.2 ++ [t])
  | Panic w => Panic w
  end.

(** The flag [passed] and the reasons for one collection. *)
Definition check_collection (s : Step) (collection : CVR) : res (bool * list string) :=
  reasons ← collect (λ e, t ← error_text e; Ok ["collection verification failed: " +:+ t]) (cvr_Errors collection);
  range_res (check_expected s (found_attestations (ce_Collection (cvr_Envelope collection))))
    (bool_decide (length (cvr_Errors collection) = 0), reasons) (step_Attestations s).

Definition validate_one (s : Step) (result : StepResult) (collection : CVR) : res StepResult :=
  let name := coll_Name (ce_Collection (cvr_Envelope collection)) in
  if bool_decide (name ≠ step_Name s ∧ name ≠ "") then Ok result
  else
    pr ← check_collection s collection;
    match pr with
    | (true, _) => Ok (mkStepResult (sr_Step result) (sr_Passed result ++ [collection]) (sr_Rejected result))
    | (false, reasons) =>
        let reason := "collection validation failed:" +:+ nl +:+ " - " +:+ Join reasons ("," +:+ nl +:+ " - ") in
        Ok (mkStepResult (sr_Step result) (sr_Passed result)
              (sr_Rejected result ++ [mkRejected collection (Errorf reason)]))
    end.

Definition validateAttestations (s : Step) (collectionResults : list CVR) : res StepResult :=
  range_res (validate_one s) (mkStepResult (step_Name s) [] []) collectionResults.

(** ** checkFunctionaries (policy.go) *)

(** The loops over the verifiers and functionaries of one statement. Every
    success sets the valid functionaries to the statement's plus this verifier,
    and every failure sets the warnings to the statement's plus this one, so
    what remains is the last of each. *)
Definition check_functionary (step : Step) (trustBundles : gmap string TrustBundle) (statement : CVR)
    (st : CVR) (pair : option Verifier * Functionary) : res CVR :=
  match Functionary_Validate pair.2 pair.1 trustBundles with
  | Err e =>
      t ← error_text e;
      Ok (mkCVR (cvr_Verifiers st) (cvr_ValidFunctionaries st) (cvr_Envelope st) (cvr_Errors st)
            (cvr_Warnings statement ++
             ["failed to validate functionary of KeyID " +:+ func_PublicKeyID pair.2 +:+
              " in step " +:+ step_Name step +:+ ": " +:+ t]))
  | Ok _ =>
      Ok (mkCVR (cvr_Verifiers st) (cvr_ValidFunctionaries statement ++ [pair.1]) (cvr_Envelope st)
            (cvr_Errors st) (cvr_Warnings st))
  | Panic w => Panic w
  end.

(** [for verifier { for functionary { ... } }] visits the pairs in this order. *)
Definition verifier_functionary_pairs (step : Step) (statement : CVR) : list (option Verifier * Functionary) :=
  cvr_Verifiers statement ≫= λ verifier, (λ functionary, (verifier, functionary)) <$> step_Functionaries step.

Definition check_statement (step : Step) (trustBundles : gmap string TrustBundle) (result : StepResult)
    (statement : CVR) : res StepResult :=
  let ptype := stmt_PredicateType (ce_Statement (cvr_Envelope statement)) in
  let rejected :=
    if bool_decide (ptype ≠ CollectionType)
    then sr_Rejected result ++ [mkRejected statement
           (Errorf ("predicate type " +:+ ptype +:+ " is not a collection predicate type"))]
    else sr_Rejected result in
  if bool_decide (0 < length (cvr_Verifiers statement)) then
    st ← range_res (check_functionary step trustBundles statement) statement
           (verifier_functionary_pairs step statement);
    if bool_decide (length (cvr_ValidFunctionaries st) = 0)
    then Ok (mkStepResult (sr_Step result) (sr_Passed result)
               (rejected ++ [mkRejected st
                 (Errorf ("no verifiers matched with allowed functionaries for step " +:+ step_Name step))]))
    else Ok (mkStepResult (sr_Step result) (sr_Passed result ++ [st]) rejected)
  else
    Ok (mkStepResult (sr_Step result) (sr_Passed result)
          (rejected ++ [mkRejected statement
            (Errorf "no verifiers present to validate against collection verifiers")])).

Definition checkFunctionaries (step : Step) (statements : list CVR) (trustBundles : gmap string TrustBundle)
    : res StepResult :=
  range_res (check_statement step trustBundles) (mkStepResult (step_Name step) [] []) statements.
(** ** What a functionary accepts *)

(** The verifier has the functionary's key id, or is an X.509 verifier whose
    certificate meets the functionary's constraints. *)
Definition functionary_accepts (f : Functionary) (verifier : Verifier)
    (trustBundles : gmap string TrustBundle) : Prop :=
  (func_PublicKeyID f ≠ "" ∧ Verifier_KeyID verifier = Ok (func_PublicKeyID f)) ∨
  (∃ cert roots ints v t, verifier = X509Verifier cert roots ints v t ∧
     cc_Roots (func_CertConstraint f) ≠ [] ∧
     certificate_accepted (func_CertConstraint f) (mkView cert ints t) trustBundles).

Lemma Functionary_Validate_ok f ov bundles :
  Functionary_Validate f ov bundles = nil_error →
  ∃ v, ov = Some v ∧ functionary_accepts f v bundles.
Proof.
  unfold Functionary_Validate. destruct ov as [v|]; [|done].
  intros (kid & Hk%wrap_ok & H)%res_bind_ok. exists v. split; [done|].
  case_bool_decide as Hid; [left; by destruct Hid as [? <-]|]. right.
  destruct v as [| | |cert rts ints v t|]; try done.
  destruct (cc_Roots _) eqn:Hr; [done|]. apply wrap_ok, CertConstraint_Check_ok in H.
  by exists cert, rts, ints, v, t.
Qed.

(** Some functionary of the step accepts some verifier of the statement. *)
Definition has_functionary (step : Step) (bundles : gmap string TrustBundle) (c : CVR) : Prop :=
  ∃ v f, Some v ∈ cvr_Verifiers c ∧ f ∈ step_Functionaries step ∧ functionary_accepts f v bundles.

(** A collection after the functionary check: only its warnings and valid
    functionaries differ. *)
Definition same_evidence (c c' : CVR) : Prop :=
  cvr_Verifiers c = cvr_Verifiers c' ∧ cvr_Envelope c = cvr_Envelope c' ∧ cvr_Errors c = cvr_Errors c'.

Lemma check_functionaries_inv step bundles statement st :
  cvr_ValidFunctionaries statement = [] →
  range_res (check_functionary step bundles statement) statement
    (verifier_functionary_pairs step statement) = Ok st →
  same_evidence st statement ∧
  (cvr_ValidFunctionaries st ≠ [] → has_functionary step bundles statement).
Proof.
  intros Hvf. set (Inv := λ st : CVR, same_evidence st statement ∧
    (cvr_ValidFunctionaries st ≠ [] → has_functionary step bundles statement)).
  apply (range_res_inv _ Inv); [|split; [done|by rw Hvf]].
  intros s [ov f] s' Hin [Hs Hf]. unfold check_functionary. cbn [fst snd].
  destruct (Functionary_Validate f ov bundles) as [[]|e|w] eqn:Hv; [..|done].
  - intros [= <-]. split; [done|]. intros _.
    destruct (Functionary_Validate_ok _ _ _ Hv) as (v & -> & Ha).
    unfold verifier_functionary_pairs in Hin. apply list_elem_of_bind in Hin as (v' & Hin & Hv').
    apply list_elem_of_fmap in Hin as (f' & Heq & Hf'). simplify_eq. by exists v, f'.
  - intros (t & _ & H)%res_bind_ok. by simplify_eq.
Qed.

(** What [checkFunctionaries] passes on: statements with a functionary, when the
    source leaves the valid functionaries empty. *)
Lemma checkFunctionaries_passed step statements bundles r c :
  Forall (λ st, cvr_ValidFunctionaries st = []) statements →
  checkFunctionaries step statements bundles = Ok r → c ∈ sr_Passed r →
  ∃ st, st ∈ statements ∧ same_evidence c st ∧ has_functionary step bundles st.
Proof.
  intros Hvf Hr. revert c. unfold checkFunctionaries in Hr.
  set (Inv := λ r : StepResult, ∀ c, c ∈ sr_Passed r →
    ∃ st, st ∈ statements ∧ same_evidence c st ∧ has_functionary step bundles st).
  revert Hr. apply (range_res_inv _ Inv); [|by intros ? ?%not_elem_of_nil].
  intros s st s' Hin HI. unfold check_statement. cbv zeta. case_bool_decide as Hlen.
  - intros (st' & Hst & H)%res_bind_ok.
    rw Forall_forall in Hvf. apply check_functionaries_inv in Hst as [Hse Hfn]; [|by apply Hvf].
    case_bool_decide as Hn; simplify_eq; intros c Hc; simpl in Hc; [by apply HI|].
    apply elem_of_app in Hc as [Hc|Hc]; [by apply HI|]. apply list_elem_of_singleton in Hc as ->.
    exists st. split; [done|]. split; [done|]. apply Hfn. intros Hnil. by rw Hnil in Hn.
  - intros [= <-] c Hc. by apply HI.
Qed.

(** ** What validateAttestations passes *)

(** The attestations of a collection answer the step's expectations. *)
Definition attestations_accepted (s : Step) (c : CVR) : Prop :=
  ∀ expected, expected ∈ step_Attestations s →
    ∃ attestor, found_attestations (ce_Collection (cvr_Envelope c)) !! pa_Type expected = Some attestor ∧
      rego_passes attestor (pa_RegoPolicies expected).

Lemma found_attestations_elem c t attestor :
  found_attestations c !! t = Some attestor →
  ∃ ca, ca ∈ coll_Attestations c ∧ ca_Type ca = t ∧ ca_Attestation ca = attestor.
Proof.
  unfold found_attestations. induction (coll_Attestations c) as [|ca cas IH] using rev_ind; [done|].
  rw foldl_app. cbn [foldl]. intros [[? ?]|[? Hl]]%lookup_insert_Some.
  - exists ca. split; [apply elem_of_app; right; by left|done].
  - destruct (IH Hl) as (ca' & ? & ?). exists ca'. split; [apply elem_of_app; by left|done].
Qed.

Lemma check_expected_flag s found acc expected acc' :
  check_expected s found acc expected = Ok acc' → acc'.1 = true →
  acc.1 = true ∧ ∃ attestor, found !! pa_Type expected = Some attestor ∧
    rego_passes attestor (pa_RegoPolicies expected).
Proof.
  unfold check_expected. destruct (found !! pa_Type expected) as [attestor|].
  - cbn [mbind res_bind].
    destruct (EvaluateRegoPolicy _ _) as [[]| |] eqn:He; [|by intros (? & _ & ?)%res_bind_ok; simplify_eq/=|done].
    intros [= <-] Ht. split; [done|]. exists attestor. split; [done|]. by apply EvaluateRegoPolicy_ok.
  - intros (acc1 & (t & _ & Hacc)%res_bind_ok & H)%res_bind_ok. simplify_eq.
    destruct (EvaluateRegoPolicy _ _) as [[]| |]; [by simplify_eq| |done].
    apply res_bind_ok in H as (? & _ & ?). by simplify_eq.
Qed.

Lemma check_collection_passed s c reasons :
  check_collection s c = Ok (true, reasons) → cvr_Errors c = [] ∧ attestations_accepted s c.
Proof.
  unfold check_collection, attestations_accepted. intros (rs & _ & H)%res_bind_ok.
  set (found := found_attestations _) in *.
  assert (Hg : ∀ l acc acc', range_res (check_expected s found) acc l = Ok acc' → acc'.1 = true →
    acc.1 = true ∧ ∀ e, e ∈ l → ∃ attestor, found !! pa_Type e = Some attestor ∧
      rego_passes attestor (pa_RegoPolicies e)).
  { induction l as [|e l IH]; intros acc acc'; cbn [range_res].
    - intros [= <-] ?. split; [done|]. by intros ? ?%not_elem_of_nil.
    - intros (acc1 & H1 & H2)%res_bind_ok Ht. destruct (IH _ _ H2 Ht) as [Ht1 Hl].
      destruct (check_expected_flag _ _ _ _ _ H1 Ht1) as [? ?]. split; [done|].
      intros e' [->|He]%elem_of_cons; [done|by apply Hl]. }
  destruct (Hg _ _ _ H eq_refl) as [Hflag Hl]. split; [|done].
  simpl in Hflag. apply bool_decide_eq_true in Hflag. by apply nil_length_inv.
Qed.

(** Everything a collection passed by [validateAttestations] satisfies. *)
Definition collection_accepted (s : Step) (c : CVR) : Prop :=
  (coll_Name (ce_Collection (cvr_Envelope c)) = step_Name s ∨ coll_Name (ce_Collection (cvr_Envelope c)) = "") ∧
  cvr_Errors c = [] ∧ attestations_accepted s c.

Lemma validateAttestations_passed s cs r c :
  validateAttestations s cs = Ok r → c ∈ sr_Passed r → c ∈ cs ∧ collection_accepted s c.
Proof.
  intros Hr. revert c. unfold validateAttestations in Hr.
  set (Inv := λ r : StepResult, ∀ c, c ∈ sr_Passed r → c ∈ cs ∧ collection_accepted s c).
  revert Hr. apply (range_res_inv _ Inv); [|by intros ? ?%not_elem_of_nil].
  intros r0 c r1 Hin HI. unfold validate_one. cbv zeta. case_bool_decide as Hname; [by intros [= <-]|].
  intros ([[|] reasons] & Hc & H)%res_bind_ok; simplify_eq; intros c' Hc'; simpl in Hc'; [|by apply HI].
  apply elem_of_app in Hc' as [Hc'|Hc']; [by apply HI|]. apply list_elem_of_singleton in Hc' as ->.
  split; [done|]. apply check_collection_passed in Hc as [? ?]. split; [|done].
  destruct (decide (coll_Name (ce_Collection (cvr_Envelope c)) = step_Name s)); [by left|right].
  apply dec_stable. intros ?. by apply Hname.
Qed.

Lemma validateAttestations_Step s cs r : validateAttestations s cs = Ok r → sr_Step r = step_Name s.
Proof.
  unfold validateAttestations. apply (range_res_inv _ (λ r, sr_Step r = step_Name s)); [|done].
  intros r0 c r1 _ HI. unfold validate_one. cbv zeta. case_bool_decide; [by intros [= <-]|].
  intros ([[|] reasons] & _ & Hres)%res_bind_ok; by simplify_eq.
Qed.

Lemma Analyze_true r : Analyze r = true ↔ sr_Passed r ≠ [] ∧ ∀ c, c ∈ sr_Passed r → cvr_Errors c = [].
Proof.
  unfold Analyze. destruct (sr_Passed r) as [|c0 cs] eqn:Hp; [by split; [|intros [? _]]|].
  rw -Hp. rw (bool_decide_eq_true_2 (0 < length (sr_Passed r))); [|rw Hp; simpl; lia].
  assert (Hg : ∀ l b, foldl (λ pass (coll : CVR), if bool_decide (0 < length (cvr_Errors coll)) then false else pass) b l
    = true ↔ b = true ∧ ∀ c, c ∈ l → cvr_Errors c = []).
  { induction l as [|c l IH]; intros b; cbn [foldl]; [set_solver|]. rw IH. case_bool_decide as He.
    - split; [by intros [? _]|]. intros [_ Hc]. rw Hc in He; [simpl in He; lia|left].
    - assert (cvr_Errors c = []) by (destruct (cvr_Errors c); [done|simpl in *; lia]). set_solver. }
  rw Hg. rw Hp. naive_solver.
Qed.
End step.
Arguments RejectedCollection {CL} A.
Arguments StepResult {CL} A.
