(* ===== verification/KMS.v ===== *)
(** signer: the KMS provider (signer/kms/signerprovider.go). The clients of the cloud
    services, which the packages below signer/kms register, are the values of the
    map [providersMap]. *)
From S2P Require Import Prelude GoStrings Errors Crypto Keys Registry.
From stdpp Require Import options.

(** [crypto.SHA224] *)
Definition SHA224 : Hash := 4%N.

(** [KMSSignerProvider]; of its client options only the provider name and the
    configurers are used. *)
Record KMSSignerProvider := mkKSP {
  ksp_Reference : string;
  ksp_KeyVersion : string;
  ksp_HashFunc : Hash;
  ksp_Options : gmap string string;
}.

Definition KMSOption := KMSSignerProvider → KMSSignerProvider.

Definition WithRef (ref : string) : KMSOption := λ ksp,
  mkKSP ref (ksp_KeyVersion ksp) (ksp_HashFunc ksp) (ksp_Options ksp).

(** The hash a name selects: the switch is case sensitive, and anything else is
    SHA256. *)
Definition kms_hash (hash : string) : Hash :=
  if bool_decide (hash = "SHA224") then SHA224
  else if bool_decide (hash = "SHA256") then SHA256
  else if bool_decide (hash = "SHA384") then SHA384
  else if bool_decide (hash = "SHA512") then SHA512
  else SHA256.
Definition WithHash (hash : string) : KMSOption := λ ksp,
  mkKSP (ksp_Reference ksp) (ksp_KeyVersion ksp) (kms_hash hash) (ksp_Options ksp).

Definition WithKeyVersion (keyVersion : string) : KMSOption := λ ksp,
  mkKSP (ksp_Reference ksp) keyVersion (ksp_HashFunc ksp) (ksp_Options ksp).

(** The dynamic types behind [SignerProvider]: a KMS provider, or another one.
    A setter returns the provider it was given (mutated in place), another one, or
    nil, and an error. *)
Inductive SignerProvider :=
  | SPKms (ksp : KMSSignerProvider)
  | SPOther (go_type : string).

(** The setters [init] registers, over one of the three options: they fail on a
    provider of another type. *)
Definition kms_setter (opt : string → KMSOption) (sp : SignerProvider) (v : string)
    : SignerProvider * option error :=
  match sp with
  | SPKms ksp => (SPKms (opt v ksp), None)
  | SPOther _ => (sp, Some (Errorf "provided signer provider is not a kms signer provider"))
  end.
Definition kms_configurers : list (Configurer SignerProvider) :=
  [ CString (NewConfigOption "ref" "The KMS Reference URI to use for connecting to the KMS service"
               "" (kms_setter WithRef));
    CString (NewConfigOption "hashType" "The hash type to use for signing" "sha256" (kms_setter WithHash));
    CString (NewConfigOption "keyVersion" "The key version to use for signing" "" (kms_setter WithKeyVersion)) ].

(** Those of the verifier provider, which is the same type behind [VerifierProvider]. *)
Definition kms_verifier_setter (opt : string → KMSOption) (sp : SignerProvider) (v : string)
    : SignerProvider * option error :=
  match sp with
  | SPKms ksp => (SPKms (opt v ksp), None)
  | SPOther _ => (sp, Some (Errorf "provided verifier provider is not a kms verifier provider"))
  end.
Definition kms_verifier_configurers : list (Configurer SignerProvider) :=
  [ CString (NewConfigOption "ref" "The KMS Reference URI to use for connecting to the KMS service"
               "" (kms_verifier_setter WithRef));
    CString (NewConfigOption "hashType" "The hash type used for verifying" "sha256" (kms_verifier_setter WithHash));
    CString (NewConfigOption "keyVersion" "The key version to use for signing" "" (kms_verifier_setter WithKeyVersion)) ].

(** [KMSClientOptions]: the configurers [Init] returns and the name. *)
Record KMSClientOptions := mkClientOptions {
  Init : list (Configurer SignerProvider);
  ProviderName : string;
}.

Section kms.
Context `{CL : CryptoLib} `{RO : RangeOrder}.

(** The package's maps: the initialisers and the client options (possibly nil)
    by reference prefix. *)
Record kms_state := mkKmsState {
  providersMap : gmap string (KMSSignerProvider → res Signer);
  providerOptionsMap : gmap string (option KMSClientOptions);
}.

Definition AddProvider (st : kms_state) (keyResourceID : string) (opts : option KMSClientOptions)
    (init : KMSSignerProvider → res Signer) : kms_state :=
  mkKmsState (<[keyResourceID:=init]> (providersMap st))
    (<[keyResourceID:=opts]> (providerOptionsMap st)).

Definition SupportedProviders (st : kms_state) : list string := (range_map 0 (providersMap st)).*1.

Definition ProviderNotFoundError (ref : string) : error :=
  Errorf ("no kms provider found for key reference: " +:+ ref).

(** The loop of [New] that collects the client options by provider name. *)
Definition client_options (st : kms_state) : gmap string KMSClientOptions :=
  foldl (λ m kv, match kv.2 with None => m | Some opt => <[ProviderName opt:=opt]> m end) ∅
    (range_map 0 (providerOptionsMap st)).

(** [New]: the options are applied to the zero provider, then the defaults of the
    client options. The setters work on the provider itself, so what they did
    before one of them failed stays. *)
Definition kms_New (st : kms_state) (opts : list KMSOption) : KMSSignerProvider :=
  let ksp := foldl (λ ksp opt, opt ksp) (mkKSP "" "" 0%N ∅) opts in
  let options := client_options st in
  let ksp := mkKSP (ksp_Reference ksp) (ksp_KeyVersion ksp) (ksp_HashFunc ksp) (ProviderName <$> options) in
  let allConfigurers := (range_map 1 options).*2 ≫= Init in
  match (SetDefaultVals (SPKms ksp) allConfigurers).1 with
  | SPKms ksp2 => ksp2
  | SPOther _ => ksp
  end.

(** The initialiser of the first prefix of the reference, in the map's order. *)
Definition find_provider (st : kms_state) (ksp : KMSSignerProvider) : option (KMSSignerProvider → res Signer) :=
  snd <$> find (λ rp, HasPrefix (ksp_Reference ksp) rp.1) (range_map 2 (providersMap st)).

Definition KMS_Signer (st : kms_state) (ksp : KMSSignerProvider) : res Signer :=
  match find_provider st ksp with
  | Some pi => pi ksp
  | None => Err (ProviderNotFoundError (ksp_Reference ksp))
  end.

Definition KMS_Verifier (st : kms_state) (ksp : KMSSignerProvider) : res Verifier :=
  match find_provider st ksp with
  | Some pi => p ← pi ksp; Signer_Verifier p
  | None => Err (ProviderNotFoundError (ksp_Reference ksp))
  end.

(** ** Lemmas *)

Lemma find_provider_Some st ksp pi :
  find_provider st ksp = Some pi →
  ∃ ref, providersMap st !! ref = Some pi ∧ HasPrefix (ksp_Reference ksp) ref = true.
Proof.
  unfold find_provider. intros ([ref pi'] & Hf & ->)%fmap_Some.
  apply find_some in Hf as [Hin Hp]. exists ref. split; [|done].
  by apply list_elem_of_In, elem_of_range in Hin.
Qed.

Lemma find_provider_None st ksp :
  find_provider st ksp = None ↔
  ∀ ref, is_Some (providersMap st !! ref) → HasPrefix (ksp_Reference ksp) ref = false.
Proof.
  unfold find_provider. rw fmap_None. split.
  - intros Hn ref [pi Hpi]. apply (find_none _ _ Hn (ref, pi)).
    by apply list_elem_of_In, elem_of_range.
  - intros Hall. destruct (find _ _) as [[ref pi]|] eqn:Hf; [|done].
    apply find_some in Hf as [Hin Hp]. apply list_elem_of_In, elem_of_range in Hin.
    rw Hall in Hp; [done|by eexists].
Qed.

(** A reference that no provider's prefix matches has neither signer nor
    verifier; one that a prefix matches is handed to such a provider. *)
Lemma KMS_Verifier_spec st ksp :
  ((∀ ref, is_Some (providersMap st !! ref) → HasPrefix (ksp_Reference ksp) ref = false) ∧
     KMS_Verifier st ksp = Err (ProviderNotFoundError (ksp_Reference ksp))) ∨
  (∃ ref pi, providersMap st !! ref = Some pi ∧ HasPrefix (ksp_Reference ksp) ref = true ∧
     KMS_Verifier st ksp = p ← pi ksp; Signer_Verifier p).
Proof.
  unfold KMS_Verifier. destruct (find_provider st ksp) as [pi|] eqn:Hf.
  - right. destruct (find_provider_Some _ _ _ Hf) as (ref & ? & ?). by exists ref, pi.
  - left. split; [by apply find_provider_None|done].
Qed.
End kms.
