(* ===== verification/KmsClients.v ===== *)
(** The clients of the cloud services below signer/kms: what they share. The options
    of a client are one object per package, which [AddProvider] registers and every
    provider that [New] makes points to: they are a store next to the providers.
    The public keys are kept in a cache with a time to live. *)
From S2P Require Import Prelude Receiver GoStrings GoText Errors Crypto Keys Registry Host KMS.
From stdpp Require Import options.

(** ** The options of the clients *)

(** signer/kms/aws/client.go: [awsClientOptions] *)
Record awsClientOptions := mkAws {
  insecureSkipVerify : bool;
  credentialsFile : string;
  configFile : string;
  profile : string;
  verifyRemotely : bool;
}.
(** signer/kms/gcp/client.go: [gcpClientOptions], with the credential types of
    google.golang.org/api/option. *)
Inductive CredentialsType := NoCredentialsType | ServiceAccount | AuthorizedUser.
Record gcpClientOptions := mkGcp { gcp_credentialsFile : string; credType : CredentialsType }.
(** signer/kms/azure/client.go: [azureClientOptions] *)
Record azureClientOptions := mkAzure { azure_verifyRemotely : bool }.
(** signer/kms/hashivault/options.go: [clientOptions] *)
Record clientOptions := mkVault {
  addr : string;
  transitSecretEnginePath : string;
  keyVersion : Z;
  keyPath : string;
  authMethod : string;
  tokenPath : string;
  kubernetesSaTokenPath : string;
  role : string;
  kubernetesMountPath : string;
}.

(** The four objects that the packages register. *)
Record client_store := mkStore {
  st_aws : awsClientOptions;
  st_gcp : gcpClientOptions;
  st_azure : azureClientOptions;
  st_vault : clientOptions;
}.
Definition initial_store : client_store :=
  mkStore (mkAws false "" "" "" false) (mkGcp "" NoCredentialsType) (mkAzure false)
    (mkVault "" "" 0 "" "" "" "" "" "").
Definition on_aws (f : awsClientOptions → awsClientOptions) (st : client_store) : client_store :=
  mkStore (f (st_aws st)) (st_gcp st) (st_azure st) (st_vault st).
Definition on_gcp (f : gcpClientOptions → gcpClientOptions) (st : client_store) : client_store :=
  mkStore (st_aws st) (f (st_gcp st)) (st_azure st) (st_vault st).
Definition on_azure (f : azureClientOptions → azureClientOptions) (st : client_store) : client_store :=
  mkStore (st_aws st) (st_gcp st) (f (st_azure st)) (st_vault st).
Definition on_vault (f : clientOptions → clientOptions) (st : client_store) : client_store :=
  mkStore (st_aws st) (st_gcp st) (st_azure st) (f (st_vault st)).

(** A provider in the presence of the store. In the map of a provider's options the
    name of a package stands for its object. *)
Definition configured : Type := SignerProvider * client_store.

(** [strings.TrimSuffix] *)
Definition TrimSuffix (s suffix : string) : string :=
  if HasSuffix s suffix then take_str (slen s - slen suffix) s else s.
Definition provider_name (scheme : string) : string := "kms-" +:+ TrimSuffix scheme "kms://".

Definition no_kms_provider : error := Errorf "provided signer provider is not a kms signer provider".
(** The setters of the options: they change the package's object. *)
Definition client_setter {V} (name missing : string) (opt : V → client_store → client_store)
    (w : configured) (v : V) : configured * option error :=
  match w.1 with
  | SPOther _ => (w, Some no_kms_provider)
  | SPKms ksp =>
      if bool_decide (ksp_Options ksp !! name = Some name) then ((w.1, opt v w.2), None)
      else (w, Some (Errorf missing))
  end.
(** Those of gcp look for the object among all values, and return no provider when
    it is not there. *)
Definition search_setter {V} (name missing : string) (opt : V → client_store → client_store)
    (w : configured) (v : V) : configured * option error :=
  match w.1 with
  | SPOther _ => (w, Some no_kms_provider)
  | SPKms ksp =>
      if bool_decide (name ∈ (map_to_list (ksp_Options ksp)).*2) then ((w.1, opt v w.2), None)
      else ((SPOther "<nil>", w.2), Some (Errorf missing))
  end.

(** ** github.com/jellydator/ttlcache/v3, for the one key that each client uses, with
    touching on hits disabled *)

Record Item (V : Type) := mkItem { item_Value : V; item_ExpiresAt : option Z }.
Arguments mkItem {V}.
Arguments item_Value {V}.
Arguments item_ExpiresAt {V}.
Definition Cache (V : Type) : Type := option (Item V).

(** An item expires after its time; one without a positive time to live never does. *)
Definition expired {V} (now : Z) (i : Item V) : bool :=
  match item_ExpiresAt i with Some t => bool_decide (t < now)%Z | None => false end.
Definition cache_Set {V} (now ttl : Z) (v : V) : Cache V :=
  Some (mkItem v (if bool_decide (0 < ttl)%Z then Some (now + ttl)%Z else None)).
(** [Get] with a loader, which is called when there is no item or it has expired,
    and which sets the item when it succeeds. *)
Definition cache_Get {V} (now ttl : Z) (load : res V) (c : Cache V) : Cache V * res V :=
  match c with
  | Some i => if expired now i then
                match load with Ok v => (cache_Set now ttl v, Ok v) | m => (c, m) end
              else (c, Ok (item_Value i))
  | None => match load with Ok v => (cache_Set now ttl v, Ok v) | m => (c, m) end
  end.

(** The time to live of a key, in seconds. *)
Definition key_ttl : Z := 300.

(** Every item was loaded, and not longer ago than its time to live. *)
Definition cache_ok {V} (ttl : Z) (load : Z → res V) (now : Z) (c : Cache V) : Prop :=
  match c with
  | None => True
  | Some i => ∃ t, (t ≤ now)%Z ∧ load t = Ok (item_Value i) ∧
                item_ExpiresAt i = if bool_decide (0 < ttl)%Z then Some (t + ttl)%Z else None
  end.

Lemma cache_ok_later {V} ttl (load : Z → res V) now now' c :
  (now ≤ now')%Z → cache_ok ttl load now c → cache_ok ttl load now' c.
Proof. destruct c as [i|]; [|done]. intros Hle (t & Ht & Hl & He). exists t. split; [lia|done]. Qed.

(** What [Get] gives was loaded now or within the time to live, and the cache stays
    well formed; an error is the loader's, and leaves the cache. *)
Lemma cache_Get_ok {V} ttl (load : Z → res V) now c c' r :
  cache_ok ttl load now c → cache_Get now ttl (load now) c = (c', r) →
  cache_ok ttl load now c' ∧
  match r with
  | Ok v => ∃ t, (t ≤ now)%Z ∧ ((0 < ttl)%Z → (now ≤ t + ttl)%Z) ∧ load t = Ok v
  | _ => r = load now ∧ c' = c
  end.
Proof.
  assert (∀ v, load now = Ok v → cache_ok ttl load now (cache_Set now ttl v)) as Hset.
  { intros v Hv. exists now. by split_and!. }
  assert (∀ v, load now = Ok v → ∃ t, (t ≤ now)%Z ∧ ((0 < ttl)%Z → (now ≤ t + ttl)%Z) ∧ load t = Ok v) as Hnow.
  { intros v Hv. exists now. split_and!; [lia|lia|done]. }
  unfold cache_Get. intros Hc. destruct c as [i|].
  - destruct (expired now i) eqn:He.
    + destruct (load now) as [v|e|w] eqn:Hl; intros [= <- <-]; [split; [by apply Hset|by apply Hnow]|by split..].
    + intros [= <- <-]. split; [done|]. destruct Hc as (t & Ht & Hl & Hx). exists t. split; [done|]. split; [|done].
      intros Hpos. unfold expired in He. rw Hx bool_decide_eq_true_2 in He; [|done].
      by apply bool_decide_eq_false in He; lia.
  - destruct (load now) as [v|e|w] eqn:Hl; intros [= <- <-]; [split; [by apply Hset|by apply Hnow]|by split..].
Qed.

(** ** References *)

(** [s] is not empty. *)
Definition nonempty (s : string) : bool := negb (bool_decide (s = "")).
Fixpoint all_chars (p : ascii → bool) (s : string) : bool :=
  match s with "" => true | String c s => p c && all_chars p s end.
Definition slash_char : ascii := ascii_of_nat 47.
(** [c?] *)
Definition skip_char (c : ascii) (s : string) : string :=
  match s with String x s' => if bool_decide (x = c) then s' else s | "" => "" end.
(** [[A-Fa-f0-9]{n}] *)
Definition is_hex_char (c : ascii) : bool := bool_decide (is_Some (unhex_digit c)).
Fixpoint take_hex (n : nat) (s : string) : option string :=
  match n, s with
  | 0, _ => Some s
  | S n, String c s => if is_hex_char c then take_hex n s else None
  | S _, "" => None
  end.

(** A method of a part of the receiver, and one whose error gets a prefix. *)
Definition on_part {S T A} (get : S → T) (set : S → T → S) (m : recv T A) : recv S A :=
  λ s, let (t, r) := m (get s) in (set s t, r).
Definition wrapped {S A} (msg : string) (m : recv S A) : recv S A := λ s, let (s, r) := m s in (s, wrap msg r).

(** The loop over a package's hash functions that sets the field, zero without a
    match. *)
Definition supported_hash (supported : list Hash) (h : Hash) : Hash :=
  foldl (λ acc hashFunc, if bool_decide (hashFunc = h) then h else acc) 0%N supported.
(** The loop over the options of the provider that looks for a package's object. *)
Definition has_options (name : string) (ksp : KMSSignerProvider) : bool :=
  bool_decide (name ∈ (map_to_list (ksp_Options ksp)).*2).

(** ** signer/kms/aws: client.go and signer.go. The SDK is the class [AwsApi]; its
    answers can change from one time to another. *)
Inductive SigningAlgorithm :=
  | RsassaPssSha256 | RsassaPssSha384 | RsassaPssSha512
  | RsassaPkcs1V15Sha256 | RsassaPkcs1V15Sha384 | RsassaPkcs1V15Sha512
  | EcdsaSha256 | EcdsaSha384 | EcdsaSha512
  | OtherAlgorithm (name : string).
(** [types.CustomerMasterKeySpec] *)
Inductive KeySpec := Rsa2048 | Rsa3072 | Rsa4096 | EccNistP256 | EccNistP384 | EccNistP521.

(** What the client is made of. *)
Record aws_config := mkConfig {
  cfg_insecure : bool;
  cfg_credentials : option string;
  cfg_file : option string;
  cfg_profile : option string;
  cfg_endpoint : option string;
}.
(** [DescribeKey] gives the signing algorithms of the key's metadata, if it has any. *)
Class AwsApi := {
  homedir_Expand : string → res string;
  LoadDefaultConfig : aws_config → err;
  aws_GetPublicKey : Z → aws_config → string → res bytes;
  aws_DescribeKey : Z → aws_config → string → res (option (list SigningAlgorithm));
  aws_Sign : Z → aws_config → string → bytes → SigningAlgorithm → res bytes;
  aws_Verify : Z → aws_config → string → bytes → bytes → SigningAlgorithm → err;
  spec_string : KeySpec → string;
}.

Module Aws.

Definition ReferenceScheme : string := "awskms://".
Definition providerName : string := provider_name ReferenceScheme.
Definition errKMSReference : error :=
  Errorf "kms specification should be in the format awskms://[ENDPOINT]/[ID/ALIAS/ARN] (endpoint optional)".

(** *** References *)

(** [uuidRE], to the end. *)
Definition uuidRE (s : string) : bool :=
  let s := skip_char "-" (skip_char "k" (skip_char "r" (skip_char "m" s))) in
  match (s ← take_hex 8 s; s ← take_hex 4 (skip_char "-" s); s ← take_hex 4 (skip_char "-" s);
         s ← take_hex 4 (skip_char "-" s); take_hex 12 (skip_char "-" s)) with
  | Some "" => true
  | _ => false
  end.
Definition is_region_char (c : ascii) : bool :=
  let n := nat_of_ascii c in
  bool_decide (97 ≤ n ∧ n ≤ 122) || is_digit c || bool_decide (c = "-"%char).
(** [arnRE]: what follows it. *)
Definition arnRE (s : string) : option string :=
  s ← CutPrefix s "arn:";
  match cut_byte ":" s with
  | (partition, Some s) =>
      if bool_decide (partition ∈ ["aws"; "aws-us-gov"; "aws-cn"]) then
        s ← CutPrefix s "kms:";
        match cut_byte ":" s with
        | (region, Some s) =>
            if nonempty region && all_chars is_region_char region then
              match cut_byte ":" s with
              | (account, Some s) =>
                  if bool_decide (slen account = 12) && all_chars is_digit account then Some s else None
              | _ => None
              end
            else None
        | _ => None
        end
      else None
  | _ => None
  end.
Definition aliasRE (s : string) : bool := HasPrefix s "alias/" && byte_free (ascii_of_nat 10) s.

(** The part of the reference behind the host, matched by the four expressions in
    turn: the alias, if there is one. *)
Definition allREs : list (string → option string) :=
  [ (λ s, if uuidRE s then Some "" else None);
    (λ s, r ← arnRE s; r ← CutPrefix r "key/"; if uuidRE r then Some "" else None);
    (λ s, if aliasRE s then Some s else None);
    (λ s, r ← arnRE s; if aliasRE r then Some r else None) ].
Definition submatch (ref : string) (re : string → option string) : option (string * string * string) :=
  s ← CutPrefix ref ReferenceScheme;
  match cut_byte slash_char s with
  | (host, Some id) => alias ← re id; Some (host, id, alias)
  | _ => None
  end.
Fixpoint first_match {A B} (f : A → option B) (l : list A) : option B :=
  match l with [] => None | x :: l => match f x with Some y => Some y | None => first_match f l end end.

Definition ValidReference (ref : string) : err :=
  if existsb (λ re, bool_decide (is_Some (submatch ref re))) allREs then nil_error else Err errKMSReference.
(** The endpoint, the key ID and the alias. *)
Definition ParseReference (resourceID : string) : res (string * string * string) :=
  match first_match (submatch resourceID) allREs with
  | Some v => Ok v
  | None => Err (Errorf ("invalid awskms format " +:+ QuoteToASCII resourceID))
  end.

(** *** Options *)

Definition WithInsecureSkipVerify (b : bool) : client_store → client_store := on_aws (λ o,
  mkAws b (credentialsFile o) (configFile o) (profile o) (verifyRemotely o)).
Definition WithRemoteVerify (b : bool) : client_store → client_store := on_aws (λ o,
  mkAws (insecureSkipVerify o) (credentialsFile o) (configFile o) (profile o) b).
Definition WithCredentialsFile (s : string) : client_store → client_store := on_aws (λ o,
  mkAws (insecureSkipVerify o) s (configFile o) (profile o) (verifyRemotely o)).
Definition WithConfigFile (s : string) : client_store → client_store := on_aws (λ o,
  mkAws (insecureSkipVerify o) (credentialsFile o) s (profile o) (verifyRemotely o)).
Definition WithProfile (s : string) : client_store → client_store := on_aws (λ o,
  mkAws (insecureSkipVerify o) (credentialsFile o) (configFile o) s (verifyRemotely o)).

Definition missing : string := "failed to get aws client options from aws kms signer provider".
Definition Init : list (Configurer configured) :=
  [ CBool (NewConfigOption "remote-verify"
      "verify signature using AWS KMS remote verification. If false, the public key will be pulled from AWS KMS and verification will take place locally"
      true (client_setter providerName missing WithRemoteVerify));
    CBool (NewConfigOption "insecure-skip-verify" "Skip verification of the server's certificate chain and host name"
      false (client_setter providerName missing WithInsecureSkipVerify));
    CString (NewConfigOption "credentials-file" "The shared credentials file to use with the AWS KMS signer provider"
      "" (client_setter providerName missing WithCredentialsFile));
    CString (NewConfigOption "config-file" "The shared configuration file to use with the AWS KMS signer provider"
      "" (client_setter providerName missing WithConfigFile));
    CString (NewConfigOption "profile" "The shared configuration profile to use with the AWS KMS signer provider"
      "" (client_setter providerName missing WithProfile)) ].

Section aws.
Context `{CL : CryptoLib} `{HF : HostFiles} `{AA : AwsApi}.

(** *** The client *)

Record cmk := mkCMK { KeyMetadata : option (list SigningAlgorithm); cmk_PublicKey : AnyKey }.
Record awsClient := mkClient {
  client : aws_config;
  endpoint : string;
  keyID : string;
  alias : string;
  keyCache : Cache cmk;
}.
Definition set_cache (a : awsClient) (c : Cache cmk) : awsClient :=
  mkClient (client a) (endpoint a) (keyID a) (alias a) c.

(** The first algorithm of the key; there need not be one. *)
Definition signing_algorithm (c : cmk) : res SigningAlgorithm :=
  match KeyMetadata c with
  | None => Panic "nil pointer dereference"
  | Some [] => Panic "index out of range [0] with length 0"
  | Some (alg :: _) => Ok alg
  end.
Definition alg_hash (alg : SigningAlgorithm) : Hash :=
  match alg with
  | RsassaPssSha256 | RsassaPkcs1V15Sha256 | EcdsaSha256 => SHA256
  | RsassaPssSha384 | RsassaPkcs1V15Sha384 | EcdsaSha384 => SHA384
  | RsassaPssSha512 | RsassaPkcs1V15Sha512 | EcdsaSha512 => SHA512
  | OtherAlgorithm _ => 0%N
  end.
Definition HashFunc (c : cmk) : res Hash := alg_hash <$> signing_algorithm c.
Definition cmk_Verifier (c : cmk) : res Verifier :=
  h ← HashFunc c;
  NewVerifier (PKey (cmk_PublicKey c)) [VerifyWithHash h].

(** A file of the user's home directory. *)
Definition expand (f : string) : res string := wrap "expanding credentials file to full path" (homedir_Expand f).
Definition setupClient (st : client_store) (ksp : KMSSignerProvider) (endpoint : string) : res aws_config :=
  if negb (has_options providerName ksp)
  then Err (Errorf "unable to find aws client options in aws kms signer provider")
  else
    let o := st_aws st in
    creds ← (if bool_decide (credentialsFile o = "") then Ok None
             else f ← expand (credentialsFile o);
                  _ ← wrap "error reading credentials file" (host_ReadFile f);
                  Ok (Some f));
    file ← (if bool_decide (configFile o = "") then Ok None else Some <$> expand (configFile o));
    let prof := if bool_decide (profile o = "") then None else Some (profile o) in
    _ ← wrap "loading AWS config" (LoadDefaultConfig (mkConfig (insecureSkipVerify o) creds file prof None));
    Ok (mkConfig (insecureSkipVerify o) creds file prof
          (if bool_decide (endpoint = "") then None else Some ("https://" +:+ endpoint))).
Definition newAWSClient (st : client_store) (ksp : KMSSignerProvider) : res awsClient :=
  _ ← ValidReference (ksp_Reference ksp);
  v ← ParseReference (ksp_Reference ksp);
  let '(endpoint, keyID, alias) := v in
  client ← setupClient st ksp endpoint;
  Ok (mkClient client endpoint keyID alias None).

Definition fetchPublicKey (now : Z) (a : awsClient) : res AnyKey :=
  out ← wrap "getting public key" (aws_GetPublicKey now (client a) (keyID a));
  wrap "parsing public key" (ParsePKIXPublicKey out).
Definition fetchKeyMetadata (now : Z) (a : awsClient) : res (option (list SigningAlgorithm)) :=
  wrap "getting key metadata" (aws_DescribeKey now (client a) (keyID a)).
Definition fetchCMK (now : Z) (a : awsClient) : res cmk :=
  k ← fetchPublicKey now a;
  m ← fetchKeyMetadata now a;
  Ok (mkCMK m k).
Definition getCMK (now : Z) : recv awsClient cmk := λ a,
  let (c, r) := cache_Get now key_ttl (fetchCMK now a) (keyCache a) in (set_cache a c, r).
Definition getHashFunc (now : Z) : recv awsClient Hash :=
  c ← getCMK now;
  call (HashFunc c).

Definition awsSupportedAlgorithms : list KeySpec := [Rsa2048; Rsa3072; Rsa4096; EccNistP256; EccNistP384; EccNistP521].
Definition awsSupportedHashFuncs : list Hash := [SHA256; SHA384; SHA512].

Definition client_verifyRemotely (now : Z) (sig : bytes) (message : Reader) : recv awsClient unit :=
  c ← getCMK now;
  h ← call (HashFunc c);
  d ← call (ComputeDigest message h (Some awsSupportedHashFuncs));
  alg ← call (signing_algorithm c);
  a ← self;
  call (wrap "unable to verify signature" (aws_Verify now (client a) (keyID a) d.1 sig alg)).
(** The options are looked at when a signature is verified. *)
Definition client_verify (now : Z) (st : client_store) (sig message : Reader) : recv awsClient unit :=
  s ← call sig;
  if (verifyRemotely (st_aws st) : bool) then client_verifyRemotely now s message
  else
    c ← getCMK now;
    verifier ← call (cmk_Verifier c);
    m ← call message;
    call (Verifier_Verify verifier m s).
Definition client_sign (now : Z) (digest : bytes) : recv awsClient bytes :=
  c ← getCMK now;
  alg ← call (signing_algorithm c);
  a ← self;
  call (wrap "signing with kms" (aws_Sign now (client a) (keyID a) digest alg)).

(** *** The signer *)

Record SignerVerifier := mkSV { reference : string; sv_client : awsClient; hashFunc : Hash }.
Definition on_client {A} (m : recv awsClient A) : recv SignerVerifier A :=
  on_part sv_client (λ s c, mkSV (reference s) c (hashFunc s)) m.

Definition LoadSignerVerifier (st : client_store) (ksp : KMSSignerProvider) : res SignerVerifier :=
  c ← newAWSClient st ksp;
  let h := supported_hash awsSupportedHashFuncs (ksp_HashFunc ksp) in
  if bool_decide (h = 0%N) then Err (Errorf ("unsupported hash function: " +:+ Hash_String (ksp_HashFunc ksp)))
  else Ok (mkSV (ksp_Reference ksp) c h).

Definition KeyID (s : SignerVerifier) : res string := Ok (reference s).
(** The hash is that of the key, not the one the signer was loaded with. *)
Definition Sign (now : Z) (message : Reader) : recv SignerVerifier bytes :=
  h ← wrapped "getting fetching default hash function" (on_client (getHashFunc now));
  d ← call (ComputeDigest message h (Some awsSupportedHashFuncs));
  on_client (client_sign now d.1).
Definition Bytes (now : Z) : recv SignerVerifier bytes :=
  s ← self;
  p ← call (fetchPublicKey now (sv_client s));
  call (PublicPemBytes p).
Definition Verify (now : Z) (st : client_store) (message : Reader) (sig : bytes) : recv SignerVerifier unit :=
  on_client (client_verify now st (Ok sig) message).
Definition SupportedAlgorithms : list string := spec_string <$> awsSupportedAlgorithms.
Definition DefaultAlgorithm : string := spec_string EccNistP256.
End aws.
End Aws.

(** ** hash/crc32 with the polynomial of Castagnoli *)

Definition castagnoli : N := 2197175160%N.
Definition crc_step (crc : N) : N :=
  if N.testbit crc 0 then N.lxor (N.shiftr crc 1) castagnoli else N.shiftr crc 1.
Definition crc_byte (crc : N) (c : ascii) : N := Nat.iter 8 crc_step (N.lxor crc (N_of_ascii c)).
Fixpoint crc_bytes (crc : N) (s : bytes) : N :=
  match s with "" => crc | String c s => crc_bytes (crc_byte crc c) s end.
Definition crc32c (s : bytes) : N := N.lxor (crc_bytes 4294967295%N s) 4294967295%N.
Example crc32c_check : crc32c "123456789" = 3808858755%N.
Proof. reflexivity. Qed.

(** ** signer/kms/gcp: client.go and signer.go. The SDK is the class [GcpApi]. *)
Inductive VersionAlgorithm :=
  | EC_SIGN_P256_SHA256 | EC_SIGN_P384_SHA384
  | RSA_SIGN_PKCS1_2048_SHA256 | RSA_SIGN_PKCS1_3072_SHA256 | RSA_SIGN_PKCS1_4096_SHA256 | RSA_SIGN_PKCS1_4096_SHA512
  | RSA_SIGN_PSS_2048_SHA256 | RSA_SIGN_PSS_3072_SHA256 | RSA_SIGN_PSS_4096_SHA256 | RSA_SIGN_PSS_4096_SHA512
  | OtherVersionAlgorithm (n : Z).
Record KeyVersion := mkKeyVersion { kv_Name : string; kv_Algorithm : VersionAlgorithm }.
Record SignRequest := mkSignRequest {
  sreq_Name : string;
  sreq_Hash : Hash;
  sreq_Digest : bytes;
  sreq_DigestCrc32C : option Z;
}.
Record SignResponse := mkSignResponse {
  sres_Signature : bytes;
  sres_VerifiedDigestCrc32C : bool;
  sres_SignatureCrc32C : option Z;
}.
Definition gcp_credentials : Type := option (CredentialsType * string).
(** [GetCryptoKey] says whether the key's purpose is to sign; of a list of versions
    the first one is asked for. *)
Class GcpApi := {
  NewKeyManagementClient : gcp_credentials → err;
  GetCryptoKey : Z → gcp_credentials → string → res bool;
  GetCryptoKeyVersion : Z → gcp_credentials → string → res KeyVersion;
  ListCryptoKeyVersions_Next : Z → gcp_credentials → string → string → string → res KeyVersion;
  gcp_GetPublicKey : Z → gcp_credentials → string → res bytes;
  AsymmetricSign : Z → gcp_credentials → SignRequest → res SignResponse;
}.

Module Gcp.

Definition ReferenceScheme : string := "gcpkms://".
Definition algorithmMap : gmap string VersionAlgorithm := list_to_map
  [ ("ecdsa-p256-sha256", EC_SIGN_P256_SHA256); ("ecdsa-p384-sha384", EC_SIGN_P384_SHA384);
    ("rsa-pkcs1v15-2048-sha256", RSA_SIGN_PKCS1_2048_SHA256); ("rsa-pkcs1v15-3072-sha256", RSA_SIGN_PKCS1_3072_SHA256);
    ("rsa-pkcs1v15-4096-sha256", RSA_SIGN_PKCS1_4096_SHA256); ("rsa-pkcs1v15-4096-sha512", RSA_SIGN_PKCS1_4096_SHA512);
    ("rsa-pss-2048-sha256", RSA_SIGN_PSS_2048_SHA256); ("rsa-pss-3072-sha256", RSA_SIGN_PSS_3072_SHA256);
    ("rsa-pss-4096-sha256", RSA_SIGN_PSS_4096_SHA256); ("rsa-pss-4096-sha512", RSA_SIGN_PSS_4096_SHA512) ].
Definition errKMSReference : error :=
  Errorf "kms specification should be in the format gcpkms://projects/[PROJECT_ID]/locations/[LOCATION]/keyRings/[KEY_RING]/cryptoKeys/[KEY]/cryptoKeyVersions/[VERSION]".

Record key_reference := mkRef { projectID : string; locationID : string; keyRing : string; keyName : string; version : string }.
(** The five groups of the expression [re]; the last one is optional. *)
Definition submatch (ref : string) : option key_reference :=
  s ← CutPrefix ref ReferenceScheme;
  match SplitByte s slash_char with
  | w1 :: p :: w2 :: l :: w3 :: r :: w4 :: k :: rest =>
      if bool_decide ([w1; w2; w3; w4] = ["projects"; "locations"; "keyRings"; "cryptoKeys"]) && forallb nonempty [p; l; r; k] then
        match rest with
        | [] => Some (mkRef p l r k "")
        | [kind; v] => if bool_decide (kind ∈ ["cryptoKeyVersions"; "versions"]) && nonempty v
                       then Some (mkRef p l r k v) else None
        | _ => None
        end
      else None
  | _ => None
  end.
Definition ValidReference (ref : string) : err :=
  if bool_decide (is_Some (submatch ref)) then nil_error else Err errKMSReference.
Definition parseReference (resourceID : string) : res key_reference :=
  match submatch resourceID with
  | Some v => Ok v
  | None => Err (Errorf ("invalid gcpkms format " +:+ QuoteToASCII resourceID))
  end.

(** *** Options *)

Definition WithCredentialsFile (s : string) : client_store → client_store := on_gcp (λ o, mkGcp s (credType o)).
(** The argument is not looked at. *)
Definition WithSACredentialsType (_ : bool) : client_store → client_store :=
  on_gcp (λ o, mkGcp (gcp_credentialsFile o) ServiceAccount).
Definition WithAUCredentialsType (_ : bool) : client_store → client_store :=
  on_gcp (λ o, mkGcp (gcp_credentialsFile o) AuthorizedUser).

Definition providerName : string := provider_name ReferenceScheme.
Definition missing : string := "unable to find gcp client options in gcp kms signer provider".
Definition Init : list (Configurer configured) :=
  [ CString (NewConfigOption "credentials-file" "The credentials file to use with the GCP KMS signer provider"
      "" (search_setter providerName missing WithCredentialsFile));
    CBool (NewConfigOption "service-account" "Set if the credentials file's type is a service account"
      false (search_setter providerName missing WithSACredentialsType));
    CBool (NewConfigOption "authorized-user" "Set if the credentials file's type is an authorized user"
      false (search_setter providerName missing WithAUCredentialsType)) ].

Section gcp.
Context `{CL : CryptoLib} `{GA : GcpApi}.

(** *** The client *)

Record cryptoKeyVersion := mkCKV {
  CryptoKeyVersion : KeyVersion;
  ckv_Verifier : Verifier;
  ckv_PublicKey : AnyKey;
  ckv_HashFunc : Hash;
}.
Record gcpClient := mkClient {
  key : key_reference;
  client : gcp_credentials;
  kvCache : Cache cryptoKeyVersion;
}.
Definition set_cache (g : gcpClient) (c : Cache cryptoKeyVersion) : gcpClient := mkClient (key g) (client g) c.

Definition newGCPClient (st : client_store) (ksp : KMSSignerProvider) : res gcpClient :=
  _ ← ValidReference (ksp_Reference ksp);
  ref ← parseReference (ksp_Reference ksp);
  if negb (has_options providerName ksp) then Err (Errorf missing)
  else
    let o := st_gcp st in
    let creds := if bool_decide (gcp_credentialsFile o = "") then None else Some (credType o, gcp_credentialsFile o) in
    _ ← wrap "new gcp kms client" (NewKeyManagementClient creds);
    Ok (mkClient ref creds None).

Definition alg_hash (alg : VersionAlgorithm) : option Hash :=
  match alg with
  | RSA_SIGN_PKCS1_2048_SHA256 | RSA_SIGN_PKCS1_3072_SHA256 | EC_SIGN_P256_SHA256 | RSA_SIGN_PSS_2048_SHA256
  | RSA_SIGN_PSS_3072_SHA256 | RSA_SIGN_PSS_4096_SHA256 | RSA_SIGN_PKCS1_4096_SHA256 => Some SHA256
  | EC_SIGN_P384_SHA384 => Some SHA384
  | RSA_SIGN_PKCS1_4096_SHA512 | RSA_SIGN_PSS_4096_SHA512 => Some SHA512
  | OtherVersionAlgorithm _ => None
  end.
Definition fetchPublicKey (now : Z) (g : gcpClient) (name : string) : res AnyKey :=
  pk ← wrap "public key" (gcp_GetPublicKey now (client g) name);
  UnmarshalPEMToPublicKey pk.
Definition parent_of (k : key_reference) : string :=
  "projects/" +:+ projectID k +:+ "/locations/" +:+ locationID k +:+ "/keyRings/" +:+ keyRing k +:+
  "/cryptoKeys/" +:+ keyName k.
Definition keyVersionName (now : Z) (g : gcpClient) : res cryptoKeyVersion :=
  let parent := parent_of (key g) in
  signs ← GetCryptoKey now (client g) parent;
  if negb (signs : bool) then Err (Errorf "specified key cannot be used to sign")
  else
    kv ← (if bool_decide (version (key g) = "") then
            wrap "unable to find an enabled key version in GCP KMS"
              (ListCryptoKeyVersions_Next now (client g) parent "state=ENABLED" "name desc")
          else GetCryptoKeyVersion now (client g) (parent +:+ "/cryptoKeyVersions/" +:+ version (key g)));
    pubKey ← wrap "unable to fetch public key while creating signer" (fetchPublicKey now g (kv_Name kv));
    match alg_hash (kv_Algorithm kv) with
    | None => Err (Errorf "unknown algorithm specified by KMS")
    | Some h =>
        verifier ← wrap "initializing internal verifier" (NewVerifier (PKey pubKey) [VerifyWithHash h]);
        Ok (mkCKV kv verifier pubKey h)
    end.

(** A version that is named is kept forever. *)
Definition ttl_of (g : gcpClient) : Z := if bool_decide (version (key g) = "") then key_ttl else 0%Z.
Definition getCKV (now : Z) : recv gcpClient cryptoKeyVersion := λ g,
  let (c, r) := cache_Get now (ttl_of g) (keyVersionName now g) (kvCache g) in (set_cache g c, r).
Definition getHashFunc (now : Z) : recv gcpClient Hash :=
  ckv ← getCKV now;
  mret (ckv_HashFunc ckv).
Definition client_Verifier (now : Z) : recv gcpClient Verifier :=
  crv ← wrapped "transient error while getting KMS verifier" (getCKV now);
  mret (ckv_Verifier crv).
Definition public (now : Z) : recv gcpClient AnyKey :=
  crv ← wrapped "transient error getting info from KMS" (getCKV now);
  mret (ckv_PublicKey crv).

Definition client_sign (now : Z) (digest : bytes) (alg : Hash) (crc : N) : recv gcpClient bytes :=
  ckv ← getCKV now;
  if bool_decide (alg ∉ [SHA256; SHA384; SHA512]) then call (Err (Errorf "unsupported hash function"))
  else
    g ← self;
    resp ← call (wrap "calling GCP AsymmetricSign"
      (AsymmetricSign now (client g) (mkSignRequest (kv_Name (CryptoKeyVersion ckv)) alg digest
         (if bool_decide (crc = 0%N) then None else Some (Z.of_N crc)))));
    if bool_decide (crc ≠ 0%N) && negb (sres_VerifiedDigestCrc32C resp)
    then call (Err (Errorf "AsymmetricSign: request corrupted in-transit"))
    else match sres_SignatureCrc32C resp with
         | None => call (Panic "nil pointer dereference")
         | Some v => if bool_decide (Z.of_N (crc32c (sres_Signature resp)) = v) then mret (sres_Signature resp)
                     else call (Err (Errorf "AsymmetricSign: response corrupted in-transit"))
         end.

(** A signature that the cached key does not verify is tried once more with the key
    that there is now, unless the version is fixed. The message is a reader, which
    the first attempt has read to its end: nothing is left for the second one. *)
Definition client_verify (now : Z) (message sig : bytes) : recv gcpClient unit :=
  crv ← wrapped "transient error getting info from KMS" (getCKV now);
  match Verifier_Verify (ckv_Verifier crv) message sig with
  | Err e =>
      g ← self;
      if bool_decide (version (key g) = "") then
        _ ← assign (λ g, set_cache g None);
        crv ← wrapped "transient error getting info from KMS" (getCKV now);
        call (Verifier_Verify (ckv_Verifier crv) "" sig)
      else call (Err (Wrapf "failed to verify for fixed version" e))
  | r => call r
  end.

(** *** The signer *)

Definition gcpSupportedHashFuncs : list Hash := [SHA256; SHA512; SHA384].
Record SignerVerifier := mkSV { reference : string; sv_client : gcpClient; hashFunc : Hash }.
Definition on_client {A} (m : recv gcpClient A) : recv SignerVerifier A :=
  on_part sv_client (λ s c, mkSV (reference s) c (hashFunc s)) m.
Definition LoadSignerVerifier (st : client_store) (ksp : KMSSignerProvider) : res SignerVerifier :=
  c ← newGCPClient st ksp;
  let h := supported_hash gcpSupportedHashFuncs (ksp_HashFunc ksp) in
  if bool_decide (h = 0%N) then Err (Errorf ("unsupported hash function: " +:+ Hash_String (ksp_HashFunc ksp)))
  else Ok (mkSV (ksp_Reference ksp) c h).
Definition KeyID (s : SignerVerifier) : res string := Ok (reference s).
Definition Sign (now : Z) (message : Reader) : recv SignerVerifier bytes :=
  h ← wrapped "failed to get default hash function" (on_client (getHashFunc now));
  d ← call (ComputeDigest message h (Some gcpSupportedHashFuncs));
  on_client (client_sign now d.1 h (crc32c d.1)).
Definition Bytes (now : Z) : recv SignerVerifier bytes :=
  ckv ← wrapped "failed to get KMS key version" (on_client (getCKV now));
  call (PublicPemBytes (ckv_PublicKey ckv)).
Definition Verify (now : Z) (message sig : bytes) : recv SignerVerifier unit := on_client (client_verify now message sig).
Definition SupportedAlgorithms `{RO : RangeOrder} : list string := fst <$> range_map 26 algorithmMap.
Definition DefaultAlgorithm : string := "ecdsa-p256-sha256".
End gcp.
End Gcp.
