(* ===== verification/KmsVaults.v ===== *)
(** More clients below signer/kms: those of Azure Key Vault (Module Azure) and of the
    transit engine of HashiCorp Vault (Module Hashivault), with the options and the
    cache of KmsClients.v. *)
From S2P Require Import Prelude Receiver GoStrings GoText Errors Crypto Encodings Keys Registry Host KMS KmsClients.
From stdpp Require Import options.

(** ** signer/kms/azure: client.go and signer.go. The SDK, and the keys that its
    numbers make, are the class [AzureApi]. *)
Inductive Curve := P256 | P384 | P521 | OtherCurve (name : string).
Inductive CurveName := CurveP256 | CurveP384 | CurveP521 | CurveP256K | OtherCurveName (name : string).
Inductive KeyType := KeyTypeRSA | KeyTypeEC | OtherKeyType (name : string).
Inductive SignatureAlgorithm := RS256 | RS384 | RS512 | PS256 | PS384 | PS512 | ES256 | ES256K | ES384 | ES512.
(** The fields of [azkeys.JSONWebKey] that are read; [None] is nil. *)
Record JSONWebKey := mkJWK {
  Kty : option KeyType;
  KeyOps : list string;
  jwk_N : option bytes;
  jwk_E : option bytes;
  jwk_X : option bytes;
  jwk_Y : option bytes;
  Crv : option CurveName;
}.
(** [azkeys.KeyBundle], by its key. *)
Record KeyBundle := mkKeyBundle { Key : option JSONWebKey }.
Class AzureApi `{CL : CryptoLib} := {
  NewDefaultAzureCredential : err;
  azkeys_NewClient : string → err;
  GetKey : Z → string → string → string → res KeyBundle;
  azure_Sign : Z → string → string → string → SignatureAlgorithm → bytes → res (option bytes);
  azure_Verify : Z → string → string → string → SignatureAlgorithm → bytes → bytes → res (option bool);
  rsa_of : Z → Z → RSAPublicKey;
  ecdsa_of : Curve → Z → Z → ECDSAPublicKey;
  ecdsa_Curve : ECDSAPublicKey → Curve;
  algorithm_string : SignatureAlgorithm → string;
  curve_string : CurveName → string;
  kty_string : KeyType → string;
}.

(** [new(big.Int).SetBytes], and [int(x.Int64())] of a number that is not negative:
    the low 64 bits, as a signed integer. *)
Fixpoint big_bytes (acc : Z) (s : bytes) : Z :=
  match s with "" => acc | String c s => big_bytes (256 * acc + Z.of_nat (nat_of_ascii c))%Z s end.
Definition SetBytes (s : bytes) : Z := big_bytes 0 s.
Definition int64_of (x : Z) : Z := ((x + 2 ^ 63) mod 2 ^ 64 - 2 ^ 63)%Z.

Module Azure.

Definition ReferenceScheme : string := "azurekms://".
Definition providerName : string := provider_name ReferenceScheme.
Definition errKMSReference : error :=
  Errorf "kms specification should be in the format azurekms://[VAULT_NAME].vault.azure.net/[KEY_NAME][/KEY_VERSION]".
Definition vault_suffix : string := ".vault.azure.net".

(** The groups of [azureKMSRegex]; the last one is optional. *)
Definition submatch (ref : string) : option (string * string * string) :=
  s ← CutPrefix ref ReferenceScheme;
  match SplitByte s slash_char with
  | host :: key :: rest =>
      if HasSuffix host vault_suffix && bool_decide (slen vault_suffix < slen host) && nonempty key then
        match rest with
        | [] => Some (host, key, "")
        | [v] => if nonempty v then Some (host, key, v) else None
        | _ => None
        end
      else None
  | _ => None
  end.
Definition ValidReference (ref : string) : err :=
  if bool_decide (is_Some (submatch ref)) then nil_error else Err errKMSReference.
(** The URL of the vault, the name of the key and its version. *)
Definition ParseReference (resourceID : string) : res (string * string * string) :=
  match submatch resourceID with
  | Some (host, key, v) => Ok ("https://" +:+ host +:+ "/", key, v)
  | None => Err (Errorf ("invalid azurekms format " +:+ QuoteToASCII resourceID))
  end.

Definition WithRemoteVerify (b : bool) : client_store → client_store := on_azure (λ _, mkAzure b).
Definition Init : list (Configurer configured) :=
  [ CBool (NewConfigOption "azure-remote-verify"
      "verify signature using Azure Key Vault remote verification. If false, the public key will be pulled from Azure Key Vault and verification will take place locally"
      true (client_setter providerName "failed to get azure client options from azure kms signer provider" WithRemoteVerify)) ].

Section azure.
Context `{CL : CryptoLib} `{AZ : !AzureApi}.

(** *** Keys *)

Record keyBundle := mkBundle { kb_Key : KeyBundle; kb_PublicKey : AnyKey }.

Definition extractRSAPublicKey (jwk : JSONWebKey) : res RSAPublicKey :=
  match jwk_N jwk, jwk_E jwk with
  | Some n, Some e => Ok (rsa_of (SetBytes n) (int64_of (SetBytes e)))
  | _, _ => Err (Errorf "RSA key is missing required parameters")
  end.
Definition extractECPublicKey (jwk : JSONWebKey) : res ECDSAPublicKey :=
  match jwk_X jwk, jwk_Y jwk, Crv jwk with
  | Some x, Some y, Some crv =>
      curve ← match crv with
              | CurveP256 => Ok P256
              | CurveP384 => Ok P384
              | CurveP521 => Ok P521
              | CurveP256K => Err (Errorf ("curve " +:+ curve_string crv +:+ " is not supported"))
              | OtherCurveName _ => Err (Errorf ("unsupported curve: " +:+ curve_string crv))
              end;
      Ok (ecdsa_of curve (SetBytes x) (SetBytes y))
  | _, _, _ => Err (Errorf "EC key is missing required parameters")
  end.

(** The hash function of a curve, and the algorithm. *)
Definition curve_hash (c : Curve) : Hash :=
  match c with P256 => SHA256 | P384 => SHA384 | P521 => SHA512 | OtherCurve _ => SHA256 end.
Definition HashFunc (k : keyBundle) : Hash :=
  match Key (kb_Key k) with
  | None => SHA256
  | Some jwk =>
      if bool_decide (length (KeyOps jwk) = 0) then SHA256
      else match kb_PublicKey k with
           | KRSAPublic _ => SHA256
           | KECDSAPublic p => curve_hash (ecdsa_Curve p)
           | _ => SHA256
           end
  end.
Definition SigningAlgorithm (k : keyBundle) : SignatureAlgorithm :=
  match kb_PublicKey k with
  | KRSAPublic _ => RS256
  | KECDSAPublic p => match ecdsa_Curve p with P256 => ES256 | P384 => ES384 | P521 => ES512 | OtherCurve _ => ES256 end
  | _ => RS256
  end.
Definition kb_Verifier (k : keyBundle) : res Verifier :=
  NewVerifier (PKey (kb_PublicKey k)) [VerifyWithHash (HashFunc k)].

(** *** The client *)

Record azureClient := mkClient {
  vaultURL : string;
  keyName : string;
  keyVersion : string;
  keyCache : Cache keyBundle;
}.
Definition set_cache (a : azureClient) (c : Cache keyBundle) : azureClient :=
  mkClient (vaultURL a) (keyName a) (keyVersion a) c.

Definition setupClient (ksp : KMSSignerProvider) (vaultURL : string) : err :=
  if negb (has_options providerName ksp)
  then Err (Errorf "unable to find azure client options in azure kms signer provider")
  else
    _ ← wrap "failed to obtain Azure credential" NewDefaultAzureCredential;
    wrap "failed to create Azure Key Vault client" (azkeys_NewClient vaultURL).
Definition newAzureClient (ksp : KMSSignerProvider) : res azureClient :=
  _ ← ValidReference (ksp_Reference ksp);
  v ← ParseReference (ksp_Reference ksp);
  let '(vaultURL, keyName, keyVersion) := v in
  _ ← setupClient ksp vaultURL;
  Ok (mkClient vaultURL keyName keyVersion None).

Definition fetchKey (now : Z) (a : azureClient) : res KeyBundle :=
  wrap "failed to get key from Azure Key Vault" (GetKey now (vaultURL a) (keyName a) (keyVersion a)).
Definition fetchKeyBundle (now : Z) (a : azureClient) : res keyBundle :=
  azKey ← fetchKey now a;
  match Key azKey with
  | None => Err (Errorf "key data is missing from Azure Key Vault response")
  | Some jwk =>
      match Kty jwk with
      | None => Panic "nil pointer dereference"
      | Some KeyTypeRSA => mkBundle azKey ∘ KRSAPublic <$> wrap "failed to extract public key" (extractRSAPublicKey jwk)
      | Some KeyTypeEC => mkBundle azKey ∘ KECDSAPublic <$> wrap "failed to extract public key" (extractECPublicKey jwk)
      | Some kty => Err (Errorf ("unsupported key type: " +:+ kty_string kty))
      end
  end.
Definition getKeyBundle (now : Z) : recv azureClient keyBundle := λ a,
  let (c, r) := cache_Get now key_ttl (fetchKeyBundle now a) (keyCache a) in (set_cache a c, r).
Definition fetchPublicKey (now : Z) : recv azureClient AnyKey :=
  k ← getKeyBundle now;
  mret (kb_PublicKey k).
Definition getHashFunc (now : Z) : recv azureClient Hash :=
  k ← getKeyBundle now;
  mret (HashFunc k).

Definition azureSupportedHashFuncs : list Hash := [SHA256; SHA384; SHA512].
Definition is_ecdsa (k : AnyKey) : bool := match k with KECDSAPublic _ => true | _ => false end.
Definition client_sign (now : Z) (digest : bytes) : recv azureClient bytes :=
  k ← getKeyBundle now;
  a ← self;
  resp ← call (wrap "failed to sign with Azure Key Vault"
    (azure_Sign now (vaultURL a) (keyName a) (keyVersion a) (SigningAlgorithm k) digest));
  match resp with
  | None => call (Err (Errorf "signature result is missing from Azure Key Vault response"))
  | Some sig => if is_ecdsa (kb_PublicKey k) then call (Err (Errorf "ECDSA signature format conversion not yet implemented"))
                else mret sig
  end.
Definition client_verifyRemotely (now : Z) (sig : bytes) (message : Reader) : recv azureClient unit :=
  k ← getKeyBundle now;
  d ← call (ComputeDigest message (HashFunc k) (Some azureSupportedHashFuncs));
  a ← self;
  resp ← call (wrap "unable to verify signature"
    (azure_Verify now (vaultURL a) (keyName a) (keyVersion a) (SigningAlgorithm k) d.1 sig));
  match resp with
  | Some true => mret tt
  | _ => call (Err (Errorf "signature verification failed"))
  end.
Definition client_verify (now : Z) (st : client_store) (sig message : Reader) : recv azureClient unit :=
  s ← call sig;
  if (azure_verifyRemotely (st_azure st) : bool) then client_verifyRemotely now s message
  else
    k ← getKeyBundle now;
    verifier ← call (kb_Verifier k);
    m ← call message;
    call (Verifier_Verify verifier m s).

(** *** The signer *)

Definition azureSupportedAlgorithms : list string :=
  algorithm_string <$> [RS256; RS384; RS512; PS256; PS384; PS512; ES256; ES256K; ES384; ES512].
Record SignerVerifier := mkSV { reference : string; sv_client : azureClient; hashFunc : Hash }.
Definition on_client {A} (m : recv azureClient A) : recv SignerVerifier A :=
  on_part sv_client (λ s c, mkSV (reference s) c (hashFunc s)) m.
Definition LoadSignerVerifier (ksp : KMSSignerProvider) : res SignerVerifier :=
  c ← newAzureClient ksp;
  let h := supported_hash azureSupportedHashFuncs (ksp_HashFunc ksp) in
  Ok (mkSV (ksp_Reference ksp) c (if bool_decide (h = 0%N) then SHA256 else h)).
Definition KeyID (s : SignerVerifier) : res string := Ok (reference s).
Definition Sign (now : Z) (message : Reader) : recv SignerVerifier bytes :=
  h ← wrapped "getting fetching default hash function" (on_client (getHashFunc now));
  d ← call (ComputeDigest message h (Some azureSupportedHashFuncs));
  on_client (client_sign now d.1).
Definition Bytes (now : Z) : recv SignerVerifier bytes :=
  p ← on_client (fetchPublicKey now);
  call (PublicPemBytes p).
Definition Verify (now : Z) (st : client_store) (message : Reader) (sig : bytes) : recv SignerVerifier unit :=
  on_client (client_verify now st (Ok sig) message).
Definition SupportedAlgorithms : list string := azureSupportedAlgorithms.
Definition DefaultAlgorithm : string := algorithm_string ES256.
End azure.
End Azure.

(** [strconv.ParseInt(s, 10, 32)] *)
Definition ParseInt32 (s : string) : res Z :=
  n ← Atoi s;
  if bool_decide (- 2 ^ 31 ≤ n ∧ n < 2 ^ 31)%Z then Ok n else Err (atoi_error s).

(** ** signer/kms/hashivault: client.go, options.go, auth.go and signer.go. The client
    of Vault's API is the class [VaultApi]. *)
(** The values of requests and of decoded answers: a number is a [json.Number]. *)
Inductive vault_value :=
  | VString (s : string)
  | VBool (b : bool)
  | VInt (z : Z)
  | VNumber (n : string)
  | VMap (m : list (string * vault_value))
  | VOther (go_type : string).
(** The type [%T] prints. *)
Definition value_type (v : vault_value) : string :=
  match v with
  | VString _ => "string"
  | VBool _ => "bool"
  | VInt _ => "int32"
  | VNumber _ => "json.Number"
  | VMap _ => "map[string]interface {}"
  | VOther t => t
  end.
Fixpoint value_of (m : list (string * vault_value)) (k : string) : option vault_value :=
  match m with
  | [] => None
  | (k', v) :: m => if bool_decide (k' = k) then Some v else value_of m k
  end.
(** A connection: its address, empty for the default one, and its token, if one was
    set. *)
Record connection := mkConnection { conn_Address : string; conn_Token : option string }.
(** The data of an answer; [None] is the nil answer that the client gives when there
    is nothing at a path. A login sets the token of its secret. *)
Class VaultApi := {
  Secret : Type;
  secret_token : Secret → string;
  vault_NewClient : string → err;
  WriteWithContext : Z → connection → string → list (string * vault_value) → res (option (list (string * vault_value)));
  ReadWithContext : Z → connection → string → res (option (list (string * vault_value)));
  NewKubernetesAuth : string → string → string → err;
  Auth_Login : Z → connection → string → string → string → res Secret;
  NewLifetimeWatcher : option Secret → option error;
}.

Module Hashivault.

Definition ReferenceScheme : string := "hashivault://".
Definition providerName : string := "kms-hashivault".
Definition errReference : error := Errorf "kms specification should be in the format hashivault://<key>".
Definition defaultTransitSecretEnginePath : string := "transit".
Definition defaultAuthMethod : string := "token".
Definition defaultKubernetesSATokenPath : string := "/var/run/secrets/kubernetes.io/serviceaccount/token".
Definition defaultKubernetesAuthMountPath : string := "kubernetes".

(** [referenceRegex], by its group: word characters, with - and . between them. *)
Definition is_word (c : ascii) : bool := is_alnum c || bool_decide (c = "_"%char).
Definition is_inner (c : ascii) : bool := is_word c || bool_decide (c = "-"%char) || bool_decide (c = "."%char).
Fixpoint last_char (c : ascii) (s : string) : ascii := match s with "" => c | String x s => last_char x s end.
Definition path_group (s : string) : bool :=
  match s with
  | "" => false
  | String c t => is_word c && all_chars is_inner t && is_word (last_char c t)
  end.
Definition submatch (ref : string) : option string :=
  path ← CutPrefix ref ReferenceScheme;
  if path_group path then Some path else None.
Definition ValidReference (ref : string) : err :=
  if bool_decide (is_Some (submatch ref)) then nil_error else Err errReference.
Definition parseReference (resourceID : string) : res string :=
  match submatch resourceID with
  | Some path => Ok path
  | None => Err (Errorf ("invalid vault format " +:+ QuoteToASCII resourceID))
  end.

(** *** Options *)

Definition set_addr (v : string) (o : clientOptions) : clientOptions :=
  mkVault v (transitSecretEnginePath o) (keyVersion o) (keyPath o) (authMethod o) (tokenPath o) (kubernetesSaTokenPath o) (role o) (kubernetesMountPath o).
Definition set_transit (v : string) (o : clientOptions) : clientOptions :=
  mkVault (addr o) v (keyVersion o) (keyPath o) (authMethod o) (tokenPath o) (kubernetesSaTokenPath o) (role o) (kubernetesMountPath o).
Definition set_keyVersion (v : Z) (o : clientOptions) : clientOptions :=
  mkVault (addr o) (transitSecretEnginePath o) v (keyPath o) (authMethod o) (tokenPath o) (kubernetesSaTokenPath o) (role o) (kubernetesMountPath o).
Definition set_keyPath (v : string) (o : clientOptions) : clientOptions :=
  mkVault (addr o) (transitSecretEnginePath o) (keyVersion o) v (authMethod o) (tokenPath o) (kubernetesSaTokenPath o) (role o) (kubernetesMountPath o).
Definition set_authMethod (v : string) (o : clientOptions) : clientOptions :=
  mkVault (addr o) (transitSecretEnginePath o) (keyVersion o) (keyPath o) v (tokenPath o) (kubernetesSaTokenPath o) (role o) (kubernetesMountPath o).
Definition set_tokenPath (v : string) (o : clientOptions) : clientOptions :=
  mkVault (addr o) (transitSecretEnginePath o) (keyVersion o) (keyPath o) (authMethod o) v (kubernetesSaTokenPath o) (role o) (kubernetesMountPath o).
Definition set_saTokenPath (v : string) (o : clientOptions) : clientOptions :=
  mkVault (addr o) (transitSecretEnginePath o) (keyVersion o) (keyPath o) (authMethod o) (tokenPath o) v (role o) (kubernetesMountPath o).
Definition set_role (v : string) (o : clientOptions) : clientOptions :=
  mkVault (addr o) (transitSecretEnginePath o) (keyVersion o) (keyPath o) (authMethod o) (tokenPath o) (kubernetesSaTokenPath o) v (kubernetesMountPath o).
Definition set_mountPath (v : string) (o : clientOptions) : clientOptions :=
  mkVault (addr o) (transitSecretEnginePath o) (keyVersion o) (keyPath o) (authMethod o) (tokenPath o) (kubernetesSaTokenPath o) (role o) v.
Definition WithAddr (v : string) : client_store → client_store := on_vault (set_addr v).
Definition WithTokenFile (v : string) : client_store → client_store := on_vault (set_tokenPath v).
Definition WithTransitSecretEnginePath (v : string) : client_store → client_store := on_vault (set_transit v).
Definition WithAuthMethod (v : string) : client_store → client_store := on_vault (set_authMethod v).
Definition WithKubernetesServiceAccountTokenPath (v : string) : client_store → client_store := on_vault (set_saTokenPath v).
Definition WithRole (v : string) : client_store → client_store := on_vault (set_role v).
Definition WithKubernetesAuthMountPath (v : string) : client_store → client_store := on_vault (set_mountPath v).

Definition vault_option (name description def : string) (opt : string → client_store → client_store) : Configurer configured :=
  CString (NewConfigOption name description def
    (client_setter providerName "failed to get hashivault client options from kms signer provider" opt)).
Definition Init : list (Configurer configured) :=
  [ vault_option "addr" "Address of the vault instance to connect to. Defaults to the environment variable VAULT_ADDR if unset"
      "" WithAddr;
    vault_option "token-file" "File to read the Vault token from for token auth. Token will be read from the environment variable VAULT_TOKEN if unset"
      "" WithTokenFile;
    vault_option "transit-secret-engine-path" "Path to the Vault Transit secret engine to use"
      defaultTransitSecretEnginePath WithTransitSecretEnginePath;
    vault_option "auth-method" "Method to use to authenticate with Vault. Currently supported methods are token and kubernetes"
      defaultAuthMethod WithAuthMethod;
    vault_option "kubernetes-service-account-token-path"
      "Path to the file containing the token for the kubernetes service account when using the kubernetes auth method"
      defaultKubernetesSATokenPath WithKubernetesServiceAccountTokenPath;
    vault_option "role" "Role name to use when authenticating with the kubernetes auth method" "" WithRole;
    vault_option "kubernetes-auth-mount-path" "Path where the kubernetes auth endpoint is mounted on the vault server"
      defaultKubernetesAuthMountPath WithKubernetesAuthMountPath ].

Section hashivault.
Context `{CL : CryptoLib} `{HF : HostFiles} `{VA : VaultApi}.

(** *** The client. It keeps a copy of the options it was made with. *)

Record client := mkClient {
  conn : connection;
  c_keyPath : string;
  transitSecretsEnginePath : string;
  c_keyVersion : Z;
  c_authMethod : string;
  c_tokenPath : string;
  kubernetesAuthMountPath : string;
  c_kubernetesSaTokenPath : string;
  c_role : string;
}.
Definition set_token (t : string) (c : client) : client :=
  mkClient (mkConnection (conn_Address (conn c)) (Some t)) (c_keyPath c) (transitSecretsEnginePath c) (c_keyVersion c)
    (c_authMethod c) (c_tokenPath c) (kubernetesAuthMountPath c) (c_kubernetesSaTokenPath c) (c_role c).

(** [strings.ToLower] is that of the letters of ASCII here. *)
Definition login (now : Z) : recv client (option Secret) :=
  c ← self;
  if bool_decide (ToLower (c_authMethod c) = "token") then
    token ← call (if bool_decide (c_tokenPath c = "") then Ok ""
                  else wrap "could not read vault token file" (host_ReadFile (c_tokenPath c)));
    _ ← (if bool_decide (token = "") then mret tt else assign (set_token token));
    mret None
  else if bool_decide (ToLower (c_authMethod c) = "kubernetes") then
    _ ← call (wrap "could not create kubernetes auth method"
           (NewKubernetesAuth (c_role c) (c_kubernetesSaTokenPath c) (kubernetesAuthMountPath c)));
    authInfo ← call (wrap "could not login with kubernetes auth method"
           (Auth_Login now (conn c) (c_role c) (c_kubernetesSaTokenPath c) (kubernetesAuthMountPath c)));
    _ ← assign (set_token (secret_token authInfo));
    mret (Some authInfo)
  else call (Err (Errorf ("unknown auth method: " +:+ c_authMethod c))).

(** The client and the secret whose token is to be renewed, if there is one. *)
Definition newClient (now : Z) (o : clientOptions) : res (client * option Secret) :=
  _ ← wrap "could not create vault client" (vault_NewClient (addr o));
  let c := mkClient (mkConnection (addr o) None) (keyPath o) (transitSecretEnginePath o) (keyVersion o) (authMethod o)
             (tokenPath o) (kubernetesMountPath o) (kubernetesSaTokenPath o) (role o) in
  let (c, r) := login now c in
  authInfo ← wrap "could not authenticate with vault" r;
  Ok (c, authInfo).

(** *** The renewal of the token *)

(** What the goroutine waits for. *)
Inductive event := CtxDone | WatcherDone | Renewed.
Inductive renew_error := contextDoneErr | needLoginErr | renew_failed (e : error).

(** The loop of [renewAuth]: the error and the events that are left, or nothing when
    it still waits. *)
Fixpoint watch (events : list event) : option (renew_error * list event) :=
  match events with
  | [] => None
  | CtxDone :: events => Some (contextDoneErr, events)
  | WatcherDone :: events => Some (needLoginErr, events)
  | Renewed :: events => watch events
  end.
Definition renewAuth (authInfo : option Secret) (events : list event) : option (renew_error * list event) :=
  match NewLifetimeWatcher authInfo with
  | None => watch events
  | Some e => Some (renew_failed (Wrapf "could not create vault token watcher" e), events)
  end.

(** How far the goroutine is: it has returned, it waits with a secret, or the fuel
    was not enough. *)
Inductive renewal := Returned (c : client) | Waiting (c : client) (authInfo : option Secret) | OutOfFuel.
Fixpoint renew_loop (fuel : nat) (now : Z) (c : client) (authInfo : option Secret) (events : list event) : renewal :=
  match fuel with
  | 0 => OutOfFuel
  | S fuel =>
      match renewAuth authInfo events with
      | None => Waiting c authInfo
      | Some (contextDoneErr, _) => Returned c
      | Some (needLoginErr, events) =>
          match login now c with
          | (c, Ok authInfo) => renew_loop fuel now c authInfo events
          | (c, _) => Returned c
          end
      | Some (renew_failed _, _) => Returned c
      end
  end.
Definition periodicallyRenewAuth (now : Z) (c : client) (authInfo : option Secret) (events : list event) : renewal :=
  match authInfo with
  | None => Returned c
  | Some _ => renew_loop (S (length events)) now c authInfo events
  end.

(** *** Requests *)

Definition supportedHashesToString (h : Hash) : option string :=
  if bool_decide (h = SHA224) then Some "sha2-224"
  else if bool_decide (h = SHA256) then Some "sha2-256"
  else if bool_decide (h = SHA384) then Some "sha2-384"
  else if bool_decide (h = SHA512) then Some "sha2-512"
  else None.
Definition engine_path (c : client) (op h : string) : string :=
  "/" +:+ transitSecretsEnginePath c +:+ "/" +:+ op +:+ "/" +:+ c_keyPath c +:+ h.
(** [resp.Data[key]] with its test; the message of one of them is that of an error
    that is nil there. *)
Definition answer {A} (resp : option (list (string * vault_value))) (key : string) (absent : error)
    (f : vault_value → res A) : res A :=
  match resp with
  | None => Panic "nil pointer dereference"
  | Some data => match value_of data key with None => Err absent | Some v => f v end
  end.

Definition client_sign (now : Z) (c : client) (digest : bytes) (hashFunc : Hash) : res bytes :=
  match supportedHashesToString hashFunc with
  | None => Err (Errorf ("unsupported hash algorithm: " +:+ Hash_String hashFunc))
  | Some hashStr =>
      resp ← wrap "could not sign" (WriteWithContext now (conn c) (engine_path c "sign" ("/" +:+ hashStr))
               [("input", VString (base64 digest)); ("prehashed", VBool true); ("key_version", VInt (c_keyVersion c));
                ("signature_algorithm", VString "pkcs1v15")]);
      answer resp "signature" (Errorf "no signature in response: %!w(<nil>)") (λ v,
        match v with VString s => Ok s | _ => Err (Errorf "invalid signature in response") end)
  end.
(** The version of the key is not part of the request. *)
Definition client_verify (now : Z) (c : client) (r : Reader) (sig : bytes) (hashFunc : Hash) : err :=
  match supportedHashesToString hashFunc with
  | None => Err (Errorf ("unsupported hash algorithm: " +:+ Hash_String hashFunc))
  | Some hashStr =>
      digest ← wrap "could not calculate digest" (data ← r; DigestBytes data hashFunc);
      resp ← wrap "could not verify" (WriteWithContext now (conn c) (engine_path c "verify" ("/" +:+ hashStr))
               [("signature_algorithm", VString "pkcs1v15"); ("input", VString (base64 digest));
                ("signature", VString sig); ("prehashed", VBool true)]);
      answer resp "valid" (Errorf "invalid response") (λ v,
        match v with
        | VBool b => if b then nil_error else Err (Errorf "failed verification")
        | _ => Err (Errorf ("expected valid to be bool but is " +:+ value_type v))
        end)
  end.

Definition in_map {A} (v : vault_value) (not_map : string) (key absent : string) (f : vault_value → res A) : res A :=
  match v with
  | VMap m => match value_of m key with None => Err (Errorf absent) | Some v => f v end
  | _ => Err (Errorf not_map)
  end.
Definition getPublicKeyBytes (now : Z) (c : client) : res bytes :=
  resp ← wrap "could not read key" (ReadWithContext now (conn c) (engine_path c "keys" ""));
  keyVersion ← (if bool_decide (c_keyVersion c = 0%Z) then
                  answer resp "latest_version" (Errorf "latest key version not in response") (λ v,
                    match v with VNumber n => Ok n | _ => Err (Errorf "latest version not a number") end)
                else Ok (ztoa (c_keyVersion c)));
  answer resp "keys" (Errorf "no keys in response") (λ keys,
    in_map keys "unexpected keys value in response" keyVersion ("could not find key with version " +:+ keyVersion) (λ keyInfo,
      in_map keyInfo "unexpected key data format in response" "public_key" "public key not in key data" (λ publicKey,
        match publicKey with VString s => Ok s | _ => Err (Errorf "unexpected public key data in response") end))).

(** *** The signer *)

Record SignerVerifier := mkSV { reference : string; hashFunc : Hash; sv_client : client }.

(** The path and the version of the key are written to the package's options. The
    store stays changed after an error. *)
Definition LoadSignerVerifier (now : Z) (ksp : KMSSignerProvider) : recv client_store SignerVerifier :=
  if bool_decide (ksp_Options ksp !! providerName ≠ Some providerName)
  then call (Err (Errorf ("unexpected client options type: " +:+ default "<nil>" (ksp_Options ksp !! providerName))))
  else
    keyPath ← call (wrap "could not parse vault ref" (parseReference (ksp_Reference ksp)));
    _ ← assign (on_vault (set_keyPath keyPath));
    _ ← call (match supportedHashesToString (ksp_HashFunc ksp) with
              | Some _ => nil_error
              | None => Err (Errorf ("vault does not support provided hash function " +:+ Hash_String (ksp_HashFunc ksp)))
              end);
    _ ← (if bool_decide (ksp_KeyVersion ksp = "") then mret tt
         else
           keyVer ← call (wrap ("invalid vault key version " +:+ ksp_KeyVersion ksp) (ParseInt32 (ksp_KeyVersion ksp)));
           assign (on_vault (set_keyVersion keyVer)));
    st ← self;
    c ← call (wrap "could not create vault client" (newClient now (st_vault st)));
    mret (mkSV (ksp_Reference ksp) (ksp_HashFunc ksp) c.1).

Definition KeyID (s : SignerVerifier) : res string := Ok (reference s).
Definition Sign (now : Z) (s : SignerVerifier) (r : Reader) : res bytes :=
  digest ← wrap "could not calculate digest" (data ← r; DigestBytes data (hashFunc s));
  client_sign now (sv_client s) digest (hashFunc s).
Definition Bytes (now : Z) (s : SignerVerifier) : res bytes := getPublicKeyBytes now (sv_client s).
Definition Verify (now : Z) (s : SignerVerifier) (r : Reader) (sig : bytes) : err :=
  client_verify now (sv_client s) r sig (hashFunc s).
End hashivault.
End Hashivault.
