(* ===== verification/KmsTheorems.v ===== *)
(** The clients of key management services (KmsClients.v, KmsVaults.v): their
    references, the age of the keys they use, and what their signers and verifiers
    accept. *)
From S2P Require Import Prelude Receiver GoStrings GoText Errors Crypto Encodings Keys Registry Host KMS KmsClients KmsVaults Toy.
From stdpp Require Import options.

#[local] Unset Default Proof Using.

(** * References *)

Definition slash_free (s : string) : Prop := byte_free slash_char s = true.
Definition part (s : string) : Prop := s ≠ "" ∧ slash_free s.
Lemma nonempty_true s : nonempty s = true ↔ s ≠ "".
Proof. unfold nonempty. by rw negb_true_iff bool_decide_eq_false. Qed.

(** The parts between the slashes of a text are the parts that make it. *)
Lemma SplitByte_slash s l : SplitByte s slash_char = l ↔
  s = Join l (String slash_char "") ∧ l ≠ [] ∧ Forall slash_free l.
Proof.
  split.
  - intros <-. split; [by rw Join_SplitByte|]. split; [apply SplitByte_ne_nil|].
    apply Forall_forall. intros e. apply SplitByte_parts_free.
  - intros (-> & Hne & Hl). by apply SplitByte_Join.
Qed.

Lemma Join_app l1 l2 sep : l1 ≠ [] → l2 ≠ [] → Join (l1 ++ l2) sep = Join l1 sep +:+ sep +:+ Join l2 sep.
Proof.
  intros H1 H2. induction l1 as [|a l1 IH]; [done|]. destruct l1 as [|b l1].
  - destruct l2; done.
  - change (a +:+ sep +:+ Join ((b :: l1) ++ l2) sep = (a +:+ sep +:+ Join (b :: l1) sep) +:+ sep +:+ Join l2 sep).
    rw IH; [|done]. by rw !string_app_assoc.
Qed.

Module GcpRefs.
Import Gcp.
(** The text of a reference, with one of the two words for versions. *)
Definition render (kind : string) (k : key_reference) : string :=
  ReferenceScheme +:+ parent_of k +:+
  (if bool_decide (version k = "") then "" else "/" +:+ kind +:+ "/" +:+ version k).
Definition valid (k : key_reference) : Prop :=
  part (projectID k) ∧ part (locationID k) ∧ part (keyRing k) ∧ part (keyName k) ∧ slash_free (version k).

Lemma parent_Join k : parent_of k = Join ["projects"; projectID k; "locations"; locationID k; "keyRings"; keyRing k; "cryptoKeys"; keyName k] "/".
Proof. done. Qed.

Lemma gcp_parse_iff ref k :
  parseReference ref = Ok k ↔ valid k ∧ ∃ kind, kind ∈ ["cryptoKeyVersions"; "versions"] ∧ ref = render kind k.
Proof.
  transitivity (submatch ref = Some k).
  { unfold parseReference. destruct (submatch ref); split; by intros [= ->]. }
  unfold submatch. split.
  - destruct (CutPrefix ref ReferenceScheme) as [s|] eqn:Hs; [|done]. apply CutPrefix_Some in Hs as ->. cbn [mbind option_bind].
    destruct (SplitByte s slash_char) as [|w1 [|p [|w2 [|l [|w3 [|r [|w4 [|n rest]]]]]]]] eqn:Hparts; try done.
    apply SplitByte_slash in Hparts as (-> & _ & Hfree).
    destruct (bool_decide _ && forallb nonempty _) eqn:Hb; [|done].
    apply andb_true_iff in Hb as [[= -> -> -> ->]%bool_decide_eq_true Hne].
    cbn [forallb] in Hne. rw !andb_true_iff !nonempty_true in Hne. destruct Hne as (Hp & Hl & Hr & Hn & _).
    rw !Forall_cons in Hfree. destruct Hfree as (_ & Fp & _ & Fl & _ & Fr & _ & Fn & Frest).
    destruct rest as [|kind [|v [|]]]; [|done| |done].
    + intros [= <-]. split; [by split_and!|]. exists "versions". split; [apply elem_of_cons; right; by apply list_elem_of_singleton|]. unfold render. cbn [version]. rw bool_decide_eq_true_2; [|done]. by rw string_app_nil_r.
    + destruct (bool_decide _ && nonempty v) eqn:Hk; [|done]. apply andb_true_iff in Hk as [Hk%bool_decide_eq_true Hv%nonempty_true].
      intros [= <-]. rw !Forall_cons in Frest. destruct Frest as (_ & Fv & _). split; [by split_and!|].
      exists kind. split; [done|]. unfold render. cbn [version]. rw bool_decide_eq_false_2; [|done]. rw parent_Join. f_equal.
      by apply (Join_app ["projects"; p; "locations"; l; "keyRings"; r; "cryptoKeys"; n] [kind; v] "/").
  - intros ((Hp & Hl & Hr & Hn & Hv) & kind & Hkind & ->). unfold render. rw CutPrefix_app. cbn [mbind option_bind].
    destruct k as [p l r n v]. cbn in Hp, Hl, Hr, Hn, Hv. rw parent_Join. cbn [projectID locationID keyRing keyName version].
    assert (∀ rest, Forall slash_free rest → SplitByte (Join (["projects"; p; "locations"; l; "keyRings"; r; "cryptoKeys"; n] ++ rest) "/") slash_char =
      ["projects"; p; "locations"; l; "keyRings"; r; "cryptoKeys"; n] ++ rest) as Hsplit.
    { intros rest Hrest. apply SplitByte_slash. split; [done|]. split; [done|]. apply Forall_app. split; [|done].
      destruct Hp, Hl, Hr, Hn. by repeat constructor. }
    assert (forallb nonempty [p; l; r; n] = true) as Hne.
    { cbn [forallb]. rw !andb_true_iff !nonempty_true. destruct Hp, Hl, Hr, Hn. by split_and!. }
    case_bool_decide as Hver.
    + subst v. rw string_app_nil_r. pose proof (Hsplit [] (Forall_nil_2 _)) as Hs. rw right_id_L in Hs. rw Hs.
      rw bool_decide_eq_true_2; [|done]. by rw Hne.
    + assert (slash_free kind) as Fk by (apply elem_of_cons in Hkind as [->|Hk%list_elem_of_singleton]; [done|by rw Hk]).
      pose proof (Hsplit [kind; v] ltac:(by repeat constructor)) as Hs. rw Join_app in Hs; [|done..].
      change (Join [kind; v] "/") with (kind +:+ "/" +:+ v) in Hs. rw Hs. cbn [app].
      rw bool_decide_eq_true_2; [|done]. rw Hne. cbn [andb]. rw bool_decide_eq_true_2; [|done].
      rw (proj2 (nonempty_true v) Hver). done.
Qed.
End GcpRefs.

Module AzureRefs.
Import Azure.
Definition render (vault key v : string) : string :=
  ReferenceScheme +:+ vault +:+ vault_suffix +:+ "/" +:+ key +:+ (if bool_decide (v = "") then "" else "/" +:+ v).
Definition url_of (vault : string) : string := "https://" +:+ (vault +:+ vault_suffix) +:+ "/".

Lemma azure_parse_iff ref url key v :
  ParseReference ref = Ok (url, key, v) ↔
  ∃ vault, part vault ∧ part key ∧ slash_free v ∧ url = url_of vault ∧ ref = render vault key v.
Proof.
  unfold ParseReference, submatch. split.
  - destruct (CutPrefix ref ReferenceScheme) as [s|] eqn:Hs; [|done]. apply CutPrefix_Some in Hs as ->. cbn [mbind option_bind].
    destruct (SplitByte s slash_char) as [|host [|key' rest]] eqn:Hparts; try done.
    apply SplitByte_slash in Hparts as (-> & _ & Hfree).
    destruct (_ && nonempty key') eqn:Hb; [|done]. apply andb_true_iff in Hb as [Hb Hk%nonempty_true].
    apply andb_true_iff in Hb as [Hsuf Hlen%bool_decide_eq_true]. apply HasSuffix_true in Hsuf as [vault ->].
    rw slen_app in Hlen. rw !Forall_cons in Hfree. destruct Hfree as (Fh & Fk & Frest).
    assert (part vault) as Hvault.
    { split; [intros ->; cbn in Hlen; lia|]. unfold slash_free in *. rw byte_free_app in Fh. by apply andb_true_iff in Fh as [? _]. }
    destruct rest as [|v' [|]]; [| |done].
    + intros [= <- <- <-]. exists vault. do 4 (split; [done|]). unfold render. cbn [Join].
      rw bool_decide_eq_true_2; [|done]. by rw string_app_nil_r !string_app_assoc.
    + destruct (nonempty v') eqn:Hv; [|done]. apply nonempty_true in Hv. intros [= <- <- <-]. exists vault.
      rw Forall_cons in Frest. destruct Frest as [Fv _]. do 4 (split; [done|]). unfold render.
      rw bool_decide_eq_false_2; [|done]. cbn [Join]. by rw !string_app_assoc.
  - intros (vault & [Hv0 Fv0] & [Hk Fk] & Fv & -> & ->). unfold render. rw CutPrefix_app. cbn [mbind option_bind].
    assert (slash_free (vault +:+ vault_suffix)) as Fh by (unfold slash_free in *; by rw byte_free_app Fv0).
    assert (∀ rest, Forall slash_free rest → SplitByte (Join ((vault +:+ vault_suffix) :: key :: rest) "/") slash_char =
      (vault +:+ vault_suffix) :: key :: rest) as Hsplit.
    { intros rest Hrest. apply SplitByte_slash. split; [done|]. split; [done|]. by repeat constructor. }
    assert (HasSuffix (vault +:+ vault_suffix) vault_suffix && bool_decide (slen vault_suffix < slen (vault +:+ vault_suffix)) && nonempty key = true) as Hb.
    { assert (HasSuffix (vault +:+ vault_suffix) vault_suffix = true) as -> by (apply HasSuffix_true; by exists vault).
      rw (proj2 (nonempty_true key) Hk) bool_decide_eq_true_2; [done|]. rw slen_app. destruct vault; [done|]. cbn [slen]. lia. }
    destruct (decide (v = "")) as [->|Hver].
    + rw bool_decide_eq_true_2; [|done]. rw string_app_nil_r -string_app_assoc.
      pose proof (Hsplit [] (Forall_nil_2 _)) as Hs. cbn [Join] in Hs. rw Hs Hb. done.
    + rw (bool_decide_eq_false_2 (v = "")); [|done]. rw -!(string_app_assoc vault).
      pose proof (Hsplit [v] ltac:(by repeat constructor)) as Hs. cbn [Join] in Hs. rw Hs Hb.
      by rw (proj2 (nonempty_true v) Hver).
Qed.
End AzureRefs.

Module VaultRefs.
Import Hashivault.
Lemma vault_parse_iff ref path :
  parseReference ref = Ok path ↔ path_group path = true ∧ ref = ReferenceScheme +:+ path.
Proof.
  unfold parseReference, submatch. split.
  - destruct (CutPrefix ref ReferenceScheme) as [s|] eqn:Hs; [|done]. apply CutPrefix_Some in Hs as ->. cbn [mbind option_bind].
    destruct (path_group s) eqn:Hg; [|done]. by intros [= <-].
  - intros [Hg ->]. rw CutPrefix_app. cbn [mbind option_bind]. by rw Hg.
Qed.
End VaultRefs.

Module AwsRefs.
Import Aws.
Definition render (endpoint id : string) : string := ReferenceScheme +:+ endpoint +:+ "/" +:+ id.

Lemma first_match_Some {A B} (f : A → option B) l y : first_match f l = Some y → ∃ x, x ∈ l ∧ f x = Some y.
Proof.
  induction l as [|x l IH]; cbn [first_match]; [done|]. destruct (f x) as [y'|] eqn:Hx.
  - intros [= ->]. exists x. split; [left|done].
  - intros (x' & ? & ?)%IH. exists x'. split; [by right|done].
Qed.
Lemma submatch_render endpoint id re : slash_free endpoint →
  submatch (render endpoint id) re = (λ alias, (endpoint, id, alias)) <$> re id.
Proof.
  intros He. unfold submatch, render. rw CutPrefix_app. cbn [mbind option_bind].
  change (endpoint +:+ "/" +:+ id) with (endpoint +:+ String slash_char id). by rw cut_byte_free.
Qed.

Lemma aws_parse_iff ref endpoint id alias :
  ParseReference ref = Ok (endpoint, id, alias) ↔
  slash_free endpoint ∧ ref = render endpoint id ∧ first_match (λ re, re id) allREs = Some alias.
Proof.
  assert (∀ l, slash_free endpoint → first_match (submatch (render endpoint id)) l =
    (λ a, (endpoint, id, a)) <$> first_match (λ re, re id) l) as Hrender.
  { intros l He. induction l as [|re l IH]; [done|]. cbn [first_match]. rw submatch_render; [|done]. destruct (re id); [done|apply IH]. }
  unfold ParseReference. split.
  - destruct (first_match _ _) as [v|] eqn:Hm; [|done]. intros [= ->].
    pose proof Hm as (re & _ & Hre)%first_match_Some. unfold submatch in Hre.
    destruct (CutPrefix ref ReferenceScheme) as [s|] eqn:Hs; [|done]. apply CutPrefix_Some in Hs as ->. cbn [mbind option_bind] in Hre.
    destruct (cut_byte slash_char s) as [host [id'|]] eqn:Hcut; [|done].
    destruct (re id') as [a|]; [|done]. injection Hre as -> -> ->.
    assert (slash_free endpoint) as He.
    { unfold slash_free. pose proof (cut_byte_key_free slash_char s) as H. by rw Hcut in H. }
    apply cut_byte_Some in Hcut as ->. split; [done|]. split; [done|].
    change (ReferenceScheme +:+ endpoint +:+ String slash_char id) with (render endpoint id) in Hm. rw Hrender in Hm; [|done].
    destruct (first_match _ allREs) as [a'|]; [|done]. by injection Hm as ->.
  - intros (He & -> & Ha). rw Hrender; [|done]. by rw Ha.
Qed.
End AwsRefs.

(** The reference of a key is read back as the parts it is made of, for all four
    services, and only such references are read; the check of a reference and its
    parsing agree. *)
Theorem references_roundtrip ref :
  (∀ endpoint id alias, Aws.ParseReference ref = Ok (endpoint, id, alias) ↔
     slash_free endpoint ∧ ref = AwsRefs.render endpoint id ∧ Aws.first_match (λ re, re id) Aws.allREs = Some alias) ∧
  (∀ k, Gcp.parseReference ref = Ok k ↔
     GcpRefs.valid k ∧ ∃ kind, kind ∈ ["cryptoKeyVersions"; "versions"] ∧ ref = GcpRefs.render kind k) ∧
  (∀ url key v, Azure.ParseReference ref = Ok (url, key, v) ↔
     ∃ vault, part vault ∧ part key ∧ slash_free v ∧ url = AzureRefs.url_of vault ∧ ref = AzureRefs.render vault key v) ∧
  (∀ path, Hashivault.parseReference ref = Ok path ↔
     Hashivault.path_group path = true ∧ ref = Hashivault.ReferenceScheme +:+ path) ∧
  (Aws.ValidReference ref = nil_error ↔ ∃ v, Aws.ParseReference ref = Ok v) ∧
  (Gcp.ValidReference ref = nil_error ↔ ∃ k, Gcp.parseReference ref = Ok k) ∧
  (Azure.ValidReference ref = nil_error ↔ ∃ v, Azure.ParseReference ref = Ok v) ∧
  (Hashivault.ValidReference ref = nil_error ↔ ∃ path, Hashivault.parseReference ref = Ok path).
Proof.
  split_and!; [intros *; apply AwsRefs.aws_parse_iff|apply GcpRefs.gcp_parse_iff|intros *; apply AzureRefs.azure_parse_iff|apply VaultRefs.vault_parse_iff| | | |].
  - unfold Aws.ValidReference, Aws.ParseReference. generalize Aws.allREs. intros l. induction l as [|re l IH]; [split; [done|by intros (? & ?)]|].
    cbn [existsb Aws.first_match]. destruct (Aws.submatch ref re) as [v|]; [split; [intros _; by exists v|done]|]. exact IH.
  - unfold Gcp.ValidReference, Gcp.parseReference. destruct (Gcp.submatch ref) as [k|]; split; try done; [by exists k|by intros (? & ?)].
  - unfold Azure.ValidReference, Azure.ParseReference. destruct (Azure.submatch ref) as [[[h k] v]|]; split; try done; [by eexists|by intros (? & ?)].
  - unfold Hashivault.ValidReference, Hashivault.parseReference. destruct (Hashivault.submatch ref) as [k|]; split; try done; [by exists k|by intros (? & ?)].
Qed.

(** * The age of the keys *)

(** What the clients of three services, and the signers around them, share: a cache
    of the key, and a way to load it that does not depend on the cache. *)
Class KeyClient (C V : Type) := {
  kc_cache : C → Cache V;
  kc_set : C → Cache V → C;
  kc_load : Z → C → res V;
  kc_ttl : C → Z;
  kc_cache_set c x : kc_cache (kc_set c x) = x;
  kc_set_cache c : kc_set c (kc_cache c) = c;
  kc_set_set c x y : kc_set (kc_set c x) y = kc_set c y;
  kc_load_set t c x : kc_load t (kc_set c x) = kc_load t c;
  kc_ttl_set c x : kc_ttl (kc_set c x) = kc_ttl c;
}.

Section freshness.
Context `{KC : KeyClient C V}.

(** The key in the cache was loaded, and expires in time. *)
Definition fresh (now : Z) (c : C) : Prop := cache_ok (kc_ttl c) (λ t, kc_load t c) now (kc_cache c).
(** Operations that change nothing but the cache, and keep it fresh. *)
Definition keeps {A} (now : Z) (m : recv C A) : Prop :=
  ∀ c, fresh now c → fresh now (m c).1 ∧ ∃ x, (m c).1 = kc_set c x.
(** The key of the cache, or the one that there is now. *)
Definition get_key (now : Z) : recv C V := λ c,
  let (x, r) := cache_Get now (kc_ttl c) (kc_load now c) (kc_cache c) in (kc_set c x, r).

Lemma fresh_set now c x : fresh now (kc_set c x) ↔ cache_ok (kc_ttl c) (λ t, kc_load t c) now x.
Proof.
  unfold fresh. rw kc_ttl_set kc_cache_set. destruct x as [i|]; [|done]. cbn [cache_ok]. by setoid_rewrite kc_load_set.
Qed.
Lemma fresh_later now now' c : (now ≤ now')%Z → fresh now c → fresh now' c.
Proof. apply cache_ok_later. Qed.

Lemma keeps_same {A} now (r : res A) : keeps now (call r).
Proof. intros c Hc. split; [done|]. exists (kc_cache c). by rw kc_set_cache. Qed.
Lemma keeps_ret {A} now (a : A) : keeps now (mret a).
Proof. apply (keeps_same _ (Ok a)). Qed.
Lemma keeps_self now : keeps now self.
Proof. intros c Hc. split; [done|]. exists (kc_cache c). by rw kc_set_cache. Qed.
Lemma keeps_bind {A B} now (m : recv C A) (f : A → recv C B) : keeps now m → (∀ a, keeps now (f a)) → keeps now (m ≫= f).
Proof.
  intros Hm Hf c Hc. destruct (Hm c Hc) as [H1 [x Hx]]. unfold mbind, recv_bind.
  destruct (m c) as [c1 [a|e|w]]; [|split; [done|by exists x]..]. cbn [fst] in *. subst c1.
  destruct (Hf a _ H1) as [H2 [y Hy]]. split; [done|]. exists y. by rw Hy kc_set_set.
Qed.
Lemma keeps_wrapped {A} now msg (m : recv C A) : keeps now m → keeps now (wrapped msg m).
Proof. intros Hm c Hc. specialize (Hm c Hc). unfold wrapped. by destruct (m c). Qed.
Lemma keeps_drop now (f : C → C) : (∀ c, f c = kc_set c None) → keeps now (assign f).
Proof. intros Hf c Hc. cbn. rw Hf. split; [by apply fresh_set|by exists None]. Qed.
Lemma keeps_get_key now : keeps now (get_key now).
Proof.
  intros c Hc. unfold get_key. destruct (cache_Get _ _ _ _) as [x r] eqn:Hg.
  destruct (cache_Get_ok (kc_ttl c) (λ t, kc_load t c) now _ _ _ Hc Hg) as [Hx _].
  split; [by apply fresh_set|by exists x].
Qed.

(** The key that is used was loaded at most its time to live ago. *)
Lemma get_key_fresh now c c' v : fresh now c → get_key now c = (c', Ok v) →
  ∃ t, (t ≤ now)%Z ∧ ((0 < kc_ttl c)%Z → (now ≤ t + kc_ttl c)%Z) ∧ kc_load t c = Ok v.
Proof.
  unfold get_key. destruct (cache_Get _ _ _ _) as [x r] eqn:Hg. intros Hc [= _ ->].
  by destruct (cache_Get_ok (kc_ttl c) (λ t, kc_load t c) now _ _ _ Hc Hg) as [_ Hr].
Qed.

(** With a key that does not change, that key is used. *)
Lemma get_key_const now c v : fresh now c → (∀ t, kc_load t c = Ok v) →
  ∃ x, get_key now c = (kc_set c x, Ok v) ∧ fresh now (kc_set c x).
Proof.
  intros Hc Hv. destruct (keeps_get_key now c Hc) as [Hf _]. unfold get_key in *. destruct (cache_Get _ _ _ _) as [x r] eqn:Hg.
  destruct (cache_Get_ok (kc_ttl c) (λ t, kc_load t c) now _ _ _ Hc Hg) as [_ Hr]. exists x. split; [|done].
  destruct r as [v'|e|w]; [destruct Hr as (t & _ & _ & Hl)|destruct Hr as [Hl _]..]; rw Hv in Hl; congruence.
Qed.
End freshness.

Create HintDb keeps.
#[export] Hint Resolve keeps_same keeps_ret keeps_self : keeps.
(** A signer around a client. *)
Lemma keeps_on_part `{KC : KeyClient C V, KT : KeyClient T V} {A} now (get : T → C) (set : T → C → T) (m : recv C A) :
  (∀ s, fresh now s → fresh now (get s)) →
  (∀ s x, fresh now (kc_set (get s) x) → fresh now (kc_set s x)) →
  (∀ s x, set s (kc_set (get s) x) = kc_set s x) →
  keeps now m → keeps now (on_part get set m).
Proof.
  intros Hget Hset Hs Hm s Hf. destruct (Hm (get s) (Hget s Hf)) as [H1 [x Hx]]. unfold on_part.
  destruct (m (get s)) as [c r]. cbn [fst] in *. subst c. rw Hs. split; [by apply Hset|by exists x].
Qed.

(** Signers at work: loaded, and used at times that do not go back. *)
Inductive reachable {T} (loaded : T → Prop) (used : Z → T → T → Prop) : Z → T → Prop :=
  | reach_load now s : loaded s → reachable loaded used now s
  | reach_use t now s s' : reachable loaded used t s → (t ≤ now)%Z → used now s s' → reachable loaded used now s'.

Lemma reachable_fresh `{KC : KeyClient T V} (loaded : T → Prop) used now s :
  (∀ s, loaded s → kc_cache s = None) →
  (∀ now s s', used now s s' → fresh now s → fresh now s') →
  reachable loaded used now s → fresh now s.
Proof.
  intros Hl Hu. induction 1 as [now s Hs|t now s s' _ IH Ht Hs].
  - unfold fresh. by rw (Hl _ Hs).
  - eapply Hu; [exact Hs|]. by eapply fresh_later.
Qed.

Section caches.
Context `{CL : CryptoLib} `{HF : HostFiles} `{AA : AwsApi} `{GA : GcpApi} `{AZ : !AzureApi}.

#[export] Program Instance aws_client : KeyClient Aws.awsClient Aws.cmk := {|
  kc_cache := Aws.keyCache; kc_set := Aws.set_cache; kc_load t a := Aws.fetchCMK t a; kc_ttl _ := key_ttl |}.
Solve Obligations with by intros; try match goal with c : Aws.awsClient |- _ => destruct c end.
#[export] Program Instance aws_signer : KeyClient Aws.SignerVerifier Aws.cmk := {|
  kc_cache s := Aws.keyCache (Aws.sv_client s);
  kc_set s x := Aws.mkSV (Aws.reference s) (Aws.set_cache (Aws.sv_client s) x) (Aws.hashFunc s);
  kc_load t s := Aws.fetchCMK t (Aws.sv_client s); kc_ttl _ := key_ttl |}.
Solve Obligations with by intros; try match goal with c : Aws.SignerVerifier |- _ => destruct c as [? [] ?] end.
#[export] Program Instance gcp_client : KeyClient Gcp.gcpClient Gcp.cryptoKeyVersion := {|
  kc_cache := Gcp.kvCache; kc_set := Gcp.set_cache; kc_load t a := Gcp.keyVersionName t a; kc_ttl := Gcp.ttl_of |}.
Solve Obligations with by intros; try match goal with c : Gcp.gcpClient |- _ => destruct c end.
#[export] Program Instance gcp_signer : KeyClient Gcp.SignerVerifier Gcp.cryptoKeyVersion := {|
  kc_cache s := Gcp.kvCache (Gcp.sv_client s);
  kc_set s x := Gcp.mkSV (Gcp.reference s) (Gcp.set_cache (Gcp.sv_client s) x) (Gcp.hashFunc s);
  kc_load t s := Gcp.keyVersionName t (Gcp.sv_client s); kc_ttl s := Gcp.ttl_of (Gcp.sv_client s) |}.
Solve Obligations with by intros; try match goal with c : Gcp.SignerVerifier |- _ => destruct c as [? [] ?] end.
#[export] Program Instance azure_client : KeyClient Azure.azureClient Azure.keyBundle := {|
  kc_cache := Azure.keyCache; kc_set := Azure.set_cache; kc_load t a := Azure.fetchKeyBundle t a; kc_ttl _ := key_ttl |}.
Solve Obligations with by intros; try match goal with c : Azure.azureClient |- _ => destruct c end.
#[export] Program Instance azure_signer : KeyClient Azure.SignerVerifier Azure.keyBundle := {|
  kc_cache s := Azure.keyCache (Azure.sv_client s);
  kc_set s x := Azure.mkSV (Azure.reference s) (Azure.set_cache (Azure.sv_client s) x) (Azure.hashFunc s);
  kc_load t s := Azure.fetchKeyBundle t (Azure.sv_client s); kc_ttl _ := key_ttl |}.
Solve Obligations with by intros; try match goal with c : Azure.SignerVerifier |- _ => destruct c as [? [] ?] end.

(** The operations that ask for the key. *)
Lemma keeps_getCMK now : keeps now (Aws.getCMK now).
Proof. exact (keeps_get_key now). Qed.
Lemma keeps_getCKV now : keeps now (Gcp.getCKV now).
Proof. exact (keeps_get_key now). Qed.
Lemma keeps_getKeyBundle now : keeps now (Azure.getKeyBundle now).
Proof. exact (keeps_get_key now). Qed.
Lemma keeps_drop_gcp now : keeps now (assign (λ g, Gcp.set_cache g None)).
Proof. by apply keeps_drop. Qed.
Lemma keeps_aws {A} now (m : recv Aws.awsClient A) : keeps now m → keeps now (Aws.on_client m).
Proof. by apply keeps_on_part. Qed.
Lemma keeps_gcp {A} now (m : recv Gcp.gcpClient A) : keeps now m → keeps now (Gcp.on_client m).
Proof. by apply keeps_on_part. Qed.
Lemma keeps_azure {A} now (m : recv Azure.azureClient A) : keeps now m → keeps now (Azure.on_client m).
Proof. by apply keeps_on_part. Qed.
#[local] Hint Resolve keeps_getCMK keeps_getCKV keeps_getKeyBundle keeps_drop_gcp : keeps.
Ltac keeps_solve :=
  repeat first
    [ solve [eauto with keeps] | apply keeps_aws | apply keeps_gcp | apply keeps_azure
    | apply keeps_bind; [|intros ?] | apply keeps_wrapped | case_match ].

(** Signers at work. *)
Definition aws_loaded (s : Aws.SignerVerifier) : Prop := ∃ st ksp, Aws.LoadSignerVerifier st ksp = Ok s.
Definition aws_used (now : Z) (s s' : Aws.SignerVerifier) : Prop :=
  (∃ message, s' = (Aws.Sign now message s).1) ∨ (∃ st message sig, s' = (Aws.Verify now st message sig s).1) ∨
  s' = (Aws.Bytes now s).1.
Definition gcp_loaded (s : Gcp.SignerVerifier) : Prop := ∃ st ksp, Gcp.LoadSignerVerifier st ksp = Ok s.
Definition gcp_used (now : Z) (s s' : Gcp.SignerVerifier) : Prop :=
  (∃ message, s' = (Gcp.Sign now message s).1) ∨ (∃ message sig, s' = (Gcp.Verify now message sig s).1) ∨
  s' = (Gcp.Bytes now s).1 ∨ s' = (Gcp.on_client (Gcp.public now) s).1.
Definition azure_loaded (s : Azure.SignerVerifier) : Prop := ∃ ksp, Azure.LoadSignerVerifier ksp = Ok s.
Definition azure_used (now : Z) (s s' : Azure.SignerVerifier) : Prop :=
  (∃ message, s' = (Azure.Sign now message s).1) ∨ (∃ st message sig, s' = (Azure.Verify now st message sig s).1) ∨
  s' = (Azure.Bytes now s).1.

Lemma aws_used_fresh now s s' : aws_used now s s' → fresh now s → fresh now s'.
Proof.
  intros Hu Hs. assert (∃ A (m : recv Aws.SignerVerifier A), keeps now m ∧ s' = (m s).1) as (A & m & Hm & ->); [|by apply (Hm s Hs)].
  destruct Hu as [[m ->]|[(st & m & sig & ->)| ->]]; do 2 eexists; (split; [|done]);
    unfold Aws.Sign, Aws.Verify, Aws.Bytes, Aws.client_verify, Aws.client_verifyRemotely, Aws.client_sign, Aws.getHashFunc; keeps_solve.
Qed.
Lemma gcp_used_fresh now s s' : gcp_used now s s' → fresh now s → fresh now s'.
Proof.
  intros Hu Hs. assert (∃ A (m : recv Gcp.SignerVerifier A), keeps now m ∧ s' = (m s).1) as (A & m & Hm & ->); [|by apply (Hm s Hs)].
  destruct Hu as [[m ->]|[(m & sig & ->)|[-> | ->]]]; do 2 eexists; (split; [|done]);
    unfold Gcp.Sign, Gcp.Verify, Gcp.Bytes, Gcp.public, Gcp.client_verify, Gcp.client_sign, Gcp.getHashFunc; keeps_solve.
Qed.
Lemma azure_used_fresh now s s' : azure_used now s s' → fresh now s → fresh now s'.
Proof.
  intros Hu Hs. assert (∃ A (m : recv Azure.SignerVerifier A), keeps now m ∧ s' = (m s).1) as (A & m & Hm & ->); [|by apply (Hm s Hs)].
  destruct Hu as [[m ->]|[(st & m & sig & ->)| ->]]; do 2 eexists; (split; [|done]);
    unfold Azure.Sign, Azure.Verify, Azure.Bytes, Azure.client_verify, Azure.client_verifyRemotely, Azure.client_sign, Azure.getHashFunc,
      Azure.fetchPublicKey; keeps_solve.
Qed.

Lemma aws_loaded_empty s : aws_loaded s → kc_cache s = None.
Proof.
  intros (st & ksp & H). unfold Aws.LoadSignerVerifier, Aws.newAWSClient in H. cbn.
  apply res_bind_ok in H as (c & Hc & H). apply res_bind_ok in Hc as (? & _ & Hc).
  apply res_bind_ok in Hc as ([[e id] al] & _ & Hc). apply res_bind_ok in Hc as (cfg & _ & [= <-]).
  case_bool_decide; [done|]. by injection H as <-.
Qed.
Lemma gcp_loaded_empty s : gcp_loaded s → kc_cache s = None.
Proof.
  intros (st & ksp & H). unfold Gcp.LoadSignerVerifier, Gcp.newGCPClient in H. cbn.
  apply res_bind_ok in H as (c & Hc & H). apply res_bind_ok in Hc as (? & _ & Hc).
  apply res_bind_ok in Hc as (ref & _ & Hc). destruct (has_options _ _); [|done]. cbn [negb] in Hc.
  apply res_bind_ok in Hc as (cfg & _ & [= <-]). case_bool_decide; [done|]. by injection H as <-.
Qed.
Lemma azure_loaded_empty s : azure_loaded s → kc_cache s = None.
Proof.
  intros (ksp & H). unfold Azure.LoadSignerVerifier, Azure.newAzureClient in H. cbn.
  apply res_bind_ok in H as (c & Hc & [= <-]). apply res_bind_ok in Hc as (? & _ & Hc).
  apply res_bind_ok in Hc as ([[u k] v] & _ & Hc). by apply res_bind_ok in Hc as (cfg & _ & [= <-]).
Qed.

(** C34: However a signer has been used since it was loaded, the key that it uses now
    is one that the service gave at most five minutes ago, or, with a version that
    is fixed by a GCP reference, that it gave for that version at some time. *)
Theorem key_caches_fresh now :
  (∀ s c k, reachable aws_loaded aws_used now s → Aws.getCMK now (Aws.sv_client s) = (c, Ok k) →
     ∃ t, (t ≤ now ≤ t + 300)%Z ∧ Aws.fetchCMK t (Aws.sv_client s) = Ok k) ∧
  (∀ s c k, reachable gcp_loaded gcp_used now s → Gcp.getCKV now (Gcp.sv_client s) = (c, Ok k) →
     ∃ t, (t ≤ now)%Z ∧ Gcp.keyVersionName t (Gcp.sv_client s) = Ok k ∧
       (Gcp.version (Gcp.key (Gcp.sv_client s)) = "" → (now ≤ t + 300)%Z)) ∧
  (∀ s c k, reachable azure_loaded azure_used now s → Azure.getKeyBundle now (Azure.sv_client s) = (c, Ok k) →
     ∃ t, (t ≤ now ≤ t + 300)%Z ∧ Azure.fetchKeyBundle t (Azure.sv_client s) = Ok k).
Proof.
  split_and!; intros s c k Hr Hk.
  - apply (reachable_fresh _ _ _ _ aws_loaded_empty aws_used_fresh) in Hr.
    destruct (get_key_fresh (KC:=aws_client) now (Aws.sv_client s) c k Hr Hk) as (t & Ht & Hage & Hl). exists t. split; [|done].
    split; [done|]. by apply Hage.
  - apply (reachable_fresh _ _ _ _ gcp_loaded_empty gcp_used_fresh) in Hr.
    destruct (get_key_fresh (KC:=gcp_client) now (Gcp.sv_client s) c k Hr Hk) as (t & Ht & Hage & Hl). exists t. do 2 (split; [done|]).
    intros Hv. cbn in Hage. unfold Gcp.ttl_of in Hage. rw bool_decide_eq_true_2 in Hage; [|done]. by apply Hage.
  - apply (reachable_fresh _ _ _ _ azure_loaded_empty azure_used_fresh) in Hr.
    destruct (get_key_fresh (KC:=azure_client) now (Azure.sv_client s) c k Hr Hk) as (t & Ht & Hage & Hl). exists t. split; [|done].
    split; [done|]. by apply Hage.
Qed.

(** * What AWS signs, the local verification accepts *)

(** A public key accepts a signature of a digest under a signing algorithm. *)
Definition scheme_accepts (k : AnyKey) (alg : SigningAlgorithm) (digest sig : bytes) : Prop :=
  match alg, k with
  | (RsassaPssSha256 | RsassaPssSha384 | RsassaPssSha512), KRSAPublic p => rsa_VerifyPSS p (Aws.alg_hash alg) digest sig = nil_error
  | (RsassaPkcs1V15Sha256 | RsassaPkcs1V15Sha384 | RsassaPkcs1V15Sha512), KRSAPublic p =>
      rsa_VerifyPKCS1v15 p (Aws.alg_hash alg) digest sig = nil_error
  | (EcdsaSha256 | EcdsaSha384 | EcdsaSha512), KECDSAPublic p => ecdsa_VerifyASN1 p digest sig = true
  | _, _ => False
  end.
(** The service signs with the private part of the key that it gives. *)
Definition AwsSigns : Prop := ∀ now cfg id digest alg sig pub k,
  aws_Sign now cfg id digest alg = Ok sig → aws_GetPublicKey now cfg id = Ok pub → ParsePKIXPublicKey pub = Ok k →
  scheme_accepts k alg digest sig.

Lemma RSAVerifier_either `{SL : !SignatureLaws} p h data digest sig :
  DigestBytes data h = Ok digest →
  rsa_VerifyPSS p h digest sig = nil_error ∨ rsa_VerifyPKCS1v15 p h digest sig = nil_error →
  RSAVerifier_Verify p h data sig = nil_error.
Proof.
  intros Hd Hv. unfold RSAVerifier_Verify. rw Hd. cbn [mbind res_bind].
  destruct (rsa_VerifyPSS p h digest sig) as [[]|e|w] eqn:Hp; [done| |by destruct (rsa_VerifyPSS_no_panic p h digest sig w)].
  by destruct Hv.
Qed.
Lemma scheme_verifier `{SL : !SignatureLaws} k alg data digest sig :
  DigestBytes data (Aws.alg_hash alg) = Ok digest → scheme_accepts k alg digest sig →
  ∃ v, NewVerifier (PKey k) [VerifyWithHash (Aws.alg_hash alg)] = Ok v ∧ Verifier_Verify v data sig = nil_error.
Proof.
  intros Hd Ha. unfold NewVerifier. cbn [foldl VerifyWithHash vo_hash].
  destruct k as [p| |p| | | |]; try (by destruct alg); cbn [NewKeyVerifier]; eexists; (split; [done|]); cbn [Verifier_Verify].
  - apply (RSAVerifier_either _ _ _ digest); [done|]. destruct alg; try done; [by left..|by right|by right|by right].
  - unfold ECDSAVerifier_Verify. rw Hd. cbn [mbind res_bind]. assert (ecdsa_VerifyASN1 p digest sig = true) as ->; [|done].
    by destruct alg.
Qed.

(** What a signer of AWS signs is accepted by its verification with the public
    key, which the library does itself, when the service signs with the private part
    of the key that it gives and gives the same key all the time. *)
Theorem Aws_sign_then_verify `{SL : !SignatureLaws} (HA : AwsSigns) st now now' s s1 k message sig :
  reachable aws_loaded aws_used now s → (now ≤ now')%Z →
  (∀ t, Aws.fetchCMK t (Aws.sv_client s) = Ok k) → verifyRemotely (st_aws st) = false →
  Aws.Sign now (Ok message) s = (s1, Ok sig) → (Aws.Verify now' st (Ok message) sig s1).2 = Ok tt.
Proof.
  intros Hr Hle Hkey Hlocal Hsign.
  apply (reachable_fresh _ _ _ _ aws_loaded_empty aws_used_fresh) in Hr.
  destruct (get_key_const (KC:=aws_client) now (Aws.sv_client s) k Hr Hkey) as (x1 & Hg1 & Hf1).
  destruct (get_key_const (KC:=aws_client) now (kc_set (Aws.sv_client s) x1) k Hf1 Hkey) as (x2 & Hg2 & Hf2).
  apply (fresh_later _ _ _ Hle) in Hf2.
  destruct (get_key_const (KC:=aws_client) now' (kc_set (kc_set (Aws.sv_client s) x1) x2) k Hf2 Hkey) as (x3 & Hg3 & _).
  change (get_key (KC:=aws_client)) with (λ t, Aws.getCMK t) in Hg1, Hg2, Hg3. cbn in Hg1, Hg2, Hg3.
  unfold Aws.Sign, Aws.getHashFunc, wrapped, Aws.on_client, on_part, mbind, recv_bind in Hsign. cbn in Hsign.
  rw Hg1 in Hsign. unfold Aws.HashFunc in Hsign. destruct (Aws.signing_algorithm k) as [alg| |] eqn:Halg; [|done..]. cbn in Hsign.
  destruct (ComputeDigest _ _ _) as [[digest h]| |] eqn:Hd; [|done..]. cbn in Hsign.
  unfold Aws.client_sign, mbind, recv_bind in Hsign. rw Hg2 Halg in Hsign. cbn in Hsign.
  destruct (aws_Sign _ _ _ _ _) as [out| |] eqn:Hout; [|done..]. injection Hsign as <- <-.
  unfold ComputeDigest in Hd. destruct (isSupportedAlg _ _); [|done]. cbn [mbind res_bind] in Hd.
  apply res_bind_ok in Hd as (d & Hdig & [= <- <-]).
  pose proof (Hkey now) as Hf. unfold Aws.fetchCMK, Aws.fetchPublicKey in Hf.
  apply res_bind_ok in Hf as (key & Hf & Hmeta). apply res_bind_ok in Hf as (pub & Hpub%wrap_ok & Hparse%wrap_ok).
  apply res_bind_ok in Hmeta as (meta & _ & [= <-]).
  destruct (scheme_verifier key alg message d out Hdig (HA _ _ _ _ _ _ _ _ Hout Hpub Hparse)) as (v & Hv & Hok).
  assert (Aws.cmk_Verifier (Aws.mkCMK meta key) = Ok v) as Hcv.
  { unfold Aws.cmk_Verifier, Aws.HashFunc. by rw Halg. }
  unfold Aws.Verify, Aws.on_client, on_part, Aws.client_verify, mbind, recv_bind. cbn. rw Hlocal Hg3. cbn.
  rw Hcv. cbn. by rw Hok.
Qed.
End caches.

(** * Findings *)
Section findings.
Context `{CL : CryptoLib} `{HF : HostFiles} `{AA : AwsApi} `{GA : GcpApi} `{AZ : !AzureApi} `{VA : VaultApi}.

(** A signature that GCP's verifier accepts is one of the message under a key of the
    cache or, when the version is not fixed, one of the empty message under the key
    that there is now: the second attempt finds nothing left to read. *)
Theorem Gcp_Verify_spec now message sig s :
  (Gcp.Verify now message sig s).2 = Ok tt ↔
  ∃ c k, Gcp.getCKV now (Gcp.sv_client s) = (c, Ok k) ∧
    (Verifier_Verify (Gcp.ckv_Verifier k) message sig = Ok tt ∨
     (∃ e, Verifier_Verify (Gcp.ckv_Verifier k) message sig = Err e) ∧
     Gcp.version (Gcp.key (Gcp.sv_client s)) = "" ∧
     ∃ k', Gcp.keyVersionName now (Gcp.sv_client s) = Ok k' ∧ Verifier_Verify (Gcp.ckv_Verifier k') "" sig = Ok tt).
Proof.
  unfold Gcp.Verify, Gcp.on_client, on_part, Gcp.client_verify, wrapped, mbind, recv_bind.
  destruct (Gcp.getCKV now (Gcp.sv_client s)) as [c [k|e|w]] eqn:Hg.
  2,3: split; [done|]; intros (c' & k & [= _ ?] & _).
  assert (∃ x, c = Gcp.set_cache (Gcp.sv_client s) x) as [x ->].
  { unfold Gcp.getCKV in Hg. destruct (cache_Get _ _ _ _) as [x r]. injection Hg as <- _. by exists x. }
  cbn. destruct (Verifier_Verify (Gcp.ckv_Verifier k) message sig) as [[]|e|w] eqn:Hv.
  - split; [|done]. intros _. exists (Gcp.set_cache (Gcp.sv_client s) x), k. split; [done|]. by left.
  - case_bool_decide as Hver.
    + unfold Gcp.getCKV. cbn.
      change (Gcp.keyVersionName now (Gcp.set_cache (Gcp.set_cache (Gcp.sv_client s) x) None)) with (Gcp.keyVersionName now (Gcp.sv_client s)).
      destruct (Gcp.keyVersionName now (Gcp.sv_client s)) as [k'|e'|w'] eqn:Hk'; cbn.
      * split.
        -- intros Hv'. exists (Gcp.set_cache (Gcp.sv_client s) x), k. split; [done|]. right. split; [by exists e|].
           split; [done|]. by exists k'.
        -- intros (c' & k1 & [= _ ->] & [H|(_ & _ & k2 & [= ->] & H)]); [by rw Hv in H|done].
      * split; [done|]. intros (c' & k1 & [= _ ->] & [H|(_ & _ & k2 & [=] & H)]). by rw Hv in H.
      * split; [done|]. intros (c' & k1 & [= _ ->] & [H|(_ & _ & k2 & [=] & H)]). by rw Hv in H.
    + split; [done|]. intros (c' & k1 & [= _ ->] & [H|(_ & ? & _)]); [by rw Hv in H|done].
  - split; [done|]. intros (c' & k1 & [= _ ->] & [H|([e H] & _)]); by rw Hv in H.
Qed.

(** Whatever the two options for the type of the credentials are set to, the defaults
    leave that of a user, and to set one of them to false selects it. *)
Theorem gcp_credentials_of_a_user ksp st b :
  ksp_Options ksp !! Gcp.providerName = Some Gcp.providerName →
  credType (st_gcp (SetDefaultVals (SPKms ksp, st) Gcp.Init).1.2) = AuthorizedUser ∧
  credType (st_gcp (Gcp.WithSACredentialsType b st)) = ServiceAccount.
Proof.
  intros Ho. split; [|done]. assert (bool_decide (Gcp.providerName ∈ (map_to_list (ksp_Options ksp)).*2) = true) as Hb.
  { apply bool_decide_eq_true, list_elem_of_fmap. exists (Gcp.providerName, Gcp.providerName). split; [done|]. by apply elem_of_map_to_list. }
  unfold Gcp.Init. cbn [SetDefaultVals set_default co_setter co_defaultVal NewConfigOption]. unfold search_setter. cbn [fst snd].
  by do 3 (rw Hb; cbn [fst snd SetDefaultVals set_default co_setter co_defaultVal NewConfigOption]).
Qed.

(** A login changes nothing but the token. *)
Lemma login_only now c c' r : Hashivault.login now c = (c', r) → c' = c ∨ ∃ t, c' = Hashivault.set_token t c.
Proof.
  unfold Hashivault.login, mbind, recv_bind, self, call, assign, mret, recv_ret. cbn.
  case_bool_decide; [|case_bool_decide].
  - destruct (if bool_decide _ then _ else _) as [t|e|w]; [|by intros [= <- _]; left..].
    case_bool_decide; intros [= <- _]; [by left|by right; eexists].
  - destruct (wrap _ (NewKubernetesAuth _ _ _)) as [[]|e|w]; [|by intros [= <- _]; left..].
    destruct (wrap _ (Auth_Login _ _ _ _ _)) as [s|e|w]; [|by intros [= <- _]; left..].
    intros [= <- _]. right. by eexists.
  - intros [= <- _]. by left.
Qed.

Lemma load_version now ksp st st' s : Hashivault.LoadSignerVerifier now ksp st = (st', Ok s) →
  Hashivault.c_keyVersion (Hashivault.sv_client s) = keyVersion (st_vault st') ∧
  (ksp_KeyVersion ksp = "" → keyVersion (st_vault st') = keyVersion (st_vault st)) ∧
  (ksp_KeyVersion ksp ≠ "" → ParseInt32 (ksp_KeyVersion ksp) = Ok (keyVersion (st_vault st'))).
Proof.
  unfold Hashivault.LoadSignerVerifier. case_bool_decide; [done|]. intros Hl.
  apply recv_bind_ok in Hl as (s1 & path & H1 & Hl). apply recv_call_ok in H1 as [_ ->].
  apply recv_bind_ok in Hl as (s2 & [] & H2 & Hl). apply recv_assign_ok in H2 as ->.
  apply recv_bind_ok in Hl as (s3 & [] & H3 & Hl). apply recv_call_ok in H3 as [_ ->].
  apply recv_bind_ok in Hl as (s4 & [] & H4 & Hl). apply recv_bind_ok in Hl as (s5 & x & [= <- <-] & Hl).
  apply recv_bind_ok in Hl as (s6 & [c authInfo] & H6 & Hl). apply recv_call_ok in H6 as [Hc%wrap_ok ->].
  apply recv_ret_ok in Hl as [-> ->]. cbn [Hashivault.sv_client fst].
  assert (Hashivault.c_keyVersion c = keyVersion (st_vault s4)) as ->.
  { unfold Hashivault.newClient in Hc. apply res_bind_ok in Hc as (? & _ & Hc).
    destruct (Hashivault.login _ _) as [c1 r] eqn:Hlog. apply res_bind_ok in Hc as (? & _ & [= <- _]).
    by apply login_only in Hlog as [->|[t ->]]. }
  split; [done|]. revert H4. case_bool_decide as Hv.
  - intros [-> _]%recv_ret_ok. by split.
  - intros Hset. split; [done|]. intros _. apply recv_bind_ok in Hset as (s7 & v & H7 & Hset).
    apply recv_call_ok in H7 as [Hp%wrap_ok ->]. by apply recv_assign_ok in Hset as ->.
Qed.

(** The version of the key that one provider named is the version of the next one
    that names none: the options are one object, and the version stays in it. *)
Theorem hashivault_version_stays now ksp1 ksp2 st st1 st2 v s1 s2 :
  Hashivault.LoadSignerVerifier now ksp1 st = (st1, Ok s1) → ParseInt32 (ksp_KeyVersion ksp1) = Ok v →
  ksp_KeyVersion ksp2 = "" → Hashivault.LoadSignerVerifier now ksp2 st1 = (st2, Ok s2) →
  Hashivault.c_keyVersion (Hashivault.sv_client s2) = v.
Proof.
  intros H1 Hv Hnone H2. apply load_version in H1 as (_ & _ & H1), H2 as (-> & H2 & _). rw H2; [|done].
  assert (ksp_KeyVersion ksp1 ≠ "") as Hne by (intros He; by rw He in Hv).
  specialize (H1 Hne). congruence.
Qed.

(** The version that a reference fixes plays no part in the verification. *)
Theorem hashivault_Verify_any_version now c v r sig h :
  Hashivault.client_verify now c r sig h =
  Hashivault.client_verify now (Hashivault.mkClient (Hashivault.conn c) (Hashivault.c_keyPath c)
    (Hashivault.transitSecretsEnginePath c) v (Hashivault.c_authMethod c) (Hashivault.c_tokenPath c)
    (Hashivault.kubernetesAuthMountPath c) (Hashivault.c_kubernetesSaTokenPath c) (Hashivault.c_role c)) r sig h.
Proof. done. Qed.

(** The loop that renews the token comes to an end or waits for an event: it never
    goes round without taking one. *)
Lemma watch_shorter events e rest : Hashivault.watch events = Some (e, rest) → length rest < length events.
Proof.
  induction events as [|[] events IH]; cbn; [done| | |]; [by intros [= _ <-]; lia..|]. intros H%IH. lia.
Qed.
Lemma renew_loop_fuel fuel now c auth events : length events < fuel → Hashivault.renew_loop fuel now c auth events ≠ Hashivault.OutOfFuel.
Proof.
  revert c auth events. induction fuel as [|fuel IH]; intros c auth events Hlen; [lia|]. cbn [Hashivault.renew_loop].
  unfold Hashivault.renewAuth. destruct (NewLifetimeWatcher auth); [done|].
  destruct (Hashivault.watch events) as [[[] rest]|] eqn:Hw; [done| |done|done].
  apply watch_shorter in Hw. destruct (Hashivault.login now c) as [c' [a| |]]; [|done..]. apply IH. lia.
Qed.
Theorem periodicallyRenewAuth_progresses now c auth events :
  Hashivault.periodicallyRenewAuth now c auth events ≠ Hashivault.OutOfFuel.
Proof. unfold Hashivault.periodicallyRenewAuth. destruct auth; [|done]. apply renew_loop_fuel. lia. Qed.

(** ** Azure: the hash function and the algorithm of a key *)

Definition algorithm_hash (a : SignatureAlgorithm) : Hash :=
  match a with
  | RS256 | PS256 | ES256 | ES256K => SHA256
  | RS384 | PS384 | ES384 => SHA384
  | RS512 | PS512 | ES512 => SHA512
  end.
(** They belong together when the service says what the key is for; otherwise a key
    on another curve than P-256 is asked for a digest of the wrong length. *)
Theorem azure_hash_of_algorithm (k : Azure.keyBundle) :
  (∀ jwk, Key (Azure.kb_Key k) = Some jwk → KeyOps jwk ≠ [] → algorithm_hash (Azure.SigningAlgorithm k) = Azure.HashFunc k) ∧
  (∀ jwk p, Key (Azure.kb_Key k) = Some jwk → KeyOps jwk = [] → Azure.kb_PublicKey k = KECDSAPublic p → ecdsa_Curve p = P384 →
     algorithm_hash (Azure.SigningAlgorithm k) = SHA384 ∧ Azure.HashFunc k = SHA256).
Proof.
  unfold Azure.SigningAlgorithm, Azure.HashFunc. split.
  - intros jwk -> Hops. rw bool_decide_eq_false_2; [|by destruct (KeyOps jwk)].
    destruct (Azure.kb_PublicKey k) as [| |p| | | |]; try done. by destruct (ecdsa_Curve p).
  - intros jwk p -> -> -> ->. by rw bool_decide_eq_true_2.
Qed.

(** Methods that see no more of a receiver than a part of it. *)
Definition sees {T C A} (P : T → C) (m : recv T A) : Prop :=
  ∀ s s', P s = P s' → P (m s).1 = P (m s').1 ∧ (m s).2 = (m s').2.
Lemma sees_call {T C A} (P : T → C) (r : res A) : sees P (call r).
Proof. by intros s s' H. Qed.
Lemma sees_bind {T C A B} (P : T → C) (m : recv T A) (f : A → recv T B) :
  sees P m → (∀ a, sees P (f a)) → sees P (m ≫= f).
Proof.
  intros Hm Hf s s' H. destruct (Hm s s' H) as [H1 H2]. unfold mbind, recv_bind.
  destruct (m s) as [s1 r1], (m s') as [s2 r2]. cbn in H1, H2. subst r2. destruct r1; [by apply Hf|done..].
Qed.
Lemma sees_wrapped {T C A} (P : T → C) msg (m : recv T A) : sees P m → sees P (wrapped msg m).
Proof.
  intros Hm s s' H. destruct (Hm s s' H) as [H1 H2]. unfold wrapped.
  destruct (m s) as [s1 r1], (m s') as [s2 r2]. cbn in *. by subst.
Qed.
Lemma sees_on_part {T C A} (P : T → C) (set : T → C → T) (m : recv C A) :
  (∀ s c, P (set s c) = c) → sees P (on_part P set m).
Proof. intros Hs s s' H. unfold on_part. rw H. destruct (m (P s')). cbn. by rw !Hs. Qed.
Ltac sees_solve := repeat first [apply sees_call | apply sees_bind; [|intros ?] | apply sees_wrapped | by apply sees_on_part].

(** What the signers sign with does not depend on the hash function they were loaded
    with, nor do their verifications. *)
Theorem kms_hash_not_used now (message : Reader) sig st r h h' :
  (∀ c, (Aws.Sign now message (Aws.mkSV r c h)).2 = (Aws.Sign now message (Aws.mkSV r c h')).2 ∧
        (Aws.Verify now st message sig (Aws.mkSV r c h)).2 = (Aws.Verify now st message sig (Aws.mkSV r c h')).2) ∧
  (∀ c, (Gcp.Sign now message (Gcp.mkSV r c h)).2 = (Gcp.Sign now message (Gcp.mkSV r c h')).2) ∧
  (∀ c, (Azure.Sign now message (Azure.mkSV r c h)).2 = (Azure.Sign now message (Azure.mkSV r c h')).2 ∧
        (Azure.Verify now st message sig (Azure.mkSV r c h)).2 = (Azure.Verify now st message sig (Azure.mkSV r c h')).2).
Proof.
  assert (sees Aws.sv_client (Aws.Sign now message)) as H1 by (unfold Aws.Sign, Aws.on_client; sees_solve).
  assert (sees Aws.sv_client (Aws.Verify now st message sig)) as H2 by (unfold Aws.Verify, Aws.on_client; sees_solve).
  assert (sees Gcp.sv_client (Gcp.Sign now message)) as H3 by (unfold Gcp.Sign, Gcp.on_client; sees_solve).
  assert (sees Azure.sv_client (Azure.Sign now message)) as H4 by (unfold Azure.Sign, Azure.on_client; sees_solve).
  assert (sees Azure.sv_client (Azure.Verify now st message sig)) as H5 by (unfold Azure.Verify, Azure.on_client; sees_solve).
  split_and!; intros c; try split; [by apply H1|by apply H2|by apply H3|by apply H4|by apply H5].
Qed.
End findings.

(** * Examples *)

#[local] Instance toy_no_files : HostFiles := {| host_Open p := Err (External "no file"); host_ReadFile p := Err (External "no file") |}.
(** A service with an ECDSA key, for digests of 256 bits. *)
#[local] Instance toy_aws : AwsApi := {|
  homedir_Expand p := Ok p; LoadDefaultConfig c := nil_error;
  aws_GetPublicKey t c id := Ok (encode "ec" "k");
  aws_DescribeKey t c id := Ok (Some [EcdsaSha256]);
  aws_Sign t c id d alg := match alg with EcdsaSha256 => Ok ("k" +:+ ":" +:+ d) | _ => Err (External "invalid algorithm") end;
  aws_Verify t c id d s alg := Err (External "invalid signature");
  spec_string s := "" |}.
Definition toy_ksp (name ref v : string) : KMSSignerProvider := mkKSP ref v SHA256 {[name := name]}.
Definition toy_aws_signer : Aws.SignerVerifier :=
  Aws.mkSV "awskms://h/alias/k" (Aws.mkClient (mkConfig false None None None (Some "https://h")) "h" "alias/k" "alias/k" None) SHA256.

Lemma toy_aws_signs : AwsSigns (CL:=toy_crypto) (AA:=toy_aws).
Proof.
  intros now cfg id digest alg sig pub k Hs [= <-] Hk. destruct alg; try discriminate Hs.
  injection Hs as <-. injection Hk as <-. unfold scheme_accepts. cbn. by apply bool_decide_eq_true_2.
Qed.
Lemma toy_aws_loaded : aws_loaded (CL:=toy_crypto) (HF:=toy_no_files) (AA:=toy_aws) toy_aws_signer.
Proof. exists initial_store, (toy_ksp Aws.providerName "awskms://h/alias/k" ""). vm_compute. reflexivity. Qed.

Definition toy_key : Aws.cmk (CL:=toy_crypto) := Aws.mkCMK (Some [EcdsaSha256]) (KECDSAPublic "k").
Definition toy_signed := Aws.Sign (CL:=toy_crypto) (AA:=toy_aws) 5 (Ok "m") toy_aws_signer.

Lemma Aws_sign_then_verify_witness :
  toy_signed = (toy_signed.1, Ok "k:h5m") ∧
  (Aws.Verify (CL:=toy_crypto) (AA:=toy_aws) 400 initial_store (Ok "m") "k:h5m" toy_signed.1).2 = Ok tt.
Proof.
  assert (toy_signed = (toy_signed.1, Ok "k:h5m")) as Hs by (vm_compute; reflexivity).
  assert (∀ t, Aws.fetchCMK (CL:=toy_crypto) (AA:=toy_aws) t (Aws.sv_client toy_aws_signer) = Ok toy_key) as Hk by reflexivity.
  split; [exact Hs|].
  exact (Aws_sign_then_verify (CL:=toy_crypto) (HF:=toy_no_files) (AA:=toy_aws) (SL:=toy_laws) toy_aws_signs initial_store 5 400
    toy_aws_signer toy_signed.1 toy_key "m" "k:h5m" (reach_load _ _ 5%Z _ toy_aws_loaded) ltac:(lia) Hk eq_refl Hs).
Defined.

#[local] Instance toy_gcp : GcpApi := {|
  NewKeyManagementClient _ := nil_error; GetCryptoKey _ _ _ := Ok true; GetCryptoKeyVersion _ _ _ := Err (External "");
  ListCryptoKeyVersions_Next _ _ _ _ _ := Err (External ""); gcp_GetPublicKey _ _ _ := Err (External "");
  AsymmetricSign _ _ _ := Err (External "") |}.
#[local] Instance toy_azure : AzureApi (CL:=toy_crypto) := {|
  NewDefaultAzureCredential := nil_error; azkeys_NewClient _ := nil_error; GetKey _ _ _ _ := Err (External "");
  azure_Sign _ _ _ _ _ _ := Ok None; azure_Verify _ _ _ _ _ _ _ := Ok None; rsa_of _ _ := ""; ecdsa_of _ _ _ := "";
  ecdsa_Curve _ := P256; algorithm_string _ := ""; curve_string _ := ""; kty_string _ := "" |}.
Definition toy_got := Aws.getCMK (CL:=toy_crypto) (AA:=toy_aws) 7 (Aws.sv_client toy_aws_signer).

Lemma key_caches_fresh_witness : toy_got = (toy_got.1, Ok toy_key) ∧
  ∃ t, (t ≤ 7 ≤ t + 300)%Z ∧ Aws.fetchCMK (CL:=toy_crypto) (AA:=toy_aws) t (Aws.sv_client toy_aws_signer) = Ok toy_key.
Proof.
  assert (toy_got = (toy_got.1, Ok toy_key)) as Hk by reflexivity.
  split; [exact Hk|].
  exact (proj1 (key_caches_fresh (CL:=toy_crypto) (HF:=toy_no_files) (AA:=toy_aws) (GA:=toy_gcp) (AZ:=toy_azure) 7%Z)
    toy_aws_signer toy_got.1 toy_key (reach_load _ _ 7%Z _ toy_aws_loaded) Hk).
Defined.

(** A vault with a token in the environment. *)
#[local] Instance toy_vault : VaultApi := {|
  Secret := string; secret_token s := s; vault_NewClient a := nil_error;
  WriteWithContext t c p b := Ok (Some []); ReadWithContext t c p := Ok None;
  NewKubernetesAuth a b c := nil_error; Auth_Login t c a b d := Ok "s"; NewLifetimeWatcher s := None |}.
Definition toy_vault_store : client_store := (SetDefaultVals (SPKms (toy_ksp Hashivault.providerName "" ""), initial_store) Hashivault.Init).1.2.

Definition toy_first := Hashivault.LoadSignerVerifier (HF:=toy_no_files) 0 (toy_ksp Hashivault.providerName "hashivault://a" "3") toy_vault_store.

Lemma hashivault_version_stays_witness : ∃ st1 s1 st2 s2,
  toy_first = (st1, Ok s1) ∧
  Hashivault.LoadSignerVerifier 0 (toy_ksp Hashivault.providerName "hashivault://b" "") st1 = (st2, Ok s2) ∧
  Hashivault.c_keyVersion (Hashivault.sv_client s2) = 3%Z.
Proof.
  eassert (toy_first = (toy_first.1, Ok _)) as H1
    by (vm_compute; reflexivity).
  eassert (Hashivault.LoadSignerVerifier 0 (toy_ksp Hashivault.providerName "hashivault://b" "") toy_first.1 = (_, Ok _)) as H2
    by (vm_compute; reflexivity).
  do 4 eexists. split; [exact H1|]. split; [exact H2|].
  exact (hashivault_version_stays 0 (toy_ksp Hashivault.providerName "hashivault://a" "3") (toy_ksp Hashivault.providerName "hashivault://b" "")
    toy_vault_store _ _ 3%Z _ _ H1 eq_refl eq_refl H2).
Defined.
