(* ===== verification/Policy.v ===== *)
(** policy: policies and their verification (policy.go). *)
From S2P Require Import Prelude GoStrings Errors Crypto Keys Digest Timestamp Dsse Intoto Registry Attestation Source VerifiedSource Constraints PolicyStep KMS.
From stdpp Require Import options.

Definition PolicyPredicate : string := "https://witness.testifysec.com/policy/v0.1".

Record Root := mkRoot { root_Certificate : bytes; root_Intermediates : list bytes }.
Record PolicyPublicKey := mkPolicyPublicKey { pk_KeyID : string; pk_Key : bytes }.
Record Policy := mkPolicy {
  Expires : Time;
  Roots : gmap string Root;
  TimestampAuthorities : gmap string Root;
  PublicKeys : gmap string PolicyPublicKey;
  Steps : gmap string Step;
}.

(** * Keys and trust bundles *)

Section keys.
Context `{CL : CryptoLib} `{RO : RangeOrder}.

(** The KMS options of the caller: setters by provider name. A setter gets the
    provider; nil and a nil error are [None]. *)
Definition KMSSetters := gmap string (list (SignerProvider → option SignerProvider * option error)).

(** The loops over the provider's options and their setters: the provider, which
    the setters mutate, and the last result [vp]. *)
Definition apply_setter (st : KMSSignerProvider * option SignerProvider)
    (setter : SignerProvider → option SignerProvider * option error)
    : KMSSignerProvider * option SignerProvider :=
  let vp := (setter (SPKms st.1)).1 in
  (match vp with Some (SPKms ksp) => ksp | _ => st.1 end, vp).
Definition apply_setters (ko : KMSSetters) (ksp : KMSSignerProvider)
    : KMSSignerProvider * option SignerProvider :=
  foldl apply_setter (ksp, None)
    ((range_map 0 (ksp_Options ksp)).*2 ≫= λ pn, default [] (ko !! pn)).

(** The verifier for a key whose id begins with one provider's prefix. *)
Definition kms_verifier (st : kms_state) (ko : KMSSetters) (key : PolicyPublicKey) : res Verifier :=
  let '(ksp, vp) := apply_setters ko (kms_New st [WithRef (pk_KeyID key); WithHash "SHA256"]) in
  match vp with
  | Some (SPOther _) => Err (Errorf "provided verifier provider is not a KMS verifier provider")
  | _ => wrap "failed to create kms verifier" (KMS_Verifier st ksp)
  end.

(** The verifier of one public key of the policy. *)
Definition key_verifier (st : kms_state) (ko : KMSSetters) (key : PolicyPublicKey) : res Verifier :=
  verifier ← range_res (λ verifier prefix,
               if HasPrefix (pk_KeyID key) prefix then Some <$> kms_verifier st ko key else Ok verifier)
             None (SupportedProviders st);
  match verifier with
  | Some v => Ok v
  | None => NewVerifierFromReader (Ok (pk_Key key)) []
  end.

Definition add_public_key (st : kms_state) (ko : KMSSetters) (verifiers : gmap string Verifier)
    (kv : string * PolicyPublicKey) : res (gmap string Verifier) :=
  verifier ← key_verifier st ko kv.2;
  keyID ← Verifier_KeyID verifier;
  if bool_decide (keyID ≠ pk_KeyID kv.2) then Err (ErrKeyIDMismatch (pk_KeyID kv.2) keyID)
  else Ok (<[keyID:=verifier]> verifiers).

Definition PublicKeyVerifiers (st : kms_state) (p : Policy) (ko : KMSSetters) : res (gmap string Verifier) :=
  range_res (add_public_key st ko) ∅ (range_map 0 (PublicKeys p)).

Definition trust_bundle (root : Root) : res TrustBundle :=
  cert ← TryParseCertificate (root_Certificate root);
  ints ← collect (λ intBytes, c ← TryParseCertificate intBytes; Ok [c]) (root_Intermediates root);
  Ok (mkTrustBundle _ cert ints).

Definition trustBundlesFromRoots (roots : gmap string Root) : res (gmap string TrustBundle) :=
  range_res (λ bundles kv, bundle ← trust_bundle kv.2; Ok (<[kv.1:=bundle]> bundles)) ∅ (range_map 0 roots).

Definition TrustBundles (p : Policy) : res (gmap string TrustBundle) := trustBundlesFromRoots (Roots p).
Definition TimestampAuthorityTrustBundles (p : Policy) : res (gmap string TrustBundle) :=
  trustBundlesFromRoots (TimestampAuthorities p).
End keys.

(** * Verification *)

Section verify.
Context `{CL : CryptoLib} `{TL : !TspLib} `{GL : GlobLib} `{FL : FulcioLib} `{RO : RangeOrder}.
Context {A : Type} `{AO : AttestorOps A} `{RL : RegoLib} {S : Type} `{VS : !VerifiedSourcer A S}.

Abbreviation CVR := (CollectionVerificationResult A) (only parsing).
Abbreviation Results := (gmap string (StepResult A)) (only parsing).

Record verifyOptions := mkVerifyOptions {
  verifiedSource : option S;
  subjectDigests : list string;
  searchDepth : Z;
}.
Definition VerifyOption := verifyOptions → verifyOptions.
Definition WithVerifiedSource (s : option S) : VerifyOption := λ vo,
  mkVerifyOptions s (subjectDigests vo) (searchDepth vo).
Definition WithSubjectDigests (ds : list string) : VerifyOption := λ vo,
  mkVerifyOptions (verifiedSource vo) ds (searchDepth vo).
Definition WithSearchDepth (depth : Z) : VerifyOption := λ vo,
  mkVerifyOptions (verifiedSource vo) (subjectDigests vo) depth.

(** The source, when the options are acceptable. *)
Definition checkVerifyOpts (vo : verifyOptions) : res S :=
  match verifiedSource vo with
  | None => Err (ErrInvalidOption "verified source" "a verified attestation source is required")
  | Some s =>
      if bool_decide (length (subjectDigests vo) = 0) then
        Err (ErrInvalidOption "subject digests" "at least one subject digest is required")
      else if bool_decide (searchDepth vo < 1)%Z then
        Err (ErrInvalidOption "search depth" "search depth must be at least 1")
      else Ok s
  end.

(** ** verifyArtifacts *)

(** The first mismatch between materials and artifacts of the same path. *)
Definition compareArtifacts (mats arts : gmap string DigestSet) : option error :=
  foldr (λ kv rest,
    match arts !! kv.1 with
    | None => rest
    | Some art => if DigestSet_Equal kv.2 art then rest else Some (ErrMismatchArtifact kv.1)
    end) None (range_map 0 mats).

(** The loop over the collections of the step artifacts come from; it ends at
    the first mismatch. *)
Fixpoint test_collections (mats : gmap string DigestSet) (tests accepted : list CVR) (reasons : list string)
    : list CVR * list string :=
  match tests with
  | [] => (accepted, reasons)
  | testCollection :: tests =>
      match compareArtifacts mats (Collection_Artifacts (ce_Collection (cvr_Envelope testCollection))) with
      | Some e => (accepted, reasons ++ [fmt_err e])
      | None => test_collections mats tests (accepted ++ [testCollection]) reasons
      end
  end.

Definition step_passed (results : Results) (name : string) : list CVR :=
  match results !! name with Some r => sr_Passed r | None => [] end.

Definition check_artifacts_from (mats : gmap string DigestSet) (collectionsByStep : Results)
    (reasons : list string) (artifactsFrom : string) : res (list string) :=
  let '(accepted, reasons) := test_collections mats (step_passed collectionsByStep artifactsFrom) [] reasons in
  if bool_decide (length accepted ≤ 0) then Err (ErrVerifyArtifactsFailed reasons) else Ok reasons.

(** The warnings the source appends go to its copy of the collection. *)
Definition verifyCollectionArtifacts (step : Step) (collection : CVR) (collectionsByStep : Results) : err :=
  let mats := Collection_Materials (ce_Collection (cvr_Envelope collection)) in
  range_res (check_artifacts_from mats collectionsByStep) [] (step_ArtifactsFrom step);;
  nil_error.

(** The zero collection of a rejection that is about the whole step. *)
Definition zero_CVR : CVR :=
  mkCVR [] [] (mkCollectionEnvelope (mkEnvelope "" "" []) (mkStatement "" [] "" "") (mkCollection "" []) "") [] [].

(** The errors of the collections that fail, and whether one does not. *)
Definition artifact_reasons (step : Step) (results : Results) (passed : list CVR) : res (bool * list error) :=
  range_res (λ acc collection,
    match verifyCollectionArtifacts step collection results with
    | Ok _ => Ok (true, acc.2)
    | Err e => Ok (acc.1, acc.2 ++ [e])
    | Panic w => Panic w
    end) (false, []) passed.

Definition verify_step_artifacts (results : Results) (kv : string * Step) : res Results :=
  let step := kv.2 in
  let name := step_Name step in
  match results !! name with
  | None => Err (Errorf ("failed to find step " +:+ name +:+ " in step results map"))
  | Some result =>
      if bool_decide (length (sr_Passed result) = 0) then
        Ok (<[name:=mkStepResult (sr_Step result) (sr_Passed result)
               (sr_Rejected result ++ [mkRejected zero_CVR
                 (Errorf ("failed to verify artifacts for step " +:+ name +:+
                          ": no passed collections present"))])]> results)
      else
        ar ← artifact_reasons step results (sr_Passed result);
        match ar with
        | (true, _) => Ok results
        | (false, reasons) =>
            let reason := foldl (λ acc r, Joined [acc; r])
              (Errorf ("failed to verify artifacts for step " +:+ name +:+ ": ")) reasons in
            Ok (<[name:=mkStepResult (sr_Step result) []
                   (sr_Rejected result ++ [mkRejected zero_CVR reason])]> results)
        end
  end.

Definition verifyArtifacts (p : Policy) (resultsByStep : Results) : res Results :=
  range_res verify_step_artifacts resultsByStep (range_map 0 (Steps p)).

(** ** Verify *)

Definition attestationsByStep (p : Policy) : gmap string (list string) :=
  foldl (λ m kv, match step_Attestations kv.2 with
                 | [] => m
                 | atts => <[kv.1:=pa_Type <$> atts]> m
                 end) ∅ (range_map 1 (Steps p)).

(** What the loop over depths and steps changes besides the source. *)
Record verify_acc := mkVerifyAcc { va_digests : list string; va_results : Results }.

(** The digests of the back references of the collections that passed. *)
Definition backref_digests (passed : list CVR) : list string :=
  passed ≫= λ coll, (range_map 0 (Collection_BackRefs (ce_Collection (cvr_Envelope coll)))).*2 ≫=
    λ digestSet, (range_map 0 digestSet).*2.

(** The results of a step are merged with those of earlier depths, unless these
    are absent or have no step name. *)
Definition merge_result (results : Results) (stepName : string) (stepResult : StepResult A) : Results :=
  match results !! stepName with
  | Some result =>
      if bool_decide (sr_Step result = "") then <[stepName:=stepResult]> results
      else <[stepName:=mkStepResult (sr_Step result) (sr_Passed result ++ sr_Passed stepResult)
                         (sr_Rejected result ++ sr_Rejected stepResult)]> results
  | None => <[stepName:=stepResult]> results
  end.

Definition no_collections (stepName : string) : CVR :=
  mkCVR [] [] (cvr_Envelope zero_CVR) [ErrNoCollections stepName] [].

(** The loop body after the search. *)
Definition evaluate_step (trustBundles : gmap string TrustBundle) (stepName : string) (step : Step)
    (acc : verify_acc) (collections : list CVR) : res verify_acc :=
  let collections := match collections with [] => [no_collections stepName] | _ => collections end in
  functionaryCheckResults ← checkFunctionaries step collections trustBundles;
  validated ← validateAttestations step (sr_Passed functionaryCheckResults);
  let stepResult := mkStepResult (sr_Step validated) (sr_Passed validated)
                      (sr_Rejected validated ++ sr_Rejected functionaryCheckResults) in
  Ok (mkVerifyAcc (va_digests acc ++ backref_digests (sr_Passed stepResult))
        (merge_result (va_results acc) stepName stepResult)).

Definition verify_step (p : Policy) (trustBundles : gmap string TrustBundle) (kv : string * Step)
    (s : S) (acc : verify_acc) : S * res verify_acc :=
  let '(s, found) := VerifiedSearch s kv.1 (va_digests acc) (default [] (attestationsByStep p !! kv.1)) in
  (s, collections ← found; evaluate_step trustBundles kv.1 kv.2 acc collections).

(** The two loops. Go may pick another order of the steps at every depth. *)
Fixpoint verify_steps (p : Policy) (trustBundles : gmap string TrustBundle) (steps : list (string * Step))
    (s : S) (acc : verify_acc) : S * res verify_acc :=
  match steps with
  | [] => (s, Ok acc)
  | kv :: steps =>
      match verify_step p trustBundles kv s acc with
      | (s, Ok acc) => verify_steps p trustBundles steps s acc
      | r => r
      end
  end.
Definition search_order (p : Policy) (depth : nat) : list (string * Step) :=
  seq 0 depth ≫= λ d, range_map (2 + d) (Steps p).

Definition all_pass (results : Results) : bool :=
  foldl (λ pass kv, if Analyze kv.2 then pass else false) true (range_map 0 results).

(** [Policy.Verify]: the source after the call, and the result. [now] is the
    reading of the clock for the expiry. *)
Definition Policy_Verify (p : Policy) (now : Z) (opts : list VerifyOption) : option S * res (bool * Results) :=
  let vo := foldl (λ vo opt, opt vo) (mkVerifyOptions None [] 3) opts in
  match checkVerifyOpts vo with
  | Err e => (verifiedSource vo, Err e)
  | Panic w => (verifiedSource vo, Panic w)
  | Ok s =>
      if bool_decide (unix_nano (Expires p) < now)%Z then (Some s, Err (ErrPolicyExpired (Expires p)))
      else
        match TrustBundles p with
        | Err e => (Some s, Err e)
        | Panic w => (Some s, Panic w)
        | Ok trustBundles =>
            let '(s, acc) := verify_steps p trustBundles (search_order p (Z.to_nat (searchDepth vo))) s
                               (mkVerifyAcc (subjectDigests vo) ∅) in
            (Some s,
             acc ← acc;
             results ← wrap "failed to verify artifacts" (verifyArtifacts p (va_results acc));
             Ok (all_pass results, results))
        end
  end.
End verify.
Arguments verifyOptions : clear implicits.
