(* ===== verification/PolicySound.v ===== *)
(** What an accepted policy verification means: the lemmas on the loops of
    Policy.v, against an interface of the verified source, and the instance of
    that interface for the source of verified.go. *)
From S2P Require Import Prelude GoStrings Errors Crypto Keys Digest Timestamp Dsse Intoto Registry Attestation Source VerifiedSource Constraints PolicyStep KMS Policy.

(** The contract between a verified source and the policy engine: what every
    result promises, under an invariant of the source's state. A source leaves
    the valid functionaries to the engine. *)
Class VerifiedSourceLaws `{CL : CryptoLib} (A S : Type) `{VS : !VerifiedSourcer A S}
    (source_inv : S → Prop) (promise : CollectionVerificationResult A → Prop) := {
  source_inv_step s name sds atts s' r :
    source_inv s → VerifiedSearch s name sds atts = (s', r) → source_inv s';
  source_promise s name sds atts s' rs :
    source_inv s → VerifiedSearch s name sds atts = (s', Ok rs) →
    Forall (λ r, promise r ∧ cvr_ValidFunctionaries r = []) rs;
}.

(** The source of verified.go keeps the contract: its results are justified by
    signatures on their envelopes, under the options it was made with. *)
#[export] Instance VerifiedSource_laws `{CL : CryptoLib} `{TL : !TspLib} {A S : Type} `{SS : !Sourcer A S}
    (opts : list VerificationOption) :
  VerifiedSourceLaws A (VerifiedSource S) (λ s, vs_verifyOpts s = opts) (result_justified opts).
Proof.
  split.
  - intros s name sds atts s' r <-. unfold VerifiedSearch, verified_VerifiedSourcer, VerifiedSource_Search.
    destruct (Search _ _ _ _) as [src [envs| |]]; by intros [= <- _].
  - intros s name sds atts s' rs <- H. apply VerifiedSource_Search_inv in H as (envs & _ & _ & HF).
    eapply Forall_impl; [exact HF|]. intros r Hr. split; [done|]. by destruct Hr as (now & _ & _ & ? & _).
Qed.

Section sound.
Context `{CL : CryptoLib} `{TL : !TspLib} `{GL : GlobLib} `{FL : FulcioLib} `{RO : RangeOrder}.
Context {A : Type} `{AO : AttestorOps A} `{RL : RegoLib} {S : Type} `{VS : !VerifiedSourcer A S}.
Context (source_inv : S → Prop) (promise : CollectionVerificationResult A → Prop).
Context `{SL : !VerifiedSourceLaws A S source_inv promise}.

Abbreviation CVR := (CollectionVerificationResult A) (only parsing).
Abbreviation Results := (gmap string (StepResult A)) (only parsing).

Implicit Types results : Results.

(** The evidence behind a collection that passed for a step: a result of the
    source that keeps its promise, with a verifier that one of the step's
    functionaries accepts, and with the name and the attestations the step
    expects. *)
Definition evidence (p : Policy) (bundles : gmap string TrustBundle) (stepName : string) (c : CVR) : Prop :=
  ∃ step found, Steps p !! stepName = Some step ∧ promise found ∧ same_evidence c found ∧
    has_functionary step bundles found ∧ collection_accepted step c.

(** ** One step *)

Lemma evaluate_step_passed bundles stepName step acc collections acc' :
  Forall (λ r, cvr_ValidFunctionaries r = []) collections →
  evaluate_step bundles stepName step acc collections = Ok acc' →
  ∃ r, va_results acc' = merge_result (va_results acc) stepName r ∧
    va_digests acc' = va_digests acc ++ backref_digests (sr_Passed r) ∧ sr_Step r = step_Name step ∧
    ∀ c, c ∈ sr_Passed r → ∃ found, found ∈ collections ∧ same_evidence c found ∧
      has_functionary step bundles found ∧ collection_accepted step c.
Proof.
  intros Hvf. unfold evaluate_step. cbv zeta.
  intros (fcr & Hf & (v & Hv & H)%res_bind_ok)%res_bind_ok. simplify_eq.
  eexists. do 2 (split; [done|]). split; [exact (validateAttestations_Step _ _ _ Hv)|]. cbn [sr_Passed].
  intros c Hc. apply (validateAttestations_passed _ _ _ _ Hv) in Hc as [Hc Hacc].
  apply (checkFunctionaries_passed _ _ _ _ _) with (2 := Hf) in Hc as (found & Hin & Hse & Hfn);
    [|by destruct collections; [constructor|]].
  destruct collections as [|c0 cs]; [|by exists found].
  apply list_elem_of_singleton in Hin as ->. destruct Hfn as (w & f & Hw%not_elem_of_nil & _). done.
Qed.

Definition acc_inv (p : Policy) (bundles : gmap string TrustBundle) (acc : verify_acc) : Prop :=
  ∀ name r c, va_results acc !! name = Some r → c ∈ sr_Passed r → evidence p bundles name c.

Lemma merge_result_passed results name (r : StepResult A) name' r' c :
  merge_result results name r !! name' = Some r' → c ∈ sr_Passed r' →
  (name' = name ∧ c ∈ sr_Passed r) ∨ ∃ r0, results !! name' = Some r0 ∧ c ∈ sr_Passed r0.
Proof.
  unfold merge_result. destruct (results !! name) as [r0|] eqn:Hr0; [case_bool_decide|].
  all: intros [[<- <-]|[? ?]]%lookup_insert_Some Hc; [|right; by exists r'].
  - by left.
  - cbn [sr_Passed] in Hc. apply elem_of_app in Hc as [Hc|Hc]; [right; by exists r0|by left].
  - by left.
Qed.

Lemma merge_result_dom results name (r : StepResult A) name' :
  is_Some (merge_result results name r !! name') ↔ name' = name ∨ is_Some (results !! name').
Proof.
  unfold merge_result. destruct (results !! name) as [r0|] eqn:Hr0; [case_bool_decide|];
    rw lookup_insert_is_Some; destruct (decide (name = name')); naive_solver.
Qed.

Lemma verify_step_inv p bundles kv s acc s' acc' :
  Steps p !! kv.1 = Some kv.2 → source_inv s → acc_inv p bundles acc →
  verify_step p bundles kv s acc = (s', Ok acc') →
  source_inv s' ∧ acc_inv p bundles acc' ∧
  ∀ name, is_Some (va_results acc' !! name) ↔ name = kv.1 ∨ is_Some (va_results acc !! name).
Proof.
  intros Hstep Hinv HI. unfold verify_step. destruct (VerifiedSearch _ _ _ _) as [s1 found] eqn:Hs.
  intros [= <- H]. apply res_bind_ok in H as (collections & -> & H).
  pose proof (source_promise _ _ _ _ _ _ Hinv Hs) as Hp. split; [by eapply source_inv_step|].
  apply evaluate_step_passed in H as (r & Hr & _ & _ & Hpass).
  2:{ eapply Forall_impl; [exact Hp|]. by intros ? [_ ?]. }
  split.
  - intros name r' c Hl Hc. rw Hr in Hl.
    destruct (merge_result_passed _ _ _ _ _ _ Hl Hc) as [[-> Hin]|(r0 & ? & ?)]; [|by eapply HI].
    destruct (Hpass _ Hin) as (f & Hf & ? & ? & ?). exists kv.2, f. rw Forall_forall in Hp.
    by destruct (Hp _ Hf) as [? _].
  - intros name. rw Hr. apply merge_result_dom.
Qed.

Lemma verify_steps_inv p bundles steps s acc s' acc' :
  (∀ kv, kv ∈ steps → Steps p !! kv.1 = Some kv.2) → source_inv s → acc_inv p bundles acc →
  verify_steps p bundles steps s acc = (s', Ok acc') →
  source_inv s' ∧ acc_inv p bundles acc' ∧
  ∀ name, is_Some (va_results acc' !! name) ↔ name ∈ steps.*1 ∨ is_Some (va_results acc !! name).
Proof.
  revert s acc; induction steps as [|kv steps IH]; intros s acc Hsteps Hinv HI; cbn [verify_steps].
  { intros [= <- <-]. split; [done|]. split; [done|]. intros name. split; [by right|].
    intros [?%not_elem_of_nil|]; done. }
  destruct (verify_step p bundles kv s acc) as [s1 [acc1| |]] eqn:Hv; [|done..].
  apply verify_step_inv in Hv as (Hinv1 & HI1 & Hd1); [|apply Hsteps; left|done..].
  intros (? & ? & Hd)%IH; [|by intros; apply Hsteps; right|done..]. split; [done|]. split; [done|].
  intros name. rw Hd Hd1 fmap_cons elem_of_cons. tauto.
Qed.

(** ** Artifacts *)

(** The materials of a collection against the artifacts of another. *)
Definition artifacts_agree (mats arts : gmap string DigestSet) : Prop :=
  ∀ path mat art, mats !! path = Some mat → arts !! path = Some art → digests_agree mat art.

Lemma compareArtifacts_None mats arts : compareArtifacts mats arts = None ↔ artifacts_agree mats arts.
Proof.
  unfold artifacts_agree. setoid_rewrite <-(elem_of_range 0 mats). unfold compareArtifacts.
  induction (range_map 0 mats) as [|[path mat] l IH]; cbn [foldr fst snd].
  { split; [|done]. by intros _ ? ? ? ?%not_elem_of_nil. }
  destruct (arts !! path) as [art|] eqn:Ha; [destruct (DigestSet_Equal mat art) eqn:He|].
  - apply DigestSet_Equal_spec in He. rw IH. split.
    + intros H path' mat' art' [[= <- <-]|?]%elem_of_cons Hl; [by simplify_eq|by eapply H].
    + intros H path' mat' art' Hin. apply H. by right.
  - split; [done|]. intros H. exfalso. apply not_true_iff_false in He. apply He.
    apply DigestSet_Equal_spec. apply (H path mat art); [left|done].
  - rw IH. split.
    + intros H path' mat' art' [[= <- <-]|?]%elem_of_cons Hl; [congruence|by eapply H].
    + intros H path' mat' art' Hin. apply H. by right.
Qed.

Lemma test_collections_accepted mats tests acc reasons :
  length (test_collections mats tests acc reasons).1 = 0 →
  length acc = 0.
Proof.
  revert acc reasons; induction tests as [|t ts IH]; intros acc reasons; cbn [test_collections]; [done|].
  destruct (compareArtifacts _ _); [done|]. intros H%IH. rw length_app /= in H. lia.
Qed.

(** The artifacts of a step's first passed collection agree with the materials:
    the loop over the collections ends at the first mismatch, so the others do not
    matter. *)
Definition first_agrees (mats : gmap string DigestSet) (passed : list CVR) : Prop :=
  ∃ c rest, passed = c :: rest ∧
    artifacts_agree mats (Collection_Artifacts (ce_Collection (cvr_Envelope c))).

Lemma check_artifacts_from_ok mats results reasons from reasons' :
  check_artifacts_from mats results reasons from = Ok reasons' →
  first_agrees mats (step_passed results from).
Proof.
  unfold check_artifacts_from, first_agrees. destruct (step_passed results from) as [|c rest]; cbn [test_collections].
  { by case_bool_decide; [|simpl in *; lia]. }
  destruct (compareArtifacts _ _) eqn:Hc; [by case_bool_decide; [|simpl in *; lia]|].
  intros _. exists c, rest. split; [done|]. by apply compareArtifacts_None.
Qed.

Lemma check_artifacts_from_complete mats results reasons from :
  first_agrees mats (step_passed results from) →
  ∃ reasons', check_artifacts_from mats results reasons from = Ok reasons'.
Proof.
  intros (c & rest & Hp & Hc%compareArtifacts_None). unfold check_artifacts_from. rw Hp. cbn [test_collections].
  rw Hc. destruct (test_collections _ _ _ _) as [accepted rs] eqn:Ht.
  rw bool_decide_eq_false_2; [by eexists|]. intros Hl.
  pose proof (test_collections_accepted mats rest [c] reasons) as Hacc. simpl in Ht. rw Ht /= in Hacc. lia.
Qed.

Lemma verifyCollectionArtifacts_ok step c results :
  verifyCollectionArtifacts step c results = nil_error ↔
  ∀ from, from ∈ step_ArtifactsFrom step →
    first_agrees (Collection_Materials (ce_Collection (cvr_Envelope c))) (step_passed results from).
Proof.
  unfold verifyCollectionArtifacts. set (mats := Collection_Materials _).
  transitivity (∃ rs, range_res (check_artifacts_from mats results) [] (step_ArtifactsFrom step) = Ok rs).
  { split; [intros (rs & ? & _)%res_bind_ok; by exists rs|]. by intros [rs ->]. }
  generalize (@nil string) at 1. induction (step_ArtifactsFrom step) as [|from froms IH]; intros rs; cbn [range_res].
  { split; [by intros _ ? ?%not_elem_of_nil|]. intros _. by exists rs. }
  split.
  - intros (rs' & (rs1 & H1 & H2)%res_bind_ok) from' [->|Hin]%elem_of_cons; [by eapply check_artifacts_from_ok|].
    apply (proj1 (IH rs1)); [by exists rs'|done].
  - intros H. destruct (check_artifacts_from_complete mats results rs from) as [rs1 ->]; [apply H; left|].
    cbn [mbind res_bind]. apply IH. intros. apply H. by right.
Qed.

Lemma verifyCollectionArtifacts_passed step c results results' :
  (∀ name, step_passed results name = step_passed results' name) →
  verifyCollectionArtifacts step c results = nil_error → verifyCollectionArtifacts step c results' = nil_error.
Proof.
  rw !verifyCollectionArtifacts_ok. intros Heq H from Hin. rw -Heq. by apply H.
Qed.

Lemma artifact_reasons_true step results passed rs :
  artifact_reasons step results passed = Ok (true, rs) →
  ∃ c, c ∈ passed ∧ verifyCollectionArtifacts step c results = nil_error.
Proof.
  unfold artifact_reasons. intros Hr.
  set (Inv := λ (acc : bool * list error), acc.1 = true →
    ∃ c, c ∈ passed ∧ verifyCollectionArtifacts step c results = nil_error).
  cut (Inv (true, rs)); [intros H; by apply H|]. revert Hr. apply (range_res_inv _ Inv); [|done].
  intros acc c acc' Hin HI. destruct (verifyCollectionArtifacts step c results) as [[]| |] eqn:Hv; [..|done];
    intros [= <-]; [by exists c|done].
Qed.

(** A loop that leaves every step with passed collections changed none of them,
    and found for every step a passed collection whose artifacts verify. *)
Lemma verifyArtifacts_all_passed l results results' :
  range_res verify_step_artifacts results l = Ok results' →
  (∀ name r, results' !! name = Some r → sr_Passed r ≠ []) →
  results = results' ∧
  ∀ kv, kv ∈ l → ∃ c, c ∈ step_passed results' (step_Name kv.2) ∧
    verifyCollectionArtifacts kv.2 c results' = nil_error.
Proof.
  revert results; induction l as [|kv l IH]; intros results; cbn [range_res].
  { intros [= <-] _. split; [done|]. by intros ? ?%not_elem_of_nil. }
  intros (results1 & H1 & H2)%res_bind_ok Hne. destruct (IH _ H2 Hne) as [-> Hl]. clear H2 IH.
  unfold verify_step_artifacts in H1. cbv zeta in H1.
  destruct (results !! step_Name kv.2) as [r|] eqn:Hr; [|done].
  case_bool_decide as Hlen.
  { simplify_eq. exfalso. eapply (Hne (step_Name kv.2)); [by rw lookup_insert_eq|]. cbn [sr_Passed].
    by apply nil_length_inv. }
  apply res_bind_ok in H1 as ([[|] rs] & Har & H1); simplify_eq.
  - split; [done|]. intros kv' [->|?]%elem_of_cons; [|by apply Hl].
    unfold step_passed. rw Hr. by eapply artifact_reasons_true.
  - exfalso. by eapply (Hne (step_Name kv.2)); [by rw lookup_insert_eq|].
Qed.

Lemma all_pass_true (results : Results) :
  all_pass results = true ↔ ∀ name r, results !! name = Some r → Analyze r = true.
Proof.
  unfold all_pass. setoid_rewrite <-(elem_of_range 0 results).
  assert (Hg : ∀ l b, foldl (λ pass (kv : string * StepResult A), if Analyze kv.2 then pass else false) b l = true
    ↔ b = true ∧ ∀ name r, (name, r) ∈ l → Analyze r = true).
  { induction l as [|[name r] l IH]; intros b; cbn [foldl snd].
    - split; [|by intros [? _]]. intros ->. split; [done|]. by intros ? ? ?%not_elem_of_nil.
    - rw IH. destruct (Analyze r) eqn:Hr; split; intros [Hb Hall]; try done.
      + split; [done|]. intros n r' [[= <- <-]|?]%elem_of_cons; [done|by eapply Hall].
      + split; [done|]. intros n r' Hin. eapply Hall. by right.
      + exfalso. specialize (Hall name r ltac:(left)). congruence. }
  rw Hg. naive_solver.
Qed.

(** ** The whole verification *)

Lemma elem_of_search_order p depth kv :
  (1 ≤ depth → Steps p !! kv.1 = Some kv.2 → kv ∈ search_order p depth) ∧
  (kv ∈ search_order p depth → Steps p !! kv.1 = Some kv.2).
Proof.
  destruct kv as [n st]. cbn [fst snd]. unfold search_order. rw list_elem_of_bind. split.
  - intros Hd Hs. exists 0. split; [by apply elem_of_range|]. apply elem_of_seq. lia.
  - intros (d & Hin & _). by apply (elem_of_range (2 + d)).
Qed.

Definition policy_options (opts : list VerifyOption) : verifyOptions S :=
  foldl (λ vo opt, opt vo) (mkVerifyOptions None [] 3) opts.

(** The stages of a verification that returns a result. *)
Lemma Policy_Verify_inv p now opts s' b results :
  Policy_Verify p now opts = (s', Ok (b, results)) →
  ∃ s bundles s1 acc, let vo := policy_options opts in
    checkVerifyOpts vo = Ok s ∧ (now ≤ unix_nano (Expires p))%Z ∧ TrustBundles p = Ok bundles ∧
    verify_steps p bundles (search_order p (Z.to_nat (searchDepth vo))) s
      (mkVerifyAcc (subjectDigests vo) ∅) = (s1, Ok acc) ∧
    verifyArtifacts p (va_results acc) = Ok results ∧ b = all_pass results.
Proof.
  unfold Policy_Verify. fold (policy_options opts). cbv zeta.
  destruct (checkVerifyOpts (policy_options opts)) as [s| |] eqn:Ho; [|done..].
  case_bool_decide as Hexp; [done|]. destruct (TrustBundles p) as [bundles| |] eqn:Hb; [|done..].
  destruct (verify_steps _ _ _ _ _) as [s1 [acc| |]] eqn:Hv; [|done..].
  intros [= <- H]. cbn [mbind res_bind] in H. apply res_bind_ok in H as (rs & Hrs%wrap_ok & H).
  simplify_eq. exists s, bundles, s1, acc. repeat split; try done. lia.
Qed.

Lemma checkVerifyOpts_ok (vo : verifyOptions S) s :
  checkVerifyOpts vo = Ok s →
  verifiedSource vo = Some s ∧ subjectDigests vo ≠ [] ∧ (1 ≤ searchDepth vo)%Z.
Proof.
  unfold checkVerifyOpts. destruct (verifiedSource vo); [|done].
  case_bool_decide as Hl; [done|]. case_bool_decide as Hd; [done|]. intros [= ->].
  split; [done|]. split; [|lia]. by intros Hn; rw Hn in Hl.
Qed.

(** Everything an accepted policy stands for. *)
Definition policy_satisfied (p : Policy) (bundles : gmap string TrustBundle) (results : Results) : Prop :=
  ∀ stepName step, Steps p !! stepName = Some step →
    ∃ r, results !! stepName = Some r ∧ sr_Passed r ≠ [] ∧
      (∀ c, c ∈ sr_Passed r → evidence p bundles stepName c) ∧
      ∃ c, c ∈ step_passed results (step_Name step) ∧
        ∀ from, from ∈ step_ArtifactsFrom step →
          first_agrees (Collection_Materials (ce_Collection (cvr_Envelope c))) (step_passed results from).

Lemma Policy_Verify_satisfied p now opts s' results :
  (∀ s, verifiedSource (policy_options opts) = Some s → source_inv s) →
  Policy_Verify p now opts = (s', Ok (true, results)) →
  (now ≤ unix_nano (Expires p))%Z ∧
  ∃ bundles, TrustBundles p = Ok bundles ∧ policy_satisfied p bundles results.
Proof.
  intros Hinv (s & bundles & s1 & acc & Ho & Hexp & Hb & Hv & Ha & Hall)%Policy_Verify_inv.
  split; [done|]. exists bundles. split; [done|].
  apply checkVerifyOpts_ok in Ho as (Hs & _ & Hd).
  apply verify_steps_inv in Hv as (_ & HI & Hdom);
    [|intros kv; apply elem_of_search_order|by apply Hinv|by intros ? ? ? Hl; cbn [va_results] in Hl; rw lookup_empty in Hl].
  symmetry in Hall. rw all_pass_true in Hall.
  destruct (verifyArtifacts_all_passed _ _ _ Ha) as [<- Hart].
  { intros name r Hr. by apply Hall, Analyze_true in Hr as [? _]. }
  intros stepName step Hstep.
  destruct (proj2 (Hdom stepName)) as [r Hr].
  { left. apply list_elem_of_fmap. exists (stepName, step). split; [done|].
    apply elem_of_search_order; [lia|done]. }
  exists r. split; [done|]. split; [by apply Hall, Analyze_true in Hr as [? _]|].
  split; [intros c; by apply HI|].
  destruct (Hart (stepName, step)) as (c & Hc & Hvc); [by apply elem_of_range|].
  exists c. split; [done|]. by apply verifyCollectionArtifacts_ok.
Qed.
End sound.

(** * What a policy that is met is answered *)

Section complete.
Context `{CL : CryptoLib} `{TL : !TspLib} `{GL : GlobLib} `{FL : FulcioLib} `{RO : RangeOrder}.
Context {A : Type} `{AO : AttestorOps A} `{RL : RegoLib} {S : Type} `{VS : !VerifiedSourcer A S}.

Abbreviation CVR := (CollectionVerificationResult A) (only parsing).
Abbreviation Results := (gmap string (StepResult A)) (only parsing).

Implicit Types results : Results.

(** A collection has the attestations that the step expects, and their policies pass. *)
Definition meets_attestations (step : Step) (coll : Collection A) : Prop :=
  ∀ e, e ∈ step_Attestations step → ∃ attestor, found_attestations coll !! pa_Type e = Some attestor ∧
    EvaluateRegoPolicy attestor (pa_RegoPolicies e) = nil_error.

(** A functionary of the step accepts one of the verifiers, and every refusal of another
    has a text. *)
Definition meets_functionaries (step : Step) (bundles : gmap string TrustBundle) (vs : list (option Verifier)) : Prop :=
  (∃ v f, v ∈ vs ∧ f ∈ step_Functionaries step ∧ Functionary_Validate f v bundles = nil_error) ∧
  ∀ v f, v ∈ vs → f ∈ step_Functionaries step →
    Functionary_Validate f v bundles = nil_error ∨
    ∃ e t, Functionary_Validate f v bundles = Err e ∧ error_text e = Ok t.

(** A result of the source that every check of the step lets pass. *)
Record acceptable (step : Step) (bundles : gmap string TrustBundle) (c : CVR) : Prop := {
  acceptable_errors : cvr_Errors c = [];
  acceptable_name : coll_Name (ce_Collection (cvr_Envelope c)) = step_Name step ∨
    coll_Name (ce_Collection (cvr_Envelope c)) = "";
  acceptable_attestations : meets_attestations step (ce_Collection (cvr_Envelope c));
  acceptable_functionaries : meets_functionaries step bundles (cvr_Verifiers c);
}.

(** ** One step *)

Definition same_content (c c' : CVR) : Prop := cvr_Envelope c' = cvr_Envelope c ∧ cvr_Errors c' = cvr_Errors c.

Lemma check_functionaries_accept step bundles (c : CVR) :
  meets_functionaries step bundles (cvr_Verifiers c) →
  ∃ st, range_res (check_functionary step bundles c) c (verifier_functionary_pairs step c) = Ok st ∧
    same_content c st ∧ cvr_ValidFunctionaries st ≠ [].
Proof.
  intros [(v & f & Hv & Hf & Hok) Hall].
  assert (∀ pair, pair ∈ verifier_functionary_pairs step c ↔ pair.1 ∈ cvr_Verifiers c ∧ pair.2 ∈ step_Functionaries step) as Hin.
  { intros [w g]. unfold verifier_functionary_pairs. rw list_elem_of_bind. setoid_rewrite list_elem_of_fmap. naive_solver. }
  destruct (range_res_total (check_functionary step bundles c) (same_content c)
    (λ s1 s2, cvr_ValidFunctionaries s1 ≠ [] → cvr_ValidFunctionaries s2 ≠ [])
    (λ pair s, Functionary_Validate pair.2 pair.1 bundles = nil_error → cvr_ValidFunctionaries s ≠ [])
    (verifier_functionary_pairs step c) c) as (st & Hst & Hsame & _ & Hq); [by intros ?| |naive_solver| |done|].
  - intros ? ? ? H1 H2 H. by apply H2, H1.
  - intros [w g] s1 [Hw Hg]%Hin [He Hr]. cbn [fst snd] in *. unfold check_functionary. cbn [fst snd].
    destruct (Hall w g Hw Hg) as [-> | (e & t & -> & Ht)].
    + eexists. split; [done|]. assert (∀ l : list (option Verifier), l ++ [w] ≠ []) by by intros [].
      split; [done|]. split; intros; naive_solver.
    + rw Ht. eexists. split; [done|]. split; [done|]. split; [done|]. by intros.
  - exists st. split; [done|]. split; [done|]. apply (Hq (v, f)); [by apply Hin|done].
Qed.

Lemma checkFunctionaries_accepts step bundles (cs : list CVR) :
  Forall (acceptable step bundles) cs →
  ∃ r, checkFunctionaries step cs bundles = Ok r ∧ Forall2 same_content cs (sr_Passed r).
Proof.
  unfold checkFunctionaries. intros HF.
  cut (∀ r0 : StepResult A, ∃ r new, range_res (check_statement step bundles) r0 cs = Ok r ∧
    sr_Passed r = sr_Passed r0 ++ new ∧ Forall2 same_content cs new).
  { intros H. destruct (H (mkStepResult (step_Name step) [] [])) as (r & new & Hr & Hp & HF2).
    exists r. split; [done|]. by rw Hp. }
  induction HF as [|c cs Hc _ IH]; intros r0; cbn [range_res].
  { exists r0, []. by rw right_id_L. }
  destruct (check_functionaries_accept step bundles c (acceptable_functionaries _ _ _ Hc)) as (st & Hst & Hsame & Hne).
  assert (∃ rej, check_statement step bundles r0 c = Ok (mkStepResult (sr_Step r0) (sr_Passed r0 ++ [st]) rej)) as [rej ->].
  { unfold check_statement. rw Hst. rw (bool_decide_eq_true_2 (0 < _)).
    - cbn [mbind res_bind]. rw bool_decide_eq_false_2; [by eexists|]. by intros ?%nil_length_inv.
    - destruct (acceptable_functionaries _ _ _ Hc) as [(v & f & Hv & _) _].
      destruct (cvr_Verifiers c); [by apply not_elem_of_nil in Hv|simpl; lia]. }
  cbn [mbind res_bind]. destruct (IH (mkStepResult (sr_Step r0) (sr_Passed r0 ++ [st]) rej)) as (r & new & Hr & Hp & HF2).
  exists r, (st :: new). split; [done|]. split; [|by constructor]. rw Hp. cbn [sr_Passed]. by rw -assoc_L.
Qed.

Lemma check_collection_accepts step (c : CVR) :
  cvr_Errors c = [] → meets_attestations step (ce_Collection (cvr_Envelope c)) →
  check_collection step c = Ok (true, []).
Proof.
  unfold check_collection, meets_attestations. intros He Hm. rw He. cbn [collect mbind res_bind length].
  rw bool_decide_eq_true_2 //. set (found := found_attestations _) in *.
  induction (step_Attestations step) as [|e l IH]; [done|]. cbn [range_res].
  destruct (Hm e) as (a & Hf & Hp); [left|]. 
  assert (check_expected step found (true, []) e = Ok (true, [])) as ->.
  { unfold check_expected. rw Hf. cbn [mbind res_bind]. by rw Hp. }
  apply IH. intros e' He'. apply Hm. by right.
Qed.

Lemma validateAttestations_accepts step (cs : list CVR) :
  Forall (λ c, cvr_Errors c = [] ∧ (coll_Name (ce_Collection (cvr_Envelope c)) = step_Name step ∨
    coll_Name (ce_Collection (cvr_Envelope c)) = "") ∧ meets_attestations step (ce_Collection (cvr_Envelope c))) cs →
  validateAttestations step cs = Ok (mkStepResult (step_Name step) cs []).
Proof.
  unfold validateAttestations. intros HF.
  cut (∀ new : list CVR, range_res (validate_one step) (mkStepResult (step_Name step) new []) cs =
    Ok (mkStepResult (step_Name step) (new ++ cs) [])); [intros H; apply (H [])|].
  induction HF as [|c cs (He & Hn & Hm) _ IH]; intros new; cbn [range_res]; [by rw right_id_L|].
  assert (validate_one step (mkStepResult (step_Name step) new []) c = Ok (mkStepResult (step_Name step) (new ++ [c]) [])) as ->.
  { unfold validate_one. cbv zeta. rw bool_decide_eq_false_2; [|naive_solver]. by rw check_collection_accepts. }
  cbn [mbind res_bind]. rw IH. by rw -assoc_L.
Qed.

(** The step passes with what the source found, and with nothing else. *)
Lemma evaluate_step_accepts bundles name step acc (cs : list CVR) :
  cs ≠ [] → Forall (acceptable step bundles) cs →
  ∃ r refs, evaluate_step bundles name step acc cs =
      Ok (mkVerifyAcc (va_digests acc ++ refs) (merge_result (va_results acc) name r)) ∧
    Forall2 same_content cs (sr_Passed r).
Proof.
  intros Hne HF. unfold evaluate_step. cbv zeta.
  assert (match cs with [] => [no_collections name] | _ => cs end = cs) as -> by by destruct cs.
  destruct (checkFunctionaries_accepts step bundles cs HF) as (fr & -> & HF2). cbn [mbind res_bind].
  rw validateAttestations_accepts.
  2:{ apply Forall_forall. intros c' Hc'. destruct (Forall2_elem_of_r _ _ _ _ HF2 Hc') as (c & Hc & Henv & Herr).
      rw Henv Herr. rw Forall_forall in HF. by destruct (HF c Hc). }
  cbn [mbind res_bind sr_Passed sr_Step sr_Rejected]. do 2 eexists. split; [done|]. done.
Qed.

(** ** The loops *)

(** What a source is to supply for a policy, from the given digests on: in every state in
    which it [supplied] so far, a search for a step finds results, all of them [good] for
    the step; those are acceptable, and agree with those of the steps that the artifacts
    come from. *)
Record supplies (p : Policy) (bundles : gmap string TrustBundle) (digests : list string)
    (supplied : S → Prop) (good : string → CVR → Prop) : Prop := {
  supply_name name step : Steps p !! name = Some step → step_Name step = name;
  supply_search name step s ds : Steps p !! name = Some step → supplied s → digests ⊆ ds →
    ∃ s' cs, VerifiedSearch s name ds (pa_Type <$> step_Attestations step) = (s', Ok cs) ∧ supplied s' ∧
      cs ≠ [] ∧ Forall (good name) cs;
  supply_good name step c : Steps p !! name = Some step → good name c → acceptable step bundles c;
  supply_artifacts name step from : Steps p !! name = Some step → from ∈ step_ArtifactsFrom step →
    is_Some (Steps p !! from) ∧ ∀ c c', good name c → good from c' →
      artifacts_agree (Collection_Materials (ce_Collection (cvr_Envelope c)))
        (Collection_Artifacts (ce_Collection (cvr_Envelope c')));
}.

Context (p : Policy) (bundles : gmap string TrustBundle) (digests : list string).
Context (supplied : S → Prop) (good : string → CVR → Prop) (Hsup : supplies p bundles digests supplied good).

Lemma attestationsByStep_lookup name step :
  Steps p !! name = Some step → default [] (attestationsByStep p !! name) = pa_Type <$> step_Attestations step.
Proof.
  intros Hs. unfold attestationsByStep.
  assert (∀ (l : list (string * Step)) m, NoDup l.*1 → (∀ kv, kv ∈ l → m !! kv.1 = None) →
    foldl (λ (m : gmap string (list string)) kv, match step_Attestations kv.2 with
      | [] => m | atts => <[kv.1:=pa_Type <$> atts]> m end) m l !! name =
    match list_to_map (M:=gmap string Step) l !! name with
    | Some st => match step_Attestations st with [] => m !! name | atts => Some (pa_Type <$> atts) end
    | None => m !! name
    end) as Hg.
  { induction l as [|[n st] l IH]; intros m Hnd Hm; [done|]. cbn [foldl fst snd list_to_map foldr curry]. cbn in Hnd.
    apply NoDup_cons in Hnd as [Hni Hnd].
    assert (Hl : list_to_map (M:=gmap string Step) l !! n = None) by by apply not_elem_of_list_to_map.
    change (list_to_map ((n, st) :: l)) with (<[n:=st]> (list_to_map (M:=gmap string Step) l)).
    destruct (step_Attestations st) as [|a atts] eqn:Ha.
    - rw IH //; [|intros kv Hkv; apply Hm; by right]. destruct (decide (name = n)) as [->|Hne].
      + by rw Hl lookup_insert_eq Ha.
      + by rw lookup_insert_ne.
    - rw IH //.
      2:{ intros kv Hkv. rw lookup_insert_ne; [apply Hm; by right|]. intros ->. apply Hni, list_elem_of_fmap. by exists kv. }
      destruct (decide (name = n)) as [->|Hne].
      + by rw Hl !lookup_insert_eq Ha.
      + by rw !lookup_insert_ne. }
  rw Hg; [|apply NoDup_fst_range|intros; by rw lookup_empty].
  assert (list_to_map (M:=gmap string Step) (range_map 1 (Steps p)) = Steps p) as ->.
  { rw (list_to_map_proper _ (map_to_list (Steps p))); [|apply NoDup_fst_range|apply range_map_perm].
    apply list_to_map_to_list. }
  rw Hs lookup_empty. by destruct (step_Attestations step).
Qed.

(** Every step that has a result has passed collections, each the content of a good one. *)
Definition well_supplied (results : Results) : Prop :=
  ∀ name r, results !! name = Some r → sr_Passed r ≠ [] ∧
    ∀ c, c ∈ sr_Passed r → ∃ c0, good name c0 ∧ same_content c0 c ∧ cvr_Errors c = [].

Lemma merge_result_supplied results name (r : StepResult A) :
  well_supplied results → sr_Passed r ≠ [] →
  (∀ c, c ∈ sr_Passed r → ∃ c0, good name c0 ∧ same_content c0 c ∧ cvr_Errors c = []) →
  well_supplied (merge_result results name r).
Proof.
  intros HI Hne Hall. unfold merge_result. destruct (results !! name) as [r0|] eqn:Hr0; [case_bool_decide|].
  all: intros name' r' [[<- <-]|[? ?]]%lookup_insert_Some; try by eapply HI.
  all: try by split.
  cbn [sr_Passed]. destruct (HI _ _ Hr0) as [Hne0 H0]. split; [by destruct (sr_Passed r0)|].
  intros c [?|?]%elem_of_app; [by apply H0|by apply Hall].
Qed.

Lemma verify_step_supplied name step s acc :
  Steps p !! name = Some step → supplied s → digests ⊆ va_digests acc → well_supplied (va_results acc) →
  ∃ s' acc', verify_step p bundles (name, step) s acc = (s', Ok acc') ∧ supplied s' ∧
    digests ⊆ va_digests acc' ∧ well_supplied (va_results acc') ∧
    ∀ name', is_Some (va_results acc' !! name') ↔ name' = name ∨ is_Some (va_results acc !! name').
Proof.
  intros Hstep Hs Hd HI. unfold verify_step. cbn [fst snd]. rw (attestationsByStep_lookup _ _ Hstep).
  destruct (supply_search _ _ _ _ _ Hsup _ _ _ _ Hstep Hs Hd) as (s' & cs & -> & Hs' & Hne & HF).
  assert (Forall (acceptable step bundles) cs) as Hacc.
  { eapply Forall_impl; [exact HF|]. intros c. by apply (supply_good _ _ _ _ _ Hsup). }
  cbn [mbind res_bind].
  destruct (evaluate_step_accepts bundles name step acc cs Hne Hacc) as (r & refs & -> & HF2).
  exists s'. eexists. split; [done|]. split; [done|]. cbn [va_digests va_results]. split; [set_solver|]. split.
  - apply merge_result_supplied; [done|intros Hn; rw Hn in HF2; by inversion HF2; subst|].
    intros c (c0 & Hc0 & Hsame)%(Forall2_elem_of_r _ _ _ _ HF2). rw Forall_forall in HF. rw Forall_forall in Hacc.
    exists c0. split; [by apply HF|]. split; [done|]. rw (proj2 Hsame). by apply Hacc.
  - intros name'. apply merge_result_dom.
Qed.

Lemma verify_steps_supplied steps s acc :
  (∀ kv, kv ∈ steps → Steps p !! kv.1 = Some kv.2) → supplied s → digests ⊆ va_digests acc →
  well_supplied (va_results acc) →
  ∃ s' acc', verify_steps p bundles steps s acc = (s', Ok acc') ∧ well_supplied (va_results acc') ∧
    ∀ name, is_Some (va_results acc' !! name) ↔ name ∈ steps.*1 ∨ is_Some (va_results acc !! name).
Proof.
  revert s acc; induction steps as [|[name step] steps IH]; intros s acc Hsteps Hs Hd HI; cbn [verify_steps].
  { exists s, acc. split; [done|]. split; [done|]. intros name. rw elem_of_nil. tauto. }
  destruct (verify_step_supplied name step s acc) as (s1 & acc1 & -> & Hs1 & Hd1 & HI1 & Hdom1);
    [apply (Hsteps (name, step)); left|done..|].
  destruct (IH s1 acc1) as (s' & acc' & -> & HI' & Hdom); [intros; apply Hsteps; by right|done..|].
  exists s', acc'. split; [done|]. split; [done|]. intros name'. rw Hdom Hdom1 fmap_cons elem_of_cons /=. tauto.
Qed.

(** ** Artifacts *)

Lemma artifact_reasons_accepts step results (passed : list CVR) :
  passed ≠ [] → (∀ c, c ∈ passed → verifyCollectionArtifacts step c results = nil_error) →
  artifact_reasons step results passed = Ok (true, []).
Proof.
  unfold artifact_reasons. intros Hne Hall.
  match goal with |- range_res ?f _ _ = _ => set (g := f) end.
  assert (∀ b, range_res g (b, []) passed = Ok (b || bool_decide (passed ≠ []), [])) as ->.
  { clear Hne. induction passed as [|c l IH]; intros b; [by rw orb_false_r|]. cbn [range_res].
    assert (g (b, []) c = Ok (true, [])) as ->. { unfold g. rw Hall //. left. }
    cbn [mbind res_bind]. rw IH; [|intros; apply Hall; by right]. by rw orb_true_r. }
  by rw bool_decide_eq_true_2.
Qed.

Lemma verifyArtifacts_supplied results :
  well_supplied results → (∀ name, is_Some (Steps p !! name) → is_Some (results !! name)) →
  verifyArtifacts p results = Ok results.
Proof.
  intros HI Hdom. unfold verifyArtifacts.
  assert (∀ l, (∀ kv, kv ∈ l → Steps p !! kv.1 = Some kv.2) → range_res verify_step_artifacts results l = Ok results) as Hg.
  2:{ apply Hg. intros [n st]. by rw elem_of_range. }
  induction l as [|[name step] l IH]; intros Hl; [done|]. cbn [range_res].
  assert (verify_step_artifacts results (name, step) = Ok results) as ->.
  2:{ cbn [mbind res_bind]. apply IH. intros. apply Hl. by right. }
  pose proof (Hl (name, step) (list_elem_of_here _ _)) as Hstep. cbn [fst snd] in Hstep.
  unfold verify_step_artifacts. cbv zeta. cbn [snd]. rw (supply_name _ _ _ _ _ Hsup _ _ Hstep).
  destruct (Hdom name) as [r Hr]; [by eexists|]. rw Hr. destruct (HI _ _ Hr) as [Hne Hall].
  rw bool_decide_eq_false_2; [|by intros ?%nil_length_inv].
  rw artifact_reasons_accepts //. intros c Hc. apply verifyCollectionArtifacts_ok. intros from Hfrom.
  destruct (supply_artifacts _ _ _ _ _ Hsup _ _ _ Hstep Hfrom) as [Hf Hagree].
  destruct (Hdom from Hf) as [r' Hr']. destruct (HI _ _ Hr') as [Hne' Hall']. unfold step_passed. rw Hr'.
  destruct (sr_Passed r') as [|c' rest]; [done|]. exists c', rest. split; [done|].
  destruct (Hall c Hc) as (c0 & Hg0 & [Hs0 _] & _). destruct (Hall' c') as (c1 & Hg1 & [Hs1 _] & _); [left|].
  rw Hs0 Hs1. by apply Hagree.
Qed.

(** ** The whole verification *)

Lemma Policy_Verify_supplied now opts s :
  let vo := policy_options opts in
  checkVerifyOpts vo = Ok s → digests ⊆ subjectDigests vo → (now ≤ unix_nano (Expires p))%Z →
  TrustBundles p = Ok bundles → supplied s →
  ∃ s' results, Policy_Verify p now opts = (s', Ok (true, results)) ∧
    ∀ name step, Steps p !! name = Some step →
      ∃ r, results !! name = Some r ∧ sr_Passed r ≠ [] ∧
        ∀ c, c ∈ sr_Passed r → ∃ c0, good name c0 ∧ cvr_Envelope c = cvr_Envelope c0.
Proof.
  cbv zeta. intros Ho Hdig Hexp Hb Hs. unfold Policy_Verify. fold (policy_options opts). cbv zeta. rw Ho.
  apply checkVerifyOpts_ok in Ho as (_ & _ & Hdepth).
  rw bool_decide_eq_false_2; [|lia]. rw Hb.
  destruct (verify_steps_supplied (search_order p (Z.to_nat (searchDepth (policy_options opts)))) s
    (mkVerifyAcc (subjectDigests (policy_options opts)) ∅)) as (s' & acc & -> & HI & Hdom).
  { intros kv. apply elem_of_search_order. }
  { done. } { done. } { intros ? ?. cbn [va_results]. by rw lookup_empty. }
  cbn [mbind res_bind].
  assert (∀ name, is_Some (Steps p !! name) → is_Some (va_results acc !! name)) as Hall.
  { intros name [step Hstep]. apply Hdom. left. apply list_elem_of_fmap. exists (name, step). split; [done|].
    apply elem_of_search_order; [lia|done]. }
  rw verifyArtifacts_supplied //. cbn [wrap mbind res_bind].
  assert (all_pass (va_results acc) = true) as ->.
  { apply all_pass_true. intros name r Hr. destruct (HI _ _ Hr) as [? Hp]. apply Analyze_true. split; [done|].
    intros c Hc. by destruct (Hp c Hc) as (? & _ & _ & ?). }
  do 2 eexists. split; [done|]. intros name step Hstep. destruct (Hall name) as [r Hr]; [by eexists|].
  exists r. destruct (HI _ _ Hr) as [? Hp]. split; [done|]. split; [done|]. intros c Hc.
  destruct (Hp c Hc) as (c0 & ? & [? _] & _). by exists c0.
Qed.
End complete.
