(* ===== verification/Hooks.v ===== *)
(** attestation: the hooks attestors declare and register around the processes
    that the command attestor runs (execute_hooks.go).

    The mutex makes every method atomic, so a run of the concurrent attestors is
    a sequence of events; the channels are flags that say whether they are
    closed. *)
From S2P Require Import Prelude GoStrings Errors.
From stdpp Require Import options.

Abbreviation ExecuteHookStage := Z (only parsing).
Definition StagePreExec : ExecuteHookStage := 0%Z.
Definition StagePreExit : ExecuteHookStage := 1%Z.

Definition Stage_String (s : ExecuteHookStage) : string :=
  if bool_decide (s = StagePreExec) then "PreExec"
  else if bool_decide (s = StagePreExit) then "PreExit"
  else "Unknown".

(** [ExecuteHookDeclaration]: the attestor and the stage. *)
Abbreviation ExecuteHookDeclaration := (string * Z)%type (only parsing).

Record registeredHook := mkHook {
  hook_attestor : string;
  hook_stage : ExecuteHookStage;
  hook_fn : Z → err;
  hook_ready : bool;
}.

(** [allFulfilled] is [None] while the channel is nil, and then whether it is
    closed; [closedOnce] says whether the once has been used. *)
Record ExecuteHooks := mkHooks {
  declarationToFulfilled : gmap ExecuteHookDeclaration bool;
  hooks : list registeredHook;
  allFulfilled : option bool;
  closedOnce : bool;
}.
Definition zero_hooks : ExecuteHooks := mkHooks ∅ [] None false.

(** [fmt.Sprintf("hook for attestor %q at stage %s ...")], for an attestor name of
    ASCII characters, which [%q] and [%+q] quote alike. *)
Definition hook_error (attestor : string) (stage : ExecuteHookStage) (what : string) : error :=
  Errorf ("hook for attestor " +:+ QuoteToASCII attestor +:+ " at stage " +:+ Stage_String stage +:+ " " +:+ what).

Definition ExecuteHooks_Declare (h : ExecuteHooks) (attestor : string) (stage : ExecuteHookStage) : res ExecuteHooks :=
  let chan := match allFulfilled h with None => Some false | c => c end in
  match declarationToFulfilled h !! (attestor, stage) with
  | Some _ => Err (hook_error attestor stage "already declared")
  | None => Ok (mkHooks (<[(attestor, stage):=false]> (declarationToFulfilled h)) (hooks h) chan (closedOnce h))
  end.

Definition checkAllFulfilled (declared : gmap ExecuteHookDeclaration bool) : bool :=
  bool_decide (map_Forall (λ _ fulfilled, fulfilled = true) declared).

(** [RegisterHook]: the new hook is the last one, and its channel is open. *)
Definition RegisterHook (h : ExecuteHooks) (stage : ExecuteHookStage) (name : string) (fn : Z → err)
    : res ExecuteHooks :=
  match declarationToFulfilled h !! (name, stage) with
  | None => Err (hook_error name stage "not declared")
  | Some true => Err (hook_error name stage "already registered")
  | Some false =>
      let declared := <[(name, stage):=true]> (declarationToFulfilled h) in
      let all := checkAllFulfilled declared in
      Ok (mkHooks declared (hooks h ++ [mkHook name stage fn false])
            (if all && negb (closedOnce h) then Some true else allFulfilled h)
            (all || closedOnce h))
  end.

(** The caller of [RegisterHook] closes the channel it was given. *)
Definition CloseReady (h : ExecuteHooks) (i : nat) : ExecuteHooks :=
  mkHooks (declarationToFulfilled h)
    (alter (λ hk, mkHook (hook_attestor hk) (hook_stage hk) (hook_fn hk) true) i (hooks h))
    (allFulfilled h) (closedOnce h).

Section order.
Context `{RO : RangeOrder}.

Definition unfulfilled (h : ExecuteHooks) : list ExecuteHookDeclaration :=
  (filter (λ kv : ExecuteHookDeclaration * bool, kv.2 = false) (range_map 0 (declarationToFulfilled h))).*1.

(** [WaitForDeclaredHooks] called in state [h], when the state at the end of the
    timeout would be [h']. *)
Definition WaitForDeclaredHooks (h h' : ExecuteHooks) : err :=
  if bool_decide (size (declarationToFulfilled h) = 0) then nil_error
  else
    match allFulfilled h' with
    | Some true => nil_error
    | _ => Err (Errorf ("timeout waiting for hook registration: " +:+
             show_list ((λ d, "{" +:+ d.1 +:+ " " +:+ Stage_String d.2 +:+ "}") <$> unfulfilled h')))
    end.
End order.

Definition stage_hooks (h : ExecuteHooks) (stage : ExecuteHookStage) : list registeredHook :=
  filter (λ hk, hook_stage hk = stage) (hooks h).

(** [RunHooks]: [None] while it waits for a hook that is not ready. *)
Definition RunHooks (h : ExecuteHooks) (stage : ExecuteHookStage) (pid : Z) : option err :=
  let stageHooks := stage_hooks h stage in
  match stageHooks with
  | [] => Some nil_error
  | _ =>
      if forallb hook_ready stageHooks then
        Some (range_res (λ _ hk,
                wrap ("hook " +:+ QuoteToASCII (hook_attestor hk) +:+ " at stage " +:+ Stage_String stage +:+ " failed")
                  (hook_fn hk pid)) tt stageHooks)
      else None
  end.

Definition HasHooks (h : ExecuteHooks) (stage : ExecuteHookStage) : bool :=
  existsb (λ hk, bool_decide (hook_stage hk = stage)) (hooks h).

(** * Runs *)

(** An event of a run; a call that fails leaves the state as it was. *)
Inductive hook_step : ExecuteHooks → ExecuteHooks → Prop :=
  | step_declare h a s h' : ExecuteHooks_Declare h a s = Ok h' → hook_step h h'
  | step_register h s a fn h' : RegisterHook h s a fn = Ok h' → hook_step h h'
  | step_ready h i : hook_step h (CloseReady h i).

(** The steps of the second phase of a run, when hooks are registered and no
    longer declared. *)
Inductive register_step : ExecuteHooks → ExecuteHooks → Prop :=
  | register_hook h s a fn h' : RegisterHook h s a fn = Ok h' → register_step h h'
  | register_ready h i : register_step h (CloseReady h i).

Definition declaration_of (hk : registeredHook) : ExecuteHookDeclaration :=
  (hook_attestor hk, hook_stage hk).

(** A declaration is fulfilled exactly when its hook is registered, and no two
    hooks have the same declaration. *)
Record hooks_wf (h : ExecuteHooks) : Prop := {
  wf_fulfilled d : declarationToFulfilled h !! d = Some true ↔ d ∈ declaration_of <$> hooks h;
  wf_unique : NoDup (declaration_of <$> hooks h);
  wf_closed : closedOnce h = true ↔ allFulfilled h = Some true;
  wf_closed_hooks : closedOnce h = true → hooks h ≠ [];
}.

Lemma zero_hooks_wf : hooks_wf zero_hooks.
Proof.
  split; [|constructor|done|done]. intros d. simpl. rw lookup_empty. split; [done|by intros ?%not_elem_of_nil].
Qed.

Lemma CloseReady_declarations h i : declaration_of <$> hooks (CloseReady h i) = declaration_of <$> hooks h.
Proof.
  simpl. apply list_eq. intros j. rw !list_lookup_fmap. destruct (decide (i = j)) as [->|?].
  - rw list_lookup_alter_eq. by destruct (hooks h !! j).
  - by rw list_lookup_alter_ne.
Qed.

Lemma hook_step_wf h h' : hooks_wf h → hook_step h h' → hooks_wf h'.
Proof.
  intros [Hf Hu Hc Hch] Hs. destruct Hs as [h a s h' H|h s a fn h' H|h i].
  - unfold ExecuteHooks_Declare in H. cbv zeta in H. destruct (declarationToFulfilled h !! (a, s)) eqn:Hd; [done|].
    simplify_eq. split; cbn [declarationToFulfilled hooks allFulfilled closedOnce]; [|done| |done].
    + intros d. rw -Hf. destruct (decide (d = (a, s))) as [->|?]; [rw lookup_insert_eq Hd|rw lookup_insert_ne //]; done.
    + rw Hc. by destruct (allFulfilled h) as [[]|].
  - unfold RegisterHook in H. cbv zeta in H.
    destruct (declarationToFulfilled h !! (a, s)) as [[]|] eqn:Hd; [done| |done]. simplify_eq.
    split; cbn [declarationToFulfilled hooks allFulfilled closedOnce].
    + intros d. rw fmap_app elem_of_app -Hf list_elem_of_singleton. unfold declaration_of. cbn [hook_attestor hook_stage].
      destruct (decide (d = (a, s))) as [->|?]; [rw lookup_insert_eq; naive_solver|rw lookup_insert_ne //; naive_solver].
    + rw fmap_app. apply NoDup_app. split; [done|]. split; [|apply NoDup_singleton].
      intros d Hd' ->%list_elem_of_singleton. apply Hf in Hd'. unfold declaration_of in Hd'. simpl in Hd'. congruence.
    + destruct (checkAllFulfilled _), (closedOnce h); simpl; naive_solver.
    + by destruct (hooks h).
  - split; [|by rw CloseReady_declarations|done|].
    + intros d. rw CloseReady_declarations. apply Hf.
    + intros H%Hch Hn. apply H. apply (f_equal length) in Hn. cbn [hooks CloseReady] in Hn.
      rw length_alter in Hn. by apply nil_length_inv.
Qed.

Lemma hooks_reachable_wf h : rtc hook_step zero_hooks h → hooks_wf h.
Proof.
  intros Hr. cut (∀ h0, rtc hook_step h0 h → hooks_wf h0 → hooks_wf h).
  { intros Hc. apply (Hc _ Hr), zero_hooks_wf. }
  clear Hr. intros h0 Hr. induction Hr as [h|h h' h'' Hs _ IH]; [done|]. intros Hwf. apply IH. by eapply hook_step_wf.
Qed.

(** The channel is closed exactly when something is declared and everything
    declared is registered. *)
Definition channel_exact (h : ExecuteHooks) : Prop :=
  allFulfilled h = Some true ↔
  declarationToFulfilled h ≠ ∅ ∧ checkAllFulfilled (declarationToFulfilled h) = true.

Lemma checkAllFulfilled_true m : checkAllFulfilled m = true ↔ ∀ d b, m !! d = Some b → b = true.
Proof. unfold checkAllFulfilled. rw bool_decide_eq_true. done. Qed.

Lemma register_step_exact h h' :
  hooks_wf h → channel_exact h → register_step h h' → channel_exact h'.
Proof.
  intros Hwf Hex Hs. destruct Hs as [h s a fn h' H|h i]; [|done].
  unfold RegisterHook in H. cbv zeta in H.
  destruct (declarationToFulfilled h !! (a, s)) as [[]|] eqn:Hd; [done| |done]. simplify_eq.
  unfold channel_exact in *. cbn [declarationToFulfilled allFulfilled].
  assert (closedOnce h = false) as Hco.
  { apply not_true_iff_false. intros [_ Hall]%(wf_closed _ Hwf)%Hex.
    rw checkAllFulfilled_true in Hall. by apply Hall in Hd. }
  assert (allFulfilled h ≠ Some true) as Hnc by (rw -(wf_closed _ Hwf); congruence).
  rw Hco andb_true_r. destruct (checkAllFulfilled (<[_:=true]> _)) eqn:Hall; [|naive_solver].
  split; [|done]. intros _. split; [apply insert_non_empty|done].
Qed.

(** The declaring phase: hooks are declared and none is registered yet. *)
Lemma declare_phase_exact h :
  hooks_wf h → hooks h = [] → channel_exact h.
Proof.
  intros Hwf Hh. unfold channel_exact.
  assert (Hno : ∀ d b, declarationToFulfilled h !! d = Some b → b = false).
  { intros d b Hd. apply not_true_iff_false. intros ->. apply (wf_fulfilled _ Hwf) in Hd. rw Hh in Hd.
    by apply not_elem_of_nil in Hd. }
  split.
  - intros Hc%(wf_closed _ Hwf). by apply (wf_closed_hooks _ Hwf) in Hc.
  - intros [Hne Hall]. apply map_choose in Hne as (d & b & Hd). rw checkAllFulfilled_true in Hall.
    pose proof (Hno _ _ Hd) as Hb. by rw (Hall _ _ Hd) in Hb.
Qed.

Inductive declare_step : ExecuteHooks → ExecuteHooks → Prop :=
  | declare_hook h a s h' : ExecuteHooks_Declare h a s = Ok h' → declare_step h h'.

Lemma declare_phase h : rtc declare_step zero_hooks h → hooks_wf h ∧ hooks h = [].
Proof.
  cut (∀ h0, rtc declare_step h0 h → hooks_wf h0 ∧ hooks h0 = [] → hooks_wf h ∧ hooks h = []).
  { intros Hc Hr. apply (Hc _ Hr). split; [apply zero_hooks_wf|done]. }
  intros h0 Hr. induction Hr as [|h0 h1 h Hs _ IH]; [done|]. intros [Hwf Hn]. apply IH.
  destruct Hs as [h0 a s h1 Hd]. split; [by eapply hook_step_wf, step_declare|].
  unfold ExecuteHooks_Declare in Hd. destruct (declarationToFulfilled h0 !! _); by simplify_eq.
Qed.

Lemma register_phase_exact h1 h2 :
  hooks_wf h1 → channel_exact h1 → rtc register_step h1 h2 →
  hooks_wf h2 ∧ channel_exact h2 ∧ (∀ d, is_Some (declarationToFulfilled h2 !! d) ↔ is_Some (declarationToFulfilled h1 !! d)).
Proof.
  intros Hwf Hex Hr. induction Hr as [|h h' h'' Hs _ IH]; [done|].
  assert (hook_step h h') as Hstep by (destruct Hs; [by eapply step_register|by apply step_ready]).
  destruct IH as (? & ? & Hd); [by eapply hook_step_wf|by eapply register_step_exact|].
  split; [done|]. split; [done|]. intros d. rw Hd. destruct Hs as [h s a fn h' H'|h i]; [|done].
  unfold RegisterHook in H'. destruct (declarationToFulfilled h !! (a, s)) as [[]|] eqn:Hdd; [done| |done].
  simplify_eq/=. destruct (decide (d = (a, s))) as [->|?]; [rw lookup_insert_eq Hdd|rw lookup_insert_ne //]; done.
Qed.

(** C15: When hooks are first declared and then registered, in any interleaving of
    the attestors, waiting for the declared hooks succeeds exactly when every
    declaration has its hook by the end of the timeout. *)
Theorem WaitForDeclaredHooks_exact `{RO : RangeOrder} (h1 h2 : ExecuteHooks) :
  rtc declare_step zero_hooks h1 → rtc register_step h1 h2 →
  WaitForDeclaredHooks h1 h2 = nil_error ↔
  ∀ d, is_Some (declarationToFulfilled h1 !! d) → d ∈ declaration_of <$> hooks h2.
Proof.
  intros [Hwf1 Hn]%declare_phase Hr.
  destruct (register_phase_exact _ _ Hwf1 (declare_phase_exact _ Hwf1 Hn) Hr) as (Hwf2 & Hex & Hd).
  setoid_rewrite <-Hd. setoid_rewrite <-(wf_fulfilled _ Hwf2).
  assert (Hall : checkAllFulfilled (declarationToFulfilled h2) = true ↔
    ∀ d, is_Some (declarationToFulfilled h2 !! d) → declarationToFulfilled h2 !! d = Some true).
  { rw checkAllFulfilled_true. split; [intros H d [b Hb]; by rw Hb (H _ _ Hb)|].
    intros H d b Hb. specialize (H d ltac:(by eexists)). congruence. }
  rw -Hall. unfold WaitForDeclaredHooks. case_bool_decide as Hsz.
  - split; [|done]. intros _. apply Hall. intros d Hs%Hd. apply map_size_empty_inv in Hsz.
    rw Hsz lookup_empty in Hs. by destruct Hs.
  - assert (declarationToFulfilled h2 ≠ ∅) as Hne.
    { intros He. apply Hsz, map_size_empty_iff, map_empty. intros d. apply eq_None_not_Some.
      intros Hs%Hd. rw He lookup_empty in Hs. by destruct Hs. }
    unfold channel_exact in Hex. destruct (allFulfilled h2) as [[]|]; naive_solver.
Qed.

Definition declared_one : ExecuteHooks := mkHooks {[("trace", 0%Z) := false]} [] (Some false) false.
Definition registered_one : ExecuteHooks :=
  mkHooks {[("trace", 0%Z) := true]} [mkHook "trace" 0 (λ _, nil_error) false] (Some true) true.

Lemma WaitForDeclaredHooks_exact_witness :
  WaitForDeclaredHooks declared_one registered_one = nil_error ↔
  ∀ d, is_Some (declarationToFulfilled declared_one !! d) → d ∈ declaration_of <$> hooks registered_one.
Proof.
  apply (WaitForDeclaredHooks_exact declared_one registered_one).
  - eapply rtc_l; [|apply rtc_refl]. apply (declare_hook _ "trace" 0). vm_compute. reflexivity.
  - eapply rtc_l; [|apply rtc_refl]. apply (register_hook _ 0 "trace" (λ _, nil_error)). vm_compute. reflexivity.
Defined.

(** Running the hooks of a stage waits until every hook registered for it is
    ready; it then calls them in the order of registration, up to the first that
    fails, whose error it returns; hooks of other stages are not called. *)
Theorem RunHooks_spec (h : ExecuteHooks) (stage pid : Z) :
  (RunHooks h stage pid = None ↔ ∃ hk, hk ∈ hooks h ∧ hook_stage hk = stage ∧ hook_ready hk = false) ∧
  (RunHooks h stage pid = Some nil_error →
     ∀ hk, hk ∈ hooks h → hook_stage hk = stage → hook_fn hk pid = nil_error) ∧
  (∀ e, RunHooks h stage pid = Some (Err e) →
     ∃ before hk after e', stage_hooks h stage = before ++ hk :: after ∧ hook_fn hk pid = Err e' ∧
       (∀ hk', hk' ∈ before → hook_fn hk' pid = nil_error) ∧
       e = Wrapf ("hook " +:+ QuoteToASCII (hook_attestor hk) +:+ " at stage " +:+ Stage_String stage +:+ " failed") e').
Proof.
  assert (Hin : ∀ hk, hk ∈ stage_hooks h stage ↔ hk ∈ hooks h ∧ hook_stage hk = stage).
  { intros hk. unfold stage_hooks. rw list_elem_of_filter. tauto. }
  assert (Hready : forallb hook_ready (stage_hooks h stage) = false ↔
    ∃ hk, hk ∈ hooks h ∧ hook_stage hk = stage ∧ hook_ready hk = false).
  { rw forallb_false. setoid_rewrite Hin. naive_solver. }
  rw -Hready. unfold RunHooks. cbv zeta. revert Hin. generalize (stage_hooks h stage).
  intros l Hin. destruct l as [|hk0 l0].
  { split; [done|]. split; [|done]. intros _ hk Hk Hs.
    by destruct (not_elem_of_nil hk (proj2 (Hin hk) (conj Hk Hs))). }
  revert Hin. generalize (hk0 :: l0). clear hk0 l0. intros l Hin.
  destruct (forallb hook_ready l); [|done]. split; [done|]. split.
  - intros [= Hr] hk Hk Hs. apply (proj1 (range_res_unit_ok _ _)) with (x:=hk) in Hr; [by apply wrap_ok in Hr|].
    by apply Hin.
  - intros e [= (l1 & hk & l2 & -> & Hf & Hl)%range_res_unit_err].
    destruct (hook_fn hk pid) as [|e'|] eqn:He; simplify_eq/=. exists l1, hk, l2, e'.
    split; [done|]. split; [done|]. split; [|done]. intros hk' Hk'. by eapply wrap_ok, Hl.
Qed.
