(* ===== verification/Environment.v ===== *)
(** environment: capturing environment variables without exposing sensitive ones
    (environment.go, filter.go, obfuscate.go, sensitive_env_vars.go), and the
    environment attestor (attestation/environment/environment.go). *)
From S2P Require Import Prelude GoStrings Errors Constraints.
From stdpp Require Import options.

(** sensitive_env_vars.go *)
Definition DefaultSensitiveEnvList : gset string :=
  list_to_set [
    "*TOKEN*"; "*SECRET*"; "*API_KEY*"; "*PASSWORD*"; "*JWT*"; "*sshKey*"; "*passphrase*";
    "AWS_ACCESS_KEY_ID"; "AWS_SECRET_ACCESS_KEY"; "AMAZON_AWS_ACCESS_KEY_ID";
    "AMAZON_AWS_SECRET_ACCESS_KEY"; "ALGOLIA_API_KEY"; "AZURE_CLIENT_ID"; "AZURE_CLIENT_SECRET";
    "AZURE_USERNAME"; "AZURE_PASSWORD"; "MSI_ENDPOINT"; "MSI_SECRET"; "binance_api";
    "binance_secret"; "BITTREX_API_KEY"; "BITTREX_API_SECRET"; "CF_PASSWORD"; "CF_USERNAME";
    "CODECLIMATE_REPO_TOKEN"; "COVERALLS_REPO_TOKEN"; "CIRCLE_TOKEN"; "DIGITALOCEAN_ACCESS_TOKEN";
    "DOCKER_EMAIL"; "DOCKER_PASSWORD"; "DOCKER_USERNAME"; "DOCKERHUB_PASSWORD"; "FACEBOOK_APP_ID";
    "FACEBOOK_APP_SECRET"; "FACEBOOK_ACCESS_TOKEN"; "FIREBASE_TOKEN"; "FOSSA_API_KEY"; "GH_TOKEN";
    "GH_ENTERPRISE_TOKEN"; "GOOGLE_APPLICATION_CREDENTIALS"; "GOOGLE_API_KEY"; "CI_DEPLOY_USER";
    "CI_DEPLOY_PASSWORD"; "GITLAB_USER_LOGIN"; "CI_JOB_JWT"; "CI_JOB_JWT_V2"; "CI_JOB_TOKEN";
    "HEROKU_API_KEY"; "HEROKU_API_USER"; "MAILGUN_API_KEY"; "MCLI_PRIVATE_API_KEY";
    "MCLI_PUBLIC_API_KEY"; "NGROK_TOKEN"; "NGROK_AUTH_TOKEN"; "NPM_AUTH_TOKEN";
    "OKTA_CLIENT_ORGURL"; "OKTA_CLIENT_TOKEN"; "OKTA_OAUTH2_CLIENTSECRET"; "OKTA_OAUTH2_CLIENTID";
    "OKTA_AUTHN_GROUPID"; "OS_USERNAME"; "OS_PASSWORD"; "PERCY_TOKEN"; "SAUCE_ACCESS_KEY";
    "SAUCE_USERNAME"; "SENTRY_AUTH_TOKEN"; "SLACK_TOKEN"; "SNYK_TOKEN"; "square_access_token";
    "square_oauth_secret"; "STRIPE_API_KEY"; "STRIPE_DEVICE_NAME"; "SURGE_TOKEN"; "SURGE_LOGIN";
    "TWILIO_ACCOUNT_SID"; "CONSUMER_KEY"; "CONSUMER_SECRET"; "TRAVIS_SUDO"; "TRAVIS_OS_NAME";
    "TRAVIS_SECURE_ENV_VARS"; "VAULT_TOKEN"; "VAULT_CLIENT_KEY"; "TOKEN"; "VULTR_ACCESS";
    "VULTR_SECRET"; "ACTIONS_RUNTIME_TOKEN"; "ACTIONS_ID_TOKEN_REQUEST_TOKEN" ].

Record Capture := mkCapture {
  sensitiveVarsList : gset string;
  addSensitiveVarsList : gset string;
  excludeSensitiveVarsList : gset string;
  filterVarsEnabled : bool;
  disableSensitiveVarsDefault : bool;
}.
Definition CaptureOption := Capture → Capture.

Definition WithFilterVarsEnabled : CaptureOption := λ c,
  mkCapture (sensitiveVarsList c) (addSensitiveVarsList c) (excludeSensitiveVarsList c) true
    (disableSensitiveVarsDefault c).
Definition WithAdditionalKeys (additionalKeys : list string) : CaptureOption := λ c,
  mkCapture (sensitiveVarsList c) (addSensitiveVarsList c ∪ list_to_set additionalKeys)
    (excludeSensitiveVarsList c) (filterVarsEnabled c) (disableSensitiveVarsDefault c).
Definition WithExcludeKeys (excludeKeys : list string) : CaptureOption := λ c,
  mkCapture (sensitiveVarsList c) (addSensitiveVarsList c)
    (excludeSensitiveVarsList c ∪ list_to_set excludeKeys) (filterVarsEnabled c) (disableSensitiveVarsDefault c).
Definition WithDisableDefaultSensitiveList : CaptureOption := λ c,
  mkCapture (sensitiveVarsList c) (addSensitiveVarsList c) (excludeSensitiveVarsList c)
    (filterVarsEnabled c) true.

Definition NewCapture (opts : list CaptureOption) : Capture :=
  foldl (λ c opt, opt c) (mkCapture DefaultSensitiveEnvList ∅ ∅ false false) opts.

(** [strings.SplitN(v, "=", 2)] always has a first part. *)
Definition splitVariable (v : string) : string * string :=
  match cut_byte "=" v with
  | (key, Some val) => (key, val)
  | (key, None) => (key, "")
  end.

Section capture.
Context `{GL : GlobLib} `{RO : RangeOrder}.

(** A set is ranged over like a map to the empty struct. *)
Definition range_set (site : nat) (X : gset string) : list string :=
  (range_map site (gset_to_gmap () X)).*1.

(** The compiled patterns; a pattern that does not compile is a nil glob, whose
    [Match] dereferences nil. *)
Definition glob_list (X : gset string) : list (option (string → bool)) :=
  (λ k, match glob_Compile k with Ok g => Some g | _ => None end) <$>
    filter (λ k, Contains k "*" = true) (range_set 0 X).

Definition nil_glob : string := "runtime error: invalid memory address or nil pointer dereference".

(** The loop over the globs of the filter, which breaks at the first match. *)
Fixpoint match_first (globs : list (option (string → bool))) (key : string) : res bool :=
  match globs with
  | [] => Ok false
  | None :: _ => Panic nil_glob
  | Some g :: globs => if g key then Ok true else match_first globs key
  end.

(** The loop over the globs of the obfuscation, which does not. *)
Fixpoint match_all (globs : list (option (string → bool))) (key : string) (found : bool) : res bool :=
  match globs with
  | [] => Ok found
  | None :: _ => Panic nil_glob
  | Some g :: globs => match_all globs key (found || g key)
  end.

(** Whether a variable is filtered out, or its value hidden. *)
Definition filter_flag (globs : list (option (string → bool))) (X excl : gset string) (key : string) : res bool :=
  if bool_decide (key ∈ excl) then Ok false
  else globbed ← match_first globs key; Ok (bool_decide (key ∈ X) || globbed).
Definition hide_flag (globs : list (option (string → bool))) (X excl : gset string) (key : string) : res bool :=
  if bool_decide (key ∈ excl) then Ok false
  else match_all globs key (bool_decide (key ∈ X)).

(** The calls of [onAllowed]: key, value and the variable as it was. *)
Definition FilterEnvironmentArray (variables : list string) (blockList excludeKeys : gset string)
    : res (list (string * string * string)) :=
  let filterGlobList := glob_list blockList in
  collect (λ v,
    let '(key, val) := splitVariable v in
    filterOut ← filter_flag filterGlobList blockList excludeKeys key;
    Ok (if (filterOut : bool) then [] else [(key, val, v)])) variables.

Definition ObfuscateEnvironmentArray (variables : list string) (obfuscateList excludeKeys : gset string)
    : res (list (string * string * string)) :=
  let obfuscateGlobList := glob_list obfuscateList in
  collect (λ v,
    let '(key, val) := splitVariable v in
    hide ← hide_flag obfuscateGlobList obfuscateList excludeKeys key;
    Ok [(key, if (hide : bool) then "******" else val, v)]) variables.

(** [variables[key] = val] for every call. *)
Definition capture_variables (calls : list (string * string * string)) : gmap string string :=
  foldl (λ variables c, <[c.1.1:=c.1.2]> variables) ∅ calls.

(** [Capture]: the final list of keys is the capturer's own map, so the additional
    keys stay in it. *)
Definition capture_keys (c : Capture) : gset string :=
  (if disableSensitiveVarsDefault c then ∅ else sensitiveVarsList c) ∪ addSensitiveVarsList c.
Definition Capture_Capture (c : Capture) (env : list string) : Capture * res (gmap string string) :=
  let finalSensitiveKeysList := capture_keys c in
  let calls := if filterVarsEnabled c
               then FilterEnvironmentArray env finalSensitiveKeysList (excludeSensitiveVarsList c)
               else ObfuscateEnvironmentArray env finalSensitiveKeysList (excludeSensitiveVarsList c) in
  (mkCapture finalSensitiveKeysList (addSensitiveVarsList c) (excludeSensitiveVarsList c)
     (filterVarsEnabled c) (disableSensitiveVarsDefault c),
   capture_variables <$> calls).

(** ** Which keys are sensitive *)

(** The key is in the list or matched by one of its patterns, and not excluded. *)
Definition sensitive (X excl : gset string) (key : string) : Prop :=
  key ∉ excl ∧ (key ∈ X ∨ ∃ k g, k ∈ X ∧ Contains k "*" = true ∧ glob_Compile k = Ok g ∧ g key = true).

(** Every pattern of the list compiles. *)
Definition compiles (X : gset string) : Prop :=
  ∀ k, k ∈ X → Contains k "*" = true → ∃ g, glob_Compile k = Ok g.

Lemma elem_of_range_set site X k : k ∈ range_set site X ↔ k ∈ X.
Proof.
  unfold range_set. rw list_elem_of_fmap. split.
  - intros ([k' []] & -> & Hin%elem_of_range). by apply lookup_gset_to_gmap_Some in Hin as [? _].
  - intros Hk. exists (k, ()). split; [done|]. apply elem_of_range. by apply lookup_gset_to_gmap_Some.
Qed.

Lemma elem_of_glob_list X og :
  og ∈ glob_list X ↔ ∃ k, k ∈ X ∧ Contains k "*" = true ∧
    og = match glob_Compile k with Ok g => Some g | _ => None end.
Proof.
  unfold glob_list. rw list_elem_of_fmap. setoid_rewrite list_elem_of_filter. setoid_rewrite elem_of_range_set.
  naive_solver.
Qed.

Lemma glob_list_Forall X : compiles X → Forall is_Some (glob_list X).
Proof.
  intros HX. apply Forall_forall. intros og (k & Hk & Hc & ->)%elem_of_glob_list.
  destruct (HX k Hk Hc) as [g ->]. by eexists.
Qed.

Lemma match_first_spec globs key :
  Forall is_Some globs →
  ∃ b, match_first globs key = Ok b ∧ (b = true ↔ ∃ g, Some g ∈ globs ∧ g key = true).
Proof.
  induction 1 as [|og globs [g ->] _ (b & Hb & IH)]; cbn [match_first].
  - exists false. split; [done|]. split; [done|by intros (? & ?%not_elem_of_nil & _)].
  - destruct (g key) eqn:Hg.
    + exists true. split; [done|]. split; [|done]. intros _. eauto with elems.
    + exists b. split; [done|]. rw IH. split.
      * intros (g' & ? & ?). eauto with elems.
      * intros (g' & [?|?]%elem_of_cons & ?); [congruence|by exists g'].
Qed.

Lemma match_all_spec globs key found :
  Forall is_Some globs →
  ∃ b, match_all globs key found = Ok b ∧
    (b = true ↔ found = true ∨ ∃ g, Some g ∈ globs ∧ g key = true).
Proof.
  intros HF. revert found. induction HF as [|og globs [g ->] _ IH]; intros found; cbn [match_all].
  - exists found. split; [done|]. split; [by left|]. intros [?|(? & ?%not_elem_of_nil & _)]; done.
  - destruct (IH (found || g key)) as (b & Hb & Hiff). exists b. split; [done|].
    rw Hiff orb_true_iff. split.
    + intros [[?|?]|(g' & ? & ?)]; [by left|right; exists g; split; [left|done]|].
      right. eauto with elems.
    + intros [?|(g' & [?|?]%elem_of_cons & ?)]; [by do 2 left|left; right; congruence|].
      right. by exists g'.
Qed.

Lemma glob_list_match X key :
  (∃ g, Some g ∈ glob_list X ∧ g key = true) ↔
  ∃ k g, k ∈ X ∧ Contains k "*" = true ∧ glob_Compile k = Ok g ∧ g key = true.
Proof.
  setoid_rewrite elem_of_glob_list. split.
  - intros (g & (k & Hk & Hc & Hg) & Hm). exists k, g. destruct (glob_Compile k); by simplify_eq.
  - intros (k & g & Hk & Hc & Hg & Hm). exists g. split; [|done]. exists k. by rw Hg.
Qed.

Lemma filter_flag_spec X excl key :
  compiles X → ∃ b, filter_flag (glob_list X) X excl key = Ok b ∧ (b = true ↔ sensitive X excl key).
Proof.
  intros HX. unfold filter_flag, sensitive. case_bool_decide as He; [exists false; naive_solver|].
  destruct (match_first_spec _ key (glob_list_Forall _ HX)) as (b & -> & Hb).
  cbn [mbind res_bind]. eexists. split; [done|]. rw orb_true_iff bool_decide_eq_true Hb glob_list_match. tauto.
Qed.

Lemma hide_flag_spec X excl key :
  compiles X → ∃ b, hide_flag (glob_list X) X excl key = Ok b ∧ (b = true ↔ sensitive X excl key).
Proof.
  intros HX. unfold hide_flag, sensitive. case_bool_decide as He; [exists false; naive_solver|].
  destruct (match_all_spec _ key (bool_decide (key ∈ X)) (glob_list_Forall _ HX)) as (b & -> & Hb).
  eexists. split; [done|]. rw Hb bool_decide_eq_true glob_list_match. tauto.
Qed.

(** The flag as a total function, for lists whose patterns compile. *)
Definition flag (m : res bool) : bool := match m with Ok b => b | _ => false end.

Definition captured_call (filtering : bool) (X excl : gset string) (v : string) : list (string * string * string) :=
  let '(key, val) := splitVariable v in
  if filtering then if flag (filter_flag (glob_list X) X excl key) then [] else [(key, val, v)]
  else [(key, if flag (hide_flag (glob_list X) X excl key) then "******" else val, v)].

Lemma Capture_calls c env :
  compiles (capture_keys c) →
  (Capture_Capture c env).2 =
  Ok (capture_variables (env ≫= captured_call (filterVarsEnabled c) (capture_keys c) (excludeSensitiveVarsList c))).
Proof.
  intros HX. unfold Capture_Capture. cbn [snd]. unfold FilterEnvironmentArray, ObfuscateEnvironmentArray.
  assert (Hc : ∀ f, (∀ v, f v = Ok (captured_call (filterVarsEnabled c) (capture_keys c) (excludeSensitiveVarsList c) v)) →
    capture_variables <$> collect f env = Ok (capture_variables
      (env ≫= captured_call (filterVarsEnabled c) (capture_keys c) (excludeSensitiveVarsList c)))).
  { intros f Hf. by rw (collect_pure f _ env (λ v _, Hf v)). }
  unfold captured_call in *. destruct (filterVarsEnabled c); apply Hc; intros v; destruct (splitVariable v) as [key val].
  - by destruct (filter_flag_spec _ (excludeSensitiveVarsList c) key HX) as (b & -> & _).
  - by destruct (hide_flag_spec _ (excludeSensitiveVarsList c) key HX) as (b & -> & _).
Qed.

(** The value of the last variable with that key. *)
Definition last_value (env : list string) (key : string) : option string :=
  last ((splitVariable <$> filter (λ v, (splitVariable v).1 = key) env).*2).

Lemma capture_variables_app c1 c2 key :
  capture_variables (c1 ++ c2) !! key =
  match capture_variables c2 !! key with Some v => Some v | None => capture_variables c1 !! key end.
Proof.
  unfold capture_variables. rw foldl_app. generalize (foldl (λ (m : gmap string string) (c : string * string * string),
    <[c.1.1:=c.1.2]> m) ∅ c1).
  induction c2 as [|c c2 IH] using rev_ind; intros m; [by rw /= lookup_empty|]. rw !foldl_app. cbn [foldl].
  destruct (decide (c.1.1 = key)) as [->|?]; [by rw !lookup_insert_eq|by rw !lookup_insert_ne].
Qed.

(** What a capture holds for a key. *)
Definition captured (filtering sens : bool) (v : option string) : option string :=
  match v with
  | None => None
  | Some val => if sens then if filtering then None else Some "******" else Some val
  end.

Lemma captured_lookup filtering X excl env key :
  compiles X →
  ∃ sens, (sens = true ↔ sensitive X excl key) ∧
    capture_variables (env ≫= captured_call filtering X excl) !! key = captured filtering sens (last_value env key).
Proof.
  intros HX. destruct (filter_flag_spec X excl key HX) as (b & Hf & Hb).
  destruct (hide_flag_spec X excl key HX) as (b' & Hh & Hb'). assert (b' = b) as -> by (destruct b, b'; naive_solver).
  exists b. split; [done|]. induction env as [|v env IH] using rev_ind; [done|].
  rw bind_app capture_variables_app. unfold last_value. rw filter_app !fmap_app last_app -/(last_value env key).
  assert (Hone : [v] ≫= captured_call filtering X excl = captured_call filtering X excl v) by (simpl; by rw right_id_L).
  rw Hone /captured_call filter_cons. destruct (splitVariable v) as [key' val] eqn:Hv. cbn [fst].
  destruct (decide (key' = key)) as [->|Hne].
  - rw Hf Hh. cbn [flag]. rw filter_nil !fmap_cons Hv /=. destruct filtering, b; unfold capture_variables; simpl.
    all: try by rw lookup_insert_eq.
    rw lookup_empty IH. by destruct (last_value env key).
  - rw IH. unfold capture_variables. destruct filtering; [destruct (flag _)|]; simpl; rw ?lookup_insert_ne // lookup_empty //.
Qed.
End capture.

(** * The environment attestor *)

Record EnvAttestor := mkEnvAttestor {
  ea_OS : string;
  ea_Hostname : string;
  ea_Username : string;
  ea_Variables : gmap string string;
  osEnviron : list string;
}.

(** [New]: the environment is what [os.Environ] gives unless an option replaces
    it. *)
Definition NewEnvAttestor (os_Environ : list string) (opts : list (EnvAttestor → EnvAttestor)) : EnvAttestor :=
  foldl (λ a opt, opt a) (mkEnvAttestor "" "" "" ∅ os_Environ) opts.
Definition WithCustomEnv (env : list string) : EnvAttestor → EnvAttestor := λ a,
  mkEnvAttestor (ea_OS a) (ea_Hostname a) (ea_Username a) (ea_Variables a) env.

(** [Attest], over what the operating system answers; a host or user name that
    cannot be found is left as it was. *)
Definition EnvAttestor_Attest `{GL : GlobLib} `{RO : RangeOrder} (GOOS : string) (hostname username : res string)
    (c : Capture) (a : EnvAttestor) : Capture * res EnvAttestor :=
  let '(c, variables) := Capture_Capture c (osEnviron a) in
  (c, vars ← variables;
      Ok (mkEnvAttestor GOOS
            (match hostname with Ok h => h | _ => ea_Hostname a end)
            (match username with Ok u => u | _ => ea_Username a end) vars (osEnviron a))).
