(* ===== verification/Ptrace.v ===== *)
(** attestation/commandrun/tracing_linux.go and tracing_linux_amd64.go: the
    processes of a command are traced with ptrace.

    What the tracer does is driven by the kernel: every call of [Wait4] has an
    answer, and the other system calls and the files under /proc answer as of
    that moment. The trace is a list of such moments ([wait_event]); the tracer
    is a function of it, whose result is [None] while it still waits, for the
    kernel or for a hook. The hooks are those that are registered when the
    command starts. *)
From S2P Require Import Prelude GoStrings GoText Errors Crypto Digest Constraints Environment Hooks.
From stdpp Require Import options.

Definition MAX_PATH_LEN : nat := 4096.

(** [ProcessInfo]; an opened file whose digests are nil is [None]. *)
Record ProcessInfo := mkProcessInfo {
  pi_Program : string;
  pi_ProcessID : Z;
  pi_ParentPID : Z;
  pi_ProgramDigest : DigestSet;
  pi_Comm : string;
  pi_Cmdline : string;
  pi_ExeDigest : DigestSet;
  pi_OpenedFiles : gmap string (option DigestSet);
  pi_Environ : string;
  pi_SpecBypassIsVuln : bool;
}.

(** The registers of amd64 the tracer reads. *)
Record PtraceRegs := mkRegs { Orig_rax : Z; Rdi : Z; Rsi : Z; Rdx : Z; R10 : Z; R8 : Z; R9 : Z }.
Definition getSyscallId (regs : PtraceRegs) : Z := Orig_rax regs.
Definition getSyscallArgs (regs : PtraceRegs) : list Z :=
  [Rdi regs; Rsi regs; Rdx regs; R10 regs; R8 regs; R9 regs].

(** golang.org/x/sys/unix: the constants and the methods of [WaitStatus], and the
    assertion to [*os.PathError]. *)
Class UnixLib := {
  SIGTRAP : Z;
  PTRACE_EVENT_EXIT : Z;
  PTRACE_EVENTMSG_SYSCALL_ENTRY : Z;
  SYS_EXECVE : Z;
  SYS_OPENAT : Z;
  Exited : Z → bool;
  ExitStatus : Z → Z;
  Signaled : Z → bool;
  Signal : Z → Z;
  Stopped : Z → bool;
  StopSignal : Z → Z;
  is_PathError : error → bool;
  is_ECHILD : error → bool;
}.

(** The answers of the operating system at a moment: [ProcessVMReadv] gives the
    bytes it copied. *)
Record OS := mkOS {
  PtraceSetOptions : err;
  PtraceDetach : err;
  PtraceGetRegs : Z → res PtraceRegs;
  PtraceGetEventMsg : Z → res Z;
  PtraceSyscall : Z → Z → err;
  PtraceCont : Z → Z → err;
  ProcessVMReadv : Z → Z → res string;
  os_ReadFile : string → res string;
  os_OpenFile : string → res OpenFile;
}.

(** An answer of [Wait4], the process and its status, and the moment after it. *)
Record wait_event := mkWait { wait_answer : res (Z * Z); wait_os : OS }.

Record ptraceContext := mkPtrace {
  traceePid : Z;
  mainProgram : string;
  processes : gmap Z ProcessInfo;
  pt_exitCode : Z;
  pt_hash : list DigestValue;
  environmentCapturer : option Capture;
  pt_executeHooks : ExecuteHooks;
  hooksOnly : bool;
  hasPreExec : bool;
  hasPreExit : bool;
}.

Definition set_processes (p : ptraceContext) (ps : gmap Z ProcessInfo) : ptraceContext :=
  mkPtrace (traceePid p) (mainProgram p) ps (pt_exitCode p) (pt_hash p) (environmentCapturer p)
    (pt_executeHooks p) (hooksOnly p) (hasPreExec p) (hasPreExit p).
Definition set_exitCode (p : ptraceContext) (code : Z) : ptraceContext :=
  mkPtrace (traceePid p) (mainProgram p) (processes p) code (pt_hash p) (environmentCapturer p)
    (pt_executeHooks p) (hooksOnly p) (hasPreExec p) (hasPreExit p).
Definition set_capturer (p : ptraceContext) (c : Capture) : ptraceContext :=
  mkPtrace (traceePid p) (mainProgram p) (processes p) (pt_exitCode p) (pt_hash p) (Some c)
    (pt_executeHooks p) (hooksOnly p) (hasPreExec p) (hasPreExit p).

(** * Reading /proc *)

Definition cleanString (s : string) : string := TrimSpace (ReplaceByte s nul " ").

(** [parts[1]] *)
Definition second (parts : list string) : res string :=
  match parts with _ :: x :: _ => Ok x | _ => Panic "index out of range [1] with length 1" end.

Fixpoint ppid_of_lines (lines : list string) : res Z :=
  match lines with
  | [] => Ok 0%Z
  | line :: lines =>
      if Contains line "PPid:" then
        part ← second (SplitByte line ":");
        Atoi (TrimSpace part)
      else ppid_of_lines lines
  end.
Definition line_feed : ascii := ascii_of_nat 10.
Definition getPPIDFromStatus (status : string) : res Z := ppid_of_lines (SplitByte status line_feed).

Fixpoint vuln_of_lines (lines : list string) : res bool :=
  match lines with
  | [] => Ok false
  | line :: lines =>
      if Contains line "Speculation_Store_Bypass:" then
        part ← second (SplitByte line ":");
        if Contains (TrimSpace part) "vulnerable" then Ok true else vuln_of_lines lines
      else vuln_of_lines lines
  end.
Definition getSpecBypassIsVulnFromStatus (status : string) : res bool :=
  vuln_of_lines (SplitByte status line_feed).

(** [fmt.Sprintf("/proc/%d/...", pid)] *)
Definition proc_path (pid : Z) (name : string) : string := "/proc/" +:+ ztoa pid +:+ "/" +:+ name.

Section ptrace.
Context `{CL : CryptoLib} `{GI : GitoidLib} `{GL : GlobLib} `{RO : RangeOrder} `{UL : UnixLib}.
Implicit Types p : ptraceContext.

(** * Process infos *)

Definition new_procInfo (pid : Z) : ProcessInfo :=
  mkProcessInfo "" pid 0 ∅ "" "" ∅ ∅ "" false.

(** [getProcInfo]: the entry of the process, made if it is missing. *)
Definition getProcInfo p (pid : Z) : ptraceContext * ProcessInfo :=
  match processes p !! pid with
  | Some procInfo => (p, procInfo)
  | None => (set_processes p (<[pid:=new_procInfo pid]> (processes p)), new_procInfo pid)
  end.

(** The entry is a pointer: a change of what it points to. *)
Definition put_procInfo p (pid : Z) (procInfo : ProcessInfo) : ptraceContext :=
  set_processes p (<[pid:=procInfo]> (processes p)).

Definition procInfoArray p : list ProcessInfo := (range_map 1 (processes p)).*2.

(** A string of the tracee: the buffer is all zero before. *)
Definition readSyscallReg (os : OS) (pid addr : Z) (n : nat) : res string :=
  data ← ProcessVMReadv os pid addr;
  if bool_decide (slen data = 0) then Ok ""
  else
    match cut_byte nul (data +:+ str_of_nats (replicate (n - slen data) 0)) with
    | (s, Some _) => Ok s
    | (_, None) => Panic "slice bounds out of range [:-1]"
    end.

Definition opened_file (pi : ProcessInfo) (file : string) (d : option DigestSet) : ProcessInfo :=
  mkProcessInfo (pi_Program pi) (pi_ProcessID pi) (pi_ParentPID pi) (pi_ProgramDigest pi) (pi_Comm pi)
    (pi_Cmdline pi) (pi_ExeDigest pi) (<[file:=d]> (pi_OpenedFiles pi)) (pi_Environ pi) (pi_SpecBypassIsVuln pi).
Definition set_OpenedFiles (pi : ProcessInfo) (files : gmap string (option DigestSet)) : ProcessInfo :=
  mkProcessInfo (pi_Program pi) (pi_ProcessID pi) (pi_ParentPID pi) (pi_ProgramDigest pi) (pi_Comm pi)
    (pi_Cmdline pi) (pi_ExeDigest pi) files (pi_Environ pi) (pi_SpecBypassIsVuln pi).
Definition set_Program (pi : ProcessInfo) (program : string) : ProcessInfo :=
  mkProcessInfo program (pi_ProcessID pi) (pi_ParentPID pi) (pi_ProgramDigest pi) (pi_Comm pi)
    (pi_Cmdline pi) (pi_ExeDigest pi) (pi_OpenedFiles pi) (pi_Environ pi) (pi_SpecBypassIsVuln pi).

(** [x, err := call; if err == nil { ... }]: an error leaves the old value. *)
Definition or_keep {X} (old : X) (call : res X) : res X :=
  match call with Ok x => Ok x | Err _ => Ok old | Panic w => Panic w end.

(** The environment of the process as the capturer lets it through. *)
Definition captured_environ (capturer : option Capture) (environ : string) : res (Capture * string) :=
  match capturer with
  | None => Panic "nil pointer dereference"
  | Some c =>
      let (c, capturedEnv) := Capture_Capture c (SplitByte environ nul) in
      vars ← capturedEnv;
      Ok (c, Join ((λ kv, kv.1 +:+ "=" +:+ kv.2) <$> range_map 2 vars) " ")
  end.

(** The case of [execve] in [handleSyscall]. *)
Definition handle_execve (os : OS) p (pid : Z) (addr : Z) : ptraceContext * err :=
  let (p, pi) := getProcInfo p pid in
  let r :=
    program ← match readSyscallReg os pid addr MAX_PATH_LEN with
              | Ok s => Ok (Some s) | Err _ => Ok None | Panic w => Panic w end;
    statusFile ← or_keep None (Some <$> os_ReadFile os (proc_path (pi_ProcessID pi) "status"));
    vuln_ppid ← match statusFile with
                | None => Ok (pi_SpecBypassIsVuln pi, pi_ParentPID pi)
                | Some st =>
                    vuln ← getSpecBypassIsVulnFromStatus st;
                    ppid ← or_keep (pi_ParentPID pi) (getPPIDFromStatus st);
                    Ok (vuln, ppid)
                end;
    comm ← or_keep (pi_Comm pi) (cleanString <$> os_ReadFile os (proc_path (pi_ProcessID pi) "comm"));
    environ ← or_keep None (Some <$> os_ReadFile os (proc_path (pi_ProcessID pi) "environ"));
    captured ← match environ with
               | None => Ok (environmentCapturer p, pi_Environ pi)
               | Some e => ce ← captured_environ (environmentCapturer p) e; Ok (Some ce.1, ce.2)
               end;
    cmdline ← or_keep (pi_Cmdline pi) (cleanString <$> os_ReadFile os (proc_path (pi_ProcessID pi) "cmdline"));
    exe ← or_keep (pi_ExeDigest pi)
            (CalculateDigestSetFromFile (os_OpenFile os) (proc_path (pi_ProcessID pi) "exe") (pt_hash p));
    let name := default "" program in
    progd ← (if bool_decide (name = "") then Ok (pi_ProgramDigest pi)
             else or_keep (pi_ProgramDigest pi) (CalculateDigestSetFromFile (os_OpenFile os) name (pt_hash p)));
    Ok (captured.1, mkProcessInfo (default (pi_Program pi) program) (pi_ProcessID pi) vuln_ppid.2 progd comm
          cmdline exe (pi_OpenedFiles pi) captured.2 vuln_ppid.1) in
  match r with
  | Ok (c, pi') =>
      (put_procInfo (match c with Some c => set_capturer p c | None => p end) pid pi', nil_error)
  | Err e => (p, Err e)
  | Panic w => (p, Panic w)
  end.

(** The case of [openat]. *)
Definition handle_openat (os : OS) p (pid : Z) (addr : Z) : ptraceContext * err :=
  match readSyscallReg os pid addr MAX_PATH_LEN with
  | Err e => (p, Err e)
  | Panic w => (p, Panic w)
  | Ok file =>
      let (p, pi) := getProcInfo p pid in
      match CalculateDigestSetFromFile (os_OpenFile os) file (pt_hash p) with
      | Ok digestSet => (put_procInfo p pid (opened_file pi file (Some digestSet)), nil_error)
      | Err e => (if is_PathError e then put_procInfo p pid (opened_file pi file None) else p, Err e)
      | Panic w => (p, Panic w)
      end
  end.

Definition handleSyscall (os : OS) p (pid : Z) (regs : PtraceRegs) : ptraceContext * err :=
  let argArray := getSyscallArgs regs in
  let syscallId := getSyscallId regs in
  if bool_decide (syscallId = SYS_EXECVE) then handle_execve os p pid (nth 0 argArray 0%Z)
  else if bool_decide (syscallId = SYS_OPENAT) then handle_openat os p pid (nth 1 argArray 0%Z)
  else (p, nil_error).

Definition nextSyscall (os : OS) p (pid : Z) : ptraceContext * err :=
  match PtraceGetRegs os pid with
  | Err e => (p, Err e)
  | Panic w => (p, Panic w)
  | Ok regs =>
      match PtraceGetEventMsg os pid with
      | Err e => (p, Err e)
      | Panic w => (p, Panic w)
      | Ok msg =>
          if bool_decide (msg = PTRACE_EVENTMSG_SYSCALL_ENTRY) then handleSyscall os p pid regs
          else (p, nil_error)
      end
  end.

(** The loop body of [retryOpenedFiles]: a file that could not be read. *)
Definition retry_step (os : OS) (hash : list DigestValue) (acc : gmap string (option DigestSet))
    (fd : string * option DigestSet) : res (gmap string (option DigestSet)) :=
  match fd.2 with
  | Some _ => Ok acc
  | None =>
      match CalculateDigestSetFromFile (os_OpenFile os) fd.1 hash with
      | Ok newDigest => Ok (<[fd.1:=Some newDigest]> acc)
      | Err _ => Ok (delete fd.1 acc)
      | Panic w => Panic w
      end
  end.
Definition retry_files (os : OS) (hash : list DigestValue) (files : gmap string (option DigestSet))
    : res (gmap string (option DigestSet)) :=
  range_res (retry_step os hash) files (range_map 3 files).
Definition retryOpenedFiles (os : OS) p : res ptraceContext :=
  let (p, pi) := getProcInfo p (traceePid p) in
  files ← retry_files os (pt_hash p) (pi_OpenedFiles pi);
  Ok (put_procInfo p (traceePid p) (set_OpenedFiles pi files)).

(** * The stops *)

(** [(uint32(status) >> 16) & 0xFFFF] *)
Definition eventCode (status : Z) : Z := Z.land (Z.shiftr (status mod 2 ^ 32) 16) 65535.

(** What the tracer does at a stop, and the signal it resumes the process with;
    [None] while a hook is not ready. The errors of [nextSyscall] and of the
    hooks are logged. *)
Definition on_stop (os : OS) p (pid status : Z) : option (ptraceContext * res Z) :=
  let sig := StopSignal status in
  if bool_decide (sig = Z.lor SIGTRAP 128) then
    match nextSyscall os p pid with
    | (p, Panic w) => Some (p, Panic w)
    | (p, _) => Some (p, Ok 0%Z)
    end
  else if bool_decide (sig = SIGTRAP) then
    if bool_decide (eventCode status = 0%Z) then Some (p, Ok sig)
    else if bool_decide (eventCode status = PTRACE_EVENT_EXIT) && bool_decide (pid = traceePid p) && hasPreExit p then
      match RunHooks (pt_executeHooks p) StagePreExit pid with
      | None => None
      | Some (Panic w) => Some (p, Panic w)
      | Some _ => Some (p, Ok 0%Z)
      end
    else Some (p, Ok 0%Z)
  else Some (p, Ok sig).

(** The loop of the full tracing mode; the errors of [PtraceSyscall] are logged. *)
Fixpoint trace_loop (evs : list wait_event) p : option (ptraceContext * OS * err) :=
  match evs with
  | [] => None
  | ev :: evs =>
      let os := wait_os ev in
      match wait_answer ev with
      | Err e => Some (p, os, Err e)
      | Panic w => Some (p, os, Panic w)
      | Ok (pid, status) =>
          if bool_decide (pid = traceePid p) && Exited status
          then Some (set_exitCode p (ExitStatus status), os, nil_error)
          else if bool_decide (pid = traceePid p) && Signaled status
          then Some (set_exitCode p (128 + Signal status)%Z, os, nil_error)
          else if Stopped status then
            match on_stop os p pid status with
            | None => None
            | Some (p, Ok _) => trace_loop evs p
            | Some (p, Err e) => trace_loop evs p
            | Some (p, Panic w) => Some (p, os, Panic w)
            end
          else trace_loop evs p
      end
  end.

(** The loop of [waitForExitOnly]; it waits for the traced process alone. After
    the exit event the process is waited for once more, whatever the answer. *)
Fixpoint exit_only_loop (evs : list wait_event) p : option (ptraceContext * OS * err) :=
  match evs with
  | [] => None
  | ev :: evs =>
      let os := wait_os ev in
      let continue sig :=
        match PtraceCont os (traceePid p) sig with
        | Ok _ => exit_only_loop evs p
        | Err e => Some (p, os, Err (Wrapf ("failed to continue with signal " +:+ ztoa sig) e))
        | Panic w => Some (p, os, Panic w)
        end in
      match wait_answer ev with
      | Err e => Some (p, os, Err (Wrapf "wait4 failed" e))
      | Panic w => Some (p, os, Panic w)
      | Ok (_, status) =>
          if Exited status then Some (set_exitCode p (ExitStatus status), os, nil_error)
          else if Signaled status then Some (set_exitCode p (128 + Signal status)%Z, os, nil_error)
          else if Stopped status then
            let sig := StopSignal status in
            if bool_decide (sig = SIGTRAP) && negb (bool_decide (eventCode status = 0%Z)) then
              if bool_decide (eventCode status = PTRACE_EVENT_EXIT) then
                match RunHooks (pt_executeHooks p) StagePreExit (traceePid p) with
                | None => None
                | Some (Panic w) => Some (p, os, Panic w)
                | Some _ =>
                    let p := match PtraceGetEventMsg os (traceePid p) with
                             | Ok exitStatus => set_exitCode p (Z.shiftr exitStatus 8)
                             | _ => p
                             end in
                    match evs with
                    | [] => None
                    | ev :: _ => Some (p, wait_os ev, nil_error)
                    end
                end
              else continue 0%Z
            else continue sig
          else exit_only_loop evs p
      end
  end.

Definition waitForExitOnly (os : OS) (evs : list wait_event) p : option (ptraceContext * OS * err) :=
  match PtraceCont os (traceePid p) 0%Z with
  | Ok _ => exit_only_loop evs p
  | Err e => Some (p, os, Err (Wrapf "failed to continue" e))
  | Panic w => Some (p, os, Panic w)
  end.

(** ** runTrace *)

(** After the hooks before the execution, without tracing. *)
Definition run_hooks_only (os : OS) (evs : list wait_event) p : option (ptraceContext * OS * err) :=
  if hasPreExit p then
    match PtraceSetOptions os with
    | Ok _ => waitForExitOnly os evs p
    | Err e => Some (p, os, Err e)
    | Panic w => Some (p, os, Panic w)
    end
  else
    match PtraceDetach os with
    | Err e => Some (p, os, Err (Wrapf "failed to detach from process" e))
    | Panic w => Some (p, os, Panic w)
    | Ok _ =>
        match evs with
        | [] => None
        | ev :: _ =>
            match wait_answer ev with
            | Err e => Some (p, wait_os ev, Err e)
            | Panic w => Some (p, wait_os ev, Panic w)
            | Ok (_, status) =>
                Some (if Exited status then set_exitCode p (ExitStatus status)
                      else if Signaled status then set_exitCode p (128 + Signal status)%Z
                      else p, wait_os ev, nil_error)
            end
        end
    end.

(** With tracing. *)
Definition run_tracing (os : OS) (evs : list wait_event) p : option (ptraceContext * OS * err) :=
  match PtraceSetOptions os with
  | Err e => Some (p, os, Err e)
  | Panic w => Some (p, os, Panic w)
  | Ok _ =>
      let (p, procInfo) := getProcInfo p (traceePid p) in
      let p := put_procInfo p (traceePid p) (set_Program procInfo (mainProgram p)) in
      match PtraceSyscall os (traceePid p) 0%Z with
      | Ok _ => trace_loop evs p
      | Err e => Some (p, os, Err e)
      | Panic w => Some (p, os, Panic w)
      end
  end.

(** [runTrace] up to the deferred call. *)
Definition run_body (evs : list wait_event) p : option (ptraceContext * OS * err) :=
  match evs with
  | [] => None
  | ev :: evs =>
      let os := wait_os ev in
      match wait_answer ev with
      | Err e => Some (p, os, Err e)
      | Panic w => Some (p, os, Panic w)
      | Ok _ =>
          match (if hasPreExec p then RunHooks (pt_executeHooks p) StagePreExec (traceePid p)
                 else Some nil_error) with
          | None => None
          | Some (Err e) => Some (p, os, Err (Wrapf "PreExec hooks failed" e))
          | Some (Panic w) => Some (p, os, Panic w)
          | Some (Ok _) => if hooksOnly p then run_hooks_only os evs p else run_tracing os evs p
          end
      end
  end.

Definition runTrace (evs : list wait_event) p : option (ptraceContext * err) :=
  match run_body evs p with
  | None => None
  | Some (p, os, e) =>
      if hooksOnly p then Some (p, e)
      else match retryOpenedFiles os p with
           | Ok p => Some (p, e)
           | Err _ => Some (p, e)
           | Panic w => Some (p, Panic w)
           end
  end.
End ptrace.
