(* ===== verification/Context.v ===== *)
(** attestation: the context attestors run in, and how they are run
    (context.go, context_env.go).

    Within a stage every attestor runs in a goroutine of its own. A goroutine is
    a [thread], whose steps are: reading the clock, [Attest], appending to the
    completed attestors, adding the materials, adding the products. The last
    three are critical sections of the context's mutex; [Attest] is one step on
    the context as it finds it. [stage_step] is the interleaving semantics;
    [run_threads] executes it under a [Scheduler]. *)
From S2P Require Import Prelude GoStrings Errors Crypto Digest Registry Attestation Constraints Environment Hooks Sched.
From stdpp Require Import options.

Definition PreMaterialRunType : string := "prematerial".
Definition MaterialRunType : string := "material".
Definition ExecuteRunType : string := "execute".
Definition ProductRunType : string := "product".
Definition PostProductRunType : string := "postproduct".
Definition VerifyRunType : string := "verify".

Definition runTypeOrder : list string :=
  [PreMaterialRunType; MaterialRunType; ExecuteRunType; ProductRunType; PostProductRunType].
Definition verifyTypeOrder : list string := [VerifyRunType].

(** [AttestationContext]; the Go context and the writers are opaque names. *)
Record AttestationContext (A : Type) := mkContext {
  ctx_ctx : string;
  ctx_attestors : list A;
  ctx_workingDir : string;
  ctx_dirHashGlob : list string;
  ctx_dirHashGlobCompiled : list (option (string → bool));
  ctx_hashes : list DigestValue;
  ctx_completed : list (CompletedAttestor A);
  ctx_products : gmap string Product;
  ctx_materials : gmap string DigestSet;
  ctx_stepName : string;
  ctx_capturer : Capture;
  ctx_outputWriters : list string;
  ctx_executeHooks : ExecuteHooks;
}.
Arguments mkContext {A}.
Arguments ctx_ctx {A}. Arguments ctx_attestors {A}. Arguments ctx_workingDir {A}.
Arguments ctx_dirHashGlob {A}. Arguments ctx_dirHashGlobCompiled {A}. Arguments ctx_hashes {A}.
Arguments ctx_completed {A}. Arguments ctx_products {A}. Arguments ctx_materials {A}.
Arguments ctx_stepName {A}. Arguments ctx_capturer {A}. Arguments ctx_outputWriters {A}.
Arguments ctx_executeHooks {A}.

(** What an attestor does when it runs: [Attest] can change the attestor, the
    capturer and the hooks of the context, and fails or not; [DeclareHooks] is
    there for the attestors that declare hooks. *)
Record attest_outcome (A : Type) := mkOutcome {
  out_attestor : A;
  out_capturer : Capture;
  out_hooks : ExecuteHooks;
  out_error : res unit;
}.
Arguments mkOutcome {A}.
Arguments out_attestor {A}. Arguments out_capturer {A}. Arguments out_hooks {A}. Arguments out_error {A}.

Class Runnable (A : Type) `{AO : AttestorOps A} := {
  Attest : A → AttestationContext A → attest_outcome A;
  DeclareHooks : A → option (ExecuteHooks → ExecuteHooks * err);
}.

(** The n-th reading of the clock. *)
Class Clock := clock : nat → Time.

Section setters.
Context {A : Type}.
Implicit Types ctx : AttestationContext A.

Definition set_attest_effect ctx (c : Capture) (h : ExecuteHooks) : AttestationContext A :=
  mkContext (ctx_ctx ctx) (ctx_attestors ctx) (ctx_workingDir ctx) (ctx_dirHashGlob ctx)
    (ctx_dirHashGlobCompiled ctx) (ctx_hashes ctx) (ctx_completed ctx) (ctx_products ctx)
    (ctx_materials ctx) (ctx_stepName ctx) c (ctx_outputWriters ctx) h.
Definition add_completed ctx (c : CompletedAttestor A) : AttestationContext A :=
  mkContext (ctx_ctx ctx) (ctx_attestors ctx) (ctx_workingDir ctx) (ctx_dirHashGlob ctx)
    (ctx_dirHashGlobCompiled ctx) (ctx_hashes ctx) (ctx_completed ctx ++ [c]) (ctx_products ctx)
    (ctx_materials ctx) (ctx_stepName ctx) (ctx_capturer ctx) (ctx_outputWriters ctx) (ctx_executeHooks ctx).
Definition set_materials ctx (m : gmap string DigestSet) : AttestationContext A :=
  mkContext (ctx_ctx ctx) (ctx_attestors ctx) (ctx_workingDir ctx) (ctx_dirHashGlob ctx)
    (ctx_dirHashGlobCompiled ctx) (ctx_hashes ctx) (ctx_completed ctx) (ctx_products ctx)
    m (ctx_stepName ctx) (ctx_capturer ctx) (ctx_outputWriters ctx) (ctx_executeHooks ctx).
Definition set_products ctx (m : gmap string Product) : AttestationContext A :=
  mkContext (ctx_ctx ctx) (ctx_attestors ctx) (ctx_workingDir ctx) (ctx_dirHashGlob ctx)
    (ctx_dirHashGlobCompiled ctx) (ctx_hashes ctx) (ctx_completed ctx) m
    (ctx_materials ctx) (ctx_stepName ctx) (ctx_capturer ctx) (ctx_outputWriters ctx) (ctx_executeHooks ctx).
Definition set_hooks ctx (h : ExecuteHooks) : AttestationContext A :=
  set_attest_effect ctx (ctx_capturer ctx) h.
Definition set_capturer ctx (c : Capture) : AttestationContext A :=
  set_attest_effect ctx c (ctx_executeHooks ctx).
End setters.

(** * Options and construction *)

Section options.
Context {A : Type} `{GL : GlobLib}.

Definition AttestationContextOption := AttestationContext A → AttestationContext A.

Definition WithOutputWriters (w : list string) : AttestationContextOption := λ ctx,
  mkContext (ctx_ctx ctx) (ctx_attestors ctx) (ctx_workingDir ctx) (ctx_dirHashGlob ctx)
    (ctx_dirHashGlobCompiled ctx) (ctx_hashes ctx) (ctx_completed ctx) (ctx_products ctx)
    (ctx_materials ctx) (ctx_stepName ctx) (ctx_capturer ctx) w (ctx_executeHooks ctx).
Definition WithContext (c : string) : AttestationContextOption := λ ctx,
  mkContext c (ctx_attestors ctx) (ctx_workingDir ctx) (ctx_dirHashGlob ctx)
    (ctx_dirHashGlobCompiled ctx) (ctx_hashes ctx) (ctx_completed ctx) (ctx_products ctx)
    (ctx_materials ctx) (ctx_stepName ctx) (ctx_capturer ctx) (ctx_outputWriters ctx) (ctx_executeHooks ctx).
Definition WithHashes (hashes : list DigestValue) : AttestationContextOption := λ ctx,
  if bool_decide (0 < length hashes) then
    mkContext (ctx_ctx ctx) (ctx_attestors ctx) (ctx_workingDir ctx) (ctx_dirHashGlob ctx)
      (ctx_dirHashGlobCompiled ctx) hashes (ctx_completed ctx) (ctx_products ctx)
      (ctx_materials ctx) (ctx_stepName ctx) (ctx_capturer ctx) (ctx_outputWriters ctx) (ctx_executeHooks ctx)
  else ctx.
Definition WithWorkingDir (workingDir : string) : AttestationContextOption := λ ctx,
  if bool_decide (workingDir ≠ "") then
    mkContext (ctx_ctx ctx) (ctx_attestors ctx) workingDir (ctx_dirHashGlob ctx)
      (ctx_dirHashGlobCompiled ctx) (ctx_hashes ctx) (ctx_completed ctx) (ctx_products ctx)
      (ctx_materials ctx) (ctx_stepName ctx) (ctx_capturer ctx) (ctx_outputWriters ctx) (ctx_executeHooks ctx)
  else ctx.
(** A pattern that does not compile leaves a nil glob. *)
Definition WithDirHashGlob (dirHashGlob : list string) : AttestationContextOption := λ ctx,
  if bool_decide (0 < length dirHashGlob) then
    mkContext (ctx_ctx ctx) (ctx_attestors ctx) (ctx_workingDir ctx) dirHashGlob
      ((λ item, match glob_Compile item with Ok g => Some g | _ => None end) <$> dirHashGlob)
      (ctx_hashes ctx) (ctx_completed ctx) (ctx_products ctx)
      (ctx_materials ctx) (ctx_stepName ctx) (ctx_capturer ctx) (ctx_outputWriters ctx) (ctx_executeHooks ctx)
  else ctx.
Definition WithEnvCapturer (additionalKeys excludeKeys : list string)
    (disableDefaultSensitiveVars filterVarsEnabled : bool) : AttestationContextOption := λ ctx,
  set_capturer ctx (NewCapture
    ([WithAdditionalKeys additionalKeys; WithExcludeKeys excludeKeys] ++
     (if disableDefaultSensitiveVars then [WithDisableDefaultSensitiveList] else []) ++
     (if filterVarsEnabled then [WithFilterVarsEnabled] else []))).

(** context_env.go *)
Definition WithEnvFilterVarsEnabled : AttestationContextOption := λ a,
  set_capturer a (WithFilterVarsEnabled (ctx_capturer a)).
Definition WithEnvAdditionalKeys (keys : list string) : AttestationContextOption := λ a,
  set_capturer a (WithAdditionalKeys keys (ctx_capturer a)).
Definition WithEnvExcludeKeys (keys : list string) : AttestationContextOption := λ a,
  set_capturer a (WithExcludeKeys keys (ctx_capturer a)).
Definition WithEnvDisableDefaultSensitiveList : AttestationContextOption := λ a,
  set_capturer a (WithDisableDefaultSensitiveList (ctx_capturer a)).

(** [NewContext]; [getwd] is what the operating system answers. *)
Definition NewContext (getwd : res string) (stepName : string) (attestors : list A)
    (opts : list AttestationContextOption) : res (AttestationContext A) :=
  wd ← getwd;
  let ctx := mkContext "background" attestors wd [] []
    [mkDV SHA256 false false; mkDV SHA256 true false; mkDV SHA1 true false]
    [] ∅ ∅ stepName (NewCapture []) [] zero_hooks in
  Ok (foldl (λ ctx opt, opt ctx) ctx opts).
End options.

(** * Running a stage *)

Inductive thread (A : Type) :=
  | Ready (a : A)
  | Started (a : A) (startTime : Time)
  | Attested (a : A) (startTime : Time) (e : option error)
  | AddMaterials (a : A)
  | AddProducts (a : A).
Arguments Ready {A}. Arguments Started {A}. Arguments Attested {A}.
Arguments AddMaterials {A}. Arguments AddProducts {A}.

Section run.
Context `{RO : RangeOrder} {A : Type} `{AO : AttestorOps A} `{RA : !Runnable A}.
Implicit Types ctx : AttestationContext A.

(** [addMaterials] and [addProducts] *)
Definition addMaterials ctx (newMats : gmap string DigestSet) : AttestationContext A :=
  set_materials ctx (copy_into 0 id id (ctx_materials ctx) newMats).
Definition addProducts ctx (newProds : gmap string Product) : AttestationContext A :=
  set_products ctx (copy_into 0 id id (ctx_products ctx) newProds).

(** One step of [runAttestor], at a time; the thread is gone after its last. *)
Definition thread_step (now : Time) ctx (t : thread A) : res (AttestationContext A * option (thread A)) :=
  match t with
  | Ready a => Ok (ctx, Some (Started a now))
  | Started a startTime =>
      let o := Attest a ctx in
      let ctx := set_attest_effect ctx (out_capturer o) (out_hooks o) in
      match out_error o with
      | Ok _ => Ok (ctx, Some (Attested (out_attestor o) startTime None))
      | Err e => Ok (ctx, Some (Attested (out_attestor o) startTime (Some e)))
      | Panic w => Panic w
      end
  | Attested a startTime e =>
      Ok (add_completed ctx (mkCompletedAttestor a startTime now e),
          match e with Some _ => None | None => Some (AddMaterials a) end)
  | AddMaterials a =>
      Ok (match Materialer_Materials a with Some m => addMaterials ctx m | None => ctx end,
          Some (AddProducts a))
  | AddProducts a =>
      Ok (match Producer_Products a with Some m => addProducts ctx m | None => ctx end, None)
  end.

Definition option_list {X} (o : option X) : list X := match o with Some x => [x] | None => [] end.

(** Any thread may take the next step, at any time. *)
Inductive stage_step : AttestationContext A * list (thread A) → AttestationContext A * list (thread A) → Prop :=
  | stage_step_thread now ctx l1 t l2 ctx' t' :
      thread_step now ctx t = Ok (ctx', t') →
      stage_step (ctx, l1 ++ t :: l2) (ctx', l1 ++ option_list t' ++ l2).

(** The steps a thread has left. *)
Definition thread_steps (t : thread A) : nat :=
  match t with Ready _ => 5 | Started _ _ => 4 | Attested _ _ _ => 3 | AddMaterials _ => 2 | AddProducts _ => 1 end.
Definition stage_steps (ts : list (thread A)) : nat := sum_list_with thread_steps ts.

(** [n] scheduled steps, [k] counting the steps of the whole run. *)
Fixpoint run_threads `{SC : Scheduler} `{CK : Clock} (n k : nat) ctx (ts : list (thread A))
    : res (AttestationContext A * list (thread A)) :=
  match n with
  | 0 => Ok (ctx, ts)
  | S n =>
      let i := pick k `mod` length ts in
      match ts !! i with
      | None => Ok (ctx, ts)
      | Some t =>
          r ← thread_step (clock k) ctx t;
          run_threads n (S k) r.1 (take i ts ++ option_list r.2 ++ drop (S i) ts)
      end
  end.

(** [for ... { go runAttestor }; wg.Wait()]: every thread runs to its end. *)
Definition run_stage `{SC : Scheduler} `{CK : Clock} (k : nat) ctx (attestors : list A)
    : res (AttestationContext A) :=
  fst <$> run_threads (stage_steps (Ready <$> attestors)) k ctx (Ready <$> attestors).

(** ** RunAttestors *)

(** The loop that groups the attestors by run type. *)
Definition group_attestors (attestors : list A) : res (gmap string (list A)) :=
  range_res (λ groups attestor,
    let rt := Attestor_RunType attestor in
    if bool_decide (rt = "") then Err (ErrAttestor (Attestor_Name attestor) rt "attestor run type not set")
    else Ok (<[rt:=default [] (groups !! rt) ++ [attestor]]> groups)) ∅ attestors.

Definition stage_order (groups : gmap string (list A)) : res (list string) :=
  match groups !! VerifyRunType with
  | Some _ =>
      if bool_decide (1 < size groups) then
        Err (Errorf ("attestors of type " +:+ VerifyRunType +:+
                     " cannot be run in conjunction with other attestor types"))
      else Ok verifyTypeOrder
  | None => Ok runTypeOrder
  end.

(** The first phase of a stage: hooks may be declared in the execute stage only. *)
Fixpoint declare_hooks ctx (attestors : list A) : AttestationContext A * err :=
  match attestors with
  | [] => (ctx, nil_error)
  | att :: attestors =>
      match DeclareHooks att with
      | None => declare_hooks ctx attestors
      | Some declare =>
          let '(h, e) := declare (ctx_executeHooks ctx) in
          match e with
          | Ok _ => declare_hooks (set_hooks ctx h) attestors
          | Err e => (set_hooks ctx h,
                      Err (Wrapf ("attestor " +:+ Attestor_Name att +:+ " failed to declare hooks") e))
          | Panic w => (set_hooks ctx h, Panic w)
          end
      end
  end.
Definition check_no_declarer (k : string) (attestors : list A) : err :=
  range_res (λ _ att,
    match DeclareHooks att with
    | None => nil_error
    | Some _ => Err (Errorf ("attestor " +:+ Attestor_Name att +:+ " of run type " +:+ k +:+
                             " cannot declare execute hooks"))
    end) tt attestors.
Definition declare_phase_of (k : string) ctx (attestors : list A) : AttestationContext A * err :=
  if bool_decide (k = ExecuteRunType) then declare_hooks ctx attestors
  else (ctx, check_no_declarer k attestors).

(** The loop over the stages: the context, also next to an error. *)
Fixpoint run_stages `{SC : Scheduler} `{CK : Clock} (groups : gmap string (list A)) (order : list string)
    (k : nat) ctx : AttestationContext A * err :=
  match order with
  | [] => (ctx, nil_error)
  | stage :: order =>
      let attestors := default [] (groups !! stage) in
      match declare_phase_of stage ctx attestors with
      | (ctx, Ok _) =>
          match run_stage k ctx attestors with
          | Ok ctx => run_stages groups order (k + stage_steps (Ready <$> attestors)) ctx
          | Err e => (ctx, Err e)
          | Panic w => (ctx, Panic w)
          end
      | r => r
      end
  end.

Definition RunAttestors `{SC : Scheduler} `{CK : Clock} ctx : AttestationContext A * err :=
  match group_attestors (ctx_attestors ctx) with
  | Err e => (ctx, Err e)
  | Panic w => (ctx, Panic w)
  | Ok groups =>
      match stage_order groups with
      | Err e => (ctx, Err e)
      | Panic w => (ctx, Panic w)
      | Ok order => run_stages groups order 0 ctx
      end
  end.

(** The accessors that copy under the read lock. *)
Definition CompletedAttestors ctx : list (CompletedAttestor A) := ctx_completed ctx.
Definition ctx_Materials ctx : gmap string DigestSet := copy_into 0 id id ∅ (ctx_materials ctx).
Definition ctx_Products ctx : gmap string Product := copy_into 0 id id ∅ (ctx_products ctx).
End run.
