(* ===== verification/ContextRun.v ===== *)
(** What running the attestors of a context does, for every interleaving: the
    lemmas on [stage_step] and their consequences for [RunAttestors]. *)
From S2P Require Import Prelude GoStrings Errors Crypto Digest Registry Attestation Constraints Environment Hooks Sched Context.

Section run.
Context `{RO : RangeOrder} {A : Type} `{AO : AttestorOps A} `{RA : !Runnable A}.
Implicit Types ctx : AttestationContext A.
Implicit Types ts : list (thread A).

(** ** Termination *)

Lemma thread_step_decreases now ctx t ctx' t' :
  thread_step now ctx t = Ok (ctx', t') → stage_steps (option_list t') < thread_steps t.
Proof.
  destruct t as [a|a s|a s [e|]|a|a]; simpl; intros H; simplify_eq; simpl; try lia.
  destruct (out_error _) as [[]| |]; simplify_eq; simpl; lia.
Qed.

Lemma stage_steps_app ts1 ts2 : stage_steps (ts1 ++ ts2) = stage_steps ts1 + stage_steps ts2.
Proof. apply sum_list_with_app. Qed.

Lemma stage_step_decreases c c' : stage_step c c' → stage_steps c'.2 < stage_steps c.2.
Proof.
  intros [now ctx l1 t l2 ctx' t' Ht%thread_step_decreases]. cbn [snd].
  rw !stage_steps_app. change (stage_steps (t :: l2)) with (thread_steps t + stage_steps l2). lia.
Qed.

(** No run of a stage is longer than the steps its threads have left. *)
Lemma stage_run_bounded n c c' : nsteps stage_step n c c' → n + stage_steps c'.2 ≤ stage_steps c.2.
Proof. induction 1 as [|n c1 c2 c3 H%stage_step_decreases _ IH]; lia. Qed.

Lemma stage_steps_zero ts : stage_steps ts = 0 → ts = [].
Proof. destruct ts as [|t ts]; [done|]. destruct t; unfold stage_steps; simpl; lia. Qed.

Section exec.
Context `{SC : Scheduler} `{CK : Clock}.

(** The executed run is one of the runs of the interleaving semantics, and with
    enough steps it ends with no thread left. *)
Lemma run_threads_rtc n k ctx ts ctx' ts' :
  run_threads n k ctx ts = Ok (ctx', ts') → rtc stage_step (ctx, ts) (ctx', ts').
Proof.
  revert k ctx ts; induction n as [|n IH]; intros k ctx ts; cbn [run_threads]; [by intros [= <- <-]|].
  cbv zeta. remember (pick k `mod` length ts) as i eqn:Ei.
  destruct (ts !! i) as [t|] eqn:Hi; [|by intros [= <- <-]].
  intros ([ctx1 t1] & Ht & H)%res_bind_ok. cbn [fst snd] in H. eapply rtc_l; [|by eapply IH].
  apply take_drop_middle in Hi as Hmid. rw -{1}Hmid. by eapply stage_step_thread.
Qed.

Lemma run_threads_done n k ctx ts ctx' ts' :
  stage_steps ts ≤ n → run_threads n k ctx ts = Ok (ctx', ts') → ts' = [].
Proof.
  revert k ctx ts; induction n as [|n IH]; intros k ctx ts Hn; cbn [run_threads].
  { intros [= <- <-]. apply stage_steps_zero. lia. }
  cbv zeta. remember (pick k `mod` length ts) as i eqn:Ei. destruct (ts !! i) as [t|] eqn:Hi.
  - intros ([ctx1 t1] & Ht & H)%res_bind_ok. apply IH in H; [done|]. cbn [fst snd].
    assert (stage_step (ctx, ts) (ctx1, take i ts ++ option_list t1 ++ drop (S i) ts)) as Hs%stage_step_decreases.
    { apply take_drop_middle in Hi as Hmid. rw -{1}Hmid. by eapply stage_step_thread. }
    cbn [snd] in Hs. lia.
  - intros [= <- <-]. destruct ts; [done|]. apply lookup_ge_None in Hi. subst i.
    pose proof (Nat.mod_upper_bound (pick k) (length (t :: ts)) ltac:(done)). lia.
Qed.

Lemma run_stage_rtc k ctx attestors ctx' :
  run_stage k ctx attestors = Ok ctx' → rtc stage_step (ctx, Ready <$> attestors) (ctx', []).
Proof.
  unfold run_stage. intros ([c ts] & H & ->)%res_fmap_ok.
  assert (ts = []) as -> by by eapply run_threads_done. by eapply run_threads_rtc.
Qed.
End exec.

(** ** The invariant of a stage *)

(** The attestor, as it is after its [Attest] ran in some context, and the error
    that call returned. *)
Definition attested_as (a0 a : A) (e : option error) : Prop :=
  ∃ ctx, out_attestor (Attest a0 ctx) = a ∧
    match e with None => out_error (Attest a0 ctx) = nil_error | Some e => out_error (Attest a0 ctx) = Err e end.

(** The thread of attestor [a0], before it has completed. *)
Definition pending_as (a0 : A) (t : thread A) : Prop :=
  match t with
  | Ready a | Started a _ => a = a0
  | Attested a _ e => attested_as a0 a e
  | _ => False
  end.
Definition is_pending (t : thread A) : bool :=
  match t with Ready _ | Started _ _ | Attested _ _ _ => true | _ => false end.
Definition pending ts : list (thread A) := filter (λ t, is_pending t = true) ts.

Definition completed_as (a0 : A) (c : CompletedAttestor A) : Prop :=
  attested_as a0 (comp_Attestor c) (comp_Error c).

(** Every attestor of the stage is either pending or has completed, once. *)
Definition accounted (atts : list A) (old : list (CompletedAttestor A)) ctx ts : Prop :=
  ∃ new D U, ctx_completed ctx = old ++ new ∧ Forall2 completed_as D new ∧
    Forall2 pending_as U (pending ts) ∧ D ++ U ≡ₚ atts.

Lemma pending_app ts1 ts2 : pending (ts1 ++ ts2) = pending ts1 ++ pending ts2.
Proof. apply filter_app. Qed.

Lemma pending_cons_true t ts : is_pending t = true → pending (t :: ts) = t :: pending ts.
Proof. intros H. unfold pending. by rw filter_cons_True. Qed.
Lemma pending_cons_false t ts : is_pending t = false → pending (t :: ts) = pending ts.
Proof. intros H. unfold pending. rw filter_cons_False; [done|]. by rw H. Qed.

(** A pending thread of a stage, replaced by another of the same attestor. *)
Lemma accounted_pending atts old ctx ctx' l1 t l2 t' :
  is_pending t = true → is_pending t' = true → (∀ a0, pending_as a0 t → pending_as a0 t') →
  ctx_completed ctx' = ctx_completed ctx →
  accounted atts old ctx (l1 ++ t :: l2) → accounted atts old ctx' (l1 ++ t' :: l2).
Proof.
  intros Ht Ht' Hp Hc (new & D & U & Hn & HD & HU & Hperm). exists new, D, U. rw Hc.
  split; [done|]. split; [done|]. split; [|done]. revert HU. rw !pending_app !pending_cons_true //.
  intros (U1 & U2 & HU1 & HU2 & ->)%Forall2_app_inv_r. apply Forall2_app; [done|].
  apply Forall2_cons_inv_r in HU2 as (a0 & U2' & Ha & HU2 & ->). constructor; [by apply Hp|done].
Qed.

Lemma accounted_other atts old ctx ctx' l1 t l2 ot :
  is_pending t = false → (∀ t', ot = Some t' → is_pending t' = false) →
  ctx_completed ctx' = ctx_completed ctx →
  accounted atts old ctx (l1 ++ t :: l2) → accounted atts old ctx' (l1 ++ option_list ot ++ l2).
Proof.
  intros Ht Hot Hc (new & D & U & Hn & HD & HU & Hperm). exists new, D, U. rw Hc.
  split; [done|]. split; [done|]. split; [|done]. revert HU. rw !pending_app pending_cons_false //.
  by destruct ot as [t'|]; simpl; [rw pending_cons_false; [|by apply Hot]|].
Qed.

Lemma accounted_complete atts old ctx l1 a s e now l2 ot :
  (∀ t', ot = Some t' → is_pending t' = false) →
  accounted atts old ctx (l1 ++ Attested a s e :: l2) →
  accounted atts old (add_completed ctx (mkCompletedAttestor a s now e)) (l1 ++ option_list ot ++ l2).
Proof.
  intros Hot (new & D & U & Hn & HD & HU & Hperm). revert HU. rw pending_app pending_cons_true //.
  intros (U1 & U2 & HU1 & HU2 & ->)%Forall2_app_inv_r.
  apply Forall2_cons_inv_r in HU2 as (a0 & U2' & Ha & HU2 & ->).
  exists (new ++ [mkCompletedAttestor a s now e]), (D ++ [a0]), (U1 ++ U2'). split; [|split; [|split]].
  - cbn [ctx_completed add_completed]. by rw Hn assoc_L.
  - apply Forall2_app; [done|]. by repeat constructor.
  - rw !pending_app. apply Forall2_app; [done|]. destruct ot as [t'|]; simpl; [|done].
    rw pending_cons_false; [|by apply Hot]. done.
  - rw -Hperm -!assoc_L. apply Permutation_app_head. simpl. by apply Permutation_middle.
Qed.

Lemma stage_step_accounted atts old c c' :
  stage_step c c' → accounted atts old c.1 c.2 → accounted atts old c'.1 c'.2.
Proof.
  intros [now ctx l1 t l2 ctx' t' Ht]. cbn [fst snd]. destruct t as [a|a s|a s e|a|a]; simpl in Ht.
  - simplify_eq. apply accounted_pending; try done.
  - destruct (out_error (Attest a ctx)) as [[]| |] eqn:He; simplify_eq.
    all: apply accounted_pending; try done; intros a0 Ha; cbn in Ha; subst a0; by exists ctx.
  - simplify_eq. apply accounted_complete. by destruct e; intros; simplify_eq.
  - simplify_eq. apply accounted_other; [done| |by destruct (Materialer_Materials a)]. by intros ? [= <-].
  - simplify_eq. apply accounted_other; [done|done|by destruct (Producer_Products a)].
Qed.

Lemma accounted_init atts ctx : accounted atts (ctx_completed ctx) ctx (Ready <$> atts).
Proof.
  exists [], [], atts. rw right_id_L. split; [done|]. split; [constructor|]. split; [|done].
  induction atts as [|a atts IH]; [constructor|]. rw fmap_cons pending_cons_true //. by constructor.
Qed.

(** ** What completed attestors publish *)

(** The materials of the attestors that completed without an error, and nothing
    else, are in the context. *)
Definition published (old : list (CompletedAttestor A)) (mats0 : gmap string DigestSet)
    (prods0 : gmap string Product) ctx ts : Prop :=
  ∃ new, ctx_completed ctx = old ++ new ∧
  (∀ c, c ∈ new → comp_Error c = None →
     AddMaterials (comp_Attestor c) ∈ ts ∨
     ((∀ m path, Materialer_Materials (comp_Attestor c) = Some m → is_Some (m !! path) →
         is_Some (ctx_materials ctx !! path)) ∧
      (AddProducts (comp_Attestor c) ∈ ts ∨
       ∀ m path, Producer_Products (comp_Attestor c) = Some m → is_Some (m !! path) →
         is_Some (ctx_products ctx !! path)))) ∧
  (∀ a, AddMaterials a ∈ ts ∨ AddProducts a ∈ ts → ∃ c, c ∈ new ∧ comp_Error c = None ∧ comp_Attestor c = a) ∧
  (∀ path d, ctx_materials ctx !! path = Some d → mats0 !! path = Some d ∨
     ∃ c m, c ∈ new ∧ comp_Error c = None ∧ Materialer_Materials (comp_Attestor c) = Some m ∧ m !! path = Some d) ∧
  (∀ path d, ctx_products ctx !! path = Some d → prods0 !! path = Some d ∨
     ∃ c m, c ∈ new ∧ comp_Error c = None ∧ Producer_Products (comp_Attestor c) = Some m ∧ m !! path = Some d).

Lemma addMaterials_lookup ctx m path d :
  ctx_materials (addMaterials ctx m) !! path = Some d ↔
  m !! path = Some d ∨ (m !! path = None ∧ ctx_materials ctx !! path = Some d).
Proof. cbn. rw copy_into_id map_fmap_id lookup_union_Some_raw. done. Qed.

Lemma addProducts_lookup ctx m path d :
  ctx_products (addProducts ctx m) !! path = Some d ↔
  m !! path = Some d ∨ (m !! path = None ∧ ctx_products ctx !! path = Some d).
Proof. cbn. rw copy_into_id map_fmap_id lookup_union_Some_raw. done. Qed.

Lemma addMaterials_is_Some ctx m path :
  is_Some (ctx_materials (addMaterials ctx m) !! path) ↔ is_Some (m !! path) ∨ is_Some (ctx_materials ctx !! path).
Proof. cbn. rw copy_into_id map_fmap_id lookup_union_is_Some. done. Qed.

Lemma addProducts_is_Some ctx m path :
  is_Some (ctx_products (addProducts ctx m) !! path) ↔ is_Some (m !! path) ∨ is_Some (ctx_products ctx !! path).
Proof. cbn. rw copy_into_id map_fmap_id lookup_union_is_Some. done. Qed.

(** What a completed attestor still has to publish, and what is published. *)
Definition materials_in (c : CompletedAttestor A) ctx : Prop :=
  ∀ m path, Materialer_Materials (comp_Attestor c) = Some m → is_Some (m !! path) →
    is_Some (ctx_materials ctx !! path).
Definition products_in (c : CompletedAttestor A) ctx : Prop :=
  ∀ m path, Producer_Products (comp_Attestor c) = Some m → is_Some (m !! path) →
    is_Some (ctx_products ctx !! path).

Lemma published_same old mats0 prods0 ctx ctx' ts ts' :
  ctx_completed ctx' = ctx_completed ctx → ctx_materials ctx' = ctx_materials ctx →
  ctx_products ctx' = ctx_products ctx →
  (∀ a, AddMaterials a ∈ ts' ↔ AddMaterials a ∈ ts) → (∀ a, AddProducts a ∈ ts' ↔ AddProducts a ∈ ts) →
  published old mats0 prods0 ctx ts → published old mats0 prods0 ctx' ts'.
Proof.
  intros Hc Hm Hp Hts1 Hts2 (new & Hn & H1 & H2 & H3 & H4). exists new. rw Hc Hm Hp.
  setoid_rewrite Hts1. setoid_rewrite Hts2. done.
Qed.

Lemma published_complete old mats0 prods0 ctx ts ts' a s e now :
  (∀ b, AddMaterials b ∈ ts' ↔ AddMaterials b ∈ ts ∨ (e = None ∧ b = a)) →
  (∀ b, AddProducts b ∈ ts' ↔ AddProducts b ∈ ts) →
  published old mats0 prods0 ctx ts →
  published old mats0 prods0 (add_completed ctx (mkCompletedAttestor a s now e)) ts'.
Proof.
  intros HM HP (new & Hn & H1 & H2 & H3 & H4). set (c0 := mkCompletedAttestor a s now e).
  assert (Hnew : ∀ c, c ∈ new ++ [c0] ↔ c ∈ new ∨ c = c0) by (intros; by rw elem_of_app list_elem_of_singleton).
  exists (new ++ [c0]). cbn [ctx_completed ctx_materials ctx_products add_completed].
  setoid_rewrite Hnew. setoid_rewrite HM. setoid_rewrite HP.
  split; [by rw Hn assoc_L|]. split; [|split; [|split]].
  - intros c [Hc| ->] He; [destruct (H1 c Hc He) as [?|?]; tauto|]. left. right. done.
  - intros b [[?|[-> ->]]|?]; [|by exists c0; split_and!; [right|..]|];
      (destruct (H2 b) as (c & ? & ? & ?); [tauto|]; exists c; split_and!; by auto).
  - intros path d Hd. destruct (H3 path d Hd) as [?|(c & m & ? & ? & ? & ?)]; [by left|right].
    exists c, m. split_and!; by auto.
  - intros path d Hd. destruct (H4 path d Hd) as [?|(c & m & ? & ? & ? & ?)]; [by left|right].
    exists c, m. split_and!; by auto.
Qed.

Lemma published_materials old mats0 prods0 ctx ts ts' a :
  AddMaterials a ∈ ts →
  (∀ b, AddMaterials b ∈ ts → AddMaterials b ∈ ts' ∨ b = a) →
  (∀ b, AddMaterials b ∈ ts' → AddMaterials b ∈ ts) →
  (∀ b, AddProducts b ∈ ts' ↔ AddProducts b ∈ ts ∨ b = a) →
  published old mats0 prods0 ctx ts →
  published old mats0 prods0
    (match Materialer_Materials a with Some m => addMaterials ctx m | None => ctx end) ts'.
Proof.
  intros Ha HM1 HM2 HP (new & Hn & H1 & H2 & H3 & H4).
  set (ctx' := match Materialer_Materials a with Some m => addMaterials ctx m | None => ctx end).
  assert (Hc' : ctx_completed ctx' = ctx_completed ctx ∧ ctx_products ctx' = ctx_products ctx)
    by (subst ctx'; by destruct (Materialer_Materials a)).
  assert (Hin : ∀ c, comp_Attestor c = a ∨ materials_in c ctx → materials_in c ctx').
  { subst ctx'. intros c Hcase m path Hm Hp. destruct (Materialer_Materials a) as [m'|] eqn:Hma.
    - apply addMaterials_is_Some. destruct Hcase as [<-|Hcase]; [left; congruence|right; by eapply Hcase].
    - destruct Hcase as [<-|Hcase]; [congruence|by eapply Hcase]. }
  destruct Hc' as [Hcc Hcp]. exists new. rw Hcc Hcp. setoid_rewrite HP.
  split; [done|]. split; [|split; [|split]].
  - intros c Hc He. destruct (H1 c Hc He) as [Hm|[Hm Hp]].
    + apply HM1 in Hm as [?|Heq]; [by left|]. right. split; [apply Hin; by left|]. left. by right.
    + right. split; [apply Hin; by right|]. destruct Hp; tauto.
  - intros b [?%HM2|[?| ->]]; apply H2; tauto.
  - intros path d Hd. subst ctx'. destruct (Materialer_Materials a) as [m|] eqn:Hma; [|by apply H3].
    apply addMaterials_lookup in Hd as [Hd|[_ Hd]]; [|by apply H3]. right.
    destruct (H2 a (or_introl Ha)) as (c & ? & ? & <-). by exists c, m.
  - done.
Qed.

Lemma published_products old mats0 prods0 ctx ts ts' a :
  AddProducts a ∈ ts →
  (∀ b, AddProducts b ∈ ts → AddProducts b ∈ ts' ∨ b = a) →
  (∀ b, AddProducts b ∈ ts' → AddProducts b ∈ ts) →
  (∀ b, AddMaterials b ∈ ts' ↔ AddMaterials b ∈ ts) →
  published old mats0 prods0 ctx ts →
  published old mats0 prods0
    (match Producer_Products a with Some m => addProducts ctx m | None => ctx end) ts'.
Proof.
  intros Ha HP1 HP2 HM (new & Hn & H1 & H2 & H3 & H4).
  set (ctx' := match Producer_Products a with Some m => addProducts ctx m | None => ctx end).
  assert (Hc' : ctx_completed ctx' = ctx_completed ctx ∧ ctx_materials ctx' = ctx_materials ctx)
    by (subst ctx'; by destruct (Producer_Products a)).
  assert (Hin : ∀ c, comp_Attestor c = a ∨ products_in c ctx → products_in c ctx').
  { subst ctx'. intros c Hcase m path Hm Hp. destruct (Producer_Products a) as [m'|] eqn:Hma.
    - apply addProducts_is_Some. destruct Hcase as [<-|Hcase]; [left; congruence|right; by eapply Hcase].
    - destruct Hcase as [<-|Hcase]; [congruence|by eapply Hcase]. }
  destruct Hc' as [Hcc Hcm]. exists new. rw Hcc Hcm. setoid_rewrite HM.
  split; [done|]. split; [|split; [|split]].
  - intros c Hc He. destruct (H1 c Hc He) as [Hm|[Hm Hp]]; [by left|right]. split; [done|].
    destruct Hp as [Hp|Hp]; [|right; apply Hin; by right].
    apply HP1 in Hp as [?|Heq]; [by left|]. right. apply Hin. by left.
  - intros b [?|?%HP2]; apply H2; tauto.
  - done.
  - intros path d Hd. subst ctx'. destruct (Producer_Products a) as [m|] eqn:Hma; [|by apply H4].
    apply addProducts_lookup in Hd as [Hd|[_ Hd]]; [|by apply H4]. right.
    destruct (H2 a (or_intror Ha)) as (c & ? & ? & <-). by exists c, m.
Qed.

Lemma stage_step_published old mats0 prods0 c c' :
  stage_step c c' → published old mats0 prods0 c.1 c.2 → published old mats0 prods0 c'.1 c'.2.
Proof.
  intros [now ctx l1 t l2 ctx' t' Ht]. cbn [fst snd].
  assert (Hl : ∀ x y, x ∈ l1 ++ y :: l2 ↔ x ∈ l1 ++ l2 ∨ x = y) by (intros; set_solver).
  assert (Hl0 : ∀ x, x ∈ l1 ++ option_list None ++ l2 ↔ x ∈ l1 ++ l2) by (intros; set_solver).
  destruct t as [a|a s|a s e|a|a]; simpl in Ht.
  - simplify_eq. apply published_same; try done; intros b; simpl; rw !Hl; naive_solver.
  - destruct (out_error (Attest a ctx)) as [[]| |] eqn:He; simplify_eq.
    all: apply published_same; try done; intros b; simpl; rw !Hl; naive_solver.
  - simplify_eq. apply published_complete; intros b; rw Hl; destruct e; simpl; rw ?Hl; naive_solver.
  - simplify_eq. apply published_materials; [rw Hl; by right|..]; intros b; simpl; rw !Hl; naive_solver.
  - simplify_eq. apply published_products; [rw Hl; by right|..]; intros b; simpl; rw !Hl; naive_solver.
Qed.

Lemma published_init atts ctx :
  published (ctx_completed ctx) (ctx_materials ctx) (ctx_products ctx) ctx (Ready <$> atts).
Proof.
  exists []. split; [by rw app_nil_r|]. split; [by intros ? ?%not_elem_of_nil|]. split; [|by split; auto].
  intros a [(? & ? & _)%list_elem_of_fmap|(? & ? & _)%list_elem_of_fmap]; done.
Qed.

(** ** A stage that ran to its end *)

(** What one stage did to the context, whatever the interleaving: every attestor
    completed exactly once, with what its [Attest] returned; the materials and
    products of those without an error are in the context, and every new entry
    is one of theirs. *)
Definition stage_done (atts : list A) ctx ctx' : Prop :=
  ∃ new, ctx_completed ctx' = ctx_completed ctx ++ new ∧
  (∃ D, Forall2 completed_as D new ∧ D ≡ₚ atts) ∧
  (∀ c, c ∈ new → comp_Error c = None → materials_in c ctx' ∧ products_in c ctx') ∧
  (∀ path d, ctx_materials ctx' !! path = Some d → ctx_materials ctx !! path = Some d ∨
     ∃ c m, c ∈ new ∧ comp_Error c = None ∧ Materialer_Materials (comp_Attestor c) = Some m ∧ m !! path = Some d) ∧
  (∀ path d, ctx_products ctx' !! path = Some d → ctx_products ctx !! path = Some d ∨
     ∃ c m, c ∈ new ∧ comp_Error c = None ∧ Producer_Products (comp_Attestor c) = Some m ∧ m !! path = Some d).

Lemma rtc_stage_inv (P : AttestationContext A → list (thread A) → Prop) c c' :
  (∀ c c', stage_step c c' → P c.1 c.2 → P c'.1 c'.2) → rtc stage_step c c' → P c.1 c.2 → P c'.1 c'.2.
Proof. intros Hstep Hr. induction Hr as [|c1 c2 c3 Hs _ IH]; [done|]. intros HP. by eapply IH, Hstep. Qed.

Lemma stage_run_done atts ctx ctx' :
  rtc stage_step (ctx, Ready <$> atts) (ctx', []) → stage_done atts ctx ctx'.
Proof.
  intros Hr.
  pose proof (rtc_stage_inv (accounted atts (ctx_completed ctx)) _ _ (stage_step_accounted _ _) Hr
    (accounted_init atts ctx)) as (new & D & U & Hn & HD & HU & Hperm).
  pose proof (rtc_stage_inv (published (ctx_completed ctx) (ctx_materials ctx) (ctx_products ctx)) _ _
    (stage_step_published _ _ _) Hr (published_init atts ctx)) as (new' & Hn' & H1 & _ & H3 & H4).
  cbn [fst snd] in *. assert (new' = new) as -> by (apply (inj (app (ctx_completed ctx))); congruence).
  exists new. split; [done|]. split; [|split; [|by split]].
  - exists D. split; [done|]. apply Forall2_nil_inv_r in HU as ->. by rw right_id_L in Hperm.
  - intros c Hc He. destruct (H1 c Hc He) as [?%not_elem_of_nil|[? [?%not_elem_of_nil|?]]]; done.
Qed.

(** ** RunAttestors *)

(** The attestors of one run type, in their order. *)
Definition of_run_type (attestors : list A) (rt : string) : list A :=
  filter (λ a, Attestor_RunType a = rt) attestors.

Lemma group_attestors_spec attestors groups :
  group_attestors attestors = Ok groups →
  (∀ rt, default [] (groups !! rt) = of_run_type attestors rt) ∧
  (∀ rt, is_Some (groups !! rt) ↔ ∃ a, a ∈ attestors ∧ Attestor_RunType a = rt) ∧
  (∀ a, a ∈ attestors → Attestor_RunType a ≠ "").
Proof.
  unfold group_attestors, of_run_type. revert groups. induction attestors as [|a l IH] using rev_ind; intros groups.
  { intros [= <-]. split; [done|]. split; [|by intros ? ?%not_elem_of_nil].
    intros rt. rw lookup_empty. split; [by intros []|by intros (? & ?%not_elem_of_nil & _)]. }
  rw range_res_app. intros (g & Hg & H)%res_bind_ok. destruct (IH _ Hg) as (IH1 & IH2 & IH3). cbn [range_res] in H.
  apply res_bind_ok in H as (g' & H & Heq). simplify_eq. cbv zeta in H. case_bool_decide as Hrt; simplify_eq.
  assert (Hfa : ∀ rt, filter (λ a, Attestor_RunType a = rt) [a] = if decide (Attestor_RunType a = rt) then [a] else []).
  { intros rt. rw filter_cons filter_nil. done. }
  split; [|split].
  - intros rt. rw filter_app Hfa. destruct (decide (Attestor_RunType a = rt)) as [<-|Hne].
    + by rw lookup_insert_eq /= IH1.
    + by rw lookup_insert_ne // right_id_L.
  - intros rt. rw lookup_insert_is_Some IH2. setoid_rewrite elem_of_app. setoid_rewrite list_elem_of_singleton. split.
    + intros [<-|[_ (b & ? & ?)]]; [by exists a; split; [right|]|exists b; split; [by left|done]].
    + intros (b & [?| ->] & Hb); [|by left].
      destruct (decide (Attestor_RunType a = rt)); [by left|right]. split; [done|]. by exists b.
  - intros b [?| ->%list_elem_of_singleton]%elem_of_app; [by apply IH3|done].
Qed.

Lemma group_attestors_total attestors :
  (∀ a, a ∈ attestors → Attestor_RunType a ≠ "") → ∃ groups, group_attestors attestors = Ok groups.
Proof.
  unfold group_attestors. generalize (∅ : gmap string (list A)).
  induction attestors as [|a l IH]; intros g Hrt; cbn [range_res]; [by eexists|]. cbv zeta.
  rw bool_decide_eq_false_2; [|apply Hrt; left]. cbn [mbind res_bind]. apply IH. intros b Hb. apply Hrt. by right.
Qed.

Lemma declare_hooks_fields ctx atts ctx' e :
  declare_hooks ctx atts = (ctx', e) →
  ctx_completed ctx' = ctx_completed ctx ∧ ctx_materials ctx' = ctx_materials ctx ∧
  ctx_products ctx' = ctx_products ctx.
Proof.
  revert ctx; induction atts as [|a atts IH]; intros ctx; cbn [declare_hooks]; [by intros [= <- _]|].
  destruct (DeclareHooks a) as [declare|]; [|apply IH].
  destruct (declare _) as [h [[]|e'|w]]; [apply (IH (set_hooks ctx h))|by intros [= <- _]..].
Qed.

Lemma declare_phase_of_fields stage ctx atts ctx' e :
  declare_phase_of stage ctx atts = (ctx', e) →
  ctx_completed ctx' = ctx_completed ctx ∧ ctx_materials ctx' = ctx_materials ctx ∧
  ctx_products ctx' = ctx_products ctx.
Proof.
  unfold declare_phase_of. case_bool_decide; [apply declare_hooks_fields|]. by intros [= <- _].
Qed.

(** What the stages appended, stage by stage. *)
Definition stages_completed (attestors : list A) (order : list string)
    (news : list (list (CompletedAttestor A))) : Prop :=
  Forall2 (λ stage new, ∃ D, Forall2 completed_as D new ∧ D ≡ₚ of_run_type attestors stage) order news.

Lemma run_stages_completed `{SC : Scheduler} `{CK : Clock} attestors groups order k ctx ctx' :
  (∀ rt, default [] (groups !! rt) = of_run_type attestors rt) →
  run_stages groups order k ctx = (ctx', nil_error) →
  ∃ news, ctx_completed ctx' = ctx_completed ctx ++ concat news ∧ stages_completed attestors order news.
Proof.
  intros Hg. revert k ctx; induction order as [|stage order IH]; intros k ctx; cbn [run_stages]; cbv zeta.
  { intros [= <-]. exists []. split; [by rw app_nil_r|constructor]. }
  destruct (declare_phase_of _ _ _) as [ctx1 [[]| |]] eqn:Hd; [|done..].
  destruct (run_stage _ _ _) as [ctx2| |] eqn:Hs; [|done..].
  intros (news & Hc & Hnews)%IH. apply declare_phase_of_fields in Hd as (Hd & _ & _).
  apply run_stage_rtc, stage_run_done in Hs as (new & Hn & HD & _).
  exists (new :: news). split.
  - by rw Hc Hn Hd -assoc_L.
  - constructor; [|done]. by rw -Hg.
Qed.

Lemma RunAttestors_completed `{SC : Scheduler} `{CK : Clock} ctx ctx' :
  RunAttestors ctx = (ctx', nil_error) →
  ∃ order news, ctx_completed ctx' = ctx_completed ctx ++ concat news ∧
    stages_completed (ctx_attestors ctx) order news ∧
    ((order = runTypeOrder ∧ ∀ a, a ∈ ctx_attestors ctx → Attestor_RunType a ≠ VerifyRunType) ∨
     (order = verifyTypeOrder ∧ ∀ a, a ∈ ctx_attestors ctx → Attestor_RunType a = VerifyRunType)).
Proof.
  unfold RunAttestors. destruct (group_attestors (ctx_attestors ctx)) as [groups| |] eqn:Hg; [|done..].
  destruct (stage_order groups) as [order| |] eqn:Ho; [|done..].
  apply group_attestors_spec in Hg as (Hg & Hdom & _). intros (news & Hc & Hn)%(run_stages_completed (ctx_attestors ctx)); [|done].
  exists order, news. split; [done|]. split; [done|]. unfold stage_order in Ho.
  destruct (groups !! VerifyRunType) as [vs|] eqn:Hv.
  - right. case_bool_decide as Hsz; [done|]. simplify_eq. split; [done|]. intros a Ha.
    assert (size groups ≤ 1) as Hle by lia. clear Hsz.
    destruct (proj2 (Hdom (Attestor_RunType a))) as [l Hl]; [by exists a|].
    apply dec_stable. intros Hne. rw -(insert_delete_id groups VerifyRunType vs) // in Hle.
    rw map_size_insert_None in Hle; [|by rw lookup_delete_eq].
    assert (size (delete VerifyRunType groups) = 0) as Hz by lia. apply map_size_empty_inv in Hz.
    assert (delete VerifyRunType groups !! Attestor_RunType a = Some l) as Hd by (by rw lookup_delete_ne).
    by rw Hz lookup_empty in Hd.
  - left. simplify_eq. split; [done|]. intros a Ha Hrt.
    destruct (proj2 (Hdom VerifyRunType)) as [l Hl]; [by exists a|]. congruence.
Qed.

(** Without a panicking attestor, a stage always runs to its end. *)
Definition safe_attestor (a : A) : Prop := ∀ ctx, no_panic (out_error (Attest a ctx)).
Definition safe_thread (t : thread A) : Prop :=
  match t with Ready a | Started a _ => safe_attestor a | _ => True end.

Lemma thread_step_safe now ctx t :
  safe_thread t → ∃ ctx' t', thread_step now ctx t = Ok (ctx', t') ∧ Forall safe_thread (option_list t').
Proof.
  intros Hs. destruct t as [a|a s|a s e|a|a]; simpl.
  - do 2 eexists. split; [done|]. by repeat constructor.
  - specialize (Hs ctx). destruct (out_error (Attest a ctx)) as [[]| |w]; [..|by destruct (Hs w)];
      (do 2 eexists; split; [done|]; by repeat constructor).
  - do 2 eexists. split; [done|]. destruct e; by repeat constructor.
  - do 2 eexists. split; [done|]. by repeat constructor.
  - do 2 eexists. split; [done|]. constructor.
Qed.

Lemma run_threads_total `{SC : Scheduler} `{CK : Clock} n k ctx ts :
  Forall safe_thread ts → ∃ r, run_threads n k ctx ts = Ok r.
Proof.
  revert k ctx ts; induction n as [|n IH]; intros k ctx ts Hs; cbn [run_threads]; [by eexists|]. cbv zeta.
  destruct (ts !! _) as [t|] eqn:Ht; [|by eexists].
  destruct (thread_step_safe (clock k) ctx t) as (ctx' & t' & -> & Hs').
  { by eapply Forall_lookup_1. }
  apply IH. cbn [snd]. apply Forall_app; split; [by apply Forall_take|].
  apply Forall_app; split; [done|by apply Forall_drop].
Qed.

Lemma run_stage_total `{SC : Scheduler} `{CK : Clock} k ctx attestors :
  Forall safe_attestor attestors → ∃ ctx', run_stage k ctx attestors = Ok ctx'.
Proof.
  intros Hs. unfold run_stage.
  destruct (run_threads_total (stage_steps (Ready <$> attestors)) k ctx (Ready <$> attestors)) as [r ->]; [|by eexists].
  by apply Forall_fmap.
Qed.
End run.
