(* ===== verification/CI.v ===== *)
(** attestation/jwt/jwt.go and the attestors of continuous integration services:
    attestation/gitlab/gitlab.go, attestation/github/github.go,
    attestation/jenkins/jenkins.go and attestation/aws-codebuild/aws-codebuild.go,
    one Module for each. *)
From S2P Require Import Prelude GoStrings GoText Errors Crypto Digest Registry Attestation Constraints Environment Hooks Context Host.
From stdpp Require Import options.

(** ** attestation/jwt/jwt.go: the attestor of a token, whose signature it verifies with
    the keys of a URL. go-jose is the class [JoseLib]. [Attest] returns the
    attestor also next to an error, with the fields that were set before it. *)
Abbreviation claims := (gmap string Json).

(** github.com/go-jose/go-jose: a parsed token, a key set, and the keys of it.
    [token_Claims] verifies the signature and decodes the payload over the claims
    that are already there. *)
Class JoseLib := {
  JSONWebToken : Type;
  JSONWebKey : Type;
  JSONWebKeySet : Type;
  jwt_ParseSigned : string → list string → res JSONWebToken;
  jwks_Decode : bytes → res JSONWebKeySet;
  token_KeyIDs : JSONWebToken → list string;
  token_Claims : JSONWebToken → JSONWebKeySet → claims → res claims;
  jwks_Key : JSONWebKeySet → string → list JSONWebKey;
}.

Module Jwt.

Definition Name : string := "jwt".
Definition Type_ : string := "https://witness.dev/attestations/jwt/v0.1".
Definition RunType : string := PreMaterialRunType.
Definition allowedJWTAlgorithms : list string :=
  ["RS256"; "RS384"; "RS512"; "PS256"; "PS384"; "PS512"; "ES256"; "ES384"; "ES512"; "EdDSA"].

Section jwt.
Context `{JL : JoseLib} `{HL : HttpLib} `{UL : UrlLib}.

Record VerificationInfo := mkVerificationInfo { JWKSUrl : string; JWK : JSONWebKey }.
(** The zero [VerificationInfo] is [None]. *)
Record Attestor := mkAttestor {
  Claims : claims;
  VerifiedBy : option VerificationInfo;
  jwksUrl : string;
  token : string;
}.

Definition Option := Attestor → Attestor.
Definition WithToken (t : string) : Option := λ a, mkAttestor (Claims a) (VerifiedBy a) (jwksUrl a) t.
Definition WithJWKSUrl (url : string) : Option := λ a, mkAttestor (Claims a) (VerifiedBy a) url (token a).
Definition New (opts : list Option) : Attestor := foldl (λ a opt, opt a) (mkAttestor ∅ None "" "") opts.

(** [http.Get]: the n-th request. *)
Definition http_Get (n : nat) (url : string) : res Response :=
  req ← NewRequest "GET" url [] "";
  http_Do false n req.

(** The first key id in the headers that is not empty. *)
Definition key_id (parsed : JSONWebToken) : string :=
  default "" (find (λ kid, bool_decide (kid ≠ "")) (token_KeyIDs parsed)).

(** The request for the keys is the n-th of the operation. *)
Definition Attest (n : nat) (a : Attestor) : Attestor * err :=
  if bool_decide (token a = "") then (a, Err (ErrInvalidToken (token a)))
  else
    let r :=
      parsed ← wrap "error parsing token" (jwt_ParseSigned (token a) allowedJWTAlgorithms);
      resp ← wrap "error fetching jwks" (http_Get n (jwksUrl a));
      jwks ← wrap "error decoding jwks" (body ← Body resp; jwks_Decode body);
      cs ← wrap "error parsing claims" (token_Claims parsed jwks (Claims a));
      let possibleJwk := jwks_Key jwks (key_id parsed) in
      Ok (mkAttestor cs
            (match possibleJwk with [] => VerifiedBy a | k :: _ => Some (mkVerificationInfo (jwksUrl a) k) end)
            (jwksUrl a) (token a)) in
    match r with
    | Ok a => (a, nil_error)
    | Err e => (a, Err e)
    | Panic w => (a, Panic w)
    end.
End jwt.
End Jwt.

(** ** What the attestors of CI systems share: their subjects are named values with
    their SHA-256, and the back reference is the subject of the pipeline
    ([Subjects] and [BackRefs] of attestation/gitlab, github, jenkins and
    aws-codebuild). *)
Section subjects.
Context `{CL : CryptoLib} `{GI : GitoidLib} `{RO : RangeOrder}.

(** [if ds, err := CalculateDigestSetFromBytes(...); err == nil { subjects[...] = ds }]
    with the SHA-256 of the value; an error is logged. *)
Definition add_subject (kind value : string) (subjects : gmap string DigestSet) : res (gmap string DigestSet) :=
  match CalculateDigestSetFromBytes value [mkDV SHA256 false false] with
  | Ok ds => Ok (<[kind +:+ ":" +:+ value := ds]> subjects)
  | Err _ => Ok subjects
  | Panic w => Panic w
  end.
Definition add_subjects (l : list (string * string)) : res (gmap string DigestSet) :=
  range_res (λ subjects kv, add_subject kv.1 kv.2 subjects) ∅ l.

(** The loop of [BackRefs]: the first subject whose name has the prefix. *)
Definition pipeline_backref (subjects : gmap string DigestSet) : gmap string DigestSet :=
  match find (λ kv, HasPrefix kv.1 "pipelineurl:") (range_map 10 subjects) with
  | Some (subj, ds) => {[subj := ds]}
  | None => ∅
  end.
End subjects.

(** ** attestation/gitlab/gitlab.go: the attestor of a GitLab job. [Attest] returns the
    attestor also next to an error, with the fields that were set before it. *)
Module GitLab.

Definition Name : string := "gitlab".
Definition Type_ : string := "https://witness.dev/attestations/gitlab/v0.1".
Definition RunType : string := PreMaterialRunType.

Section gitlab.
Context `{JL : JoseLib} `{HL : HttpLib} `{UL : UrlLib} `{PE : ProcessEnv}.
Context `{CL : CryptoLib} `{GI : GitoidLib} `{RO : RangeOrder}.

Record Attestor := mkAttestor {
  JWT : option Jwt.Attestor;
  CIConfigPath : string;
  JobID : string;
  JobImage : string;
  JobName : string;
  JobStage : string;
  JobUrl : string;
  PipelineID : string;
  PipelineUrl : string;
  ProjectID : string;
  ProjectUrl : string;
  RunnerID : string;
  CIHost : string;
  CIServerUrl : string;
  token : string;
  tokenEnvVar : string;
}.

Definition set_token (a : Attestor) (t envVar : string) : Attestor :=
  mkAttestor (JWT a) (CIConfigPath a) (JobID a) (JobImage a) (JobName a) (JobStage a) (JobUrl a) (PipelineID a)
    (PipelineUrl a) (ProjectID a) (ProjectUrl a) (RunnerID a) (CIHost a) (CIServerUrl a) t envVar.
Definition set_server (a : Attestor) (j : option Jwt.Attestor) (server : string) : Attestor :=
  mkAttestor j (CIConfigPath a) (JobID a) (JobImage a) (JobName a) (JobStage a) (JobUrl a) (PipelineID a)
    (PipelineUrl a) (ProjectID a) (ProjectUrl a) (RunnerID a) (CIHost a) server (token a) (tokenEnvVar a).

Definition Option := Attestor → Attestor.
Definition WithToken (t : string) : Option := λ a, set_token a t (tokenEnvVar a).
Definition WithTokenEnvVar (envVar : string) : Option := λ a, set_token a (token a) envVar.
Definition New (opts : list Option) : Attestor :=
  foldl (λ a opt, opt a) (mkAttestor None "" "" "" "" "" "" "" "" "" "" "" "" "" "" "") opts.

(** The token: the given one, that of the given variable, or GitLab's own. *)
Definition jwtString (a : Attestor) : string :=
  if bool_decide (token a ≠ "") then token a
  else if bool_decide (tokenEnvVar a ≠ "") then Getenv (tokenEnvVar a)
  else Getenv "CI_JOB_JWT".

(** The fields of the job's environment. *)
Definition set_job (a : Attestor) : Attestor :=
  mkAttestor (JWT a) (Getenv "CI_CONFIG_PATH") (Getenv "CI_JOB_ID") (Getenv "CI_JOB_IMAGE") (Getenv "CI_JOB_NAME")
    (Getenv "CI_JOB_STAGE") (Getenv "CI_JOB_URL") (Getenv "CI_PIPELINE_ID") (Getenv "CI_PIPELINE_URL")
    (Getenv "CI_PROJECT_ID") (Getenv "CI_PROJECT_URL") (Getenv "CI_RUNNER_ID") (Getenv "CI_SERVER_HOST")
    (CIServerUrl a) (token a) (tokenEnvVar a).

Definition Attest (a : Attestor) : Attestor * err :=
  if bool_decide (Getenv "GITLAB_CI" ≠ "true") then (a, Err ErrNotGitlab)
  else
    let a := set_server a (JWT a) (Getenv "CI_SERVER_URL") in
    let jwksUrl := CIServerUrl a +:+ "/oauth/discovery/keys" in
    let jwtString := jwtString a in
    if bool_decide (jwtString ≠ "") then
      let (j, e) := Jwt.Attest 0 (Jwt.New [Jwt.WithToken jwtString; Jwt.WithJWKSUrl jwksUrl]) in
      let a := set_server a (Some j) (CIServerUrl a) in
      match e with
      | Ok _ => (set_job a, nil_error)
      | Err e => (a, Err e)
      | Panic w => (a, Panic w)
      end
    else (set_job a, nil_error).

Definition Subjects (a : Attestor) : res (gmap string DigestSet) :=
  add_subjects [("pipelineurl", PipelineUrl a); ("joburl", JobUrl a); ("projecturl", ProjectUrl a)].
Definition BackRefs (a : Attestor) : res (gmap string DigestSet) := pipeline_backref <$> Subjects a.
End gitlab.
End GitLab.

(** ** attestation/github/github.go: the attestor of a GitHub workflow run. [Attest] returns the
    attestor also next to an error, with the fields that were set before it. *)
Module GitHub.

Definition Name : string := "github".
Definition Type_ : string := "https://witness.dev/attestations/github/v0.1".
Definition RunType : string := PreMaterialRunType.
Definition tokenAudience : string := "witness".
Definition jwksURL_ : string := "https://token.actions.githubusercontent.com/.well-known/jwks".

Section github.
Context `{JL : JoseLib} `{HL : HttpLib} `{UL : UrlLib} `{PE : ProcessEnv}.
Context `{CL : CryptoLib} `{GI : GitoidLib} `{RO : RangeOrder}.
(** [json.Unmarshal] into [GithubTokenResponse], of which [Value] is used. *)
Variable json_Unmarshal_Value : bytes → res string.

Record Attestor := mkAttestor {
  JWT : option Jwt.Attestor;
  CIConfigPath : string;
  PipelineID : string;
  PipelineName : string;
  PipelineUrl : string;
  ProjectUrl : string;
  RunnerID : string;
  CIHost : string;
  CIServerUrl : string;
  RunnerArch : string;
  RunnerOS : string;
  jwksURL : string;
  tokenURL : string;
  aud : string;
}.

Definition New : Attestor :=
  mkAttestor None "" "" "" "" "" "" "" "" "" "" jwksURL_ (Getenv "ACTIONS_ID_TOKEN_REQUEST_URL") tokenAudience.

(** The status of the answer is not looked at. *)
Definition fetchToken (tokenURL bearer audience : string) : res string :=
  u ← wrap "error on parsing token url" (url_Parse tokenURL);
  let reqURL := url_String (Query_Add u "audience" audience) in
  req ← wrap "error on creating request" (NewRequest "GET" reqURL [("Authorization", "bearer " +:+ bearer)] "");
  resp ← wrap "error on request" (http_Do false 0 req);
  body ← wrap "error on reading response body" (Body resp);
  wrap "error on unmarshaling token response" (json_Unmarshal_Value body).

Definition set_JWT (a : Attestor) (j : Jwt.Attestor) : Attestor :=
  mkAttestor (Some j) (CIConfigPath a) (PipelineID a) (PipelineName a) (PipelineUrl a) (ProjectUrl a) (RunnerID a)
    (CIHost a) (CIServerUrl a) (RunnerArch a) (RunnerOS a) (jwksURL a) (tokenURL a) (aud a).
Definition set_run (a : Attestor) : Attestor :=
  let server := Getenv "GITHUB_SERVER_URL" in
  let project := server +:+ "/" +:+ Getenv "GITHUB_REPOSITORY" in
  let pipeline := Getenv "GITHUB_RUN_ID" in
  mkAttestor (JWT a) (Getenv "GITHUB_ACTION_PATH") pipeline (Getenv "GITHUB_WORKFLOW")
    (project +:+ "/actions/runs/" +:+ pipeline) project (Getenv "RUNNER_NAME") (CIHost a) server
    (Getenv "RUNNER_ARCH") (Getenv "RUNNER_OS") (jwksURL a) (tokenURL a) (aud a).

Definition Attest (a : Attestor) : Attestor * err :=
  if bool_decide (Getenv "GITHUB_ACTIONS" ≠ "true") then (a, Err ErrNotGitHub)
  else
    match wrap "error on fetching token" (fetchToken (tokenURL a) (Getenv "ACTIONS_ID_TOKEN_REQUEST_TOKEN") "witness") with
    | Err e => (a, Err e)
    | Panic w => (a, Panic w)
    | Ok jwtString =>
        if bool_decide (jwtString = "") then (a, Err (Errorf "empty JWT string"))
        else
          let (j, e) := Jwt.Attest 1 (Jwt.New [Jwt.WithToken jwtString; Jwt.WithJWKSUrl (jwksURL a)]) in
          let a := set_JWT a j in
          match wrap "failed to attest github jwt" e with
          | Ok _ => (set_run a, nil_error)
          | Err e => (a, Err e)
          | Panic w => (a, Panic w)
          end
    end.

Definition Subjects (a : Attestor) : res (gmap string DigestSet) :=
  add_subjects [("pipelineurl", PipelineUrl a); ("projecturl", ProjectUrl a)].
Definition BackRefs (a : Attestor) : res (gmap string DigestSet) := pipeline_backref <$> Subjects a.
End github.
End GitHub.

(** ** attestation/jenkins/jenkins.go: the attestor of a Jenkins build. *)
Module Jenkins.

Definition Name : string := "jenkins".
Definition Type_ : string := "https://witness.dev/attestations/jenkins/v0.1".
Definition RunType : string := PreMaterialRunType.

Record Attestor := mkAttestor {
  BuildID : string;
  BuildNumber : string;
  BuildTag : string;
  PipelineUrl : string;
  ExecutorNumber : string;
  JavaHome : string;
  JenkinsUrl : string;
  JobName : string;
  NodeName : string;
  Workspace : string;
}.
Definition New : Attestor := mkAttestor "" "" "" "" "" "" "" "" "" "".

Section jenkins.
Context `{PE : ProcessEnv} `{CL : CryptoLib} `{GI : GitoidLib} `{RO : RangeOrder}.

Definition Attest (a : Attestor) : Attestor * err :=
  match LookupEnv "JENKINS_URL" with
  | None => (a, Err ErrNotJenkins)
  | Some _ =>
      (mkAttestor (Getenv "BUILD_ID") (Getenv "BUILD_NUMBER") (Getenv "BUILD_TAG") (Getenv "BUILD_URL")
         (Getenv "EXECUTOR_NUMBER") (Getenv "JAVA_HOME") (Getenv "JENKINS_URL") (Getenv "JOB_NAME")
         (Getenv "NODE_NAME") (Getenv "WORKSPACE"), nil_error)
  end.

Definition Subjects (a : Attestor) : res (gmap string DigestSet) :=
  add_subjects [("pipelineurl", PipelineUrl a); ("jenkinsurl", JenkinsUrl a)].
Definition BackRefs (a : Attestor) : res (gmap string DigestSet) := pipeline_backref <$> Subjects a.
End jenkins.
End Jenkins.

(** ** attestation/aws-codebuild/aws-codebuild.go: the attestor of an AWS CodeBuild build.
    The API is the class [CodeBuildApi]. [Attest] returns the
    attestor also next to an error, with the fields that were set before it. *)
(** The AWS configuration, and [BatchGetBuilds] for one build: its builds, with
    encoding/json on them. *)
Class CodeBuildApi := {
  AwsConfig : Type;
  zero_AwsConfig : AwsConfig;
  LoadDefaultConfig : res AwsConfig;
  set_Region : AwsConfig → string → AwsConfig;
  Build : Type;
  BatchGetBuilds : AwsConfig → list string → res (list Build);
  json_Marshal_Build : Build → res bytes;
}.

Module CodeBuild.

Definition Name : string := "aws-codebuild".
Definition Type_ : string := "https://witness.dev/attestations/aws-codebuild/v0.1".
Definition RunType : string := PreMaterialRunType.

Section codebuild.
Context `{PE : ProcessEnv} `{CL : CryptoLib} `{GI : GitoidLib} `{RO : RangeOrder} `{CB : CodeBuildApi}.

Record BuildInfo := mkBuildInfo {
  BuildID : string;
  BuildARN : string;
  BuildNumber : string;
  ProjectName : string;
  Initiator : string;
  SourceVersion : string;
  SourceRepo : string;
  BatchBuildID : string;
  WebhookEvent : string;
  WebhookHeadRef : string;
  WebhookActorID : string;
  Region : string;
  BuildDetails : option Build;
}.
Definition zero_BuildInfo : BuildInfo := mkBuildInfo "" "" "" "" "" "" "" "" "" "" "" "" None.
Definition set_details (b : BuildInfo) (d : Build) : BuildInfo :=
  mkBuildInfo (BuildID b) (BuildARN b) (BuildNumber b) (ProjectName b) (Initiator b) (SourceVersion b) (SourceRepo b)
    (BatchBuildID b) (WebhookEvent b) (WebhookHeadRef b) (WebhookActorID b) (Region b) (Some d).

Record Attestor := mkAttestor {
  hashes : list DigestValue;
  awsConfig : AwsConfig;
  Info : BuildInfo;
  RawBuildDetails : string;
}.

Definition New : Attestor :=
  match LoadDefaultConfig with
  | Ok cfg =>
      let region := Getenv "AWS_REGION" in
      mkAttestor [] (if bool_decide (region ≠ "") then set_Region cfg region else cfg) zero_BuildInfo ""
  | _ => mkAttestor [] zero_AwsConfig zero_BuildInfo ""
  end.

(** The details stay when they cannot be encoded. *)
Definition getBuildDetails (a : Attestor) : Attestor * err :=
  match SplitByte (BuildID (Info a)) ":" with
  | [_; buildID] =>
      match wrap "failed to get build details" (BatchGetBuilds (awsConfig a) [buildID]) with
      | Err e => (a, Err e)
      | Panic w => (a, Panic w)
      | Ok [] => (a, Err (Errorf ("no build found with ID: " +:+ buildID)))
      | Ok (build :: _) =>
          let a := mkAttestor (hashes a) (awsConfig a) (set_details (Info a) build) (RawBuildDetails a) in
          match wrap "failed to marshal build details" (json_Marshal_Build build) with
          | Err e => (a, Err e)
          | Panic w => (a, Panic w)
          | Ok rawDetails => (mkAttestor (hashes a) (awsConfig a) (Info a) rawDetails, nil_error)
          end
      end
  | _ => (a, Err (Errorf ("invalid CODEBUILD_BUILD_ID format: " +:+ BuildID (Info a))))
  end.

(** The error of [getBuildDetails] is logged. *)
Definition Attest (ctx_Hashes : list DigestValue) (a : Attestor) : Attestor * err :=
  let a := mkAttestor ctx_Hashes (awsConfig a) (Info a) (RawBuildDetails a) in
  let buildID := Getenv "CODEBUILD_BUILD_ID" in
  if bool_decide (buildID = "")
  then (a, Err (Errorf "not running in AWS CodeBuild environment, CODEBUILD_BUILD_ID not found"))
  else
    let info := mkBuildInfo buildID (Getenv "CODEBUILD_BUILD_ARN") (Getenv "CODEBUILD_BUILD_NUMBER")
      (Getenv "CODEBUILD_PROJECT_NAME") (Getenv "CODEBUILD_INITIATOR") (Getenv "CODEBUILD_RESOLVED_SOURCE_VERSION")
      (Getenv "CODEBUILD_SOURCE_REPO_URL") (Getenv "CODEBUILD_BATCH_BUILD_IDENTIFIER")
      (Getenv "CODEBUILD_WEBHOOK_EVENT") (Getenv "CODEBUILD_WEBHOOK_HEAD_REF")
      (Getenv "CODEBUILD_WEBHOOK_ACTOR_ACCOUNT_ID") (Getenv "AWS_REGION") (BuildDetails (Info a)) in
    match getBuildDetails (mkAttestor (hashes a) (awsConfig a) info (RawBuildDetails a)) with
    | (a, Panic w) => (a, Panic w)
    | (a, _) => (a, nil_error)
    end.

Definition Subjects (a : Attestor) : res (gmap string DigestSet) :=
  add_subjects (filter (λ kv, kv.2 ≠ "")
    [("codebuild-build-id", BuildID (Info a)); ("codebuild-project", ProjectName (Info a));
     ("codebuild-source-version", SourceVersion (Info a))]).
Definition BackRefs (a : Attestor) : res (gmap string DigestSet) := Subjects a.
End codebuild.
End CodeBuild.
