(* ===== verification/CITheorems.v ===== *)
(** The attestors of tokens and CI systems (CI.v): a token that is attested was
    signed by the key it is recorded with, and the back references of a run are
    its pipeline. The instances of the classes of Host.v and CI.v that the examples use
    come first: URLs are strings, with the user before an at sign; a token is
    [kid|subject], signed by the key of that name; a key set is a list of names. *)
From S2P Require Import Prelude GoStrings GoText Errors Crypto Digest Toy Registry Attestation Constraints Environment Hooks Context Host CI.
From stdpp Require Import options.

#[export] Instance toy_url : UrlLib := {|
  URL := string; url_Parse u := if Contains u " " then Err (External "parse") else Ok u; url_String u := u;
  url_Scheme _ := "https"; url_Host _ := "fulcio"; url_Hostname _ := "fulcio"; url_Port _ := "";
  url_no_User u := match cut_byte "@" u with (_, Some rest) => rest | (u, None) => u end;
  Query_Get _ _ := ""; Query_Add u k v := u +:+ "?" +:+ k +:+ "=" +:+ v |}.

Definition toy_token (t : string) : string * string := ((cut_byte "|" t).1, default "" (cut_byte "|" t).2).
#[export] Instance toy_jose : JoseLib := {|
  JSONWebToken := string * string;
  JSONWebKey := string;
  JSONWebKeySet := list string;
  jwt_ParseSigned t _ := Ok (toy_token t);
  jwks_Decode body := Ok (SplitByte body ",");
  token_KeyIDs t := [t.1];
  token_Claims t jwks c :=
    if bool_decide (t.1 ∈ jwks) then Ok (<["sub" := JString t.2]> c) else Err (External "no key for the token");
  jwks_Key jwks kid := filter (λ k, k = kid) jwks;
|}.

#[local] Unset Default Proof Using.

(** go-jose verifies a token of a key set with the first key of the token's id, and
    decodes the signed payload over the claims that are there. *)
Class JoseLaws `{JL : JoseLib} := {
  token_signed : JSONWebToken → JSONWebKey → claims → Prop;
  Claims_verified parsed jwks cs :
    token_Claims parsed jwks ∅ = Ok cs →
    ∃ key rest, jwks_Key jwks (Jwt.key_id parsed) = key :: rest ∧ token_signed parsed key cs;
}.

Section tokens.
Context `{JL : JoseLib} {LAWS : JoseLaws} `{HL : HttpLib} `{UL : UrlLib} `{PE : ProcessEnv}.

(** The attestor vouches for the token: the keys are the answer of [url] to the n-th
    request, and the one recorded signed the claims. *)
Definition vouches (n : nat) (token url : string) (j : Jwt.Attestor) : Prop :=
  token ≠ "" ∧ ∃ parsed resp body jwks key,
    jwt_ParseSigned token Jwt.allowedJWTAlgorithms = Ok parsed ∧
    Jwt.http_Get n url = Ok resp ∧ Body resp = Ok body ∧ jwks_Decode body = Ok jwks ∧
    key ∈ jwks_Key jwks (Jwt.key_id parsed) ∧ token_signed parsed key (Jwt.Claims j) ∧
    Jwt.VerifiedBy j = Some (Jwt.mkVerificationInfo url key).

Lemma Jwt_Attest_vouches n token url j :
  Jwt.Attest n (Jwt.New [Jwt.WithToken token; Jwt.WithJWKSUrl url]) = (j, nil_error) → vouches n token url j.
Proof.
  unfold Jwt.Attest, Jwt.New. cbn [foldl Jwt.WithToken Jwt.WithJWKSUrl Jwt.token Jwt.jwksUrl Jwt.Claims Jwt.VerifiedBy].
  case_bool_decide as Ht; [done|]. intros H. split; [done|].
  match type of H with (match ?m with _ => _ end = _) => destruct m as [a|e|w] eqn:Hm end; try done.
  injection H as ->. apply res_bind_ok in Hm as (parsed & Hp%wrap_ok & Hm).
  apply res_bind_ok in Hm as (resp & Hr%wrap_ok & Hm). apply res_bind_ok in Hm as (jwks & Hk%wrap_ok & Hm).
  apply res_bind_ok in Hk as (body & Hb & Hk). apply res_bind_ok in Hm as (cs & Hc%wrap_ok & [= <-]).
  destruct (Claims_verified _ _ _ Hc) as (key & rest & Hkey & Hs).
  exists parsed, resp, body, jwks, key. rw Hkey. split_and!; try done. left.
Qed.

(** C36: A successful run of the GitHub attestor has asked the endpoint of the job for
    a token for the audience witness, with the job's own secret, and vouches for
    that token with a key that GitHub publishes. *)
Theorem GitHub_Attest_sound json_Value a :
  GitHub.Attest json_Value GitHub.New = (a, nil_error) →
  Getenv "GITHUB_ACTIONS" = "true" ∧
  ∃ token u resp body j,
    url_Parse (Getenv "ACTIONS_ID_TOKEN_REQUEST_URL") = Ok u ∧
    http_Do false 0 (mkRequest "GET" (url_String (Query_Add u "audience" "witness"))
      [("Authorization", "bearer " +:+ Getenv "ACTIONS_ID_TOKEN_REQUEST_TOKEN")] "") = Ok resp ∧
    Body resp = Ok body ∧ json_Value body = Ok token ∧
    GitHub.JWT a = Some j ∧
    vouches 1 token "https://token.actions.githubusercontent.com/.well-known/jwks" j.
Proof.
  unfold GitHub.Attest. case_bool_decide as Hg; [done|]. intros H. split; [by destruct (decide (Getenv "GITHUB_ACTIONS" = "true"))|].
  destruct (wrap _ (GitHub.fetchToken _ _ _ _)) as [token|e|w] eqn:Hf; try done.
  apply wrap_ok in Hf. case_bool_decide as Ht; [done|].
  destruct (Jwt.Attest 1 _) as [j [[]|e|w]] eqn:Hj; cbn in H; try done. injection H as <-.
  unfold GitHub.fetchToken in Hf.
  apply res_bind_ok in Hf as (u & Hu%wrap_ok & Hf). apply res_bind_ok in Hf as (req & Hq%wrap_ok & Hf).
  apply res_bind_ok in Hq as (u' & _ & [= <-]). apply res_bind_ok in Hf as (resp & Hr%wrap_ok & Hf).
  apply res_bind_ok in Hf as (body & Hb%wrap_ok & Hv%wrap_ok).
  exists token, u, resp, body, j. split_and!; try done. by apply Jwt_Attest_vouches.
Qed.

(** A successful run of the GitLab attestor vouches for the job's token, when
    there is one, with a key of the GitLab server that the environment names, and
    it is silent about tokens when there is none. *)
Theorem GitLab_Attest_sound opts a :
  GitLab.JWT (GitLab.New opts) = None →
  GitLab.Attest (GitLab.New opts) = (a, nil_error) →
  Getenv "GITLAB_CI" = "true" ∧ GitLab.CIServerUrl a = Getenv "CI_SERVER_URL" ∧
  let token := GitLab.jwtString (GitLab.New opts) in
  if bool_decide (token = "") then GitLab.JWT a = None
  else ∃ j, GitLab.JWT a = Some j ∧ vouches 0 token (Getenv "CI_SERVER_URL" +:+ "/oauth/discovery/keys") j.
Proof.
  generalize (GitLab.New opts). intros a0 H0 H. unfold GitLab.Attest in H. case_bool_decide as Hg; [done|].
  split; [by destruct (decide (Getenv "GITLAB_CI" = "true"))|]. cbv zeta in H |- *. change (GitLab.jwtString (GitLab.set_server a0 _ _)) with (GitLab.jwtString a0) in H.
  cbn [GitLab.CIServerUrl GitLab.set_server] in H.
  case_bool_decide as Ht.
  - destruct (Jwt.Attest 0 _) as [j [[]|e|w]] eqn:Hj; try done. injection H as <-. split; [done|].
    rw (bool_decide_eq_false_2 _ Ht). eexists. split; [done|]. by apply Jwt_Attest_vouches.
  - injection H as <-. split; [done|]. rw bool_decide_eq_true_2; [done|]. by destruct (decide (GitLab.jwtString a0 = "")).
Qed.
End tokens.

(** * Subjects *)

Section subjects.
Context `{CL : CryptoLib} `{GI : GitoidLib} `{RO : RangeOrder}.

Variable sha256 : bytes → bytes.
Hypothesis sha256_linked : hash_sum SHA256 = Some sha256.

Definition sha256_set (value : string) : DigestSet := {[mkDV SHA256 false false := HexEncode (sha256 value)]}.
Definition named (kv : string * string) : string * DigestSet := (kv.1 +:+ ":" +:+ kv.2, sha256_set kv.2).

Lemma CalculateDigestSet_sha256 value : CalculateDigestSetFromBytes value [mkDV SHA256 false false] = Ok (sha256_set value).
Proof using sha256_linked.
  destruct (CalculateDigestSet_total value [mkDV SHA256 false false]) as [ds Hds]; [constructor; [right; by rw sha256_linked|constructor]|].
  unfold CalculateDigestSetFromBytes. rw Hds. f_equal. apply map_eq. intros dv. rw (CalculateDigestSet_lookup _ _ _ dv Hds).
  unfold sha256_set. case_decide as Hdv.
  - apply list_elem_of_singleton in Hdv as ->. rw lookup_singleton_eq. unfold digest_text, DigestValue_New. cbn. by rw sha256_linked.
  - symmetry. apply lookup_singleton_ne. intros <-. by destruct Hdv; left.
Qed.

Lemma add_subjects_total l : add_subjects l = Ok (foldl (λ m kv, <[(named kv).1 := (named kv).2]> m) ∅ l).
Proof using sha256_linked.
  unfold add_subjects. generalize (∅ : gmap string DigestSet). induction l as [|kv l IH]; intros m; [done|].
  cbn [range_res foldl]. assert (add_subject kv.1 kv.2 m = Ok (<[(named kv).1 := (named kv).2]> m)) as ->; [|apply IH].
  unfold add_subject. by rw CalculateDigestSet_sha256.
Qed.

Lemma pipeline_backref_unique subjects k ds :
  subjects !! k = Some ds → HasPrefix k "pipelineurl:" = true →
  (∀ k', is_Some (subjects !! k') → HasPrefix k' "pipelineurl:" = true → k' = k) →
  pipeline_backref subjects = {[k := ds]}.
Proof.
  intros Hk Hp Huniq. unfold pipeline_backref. destruct (find _ _) as [[k' ds']|] eqn:Hf.
  - apply find_some in Hf as [Hin%list_elem_of_In%elem_of_range Hp']. cbn in Hp'.
    assert (k' = k) as -> by (apply Huniq; [by eexists|done]). by simplify_eq.
  - eapply find_none in Hf; [|by apply list_elem_of_In, (elem_of_range 10 subjects k ds)]. cbn in Hf. by rw Hf in Hp.
Qed.

(** The subjects of a run: its pipeline first, and others that are named otherwise. *)
Lemma pipeline_backref_first url others :
  Forall (λ kv, HasPrefix (named kv).1 "pipelineurl:" = false) others →
  pipeline_backref <$> add_subjects (("pipelineurl", url) :: others) = Ok {["pipelineurl:" +:+ url := sha256_set url]}.
Proof using sha256_linked.
  intros Ho. rw add_subjects_total. cbn [fmap res_fmap foldl]. f_equal.
  set (m := foldl _ _ _). assert (m !! ("pipelineurl:" +:+ url) = Some (sha256_set url) ∧
    ∀ k, is_Some (m !! k) → HasPrefix k "pipelineurl:" = true → k = "pipelineurl:" +:+ url) as [Hm Hu].
  { unfold m. clear m. assert (∀ k (m : gmap string DigestSet), k = "pipelineurl:" +:+ url → m !! k = Some (sha256_set url) →
      (∀ k', is_Some (m !! k') → HasPrefix k' "pipelineurl:" = true → k' = k) →
      let m' := foldl (λ m kv, <[(named kv).1 := (named kv).2]> m) m others in
      m' !! k = Some (sha256_set url) ∧ ∀ k', is_Some (m' !! k') → HasPrefix k' "pipelineurl:" = true → k' = k) as Hgo.
    { intros k m Hk. revert m. induction Ho as [|kv others Hkv Ho IH]; intros m Hm Hu; [done|]. cbn [foldl]. apply IH.
      - rw lookup_insert_ne; [done|]. intros Heq. rw Heq Hk HasPrefix_app in Hkv. done.
      - intros k' Hk' Hp. apply Hu; [|done]. rw lookup_insert_ne in Hk'; [done|]. intros <-. by rw Hkv in Hp. }
    apply Hgo; [done|by rw lookup_insert_eq|]. intros k [ds Hds] _.
    apply lookup_insert_Some in Hds as [[<- _]|[_ Hds]]; [done|]. by rw lookup_empty in Hds. }
  apply pipeline_backref_unique; [done|apply HasPrefix_app|done].
Qed.
End subjects.

(** The back reference of a CI run is its pipeline, and only that: the URL of
    the run with its SHA-256. *)
Theorem CI_BackRefs_pipeline `{JL : JoseLib} `{CL : CryptoLib} `{GI : GitoidLib} `{RO : RangeOrder} sha256
    (gl : GitLab.Attestor) (gh : GitHub.Attestor) (jk : Jenkins.Attestor) :
  hash_sum SHA256 = Some sha256 →
  GitLab.BackRefs gl = Ok {["pipelineurl:" +:+ GitLab.PipelineUrl gl := sha256_set sha256 (GitLab.PipelineUrl gl)]} ∧
  GitHub.BackRefs gh = Ok {["pipelineurl:" +:+ GitHub.PipelineUrl gh := sha256_set sha256 (GitHub.PipelineUrl gh)]} ∧
  Jenkins.BackRefs jk = Ok {["pipelineurl:" +:+ Jenkins.PipelineUrl jk := sha256_set sha256 (Jenkins.PipelineUrl jk)]}.
Proof.
  intros Hs. unfold GitLab.BackRefs, GitLab.Subjects, GitHub.BackRefs, GitHub.Subjects, Jenkins.BackRefs, Jenkins.Subjects.
  split_and!; apply pipeline_backref_first; try done; by repeat constructor.
Qed.

(** * Examples *)

#[local] Program Instance toy_jose_laws : JoseLaws := {| token_signed t key cs := t.1 = key ∧ cs !! "sub" = Some (JString t.2) |}.
Next Obligation.
  intros [kid sub] jwks cs. assert (@Jwt.key_id toy_jose (kid, sub) = kid) as Hid.
  { unfold Jwt.key_id. cbn. by destruct (decide (kid = "")) as [->|]; [|rw bool_decide_eq_true_2]. }
  rw Hid. cbn. case_bool_decide as Hkid; [|done]. intros [= <-].
  destruct (filter (λ k, k = kid) jwks) as [|k rest] eqn:Hf.
  - assert (kid ∈ filter (λ k, k = kid) jwks) as Hin by by apply list_elem_of_filter. rw Hf in Hin. by apply not_elem_of_nil in Hin.
  - assert (k ∈ filter (λ k, k = kid) jwks) as [-> _]%list_elem_of_filter by (rw Hf; left).
    exists kid, rest. split; [done|]. split; [done|]. by rw lookup_insert_eq.
Qed.

#[local] Instance ci_env : ProcessEnv := λ key,
  snd <$> find (λ kv, bool_decide (kv.1 = key))
    [("GITHUB_ACTIONS", "true"); ("ACTIONS_ID_TOKEN_REQUEST_URL", "https://token");
     ("ACTIONS_ID_TOKEN_REQUEST_TOKEN", "secret"); ("GITLAB_CI", "true"); ("CI_SERVER_URL", "https://gitlab")].
(** The endpoint of the tokens answers the bearer, and the key sets hold a key k1. *)
#[local] Instance ci_http : HttpLib := λ _ n req,
  if bool_decide (req_URL req = "https://token?audience=witness" ∧ req_Header req = [("Authorization", "bearer secret")])
  then Ok (mkResponse 200 "200 OK" (Ok "k1|run 7"))
  else if bool_decide (req_URL req = "https://gitlab/oauth/discovery/keys" ∨ req_URL req = GitHub.jwksURL_)
  then Ok (mkResponse 200 "200 OK" (Ok "k0,k1"))
  else Err (External "no such host").

Lemma GitHub_Attest_sound_witness : ∃ a j, GitHub.Attest Ok GitHub.New = (a, nil_error) ∧
  GitHub.JWT a = Some j ∧ vouches 1 "k1|run 7" "https://token.actions.githubusercontent.com/.well-known/jwks" j.
Proof.
  assert (∃ a, GitHub.Attest Ok GitHub.New = (a, nil_error)) as [a Ha] by (eexists; vm_compute; reflexivity).
  destruct (GitHub_Attest_sound Ok a Ha) as (_ & token & u & resp & body & j & Hu & Hr & Hb & Hv & Hj & Hvouch).
  exists a, j. split; [exact Ha|]. split; [exact Hj|]. vm_compute in Hu. injection Hu as <-. vm_compute in Hr. injection Hr as <-.
  vm_compute in Hb. injection Hb as <-. injection Hv as <-. exact Hvouch.
Defined.

Lemma GitLab_Attest_sound_witness : ∃ a j, GitLab.Attest (GitLab.New [GitLab.WithToken "k0|job 3"]) = (a, nil_error) ∧
  GitLab.JWT a = Some j ∧ vouches 0 "k0|job 3" "https://gitlab/oauth/discovery/keys" j.
Proof.
  assert (∃ a, GitLab.Attest (GitLab.New [GitLab.WithToken "k0|job 3"]) = (a, nil_error)) as [a Ha] by (eexists; vm_compute; reflexivity).
  destruct (GitLab_Attest_sound [GitLab.WithToken "k0|job 3"] a eq_refl Ha) as (_ & _ & H). vm_compute bool_decide in H.
  destruct H as (j & Hj & Hv). exists a, j. split; [exact Ha|]. split; [exact Hj|exact Hv].
Defined.

Lemma CI_BackRefs_pipeline_witness :
  let sha256 := λ d, "h" +:+ pretty SHA256 +:+ d in
  @hash_sum toy_crypto SHA256 = Some sha256 ∧
  GitHub.BackRefs GitHub.New = Ok {["pipelineurl:" := sha256_set sha256 ""]}.
Proof.
  split; [reflexivity|].
  exact (proj1 (proj2 (CI_BackRefs_pipeline _ (GitLab.New []) GitHub.New Jenkins.New eq_refl))).
Defined.
