(* ===== verification/CloudIdentity.v ===== *)
(** The attestors of the identity of a cloud instance: attestation/gcp-iit/gcp-iit.go
    (Module GcpIit) and attestation/aws-iid/aws-iid.go (Module AwsIid). The metadata
    services are the HTTP library and the class [ImdsApi]. *)
From S2P Require Import Prelude Receiver GoStrings GoText Errors Crypto Encodings Digest Registry Attestation Constraints Environment Hooks Context Host CI AwsCerts.
From stdpp Require Import options.

(** ** attestation/gcp-iit/gcp-iit.go *)
Module GcpIit.

Definition Name : string := "gcp-iit".
Definition Type_ : string := "https://witness.dev/attestations/gcp-iit/v0.1".
Definition RunType : string := PreMaterialRunType.
Definition jwksUrl : string := "https://www.googleapis.com/oauth2/v3/certs".
Definition defaultIdentityTokenHost : string := "metadata.google.internal".
Definition identityTokenAudience : string := "witness-node-attestor".
Definition defaultServiceAccount : string := "default".
Definition InstanceMetadataUrl : string := "http://metadata.google.internal/computeMetadata/v1/instance/".

Section gcp.
Context `{JL : JoseLib} `{HL : HttpLib} `{UL : UrlLib}.
Context `{CL : CryptoLib} `{GI : GitoidLib} `{RO : RangeOrder}.

Record Attestor := mkAttestor {
  JWT : option Jwt.Attestor;
  ProjectID : string;
  ProjectNumber : string;
  InstanceZone : string;
  InstanceID : string;
  InstanceHostname : string;
  InstanceCreationTimestamp : string;
  InstanceConfidentiality : string;
  LicenceID : list string;
  ClusterName : string;
  ClusterUID : string;
  ClusterLocation : string;
  isWorkloadIdentity : bool;
}.
Definition New : Attestor := mkAttestor None "" "" "" "" "" "" "" [] "" "" "" false.

(** The n-th request of the operation. *)
Definition getMetadata (n : nat) (url : string) : res bytes :=
  req ← NewRequest "GET" url [("Metadata-Flavor", "Google")] "";
  resp ← http_Do false n req;
  if bool_decide (StatusCode resp ≠ StatusOK)
  then Err (Errorf ("unexpected status code for route: " +:+ pretty (StatusCode resp)))
  else Body resp.

(** For a host and an account that [url.URL.String] does not have to escape; the query
    is encoded in the order of its keys. *)
Definition identityTokenURL (host serviceAccount : string) : string :=
  "http://" +:+ host +:+ "/computeMetadata/v1/instance/service-accounts/" +:+ serviceAccount +:+ "/identity" +:+
  "?audience=" +:+ identityTokenAudience +:+ "&format=full".

Definition parseJWTProjectInfo (jwt : Jwt.Attestor) : res (string * string) :=
  if json_is_nil (json_index (Jwt.Claims jwt) "email") then Err (Errorf "unable to find email claim")
  else
    email ← assert_string (json_index (Jwt.Claims jwt) "email");
    match SplitByte email "@" with
    | [_; domain] =>
        let projectInfo := default "" (head (SplitByte domain ".")) in
        let projectInfoSplit := SplitByte projectInfo "-" in
        Ok (default "" (last projectInfoSplit), Join (removelast projectInfoSplit) "-")
    | _ => Err (Errorf ("unable to parse email: " +:+ email))
    end.

Definition endpoints : gmap string string := list_to_map
  [ ("hostname", InstanceMetadataUrl +:+ "hostname");
    ("id", InstanceMetadataUrl +:+ "id");
    ("zone", InstanceMetadataUrl +:+ "zone");
    ("cluster-name", InstanceMetadataUrl +:+ "attributes/cluster-name");
    ("cluster-uid", InstanceMetadataUrl +:+ "attributes/cluster-uid");
    ("cluster-location", InstanceMetadataUrl +:+ "attributes/cluster-location");
    ("project-id", InstanceMetadataUrl +:+ "project/project-id");
    ("project-number", InstanceMetadataUrl +:+ "project/numeric-project-id") ].

(** The loop over the endpoints; a request that fails is logged. The state is the number
    of the next request, and the values. *)
Definition add_metadata (acc : nat * gmap string string) (kv : string * string) : res (nat * gmap string string) :=
  match getMetadata acc.1 kv.2 with
  | Ok data => Ok (S acc.1, <[kv.1:=data]> acc.2)
  | Err _ => Ok (S acc.1, acc.2)
  | Panic w => Panic w
  end.
Definition get_endpoints (n : nat) : res (gmap string string) :=
  snd <$> range_res add_metadata (n, ∅) (range_map 27 endpoints).

Definition getInstanceData (n : nat) (jwt : Jwt.Attestor) (a : Attestor) : res Attestor :=
  metadata ← get_endpoints n;
  let data k := default "" (metadata !! k) in
  proj ← match parseJWTProjectInfo jwt with
         | Ok p => Ok p
         | Err _ => Ok ("", "")
         | Panic w => Panic w
         end;
  Ok (mkAttestor (JWT a) proj.1 proj.2 (data "zone") (data "id") (data "hostname") (InstanceCreationTimestamp a)
        (InstanceConfidentiality a) (LicenceID a) (data "cluster-name") (data "cluster-uid") (data "cluster-location")
        (isWorkloadIdentity a)).

(** [v.([]string)]: encoding/json never makes one. *)
Definition assert_strings (v : Json) : res (list string) :=
  Panic "interface conversion: interface {} is not []string".

(** The fields of a token of an instance. *)
Definition google_fields (googClaim : gmap string Json) (a : Attestor) : res Attestor :=
  let field k := assert_string (json_index googClaim k) in
  id ← field "project_id";
  number ← field "project_number";
  zone ← field "zone";
  instance ← field "instance_id";
  hostname ← field "instance_name";
  created ← field "instance_creation_timestamp";
  confidentiality ← field "instance_confidentiality";
  licences ← assert_strings (json_index googClaim "licence_id");
  Ok (mkAttestor (JWT a) id number zone instance hostname created confidentiality licences
        (ClusterName a) (ClusterUID a) (ClusterLocation a) (isWorkloadIdentity a)).

Definition set_JWT (a : Attestor) (j : Jwt.Attestor) : Attestor :=
  mkAttestor (Some j) (ProjectID a) (ProjectNumber a) (InstanceZone a) (InstanceID a) (InstanceHostname a)
    (InstanceCreationTimestamp a) (InstanceConfidentiality a) (LicenceID a) (ClusterName a) (ClusterUID a)
    (ClusterLocation a) (isWorkloadIdentity a).
Definition set_workload (a : Attestor) : Attestor :=
  mkAttestor (JWT a) (ProjectID a) (ProjectNumber a) (InstanceZone a) (InstanceID a) (InstanceHostname a)
    (InstanceCreationTimestamp a) (InstanceConfidentiality a) (LicenceID a) (ClusterName a) (ClusterUID a)
    (ClusterLocation a) true.

(** What follows the verification of the token. *)
Definition instance_fields (j : Jwt.Attestor) (a : Attestor) : res Attestor :=
  let google := json_index (Jwt.Claims j) "google" in
  let a := if json_is_nil google then set_workload a else a in
  if isWorkloadIdentity a then getInstanceData 2 j a
  else googClaim ← assert_object google; google_fields googClaim a.

(** The attestor is returned also next to an error. *)
Definition Attest (a : Attestor) : Attestor * err :=
  match on_error (λ e, External ("rpc error: code = Internal desc = unable to retrieve valid identity token: " +:+
                         default "" (Error e)))
          (getMetadata 0 (identityTokenURL defaultIdentityTokenHost defaultServiceAccount)) with
  | Err e => (a, Err e)
  | Panic w => (a, Panic w)
  | Ok it =>
      let (j, e) := Jwt.Attest 1 (Jwt.New [Jwt.WithToken it; Jwt.WithJWKSUrl jwksUrl]) in
      let a := set_JWT a j in
      match e with
      | Err e => (a, Err e)
      | Panic w => (a, Panic w)
      | Ok _ =>
          match instance_fields j a with
          | Ok a => (a, nil_error)
          | Err e => (a, Err e)
          | Panic w => (a, Panic w)
          end
      end
  end.

Definition Subjects (a : Attestor) : res (gmap string DigestSet) :=
  add_subjects [("instanceid", InstanceID a); ("instancename", InstanceHostname a); ("projectid", ProjectID a);
                ("projectnumber", ProjectNumber a); ("clusteruid", ClusterUID a)].
End gcp.
End GcpIit.

(** ** attestation/aws-iid/aws-iid.go *)

(** The fields of [imds.InstanceIdentityDocument] that the source reads. *)
Record InstanceIdentityDocument := mkDocument {
  AccountID : string;
  ImageID : string;
  InstanceID : string;
  PrivateIP : string;
  doc_Region : string;
}.
(** [GetDynamicData] of the instance's metadata service, [json.Unmarshal] into a
    document, which can be changed before an error, the region of a configuration, and
    what the source takes from encoding/pem, crypto/x509 and time: the rest that
    [pem.Decode] leaves, the validity and the name of the algorithm of a certificate, and the n-th
    reading of the clock. *)
Class ImdsApi `{CL : CryptoLib} `{CB : CodeBuildApi} := {
  GetDynamicData : AwsConfig → string → res Reader;
  json_Unmarshal_document : bytes → InstanceIdentityDocument → InstanceIdentityDocument * err;
  cfg_Region : AwsConfig → string;
  pem_Decode_rest : bytes → bytes;
  NotBefore : Certificate → Z;
  NotAfter : Certificate → Z;
  PublicKeyAlgorithm : Certificate → string;
  clock : nat → Z;
}.

Module AwsIid.

Definition Name : string := "aws".
Definition Type_ : string := "https://witness.dev/attestations/aws/v0.1".
Definition RunType : string := PreMaterialRunType.
Definition docPath : string := "instance-identity/document".
Definition sigPath : string := "instance-identity/signature".

Section aws.
Context `{CL : CryptoLib} `{GI : GitoidLib} `{RO : RangeOrder} `{CB : CodeBuildApi} `{IA : !ImdsApi}.

Record Attestor := mkAttestor {
  Document : InstanceIdentityDocument;
  hashes : list DigestValue;
  cfg : AwsConfig;
  awsCert : string;
  RawIID : string;
  RawSig : string;
  PublicKey_ : string;
}.
Definition zero_Attestor : Attestor :=
  mkAttestor (mkDocument "" "" "" "" "") [] zero_AwsConfig "" "" "" "".

Definition Option := Attestor → Attestor.
Definition WithAWSRegionCert (cert : string) : Option := λ a,
  mkAttestor (Document a) (hashes a) (cfg a) cert (RawIID a) (RawSig a) (PublicKey_ a).
Definition set_cfg (a : Attestor) (c : AwsConfig) : Attestor :=
  mkAttestor (Document a) (hashes a) c (awsCert a) (RawIID a) (RawSig a) (PublicKey_ a).
(** [None] is the nil pointer. *)
Definition New (opts : list Option) : option Attestor :=
  let attestor := foldl (λ a opt, opt a) zero_Attestor opts in
  match LoadDefaultConfig with
  | Ok c => Some (set_cfg attestor c)
  | _ => None
  end.

(** The option that [init] registers, for attestors of the dynamic types [P]. *)
Definition aws_options {P} (project : P → option Attestor) (inject : Attestor → P) (go_type : P → string)
    : list (Configurer P) :=
  [ CString (NewConfigOption "region-cert"
      "A public x509 certificate used to verify the AWS instance identity document signature." ""
      (λ p v, match project p with
              | None => (p, Some (Errorf ("invalid attestor type: " +:+ go_type p)))
              | Some a => (inject (WithAWSRegionCert v a), None)
              end)) ].

Definition set_raw (a : Attestor) (iid sig : string) : Attestor :=
  mkAttestor (Document a) (hashes a) (cfg a) (awsCert a) iid sig (PublicKey_ a).
Definition set_document (a : Attestor) (d : InstanceIdentityDocument) : Attestor :=
  mkAttestor d (hashes a) (cfg a) (awsCert a) (RawIID a) (RawSig a) (PublicKey_ a).
Definition set_hashes (a : Attestor) (h : list DigestValue) : Attestor :=
  mkAttestor (Document a) h (cfg a) (awsCert a) (RawIID a) (RawSig a) (PublicKey_ a).
Definition set_key (a : Attestor) (k : string) : Attestor :=
  mkAttestor (Document a) (hashes a) (cfg a) (awsCert a) (RawIID a) (RawSig a) k.

Definition getIID : recv Attestor unit :=
  a ← self;
  iid ← call (wrap "failed to get instance identity document" (GetDynamicData (cfg a) docPath));
  content ← call (wrap "failed to read instance identity document" iid);
  _ ← assign (λ a, set_raw a content (RawSig a));
  sig ← call (wrap "failed to get instance identity signature" (GetDynamicData (cfg a) sigPath));
  sig ← call (wrap "failed to read instance identity document" sig);
  _ ← assign (λ a, set_raw a (RawIID a) sig);
  a ← self;
  let (d, e) := json_Unmarshal_document (RawIID a) (Document a) in
  _ ← assign (λ a, set_document a d);
  call (wrap "failed to unmarshal instance identity document" e).

(** A block that is nil would be dereferenced. *)
Definition getAWSCAPublicKey (awsRegion awsCert : string) : res RSAPublicKey :=
  awsCert ← (if bool_decide (awsCert = "") then getRegionCert awsRegion else Ok awsCert);
  if bool_decide (pem_Decode_rest awsCert ≠ "")
  then Err (Errorf "failed to decode PEM block containing the public key")
  else
    match pem_Decode awsCert with
    | None => Panic "runtime error: invalid memory address or nil pointer dereference"
    | Some block =>
        cert ← wrap "failed to parse certificate" (ParseCertificate (pem_Bytes block));
        if bool_decide (clock 0 < NotBefore cert ∨ NotAfter cert < clock 1)%Z
        then Err (Errorf (awsRegion +:+ ": certificate is not valid at the current time"))
        else if bool_decide (PublicKeyAlgorithm cert ≠ "RSA")
        then Err (Errorf (awsRegion +:+ ": unexpected public key algorithm: " +:+ PublicKeyAlgorithm cert))
        else match PublicKey cert with
             | KRSAPublic k => Ok k
             | _ => Panic "interface conversion: interface {} is not *rsa.PublicKey"
             end
    end.

Definition region (a : Attestor) : string :=
  if bool_decide (cfg_Region (cfg a) = "") then doc_Region (Document a) else cfg_Region (cfg a).

Definition Verify : recv Attestor unit :=
  a ← self;
  if bool_decide (RawIID a = "" ∨ RawSig a = "")
  then call (Err (Errorf "instance identity document or signature is empty"))
  else
    docHash ← call (match hash_sum SHA256 with
                    | Some h => Ok (h (RawIID a))
                    | None => Panic "crypto: requested hash function is unavailable"
                    end);
    sigBytes ← call (match b64_DecodeString false true (RawSig a) with
                     | Some s => Ok s
                     | None => Err (Wrapf "failed to decode signature" (External "illegal base64 data"))
                     end);
    pubKey ← call (wrap "failed to get AWS public key" (getAWSCAPublicKey (region a) (awsCert a)));
    pubKeyBytes ← call (wrap "failed to marshal public key" (MarshalPKIXPublicKey (KRSAPublic pubKey)));
    _ ← assign (λ a, set_key a (pem_Encode "PUBLIC KEY" pubKeyBytes));
    call (rsa_VerifyPKCS1v15 pubKey SHA256 docHash sigBytes).

Definition Attest (ctx_Hashes : list DigestValue) : recv Attestor unit :=
  _ ← assign (λ a, set_hashes a ctx_Hashes);
  _ ← getIID;
  Verify.

Definition Subjects (a : Attestor) : res (gmap string DigestSet) :=
  add_subjects [("instanceid", InstanceID (Document a)); ("accountid", AccountID (Document a));
                ("imageid", ImageID (Document a)); ("privateip", PrivateIP (Document a))].
End aws.
End AwsIid.
