(* ===== verification/K8s.v ===== *)
(** attestation/k8smanifest/k8s.go and util.go: the attestor of Kubernetes manifests
    among the products. The decoders of JSON, YAML and Kubernetes objects, kubectl, the
    kubeconfig and the image registry are the class [K8sLib]; what [convertKeys] and the
    removal of ephemeral fields do with the decoded values is modelled on those values. *)
From S2P Require Import Prelude Receiver GoStrings GoText Errors Crypto Digest Paths Host Registry Attestation Constraints Environment Hooks Context.
From stdpp Require Import options.

(** [filepath.Ext] *)
Fixpoint filepath_Ext (path : string) : string :=
  match path with
  | "" => ""
  | String c s =>
      let e := filepath_Ext s in
      if negb (bool_decide (e = "")) then e
      else if bool_decide (c = "."%char) && byte_free slash s then path else ""
  end.

(** What the YAML decoder puts into an [interface{}]: a scalar, as encoding/json prints
    it; a sequence; a mapping whose keys are all strings; and any other mapping, a
    [map[interface{}]interface{}], with the keys as [%v] prints them. The entries of a
    mapping are in the order of an iteration; one for a key takes the place of those
    for it before. *)
Inductive Yaml :=
  | YScalar (j : Json)
  | YSeq (l : list Yaml)
  | YMap (entries : list (string * Yaml))
  | YAnyMap (entries : list (string * Yaml)).

(** [convertKeys]: the default branch returns everything else as it is. *)
Fixpoint convertKeys (value : Yaml) : Yaml :=
  match value with
  | YAnyMap v => YMap ((λ kv, (kv.1, convertKeys kv.2)) <$> v)
  | YSeq v => YSeq (convertKeys <$> v)
  | YScalar _ | YMap _ => value
  end.

(** The value that encoding/json prints: it does not print a [map[interface{}]interface{}]. *)
Definition entries_map {V} (entries : list (string * V)) : gmap string V := foldl (λ m kv, <[kv.1 := kv.2]> m) ∅ entries.
Definition all_values (m : gmap string (option Json)) : option (gmap string Json) :=
  if bool_decide (map_Forall (λ _ v, is_Some v) m) then Some (omap id m) else None.
Fixpoint yaml_json (value : Yaml) : option Json :=
  match value with
  | YScalar j => Some j
  | YSeq l => JArray <$> mapM id (yaml_json <$> l)
  | YMap entries => JObject <$> all_values (entries_map ((λ kv, (kv.1, yaml_json kv.2)) <$> entries))
  | YAnyMap _ => None
  end.

(** A Kubernetes object by its Go type, with the images of its containers, the raw
    items of a list, or what is recorded of a node. *)
Inductive runtime_Object (NodeSystemInfo : Type) :=
  | Pod (images : list string)
  | Deployment (images : list string)
  | ReplicaSet (images : list string)
  | StatefulSet (images : list string)
  | DaemonSet (images : list string)
  | Job (images : list string)
  | CronJob (images : list string)
  | K8sList (items : list bytes)
  | Node (name : string) (labels : gmap string string) (info : NodeSystemInfo)
  | OtherObject (go_type : string).
Arguments Pod {_}. Arguments Deployment {_}. Arguments ReplicaSet {_}. Arguments StatefulSet {_}.
Arguments DaemonSet {_}. Arguments Job {_}. Arguments CronJob {_}. Arguments K8sList {_}.
Arguments Node {_}. Arguments OtherObject {_}.

(** The fields of a kubeconfig that the source reads: the server of each cluster. *)
Record kubeconfig := mkKubeconfig { CurrentContext : string; Clusters : gmap string string }.

(** [yaml_Documents] are the documents of an input up to the first error, and that
    error, which is io.EOF at the end. [decode] also gives the kind. [kubectl] is given
    its arguments and its standard input. [remote_Get] gives the digest's text. *)
Class K8sLib := {
  NodeSystemInfo : Type;
  MachineID : NodeSystemInfo → string;
  json_Valid : bytes → bool;
  json_Unmarshal : bytes → res Json;
  json_Marshal : Json → res bytes;
  yaml_Documents : bytes → list Yaml * error;
  yaml_Marshal : Json → res bytes;
  decode : bytes → res (runtime_Object NodeSystemInfo * string);
  kubectl : list string → bytes → res bytes;
  LoadFromFile : string → res kubeconfig;
  RecommendedHomeFile : string;
  Reference : Type;
  ParseReference : string → res Reference;
  remote_Get : Reference → res string;
}.

Module K8sManifest.

Definition Name : string := "k8smanifest".
Definition Type_ : string := "https://witness.dev/attestations/k8smanifest/v0.2".
Definition RunType : string := PostProductRunType.
Definition defaultEphemeralFields : list string :=
  [ "metadata.resourceVersion"; "metadata.uid"; "metadata.creationTimestamp"; "metadata.managedFields";
    "metadata.generation"; "status" ].
Definition defaultEphemeralAnnotations : list string :=
  [ "kubectl.kubernetes.io/last-applied-configuration"; "deployment.kubernetes.io/revision"; "witness.dev/content-hash";
    "cosign.sigstore.dev/message"; "cosign.sigstore.dev/signature"; "cosign.sigstore.dev/bundle" ].

(** ** Ephemeral fields *)

(** [removeNested] on the parts of the path: it changes nested maps in place. *)
Fixpoint removeNested_parts (obj : gmap string Json) (parts : list string) : gmap string Json :=
  match parts with
  | [] => obj
  | [k] => delete k obj
  | k :: parts =>
      match as_object (json_index obj k) with
      | Some sub => <[k := JObject (removeNested_parts sub parts)]> obj
      | None => obj
      end
  end.
Definition removeNested (obj : gmap string Json) (path : string) : gmap string Json :=
  removeNested_parts obj (SplitByte path ".").

Definition removeEphemeralAnnotations (obj : gmap string Json) (ephemeralKeys : list string) : gmap string Json :=
  match as_object (json_index obj "metadata") with
  | None => obj
  | Some md =>
      match as_object (json_index md "annotations") with
      | None => obj
      | Some ann =>
          let ann := foldl (λ ann k, delete k ann) ann ephemeralKeys in
          <["metadata" := JObject (<["annotations" := JObject ann]> md)]> obj
      end
  end.

(** The letters of the extensions have no other forms that [ToLower] maps to them. *)
Definition isJSONorYAML (path : string) : bool :=
  let ext := ToLower (filepath_Ext path) in
  bool_decide (ext = ".json") || bool_decide (ext = ".yaml") || bool_decide (ext = ".yml").

(** ** Images *)
Section k8s.
Context `{KL : K8sLib} `{RO : RangeOrder} `{HF : HostFiles} {A : Type}.

Record RecordedImage := mkImage { Reference_ : string; Digest : gmap string string }.
Record RecordedNode := mkNode { node_Name : string; Labels : gmap string string; NodeInfo : NodeSystemInfo }.
Record ClusterInfo := mkClusterInfo { Server : string; RecordedNodes : gmap string RecordedNode }.
Record RecordedObject := mkObject {
  FilePath : string;
  Kind : string;
  obj_Name : string;
  Data : bytes;
  SubjectKey : string;
  RecordedImages : list RecordedImage;
}.
Record Attestor := mkAttestor {
  ServerSideDryRun : bool;
  RecordClusterInfo : bool;
  KubeconfigPath : string;
  KubeContext : string;
  IgnoreFields : list string;
  IgnoreAnnotations : list string;
  ephemeralFields : list string;
  ephemeralAnn : list string;
  RecordedDocs : list RecordedObject;
  subjectDigests : gmap string DigestSet;
  ClusterInfo_ : ClusterInfo;
}.
Definition New : Attestor :=
  mkAttestor false false "" "" [] [] defaultEphemeralFields defaultEphemeralAnnotations [] ∅ (mkClusterInfo "" ∅).

(** util.go *)
Definition DigestForRef (reference : string) : res string :=
  ref ← ParseReference reference;
  remote_Get ref.

(** The log of a digest that is empty dereferences the error, which is nil. *)
Definition newRecordedImage (image : string) : res RecordedImage :=
  match DigestForRef image with
  | Ok dig =>
      if bool_decide (dig = "") then Panic "runtime error: invalid memory address or nil pointer dereference"
      else match SplitByte dig ":" with
           | [alg; hex] => Ok (mkImage image {[alg := hex]})
           | _ => Ok (mkImage image ∅)
           end
  | Err _ => Ok (mkImage image ∅)
  | Panic w => Panic w
  end.
Definition record_containers (images : list string) : res (list RecordedImage) :=
  range_res (λ l image, i ← newRecordedImage image; Ok (l ++ [i])) [] images.

(** The kind selects the type that the object is asserted to have. *)
Definition recordImages (obj : runtime_Object NodeSystemInfo) (kind : string) : res (list RecordedImage) :=
  let images :=
    match kind, obj with
    | "Pod", Pod l | "Deployment", Deployment l | "ReplicaSet", ReplicaSet l | "StatefulSet", StatefulSet l
    | "DaemonSet", DaemonSet l | "Job", Job l | "CronJob", CronJob l => Ok l
    | ("Pod" | "Deployment" | "ReplicaSet" | "StatefulSet" | "DaemonSet" | "Job" | "CronJob"), _ =>
        Panic "interface conversion: runtime.Object is of another type"
    | _, _ => Ok []
    end in
  l ← images; record_containers l.

Definition recordNode (obj : runtime_Object NodeSystemInfo) : res RecordedNode :=
  match obj with
  | Node name labels info => Ok (mkNode name labels info)
  | _ => Err (Errorf "failed to type cast object of type to type '*v1.Node'")
  end.

(** ** Options *)
Definition Option := Attestor → Attestor.
Definition WithServerSideDryRun (dryRun : bool) : Option := λ a,
  mkAttestor dryRun (RecordClusterInfo a) (KubeconfigPath a) (KubeContext a) (IgnoreFields a) (IgnoreAnnotations a)
    (ephemeralFields a) (ephemeralAnn a) (RecordedDocs a) (subjectDigests a) (ClusterInfo_ a).
Definition WithKubeconfigPath (path : string) : Option := λ a,
  mkAttestor (ServerSideDryRun a) (RecordClusterInfo a) path (KubeContext a) (IgnoreFields a) (IgnoreAnnotations a)
    (ephemeralFields a) (ephemeralAnn a) (RecordedDocs a) (subjectDigests a) (ClusterInfo_ a).
Definition WithKubeContext (context : string) : Option := λ a,
  mkAttestor (ServerSideDryRun a) (RecordClusterInfo a) (KubeconfigPath a) context (IgnoreFields a) (IgnoreAnnotations a)
    (ephemeralFields a) (ephemeralAnn a) (RecordedDocs a) (subjectDigests a) (ClusterInfo_ a).
Definition WithRecordClusterInfo (record : bool) : Option := λ a,
  mkAttestor (ServerSideDryRun a) record (KubeconfigPath a) (KubeContext a) (IgnoreFields a) (IgnoreAnnotations a)
    (ephemeralFields a) (ephemeralAnn a) (RecordedDocs a) (subjectDigests a) (ClusterInfo_ a).
(** The default lists have no spare capacity, so [append] copies them. *)
Definition WithExtraIgnoreFields (fields : list string) : Option := λ a,
  let ignore := IgnoreFields a ++ fields in
  mkAttestor (ServerSideDryRun a) (RecordClusterInfo a) (KubeconfigPath a) (KubeContext a) ignore (IgnoreAnnotations a)
    (defaultEphemeralFields ++ ignore) (ephemeralAnn a) (RecordedDocs a) (subjectDigests a) (ClusterInfo_ a).
Definition WithExtraIgnoreAnnotations (anns : list string) : Option := λ a,
  let ignore := IgnoreAnnotations a ++ anns in
  mkAttestor (ServerSideDryRun a) (RecordClusterInfo a) (KubeconfigPath a) (KubeContext a) (IgnoreFields a) ignore
    (ephemeralFields a) (defaultEphemeralAnnotations ++ ignore) (RecordedDocs a) (subjectDigests a) (ClusterInfo_ a).

(** The options that [init] registers, for attestors of the dynamic types [P]. *)
Section options_.
Context {P : Type} (project : P → option Attestor) (inject : Attestor → P) (go_type : P → string).
Definition setter {V} (opt : V → Option) (p : P) (v : V) : P * option error :=
  match project p with
  | None => (p, Some (Errorf ("invalid attestor type: " +:+ go_type p)))
  | Some km => (inject (opt v km), None)
  end.
Definition k8s_options : list (Configurer P) :=
  [ CBool (NewConfigOption "server-side-dry-run"
      "Perform a server-side dry-run to normalize resource defaults before hashing" false (setter WithServerSideDryRun));
    CString (NewConfigOption "kubeconfig" "Path to the kubeconfig file (used during server-side dry-run)"
      RecommendedHomeFile (setter WithKubeconfigPath));
    CString (NewConfigOption "context"
      "The kubernetes context that this step applies to (if not set in the kubeconfig)" "" (setter WithKubeContext));
    CBool (NewConfigOption "record-cluster-information"
      "Record information about the cluster that the client has a connection to" true (setter WithRecordClusterInfo));
    CStringSlice (NewConfigOption "ignore-fields"
      "Additional ephemeral fields to remove (dot-separated), e.g., metadata.annotations.myorg" []
      (setter WithExtraIgnoreFields));
    CStringSlice (NewConfigOption "ignore-annotations"
      "Additional ephemeral annotations to remove, e.g. witness.dev/another-ephemeral" []
      (setter WithExtraIgnoreAnnotations)) ].
End options_.

(** ** The cluster and the dry run *)

Definition set_cluster (a : Attestor) (c : ClusterInfo) : Attestor :=
  mkAttestor (ServerSideDryRun a) (RecordClusterInfo a) (KubeconfigPath a) (KubeContext a) (IgnoreFields a)
    (IgnoreAnnotations a) (ephemeralFields a) (ephemeralAnn a) (RecordedDocs a) (subjectDigests a) c.
Definition set_docs (a : Attestor) (docs : list RecordedObject) : Attestor :=
  mkAttestor (ServerSideDryRun a) (RecordClusterInfo a) (KubeconfigPath a) (KubeContext a) (IgnoreFields a)
    (IgnoreAnnotations a) (ephemeralFields a) (ephemeralAnn a) docs (subjectDigests a) (ClusterInfo_ a).

Definition runRecordClusterInfo : recv Attestor unit :=
  a ← self;
  config ← call (LoadFromFile (KubeconfigPath a));
  let cc := if bool_decide (KubeContext a = "") then CurrentContext config else KubeContext a in
  if bool_decide (cc = "") then call (Err (Errorf "kubernetes context not set"))
  else match Clusters config !! cc with
       | Some server => assign (λ a, set_cluster a (mkClusterInfo server (RecordedNodes (ClusterInfo_ a))))
       | None => call (Err (Errorf ("unable to find context '" +:+ cc +:+ "' in kubernetes config at path '" +:+
                                    KubeconfigPath a +:+ "'")))
       end.

(** [json.Unmarshal] into a [map[string]interface{}]: null makes it nil. *)
Definition unmarshal_map (data : bytes) : res (option (gmap string Json)) :=
  v ← json_Unmarshal data;
  match v with
  | JObject m => Ok (Some m)
  | JNull => Ok None
  | _ => Err (External "json: cannot unmarshal into Go value of type map[string]interface {}")
  end.
Definition map_value (m : option (gmap string Json)) : Json := match m with Some m => JObject m | None => JNull end.

Definition runDryRun (a : Attestor) (doc : gmap string Json) : res (option (gmap string Json)) :=
  y ← yaml_Marshal (JObject doc);
  let args := ["apply"; "--dry-run=server"; "-o"; "json"; "-f"; "-"] ++
              (if bool_decide (KubeconfigPath a = "") then [] else ["--kubeconfig"; KubeconfigPath a]) in
  out ← on_error (λ e, Errorf ("kubectl dry-run error: " +:+ default "" (Error e))) (kubectl args y);
  wrap "unmarshal after dry-run" (unmarshal_map out).

Definition removeEphemeralFields (a : Attestor) (obj : gmap string Json) : gmap string Json :=
  removeEphemeralAnnotations (foldl removeNested obj (ephemeralFields a)) (ephemeralAnn a).

(** ** Documents *)

(** [recordImages] and the record of a node, of the object or of an item of a list. *)
Definition record_node (obj : runtime_Object NodeSystemInfo) (kind : string) : recv Attestor unit :=
  a ← self;
  if bool_decide (kind = "Node") && RecordClusterInfo a then
    n ← call (wrap "failed to record node info" (recordNode obj));
    assign (λ a, set_cluster a (mkClusterInfo (Server (ClusterInfo_ a))
                                  (<[MachineID (NodeInfo n) := n]> (RecordedNodes (ClusterInfo_ a)))))
  else mret tt.
Definition decode_of (filePath : string) (data : bytes) : res (runtime_Object NodeSystemInfo * string) :=
  on_error (λ e, Errorf ("failed to decode file " +:+ filePath +:+ ". Continuing: " +:+ default "" (Error e))) (decode data).
Fixpoint record_items (filePath : string) (items : list bytes) : recv Attestor (list RecordedImage) :=
  match items with
  | [] => mret []
  | item :: items =>
      o ← call (decode_of filePath item);
      images ← call (recordImages o.1 o.2);
      _ ← record_node o.1 o.2;
      rest ← record_items filePath items;
      mret (images ++ rest)
  end.
Definition record_object (filePath : string) (obj : runtime_Object NodeSystemInfo) (kind : string)
    : recv Attestor (list RecordedImage) :=
  match obj with
  | K8sList items => record_items filePath items
  | _ =>
      images ← call (recordImages obj kind);
      _ ← record_node obj kind;
      mret images
  end.

(** The first of the keys [base], [base#2], [base#3], ... that is not in the map. *)
Definition suffixed (base : string) (suffix : nat) : string :=
  if bool_decide (suffix = 1) then base else base +:+ "#" +:+ pretty suffix.
Fixpoint subject_key (digests : gmap string DigestSet) (base : string) (suffix fuel : nat) : string :=
  match fuel with
  | 0 => suffixed base suffix
  | S fuel => match digests !! suffixed base suffix with
              | None => suffixed base suffix
              | Some _ => subject_key digests base (S suffix) fuel
              end
  end.

Definition name_of (finalObj : option (gmap string Json)) : string :=
  match as_object (json_index (default ∅ finalObj) "metadata") with
  | Some md => match json_index md "name" with
               | JString nm => if bool_decide (nm = "") then "unknown" else nm
               | _ => "unknown"
               end
  | None => "unknown"
  end.

(** The document after the dry run, if one is asked for and succeeds. *)
Definition normalized (a : Attestor) (doc : gmap string Json) : res (option (gmap string Json)) :=
  if ServerSideDryRun a then
    match runDryRun a doc with
    | Ok dryObj => Ok dryObj
    | Err _ => Ok (Some doc)
    | Panic w => Panic w
    end
  else Ok (Some doc).

Definition processDoc (doc : gmap string Json) (filePath : string) : recv Attestor (bytes * RecordedObject) :=
  a ← self;
  finalObj ← call (normalized a doc);
  let finalObj := removeEphemeralFields a <$> finalObj in
  cleanBytes ← call (wrap "marshal error" (json_Marshal (map_value finalObj)));
  o ← call (decode_of filePath cleanBytes);
  let kindVal := if bool_decide (o.2 = "") then "UnknownKind" else o.2 in
  let nameVal := name_of finalObj in
  recordedImages ← record_object filePath o.1 o.2;
  a ← self;
  let baseKey := "k8smanifest:" +:+ filePath +:+ ":" +:+ kindVal +:+ ":" +:+ nameVal in
  let key := subject_key (subjectDigests a) baseKey 1 (S (size (subjectDigests a))) in
  mret (cleanBytes, mkObject filePath kindVal nameVal "" key recordedImages).

(** ** The products *)

(** The documents of a YAML file: one that cannot be converted is left out. *)
Definition splitYAMLDocs (content : bytes) : list bytes :=
  let out := omap (λ raw, j ← yaml_json (convertKeys raw);
                          match json_Marshal j with Ok b => Some b | _ => None end) (yaml_Documents content).1 in
  match out with
  | [] => if json_Valid content then [content] else []
  | _ => out
  end.

(** The documents of a JSON file: the elements of an array, or the file. *)
Definition json_docs (content : bytes) : list bytes :=
  if negb (json_Valid content) then []
  else match json_Unmarshal content with
       | Ok (JArray arr) => omap (λ el, match json_Marshal el with Ok b => Some b | _ => None end) arr
       | Ok _ => [content]
       | _ => []
       end.

Definition file_docs (path : string) (content : bytes) : list bytes :=
  if bool_decide (ToLower (filepath_Ext path) = ".json") then json_docs content else splitYAMLDocs content.

(** One document of a file: only objects are processed, and an error is logged. *)
Definition attest_doc (path : string) (doc : bytes) : recv Attestor unit := λ a,
  match json_Unmarshal doc with
  | Ok (JObject docMap) =>
      match processDoc docMap path a with
      | (a, Ok (cleanBytes, r)) =>
          let recorded := mkObject (FilePath r) (Kind r) (obj_Name r) cleanBytes (SubjectKey r) (RecordedImages r) in
          (set_docs a (RecordedDocs a ++ [recorded]), Ok tt)
      | (a, Err _) => (a, Ok tt)
      | (a, Panic w) => (a, Panic w)
      end
  | Panic w => (a, Panic w)
  | _ => (a, Ok tt)
  end.

Definition attest_product (workingDir path : string) : recv Attestor unit :=
  if negb (isJSONorYAML path) then mret tt
  else match host_ReadFile (filepath_Join [workingDir; path]) with
       | Ok content => for_each (attest_doc path) (file_docs path content)
       | Err _ => mret tt
       | Panic w => call (Panic w)
       end.

Definition Attest (ctx : AttestationContext A) : recv Attestor unit :=
  let products := ctx_Products ctx in
  if bool_decide (size products = 0) then mret tt
  else
    a ← self;
    _ ← (if RecordClusterInfo a then runRecordClusterInfo else mret tt);
    if existsb (λ kv, isJSONorYAML kv.1) (range_map 28 products)
    then for_each (λ kv, attest_product (ctx_workingDir ctx) kv.1) (range_map 29 products)
    else mret tt.

Definition Subjects (a : Attestor) : gmap string DigestSet := copy_into 30 id id ∅ (subjectDigests a).
End k8s.
End K8sManifest.
