(* ===== verification/CloudTheorems.v ===== *)
(** The identity of cloud instances (CloudIdentity.v, AwsCerts.v) and Kubernetes
    manifests (K8s.v): what a successful attestor vouches for, what it removes and
    keeps, and where the code panics. *)
From S2P Require Import Prelude Receiver GoStrings GoText Errors Crypto Encodings Digest Toy Paths Registry Attestation Constraints Environment Hooks Context Host CI CITheorems AwsCerts CloudIdentity K8s.
From stdpp Require Import options.

#[local] Unset Default Proof Using.

Lemma json_is_nil_true v : json_is_nil v = true → v = JNull.
Proof. by destruct v. Qed.
Lemma json_is_nil_false v : v ≠ JNull → json_is_nil v = false.
Proof. by destruct v. Qed.

(** * Instances of Google Compute Engine *)
Section gcp.
Context `{JL : JoseLib} {LAWS : JoseLaws} `{HL : HttpLib} `{UL : UrlLib} `{RO : RangeOrder}.
Import GcpIit.

(** The n-th request to an endpoint gave the value; a request that fails gives none. *)
Definition endpoint_value (k v : string) : Prop :=
  ∃ url n, endpoints !! k = Some url ∧ v = match getMetadata n url with Ok data => data | _ => "" end.

Lemma add_metadata_inv l n m n' m' :
  range_res add_metadata (n, m) l = Ok (n', m') → NoDup l.*1 → (∀ k, k ∈ l.*1 → m !! k = None) →
  (∀ k url, (k, url) ∈ l → ∃ i, default "" (m' !! k) = match getMetadata i url with Ok data => data | _ => "" end) ∧
  ∀ k, k ∉ l.*1 → m' !! k = m !! k.
Proof.
  revert n m; induction l as [|[k url] l IH]; intros n m Hr Hnd Hm.
  { injection Hr as -> ->. split; [by intros k url ?%not_elem_of_nil|done]. }
  cbn [range_res] in Hr. apply res_bind_ok in Hr as ([n1 m1] & Hadd & Hr).
  apply NoDup_cons in Hnd as [Hk Hnd]. fold (fst (A:=string) (B:=string)) in *. cbn [fmap list_fmap fst] in *.
  assert ((∃ i, default "" (m1 !! k) = match getMetadata i url with Ok data => data | _ => "" end) ∧
    ∀ k', k' ≠ k → m1 !! k' = m !! k') as [Hi Hrest].
  { unfold add_metadata in Hadd. cbn [fst snd] in Hadd. destruct (getMetadata n url) as [d|e|w] eqn:Hg; [..|done]; injection Hadd as <- <-.
    - split; [exists n; by rewrite Hg lookup_insert_eq|]. intros k' Hk'. by rewrite lookup_insert_ne.
    - split; [|done]. exists n. rewrite Hg Hm; [done|]. constructor. }
  destruct (IH n1 m1 Hr Hnd) as [IH1 IH2].
  { intros k' Hk'. rewrite Hrest; [by apply Hm; constructor|]. by intros ->. }
  split.
  - intros k' url' [[= -> ->]|Hin]%elem_of_cons; [|by apply IH1]. destruct Hi as [i Hi]. exists i. by rewrite IH2.
  - intros k' [Hne Hin]%not_elem_of_cons. rewrite IH2; [|done]. by apply Hrest.
Qed.

Lemma get_endpoints_values n m k :
  get_endpoints n = Ok m → is_Some (endpoints !! k) → endpoint_value k (default "" (m !! k)).
Proof.
  unfold get_endpoints. intros ([n' m'] & Hr & ->)%res_fmap_ok [url Hurl].
  apply add_metadata_inv in Hr as [Hv _]; [|apply NoDup_fst_range|intros k' _; apply lookup_empty].
  destruct (Hv k url) as [i Hi]; [by apply elem_of_range|]. by exists url, i.
Qed.

(** The fields of an instance's token never pass their assertions: the last one fails. *)
Lemma assert_string_panics {T} v (f : string → res T) :
  (∀ s, ∃ why, f s = Panic why) → ∃ why, (assert_string v ≫= f) = Panic why.
Proof. intros Hf. destruct v; cbn [assert_string mbind res_bind]; first [apply Hf|by eexists]. Qed.
Lemma google_fields_panics m a : ∃ why, google_fields m a = Panic why.
Proof. unfold google_fields. do 7 (apply assert_string_panics; intros ?). by eexists. Qed.

(** A successful run vouches for the token of the instance, whose signature it has
    verified with Google's keys, and the token has no claim about an instance: the fields
    are those of the metadata service, each of which is empty when its request fails, and
    of the account's address. *)
Theorem GcpIit_Attest_sound a a' :
  isWorkloadIdentity a = false → Attest a = (a', nil_error) →
  ∃ token j,
    getMetadata 0 (identityTokenURL defaultIdentityTokenHost defaultServiceAccount) = Ok token ∧
    JWT a' = Some j ∧ vouches 1 token GcpIit.jwksUrl j ∧ json_index (Jwt.Claims j) "google" = JNull ∧
    isWorkloadIdentity a' = true ∧
    endpoint_value "hostname" (InstanceHostname a') ∧ endpoint_value "id" (InstanceID a') ∧
    endpoint_value "zone" (InstanceZone a') ∧ endpoint_value "cluster-name" (ClusterName a') ∧
    endpoint_value "cluster-uid" (ClusterUID a') ∧ endpoint_value "cluster-location" (ClusterLocation a') ∧
    match parseJWTProjectInfo j with
    | Ok proj => (ProjectID a', ProjectNumber a') = proj
    | _ => (ProjectID a', ProjectNumber a') = ("", "")
    end.
Proof.
  intros Hw. unfold Attest. intros H.
  destruct (on_error _ (getMetadata 0 _)) as [token|e|w] eqn:Ht; [|done..].
  destruct (getMetadata 0 (identityTokenURL _ _)) as [token'|e|w] eqn:Hg; cbn in Ht; [|done..]. injection Ht as ->.
  destruct (Jwt.Attest 1 _) as [j [[]|e|w]] eqn:Hj; [|done..]. apply Jwt_Attest_vouches in Hj.
  exists token, j. unfold instance_fields in H.
  destruct (json_is_nil (json_index (Jwt.Claims j) "google")) eqn:Hgo.
  2:{ cbn [set_JWT isWorkloadIdentity] in H. rewrite Hw in H.
      destruct (assert_object _) as [m| |]; cbn [mbind res_bind] in H; [|done..].
      destruct (google_fields_panics m (set_JWT a j)) as [why Hwhy]. by rewrite Hwhy in H. }
  cbn [set_workload isWorkloadIdentity] in H. unfold getInstanceData in H.
  destruct (get_endpoints 2) as [m| |] eqn:Hm; cbn [mbind res_bind] in H; [|done..].
  assert (∀ k, is_Some (endpoints !! k) → endpoint_value k (default "" (m !! k))) as Hv
    by (intros k; by apply (get_endpoints_values 2)).
  split; [done|].
  assert (json_index (Jwt.Claims j) "google" = JNull) as Hnull by by apply json_is_nil_true.
  destruct (parseJWTProjectInfo j) as [[id num]|e|w]; cbn [mbind res_bind] in H; [..|done]; injection H as <-;
    (do 4 (split; [done|])); (do 6 (split; [apply Hv; by eexists|])); done.
Qed.

(** A token with a claim about the instance, which the attestor asks for, makes it
    panic, whatever the claim holds. *)
Theorem GcpIit_instance_panics a token j :
  isWorkloadIdentity a = false →
  getMetadata 0 (identityTokenURL defaultIdentityTokenHost defaultServiceAccount) = Ok token →
  Jwt.Attest 1 (Jwt.New [Jwt.WithToken token; Jwt.WithJWKSUrl GcpIit.jwksUrl]) = (j, nil_error) →
  json_index (Jwt.Claims j) "google" ≠ JNull →
  ∃ a' why, Attest a = (a', Panic why).
Proof.
  intros Hw Ht Hj Hg. unfold Attest. rewrite Ht. cbn [on_error]. rewrite Hj. unfold instance_fields.
  rewrite (json_is_nil_false _ Hg).
  cbn [set_JWT isWorkloadIdentity]. rewrite Hw.
  destruct (json_index (Jwt.Claims j) "google") as [| | | | |m]; cbn [assert_object mbind res_bind]; try (by eexists _, _).
  destruct (google_fields_panics m (set_JWT a j)) as [why ->]. by eexists _, _.
Qed.

(** For an account [name@part-...-part.rest], the project's number is the identifier
    up to its last dash, and its identifier the part after it. *)
Theorem project_is_split j name parts final rest :
  byte_free "@" name = true → Forall (λ p, byte_free "-" p = true) (parts ++ [final]) →
  Forall (λ p, byte_free "@" p = true ∧ byte_free "." p = true) (parts ++ [final]) → byte_free "@" rest = true →
  Jwt.Claims j !! "email" = Some (JString (name +:+ "@" +:+ Join (parts ++ [final]) "-" +:+ "." +:+ rest)) →
  parseJWTProjectInfo j = Ok (final, Join parts "-").
Proof.
  intros Hname Hdash Hfree Hrest Hemail. unfold parseJWTProjectInfo, json_index. rewrite Hemail. cbn [from_option id json_is_nil assert_string mbind res_bind].
  set (project := Join (parts ++ [final]) "-").
  assert (∀ c, c = "@"%char ∨ c = "."%char → byte_free c project = true) as Hproj.
  { intros c Hc. unfold project. clear Hdash Hemail. induction (parts ++ [final]) as [|p l IH]; [done|].
    apply Forall_cons in Hfree as [[Ha Hd] Hl]. specialize (IH Hl).
    assert (byte_free c p = true) as Hp by by destruct Hc as [->| ->].
    destruct l as [|q l]; [done|]. change (byte_free c (p +:+ "-" +:+ Join (q :: l) "-") = true).
    rewrite !byte_free_app Hp IH. by destruct Hc as [->| ->]. }
  assert (SplitByte (name +:+ "@" +:+ project +:+ "." +:+ rest) "@" = [name; project +:+ "." +:+ rest]) as ->.
  { change ("@" +:+ ?x) with (String "@" x). rewrite SplitByte_cons_free; [|done]. rewrite SplitByte_free; [done|].
    rewrite !byte_free_app Hrest Hproj; [done|by left]. }
  assert (SplitByte (project +:+ "." +:+ rest) "." = project :: SplitByte rest ".") as ->.
  { change ("." +:+ rest) with (String "." rest). apply SplitByte_cons_free, Hproj. by right. }
  cbn [head from_option id]. unfold project. change "-" with (String "-" "") at 1 3.
  rewrite SplitByte_Join; [|by destruct parts|done]. by rewrite last_snoc removelast_last.
Qed.
End gcp.

(** * Instances of Amazon EC2 *)
Section aws.
Context `{CL : CryptoLib} `{CB : CodeBuildApi} `{IA : !ImdsApi}.
Import AwsIid.

(** The key that verifies documents: that of the given certificate, or of the region's. *)
Definition verifies_with (cert_pem : string) (key : RSAPublicKey) : Prop :=
  ∃ block cert, pem_Decode cert_pem = Some block ∧ pem_Decode_rest cert_pem = "" ∧
    ParseCertificate (pem_Bytes block) = Ok cert ∧ (NotBefore cert ≤ clock 0)%Z ∧ (clock 1 ≤ NotAfter cert)%Z ∧
    PublicKeyAlgorithm cert = "RSA" ∧ PublicKey cert = KRSAPublic key.
Definition trusted_cert (given region cert_pem : string) : Prop :=
  given ≠ "" ∧ cert_pem = given ∨
  given = "" ∧ getRegionCert region = Ok cert_pem ∧ cert_well_formed cert_pem = true.

Lemma getAWSCAPublicKey_ok region given key :
  getAWSCAPublicKey region given = Ok key → ∃ cert_pem, trusted_cert given region cert_pem ∧ verifies_with cert_pem key.
Proof.
  unfold getAWSCAPublicKey. intros (cert_pem & Hc & H)%res_bind_ok. exists cert_pem. split.
  - clear H. case_bool_decide as Hg; [|injection Hc as ->; by left]. right. split; [done|]. split; [done|].
    by apply (getRegionCert_well_formed region).
  - case_bool_decide as Hrest; [done|]. destruct (pem_Decode cert_pem) as [block|] eqn:Hb; [|done].
    apply res_bind_ok in H as (cert & Hcert%wrap_ok & H).
    case_bool_decide as Hv; [done|]. case_bool_decide as Ha; [done|].
    destruct (PublicKey cert) eqn:Hk; try done. injection H as ->.
    exists block, cert. split; [done|]. split; [done|]. split; [done|].
    do 2 (split; [lia|]). done.
Qed.

Lemma getIID_ok a a' :
  getIID a = (a', Ok tt) →
  GetDynamicData (cfg a) docPath = Ok (Ok (RawIID a')) ∧ GetDynamicData (cfg a) sigPath = Ok (Ok (RawSig a')) ∧
  json_Unmarshal_document (RawIID a') (Document a) = (Document a', nil_error) ∧ cfg a' = cfg a ∧ awsCert a' = awsCert a.
Proof.
  unfold getIID. intros H. recv_inv.
  destruct (json_Unmarshal_document _ _) as [d e] eqn:Hd. recv_inv. simpl in *. subst. by rewrite Hd.
Qed.

Lemma Verify_ok a a' :
  Verify a = (a', Ok tt) →
  ∃ h sig cert_pem key kb,
    RawIID a ≠ "" ∧ RawSig a ≠ "" ∧ hash_sum SHA256 = Some h ∧ b64_DecodeString false true (RawSig a) = Some sig ∧
    trusted_cert (awsCert a) (region a) cert_pem ∧ verifies_with cert_pem key ∧
    rsa_VerifyPKCS1v15 key SHA256 (h (RawIID a)) sig = nil_error ∧
    MarshalPKIXPublicKey (KRSAPublic key) = Ok kb ∧ a' = set_key a (pem_Encode "PUBLIC KEY" kb).
Proof.
  unfold Verify. intros H. recv_inv. case_bool_decide as Hraw; [done|]. recv_inv.
  destruct (hash_sum SHA256) as [h|] eqn:Hh; [|done]. destruct (b64_DecodeString _ _ _) as [sig|] eqn:Hs; [|done]. simplify_eq.
  match goal with H : getAWSCAPublicKey _ _ = Ok ?k |- _ => apply getAWSCAPublicKey_ok in H as (cert_pem & Ht & Hv) end.
  eexists h, _, cert_pem, _, _. do 8 (split; [first [done|tauto]|]). done.
Qed.

(** C37: A successful run has the signature of the document verified, with the key of the
    certificate it was given, or else of the region's certificate, which is a well formed
    one of the table; the certificate was valid at the time. The recorded fields are those
    of the document that was signed. *)
Theorem AwsIid_Attest_sound hs a a' :
  Attest hs a = (a', Ok tt) →
  ∃ h sig cert_pem key kb,
    GetDynamicData (cfg a) docPath = Ok (Ok (RawIID a')) ∧ GetDynamicData (cfg a) sigPath = Ok (Ok (RawSig a')) ∧
    RawIID a' ≠ "" ∧ json_Unmarshal_document (RawIID a') (Document a) = (Document a', nil_error) ∧
    hash_sum SHA256 = Some h ∧ b64_DecodeString false true (RawSig a') = Some sig ∧
    rsa_VerifyPKCS1v15 key SHA256 (h (RawIID a')) sig = nil_error ∧
    trusted_cert (awsCert a) (region a') cert_pem ∧ verifies_with cert_pem key ∧
    MarshalPKIXPublicKey (KRSAPublic key) = Ok kb ∧ PublicKey_ a' = pem_Encode "PUBLIC KEY" kb.
Proof.
  unfold Attest. intros H. apply recv_bind_ok in H as (a1 & [] & ->%recv_assign_ok & H).
  apply recv_bind_ok in H as (a2 & [] & (Hd & Hs & Hu & Hcfg & Hcert)%getIID_ok & Hv%Verify_ok).
  destruct Hv as (h & sig & cert_pem & key & kb & Hr & _ & Hh & Hsig & Ht & Hkey & Hver & Hk & ->).
  rewrite Hcert in Ht. exists h, sig, cert_pem, key, kb. do 10 (split; [done|]). done.
Qed.

(** What the libraries promise besides: encoding/pem leaves all of an input that has no
    block, a certificate whose algorithm is RSA has an RSA key, and nothing panics. *)
Class ImdsLaws := {
  no_block_rest d : pem_Decode d = None → pem_Decode_rest d = d;
  RSA_key c : PublicKeyAlgorithm c = "RSA" → ∃ k, PublicKey c = KRSAPublic k;
  imds_no_panic c path : no_panic (GetDynamicData c path) ∧ ∀ r, GetDynamicData c path = Ok r → no_panic r;
  unmarshal_no_panic d doc : no_panic (json_Unmarshal_document d doc).2;
  parse_no_panic der : no_panic (ParseCertificate der);
  marshal_no_panic k : no_panic (MarshalPKIXPublicKey k);
  verify_no_panic k d s : no_panic (rsa_VerifyPKCS1v15 k SHA256 d s);
}.

(** The certificate: the given one, or the region's, and never an empty one. *)
Lemma chosen_cert region given :
  let m := if bool_decide (given = "") then getRegionCert region else Ok given in
  no_panic m ∧ m ≠ Ok "".
Proof.
  simpl. case_bool_decide as Hg.
  - split; [|by intros Hc%getRegionCert_well_formed]. intros w. unfold getRegionCert. by destruct (_ !! _).
  - split; [done|]. by intros [= ->].
Qed.

(** A nil block is never dereferenced: input without a block is refused before. *)
Lemma getAWSCAPublicKey_no_panic `{LAWS : ImdsLaws} region given : no_panic (getAWSCAPublicKey region given).
Proof.
  intros w. unfold getAWSCAPublicKey. destruct (chosen_cert region given) as [Hp Hne].
  destruct (if bool_decide (given = "") then _ else _) as [cert_pem|e|w']; cbn [mbind res_bind]; [|done|by destruct (Hp w')].
  case_bool_decide as Hrest; [done|]. destruct (pem_Decode cert_pem) as [block|] eqn:Hb.
  - pose proof (parse_no_panic (pem_Bytes block)) as Hparse.
    destruct (ParseCertificate _) as [cert|e|w']; cbn [wrap mbind res_bind]; [|done|by destruct (Hparse w')].
    case_bool_decide; [done|]. case_bool_decide as Ha; [done|]. by destruct (RSA_key cert Ha) as [k ->].
  - pose proof (no_block_rest _ Hb) as Hr. rewrite Hrest in Hr. by subst cert_pem.
Qed.

Lemma getIID_no_panic `{LAWS : ImdsLaws} a : no_panic (getIID a).2.
Proof.
  unfold getIID, mbind, recv_bind, call, assign, self. intros w.
  destruct (imds_no_panic (cfg a) docPath) as [H1 H2]. destruct (GetDynamicData (cfg a) docPath) as [r| |w']; [|done|by destruct (H1 w')].
  specialize (H2 r eq_refl). cbn [wrap]. destruct r as [content| |w']; [|done|by destruct (H2 w')]. cbn [wrap set_raw cfg].
  destruct (imds_no_panic (cfg a) sigPath) as [H3 H4]. destruct (GetDynamicData (cfg a) sigPath) as [r| |w']; [|done|by destruct (H3 w')].
  specialize (H4 r eq_refl). cbn [wrap]. destruct r as [sig| |w']; [|done|by destruct (H4 w')]. cbn [wrap set_raw RawIID Document].
  pose proof (unmarshal_no_panic content (Document a)) as Hu. destruct (json_Unmarshal_document _ _) as [d [[]| |w']]; [done|done|].
  by destruct (Hu w').
Qed.

Lemma Verify_no_panic `{LAWS : ImdsLaws} a : is_Some (hash_sum SHA256) → no_panic (Verify a).2.
Proof.
  intros [h Hh] w. unfold Verify, mbind, recv_bind, call, self, assign.
  case_bool_decide; [done|]. rewrite Hh. destruct (b64_DecodeString _ _ _) as [sig|]; [|done].
  pose proof (getAWSCAPublicKey_no_panic (region a) (awsCert a)) as Hk.
  destruct (getAWSCAPublicKey _ _) as [key| |w']; [|done|by destruct (Hk w')]. cbn [wrap].
  pose proof (marshal_no_panic (KRSAPublic key)) as Hm. destruct (MarshalPKIXPublicKey _) as [kb| |w']; [|done|by destruct (Hm w')].
  cbn [wrap]. apply verify_no_panic.
Qed.

(** With libraries that keep their promises, the attestor of EC2 instances never
    panics: whatever the metadata service answers, and whatever certificate was given. *)
Theorem AwsIid_never_panics `{LAWS : ImdsLaws} hs a : is_Some (hash_sum SHA256) → no_panic (Attest hs a).2.
Proof.
  intros Hh w. unfold Attest, mbind at 1, recv_bind at 1, assign.
  pose proof (getIID_no_panic (set_hashes a hs)) as Hg. unfold mbind, recv_bind.
  destruct (getIID (set_hashes a hs)) as [a1 [[]| |w']]; [|done|by destruct (Hg w')].
  by apply Verify_no_panic.
Qed.
End aws.

(** * Kubernetes manifests *)

(** ** Ephemeral fields *)

(** What is at a path of a document; the document itself at the empty one. *)
Fixpoint json_lookup (m : gmap string Json) (parts : list string) : option Json :=
  match parts with
  | [] => Some (JObject m)
  | [k] => m !! k
  | k :: parts => sub ← as_object (json_index m k); json_lookup sub parts
  end.

Lemma json_lookup_cons m k parts :
  parts ≠ [] → json_lookup m (k :: parts) = (sub ← as_object (json_index m k); json_lookup sub parts).
Proof. by destruct parts. Qed.
Lemma removeNested_cons m k parts :
  parts ≠ [] → K8sManifest.removeNested_parts m (k :: parts) =
    match as_object (json_index m k) with
    | Some sub => <[k := JObject (K8sManifest.removeNested_parts sub parts)]> m
    | None => m
    end.
Proof. by destruct parts. Qed.
Lemma json_index_insert m k v : json_index (<[k := v]> m) k = v.
Proof. unfold json_index. by rewrite lookup_insert_eq. Qed.
Lemma json_index_insert_ne m k k' v : k ≠ k' → json_index (<[k := v]> m) k' = json_index m k'.
Proof. intros H. unfold json_index. by rewrite lookup_insert_ne. Qed.
Lemma json_index_delete_ne m k k' : k ≠ k' → json_index (delete k m) k' = json_index m k'.
Proof. intros H. unfold json_index. by rewrite lookup_delete_ne. Qed.
Lemma json_index_delete m k : json_index (delete k m) k = JNull.
Proof. unfold json_index. by rewrite lookup_delete_eq. Qed.

Lemma removeNested_gone m parts : parts ≠ [] → json_lookup (K8sManifest.removeNested_parts m parts) parts = None.
Proof.
  revert m; induction parts as [|k parts IH]; intros m Hn; [done|].
  destruct (decide (parts = [])) as [->|Hne]; [apply lookup_delete_eq|].
  rewrite removeNested_cons // json_lookup_cons //. destruct (as_object (json_index m k)) as [sub|] eqn:Hs.
  - rewrite json_index_insert. by apply IH.
  - by rewrite Hs.
Qed.

(** Removing a field makes no other one appear. *)
Lemma removeNested_none m parts q :
  json_lookup m q = None → json_lookup (K8sManifest.removeNested_parts m parts) q = None.
Proof.
  revert m q; induction parts as [|k parts IH]; intros m q Hq; [done|].
  destruct q as [|k' q]; [done|].
  destruct (decide (parts = [])) as [->|Hne].
  - cbn [K8sManifest.removeNested_parts]. destruct (decide (q = [])) as [->|Hq'].
    + cbn in *. by apply lookup_delete_None; right.
    + rewrite !json_lookup_cons // in Hq |- *. destruct (decide (k = k')) as [->|Hk].
      * by rewrite json_index_delete.
      * by rewrite json_index_delete_ne.
  - rewrite removeNested_cons //. destruct (as_object (json_index m k)) as [sub|] eqn:Hs; [|done].
    destruct (decide (q = [])) as [->|Hq'].
    + cbn in *. destruct (decide (k = k')) as [->|Hk]; [|by rewrite lookup_insert_ne].
      unfold json_index in Hs. by rewrite Hq in Hs.
    + rewrite !json_lookup_cons // in Hq |- *. destruct (decide (k = k')) as [->|Hk].
      * rewrite json_index_insert. rewrite Hs in Hq. by apply IH.
      * by rewrite json_index_insert_ne.
Qed.

(** A path none of which is a prefix of the other is left as it is. *)
Lemma removeNested_other m parts q :
  ¬ parts `prefix_of` q → ¬ q `prefix_of` parts → json_lookup (K8sManifest.removeNested_parts m parts) q = json_lookup m q.
Proof.
  revert m q; induction parts as [|k parts IH]; intros m q Hp Hq; [by destruct Hp; apply prefix_nil|].
  destruct q as [|k' q]; [by destruct Hq; apply prefix_nil|].
  destruct (decide (k = k')) as [<-|Hk].
  - assert (¬ parts `prefix_of` q) as Hp' by (intros H; by apply Hp, prefix_cons).
    assert (¬ q `prefix_of` parts) as Hq' by (intros H; by apply Hq, prefix_cons).
    assert (parts ≠ []) as Hne by (intros ->; destruct Hp'; apply prefix_nil).
    assert (q ≠ []) as Hne' by (intros ->; destruct Hq'; apply prefix_nil).
    rewrite removeNested_cons // !json_lookup_cons //. destruct (as_object (json_index m k)) as [sub|] eqn:Hs.
    + rewrite json_index_insert. cbn [as_object mbind option_bind]. by apply IH.
    + by rewrite Hs.
  - assert (∀ v, json_lookup (<[k := v]> m) (k' :: q) = json_lookup m (k' :: q)) as Hins.
    { intros v. destruct (decide (q = [])) as [->|Hne]; [by apply lookup_insert_ne|].
      by rewrite !json_lookup_cons // json_index_insert_ne. }
    destruct (decide (parts = [])) as [->|Hne].
    + cbn [K8sManifest.removeNested_parts]. destruct (decide (q = [])) as [->|Hne]; [by apply lookup_delete_ne|].
      by rewrite !json_lookup_cons // json_index_delete_ne.
    + rewrite removeNested_cons //. by destruct (as_object _).
Qed.

(** The annotations: removing their keys is removing nested fields whose parts may
    contain dots. *)
Lemma json_object_lookup m k sub : as_object (json_index m k) = Some sub → m !! k = Some (JObject sub).
Proof. unfold json_index. destruct (m !! k) as [[]|]; cbn; congruence. Qed.

Lemma removeAnnotations_cons m k keys :
  K8sManifest.removeEphemeralAnnotations m (k :: keys) =
  K8sManifest.removeEphemeralAnnotations (K8sManifest.removeNested_parts m ["metadata"; "annotations"; k]) keys.
Proof.
  unfold K8sManifest.removeEphemeralAnnotations. cbn [K8sManifest.removeNested_parts foldl].
  destruct (as_object (json_index m "metadata")) as [md|] eqn:Hmd; [|by rewrite Hmd].
  rewrite json_index_insert. cbn [as_object].
  destruct (as_object (json_index md "annotations")) as [ann|] eqn:Han; [|rewrite Han].
  - rewrite json_index_insert. cbn [as_object]. by rewrite !insert_insert_eq.
  - by rewrite insert_id; [|apply json_object_lookup].
Qed.
Lemma removeAnnotations_nested m keys :
  K8sManifest.removeEphemeralAnnotations m keys =
  foldl K8sManifest.removeNested_parts m ((λ k, ["metadata"; "annotations"; k]) <$> keys).
Proof.
  revert m; induction keys as [|k keys IH]; intros m; [|by rewrite removeAnnotations_cons IH].
  unfold K8sManifest.removeEphemeralAnnotations. cbn [foldl fmap list_fmap].
  destruct (as_object (json_index m "metadata")) as [md|] eqn:Hmd; [|done].
  destruct (as_object (json_index md "annotations")) as [ann|] eqn:Han; [|done].
  rewrite (insert_id md); [|by apply json_object_lookup]. apply insert_id. by apply json_object_lookup.
Qed.

Lemma removeNested_absent m parts : parts ≠ [] → json_lookup m parts = None → K8sManifest.removeNested_parts m parts = m.
Proof.
  revert m; induction parts as [|k parts IH]; intros m Hn Hl; [done|].
  destruct (decide (parts = [])) as [->|Hne]; [by apply delete_id|].
  rewrite removeNested_cons //. rewrite json_lookup_cons // in Hl.
  destruct (as_object (json_index m k)) as [sub|] eqn:Hs; [|done]. cbn in Hl. rewrite IH //.
  apply insert_id. by apply json_object_lookup.
Qed.

Section ephemeral.
Context `{KL : K8sLib}.
Import K8sManifest.

(** The paths that an attestor removes. *)
Definition ephemeral_paths (a : Attestor) : list (list string) :=
  ((λ f, SplitByte f ".") <$> ephemeralFields a) ++ ((λ k, ["metadata"; "annotations"; k]) <$> ephemeralAnn a).
Lemma ephemeral_paths_ne a p : p ∈ ephemeral_paths a → p ≠ [].
Proof.
  unfold ephemeral_paths. rewrite elem_of_app !list_elem_of_fmap. intros [(f & -> & _)|(k & -> & _)]; [apply SplitByte_ne_nil|done].
Qed.
Lemma removeEphemeralFields_paths a obj :
  removeEphemeralFields a obj = foldl removeNested_parts obj (ephemeral_paths a).
Proof.
  unfold removeEphemeralFields, ephemeral_paths. rewrite removeAnnotations_nested foldl_app. f_equal.
  generalize (ephemeralFields a). intros l. revert obj. induction l as [|f l IH]; intros obj; [done|]. cbn [foldl fmap list_fmap]. apply IH.
Qed.

Lemma remove_all_none m ps q : json_lookup m q = None → json_lookup (foldl removeNested_parts m ps) q = None.
Proof. revert m; induction ps as [|p ps IH]; intros m Hq; [done|]. apply IH. by apply removeNested_none. Qed.
Lemma remove_all_gone m ps p : p ∈ ps → p ≠ [] → json_lookup (foldl removeNested_parts m ps) p = None.
Proof.
  intros Hp Hne. revert m; induction ps as [|p' ps IH]; intros m; [by apply not_elem_of_nil in Hp|].
  apply elem_of_cons in Hp as [<-|Hp]; cbn [foldl]; [|by apply IH]. apply remove_all_none. by apply removeNested_gone.
Qed.

(** C35: The removal of the ephemeral fields and annotations of a manifest is exact.
    Nothing is left at any of their paths; every path that has none of them above or
    below it holds what it held; and removing again changes nothing. *)
Theorem ephemeral_removed a obj :
  let obj' := removeEphemeralFields a obj in
  (∀ p, p ∈ ephemeral_paths a → json_lookup obj' p = None) ∧
  (∀ q, (∀ p, p ∈ ephemeral_paths a → ¬ p `prefix_of` q ∧ ¬ q `prefix_of` p) → json_lookup obj' q = json_lookup obj q) ∧
  removeEphemeralFields a obj' = obj'.
Proof.
  simpl. rewrite !removeEphemeralFields_paths.
  assert (∀ p, p ∈ ephemeral_paths a → json_lookup (foldl removeNested_parts obj (ephemeral_paths a)) p = None) as Hgone.
  { intros p Hp. apply remove_all_gone; [done|by eapply ephemeral_paths_ne]. }
  pose proof (ephemeral_paths_ne a) as Hne. split; [done|]. split.
  - intros q Hq. revert Hq. generalize (ephemeral_paths a). intros ps. clear Hgone Hne. revert obj.
    induction ps as [|p ps IH]; intros obj Hq; [done|]. cbn [foldl]. rewrite IH.
    + apply removeNested_other; apply (Hq p); constructor.
    + intros p' Hp'. apply Hq. by constructor.
  - revert Hgone Hne. generalize (foldl removeNested_parts obj (ephemeral_paths a)). intros m.
    induction (ephemeral_paths a) as [|p ps IH]; intros Hgone Hne; [done|]. cbn [foldl].
    rewrite removeNested_absent; [|apply Hne; constructor|apply Hgone; constructor].
    apply IH; intros p' Hp'; [apply Hgone|apply Hne]; by constructor.
Qed.
End ephemeral.

(** ** What is recorded *)

(** A loop whose steps only add to a list, what each of them must add included. *)
Lemma for_each_adds {S T D R} (f : T → recv S unit) (G : S → list D → Prop) (P : D → Prop) (C : T → R → Prop)
    (Q : R → D → Prop) l s s' u docs :
  (∀ x s1 s2 docs, x ∈ l → G s1 docs → f x s1 = (s2, Ok tt) →
     ∃ more, G s2 (docs ++ more) ∧ Forall P more ∧ ∀ r, C x r → ∃ d, d ∈ more ∧ Q r d) →
  G s docs → for_each f l s = (s', Ok u) →
  ∃ more, G s' (docs ++ more) ∧ Forall P more ∧ ∀ x r, x ∈ l → C x r → ∃ d, d ∈ more ∧ Q r d.
Proof.
  revert s docs; induction l as [|x l IH]; intros s docs Hf Hs H.
  - injection H as <- _. exists []. rewrite app_nil_r. split_and!; [done|constructor|by intros ? ? ?%not_elem_of_nil].
  - cbn [for_each] in H. apply recv_bind_ok in H as (s1 & [] & Hx & H).
    destruct (Hf x s s1 docs) as (more1 & Hg1 & Hp1 & Hc1); [constructor|done..|].
    destruct (IH s1 (docs ++ more1)) as (more2 & Hg2 & Hp2 & Hc2); [|done..|].
    { intros y s2 s3 docs' Hy. apply Hf. by constructor. }
    exists (more1 ++ more2). rewrite assoc_L. split; [done|]. split; [by apply Forall_app|].
    intros y r [->|Hy]%elem_of_cons Hr.
    + destruct (Hc1 r Hr) as (d & ? & ?). exists d. rewrite elem_of_app. auto.
    + destruct (Hc2 y r Hy Hr) as (d & ? & ?). exists d. rewrite elem_of_app. auto.
Qed.

Section manifests.
Context `{KL : K8sLib} `{RO : RangeOrder} `{HF : HostFiles} {A : Type}.
Import K8sManifest.

(** The attestor with documents added, and other information about the cluster. *)
Definition grown (a a' : Attestor) (docs : list RecordedObject) : Prop :=
  ∃ ci, a' = set_cluster (set_docs a (RecordedDocs a ++ docs)) ci.

Lemma grown_refl a : grown a a [].
Proof. exists (ClusterInfo_ a). destruct a. unfold set_cluster, set_docs. cbn. by rewrite app_nil_r. Qed.
Lemma grown_cluster a a' docs ci : grown a a' docs → grown a (set_cluster a' ci) docs.
Proof. intros [ci' ->]. by exists ci. Qed.
Lemma grown_doc a a' docs r : grown a a' docs → grown a (set_docs a' (RecordedDocs a' ++ [r])) (docs ++ [r]).
Proof. intros [ci ->]. exists ci. unfold set_docs, set_cluster. cbn. by rewrite assoc_L. Qed.

Lemma record_node_cluster obj kind a a' r : record_node obj kind a = (a', r) → a' = a ∨ ∃ ci, a' = set_cluster a ci.
Proof.
  unfold record_node, mbind, recv_bind, self, call, assign.
  destruct (_ && _); [|by intros [= <- _]; left].
  destruct (wrap _ (recordNode obj)); intros [= <- _]; [right; by eexists|by left..].
Qed.
Lemma record_items_cluster path items a a' r docs a0 :
  record_items path items a = (a', r) → grown a0 a docs → grown a0 a' docs.
Proof.
  revert a a' r; induction items as [|item items IH]; intros a a' r; cbn [record_items]; [by intros [= <- _]|].
  unfold mbind, recv_bind, call. destruct (decode_of path item) as [[obj kind]| |]; [|by intros [= <- _]..]. cbn [fst snd].
  destruct (recordImages obj kind) as [imgs| |]; [|by intros [= <- _]..].
  destruct (record_node obj kind a) as [a1 r1] eqn:Hn. intros H Hg.
  assert (grown a0 a1 docs) as Hg1 by (destruct (record_node_cluster _ _ _ _ _ Hn) as [->|[ci ->]]; [done|by apply grown_cluster]).
  destruct r1 as [[]| |]; [|by injection H as <- _..].
  destruct (record_items path items a1) as [a2 r2] eqn:Hi. specialize (IH _ _ _ Hi Hg1). by destruct r2; injection H as <- _.
Qed.
Lemma record_object_cluster path obj kind a a' r docs a0 :
  record_object path obj kind a = (a', r) → grown a0 a docs → grown a0 a' docs.
Proof.
  assert ((images ← call (recordImages obj kind); _ ← record_node obj kind; mret images) a = (a', r) →
    grown a0 a docs → grown a0 a' docs) as H.
  { unfold mbind, recv_bind, call. destruct (recordImages obj kind) as [imgs| |]; [|by intros [= <- _]..].
    destruct (record_node obj kind a) as [a1 r1] eqn:Hn. intros H Hg.
    assert (grown a0 a1 docs) as Hg1 by (destruct (record_node_cluster _ _ _ _ _ Hn) as [->|[ci ->]]; [done|by apply grown_cluster]).
    by destruct r1; injection H as <- _. }
  destruct obj; try done. apply record_items_cluster.
Qed.

(** What is found in an object does not depend on what was recorded before. *)
Lemma record_node_result obj kind a1 a2 :
  RecordClusterInfo a1 = RecordClusterInfo a2 →
  (record_node obj kind a1).2 = (record_node obj kind a2).2 ∧
  RecordClusterInfo (record_node obj kind a1).1 = RecordClusterInfo (record_node obj kind a2).1.
Proof.
  intros Ha. unfold record_node, mbind, recv_bind, self, call, assign. rewrite Ha.
  destruct (_ && _); [|done]. by destruct (wrap _ (recordNode obj)).
Qed.
Lemma record_items_result path items a1 a2 :
  RecordClusterInfo a1 = RecordClusterInfo a2 → (record_items path items a1).2 = (record_items path items a2).2.
Proof.
  revert a1 a2; induction items as [|item items IH]; intros a1 a2 Ha; cbn [record_items]; [done|].
  unfold mbind, recv_bind, call. destruct (decode_of path item) as [[obj kind]| |]; [|done..]. cbn [fst snd].
  destruct (recordImages obj kind) as [imgs| |]; [|done..]. destruct (record_node_result obj kind a1 a2 Ha) as [Hr Hc].
  destruct (record_node obj kind a1) as [b1 r1], (record_node obj kind a2) as [b2 r2]. cbn [fst snd] in *. subst r2.
  destruct r1; [|done..]. specialize (IH b1 b2 Hc).
  destruct (record_items path items b1) as [c1 q1], (record_items path items b2) as [c2 q2]. cbn [fst snd] in *. subst q2.
  by destruct q1.
Qed.
Lemma record_object_result path obj kind a1 a2 :
  RecordClusterInfo a1 = RecordClusterInfo a2 → (record_object path obj kind a1).2 = (record_object path obj kind a2).2.
Proof.
  intros Ha. assert (((images ← call (recordImages obj kind); _ ← record_node obj kind; mret images) a1).2 =
    ((images ← call (recordImages obj kind); _ ← record_node obj kind; mret images) a2).2) as H.
  { unfold mbind, recv_bind, call. destruct (recordImages obj kind) as [imgs| |]; [|done..].
    destruct (record_node_result obj kind a1 a2 Ha) as [Hr _].
    destruct (record_node obj kind a1) as [b1 r1], (record_node obj kind a2) as [b2 r2]. cbn [fst snd] in *. subst r2.
    by destruct r1. }
  destruct obj; try done. by apply record_items_result.
Qed.

(** The record of a document of a file: the document, after the dry run that the attestor
    may make, without its ephemeral fields and annotations, the kind that this decodes
    to, its name, and the images in it. *)
Definition recorded_from (a : Attestor) (path : string) (doc : bytes) (r : RecordedObject) : Prop :=
  ∃ m fin obj kind,
    json_Unmarshal doc = Ok (JObject m) ∧ normalized a m = Ok fin ∧
    json_Marshal (map_value (removeEphemeralFields a <$> fin)) = Ok (Data r) ∧ decode (Data r) = Ok (obj, kind) ∧
    FilePath r = path ∧ Kind r = (if bool_decide (kind = "") then "UnknownKind" else kind) ∧
    obj_Name r = name_of (removeEphemeralFields a <$> fin) ∧
    (record_object path obj kind a).2 = Ok (RecordedImages r).

(** The documents of the YAML and JSON products that can be read, and their records. *)
Definition recorded_of (ctx : AttestationContext A) (a : Attestor) (r : RecordedObject) : Prop :=
  ∃ content doc,
    is_Some (ctx_Products ctx !! FilePath r) ∧ isJSONorYAML (FilePath r) = true ∧
    host_ReadFile (filepath_Join [ctx_workingDir ctx; FilePath r]) = Ok content ∧
    doc ∈ file_docs (FilePath r) content ∧ recorded_from a (FilePath r) doc r.

(** The key of a record begins with its file, kind and name. *)
Definition keyed (r : RecordedObject) : Prop :=
  ∃ suffix, SubjectKey r = "k8smanifest:" +:+ FilePath r +:+ ":" +:+ Kind r +:+ ":" +:+ obj_Name r +:+ suffix.
(** Two records that differ at most in their keys. *)
Definition same_record (r r' : RecordedObject) : Prop :=
  FilePath r = FilePath r' ∧ Kind r = Kind r' ∧ obj_Name r = obj_Name r' ∧ Data r = Data r' ∧
  RecordedImages r = RecordedImages r'.

Lemma subject_key_prefix digests base suffix fuel : ∃ s, subject_key digests base suffix fuel = base +:+ s.
Proof.
  assert (∀ n, ∃ s, suffixed base n = base +:+ s) as Hs.
  { intros n. unfold suffixed. case_bool_decide; [exists ""; by rewrite string_app_nil_r|by eexists]. }
  revert suffix; induction fuel as [|fuel IH]; intros suffix; cbn [subject_key]; [apply Hs|].
  destruct (digests !! _); [apply IH|apply Hs].
Qed.

Lemma processDoc_ok m path a a' b r a0 docs doc :
  grown a0 a docs → json_Unmarshal doc = Ok (JObject m) → processDoc m path a = (a', Ok (b, r)) →
  let r' := mkObject (FilePath r) (Kind r) (obj_Name r) b (SubjectKey r) (RecordedImages r) in
  grown a0 a' docs ∧ recorded_from a0 path doc r' ∧ keyed r'.
Proof.
  intros Hg Hu H. unfold processDoc in H. recv_inv. simplify_eq.
  destruct Hg as [ci ->].
  match goal with
  | Hd : decode_of _ ?b = Ok ?o, Ho : record_object _ _ _ _ = (?a', _) |- _ =>
      destruct o as [obj kind]; rename Hd into Hdec;
      eapply record_object_cluster in Ho as Hg'; [|by exists ci]; rename Ho into Hobj
  end.
  destruct Hg' as [ci' ->]. split; [by exists ci'|]. split.
  - eexists m, _, obj, kind. split; [done|]. split; [eassumption|]. split; [eassumption|].
    split; [unfold decode_of in Hdec; by destruct (decode _)|]. do 3 (split; [done|]). cbn [RecordedImages].
    match type of Hobj with record_object _ _ _ ?a1 = _ => rewrite (record_object_result path obj kind a0 a1); [|done] end.
    by rewrite Hobj.
  - unfold keyed. cbn [SubjectKey FilePath Kind obj_Name]. match goal with |- context [subject_key ?d ?b ?n ?f] => destruct (subject_key_prefix d b n f) as [s Hs] end.
    exists s. rewrite Hs. by rewrite !string_app_assoc.
Qed.

(** A document that can be recorded is. *)
Lemma processDoc_records path doc a r a0 docs :
  grown a0 a docs → recorded_from a0 path doc r →
  ∃ m a' r', json_Unmarshal doc = Ok (JObject m) ∧ processDoc m path a = (a', Ok (Data r, r')) ∧
    FilePath r' = path ∧ Kind r' = Kind r ∧ obj_Name r' = obj_Name r ∧ RecordedImages r' = RecordedImages r.
Proof.
  intros [ci ->] (m & fin & obj & kind & Hu & Hn & Hm & Hd & Hf & Hk & Hname & Hr).
  set (a := set_cluster _ ci). assert ((record_object path obj kind a).2 = Ok (RecordedImages r)) as Hr'.
  { rewrite -Hr. by apply record_object_result. }
  exists m. unfold processDoc, mbind, recv_bind, self, call.
  change (normalized a m) with (normalized a0 m). rewrite Hn.
  change (removeEphemeralFields a) with (removeEphemeralFields a0). rewrite Hm. cbn [wrap].
  unfold decode_of. rewrite Hd. cbn [on_error fst snd]. destruct (record_object path obj kind a) as [a1 r1].
  cbn [snd] in Hr'. rewrite Hr'. eexists _, _. split; [done|]. split; [done|]. cbn. by rewrite Hk Hname.
Qed.

Lemma attest_doc_grown ctx a0 path content doc a a' docs :
  is_Some (ctx_Products ctx !! path) → isJSONorYAML path = true →
  host_ReadFile (filepath_Join [ctx_workingDir ctx; path]) = Ok content → doc ∈ file_docs path content →
  grown a0 a docs → attest_doc path doc a = (a', Ok tt) →
  ∃ more, grown a0 a' (docs ++ more) ∧ Forall (λ r, recorded_of ctx a0 r ∧ keyed r) more ∧
    ∀ r, recorded_from a0 path doc r → ∃ r', r' ∈ more ∧ same_record r r'.
Proof.
  intros Hp Hy Hc Hd Hg Ha.
  assert (a' = a → (∀ r, ¬ recorded_from a0 path doc r) →
    ∃ more, grown a0 a' (docs ++ more) ∧ Forall (λ r, recorded_of ctx a0 r ∧ keyed r) more ∧
    ∀ r, recorded_from a0 path doc r → ∃ r', r' ∈ more ∧ same_record r r') as Hnone.
  { intros -> Hno. exists []. rewrite app_nil_r. split; [done|]. split; [constructor|]. intros r Hr. by destruct (Hno r). }
  unfold attest_doc in Ha. destruct (json_Unmarshal doc) as [[| | | | |m]|e|w] eqn:Hu;
    try (injection Ha as <-; apply Hnone; [done|]; intros r (m' & ? & ? & ? & Hm & _); congruence).
  destruct (processDoc m path a) as [a1 [[b r]|e|w]] eqn:Hpd; [..|done]; injection Ha as <-.
  - destruct (processDoc_ok _ _ _ _ _ _ a0 docs doc Hg Hu Hpd) as (Hg' & Hrec & Hk).
    eexists. split; [by apply grown_doc|]. split.
    + constructor; [|constructor]. split; [|done]. exists content, doc.
      assert (FilePath r = path) as Hf by (by destruct Hrec as (? & ? & ? & ? & _ & _ & _ & _ & ? & _)).
      cbn [FilePath] in *. rewrite !Hf. by rewrite Hf in Hrec.
    + intros r2 Hr2. eexists. split; [constructor|].
      destruct (processDoc_records path doc a r2 a0 docs Hg Hr2) as (m' & a2 & r' & Hm' & Hpd' & Hf & Hk' & Hn' & Hi').
      rewrite Hu in Hm'. injection Hm' as <-. rewrite Hpd in Hpd'. injection Hpd' as -> -> ->.
      assert (FilePath r2 = path) as Hf2 by (by destruct Hr2 as (? & ? & ? & ? & _ & _ & _ & _ & ? & _)).
      unfold same_record. cbn. by rewrite Hf Hk' Hn' Hi'.
  - exists []. rewrite app_nil_r. split.
    { unfold processDoc, mbind, recv_bind, self, call in Hpd.
      destruct (normalized a m) as [fin| |]; [|by injection Hpd as <- _..].
      destruct (wrap _ (json_Marshal _)) as [clean| |]; [|by injection Hpd as <- _..].
      destruct (decode_of path _) as [[obj kind]| |]; [|by injection Hpd as <- _..]. cbn [fst snd] in Hpd.
      destruct (record_object path obj kind a) as [a2 r2] eqn:Hr. eapply record_object_cluster in Hr; [|done].
      by destruct r2; injection Hpd as <- _. }
    split; [constructor|]. intros r Hr.
    destruct (processDoc_records path doc a r a0 docs Hg Hr) as (m' & a2 & r' & Hm' & Hpd' & _).
    rewrite Hu in Hm'. injection Hm' as <-. congruence.
Qed.

Lemma attest_product_grown ctx a0 path a a' docs :
  is_Some (ctx_Products ctx !! path) → grown a0 a docs → attest_product (ctx_workingDir ctx) path a = (a', Ok tt) →
  ∃ more, grown a0 a' (docs ++ more) ∧ Forall (λ r, recorded_of ctx a0 r ∧ keyed r) more ∧
    ∀ r, recorded_of ctx a0 r → FilePath r = path → ∃ r', r' ∈ more ∧ same_record r r'.
Proof.
  intros Hp Hg Ha.
  assert (a' = a → (∀ r, recorded_of ctx a0 r → FilePath r ≠ path) →
    ∃ more, grown a0 a' (docs ++ more) ∧ Forall (λ r, recorded_of ctx a0 r ∧ keyed r) more ∧
    ∀ r, recorded_of ctx a0 r → FilePath r = path → ∃ r', r' ∈ more ∧ same_record r r') as Hnone.
  { intros -> Hno. exists []. rewrite app_nil_r. split; [done|]. split; [constructor|]. intros r Hr Hf. by destruct (Hno r). }
  unfold attest_product in Ha. destruct (isJSONorYAML path) eqn:Hy; cbn [negb] in Ha.
  2:{ injection Ha as <-. apply Hnone; [done|]. intros r (? & ? & _ & Hj & _) Hf. congruence. }
  destruct (host_ReadFile _) as [content|e|w] eqn:Hc; [| |done].
  2:{ injection Ha as <-. apply Hnone; [done|]. intros r (? & ? & _ & _ & Hh & _) Hf. congruence. }
  eapply (for_each_adds _ (grown a0) (λ r, recorded_of ctx a0 r ∧ keyed r) (recorded_from a0 path) same_record) in Ha
    as (more & Hg' & Hall & Hcomp); [| |done].
  - exists more. split; [done|]. split; [done|]. intros r (content' & doc & _ & _ & Hh & Hd & Hr) Hf.
    rewrite Hf in Hh, Hd, Hr. rewrite Hc in Hh. injection Hh as <-. by apply (Hcomp doc).
  - intros doc a1 a2 docs' Hd Hg1. by apply (attest_doc_grown ctx a0 path content).
Qed.

Lemma runRecordClusterInfo_grown a a' : runRecordClusterInfo a = (a', Ok tt) → grown a a' [].
Proof.
  unfold runRecordClusterInfo. intros H. recv_inv. case_bool_decide; [done|].
  destruct (Clusters _ !! _) as [server|]; [|done]. apply recv_assign_ok in H as ->. apply grown_cluster, grown_refl.
Qed.

(** What is added when the attestor succeeds. *)
Lemma Attest_grown ctx a a' :
  Attest ctx a = (a', Ok tt) →
  ∃ docs, grown a a' docs ∧ Forall (λ r, recorded_of ctx a r ∧ keyed r) docs ∧
    ∀ r, recorded_of ctx a r → ∃ r', r' ∈ docs ∧ same_record r r'.
Proof.
  assert (∀ a1, grown a a1 [] → (∀ r, ¬ recorded_of ctx a r) →
    ∃ docs, grown a a1 docs ∧ Forall (λ r, recorded_of ctx a r ∧ keyed r) docs ∧
    ∀ r, recorded_of ctx a r → ∃ r', r' ∈ docs ∧ same_record r r') as Hnone.
  { intros a1 Hg Hno. exists []. split; [done|]. split; [constructor|]. intros r Hr. by destruct (Hno r). }
  intros H. unfold Attest in H. case_bool_decide as H0.
  { injection H as <-. apply Hnone; [apply grown_refl|]. intros r (? & ? & [x Hx] & _).
    apply map_size_empty_inv in H0. by rewrite H0 lookup_empty in Hx. }
  apply recv_bind_ok in H as (a1 & a1' & [= <- <-] & H). apply recv_bind_ok in H as (a2 & [] & Hc & H).
  assert (grown a a2 []) as Hg.
  { destruct (RecordClusterInfo a); [by apply runRecordClusterInfo_grown|injection Hc as <-; apply grown_refl]. }
  destruct (existsb _ _) eqn:He.
  - eapply (for_each_adds _ (grown a) (λ r, recorded_of ctx a r ∧ keyed r) (λ kv r, recorded_of ctx a r ∧ FilePath r = kv.1)
      same_record) in H as (docs & Hg' & Hall & Hcomp); [| |done].
    + exists docs. split; [done|]. split; [done|]. intros r Hr. assert (Hr' := Hr). destruct Hr' as (? & ? & [prod Hp] & _).
      apply (Hcomp (FilePath r, prod)); [by apply elem_of_range|done].
    + intros [path prod] a3 a4 docs1 Hin Hg1 Ha. apply elem_of_range in Hin. cbn [fst] in *.
      destruct (attest_product_grown ctx a path a3 a4 docs1) as (more & ? & ? & Hcomp); [by eexists|done..|].
      exists more. split; [done|]. split; [done|]. intros r [? ?]. by apply Hcomp.
  - injection H as <-. apply Hnone; [done|]. intros r (? & ? & [prod Hp] & Hy & _).
    assert (existsb (λ kv : string * Product, isJSONorYAML kv.1) (range_map 28 (ctx_Products ctx)) = true) as Hb; [|congruence].
    apply existsb_exists. exists (FilePath r, prod). split; [|done]. apply list_elem_of_In. by apply elem_of_range.
Qed.

(** C28: A successful run adds exactly the documents of the products. Each record that is
    added is of a document of a YAML or JSON product: cleaned of its ephemeral fields and
    annotations after the dry run, with the kind that this decodes to, its name and its
    images, under a key that begins with its file, kind and name. And every document of
    such a product that can be read, cleaned, decoded and searched for images has a
    record. What was recorded before stays as it is. *)
Theorem K8s_Attest_spec ctx a a' :
  Attest ctx a = (a', Ok tt) →
  ∃ docs, RecordedDocs a' = RecordedDocs a ++ docs ∧
    (∀ r, r ∈ docs → recorded_of ctx a r ∧ keyed r) ∧
    (∀ r, recorded_of ctx a r → ∃ r', r' ∈ docs ∧ same_record r r').
Proof.
  intros (docs & [ci ->] & Hall & Hcomp)%Attest_grown. exists docs. split; [done|]. split; [|done].
  by rewrite Forall_forall in Hall.
Qed.

(** No subject is ever stored: a new attestor has none after a successful run. *)
Theorem K8s_no_subjects (ctx : AttestationContext A) a a' :
  Attest ctx a = (a', Ok tt) → subjectDigests a = ∅ → Subjects a' = ∅.
Proof.
  intros (docs & [ci ->] & _)%Attest_grown He. unfold Subjects. cbn. rewrite He. unfold copy_into. by rewrite range_map_empty.
Qed.
End manifests.

(** ** Subject keys *)
Section keys.
Import K8sManifest.

#[local] Instance suffixed_inj base : Inj (=) (=) (suffixed base).
Proof.
  intros n m. unfold suffixed. destruct (decide (n = 1)) as [->|Hn], (decide (m = 1)) as [->|Hm]; [done|..].
  - rewrite bool_decide_eq_true_2 // bool_decide_eq_false_2 //. intros H. exfalso.
    apply (f_equal slen) in H. rewrite !slen_app in H. simpl in H. lia.
  - rewrite bool_decide_eq_false_2 // bool_decide_eq_true_2 //. intros H. exfalso.
    apply (f_equal slen) in H. rewrite !slen_app in H. simpl in H. lia.
  - rewrite !bool_decide_eq_false_2 //. intros H.
    apply (inj (String.append base)) in H. apply (inj (String.append "#")) in H. by apply (inj pretty) in H.
Qed.

Lemma subject_key_taken digests base suffix fuel :
  digests !! subject_key digests base suffix fuel = None ∨
  ∀ i, suffix ≤ i < suffix + fuel → is_Some (digests !! suffixed base i).
Proof.
  revert suffix; induction fuel as [|fuel IH]; intros suffix; [right; lia|]. cbn [subject_key].
  destruct (digests !! suffixed base suffix) as [ds|] eqn:Hd; [|by left].
  destruct (IH (S suffix)) as [H|H]; [by left|]. right. intros i Hi.
  destruct (decide (i = suffix)) as [->|Hne]; [by rewrite Hd|]. apply H. lia.
Qed.

(** The search for a key ends with one that is not in the map: one more than the
    map's size is enough of an attempt. *)
Theorem subject_key_fresh (digests : gmap string DigestSet) base :
  digests !! subject_key digests base 1 (S (size digests)) = None.
Proof.
  destruct (subject_key_taken digests base 1 (S (size digests))) as [H|H]; [done|]. exfalso.
  assert (S (size digests) ≤ size (dom digests)) as Hsz; [|rewrite size_dom in Hsz; lia].
  rewrite -{1}(length_seq (S (size digests)) 1) -(length_fmap (suffixed base)).
  rewrite -(size_list_to_set (C:=gset string)); [|by apply NoDup_fmap_2; [apply _|apply NoDup_seq]].
  apply subseteq_size. intros k. rewrite elem_of_list_to_set list_elem_of_fmap elem_of_dom.
  intros (i & -> & [Hi1 Hi2]%elem_of_seq). apply H. lia.
Qed.
End keys.

(** ** YAML documents *)

Section yaml_ind.
Variable P : Yaml → Prop.
Hypothesis Hscalar : ∀ j, P (YScalar j).
Hypothesis Hseq : ∀ l, Forall P l → P (YSeq l).
Hypothesis Hmap : ∀ l, Forall (λ kv, P kv.2) l → P (YMap l).
Hypothesis Hany : ∀ l, Forall (λ kv, P kv.2) l → P (YAnyMap l).
Fixpoint Yaml_nested_ind (v : Yaml) : P v :=
  let entries l := (fix go (l : list (string * Yaml)) : Forall (λ kv, P kv.2) l :=
    match l with [] => Forall_nil_2 _ | kv :: l => Forall_cons_2 _ kv l (Yaml_nested_ind kv.2) (go l) end) l in
  match v with
  | YScalar j => Hscalar j
  | YSeq l => Hseq l ((fix go (l : list Yaml) : Forall P l := match l with [] => Forall_nil_2 _ | v :: l => Forall_cons_2 _ v l (Yaml_nested_ind v) (go l) end) l)
  | YMap l => Hmap l (entries l)
  | YAnyMap l => Hany l (entries l)
  end.
End yaml_ind.

(** No mapping in the value has keys of other types; and none below one whose keys are
    all strings does. *)
Fixpoint string_keys (v : Yaml) : bool :=
  match v with
  | YScalar _ => true
  | YSeq l => forallb string_keys l
  | YMap l => forallb (λ kv, string_keys kv.2) l
  | YAnyMap _ => false
  end.
Fixpoint convertible (v : Yaml) : bool :=
  match v with
  | YScalar _ => true
  | YSeq l => forallb convertible l
  | YMap l => forallb (λ kv, string_keys kv.2) l
  | YAnyMap l => forallb (λ kv, convertible kv.2) l
  end.

Lemma entries_map_elem {V} (l : list (string * V)) k v : entries_map l !! k = Some v → (k, v) ∈ l.
Proof.
  unfold entries_map. induction l as [|[k' v'] l IH] using rev_ind; [by rewrite lookup_empty|].
  rewrite foldl_snoc elem_of_app. cbn [fst snd]. intros [[<- <-]|[_ H]]%lookup_insert_Some; [right; constructor|left; auto].
Qed.
Lemma entries_map_unique {V} (l : list (string * V)) k v : NoDup l.*1 → (k, v) ∈ l → entries_map l !! k = Some v.
Proof.
  unfold entries_map. induction l as [|[k' v'] l IH] using rev_ind; [by intros _ ?%not_elem_of_nil|].
  rewrite foldl_snoc fmap_app elem_of_app. cbn [fst snd fmap list_fmap]. intros (Hl & Hk & _)%NoDup_app [Hin|Hin].
  - rewrite lookup_insert_ne; [by apply IH|]. intros ->. apply (Hk k); [|constructor]. apply list_elem_of_fmap. by exists (k, v).
  - apply list_elem_of_singleton in Hin. injection Hin as -> ->. by rewrite lookup_insert_eq.
Qed.

Lemma all_values_some (l : list (string * Yaml)) (f : Yaml → option Json) :
  Forall (λ kv, is_Some (f kv.2)) l → is_Some (all_values (entries_map ((λ kv, (kv.1, f kv.2)) <$> l))).
Proof.
  intros Hl. unfold all_values. rewrite bool_decide_eq_true_2; [by eexists|]. intros k v Hv.
  apply entries_map_elem, list_elem_of_fmap in Hv as ([k' v'] & [= -> ->] & Hin). rewrite Forall_forall in Hl. by apply (Hl (k', v')).
Qed.
Lemma mapM_id_some {T} (l : list T) (f : T → option Json) : Forall (λ v, is_Some (f v)) l → is_Some (mapM id (f <$> l)).
Proof. intros Hl. apply mapM_is_Some. by apply Forall_fmap. Qed.

Lemma string_keys_json v : string_keys v = true → is_Some (yaml_json v).
Proof.
  induction v as [j|l IH|l IH|l IH] using Yaml_nested_ind; intros Hv; cbn [string_keys yaml_json] in *; [by eexists|..|done];
    apply fmap_is_Some; [apply mapM_id_some|apply (all_values_some l)]; rewrite forallb_forall in Hv; rewrite !Forall_forall in IH |- *;
    intros x Hx; (apply IH; [done|]); by apply Hv, list_elem_of_In.
Qed.

(** A YAML document is converted and kept when all its mappings with keys of other
    types are reached through sequences and mappings like them. *)
Theorem convertKeys_json v : convertible v = true → is_Some (yaml_json (convertKeys v)).
Proof.
  induction v as [j|l IH|l IH|l IH] using Yaml_nested_ind; intros Hv; cbn [convertible convertKeys] in *; [by eexists|..].
  - cbn [yaml_json]. apply fmap_is_Some. rewrite -list_fmap_compose. apply (mapM_id_some l (yaml_json ∘ convertKeys)).
    rewrite forallb_forall in Hv. rewrite !Forall_forall in IH |- *. intros x Hx. apply IH; [done|]. by apply Hv, list_elem_of_In.
  - by apply string_keys_json.
  - cbn [yaml_json]. apply fmap_is_Some. rewrite -list_fmap_compose. apply (all_values_some l (yaml_json ∘ convertKeys)).
    rewrite forallb_forall in Hv. rewrite !Forall_forall in IH |- *. intros x Hx. apply IH; [done|]. by apply Hv, list_elem_of_In.
Qed.

(** But below a mapping whose keys are strings nothing is converted: a document with a
    mapping in it that has another key is left out, as it cannot be printed. *)
Theorem convertKeys_stops entries k v :
  NoDup entries.*1 → (k, YAnyMap v) ∈ entries → yaml_json (convertKeys (YMap entries)) = None.
Proof.
  intros Hnd Hin. cbn [convertKeys yaml_json]. unfold all_values. rewrite bool_decide_eq_false_2; [done|]. intros Hall.
  destruct (Hall k None) as [x Hx]; [|done]. apply entries_map_unique.
  - by rewrite -list_fmap_compose.
  - apply list_elem_of_fmap. by exists (k, YAnyMap v).
Qed.

(** ** Panics and lookups of the code *)
Section surprises.
Context `{KL : K8sLib}.
Import K8sManifest.

(** An object of an older version of its kind has another Go type, and the assertion of
    its type panics. *)
Lemma old_version_panics kind go_type :
  kind ∈ ["Pod"; "Deployment"; "ReplicaSet"; "StatefulSet"; "DaemonSet"; "Job"; "CronJob"] →
  ∃ why, recordImages (OtherObject go_type) kind = Panic why.
Proof. intros Hk. repeat (apply elem_of_cons in Hk as [->|Hk]; [by eexists|]). by apply not_elem_of_nil in Hk. Qed.

(** The cluster whose server is recorded is the one that has the name of the context. *)
Lemma cluster_by_context a a' :
  runRecordClusterInfo a = (a', Ok tt) →
  ∃ config cc, LoadFromFile (KubeconfigPath a) = Ok config ∧
    cc = (if bool_decide (KubeContext a = "") then CurrentContext config else KubeContext a) ∧
    Clusters config !! cc = Some (Server (ClusterInfo_ a')).
Proof.
  unfold runRecordClusterInfo. intros H. recv_inv. case_bool_decide; [done|].
  destruct (Clusters _ !! _) as [server|] eqn:Hs; [|done]. apply recv_assign_ok in H as ->. by eexists _, _.
Qed.
End surprises.

(** * Examples *)

(** The keys of Google are k0 and k1; the metadata service gives a token, and the data of
    an instance without a cluster. *)
#[local] Instance gcp_http : HttpLib := λ _ _ req,
  if HasPrefix (req_URL req) "http://metadata.google.internal/computeMetadata/v1/instance/service-accounts"
  then Ok (mkResponse 200 "200 OK" (Ok "k1|an instance"))
  else if bool_decide (req_URL req = GcpIit.jwksUrl) then Ok (mkResponse 200 "200 OK" (Ok "k0,k1"))
  else if HasSuffix (req_URL req) "hostname" then Ok (mkResponse 200 "200 OK" (Ok "vm-7"))
  else if Contains (req_URL req) "cluster" then Ok (mkResponse 404 "404 Not Found" (Ok ""))
  else Err (External "no such host").
#[local] Instance gcp_url : UrlLib := {|
  URL := string; url_Parse u := Ok u; url_String u := u; url_Scheme _ := "https"; url_Host _ := ""; url_Hostname _ := "";
  url_Port _ := ""; url_no_User u := u; Query_Get _ _ := ""; Query_Add u _ _ := u |}.

(** The toy library of tokens, with its law, and one whose tokens have a claim about the
    instance. *)
#[local] Instance cloud_jose_laws : JoseLaws := toy_jose_laws.
Definition instance_jose : JoseLib := {|
  JSONWebToken := string * string; JSONWebKey := string; JSONWebKeySet := list string;
  jwt_ParseSigned t _ := Ok (toy_token t); jwks_Decode body := Ok (SplitByte body ","); token_KeyIDs t := [t.1];
  token_Claims t jwks c := Ok {["google" := JObject {["project_id" := JString "p"]}]};
  jwks_Key jwks kid := filter (λ k, k = kid) jwks |}.

Definition toy_gcp : GcpIit.Attestor := (GcpIit.Attest GcpIit.New).1.
Lemma toy_gcp_ok : GcpIit.Attest GcpIit.New = (toy_gcp, nil_error).
Proof. by vm_compute. Qed.
Lemma GcpIit_Attest_sound_witness :
  GcpIit.InstanceHostname toy_gcp = "vm-7" ∧ GcpIit.ClusterName toy_gcp = "" ∧
  ∃ j, GcpIit.JWT toy_gcp = Some j ∧ vouches 1 "k1|an instance" GcpIit.jwksUrl j.
Proof.
  split; [reflexivity|]. split; [reflexivity|].
  destruct (GcpIit_Attest_sound GcpIit.New toy_gcp eq_refl toy_gcp_ok) as (token & j & Ht & Hj & Hv & _).
  exists j. split; [exact Hj|]. vm_compute in Ht. injection Ht as <-. exact Hv.
Defined.

Definition instance_token : @Jwt.Attestor instance_jose :=
  (Jwt.Attest (JL:=instance_jose) 1 (Jwt.New [Jwt.WithToken "k1|an instance"; Jwt.WithJWKSUrl GcpIit.jwksUrl])).1.
Lemma GcpIit_instance_panics_witness : ∃ a why, GcpIit.Attest (JL:=instance_jose) (@GcpIit.New instance_jose) = (a, Panic why).
Proof.
  apply (GcpIit_instance_panics (JL:=instance_jose) (@GcpIit.New instance_jose) "k1|an instance" instance_token);
    [reflexivity|reflexivity|vm_compute; reflexivity|discriminate].
Defined.

Definition account_token : Jwt.Attestor :=
  Jwt.mkAttestor {["email" := JString "builder@my-proj-123.iam.gserviceaccount.com"]} None "" "".
Lemma project_is_split_witness : GcpIit.parseJWTProjectInfo account_token = Ok ("123", "my-proj").
Proof.
  apply (project_is_split account_token "builder" ["my"; "proj"] "123" "iam.gserviceaccount.com");
    [reflexivity|repeat constructor|repeat constructor|reflexivity|reflexivity].
Defined.

(** An instance of EC2 with a certificate of its own. *)
#[local] Instance ec2_config : CodeBuildApi := {|
  AwsConfig := string; zero_AwsConfig := ""; LoadDefaultConfig := Ok ""; set_Region _ r := r;
  Build := unit; BatchGetBuilds _ _ := Ok []; json_Marshal_Build _ := Ok "" |}.
Definition ec2_document : string := "123456789012,ami-1,i-7,10.0.0.7,eu-west-2".
#[local] Instance ec2_imds : ImdsApi := {|
  GetDynamicData _ path :=
    if bool_decide (path = AwsIid.docPath) then Ok (Ok ec2_document)
    else Ok (Ok (base64 ("v15:ec2-key:h5" +:+ ec2_document)));
  json_Unmarshal_document b d :=
    match SplitByte b "," with
    | [account; image; instance; ip; region] => (mkDocument account image instance ip region, nil_error)
    | _ => (d, Err (External "unexpected end of JSON input"))
    end;
  cfg_Region c := c;
  pem_Decode_rest d := match Toy.decode d with None => d | Some _ => "" end;
  NotBefore _ := 0%Z; NotAfter _ := 10%Z;
  PublicKeyAlgorithm c := match PublicKey c with KRSAPublic _ => "RSA" | _ => "Ed25519" end;
  clock _ := 5%Z |}.
#[local] Instance ec2_laws : ImdsLaws.
Proof.
  split; cbn.
  - intros d. by destruct (Toy.decode d).
  - intros c. destruct (PublicKey c); try done. by eexists.
  - intros c path. by split; [intros w|intros r]; case_bool_decide; [..|intros [= <-] w|intros [= <-] w].
  - intros d doc w. by repeat case_match.
  - intros der w. by case_match.
  - intros k w. by destruct k.
  - intros k d s w. by case_bool_decide.
Qed.

Definition ec2_attestor : AwsIid.Attestor :=
  AwsIid.set_cfg (AwsIid.WithAWSRegionCert "CERTIFICATE|ec2-key;amazon" AwsIid.zero_Attestor) "".
Definition ec2_result : AwsIid.Attestor := (AwsIid.Attest [] ec2_attestor).1.
Lemma ec2_ok : AwsIid.Attest [] ec2_attestor = (ec2_result, Ok tt).
Proof. by vm_compute. Qed.
Lemma AwsIid_Attest_sound_witness :
  InstanceID (AwsIid.Document ec2_result) = "i-7" ∧ ∃ cert_pem key, trusted_cert "CERTIFICATE|ec2-key;amazon" "eu-west-2" cert_pem ∧ verifies_with cert_pem key.
Proof.
  split; [reflexivity|].
  destruct (AwsIid_Attest_sound [] ec2_attestor ec2_result ec2_ok) as (h & sig & cert_pem & key & kb & _ & _ & _ & _ & _ & _ & _ & Ht & Hv & _).
  exists cert_pem, key. exact (conj Ht Hv).
Defined.
Lemma AwsIid_never_panics_witness : no_panic (AwsIid.Attest [] ec2_attestor).2.
Proof. apply (AwsIid_never_panics [] ec2_attestor). exists (λ d, "h5" +:+ d). reflexivity. Defined.

(** A manifest of a Pod with an image of a known digest: its JSON is [dirty] with the
    uid that the server has set, and [clean] without. *)
Definition pod (uid : gmap string Json) : gmap string Json :=
  {["kind" := JString "Pod"; "metadata" := JObject (<["name" := JString "web"]> uid)]}.
#[local] Instance toy_k8s : K8sLib := {|
  NodeSystemInfo := string; MachineID i := i;
  json_Valid _ := true;
  json_Unmarshal b := if bool_decide (b = "dirty") then Ok (JObject (pod {["uid" := JString "7"]})) else Err (External "invalid character");
  json_Marshal j :=
    match j with
    | JObject m => match as_object (json_index m "metadata") with
                   | Some md => Ok (if json_is_nil (json_index md "uid") then "clean" else "dirty")
                   | None => Ok "?"
                   end
    | _ => Ok "?"
    end;
  yaml_Documents _ := ([], External "EOF");
  yaml_Marshal _ := Ok "";
  K8s.decode b := if bool_decide (b = "clean") then Ok (Pod ["nginx"], "Pod") else Err (External "no kind");
  kubectl _ _ := Err (External "not found");
  LoadFromFile _ := Err (External "no such file");
  RecommendedHomeFile := "";
  Reference := string; ParseReference r := Ok r; remote_Get r := Ok "sha256:d1" |}.
#[local] Instance manifest_files : HostFiles := {|
  host_Open _ := Err (External "no such file");
  host_ReadFile path := if bool_decide (path = "/w/pod.json") then Ok "dirty" else Err (External "no such file") |}.
Definition manifest_ctx : AttestationContext unit :=
  mkContext "" [] "/w" [] [] [] [] {["pod.json" := mkProduct "" ∅; "readme" := mkProduct "" ∅]} ∅ "step" (NewCapture []) [] zero_hooks.
Definition manifest_result : K8sManifest.Attestor := (K8sManifest.Attest manifest_ctx K8sManifest.New).1.
Lemma manifest_ok : K8sManifest.Attest manifest_ctx K8sManifest.New = (manifest_result, Ok tt).
Proof. by vm_compute. Qed.

Example manifest_recorded : K8sManifest.RecordedDocs manifest_result =
  [K8sManifest.mkObject "pod.json" "Pod" "web" "clean" "k8smanifest:pod.json:Pod:web" [K8sManifest.mkImage "nginx" {["sha256" := "d1"]}]].
Proof. by vm_compute. Qed.

Lemma K8s_Attest_spec_witness :
  ∃ docs, K8sManifest.RecordedDocs manifest_result = docs ∧ length docs = 1 ∧
    (∀ r, r ∈ docs → recorded_of manifest_ctx K8sManifest.New r ∧ keyed r) ∧
    (∀ r, recorded_of manifest_ctx K8sManifest.New r → ∃ r', r' ∈ docs ∧ same_record r r').
Proof.
  destruct (K8s_Attest_spec manifest_ctx K8sManifest.New manifest_result manifest_ok) as (docs & Hd & Hall & Hcomp).
  exists docs. split; [exact Hd|]. split; [|exact (conj Hall Hcomp)].
  apply (f_equal length) in Hd. vm_compute in Hd. symmetry. exact Hd.
Defined.
Lemma K8s_no_subjects_witness : K8sManifest.Subjects manifest_result = ∅.
Proof. exact (K8s_no_subjects manifest_ctx K8sManifest.New manifest_result manifest_ok eq_refl). Defined.

Lemma convertKeys_json_witness :
  is_Some (yaml_json (convertKeys (YSeq [YAnyMap [("1", YAnyMap [("true", YScalar (JString "x"))])]]))).
Proof. apply (convertKeys_json (YSeq [YAnyMap [("1", YAnyMap [("true", YScalar (JString "x"))])]])). reflexivity. Defined.
Lemma convertKeys_stops_witness :
  yaml_json (convertKeys (YMap [("kind", YScalar (JString "ConfigMap")); ("data", YAnyMap [("1", YScalar (JString "x"))])])) = None.
Proof.
  apply (convertKeys_stops _ "data" [("1", YScalar (JString "x"))]).
  - repeat constructor; cbn; rewrite ?elem_of_cons ?elem_of_nil; intuition discriminate.
  - apply elem_of_cons. right. apply elem_of_cons. left. reflexivity.
Defined.
