(* ===== verification/NetworkTrace.v ===== *)
(** attestation/networktrace: what is recorded of connections and payloads
    (types/types.go and types/config.go, Module Types), the maps shared with the BPF
    programs and their loading (bpf/maps.go and bpf/bpf.go, Module Bpf), and the recorder
    of one connection (proxy/recorder.go, Module Recorder). The kernel is the class
    [BpfLib]; the programs in C and the files bpf2go generates are not modelled. *)
From S2P Require Import Prelude Receiver GoStrings GoText Errors Crypto Digest Toy.
From stdpp Require Import options.

(** ** Integers and addresses *)

Definition uint32_of (n : Z) : Z := (n mod 2 ^ 32)%Z.
Definition uint64_of (n : Z) : Z := (n mod 2 ^ 64)%Z.
Definition len64 (data : bytes) : Z := Z.of_nat (slen data).

(** A [net.IP] is a string of bytes. *)
Definition ip_byte (ip : bytes) (i : nat) : nat := nth i (nats_of_string ip) 0.
(** [IP.To4]: the four bytes of an IPv4 address, also when it is mapped into IPv6. *)
Definition v4_prefix : bytes := str_of_nats (replicate 10 0 ++ [255; 255]).
Definition To4 (ip : bytes) : option bytes :=
  if bool_decide (slen ip = 4) then Some ip
  else if bool_decide (slen ip = 16) && HasPrefix ip v4_prefix then Some (drop_str 12 ip)
  else None.

Definition dotted (ip : bytes) : string := Join (pretty <$> nats_of_string ip) ".".

(** The groups of an IPv6 address, the first of the longest runs of two or more groups
    of zeros, and the text: [netip.Addr.String]. *)
Definition group (ip : bytes) (i : nat) : nat := 256 * ip_byte ip (2 * i) + ip_byte ip (S (2 * i)).
Fixpoint zero_run (ip : bytes) (i fuel : nat) : nat :=
  match fuel with
  | 0 => 0
  | S fuel => if bool_decide (i < 8 ∧ group ip i = 0) then S (zero_run ip (S i) fuel) else 0
  end.
Definition longest_run (ip : bytes) : nat * nat :=
  foldl (λ best i, let l := zero_run ip i 8 in if bool_decide (2 ≤ l ∧ best.2 < l) then (i, l) else best) (8, 0) (seq 0 8).
(** [%x] of a group *)
Definition hex_group (n : nat) : string :=
  hex_pad (if bool_decide (n < 16) then 1 else if bool_decide (n < 256) then 2
           else if bool_decide (n < 4096) then 3 else 4) n.
Definition ipv6_text (ip : bytes) : string :=
  let (start, len) := longest_run ip in
  let text i n := Join (hex_group ∘ group ip <$> seq i n) ":" in
  if bool_decide (len = 0) then text 0 8
  else text 0 start +:+ "::" +:+ text (start + len) (8 - (start + len)).
(** [IP.String] *)
Definition IP_String (ip : bytes) : string :=
  if bool_decide (slen ip = 0) then "<nil>"
  else match To4 ip with
       | Some p4 => dotted p4
       | None => if bool_decide (slen ip = 16) then ipv6_text ip else "?" +:+ HexEncode ip
       end.

Example IP_String_v4 : IP_String (str_of_nats [127; 0; 0; 1]) = "127.0.0.1".
Proof. by vm_compute. Qed.
Example IP_String_v6 :
  IP_String (str_of_nats [32; 1; 13; 184; 0; 0; 0; 0; 0; 1; 0; 0; 0; 0; 0; 1]) = "2001:db8::1:0:0:1".
Proof. by vm_compute. Qed.

(** ** types/types.go and types/config.go *)
Module Types.

Record PayloadConfig := mkPayloadConfig { RecordPayload : bool; RecordPayloadHash : bool; MaxPayloadSize : Z }.
Definition DefaultPayloadConfig : PayloadConfig := mkPayloadConfig false true (1024 * 1024).

Definition DefaultProxyPort : Z := 8888.
Definition DefaultProxyBindIPv4 : string := "127.0.0.1".
(** The lists can be nil: [ObservePIDs] is [None] until it is made. *)
Record Config := mkConfig {
  ObservePIDs : option (list Z);
  ObserveCgroups : list string;
  ObserveCommands : list string;
  ObserveChildTree : bool;
  ProxyPort : Z;
  ProxyBindIPv4 : string;
  Payload_ : PayloadConfig;
}.
Definition DefaultConfig : Config := mkConfig None [] [] true DefaultProxyPort DefaultProxyBindIPv4 DefaultPayloadConfig.

Record ProcessInfo := mkProcess { PID : Z; Comm : string; CgroupID : Z }.
Record Endpoint := mkEndpoint { IP : option bytes; Port : Z; Hostname : string }.
Record Payload := mkPayload { Size : Z; Data : bytes; Hash : string; Truncated : bool }.
(** A [time.Time] is a number of nanoseconds. *)
Record TCPPayload := mkTCPPayload { Timestamp : Z; Direction_ : string; Payload__ : Payload }.
Record Connection := mkConnection {
  ID : string;
  Protocol : string;
  StartTime : Z;
  EndTime : Z;
  Process : ProcessInfo;
  Destination : Endpoint;
  TCPPayloads : list TCPPayload;
  BytesSent : Z;
  BytesReceived : Z;
  Error_ : string;
}.
Record NetworkSummary := mkSummary {
  TotalConnections : Z;
  ProtocolCounts : gmap string Z;
  UniqueHosts : list string;
  UniqueIPs : list string;
  TotalBytesSent : Z;
  TotalBytesReceived : Z;
}.

Section types.
Context `{CL : CryptoLib} `{RO : RangeOrder}.

(** [data[:n]] panics outside of the bounds. *)
Definition slice_to (data : bytes) (n : Z) : res bytes := slice data 0 n.

Definition payload_hash (data : bytes) : res string :=
  match hash_sum SHA256 with
  | Some h => Ok (HexEncode (h data))
  | None => Panic "crypto: requested hash function is unavailable"
  end.

Definition NewPayload (data : bytes) (config : PayloadConfig) : res Payload :=
  let p := mkPayload (len64 data) "" "" false in
  if bool_decide (slen data = 0) then Ok p
  else
    hash ← (if RecordPayloadHash config then payload_hash data else Ok "");
    if RecordPayload config then
      if bool_decide (MaxPayloadSize config = 0 ∨ len64 data ≤ MaxPayloadSize config)%Z
      then Ok (mkPayload (len64 data) data hash false)
      else
        d ← slice_to data (MaxPayloadSize config);
        Ok (mkPayload (len64 data) d hash true)
    else Ok (mkPayload (len64 data) "" hash false).

(** The sets of hosts and addresses are those of their keys. *)
Record tally := mkTally { t_counts : gmap string Z; t_sent : Z; t_received : Z; t_hosts : gmap string (); t_ips : gmap string () }.
Definition count_connection (t : tally) (conn : Connection) : tally :=
  mkTally (<[Protocol conn := default 0 (t_counts t !! Protocol conn) + 1]> (t_counts t))%Z
    (uint64_of (t_sent t + BytesSent conn)) (uint64_of (t_received t + BytesReceived conn))
    (if bool_decide (Hostname (Destination conn) = "") then t_hosts t else <[Hostname (Destination conn) := ()]> (t_hosts t))
    (match IP (Destination conn) with None => t_ips t | Some ip => <[IP_String ip := ()]> (t_ips t) end).
Definition ComputeSummary (connections : list Connection) : NetworkSummary :=
  let t := foldl count_connection (mkTally ∅ 0 0 ∅ ∅) connections in
  mkSummary (Z.of_nat (length connections)) (t_counts t) (range_map 31 (t_hosts t)).*1 (range_map 32 (t_ips t)).*1
    (t_sent t) (t_received t).
End types.
End Types.

(** ** bpf/maps.go: the values of the maps, as the programs fill them *)
Module Bpf.

Definition MaxCommLen : nat := 16.

(** [connectOrigDstVal] and [connectOrigDstValV6], without the padding; the characters
    are [int8]s. *)
Record connectOrigDstVal := mkOrigDst { OrigIp : Z; OrigPort : Z; CgroupId : Z; Pid : Z; val_Comm : list Z }.
Record connectOrigDstValV6 := mkOrigDstV6 { OrigIpV6 : bytes; OrigPortV6 : Z; CgroupIdV6 : Z; PidV6 : Z; val_CommV6 : list Z }.
Record ConnectionMetadata := mkMetadata {
  SockCookie : Z;
  PID : Z;
  CgroupID : Z;
  Comm : string;
  OrigIP : bytes;
  m_OrigPort : Z;
}.

(** [binary.LittleEndian.PutUint32] *)
Definition GetOrigIP (o : connectOrigDstVal) : bytes :=
  let b i := Z.to_nat (Z.land (Z.shiftr (OrigIp o) (8 * i)) 255) in str_of_nats [b 0%Z; b 1%Z; b 2%Z; b 3%Z].
Definition GetOrigIPV6 (o : connectOrigDstValV6) : bytes := OrigIpV6 o.

(** [byte(v)] and [int8(b)] *)
Definition byte_of_int8 (v : Z) : ascii := ascii_of_nat (Z.to_nat (v mod 256)).
Definition int8_of_byte (b : ascii) : Z :=
  let n := Z.of_nat (nat_of_ascii b) in if bool_decide (n < 128)%Z then n else (n - 256)%Z.

Fixpoint int8SliceToString (s : list Z) : string :=
  match s with
  | [] => ""
  | v :: s => if bool_decide (v = 0)%Z then "" else String (byte_of_int8 v) (int8SliceToString s)
  end.
(** The first bytes of the string, in an array of zeros. *)
Fixpoint comm_array (n : nat) (s : string) : list Z :=
  match n, s with
  | 0, _ => []
  | S n, "" => 0%Z :: comm_array n ""
  | S n, String c s => int8_of_byte c :: comm_array n s
  end.
Definition StringToCommInt8 (s : string) : list Z := comm_array MaxCommLen s.

Definition GetComm (o : connectOrigDstVal) : string := int8SliceToString (val_Comm o).
Definition GetCommV6 (o : connectOrigDstValV6) : string := int8SliceToString (val_CommV6 o).
Definition ToConnectionMetadata (o : connectOrigDstVal) (cookie : Z) : ConnectionMetadata :=
  mkMetadata cookie (Pid o) (CgroupId o) (GetComm o) (GetOrigIP o) (OrigPort o).
Definition ToConnectionMetadataV6 (o : connectOrigDstValV6) (cookie : Z) : ConnectionMetadata :=
  mkMetadata cookie (PidV6 o) (CgroupIdV6 o) (GetCommV6 o) (GetOrigIPV6 o) (OrigPortV6 o).
Definition Metadata_String (m : ConnectionMetadata) : string :=
  "pid=" +:+ pretty (PID m) +:+ " comm=" +:+ Comm m +:+ " (orig: " +:+ IP_String (OrigIP m) +:+ ":" +:+
  pretty (m_OrigPort m) +:+ ") cgroup=" +:+ pretty (CgroupID m).

(** ** bpf/bpf.go *)

(** The objects that are open in the kernel: those of the two collections of programs
    and maps, and the attachments of programs. *)
Inductive closer := ConnectObjects | SockopsObjects | Link (attachment : string).
#[export] Instance closer_eq_dec : EqDecision closer.
Proof. solve_decision. Defined.

(** What the source asks the kernel and cilium/ebpf: [Variable_Set] and
    [LoadAndAssign] are calls on the specifications of the collections, whose programs
    are nil when [has_program] says so; the n-th [Put] of an operation has a result of
    its own; closing an object can report an error, and closes it. *)
Class BpfLib := {
  RemoveMemlock : err;
  Stat_Ino : string → res Z;
  ParseIP : string → option bytes;
  loadConnect : err;
  loadSockops : err;
  Variable_Set : string → string → Z → err;
  LoadAndAssign_connect : err;
  LoadAndAssign_sockops : err;
  has_program : string → bool;
  AttachCgroup : string → string → err;
  Close_result : closer → err;
  Put_result : nat → err;
  ClockGettime : res (Z * Z);
  GetsockoptUint64 : Z → res Z;
}.

(** The maps, by their keys and values. *)
Record Maps := mkMaps {
  OrigDstMap : gmap Z connectOrigDstVal;
  OrigDstMapV6 : gmap Z connectOrigDstValV6;
  PIDAllowlist : gmap Z Z;
  CommAllowlist : gmap (list Z) Z;
  CgroupAllowlist : gmap Z Z;
  InjectionTimeMap : gmap Z Z;
}.
Definition zero_Maps : Maps := mkMaps ∅ ∅ ∅ ∅ ∅ ∅.

Record LoadConfig := mkLoadConfig { CgroupPath : string; cfg_ProxyPort : Z; ProxyIPv4 : string }.
Record State := mkState { state_Maps : Maps; closers : list closer }.

Section bpf.
Context `{BL : BpfLib}.

Definition ErrKeyNotExist : error := External "key does not exist".
Definition LookupOrigDst (m : Maps) (sockCookie : Z) : res ConnectionMetadata :=
  match OrigDstMap m !! sockCookie with
  | Some val => Ok (ToConnectionMetadata val sockCookie)
  | None => Err ErrKeyNotExist
  end.
Definition LookupOrigDstV6 (m : Maps) (sockCookie : Z) : res ConnectionMetadata :=
  match OrigDstMapV6 m !! sockCookie with
  | Some val => Ok (ToConnectionMetadataV6 val sockCookie)
  | None => Err ErrKeyNotExist
  end.

Definition GetCurrentNetns : res Z :=
  ino ← wrap "stat /proc/self/ns/net" (Stat_Ino "/proc/self/ns/net");
  Ok (uint32_of ino).
Definition GetCgroupID (cgroupPath : string) : res Z := wrap ("stat cgroup " +:+ cgroupPath) (Stat_Ino cgroupPath).
Definition GetSocketCookie (fd : Z) : res Z := wrap "getsockopt SO_COOKIE" (GetsockoptUint64 fd).
Definition GetBootTimeNs : res Z :=
  ts ← wrap "clock_gettime CLOCK_BOOTTIME" ClockGettime;
  Ok (uint64_of (ts.1 * 1000000000 + ts.2)).

(** [binary.BigEndian.Uint32] *)
Definition BigEndian_Uint32 (ip : bytes) : Z := foldl (λ acc b, acc * 256 + Z.of_nat b)%Z 0%Z (nats_of_string ip).
Definition ipToUint32 (ipStr : string) : res Z :=
  match ParseIP ipStr with
  | None => Err (Errorf ("invalid IP address: " +:+ ipStr))
  | Some ip => match To4 ip with
               | None => Err (Errorf ("not an IPv4 address: " +:+ ipStr))
               | Some ip4 => Ok (BigEndian_Uint32 ip4)
               end
  end.

(** *** The allow lists. The receiver is the maps with the number of the next [Put]. *)
Definition put (f : Maps → Maps) : recv (Maps * nat) unit := λ s,
  match Put_result s.2 with
  | Ok _ => ((f s.1, S s.2), Ok tt)
  | Err e => ((s.1, S s.2), Err e)
  | Panic w => ((s.1, S s.2), Panic w)
  end.
Definition wrapping {S A} (msg : string) (m : recv S A) : recv S A := λ s, let (s, r) := m s in (s, wrap msg r).

Definition set_pids (m : Maps) (p : gmap Z Z) : Maps :=
  mkMaps (OrigDstMap m) (OrigDstMapV6 m) p (CommAllowlist m) (CgroupAllowlist m) (InjectionTimeMap m).
Definition set_comms (m : Maps) (p : gmap (list Z) Z) : Maps :=
  mkMaps (OrigDstMap m) (OrigDstMapV6 m) (PIDAllowlist m) p (CgroupAllowlist m) (InjectionTimeMap m).
Definition set_cgroups (m : Maps) (p : gmap Z Z) : Maps :=
  mkMaps (OrigDstMap m) (OrigDstMapV6 m) (PIDAllowlist m) (CommAllowlist m) p (InjectionTimeMap m).
Definition set_injection (m : Maps) (p : gmap Z Z) : Maps :=
  mkMaps (OrigDstMap m) (OrigDstMapV6 m) (PIDAllowlist m) (CommAllowlist m) (CgroupAllowlist m) p.

Definition allow_pid (nested : bool) (pid : Z) : recv (Maps * nat) unit :=
  wrapping ("put pid " +:+ pretty pid +:+ " in allowlist")
    (put (λ m, set_pids m (<[pid := if nested then 1%Z else 0%Z]> (PIDAllowlist m)))).
Definition allow_comm (comm : string) : recv (Maps * nat) unit :=
  wrapping ("put comm " +:+ comm +:+ " in allowlist")
    (put (λ m, set_comms m (<[StringToCommInt8 comm := 1%Z]> (CommAllowlist m)))).
Definition allow_cgroup (cgroupPath : string) : recv (Maps * nat) unit :=
  cgroupID ← call (wrap ("get cgroup id for " +:+ cgroupPath) (GetCgroupID cgroupPath));
  wrapping ("put cgroup " +:+ cgroupPath +:+ " in allowlist")
    (put (λ m, set_cgroups m (<[cgroupID := 1%Z]> (CgroupAllowlist m)))).

(** The injection time is set first. *)
Definition LoadUserConfig (config : Types.Config) : recv (Maps * nat) unit :=
  injectionTime ← call (wrap "get boot time" GetBootTimeNs);
  _ ← wrapping "set injection_time" (put (λ m, set_injection m (<[0%Z := injectionTime]> (InjectionTimeMap m))));
  _ ← for_each (allow_pid (Types.ObserveChildTree config)) (default [] (Types.ObservePIDs config));
  _ ← for_each allow_comm (Types.ObserveCommands config);
  for_each allow_cgroup (Types.ObserveCgroups config).

(** *** Loading. The receiver is the list of the open objects, the last one first. *)
Abbreviation kernel := (list closer) (only parsing).
Definition opened (c : closer) : recv kernel unit := assign (cons c).
Definition close (c : closer) : recv kernel unit := λ open, (filter (λ c', c' ≠ c) open, Close_result c).

(** [State.Close]: the closers from the last to the first, all of them. *)
Fixpoint close_all (cs : list closer) : recv kernel (list error) :=
  match cs with
  | [] => mret []
  | c :: cs => λ open,
      match close c open with
      | (open, Panic w) => (open, Panic w)
      | (open, r) => let (open, rest) := close_all cs open in
                     (open, errs ← rest; Ok (match r with Err e => e :: errs | _ => errs end))
      end
  end.
Definition State_Close (st : State) : recv kernel unit :=
  errs ← close_all (reverse (closers st));
  call (match errs with [] => nil_error
        | _ => Err (Errorf ("errors closing bpf state: " +:+ show_list ((λ e, default "" (Error e)) <$> errs))) end).

Definition attachments : list (string * string) :=
  [("connect4", "cgroup_inet4_connect"); ("connect6", "cgroup_inet6_connect"); ("sockops", "cgroup_sock_ops")].

(** A call whose result is not looked at. *)
Definition ignored {A} (m : recv kernel A) : recv kernel unit := λ open,
  match m open with (open, Panic w) => (open, Panic w) | (open, _) => (open, Ok tt) end.

(** The loop over the attachments; the state grows with each link. *)
Fixpoint attach_all (cgroupPath : string) (l : list (string * string)) (st : State) : recv kernel State :=
  match l with
  | [] => mret st
  | (name, attachType) :: l =>
      if negb (has_program name) then
        _ ← ignored (State_Close st);
        call (Err (Errorf ("program not found for " +:+ name)))
      else
        match AttachCgroup cgroupPath attachType with
        | Ok _ =>
            _ ← opened (Link name);
            attach_all cgroupPath l (mkState (state_Maps st) (closers st ++ [Link name]))
        | Err e => _ ← ignored (State_Close st); call (Err (Wrapf ("attach " +:+ name) e))
        | Panic w => call (Panic w)
        end
  end.

(** A failure after the first collection was loaded closes it. *)
Definition or_close_connect {A} (m : res A) : recv kernel A :=
  match m with
  | Err e => _ ← ignored (close ConnectObjects); call (Err e)
  | _ => call m
  end.

Definition Load (cfg : LoadConfig) : recv kernel State :=
  _ ← call (wrap "remove memlock" RemoveMemlock);
  hostNetnsInum ← call (wrap "get current netns" GetCurrentNetns);
  let proxyPort := if bool_decide (cfg_ProxyPort cfg = 0%Z) then Types.DefaultProxyPort else cfg_ProxyPort cfg in
  let proxyIP := if bool_decide (ProxyIPv4 cfg = "") then Types.DefaultProxyBindIPv4 else ProxyIPv4 cfg in
  proxyIPUint32 ← call (wrap "convert proxy IP" (ipToUint32 proxyIP));
  _ ← call (wrap "load connect spec" loadConnect);
  _ ← call (wrap "set proxy_port in connect" (Variable_Set "connect" "proxy_port" proxyPort));
  _ ← call (wrap "set proxy_ip in connect" (Variable_Set "connect" "proxy_ip" proxyIPUint32));
  _ ← call (wrap "set host_netns_inum in connect" (Variable_Set "connect" "host_netns_inum" hostNetnsInum));
  _ ← call (wrap "load connect objects" LoadAndAssign_connect);
  _ ← opened ConnectObjects;
  _ ← or_close_connect (wrap "load sockops spec" loadSockops);
  _ ← or_close_connect (wrap "set host_netns_inum in sockops" (Variable_Set "sockops" "host_netns_inum" hostNetnsInum));
  _ ← or_close_connect (wrap "load sockops objects" LoadAndAssign_sockops);
  _ ← opened SockopsObjects;
  attach_all (CgroupPath cfg) attachments (mkState zero_Maps [ConnectObjects; SockopsObjects]).
End bpf.
End Bpf.

(** ** proxy/recorder.go *)
Module Recorder.

Inductive Direction := DirectionClientToServer | DirectionServerToClient.
Definition Direction_String (d : Direction) : string :=
  match d with DirectionClientToServer => "client_to_server" | DirectionServerToClient => "server_to_client" end.

Record ConnectionRecorder := mkRecorder { config : Types.PayloadConfig; conn : Types.Connection }.

Section recorder.
Context `{CL : CryptoLib}.
Import Types.

(** The times are readings of the clock. *)
Definition NewConnectionRecorder (unixNano now : Z) (metadata : Bpf.ConnectionMetadata) (protocol : string) (config : PayloadConfig)
    : ConnectionRecorder :=
  mkRecorder config
    (mkConnection (pretty (Bpf.SockCookie metadata) +:+ "-" +:+ pretty unixNano) protocol now 0
       (mkProcess (Bpf.PID metadata) (Bpf.Comm metadata) (Bpf.CgroupID metadata))
       (mkEndpoint (Some (Bpf.OrigIP metadata)) (Bpf.m_OrigPort metadata) "") [] 0 0 "").

Definition RecordTCPPayloadDirect (now : Z) (r : ConnectionRecorder) (direction : Direction) (data : bytes)
    : res ConnectionRecorder :=
  payload ← NewPayload data (config r);
  let c := conn r in
  let payloads := TCPPayloads c ++ [mkTCPPayload now (Direction_String direction) payload] in
  let '(sent, received) :=
    match direction with
    | DirectionClientToServer => (uint64_of (BytesSent c + len64 data), BytesReceived c)
    | DirectionServerToClient => (BytesSent c, uint64_of (BytesReceived c + len64 data))
    end in
  Ok (mkRecorder (config r) (mkConnection (ID c) (Protocol c) (StartTime c) (EndTime c) (Process c) (Destination c)
        payloads sent received (Error_ c))).

Definition SetProtocol (r : ConnectionRecorder) (protocol : string) : ConnectionRecorder :=
  let c := conn r in
  mkRecorder (config r) (mkConnection (ID c) protocol (StartTime c) (EndTime c) (Process c) (Destination c)
    (TCPPayloads c) (BytesSent c) (BytesReceived c) (Error_ c)).
Definition SetError (r : ConnectionRecorder) (e : option error) : ConnectionRecorder :=
  match e with
  | None => r
  | Some e =>
      let c := conn r in
      mkRecorder (config r) (mkConnection (ID c) (Protocol c) (StartTime c) (EndTime c) (Process c) (Destination c)
        (TCPPayloads c) (BytesSent c) (BytesReceived c) (default "" (Error e)))
  end.
Definition Finish (now : Z) (r : ConnectionRecorder) : Connection :=
  let c := conn r in
  mkConnection (ID c) (Protocol c) (StartTime c) now (Process c) (Destination c) (TCPPayloads c) (BytesSent c)
    (BytesReceived c) (Error_ c).
End recorder.
End Recorder.

(** * Properties *)
#[local] Unset Default Proof Using.
Section network_theorems.
Context `{CL : CryptoLib} `{RO : RangeOrder} `{BL : Bpf.BpfLib}.
Import Types.

(** ** Payloads *)

Lemma payload_hash_ok data h : hash_sum SHA256 = Some h → payload_hash data = Ok (HexEncode (h data)).
Proof. unfold payload_hash. by intros ->. Qed.

Lemma len64_nonneg d : (0 ≤ len64 d)%Z.
Proof. unfold len64. lia. Qed.

Lemma slice_to_ok d n : (0 ≤ n ≤ len64 d)%Z → slice_to d n = Ok (take_str (Z.to_nat n) d).
Proof. intros H. unfold slice_to, len64 in *. rw slice_in_bounds; [by rw Z.sub_0_r|lia..]. Qed.

(** The payload of [data], as the configuration asks for: the size of all of it, its
    hash, and either nothing of it, a beginning of it, or all of it. *)
Definition payload_spec (h : bytes → bytes) (data : bytes) (c : PayloadConfig) (p : Payload) : Prop :=
  Size p = len64 data ∧
  Hash p = (if RecordPayloadHash c && negb (bool_decide (data = "")) then HexEncode (h data) else "") ∧
  (∃ rest, data = Data p +:+ rest) ∧
  (RecordPayload c = false → Data p = "") ∧
  (RecordPayload c = true → Truncated p = false → Data p = data) ∧
  (Truncated p = true ↔ RecordPayload c = true ∧ (0 < MaxPayloadSize c < len64 data)%Z).

Lemma NewPayload_hash data c h :
  hash_sum SHA256 = Some h →
  (if RecordPayloadHash c then payload_hash data else Ok "") = Ok (if RecordPayloadHash c then HexEncode (h data) else "").
Proof. intros Hh. destruct (RecordPayloadHash c); [by apply payload_hash_ok|done]. Qed.

(** A payload is the one the configuration asks for. *)
Theorem NewPayload_spec data c h :
  hash_sum SHA256 = Some h → (0 ≤ MaxPayloadSize c)%Z →
  ∃ p, NewPayload data c = Ok p ∧ payload_spec h data c p.
Proof.
  intros Hh Hmax. unfold NewPayload, payload_spec. case_bool_decide as Hlen.
  { eexists. split; [done|]. destruct data; [|done]. simpl. rw andb_false_r. unfold len64. simpl.
    do 2 (split; [done|]). split; [by exists ""|]. do 2 (split; [done|]). split; [done|lia]. }
  rw (NewPayload_hash data c h Hh) (bool_decide_eq_false_2 (data = "")); [|by destruct data].
  rewrite andb_true_r. cbn [mbind res_bind].
  destruct (RecordPayload c) eqn:Hrec; [case_bool_decide as Hsz|].
  - eexists. split; [done|]. simpl. do 2 (split; [done|]). split; [exists ""; by rw string_app_nil_r|].
    do 2 (split; [done|]). split; [done|lia].
  - rw slice_to_ok; [cbn [mbind res_bind]|lia]. eexists. split; [done|]. simpl. do 2 (split; [done|]).
    split; [eexists; symmetry; apply take_drop_str|]. do 2 (split; [done|]). split; [lia|done].
  - eexists. split; [done|]. simpl. do 2 (split; [done|]). split; [by exists data|].
    do 2 (split; [done|]). by split; [|intros [? _]].
Qed.

(** The data of a payload that is too long is not left out: its first bytes are
    kept, up to the maximal size. *)
Theorem NewPayload_truncates data c h :
  hash_sum SHA256 = Some h → RecordPayload c = true → (0 < MaxPayloadSize c < len64 data)%Z →
  ∃ p, NewPayload data c = Ok p ∧ Truncated p = true ∧ Data p = take_str (Z.to_nat (MaxPayloadSize c)) data ∧
    len64 (Data p) = MaxPayloadSize c.
Proof.
  intros Hh Hrec Hm. unfold NewPayload. rw bool_decide_eq_false_2; [|unfold len64 in Hm; lia].
  rw (NewPayload_hash data c h Hh) Hrec. cbn [mbind res_bind]. rw bool_decide_eq_false_2; [|lia].
  rw slice_to_ok; [cbn [mbind res_bind]|lia]. eexists. split; [done|]. simpl. split; [done|]. split; [done|].
  unfold len64 in *. rw slen_take. lia.
Qed.

(** A negative maximal size makes a payload that is not empty panic. *)
Lemma NewPayload_negative data c :
  data ≠ "" → RecordPayload c = true → RecordPayloadHash c = false → (MaxPayloadSize c < 0)%Z →
  ∃ why, NewPayload data c = Panic why.
Proof.
  intros Hd Hr Hh Hm. unfold NewPayload. pose proof (len64_nonneg data) as Hl.
  rw bool_decide_eq_false_2; [|by destruct data]. rw Hh Hr. cbn [mbind res_bind].
  rw bool_decide_eq_false_2; [|lia]. unfold slice_to, slice.
  rw bool_decide_eq_false_2; [by eexists|lia].
Qed.

(** ** Summaries *)

Definition count_protocol (proto : string) (l : list Connection) : nat :=
  length (filter (λ c, Protocol c = proto) l).
Definition hosts (l : list Connection) : list string := (λ c, Hostname (Destination c)) <$> l.
Definition ips (l : list Connection) : list string := omap (λ c, IP_String <$> IP (Destination c)) l.
Definition total (f : Connection → Z) (l : list Connection) : Z := foldr (λ c n, f c + n)%Z 0%Z l.

Lemma total_snoc f l c : total f (l ++ [c]) = (total f l + f c)%Z.
Proof. unfold total. induction l as [|x l IH]; simpl; [lia|]. rw IH. lia. Qed.

Lemma uint64_of_add a b : uint64_of (uint64_of a + b) = uint64_of (a + b).
Proof. unfold uint64_of. by rewrite Zplus_mod_idemp_l. Qed.

(** What the loop has counted of the connections it has seen. *)
Record tallied (l : list Connection) (t : tally) : Prop := {
  tallied_counts proto : default 0%Z (t_counts t !! proto) = Z.of_nat (count_protocol proto l);
  tallied_sent : t_sent t = uint64_of (total BytesSent l);
  tallied_received : t_received t = uint64_of (total BytesReceived l);
  tallied_hosts h : is_Some (t_hosts t !! h) ↔ h ≠ "" ∧ h ∈ hosts l;
  tallied_ips i : is_Some (t_ips t !! i) ↔ i ∈ ips l;
}.

Lemma count_connection_tallied l t c : tallied l t → tallied (l ++ [c]) (count_connection t c).
Proof.
  intros []. split; simpl.
  - intros proto. unfold count_protocol in *. rw filter_app length_app Nat2Z.inj_add -tallied_counts0.
    rw filter_cons filter_nil. destruct (decide (Protocol c = proto)) as [<-|Hne].
    + rw lookup_insert_eq. done.
    + rw lookup_insert_ne; [|done]. simpl. lia.
  - rw tallied_sent0 total_snoc. apply uint64_of_add.
  - rw tallied_received0 total_snoc. apply uint64_of_add.
  - intros h. unfold hosts in *. rw fmap_app elem_of_app. simpl. rw list_elem_of_singleton.
    case_bool_decide as Hh; [rw tallied_hosts0; naive_solver|].
    destruct (decide (h = Hostname (Destination c))) as [->|Hne].
    + rw lookup_insert_eq. naive_solver.
    + rw lookup_insert_ne; [|done]. rw tallied_hosts0. naive_solver.
  - intros i. unfold ips in *. rw omap_app elem_of_app -tallied_ips0. simpl.
    destruct (IP (Destination c)) as [ip|]; simpl.
    + rw list_elem_of_singleton. destruct (decide (i = IP_String ip)) as [->|Hne].
      * rw lookup_insert_eq. naive_solver.
      * rw lookup_insert_ne; [|done]. naive_solver.
    + rw elem_of_nil. naive_solver.
Qed.

Lemma tallied_all l : tallied l (foldl count_connection (mkTally ∅ 0 0 ∅ ∅) l).
Proof.
  induction l as [|c l IH] using rev_ind.
  - split; simpl; [done|done|done|intros k..]; (split; [by intros [? ?]|]); [intros [_ H]|intros H]; by apply not_elem_of_nil in H.
  - rw foldl_snoc. by apply count_connection_tallied.
Qed.

Lemma elem_of_keys site (m : gmap string ()) k : k ∈ (range_map site m).*1 ↔ is_Some (m !! k).
Proof.
  rw list_elem_of_fmap. split.
  - intros ([k' []] & -> & H). apply elem_of_range in H. by exists ().
  - intros [[] H]. exists (k, ()). split; [done|by apply elem_of_range].
Qed.

(** The summary counts the connections, also for each protocol; it lists every host
    and every address once, in some order; and its byte counts are the sums, modulo the
    width of the integers. *)
Theorem ComputeSummary_spec l :
  let s := ComputeSummary l in
  TotalConnections s = Z.of_nat (length l) ∧
  (∀ proto, default 0%Z (ProtocolCounts s !! proto) = Z.of_nat (count_protocol proto l)) ∧
  (NoDup (UniqueHosts s) ∧ ∀ h, h ∈ UniqueHosts s ↔ h ≠ "" ∧ h ∈ hosts l) ∧
  (NoDup (UniqueIPs s) ∧ ∀ i, i ∈ UniqueIPs s ↔ i ∈ ips l) ∧
  TotalBytesSent s = uint64_of (total BytesSent l) ∧ TotalBytesReceived s = uint64_of (total BytesReceived l).
Proof.
  destruct (tallied_all l). unfold ComputeSummary. simpl.
  split; [done|]. split; [done|]. split; [|split; [|done]].
  - split; [apply NoDup_fst_range|]. intros h. by rw elem_of_keys.
  - split; [apply NoDup_fst_range|]. intros i. by rw elem_of_keys.
Qed.

(** ** Commands *)

Lemma byte_of_int8_of_byte c : Bpf.byte_of_int8 (Bpf.int8_of_byte c) = c.
Proof.
  unfold Bpf.byte_of_int8, Bpf.int8_of_byte. pose proof (nat_ascii_bounded c) as Hb.
  trans (ascii_of_nat (nat_of_ascii c)); [f_equal|apply ascii_nat_embedding]. case_bool_decide.
  - rewrite Z.mod_small; lia.
  - rewrite <- (Z.mod_add _ 1) by lia. rewrite Z.mod_small; lia.
Qed.

Lemma int8_of_byte_zero c : c ≠ nul → Bpf.int8_of_byte c ≠ 0%Z.
Proof.
  intros Hc H. apply Hc. rw -(byte_of_int8_of_byte c) H. done.
Qed.

Lemma comm_array_zero n : Bpf.int8SliceToString (Bpf.comm_array n "") = "".
Proof. by destruct n. Qed.

Lemma comm_array_roundtrip n s : byte_free nul s = true → Bpf.int8SliceToString (Bpf.comm_array n s) = take_str n s.
Proof.
  revert s; induction n as [|n IH]; intros [|c s] Hs; [done|done|done|].
  cbn [byte_free] in Hs. apply andb_true_iff in Hs as [Hc%negb_true_iff%bool_decide_eq_false Hs].
  cbn [Bpf.comm_array Bpf.int8SliceToString take_str]. rw bool_decide_eq_false_2; [|by apply int8_of_byte_zero].
  by rw byte_of_int8_of_byte IH.
Qed.

Lemma length_comm_array n s : length (Bpf.comm_array n s) = n.
Proof. revert s; induction n as [|n IH]; intros [|c s]; simpl; auto. Qed.

(** The name of a command that the maps are given is read back as its first sixteen
    bytes, when it has no NUL. *)
Theorem comm_roundtrip s :
  byte_free nul s = true →
  length (Bpf.StringToCommInt8 s) = Bpf.MaxCommLen ∧
  Bpf.int8SliceToString (Bpf.StringToCommInt8 s) = take_str Bpf.MaxCommLen s.
Proof. intros Hs. split; [apply length_comm_array|by apply comm_array_roundtrip]. Qed.
Lemma comm_roundtrip_witness :
  length (Bpf.StringToCommInt8 "kworker/u16:0-events") = Bpf.MaxCommLen ∧
  Bpf.int8SliceToString (Bpf.StringToCommInt8 "kworker/u16:0-events") = take_str Bpf.MaxCommLen "kworker/u16:0-events".
Proof. apply (comm_roundtrip "kworker/u16:0-events"). reflexivity. Defined.

(** ** Loading *)
Lemma filter_all_true {T} (P : T → Prop) `{∀ x, Decision (P x)} (l : list T) : (∀ x, x ∈ l → P x) → filter P l = l.
Proof.
  induction l as [|x l IH]; intros Hl; [done|]. rw filter_cons_True; [|apply Hl; constructor].
  f_equal. apply IH. intros y Hy. apply Hl. by constructor.
Qed.
Lemma filter_all_false {T} (P : T → Prop) `{∀ x, Decision (P x)} (l : list T) : (∀ x, x ∈ l → ¬ P x) → filter P l = [].
Proof.
  induction l as [|x l IH]; intros Hl; [done|]. rw filter_cons_False; [|apply Hl; constructor].
  apply IH. intros y Hy. apply Hl. by constructor.
Qed.

Section load.
Context (Hclose : ∀ c, no_panic (Bpf.Close_result c)).
Import Bpf.

Lemma close_all_open cs open : ∃ errs, close_all cs open = (filter (λ c, c ∉ cs) open, Ok errs).
Proof.
  revert open; induction cs as [|c cs IH]; intros open.
  { exists []. cbn [close_all]. unfold mret, recv_ret. f_equal. symmetry. apply filter_all_true.
    by intros x _ ?%not_elem_of_nil. }
  cbn [close_all]. unfold close. destruct (IH (filter (λ c', c' ≠ c) open)) as [errs Herrs].
  assert (filter (λ c0, c0 ∉ cs) (filter (λ c', c' ≠ c) open) = filter (λ c0, c0 ∉ c :: cs) open) as Hf.
  { rewrite list_filter_filter. apply list_filter_iff. intros x. rewrite elem_of_cons. tauto. }
  pose proof (Hclose c) as Hc. destruct (Close_result c) as [|e|w]; [..|by destruct (Hc w)];
    rewrite Herrs Hf; by eexists.
Qed.

(** [Close] closes everything that the state has opened. *)
Lemma State_Close_all st : (State_Close st (reverse (closers st))).1 = [].
Proof.
  unfold State_Close, mbind, recv_bind. destruct (close_all_open (reverse (closers st)) (reverse (closers st))) as [errs ->].
  unfold call. cbn [fst]. apply filter_all_false. by intros x Hx ?.
Qed.

Lemma ignored_Close st : ignored (State_Close st) (reverse (closers st)) = ([], Ok tt).
Proof.
  unfold ignored. pose proof (State_Close_all st) as H.
  destruct (State_Close st (reverse (closers st))) as [open r] eqn:Hs. simpl in H. subst open.
  destruct r as [| |w]; [done..|]. unfold State_Close, mbind, recv_bind in Hs.
  destruct (close_all_open (reverse (closers st)) (reverse (closers st))) as [errs Hc]. rewrite Hc in Hs.
  by destruct errs.
Qed.

Lemma ignored_close_connect : ignored (close ConnectObjects) [ConnectObjects] = ([], Ok tt).
Proof.
  unfold ignored, close. pose proof (Hclose ConnectObjects) as Hc.
  destruct (Close_result ConnectObjects) as [| |w]; [done..|by destruct (Hc w)].
Qed.

(** What [Load] leaves open. *)
Definition leaves (open : list closer) (r : res State) : Prop :=
  match r with Ok st => open = reverse (closers st) | Err _ => open = [] | Panic _ => True end.

Lemma attach_all_leaves path l st :
  let '(open, r) := attach_all path l st (reverse (closers st)) in leaves open r.
Proof.
  revert st; induction l as [|[name at_] l IH]; intros st; [done|]. cbn [attach_all].
  destruct (has_program name); cbn [negb].
  - destruct (AttachCgroup path at_) as [u|e|w]; [|by unfold mbind, recv_bind; rewrite ignored_Close|done].
    pose proof (IH (mkState (state_Maps st) (closers st ++ [Link name]))) as H.
    cbn [closers] in H. rewrite reverse_snoc in H. apply H.
  - unfold mbind, recv_bind. by rewrite ignored_Close.
Qed.

Lemma or_close_connect_leaves {T} (m : res T) (f : T → recv (list closer) State) :
  (∀ x, let '(open, r) := f x [ConnectObjects] in leaves open r) →
  let '(open, r) := (or_close_connect m ≫= f) [ConnectObjects] in leaves open r.
Proof.
  intros Hf. unfold or_close_connect, mbind, recv_bind. destruct m as [x|e|w]; [apply (Hf x)| |done].
  by rewrite ignored_close_connect.
Qed.
Lemma call_leaves {T} (m : res T) (f : T → recv (list closer) State) :
  (∀ x, let '(open, r) := f x [] in leaves open r) → let '(open, r) := (call m ≫= f) [] in leaves open r.
Proof. intros Hf. unfold call, mbind, recv_bind. destruct m as [x|e|w]; [apply (Hf x)|done..]. Qed.

(** Loading leaves no object open in the kernel when it fails, whichever of its calls
    fails; when it succeeds, the open objects are those of the state, in the order in
    which [Close] takes them, and [Close] closes them all. *)
Theorem Load_no_leak cfg :
  match Load cfg [] with
  | (open, Ok st) => open = reverse (closers st) ∧ (State_Close st open).1 = []
  | (open, Err _) => open = []
  | (_, Panic _) => True
  end.
Proof.
  assert (let '(open, r) := Load cfg [] in leaves open r) as H.
  { unfold Load. do 8 (apply call_leaves; intros ?). unfold opened at 1.
    change (let '(open, r) := ((or_close_connect (wrap "load sockops spec" loadSockops) ≫= (λ _,
      or_close_connect (wrap "set host_netns_inum in sockops" (Variable_Set "sockops" "host_netns_inum" x0)) ≫= (λ _,
      or_close_connect (wrap "load sockops objects" LoadAndAssign_sockops) ≫= (λ _, opened SockopsObjects ≫= (λ _,
        attach_all (CgroupPath cfg) attachments (mkState zero_Maps [ConnectObjects; SockopsObjects])))))) [ConnectObjects] : list closer * res State) in leaves open r).
    do 3 (apply or_close_connect_leaves; intros ?).
    apply (attach_all_leaves _ _ (mkState zero_Maps [ConnectObjects; SockopsObjects])). }
  destruct (Load cfg []) as [open [st|e|w]]; [|done..]. cbn [leaves] in H. subst open.
  split; [done|]. apply State_Close_all.
Qed.
End load.
End network_theorems.

(** * A concrete kernel, in which the last program cannot be attached *)
#[export] Instance toy_bpf : Bpf.BpfLib := {|
  Bpf.RemoveMemlock := nil_error;
  Bpf.Stat_Ino _ := Ok 4026531840%Z;
  Bpf.ParseIP s := if bool_decide (s = "127.0.0.1") then Some (str_of_nats [127; 0; 0; 1]) else None;
  Bpf.loadConnect := nil_error;
  Bpf.loadSockops := nil_error;
  Bpf.Variable_Set _ _ _ := nil_error;
  Bpf.LoadAndAssign_connect := nil_error;
  Bpf.LoadAndAssign_sockops := nil_error;
  Bpf.has_program _ := true;
  Bpf.AttachCgroup path at_ :=
    if bool_decide (path = "/sys/fs/cgroup/old" ∧ at_ = "cgroup_sock_ops") then Err (External "invalid argument") else nil_error;
  Bpf.Close_result _ := nil_error;
  Bpf.Put_result _ := nil_error;
  Bpf.ClockGettime := Ok (1000%Z, 0%Z);
  Bpf.GetsockoptUint64 fd := Ok fd;
|}.
Definition toy_load : Bpf.LoadConfig := Bpf.mkLoadConfig "/sys/fs/cgroup/old" 0 "".

Lemma toy_close c : no_panic (Bpf.Close_result c).
Proof. by intros w. Qed.
Lemma Load_no_leak_witness :
  is_ok (Bpf.Load toy_load []).2 = false ∧
  match Bpf.Load toy_load [] with
  | (open, Ok st) => open = reverse (Bpf.closers st) ∧ (Bpf.State_Close st open).1 = []
  | (open, Err _) => open = []
  | (_, Panic _) => True
  end.
Proof. split; [reflexivity|]. apply (Load_no_leak toy_close toy_load). Defined.

Definition toy_payload : Types.PayloadConfig := Types.mkPayloadConfig true true 4.
Lemma NewPayload_spec_witness :
  ∃ p, Types.NewPayload "hello" toy_payload = Ok p ∧ payload_spec (λ d, "h5" +:+ d) "hello" toy_payload p.
Proof. apply (NewPayload_spec "hello" toy_payload (λ d, "h5" +:+ d)); [reflexivity|done]. Defined.
Lemma NewPayload_truncates_witness :
  ∃ p, Types.NewPayload "hello" toy_payload = Ok p ∧ Types.Truncated p = true ∧ Types.Data p = take_str 4 "hello" ∧
    len64 (Types.Data p) = 4%Z.
Proof. apply (NewPayload_truncates "hello" toy_payload (λ d, "h5" +:+ d)); [reflexivity..|done]. Defined.
