(* ===== verification/NetworkProxy.v ===== *)
(** attestation/networktrace/proxy/tcp.go (Module Proxy) and
    attestation/networktrace/networktrace.go (Module NetTrace): the transparent proxy and
    the attestor that runs it while the command runs. What one connection does is a
    function of what its sockets do; the goroutines are a step relation. *)
From S2P Require Import Prelude Receiver GoStrings GoText Errors Crypto Digest Hooks NetworkTrace Toy.
From stdpp Require Import options.

(** ** io *)

(** [errors.Is] with an error of another package, by its text. *)
Fixpoint errors_Is (target : string) (e : error) : bool :=
  match e with
  | External m => bool_decide (m = target)
  | Wrapf _ e | Wrapped _ e _ => errors_Is target e
  | Joined es => existsb (errors_Is target) es
  | _ => false
  end.
Definition io_EOF : string := "EOF".
Definition net_ErrClosed : string := "use of closed network connection".

(** One direction of a connection: the chunks that reads give, the error after them
    ([None] for the end of the file), and how many bytes of the n-th chunk the other
    socket takes, with the error of the write; and whether its last call waits until a
    deadline is set on the sockets, so that it gives the error of the deadline. *)
Record transfer := mkTransfer {
  reads : list bytes;
  read_end : option error;
  write : nat → bytes → nat * option error;
  waits : bool;
}.

(** [io.Copy] into [io.MultiWriter(conn, buffer)]: what the socket took, what the buffer
    got, and the error. The buffer is only written after the socket took the chunk. *)
Fixpoint io_copy (k : nat) (chunks : list bytes) (t : transfer) (sent buf : bytes) : bytes * bytes * option error :=
  match chunks with
  | [] => (sent, buf, read_end t)
  | chunk :: chunks =>
      let (n, ew) := write t k chunk in
      let sent := sent +:+ take_str n chunk in
      match ew with
      | Some e => (sent, buf, Some e)
      | None =>
          if bool_decide (n = slen chunk) then io_copy (S k) chunks t sent (buf +:+ chunk)
          else (sent, buf, Some (External "short write"))
      end
  end.
Definition relay (t : transfer) : bytes * bytes * option error := io_copy 0 (reads t) t "" "".

(** ** proxy/tcp.go *)
Module Proxy.

(** A connection that was accepted: what its calls give. *)
Record client := mkClient {
  is_TCPConn : bool;
  SyscallConn : option error;
  RawControl : option error;
  fd : Z;
  LocalIP : option bytes;
}.
Definition returned (e : option error) : err := match e with None => nil_error | Some e => Err e end.
(** A connection to the original destination: the two directions, and whether that of the
    client ends first. *)
Record session := mkSession { up : transfer; down : transfer; up_first : bool }.
Class NetLib := { Listen : string → err; Dial : string → res session }.

Record TCPProxy := mkProxy {
  maps : Bpf.Maps;
  port : Z;
  proxyBindIPv4 : string;
  payloadConfig : Types.PayloadConfig;
}.
Definition NewTCPProxy (maps : Bpf.Maps) (port : Z) (proxyBindIPv4 : string) (enableHTTP : bool)
    (payloadConfig : Types.PayloadConfig) : TCPProxy :=
  mkProxy maps port proxyBindIPv4 payloadConfig.

Section proxy.
Context `{CL : CryptoLib} `{BL : Bpf.BpfLib} `{NL : NetLib}.

(** The listeners that [Start] opens, one after the other: the receiver is the list of
    the open ones. *)
Definition addr (p : TCPProxy) : string := "[::1]:" +:+ pretty (port p).
Definition addrV4 (p : TCPProxy) : string := proxyBindIPv4 p +:+ ":" +:+ pretty (port p).
Definition listen_v6 (p : TCPProxy) : recv (list string) unit :=
  _ ← call (wrap ("listen on " +:+ addr p) (Listen (addr p)));
  assign (cons (addr p)).
Definition listen_v4 (p : TCPProxy) : recv (list string) unit :=
  match Listen (addrV4 p) with
  | Ok _ => assign (cons (addrV4 p))
  | Err e => _ ← assign (filter (λ a, a ≠ addr p)); call (Err (Wrapf ("listen on " +:+ addrV4 p) e))
  | Panic w => call (Panic w)
  end.

Definition getConnectionMetadata (p : TCPProxy) (sockCookie : Z) (isIPv6 : bool) : res Bpf.ConnectionMetadata :=
  if isIPv6 then wrap "lookup IPv6 original destination" (Bpf.LookupOrigDstV6 (maps p) sockCookie)
  else wrap "lookup IPv4 original destination" (Bpf.LookupOrigDst (maps p) sockCookie).

Definition target (metadata : Bpf.ConnectionMetadata) : string :=
  match To4 (Bpf.OrigIP metadata) with
  | None => "[" +:+ IP_String (Bpf.OrigIP metadata) +:+ "]:" +:+ pretty (Bpf.m_OrigPort metadata)
  | Some _ => IP_String (Bpf.OrigIP metadata) +:+ ":" +:+ pretty (Bpf.m_OrigPort metadata)
  end.
Definition connectToOriginalDestination (metadata : Bpf.ConnectionMetadata) : res session := Dial (target metadata).

(** The buffers of the two directions, and the first of the errors in the order in which
    the directions end. *)
Definition not_EOF (e : option error) : option error :=
  e ← e; if errors_Is io_EOF e then None else Some e.
Definition bidirectionalCopy (s : session) : bytes * bytes * option error :=
  let '(_, clientToServerBuf, e_up) := relay (up s) in
  let '(_, serverToClientBuf, e_down) := relay (down s) in
  let (err1, err2) := if up_first s then (e_up, e_down) else (e_down, e_up) in
  (clientToServerBuf, serverToClientBuf, match not_EOF err1 with Some e => Some e | None => not_EOF err2 end).

(** The arguments of [recordConnection]. *)
Record record_args := mkArgs { arg_metadata : Bpf.ConnectionMetadata; c2sData : bytes; s2cData : bytes; connErr : option error }.

(** [HandleConnection] up to the copy: the metadata and the connection to the server. *)
Definition open_session (p : TCPProxy) (c : client) : res (Bpf.ConnectionMetadata * session) :=
  if negb (is_TCPConn c) then Err (Errorf "not a TCP connection")
  else
    _ ← wrap "get syscall conn" (returned (SyscallConn c));
    _ ← wrap "raw conn control" (returned (RawControl c));
    sockCookie ← wrap "get socket cookie" (Bpf.GetSocketCookie (fd c));
    let isIPv6 := match LocalIP c with Some ip => bool_decide (To4 ip = None) | None => false end in
    metadata ← wrap "get connection metadata" (getConnectionMetadata p sockCookie isIPv6);
    serverConn ← wrap "connect to original destination" (connectToOriginalDestination metadata);
    Ok (metadata, serverConn).

(** Whether both directions come to an end: one that waits only does when the shutdown
    has set a deadline on the sockets. *)
Definition ends (isForceClosed : bool) (s : session) : bool := isForceClosed || negb (waits (up s) || waits (down s)).

(** The error, and what is recorded by a goroutine of its own; [None] as long as the
    copy waits. [isForceClosed] is what the function that [context.AfterFunc] runs
    stores, when it sets the deadline. *)
Definition HandleConnection (p : TCPProxy) (isForceClosed : bool) (c : client) : option (err * option record_args) :=
  match open_session p c with
  | Err e => Some (Err e, None)
  | Panic w => Some (Panic w, None)
  | Ok (metadata, serverConn) =>
      if negb (ends isForceClosed serverConn) then None
      else
        let '(c2s, s2c, copyErr) := bidirectionalCopy serverConn in
        let copyErr :=
          e ← copyErr;
          if isForceClosed || errors_Is io_EOF e || errors_Is net_ErrClosed e then None else Some e in
        Some (returned copyErr, Some (mkArgs metadata c2s s2c copyErr))
  end.

(** [recordConnection] up to the channel, with the readings of the clock. *)
Definition recordConnection (clock : nat → Z) (p : TCPProxy) (a : record_args) : res Types.Connection :=
  let recorder := Recorder.NewConnectionRecorder (clock 0) (clock 1) (arg_metadata a) "tcp" (payloadConfig p) in
  recorder ← Recorder.RecordTCPPayloadDirect (clock 2) recorder Recorder.DirectionClientToServer (c2sData a);
  recorder ← Recorder.RecordTCPPayloadDirect (clock 3) recorder Recorder.DirectionServerToClient (s2cData a);
  Ok (Recorder.Finish (clock 4) (Recorder.SetError recorder (connErr a))).
End proxy.
End Proxy.

(** ** networktrace.go *)
Module NetTrace.

Definition Name : string := "network-trace".
Definition Type_ : string := "https://witness.dev/attestations/network-trace/v0.1".
Definition IsExperimental : bool := true.

Record NetworkTrace := mkTrace {
  StartTime : Z;
  EndTime : Z;
  Connections : list Types.Connection;
  Summary : Types.NetworkSummary;
  Config_ : Types.Config;
}.
Record Attestor := mkAttestor { config : Types.Config; NetworkTrace_ : NetworkTrace }.
Definition zero_Config : Types.Config := Types.mkConfig None [] [] false 0 "" (Types.mkPayloadConfig false false 0).
Definition NewWithConfig (config : Types.Config) : Attestor :=
  mkAttestor config (mkTrace 0 0 [] (Types.mkSummary 0 ∅ [] [] 0 0) zero_Config).
Definition New : Attestor := NewWithConfig Types.DefaultConfig.

Definition set_config (a : Attestor) (c : Types.Config) : Attestor := mkAttestor c (NetworkTrace_ a).
Definition set_start (a : Attestor) (now : Z) : Attestor :=
  let t := NetworkTrace_ a in
  mkAttestor (config a) (mkTrace now (EndTime t) (Connections t) (Summary t) (config a)).
Definition set_end (a : Attestor) (now : Z) : Attestor :=
  let t := NetworkTrace_ a in
  mkAttestor (config a) (mkTrace (StartTime t) now (Connections t) (Summary t) (Config_ t)).
Definition add_connection (a : Attestor) (conn : Types.Connection) : Attestor :=
  let t := NetworkTrace_ a in
  mkAttestor (config a) (mkTrace (StartTime t) (EndTime t) (Connections t ++ [conn]) (Summary t) (Config_ t)).
Definition set_summary (a : Attestor) (s : Types.NetworkSummary) : Attestor :=
  let t := NetworkTrace_ a in
  mkAttestor (config a) (mkTrace (StartTime t) (EndTime t) (Connections t) s (Config_ t)).

Definition DeclareHooks (hooks : ExecuteHooks) : res ExecuteHooks :=
  hooks ← ExecuteHooks_Declare hooks Name StagePreExec;
  ExecuteHooks_Declare hooks Name StagePreExit.

Section attestor.
Context `{CL : CryptoLib} `{RO : RangeOrder} `{BL : Bpf.BpfLib} `{NL : Proxy.NetLib}.

Definition initBPF (a : Attestor) : recv (list Bpf.closer) Bpf.State :=
  Bpf.Load (Bpf.mkLoadConfig "/sys/fs/cgroup" (Types.ProxyPort (config a)) (Types.ProxyBindIPv4 (config a))).

(** The hook of PreExec: the process is added to the ones observed, and the maps are
    told. The receiver is the attestor with the maps and the number of the next [Put]. *)
Definition observe (c : Types.Config) (pid : Z) : Types.Config :=
  Types.mkConfig (Some (default [] (Types.ObservePIDs c) ++ [uint32_of pid])) (Types.ObserveCgroups c)
    (Types.ObserveCommands c) (Types.ObserveChildTree c) (Types.ProxyPort c) (Types.ProxyBindIPv4 c) (Types.Payload_ c).
Definition PreExec (now pid : Z) : recv (Attestor * (Bpf.Maps * nat)) unit := λ s,
  let a := set_start (set_config s.1 (observe (config s.1) pid)) now in
  let (m, r) := Bpf.LoadUserConfig (config a) s.2 in
  ((a, m), r).

(** The registration of the two hooks, each with its channel closed at once. *)
Definition registerHooks (hooks : ExecuteHooks) (preExec preExit : Z → err) : res ExecuteHooks :=
  let n := length (Hooks.hooks hooks) in
  hooks ← RegisterHook hooks StagePreExec Name preExec;
  hooks ← RegisterHook (CloseReady hooks n) StagePreExit Name preExit;
  Ok (CloseReady hooks (S n)).

(** *** The goroutines *)

(** Where [Attest] is, after [initBPF]: it waits for the proxy to be ready, for the end of
    the command, for the proxy, and for the collector. *)
Inductive attest_pc := WaitReady | WaitShutdown | WaitProxy | WaitCollector | Returned (e : err).
(** Where [Start] is: before the listeners, with that of IPv6 only, serving, waiting for the recordings, or returned. *)
Inductive proxy_pc := Starting | HalfOpen | Serving | Draining | Stopped.
#[export] Instance proxy_pc_eq_dec : EqDecision proxy_pc.
Proof. solve_decision. Defined.

(** [accepted] are connections that [Accept] returned and whose goroutine is not counted
    yet, [handling] and [recording] are the goroutines that the WaitGroup counts; with a
    handler, whether the shutdown has set the deadline of its sockets.
    [recorded] is what the handlers gave to be recorded so far. *)
Record world := mkWorld {
  pc : attest_pc;
  proxy : proxy_pc;
  ctx_done : bool;
  cancelled : bool;
  signalled : bool;
  ready : bool;
  accepted : list Proxy.client;
  handling : list (Proxy.client * bool);
  recording : list Types.Connection;
  channel : list Types.Connection;
  closed : bool;
  collecting : bool;
  attestor : Attestor;
  panicked : bool;
  recorded : list Types.Connection;
}.
Definition channel_capacity : nat := 100.
Definition initial (a : Attestor) : world :=
  mkWorld WaitReady Starting false false false false [] [] [] [] false true a false [].

Definition w_pc (w : world) (p : attest_pc) : world :=
  mkWorld p (proxy w) (ctx_done w) (cancelled w) (signalled w) (ready w) (accepted w) (handling w) (recording w)
    (channel w) (closed w) (collecting w) (attestor w) (panicked w) (recorded w).
Definition w_proxy (w : world) (p : proxy_pc) (r : bool) : world :=
  mkWorld (pc w) p (ctx_done w) (cancelled w) (signalled w) r (accepted w) (handling w) (recording w)
    (channel w) (closed w) (collecting w) (attestor w) (panicked w) (recorded w).
Definition w_cancel (w : world) (done : bool) : world :=
  mkWorld (pc w) (proxy w) done true (signalled w) (ready w) (accepted w) (handling w) (recording w)
    (channel w) (closed w) (collecting w) (attestor w) (panicked w) (recorded w).
Definition w_signal (w : world) : world :=
  mkWorld (pc w) (proxy w) (ctx_done w) (cancelled w) true (ready w) (accepted w) (handling w) (recording w)
    (channel w) (closed w) (collecting w) (attestor w) (panicked w) (recorded w).
Definition w_accepted (w : world) (l : list Proxy.client) : world :=
  mkWorld (pc w) (proxy w) (ctx_done w) (cancelled w) (signalled w) (ready w) l (handling w) (recording w)
    (channel w) (closed w) (collecting w) (attestor w) (panicked w) (recorded w).
Definition w_handling (w : world) (l : list (Proxy.client * bool)) : world :=
  mkWorld (pc w) (proxy w) (ctx_done w) (cancelled w) (signalled w) (ready w) (accepted w) l (recording w)
    (channel w) (closed w) (collecting w) (attestor w) (panicked w) (recorded w).
Definition w_record (w : world) (l : list Types.Connection) (history : list Types.Connection) : world :=
  mkWorld (pc w) (proxy w) (ctx_done w) (cancelled w) (signalled w) (ready w) (accepted w) (handling w) l
    (channel w) (closed w) (collecting w) (attestor w) (panicked w) history.
Definition w_channel (w : world) (l : list Types.Connection) : world :=
  mkWorld (pc w) (proxy w) (ctx_done w) (cancelled w) (signalled w) (ready w) (accepted w) (handling w) (recording w)
    l (closed w) (collecting w) (attestor w) (panicked w) (recorded w).
Definition w_close (w : world) : world :=
  mkWorld (pc w) (proxy w) (ctx_done w) (cancelled w) (signalled w) (ready w) (accepted w) (handling w) (recording w)
    (channel w) true (collecting w) (attestor w) (panicked w) (recorded w).
Definition w_collected (w : world) : world :=
  mkWorld (pc w) (proxy w) (ctx_done w) (cancelled w) (signalled w) (ready w) (accepted w) (handling w) (recording w)
    (channel w) (closed w) false (attestor w) (panicked w) (recorded w).
Definition w_attestor (w : world) (a : Attestor) : world :=
  mkWorld (pc w) (proxy w) (ctx_done w) (cancelled w) (signalled w) (ready w) (accepted w) (handling w) (recording w)
    (channel w) (closed w) (collecting w) a (panicked w) (recorded w).
Definition w_panic (w : world) : world :=
  mkWorld (pc w) (proxy w) (ctx_done w) (cancelled w) (signalled w) (ready w) (accepted w) (handling w) (recording w)
    (channel w) (closed w) (collecting w) (attestor w) true (recorded w).

(** The proxy, and what [registerHooks] returns. *)
Variable p : Proxy.TCPProxy.
Variable hooks_result : err.

(** A step is an ordinary one; or the goroutine of a connection that [Accept] returned
    is counted after [Wait] has returned; or the hook of PreExit runs a second time. *)
Inductive label := Ordinary | LateAccept | SecondExit.

Inductive step : label → world → world → Prop :=
  (* Attest *)
  | proxy_ready w :
      pc w = WaitReady → ready w = true → hooks_result = nil_error → step Ordinary w (w_pc w WaitShutdown)
  | hooks_failed w e :
      pc w = WaitReady → ready w = true → hooks_result = Err e →
      step Ordinary w (w_pc (w_cancel w (ctx_done w)) (Returned (Err e)))
  | shutdown w :
      pc w = WaitShutdown → signalled w || ctx_done w = true →
      step Ordinary w (w_pc (w_cancel w (ctx_done w)) WaitProxy)
  | proxy_exited w :
      pc w = WaitProxy → proxy w = Stopped → step Ordinary w (w_pc (w_close w) WaitCollector)
  | collector_exited w :
      pc w = WaitCollector → collecting w = false →
      step Ordinary w
        (w_pc (w_attestor w (set_summary (attestor w) (Types.ComputeSummary (Connections (NetworkTrace_ (attestor w))))))
           (Returned (if ctx_done w then Err (External "context canceled") else nil_error)))
  (* the context of the caller, and the hooks *)
  | context_done w : step Ordinary w (w_cancel w true)
  | pre_exec w now pid m a m' r :
      PreExec now pid (attestor w, m) = ((a, m'), r) → step Ordinary w (w_attestor w a)
  | pre_exit w now :
      signalled w = false → step Ordinary w (w_signal (w_attestor w (set_end (attestor w) now)))
  | pre_exit_again w now :
      signalled w = true → step SecondExit w (w_panic (w_attestor w (set_end (attestor w) now)))
  (* the collector *)
  | collect w conn l :
      collecting w = true → channel w = conn :: l →
      step Ordinary w (w_channel (w_attestor w (add_connection (attestor w) conn)) l)
  | collector_done w :
      collecting w = true → closed w = true → channel w = [] → step Ordinary w (w_collected w)
  (* Start *)
  | listening_v6 w open open' :
      proxy w = Starting → Proxy.listen_v6 p open = (open', Ok tt) → step Ordinary w (w_proxy w HalfOpen (ready w))
  | not_listening_v6 w open open' e :
      proxy w = Starting → Proxy.listen_v6 p open = (open', Err e) → step Ordinary w (w_proxy w Stopped (ready w))
  | listening_v4 w open open' :
      proxy w = HalfOpen → Proxy.listen_v4 p open = (open', Ok tt) → step Ordinary w (w_proxy w Serving true)
  | not_listening_v4 w open open' e :
      proxy w = HalfOpen → Proxy.listen_v4 p open = (open', Err e) → step Ordinary w (w_proxy w Stopped (ready w))
  | stop_listening w :
      proxy w = Serving → cancelled w = true → step Ordinary w (w_proxy w Draining (ready w))
  | wait_returned w :
      proxy w = Draining → handling w = [] → recording w = [] → step Ordinary w (w_proxy w Stopped (ready w))
  (* connections *)
  | accept w c : proxy w = HalfOpen ∨ proxy w = Serving → step Ordinary w (w_accepted w (c :: accepted w))
  | start_handling w c l1 l2 :
      accepted w = l1 ++ c :: l2 →
      step (if decide (proxy w = Stopped) then LateAccept else Ordinary) w
        (w_handling (w_accepted w (l1 ++ l2)) ((c, false) :: handling w))
  | force_close w c l1 l2 :
      cancelled w = true → handling w = l1 ++ (c, false) :: l2 →
      step Ordinary w (w_handling w (l1 ++ (c, true) :: l2))
  | handled w c forced l1 l2 e :
      handling w = l1 ++ (c, forced) :: l2 → Proxy.HandleConnection p forced c = Some (e, None) → no_panic e →
      step Ordinary w (w_handling w (l1 ++ l2))
  | handled_recording w c forced l1 l2 e args clock conn :
      handling w = l1 ++ (c, forced) :: l2 → Proxy.HandleConnection p forced c = Some (e, Some args) →
      Proxy.recordConnection clock p args = Ok conn →
      step Ordinary w (w_record (w_handling w (l1 ++ l2)) (conn :: recording w) (conn :: recorded w))
  | record_panics w c forced l1 l2 e args clock why :
      handling w = l1 ++ (c, forced) :: l2 → Proxy.HandleConnection p forced c = Some (e, Some args) →
      Proxy.recordConnection clock p args = Panic why → step Ordinary w (w_panic w)
  | send w conn l1 l2 :
      recording w = l1 ++ conn :: l2 → closed w = false → length (channel w) < channel_capacity →
      step Ordinary w (w_channel (w_record w (l1 ++ l2) (recorded w)) (channel w ++ [conn]))
  | send_on_closed w conn l1 l2 :
      recording w = l1 ++ conn :: l2 → closed w = true → step Ordinary w (w_panic w).

Definition orderly : world → world → Prop := step Ordinary.
Definition any_step (w w' : world) : Prop := ∃ l, step l w w'.

(** The proxy can listen on both addresses, and every connection that is handled can be
    recorded. *)
Definition listens : Prop := Proxy.Listen (Proxy.addr p) = nil_error ∧ Proxy.Listen (Proxy.addrV4 p) = nil_error.
Definition records : Prop :=
  ∀ clock forced c e args, Proxy.HandleConnection p forced c = Some (e, Some args) →
    is_Some (match Proxy.recordConnection clock p args with Ok c => Some c | _ => None end).

Lemma start_handling_orderly w c l1 l2 :
  accepted w = l1 ++ c :: l2 → proxy w ≠ Stopped → orderly w (w_handling (w_accepted w (l1 ++ l2)) ((c, false) :: handling w)).
Proof. intros Ha Hp. pose proof (start_handling w c l1 l2 Ha) as H. by rewrite decide_False in H. Qed.

(** *** The invariant of orderly runs *)
Definition serving (w : world) : Prop := proxy w = Serving ∨ proxy w = Draining ∨ proxy w = Stopped.
Record inv (a : Attestor) (w : world) : Prop := {
  inv_account : recorded w ++ Connections (NetworkTrace_ a) ≡ₚ
                recording w ++ channel w ++ Connections (NetworkTrace_ (attestor w));
  inv_panic : panicked w = false;
  inv_ready : ready w = true → serving w;
  inv_not_ready : ready w = false → (proxy w = Starting ∨ proxy w = HalfOpen ∨ proxy w = Stopped) ∧ pc w = WaitReady;
  inv_stopped : ready w = true → proxy w = Stopped → handling w = [] ∧ recording w = [];
  inv_closed : closed w = true → ready w = true ∧ proxy w = Stopped;
  inv_pc : pc w = WaitProxy → cancelled w = true;
  inv_collector : pc w = WaitCollector → closed w = true;
  inv_collecting : collecting w = false → closed w = true ∧ channel w = [];
  inv_listens : proxy w = Stopped → ready w = false → ¬ listens;
  inv_returned e : pc w = Returned e → hooks_result = nil_error →
    collecting w = false ∧
    Summary (NetworkTrace_ (attestor w)) = Types.ComputeSummary (Connections (NetworkTrace_ (attestor w)));
}.

Lemma initial_inv a : inv a (initial a).
Proof. split; simpl; [done|done|done|naive_solver|done|done|done|done|done|done|done]. Qed.

Lemma PreExec_trace now pid a m a' m' r :
  PreExec now pid (a, m) = ((a', m'), r) →
  Connections (NetworkTrace_ a') = Connections (NetworkTrace_ a) ∧ Summary (NetworkTrace_ a') = Summary (NetworkTrace_ a).
Proof. unfold PreExec. cbn [fst snd]. destruct (Bpf.LoadUserConfig _ _) as [m1 r1]. by intros [= <- _ _]. Qed.

Lemma listen_v6_fails open open' e : Proxy.listen_v6 p open = (open', Err e) → ¬ listens.
Proof.
  unfold Proxy.listen_v6, mbind, recv_bind, call. intros H [Hl _]. by rw Hl in H.
Qed.
Lemma listen_v4_fails open open' e : Proxy.listen_v4 p open = (open', Err e) → ¬ listens.
Proof. unfold Proxy.listen_v4. intros H [_ Hl]. by rw Hl in H. Qed.

Lemma inv_pc_ready a w : inv a w → pc w ≠ WaitReady → ready w = true.
Proof. intros [] Hpc. destruct (ready w); [done|]. by destruct (inv_not_ready0 eq_refl). Qed.

Lemma step_inv a w w' : records → inv a w → orderly w w' → inv a w'.
Proof.
  intros Hrec Hinv Hs. pose proof (inv_pc_ready _ _ Hinv) as Hpr. destruct Hinv.
  unfold orderly in Hs. remember Ordinary as l eqn:Hl.
  assert (∀ c l1 l2, handling w = l1 ++ c :: l2 → ready w = true → proxy w = Stopped → False) as Hhandling.
  { intros c l1 l2 Hh Hr Hp. destruct (inv_stopped0 Hr Hp) as [Hh' _]. rw Hh' in Hh. by destruct l1. }
  assert (∀ c l1 l2, recording w = l1 ++ c :: l2 → ready w = true → proxy w = Stopped → False) as Hrecording.
  { intros c l1 l2 Hh Hr Hp. destruct (inv_stopped0 Hr Hp) as [_ Hh']. rw Hh' in Hh. by destruct l1. }
  destruct Hs; try done;
    try (match goal with H : PreExec _ _ _ = _ |- _ => apply PreExec_trace in H as [Hc Hsum] end).
  all: split; unfold serving in *; simpl in *; try assumption; try done.
  all: try (intros; simplify_eq; by eauto using listen_v6_fails, listen_v4_fails).
  all: try (intros; simplify_eq; by intuition congruence).
  - (* the process starts *) intros e' Hpc Hh. rw Hc Hsum. eauto.
  - (* collecting *) rewrite inv_account0 H0. apply Permutation_app_head. rw assoc_L. by rw -Permutation_cons_append.
  - intros e' Hpc Hh. destruct (inv_returned0 e' Hpc Hh). congruence.
  - intros e' Hpc Hh. destruct (inv_returned0 e' Hpc Hh). congruence.
  - (* a handler starts *) intros _ Hp. by rewrite decide_True in Hl.
  - (* a handler is forced *) intros Hr Hp. by destruct (Hhandling _ _ _ H0 Hr Hp).
  - (* a handler ends *) intros Hr Hp. by destruct (Hhandling _ _ _ H Hr Hp).
  - intros Hr Hp. by destruct (Hhandling _ _ _ H Hr Hp).
  - (* a recording panics *) destruct (Hrec clock forced c e args H0) as [x Hx]. by rewrite H1 in Hx.
  - (* a recording is sent *) rewrite inv_account0 H -!assoc_L. apply Permutation_app_head. simpl.
    rewrite !(assoc_L app l2). apply Permutation_middle.
  - intros Hr Hp. by destruct (Hrecording _ _ _ H Hr Hp).
  - destruct (inv_closed0 H0) as [Hr Hp]. by destruct (Hrecording _ _ _ H Hr Hp).
Qed.

Lemma orderly_inv a w : records → rtc orderly (initial a) w → inv a w.
Proof.
  intros Hrec. apply (rtc_ind_r (λ w, inv a w)); [apply initial_inv|].
  intros w1 w2 _ Hs Hi. by apply (step_inv a w1).
Qed.

(** C12: When [Attest] returns after an orderly run, every connection that was handled and
    recorded is in the trace exactly once, next to what was there before; nothing
    panicked, and the summary is the one of the connections in the trace. *)
Theorem Attest_records_all a w e :
  records → hooks_result = nil_error → rtc orderly (initial a) w → pc w = Returned e →
  Connections (NetworkTrace_ (attestor w)) ≡ₚ recorded w ++ Connections (NetworkTrace_ a) ∧
  Summary (NetworkTrace_ (attestor w)) = Types.ComputeSummary (Connections (NetworkTrace_ (attestor w))) ∧
  panicked w = false.
Proof.
  intros Hrec Hh Hrun Hpc. destruct (orderly_inv a w Hrec Hrun).
  destruct (inv_returned0 e Hpc Hh) as [Hc Hs]. destruct (inv_collecting0 Hc) as [Hcl Hch].
  destruct (inv_closed0 Hcl) as [Hr Hp]. destruct (inv_stopped0 Hr Hp) as [_ Hre].
  split; [|done]. by rw inv_account0 Hre Hch.
Qed.

(** *** When a listener cannot be opened *)
Lemma silent_step w w' :
  ¬ listens → pc w = WaitReady → ready w = false →
  proxy w = Starting ∨ proxy w = HalfOpen ∧ Proxy.Listen (Proxy.addr p) = nil_error ∨ proxy w = Stopped → any_step w w' →
  pc w' = WaitReady ∧ ready w' = false ∧
  (proxy w' = Starting ∨ proxy w' = HalfOpen ∧ Proxy.Listen (Proxy.addr p) = nil_error ∨ proxy w' = Stopped).
Proof.
  intros Hno Hpc Hr Hp [l Hs]. destruct Hs; simpl; try done; try congruence; try (by destruct Hp as [|[[]|]]; auto; congruence).
  - split; [done|]. split; [done|]. right. left. split; [done|].
    unfold Proxy.listen_v6, mbind, recv_bind, call in H0.
    destruct (Proxy.Listen (Proxy.addr p)) as [[]| |]; done.
  - destruct Hp as [Hp|[[_ H6]|Hp]]; [congruence| |congruence]. exfalso. apply Hno. split; [done|].
    unfold Proxy.listen_v4 in H0. destruct (Proxy.Listen (Proxy.addrV4 p)) as [[]| |]; done.
Qed.

(** When one of the two addresses of the proxy cannot be listened on, [Attest] waits
    for ever for a proxy that has already returned, whatever the command, the hooks and
    the context do. *)
Theorem Attest_hangs_without_listener a w :
  ¬ listens → rtc any_step (initial a) w → pc w = WaitReady.
Proof.
  intros Hno Hrun.
  enough (pc w = WaitReady ∧ ready w = false ∧
    (proxy w = Starting ∨ proxy w = HalfOpen ∧ Proxy.Listen (Proxy.addr p) = nil_error ∨ proxy w = Stopped)) as [? _]; [done|].
  revert w Hrun. apply rtc_ind_r; [by auto|]. intros w1 w2 _ Hs (Hpc & Hr & Hp). by apply (silent_step w1).
Qed.

(** *** The shutdown ends *)

(** What the shutdown has left to do. *)
Definition pc_rank (c : attest_pc) : nat :=
  match c with WaitReady => 4 | WaitShutdown => 3 | WaitProxy => 2 | WaitCollector => 1 | Returned _ => 0 end.
Definition proxy_rank (c : proxy_pc) : nat :=
  match c with Starting => 4 | HalfOpen => 3 | Serving => 2 | Draining => 1 | Stopped => 0 end.
Definition handler_rank (h : Proxy.client * bool) : nat := if h.2 then 3 else 4.
Definition work (w : world) : nat :=
  pc_rank (pc w) + proxy_rank (proxy w) + sum_list_with handler_rank (handling w) + 2 * length (recording w) +
  length (channel w) + (if collecting w then 1 else 0).

(** A step of the shutdown: an orderly one that leaves less to do. *)
Definition progress (w : world) : Prop :=
  ∃ w', orderly w w' ∧ work w' < work w ∧ signalled w' || ctx_done w' = signalled w || ctx_done w.

(** The calls of a handler return: the one for the cookie of a socket, and the
    connection to the destination (which has a timeout). *)
Definition calls_return : Prop :=
  (∀ fd, no_panic (Bpf.GetsockoptUint64 fd)) ∧ (∀ target, no_panic (Proxy.Dial target)).

Lemma open_session_returns c : calls_return → no_panic (Proxy.open_session p c).
Proof.
  intros [Hcookie Hdial] w. unfold Proxy.open_session. destruct (Proxy.is_TCPConn c); [cbn [negb]|done].
  destruct (Proxy.SyscallConn c); [done|]. destruct (Proxy.RawControl c); [done|].
  cbn [Proxy.returned nil_error wrap mbind res_bind]. unfold Bpf.GetSocketCookie.
  destruct (Bpf.GetsockoptUint64 (Proxy.fd c)) as [cookie| |w'] eqn:Hc; cbn [wrap mbind res_bind];
    [|done|by destruct (Hcookie (Proxy.fd c) w')].
  unfold Proxy.getConnectionMetadata, Bpf.LookupOrigDst, Bpf.LookupOrigDstV6, Proxy.connectToOriginalDestination.
  assert (∀ md, (serverConn ← wrap "connect to original destination" (Proxy.Dial (Proxy.target md)); Ok (md, serverConn)) ≠ Panic w).
  { intros md. pose proof (Hdial (Proxy.target md)) as Hd. destruct (Proxy.Dial (Proxy.target md)) as [| |w']; [done..|].
    by destruct (Hd w'). }
  repeat case_match; simplify_eq/=; done.
Qed.

(** A handler whose sockets have a deadline comes to an end, without a panic. *)
Lemma forced_handler_ends c :
  calls_return → ∃ e args, Proxy.HandleConnection p true c = Some (e, args) ∧ no_panic e.
Proof.
  intros Hcalls. unfold Proxy.HandleConnection. pose proof (open_session_returns c Hcalls) as Ho.
  destruct (Proxy.open_session p c) as [[md sess]|e|w]; [|by exists (Err e), None|by destruct (Ho w)].
  cbn [Proxy.ends orb negb]. destruct (Proxy.bidirectionalCopy sess) as [[c2s s2c] copyErr].
  eexists _, _. split; [done|]. by destruct copyErr.
Qed.

Ltac take step := eexists; split; [unfold orderly; eapply step; eauto|split; [unfold work; simpl in *|done]].

Lemma progress_channel a w : inv a w → channel w ≠ [] → progress w.
Proof.
  intros [] Hc. destruct (channel w) as [|conn l] eqn:Hch; [done|].
  destruct (collecting w) eqn:Hco; [|by destruct (inv_collecting0 eq_refl)].
  take collect. rw Hco Hch. simpl. lia.
Qed.

Lemma progress_recording a w : inv a w → channel w = [] → recording w ≠ [] → progress w.
Proof.
  intros [] Hc Hr. destruct (recording w) as [|conn l] eqn:Hre; [done|].
  destruct (closed w) eqn:Hcl.
  { destruct (inv_closed0 eq_refl) as [H1 H2]. by destruct (inv_stopped0 H1 H2). }
  eexists. split; [unfold orderly; apply (send w conn [] l); [done|done|rw Hc; unfold channel_capacity; simpl; lia]|].
  split; [|done]. unfold work. simpl. rw Hc Hre. simpl. lia.
Qed.

(** After the cancellation, a handler is given its deadline, and ends. *)
Lemma progress_handling w : records → calls_return → cancelled w = true → handling w ≠ [] → progress w.
Proof.
  intros Hrec Hcalls Hcan Hh. destruct (handling w) as [|[c [|]] l] eqn:Hha; [done| |].
  - destruct (forced_handler_ends c Hcalls) as (e & [args|] & Hc & He).
    + destruct (Hrec (λ _, 0%Z) true c e args Hc) as [conn Hconn].
      destruct (Proxy.recordConnection _ p args) as [conn'| |] eqn:Hr; [|done..].
      eexists. split; [unfold orderly; by apply (handled_recording w c true [] l e args (λ _, 0%Z) conn')|].
      split; [|done]. unfold work. simpl. rw Hha. simpl. lia.
    + eexists. split; [unfold orderly; by apply (handled w c true [] l e)|].
      split; [|done]. unfold work. simpl. rw Hha. simpl. lia.
  - eexists. split; [unfold orderly; by apply (force_close w c [] l)|].
    split; [|done]. unfold work. simpl. rw Hha. simpl. lia.
Qed.

Lemma progress_listening w : listens → proxy w = Starting ∨ proxy w = HalfOpen → progress w.
Proof.
  intros [H6 H4] [Hp|Hp].
  - eexists. split; [unfold orderly; apply (listening_v6 w [] [Proxy.addr p]); [done|]|].
    { unfold Proxy.listen_v6, mbind, recv_bind, call. by rw H6. }
    split; [|done]. unfold work. simpl. rw Hp. simpl. lia.
  - eexists. split; [unfold orderly; apply (listening_v4 w [] [Proxy.addrV4 p]); [done|]|].
    { unfold Proxy.listen_v4. by rw H4. }
    split; [|done]. unfold work. simpl. rw Hp. simpl. lia.
Qed.

(** [Attest] goes on as soon as the proxy is ready and the shutdown was asked for. *)
Lemma progress_waiting w :
  no_panic hooks_result → ready w = true → signalled w || ctx_done w = true →
  pc w = WaitReady ∨ pc w = WaitShutdown → progress w.
Proof.
  intros Hh Hr Hsig [Hw|Hw].
  - destruct hooks_result as [[]|e|why] eqn:Hres; [| |by destruct (Hh why)].
    + take proxy_ready. rw Hw. simpl. lia.
    + take hooks_failed. rw Hw. simpl. lia.
  - take shutdown. rw Hw. simpl. lia.
Qed.

Lemma progress_shutdown a w :
  inv a w → ready w = true → handling w = [] → recording w = [] → channel w = [] →
  pc w = WaitProxy ∨ pc w = WaitCollector → progress w.
Proof.
  intros [] Hr Hha Hre Hch [Hw|Hw].
  - destruct (proxy w) eqn:Hp.
    1, 2: exfalso; destruct (inv_ready0 Hr) as [?|[?|?]]; congruence.
    + take stop_listening. rw Hp. simpl. lia.
    + take wait_returned. rw Hp. simpl. lia.
    + take proxy_exited. rw Hw. simpl. lia.
  - destruct (collecting w) eqn:Hc.
    + take collector_done. rw Hc. simpl. lia.
    + take collector_exited. rw Hw. simpl. lia.
Qed.

Lemma work_left a w :
  records → calls_return → listens → no_panic hooks_result → inv a w → signalled w || ctx_done w = true →
  (∃ e, pc w = Returned e) ∨ progress w.
Proof.
  intros Hrec Hcalls Hl Hh Hinv Hsig.
  destruct (decide (channel w = [])) as [Hch|?]; [|right; by eapply progress_channel].
  destruct (decide (length (recording w) = 0)) as [Hre%nil_length_inv|Hre];
    [|right; eapply progress_recording; [done..|intros H; by rw H in Hre]].
  destruct (ready w) eqn:Hr; cycle 1.
  { right. destruct (inv_not_ready _ _ Hinv Hr) as [[Hp|[Hp|Hp]] _]; [apply progress_listening; auto..|].
    by destruct (inv_listens _ _ Hinv Hp Hr). }
  destruct (pc w) eqn:Hpc; [..|left; by eexists]; right; [apply progress_waiting; auto..| |].
  all: destruct (decide (length (handling w) = 0)) as [Hha%nil_length_inv|Hha];
    [by eapply progress_shutdown; eauto|apply progress_handling; [done|done| |intros H; by rw H in Hha]].
  - by apply Hinv.
  - destruct (inv_closed _ _ Hinv (inv_collector _ _ Hinv Hpc)) as [H1 H2].
    destruct (inv_stopped _ _ Hinv H1 H2) as [H3 _]. by rw H3 in Hha.
Qed.

(** C23: The shutdown ends, also while connections are open: when the proxy can listen on
    its two addresses, from every state of an orderly run in which the command has ended
    or the context is done, [Attest] can return. A connection whose copy would wait for
    ever is given a deadline and ends. (It is assumed that the calls of a handler and the
    registration of the hooks return, with an error or not, and that what is handled can
    be recorded, see [records_when]; without a listener [Attest] never returns, see
    [Attest_hangs_without_listener].) *)
Theorem Attest_can_return a w :
  records → calls_return → listens → no_panic hooks_result → rtc orderly (initial a) w →
  signalled w || ctx_done w = true → ∃ w' e, rtc orderly w w' ∧ pc w' = Returned e.
Proof.
  intros Hrec Hcalls Hl Hh Hrun Hsig. pose proof (orderly_inv a w Hrec Hrun) as Hinv. clear Hrun.
  induction w as [w IH] using (well_founded_induction (well_founded_ltof _ work)).
  destruct (work_left a w) as [[e He]|(w' & Hs & Hlt & Heq)]; [done..|by exists w, e|].
  destruct (IH w') as (w2 & e & Hrun & He); [done|by rw Heq|by eapply step_inv|].
  exists w2, e. split; [by eapply rtc_l|done].
Qed.

(** *** A connection that is accepted too late *)
Lemma any_of l w w' w2 : step l w w' → rtc any_step w' w2 → rtc any_step w w2.
Proof. intros Hs. apply rtc_l. by exists l. Qed.

(** A connection that [Accept] returned before the listeners were closed, and whose
    goroutine is counted after [Wait] has returned, is recorded on the closed channel:
    the run panics. *)
Theorem late_accept_panics a c e args clock conn :
  listens → hooks_result = nil_error →
  Proxy.HandleConnection p false c = Some (e, Some args) → Proxy.recordConnection clock p args = Ok conn →
  ∃ w, rtc any_step (initial a) w ∧ panicked w = true.
Proof.
  intros [H6 H4] Hh Hc Hr. eexists. split.
  - eapply any_of; [apply (listening_v6 _ [] [Proxy.addr p]); [done|]|].
    { unfold Proxy.listen_v6, mbind, recv_bind, call. by rw H6. }
    eapply any_of; [apply (listening_v4 _ [] [Proxy.addrV4 p]); [done|]|].
    { unfold Proxy.listen_v4. by rw H4. }
    eapply any_of; [by apply proxy_ready|].
    eapply any_of; [apply (accept _ c); by right|].
    eapply any_of; [by apply (pre_exit _ 0)|].
    eapply any_of; [by apply shutdown|].
    eapply any_of; [by apply stop_listening|].
    eapply any_of; [by apply wait_returned|].
    eapply any_of; [by apply proxy_exited|].
    eapply any_of; [by apply (start_handling _ c [] [])|].
    eapply any_of; [by apply (handled_recording _ c false [] [] e args clock conn)|].
    eapply any_of; [by apply (send_on_closed _ conn [] [])|].
    apply rtc_refl.
  - done.
Qed.
End attestor.
End NetTrace.

(** * What is relayed and recorded *)
#[local] Unset Default Proof Using.

Fixpoint chunks_text (l : list bytes) : bytes := match l with [] => "" | c :: l => c +:+ chunks_text l end.
(** A socket takes at most what it is given. *)
Definition writes_ok (t : transfer) : Prop := ∀ k c, (write t k c).1 ≤ slen c.

Lemma io_copy_spec t k chunks sent buf :
  writes_ok t →
  let '(sent', buf', e) := io_copy k chunks t sent buf in
  ∃ copied extra more, buf' = buf +:+ copied ∧ sent' = sent +:+ copied +:+ extra ∧
    chunks_text chunks = copied +:+ extra +:+ more ∧ (e = None → extra = "" ∧ more = "").
Proof.
  intros Hw. revert k sent buf; induction chunks as [|c chunks IH]; intros k sent buf; cbn [io_copy].
  { exists "", "", "". rw !string_app_nil_r. by simpl. }
  pose proof (Hw k c) as Hn. destruct (write t k c) as [n [e|]]; cbn [fst] in Hn.
  - exists "", (take_str n c), (drop_str n c +:+ chunks_text chunks). rw string_app_nil_r. split; [done|]. split; [done|].
    split; [|done]. by rw string_app_nil_l -string_app_assoc take_drop_str.
  - case_bool_decide as Heq.
    + specialize (IH (S k) (sent +:+ take_str n c) (buf +:+ c)).
      destruct (io_copy _ _ _ _ _) as [[s' b'] e]. destruct IH as (copied & extra & more & -> & -> & Hc & He).
      exists (c +:+ copied), extra, more. rw take_str_all; [|lia]. rw !string_app_assoc. split; [done|]. split; [done|].
      split; [|done]. cbn [chunks_text]. by rw Hc.
    + exists "", (take_str n c), (drop_str n c +:+ chunks_text chunks). rw string_app_nil_r. split; [done|]. split; [done|].
      split; [|done]. by rw string_app_nil_l -string_app_assoc take_drop_str.
Qed.

(** The buffer of a direction is what the other socket took of what was read, except
    for a last chunk that it only took a part of; without an error it is all of it. *)
Theorem relay_spec t :
  writes_ok t →
  ∃ extra more, (relay t).1.1 = (relay t).1.2 +:+ extra ∧ chunks_text (reads t) = (relay t).1.1 +:+ more ∧
    ((relay t).2 = None → (relay t).1.2 = chunks_text (reads t)).
Proof.
  intros Hw. pose proof (io_copy_spec t 0 (reads t) "" "" Hw) as H. unfold relay.
  destruct (io_copy 0 (reads t) t "" "") as [[s' b'] e]. destruct H as (copied & extra & more & -> & -> & Hc & He).
  exists extra, more. cbn [fst snd]. rw !string_app_nil_l. split; [done|]. rw Hc string_app_assoc. split; [done|].
  intros Hn. destruct (He Hn) as [-> ->]. by rw !string_app_nil_r.
Qed.

Section recorded.
Context `{CL : CryptoLib} `{BL : Bpf.BpfLib} `{NL : Proxy.NetLib}.
Import Proxy.

(** Recording succeeds when payloads can be made. *)
Lemma recordConnection_ok clock p a h :
  hash_sum SHA256 = Some h → (0 ≤ Types.MaxPayloadSize (payloadConfig p))%Z →
  ∃ pu pd, payload_spec h (c2sData a) (payloadConfig p) pu ∧ payload_spec h (s2cData a) (payloadConfig p) pd ∧
    recordConnection clock p a = Ok (Types.mkConnection
      (pretty (Bpf.SockCookie (arg_metadata a)) +:+ "-" +:+ pretty (clock 0)) "tcp" (clock 1) (clock 4)
      (Types.mkProcess (Bpf.PID (arg_metadata a)) (Bpf.Comm (arg_metadata a)) (Bpf.CgroupID (arg_metadata a)))
      (Types.mkEndpoint (Some (Bpf.OrigIP (arg_metadata a))) (Bpf.m_OrigPort (arg_metadata a)) "")
      [Types.mkTCPPayload (clock 2) "client_to_server" pu; Types.mkTCPPayload (clock 3) "server_to_client" pd]
      (uint64_of (len64 (c2sData a))) (uint64_of (len64 (s2cData a)))
      (match connErr a with Some e => default "" (Error e) | None => "" end)).
Proof.
  intros Hh Hm.
  destruct (NewPayload_spec (c2sData a) _ h Hh Hm) as (pu & Hu & Hpu).
  destruct (NewPayload_spec (s2cData a) _ h Hh Hm) as (pd & Hd & Hpd).
  exists pu, pd. split; [done|]. split; [done|]. unfold recordConnection, Recorder.RecordTCPPayloadDirect.
  cbn [Recorder.NewConnectionRecorder Recorder.config]. rw Hu. cbn -[len64 uint64_of]. rw Hd. cbn -[len64 uint64_of].
  by destruct (connErr a).
Qed.

Lemma records_when p h : hash_sum SHA256 = Some h → (0 ≤ Types.MaxPayloadSize (payloadConfig p))%Z → NetTrace.records p.
Proof.
  intros Hh Hm clock forced c e args _.
  destruct (recordConnection_ok clock p args h Hh Hm) as (pu & pd & _ & _ & ->). by eexists.
Qed.

(** The address that the client used is an IPv6 one. *)
Definition client_is_v6 (c : client) : bool :=
  match LocalIP c with Some ip => bool_decide (To4 ip = None) | None => false end.

(** The error of the copy is the end of one of the two directions. *)
Lemma bidirectionalCopy_spec s :
  ∃ copyErr, bidirectionalCopy s = ((relay (up s)).1.2, (relay (down s)).1.2, copyErr) ∧
    (copyErr = None ∨ copyErr = (relay (up s)).2 ∨ copyErr = (relay (down s)).2).
Proof.
  unfold bidirectionalCopy. destruct (relay (up s)) as [[s1 b1] e1]. destruct (relay (down s)) as [[s2 b2] e2].
  destruct (up_first s); (eexists; split; [done|]); cbn [fst snd]; destruct e1 as [e1|], e2 as [e2|]; cbn;
    repeat case_match; auto.
Qed.

Lemma HandleConnection_recorded p forced c e args :
  HandleConnection p forced c = Some (e, Some args) →
  ∃ cookie sess, Bpf.GetSocketCookie (fd c) = Ok cookie ∧
    getConnectionMetadata p cookie (client_is_v6 c) = Ok (arg_metadata args) ∧ Dial (target (arg_metadata args)) = Ok sess ∧
    c2sData args = (relay (up sess)).1.2 ∧ s2cData args = (relay (down sess)).1.2 ∧
    e = returned (connErr args) ∧
    (connErr args = None ∨ forced = false ∧ (connErr args = (relay (up sess)).2 ∨ connErr args = (relay (down sess)).2)).
Proof.
  unfold HandleConnection, open_session. intros H.
  destruct (is_TCPConn c); cbn [negb] in H; [|done].
  destruct (SyscallConn c); cbn [returned nil_error wrap mbind res_bind] in H; [done|].
  destruct (RawControl c); cbn [returned nil_error wrap mbind res_bind] in H; [done|].
  destruct (Bpf.GetSocketCookie (fd c)) as [cookie| |]; cbn [wrap mbind res_bind] in H; [|done..].
  change (match LocalIP c with Some ip => bool_decide (To4 ip = None) | None => false end) with (client_is_v6 c) in H.
  destruct (getConnectionMetadata p cookie (client_is_v6 c)) as [md| |] eqn:Hm; cbn [wrap mbind res_bind] in H; [|done..].
  unfold connectToOriginalDestination in H.
  destruct (Dial (target md)) as [sess| |] eqn:Hd; cbn [wrap mbind res_bind] in H; [|done..].
  destruct (negb (ends forced sess)); [done|].
  destruct (bidirectionalCopy_spec sess) as (copyErr & Hcopy & Herr). rewrite Hcopy in H. injection H as <- <-.
  exists cookie, sess. cbn [arg_metadata c2sData s2cData connErr]. do 6 (split; [done|]).
  destruct copyErr as [e|]; [|by left]. cbn. destruct forced; cbn [orb]; [by left|].
  case_match; [by left|]. right. split; [done|]. destruct Herr as [?|?]; [done|]. cbn. done.
Qed.

(** C26: A connection is recorded with the destination and the process that the maps have
    for its cookie, and with what was relayed in each direction: one payload for each,
    with its label, whose size, hash and data are those the configuration asks for, and
    whose number of bytes is counted modulo the width of the integers. The recorded error
    is the one that handling gave, which is the end of one of the directions, and there
    is none when the shutdown has forced the end. *)
Theorem recorded_connection p forced c e args clock conn h :
  hash_sum SHA256 = Some h → (0 ≤ Types.MaxPayloadSize (payloadConfig p))%Z →
  HandleConnection p forced c = Some (e, Some args) → recordConnection clock p args = Ok conn →
  ∃ cookie md sess pu pd,
    Bpf.GetSocketCookie (fd c) = Ok cookie ∧ getConnectionMetadata p cookie (client_is_v6 c) = Ok md ∧
    Dial (target md) = Ok sess ∧
    Types.ID conn = pretty (Bpf.SockCookie md) +:+ "-" +:+ pretty (clock 0) ∧ Types.Protocol conn = "tcp" ∧
    Types.Destination conn = Types.mkEndpoint (Some (Bpf.OrigIP md)) (Bpf.m_OrigPort md) "" ∧
    Types.Process conn = Types.mkProcess (Bpf.PID md) (Bpf.Comm md) (Bpf.CgroupID md) ∧
    Types.BytesSent conn = uint64_of (len64 (relay (up sess)).1.2) ∧
    Types.BytesReceived conn = uint64_of (len64 (relay (down sess)).1.2) ∧
    Types.TCPPayloads conn =
      [Types.mkTCPPayload (clock 2) "client_to_server" pu; Types.mkTCPPayload (clock 3) "server_to_client" pd] ∧
    payload_spec h (relay (up sess)).1.2 (payloadConfig p) pu ∧
    payload_spec h (relay (down sess)).1.2 (payloadConfig p) pd ∧
    match e with
    | Ok _ => Types.Error_ conn = ""
    | Err e => Types.Error_ conn = default "" (Error e) ∧ forced = false ∧
               (Some e = (relay (up sess)).2 ∨ Some e = (relay (down sess)).2)
    | Panic _ => False
    end.
Proof.
  intros Hh Hm Hc Hr.
  destruct (HandleConnection_recorded _ _ _ _ _ Hc) as (cookie & sess & Hck & Hmd & Hd & Hu & Hdn & He & Herr).
  destruct (recordConnection_ok clock p args h Hh Hm) as (pu & pd & Hpu & Hpd & Hok). rewrite Hok in Hr. injection Hr as <-.
  exists cookie, (arg_metadata args), sess, pu, pd. rewrite -Hu -Hdn. cbn -[len64 uint64_of].
  do 12 (split; [done|]). rewrite He. destruct (connErr args) as [e'|]; cbn [returned]; [|done].
  split; [done|]. destruct Herr as [?|[? Herr]]; [done|]. split; [done|]. done.
Qed.

(** A connection whose destination refuses is not recorded at all. *)
Lemma refused_not_recorded p forced c md sess_err :
  (∀ cookie, Bpf.GetSocketCookie (fd c) = Ok cookie → getConnectionMetadata p cookie (client_is_v6 c) = Ok md) →
  Dial (target md) = Err sess_err → ∃ e, HandleConnection p forced c = Some (e, None).
Proof.
  intros Hmd Hd. unfold HandleConnection, open_session.
  destruct (is_TCPConn c); [|by eexists]. destruct (SyscallConn c); [by eexists|]. destruct (RawControl c); [by eexists|].
  cbn [negb returned nil_error wrap mbind res_bind]. destruct (Bpf.GetSocketCookie (fd c)) as [cookie| |]; [|by eexists..].
  cbn [wrap mbind res_bind]. change (match LocalIP c with Some ip => bool_decide (To4 ip = None) | None => false end) with (client_is_v6 c).
  rw Hmd; [|done]. cbn [wrap mbind res_bind]. unfold connectToOriginalDestination. rw Hd. by eexists.
Qed.
End recorded.

(** ** The hooks *)
Lemma Declare_ok h h' a st : ExecuteHooks_Declare h a st = Ok h' →
  hooks h' = hooks h ∧ declarationToFulfilled h' = <[(a, st) := false]> (declarationToFulfilled h) ∧
  declarationToFulfilled h !! (a, st) = None.
Proof. unfold ExecuteHooks_Declare. destruct (declarationToFulfilled h !! (a, st)) eqn:Hd; [done|]. intros [= <-]. done. Qed.

Lemma RegisterHook_declared h a st fn :
  declarationToFulfilled h !! (a, st) = Some false →
  ∃ h', RegisterHook h st a fn = Ok h' ∧ hooks h' = hooks h ++ [mkHook a st fn false] ∧
    declarationToFulfilled h' = <[(a, st) := true]> (declarationToFulfilled h).
Proof. unfold RegisterHook. intros ->. by eexists. Qed.

Lemma CloseReady_last h l a st fn n :
  hooks h = l ++ [mkHook a st fn false] → n = length l → hooks (CloseReady h n) = l ++ [mkHook a st fn true].
Proof. intros Hh ->. cbn [CloseReady hooks]. rewrite Hh -(Nat.add_0_r (length l)) alter_app_r. done. Qed.

(** After [DeclareHooks], the registration of the two hooks succeeds: they are the
    last ones, in the order of the stages, both ready, so that the command does not wait
    for them, and both declarations are fulfilled. *)
Theorem hooks_registered h h1 f g :
  NetTrace.DeclareHooks h = Ok h1 →
  ∃ h2, NetTrace.registerHooks h1 f g = Ok h2 ∧
    hooks h2 = hooks h ++ [mkHook NetTrace.Name StagePreExec f true; mkHook NetTrace.Name StagePreExit g true] ∧
    declarationToFulfilled h2 !! (NetTrace.Name, StagePreExec) = Some true ∧
    declarationToFulfilled h2 !! (NetTrace.Name, StagePreExit) = Some true.
Proof.
  unfold NetTrace.DeclareHooks. intros (h0 & Hd1%Declare_ok & Hd2%Declare_ok)%res_bind_ok.
  destruct Hd1 as (Hh0 & Hm0 & _), Hd2 as (Hh1 & Hm1 & _).
  unfold NetTrace.registerHooks.
  destruct (RegisterHook_declared h1 NetTrace.Name StagePreExec f) as (h2 & -> & Hh2 & Hm2).
  { rewrite Hm1 lookup_insert_ne; [|done]. rewrite Hm0. apply lookup_insert_eq. }
  cbn [mbind res_bind].
  destruct (RegisterHook_declared (CloseReady h2 (length (hooks h1))) NetTrace.Name StagePreExit g) as (h3 & -> & Hh3 & Hm3).
  { simpl. rewrite Hm2 lookup_insert_ne; [|done]. rewrite Hm1. apply lookup_insert_eq. }
  eexists. split; [done|]. split; [|split].
  - rewrite Hh1 Hh0 in Hh2. pose proof (CloseReady_last h2 _ _ _ _ (length (hooks h1)) Hh2) as Hr.
    rewrite Hh1 Hh0 in Hr. specialize (Hr eq_refl). rewrite Hh1 Hh0 Hr -assoc_L in Hh3.
    change [mkHook NetTrace.Name StagePreExec f true; mkHook NetTrace.Name StagePreExit g true]
      with ([mkHook NetTrace.Name StagePreExec f true] ++ [mkHook NetTrace.Name StagePreExit g true]).
    rewrite assoc_L. apply CloseReady_last; [by rewrite Hh3 assoc_L|]. rewrite Hh1 Hh0 length_app. simpl. lia.
  - simpl. rewrite Hm3 lookup_insert_ne; [|done]. simpl. rewrite Hm2. apply lookup_insert_eq.
  - simpl. rewrite Hm3. apply lookup_insert_eq.
Qed.
Lemma hooks_registered_witness :
  ∃ h1 h2, NetTrace.DeclareHooks zero_hooks = Ok h1 ∧ NetTrace.registerHooks h1 (λ _, nil_error) (λ _, nil_error) = Ok h2 ∧
    RunHooks h2 StagePreExec 17 = Some nil_error.
Proof.
  eexists. destruct (hooks_registered zero_hooks _ (λ _, nil_error) (λ _, nil_error) eq_refl) as (h2 & H & _).
  exists h2. split; [reflexivity|]. split; [exact H|]. injection H as <-. reflexivity.
Defined.

(** * A concrete run: one connection to 10.0.0.1:80, from the client with descriptor 7 *)
Definition whole_writes (k : nat) (c : bytes) : nat * option error := (slen c, None).
#[export] Instance toy_net : Proxy.NetLib := {|
  Proxy.Listen _ := nil_error;
  Proxy.Dial target :=
    if bool_decide (target = "10.0.0.1:80")
    then Ok (Proxy.mkSession (mkTransfer ["GET /"; " HTTP/1.0"] None whole_writes false) (mkTransfer ["200 OK"] None whole_writes false) true)
    else if bool_decide (target = "10.0.0.1:81")
    then Ok (Proxy.mkSession (mkTransfer ["SUBSCRIBE"] (Some (External "i/o timeout")) whole_writes true)
               (mkTransfer [] (Some (External "i/o timeout")) whole_writes true) true)
    else Err (External "connection refused");
|}.
Definition toy_maps : Bpf.Maps :=
  Bpf.mkMaps {[7%Z := Bpf.mkOrigDst 16777226 80 1 4711 (Bpf.StringToCommInt8 "curl");
               8%Z := Bpf.mkOrigDst 16777226 81 1 4711 (Bpf.StringToCommInt8 "curl")]} ∅ ∅ ∅ ∅ ∅.
Definition toy_proxy : Proxy.TCPProxy := Proxy.NewTCPProxy toy_maps 8888 "127.0.0.1" true Types.DefaultPayloadConfig.
Definition toy_client : Proxy.client := Proxy.mkClient true None None 7 (Some (str_of_nats [127; 0; 0; 1])).
Definition toy_args : Proxy.record_args := default (Proxy.mkArgs (Bpf.mkMetadata 0 0 0 "" "" 0) "" "" None) (h ← Proxy.HandleConnection toy_proxy false toy_client; h.2).
Definition toy_clock (n : nat) : Z := 1000 + Z.of_nat n.
Definition toy_connection : res Types.Connection := Proxy.recordConnection toy_clock toy_proxy toy_args.

Example toy_connection_is : toy_connection = Ok (Types.mkConnection "7-1000" "tcp" 1001 1004 (Types.mkProcess 4711 "curl" 1)
  (Types.mkEndpoint (Some (str_of_nats [10; 0; 0; 1])) 80 "")
  [Types.mkTCPPayload 1002 "client_to_server" (Types.mkPayload 14 "" (HexEncode "h5GET / HTTP/1.0") false);
   Types.mkTCPPayload 1003 "server_to_client" (Types.mkPayload 6 "" (HexEncode "h5200 OK") false)] 14 6 "").
Proof. by vm_compute. Qed.

Import NetTrace.

Lemma toy_records : records toy_proxy.
Proof. by apply (records_when toy_proxy (λ d, "h5" +:+ d)). Qed.

(** The process of the command connects once, and exits. *)
Definition toy_conn : Types.Connection :=
  match toy_connection with Ok c => c | _ => Types.mkConnection "" "" 0 0 (Types.mkProcess 0 "" 0) (Types.mkEndpoint None 0 "") [] 0 0 "" end.
Lemma toy_run :
  ∃ w, rtc (orderly toy_proxy nil_error) (initial New) w ∧ pc w = Returned nil_error ∧ recorded w = [toy_conn].
Proof.
  eexists. split.
  - eapply rtc_l; [apply (listening_v6 _ _ _ [] [Proxy.addr toy_proxy]); done|].
    eapply rtc_l; [apply (listening_v4 _ _ _ [] [Proxy.addrV4 toy_proxy]); done|].
    eapply rtc_l; [by apply proxy_ready|].
    eapply rtc_l; [apply (accept _ _ _ toy_client); by right|].
    eapply rtc_l; [by apply (start_handling_orderly _ _ _ toy_client [] [])|].
    eapply rtc_l; [by apply (handled_recording _ _ _ toy_client false [] [] nil_error toy_args toy_clock toy_conn)|].
    eapply rtc_l; [apply (send _ _ _ toy_conn [] []); simpl; unfold channel_capacity; lia || done|].
    eapply rtc_l; [by apply (pre_exit _ _ _ 2000)|].
    eapply rtc_l; [by apply shutdown|].
    eapply rtc_l; [by apply stop_listening|].
    eapply rtc_l; [by apply wait_returned|].
    eapply rtc_l; [by apply proxy_exited|].
    eapply rtc_l; [by apply (collect _ _ _ toy_conn [])|].
    eapply rtc_l; [by apply collector_done|].
    eapply rtc_l; [by apply collector_exited|].
    apply rtc_refl.
  - done.
Qed.

Lemma Attest_records_all_witness :
  ∃ w, pc w = Returned nil_error ∧ recorded w = [toy_conn] ∧
  Connections (NetworkTrace_ (attestor w)) ≡ₚ recorded w ++ Connections (NetworkTrace_ New) ∧
  Summary (NetworkTrace_ (attestor w)) = Types.ComputeSummary (Connections (NetworkTrace_ (attestor w))) ∧
  panicked w = false.
Proof.
  destruct toy_run as (w & Hrun & Hpc & Hre). exists w. split; [exact Hpc|]. split; [exact Hre|].
  apply (Attest_records_all toy_proxy nil_error New w nil_error toy_records eq_refl Hrun Hpc).
Defined.

(** A proxy whose address is taken. *)
Definition taken_net : Proxy.NetLib := {|
  Proxy.Listen a := if HasSuffix a ":8888" then Err (External "address already in use") else nil_error;
  Proxy.Dial _ := Err (External "connection refused") |}.
Lemma Attest_hangs_without_listener_witness :
  pc (initial New) = WaitReady.
Proof.
  refine (Attest_hangs_without_listener (NL:=taken_net) toy_proxy nil_error New (initial New) _ (rtc_refl _ _)).
  intros [H _]. discriminate H.
Defined.

Lemma relay_spec_witness :
  let t := mkTransfer ["GET /"; " HTTP/1.0"] None whole_writes false in
  ∃ extra more, (relay t).1.1 = (relay t).1.2 +:+ extra ∧ chunks_text (reads t) = (relay t).1.1 +:+ more ∧
    ((relay t).2 = None → (relay t).1.2 = chunks_text (reads t)).
Proof. apply (relay_spec (mkTransfer ["GET /"; " HTTP/1.0"] None whole_writes false)). intros k c. apply le_n. Defined.

Lemma late_accept_panics_witness :
  ∃ w, rtc (any_step toy_proxy nil_error) (initial New) w ∧ panicked w = true.
Proof.
  apply (late_accept_panics toy_proxy nil_error New toy_client nil_error toy_args toy_clock toy_conn);
    [split; reflexivity|reflexivity|reflexivity|reflexivity].
Defined.

Lemma toy_calls_return : calls_return.
Proof.
  split; [by intros fd w|]. intros target w. cbn [Proxy.Dial toy_net]. by repeat case_bool_decide.
Qed.

(** A client on descriptor 8 whose connection neither side ends: its handler waits, and
    only ends when the shutdown forces it. *)
Definition idle_client : Proxy.client := Proxy.mkClient true None None 8 (Some (str_of_nats [127; 0; 0; 1])).
Example idle_waits : Proxy.HandleConnection toy_proxy false idle_client = None.
Proof. by vm_compute. Qed.
Example idle_forced :
  match Proxy.HandleConnection toy_proxy true idle_client with
  | Some (e, Some args) => e = nil_error ∧ Proxy.c2sData args = "SUBSCRIBE"
  | _ => False
  end.
Proof. by vm_compute. Qed.

(** The command ends while the idle connection is open. *)
Lemma idle_run :
  ∃ w, rtc (orderly toy_proxy nil_error) (initial New) w ∧ signalled w = true ∧ handling w = [(idle_client, false)].
Proof.
  eexists. split.
  - eapply rtc_l; [apply (listening_v6 _ _ _ [] [Proxy.addr toy_proxy]); done|].
    eapply rtc_l; [apply (listening_v4 _ _ _ [] [Proxy.addrV4 toy_proxy]); done|].
    eapply rtc_l; [by apply proxy_ready|].
    eapply rtc_l; [apply (accept _ _ _ idle_client); by right|].
    eapply rtc_l; [by apply (start_handling_orderly _ _ _ idle_client [] [])|].
    eapply rtc_l; [by apply (pre_exit _ _ _ 2000)|].
    apply rtc_refl.
  - done.
Qed.

Lemma Attest_can_return_witness :
  ∃ w w' e, signalled w = true ∧ handling w = [(idle_client, false)] ∧ rtc (orderly toy_proxy nil_error) w w' ∧
    pc w' = Returned e.
Proof.
  destruct idle_run as (w & Hrun & Hsig & Hh). exists w.
  destruct (Attest_can_return toy_proxy nil_error New w toy_records toy_calls_return (conj eq_refl eq_refl)
    (λ why H, ltac:(discriminate H)) Hrun ltac:(by rw Hsig)) as (w' & e & H).
  exists w', e. exact (conj Hsig (conj Hh H)).
Defined.

Lemma recorded_connection_witness :
  ∃ cookie md sess pu pd,
    Bpf.GetSocketCookie (Proxy.fd toy_client) = Ok cookie ∧
    Proxy.getConnectionMetadata toy_proxy cookie (client_is_v6 toy_client) = Ok md ∧
    Proxy.Dial (Proxy.target md) = Ok sess ∧
    Types.ID toy_conn = pretty (Bpf.SockCookie md) +:+ "-" +:+ pretty (toy_clock 0) ∧ Types.Protocol toy_conn = "tcp" ∧
    Types.Destination toy_conn = Types.mkEndpoint (Some (Bpf.OrigIP md)) (Bpf.m_OrigPort md) "" ∧
    Types.Process toy_conn = Types.mkProcess (Bpf.PID md) (Bpf.Comm md) (Bpf.CgroupID md) ∧
    Types.BytesSent toy_conn = uint64_of (len64 (relay (Proxy.up sess)).1.2) ∧
    Types.BytesReceived toy_conn = uint64_of (len64 (relay (Proxy.down sess)).1.2) ∧
    Types.TCPPayloads toy_conn =
      [Types.mkTCPPayload (toy_clock 2) "client_to_server" pu; Types.mkTCPPayload (toy_clock 3) "server_to_client" pd] ∧
    payload_spec (λ d, "h5" +:+ d) (relay (Proxy.up sess)).1.2 (Proxy.payloadConfig toy_proxy) pu ∧
    payload_spec (λ d, "h5" +:+ d) (relay (Proxy.down sess)).1.2 (Proxy.payloadConfig toy_proxy) pd ∧
    Types.Error_ toy_conn = "".
Proof.
  apply (recorded_connection toy_proxy false toy_client nil_error toy_args toy_clock toy_conn (λ d, "h5" +:+ d));
    [reflexivity|discriminate|reflexivity|reflexivity].
Defined.
