(* ===== verification/Git.v ===== *)
(** attestation/git/git.go and git_bin.go: the attestor of the state of a git
    repository. go-git, the git binary and the search path are the class
    [GitLib]; hashes are their hexadecimal text. *)
From S2P Require Import Prelude Receiver GoStrings GoText Errors Crypto Digest Registry Attestation Constraints Environment Hooks Context Host.
From stdpp Require Import options.

Record Reference := mkReference { ref_Name : string; ref_Short : string; ref_Hash : string }.
Record Person := mkPerson { p_Name : string; p_Email : string; p_When : Time }.
Record Commit := mkCommit {
  commit_Hash : string;
  commit_Author : Person;
  commit_Committer : Person;
  commit_Message : string;
  commit_PGPSignature : string;
  commit_ParentHashes : list string;
  commit_TreeHash : string;
}.
Record TagObject := mkTagObject {
  tag_Name : string;
  tag_Target : string;
  tag_Tagger : Person;
  tag_PGPSignature : string;
  tag_Message : string;
}.

(** Iterators give their elements one by one, or an error. The remotes are the
    lists of their URLs; the status of a file is its two codes, for the staging
    area and for the work tree. *)
Class GitLib := {
  Repository : Type;
  PlainOpen : string → res Repository;
  Repository_Head : Repository → res Reference;
  CommitObject : Repository → string → res Commit;
  Repository_Remotes : Repository → res (list (list string));
  References : Repository → res (list (res Reference));
  TagObjects : Repository → res (list (res TagObject));
  Worktree_Status : Repository → res (gmap string (ascii * ascii));
  Format_RFC3339 : Time → string;
  LookPath_git : res string;
  git_status_porcelain : string → res bytes;
}.

Module Git.

Definition Name : string := "git".
Definition Type_ : string := "https://witness.dev/attestations/git/v0.1".
Definition RunType : string := PreMaterialRunType.

Record Status := mkStatus { Staging : string; Worktree : string }.
Record Tag := mkTag {
  Tag_Name : string;
  TaggerName : string;
  TaggerEmail : string;
  When : string;
  PGPSignature : string;
  Message : string;
}.

Record Attestor := mkAttestor {
  GitTool : string;
  GitBinPath : string;
  GitBinHash : DigestSet;
  CommitHash : string;
  Author : string;
  AuthorEmail : string;
  CommitterName : string;
  CommitterEmail : string;
  CommitDate : string;
  CommitMessage : string;
  Status_ : gmap string Status;
  CommitDigest : DigestSet;
  Signature : string;
  ParentHashes : list string;
  TreeHash : string;
  Refs : list string;
  Remotes : list string;
  Tags : list Tag;
  RefNameShort : string;
}.
Definition New : Attestor := mkAttestor "" "" ∅ "" "" "" "" "" "" "" ∅ ∅ "" [] "" [] [] [] "".

Definition set_digest (a : Attestor) (d : DigestSet) : Attestor :=
  mkAttestor (GitTool a) (GitBinPath a) (GitBinHash a) (CommitHash a) (Author a) (AuthorEmail a)
    (CommitterName a) (CommitterEmail a) (CommitDate a) (CommitMessage a) (Status_ a) d (Signature a)
    (ParentHashes a) (TreeHash a) (Refs a) (Remotes a) (Tags a) (RefNameShort a).
Definition set_remotes (a : Attestor) (remotes : list string) : Attestor :=
  mkAttestor (GitTool a) (GitBinPath a) (GitBinHash a) (CommitHash a) (Author a) (AuthorEmail a)
    (CommitterName a) (CommitterEmail a) (CommitDate a) (CommitMessage a) (Status_ a) (CommitDigest a)
    (Signature a) (ParentHashes a) (TreeHash a) (Refs a) remotes (Tags a) (RefNameShort a).
Definition set_refs (a : Attestor) (refs : list string) : Attestor :=
  mkAttestor (GitTool a) (GitBinPath a) (GitBinHash a) (CommitHash a) (Author a) (AuthorEmail a)
    (CommitterName a) (CommitterEmail a) (CommitDate a) (CommitMessage a) (Status_ a) (CommitDigest a)
    (Signature a) (ParentHashes a) (TreeHash a) refs (Remotes a) (Tags a) (RefNameShort a).
Definition set_parents (a : Attestor) (parents : list string) : Attestor :=
  mkAttestor (GitTool a) (GitBinPath a) (GitBinHash a) (CommitHash a) (Author a) (AuthorEmail a)
    (CommitterName a) (CommitterEmail a) (CommitDate a) (CommitMessage a) (Status_ a) (CommitDigest a)
    (Signature a) parents (TreeHash a) (Refs a) (Remotes a) (Tags a) (RefNameShort a).
Definition set_tags (a : Attestor) (tags : list Tag) : Attestor :=
  mkAttestor (GitTool a) (GitBinPath a) (GitBinHash a) (CommitHash a) (Author a) (AuthorEmail a)
    (CommitterName a) (CommitterEmail a) (CommitDate a) (CommitMessage a) (Status_ a) (CommitDigest a)
    (Signature a) (ParentHashes a) (TreeHash a) (Refs a) (Remotes a) tags (RefNameShort a).
Definition set_tree (a : Attestor) (tree : string) : Attestor :=
  mkAttestor (GitTool a) (GitBinPath a) (GitBinHash a) (CommitHash a) (Author a) (AuthorEmail a)
    (CommitterName a) (CommitterEmail a) (CommitDate a) (CommitMessage a) (Status_ a) (CommitDigest a)
    (Signature a) (ParentHashes a) tree (Refs a) (Remotes a) (Tags a) (RefNameShort a).
Definition set_tool (a : Attestor) (tool : string) : Attestor :=
  mkAttestor tool (GitBinPath a) (GitBinHash a) (CommitHash a) (Author a) (AuthorEmail a) (CommitterName a)
    (CommitterEmail a) (CommitDate a) (CommitMessage a) (Status_ a) (CommitDigest a) (Signature a)
    (ParentHashes a) (TreeHash a) (Refs a) (Remotes a) (Tags a) (RefNameShort a).
Definition set_binary (a : Attestor) (path : string) (hash : DigestSet) : Attestor :=
  mkAttestor (GitTool a) path hash (CommitHash a) (Author a) (AuthorEmail a) (CommitterName a)
    (CommitterEmail a) (CommitDate a) (CommitMessage a) (Status_ a) (CommitDigest a) (Signature a)
    (ParentHashes a) (TreeHash a) (Refs a) (Remotes a) (Tags a) (RefNameShort a).
Definition set_status (a : Attestor) (status : gmap string Status) : Attestor :=
  mkAttestor (GitTool a) (GitBinPath a) (GitBinHash a) (CommitHash a) (Author a) (AuthorEmail a)
    (CommitterName a) (CommitterEmail a) (CommitDate a) (CommitMessage a) status (CommitDigest a) (Signature a)
    (ParentHashes a) (TreeHash a) (Refs a) (Remotes a) (Tags a) (RefNameShort a).
Definition set_commit (a : Attestor) (head : Reference) (commit : Commit) : Attestor :=
  mkAttestor (GitTool a) (GitBinPath a) (GitBinHash a) (ref_Hash head) (p_Name (commit_Author commit))
    (p_Email (commit_Author commit)) (p_Name (commit_Committer commit)) (p_Email (commit_Committer commit))
    (time_text (p_When (commit_Author commit)) ) (commit_Message commit) (Status_ a) (CommitDigest a)
    (commit_PGPSignature commit) (ParentHashes a) (TreeHash a) (Refs a) (Remotes a) (Tags a) (ref_Short head).

(** The codes of a status; another one is the text of its character, which for a
    byte above 127 has two bytes. *)
Definition byte_rune (c : ascii) : string :=
  let n := nat_of_ascii c in
  if bool_decide (n < 128) then String c ""
  else str_of_nats [192 + n / 64; 128 + n mod 64].
Definition statusCodeString (statusCode : ascii) : string :=
  if bool_decide (statusCode = " "%char) then "unmodified"
  else if bool_decide (statusCode = "?"%char) then "untracked"
  else if bool_decide (statusCode = "M"%char) then "modified"
  else if bool_decide (statusCode = "A"%char) then "added"
  else if bool_decide (statusCode = "D"%char) then "deleted"
  else if bool_decide (statusCode = "R"%char) then "renamed"
  else if bool_decide (statusCode = "C"%char) then "copied"
  else if bool_decide (statusCode = "U"%char) then "updated"
  else byte_rune statusCode.

(** One line of [git status --porcelain]; a line of a single byte has no second
    code. *)
Definition parse_status_line (statuses : gmap string Status) (line : string) : res (gmap string Status) :=
  match line with
  | "" => Ok statuses
  | String _ "" => Panic "index out of range [1] with length 1"
  | String x (String y rest) =>
      Ok (<[TrimSpace rest := mkStatus (statusCodeString x) (statusCodeString y)]> statuses)
  end.
Definition parse_porcelain (output : string) : res (gmap string Status) :=
  range_res parse_status_line ∅ (SplitByte output (ascii_of_nat 10)).

Section git.
Context `{GL : GitLib} `{UL : UrlLib} `{CL : CryptoLib} `{GI : GitoidLib} `{RO : RangeOrder}.
Variable os_Open : string → res OpenFile.

Definition GitExists : bool := is_ok LookPath_git.
Definition GitGetBinPath : res string := LookPath_git.
Definition GitGetBinHash (ctx_Hashes : list DigestValue) : res DigestSet :=
  path ← LookPath_git;
  CalculateDigestSetFromFile os_Open path ctx_Hashes.
Definition GitGetStatus (workDir : string) : res (gmap string Status) :=
  output ← git_status_porcelain workDir;
  parse_porcelain output.

Definition GoGitGetStatus (repo : Repository) : res (gmap string Status) :=
  status ← Worktree_Status repo;
  Ok (foldl (λ (gitStatuses : gmap string Status) fs,
        let '(file, (staging, worktree)) := fs in
        if bool_decide (worktree = " "%char) && bool_decide (staging = " "%char) then gitStatuses
        else <[file := mkStatus (statusCodeString staging) (statusCodeString worktree)]> gitStatuses)
      ∅ (range_map 11 status)).

(** A remote's URL without its user; one that does not parse stays as it is. *)
Definition remote_url (urlStr : string) : string :=
  match url_Parse urlStr with
  | Ok parsed => url_String (url_no_User parsed)
  | _ => urlStr
  end.

(** The loops over the remotes, the references and the tags: the references and
    tags that point to the head. *)
Definition add_remote (urls : list string) : recv Attestor unit :=
  for_each (λ urlStr, assign (λ a, set_remotes a (Remotes a ++ [remote_url urlStr]))) urls.
Definition add_ref (head : Reference) (ref : res Reference) : recv Attestor unit :=
  ref ← call ref;
  assign (λ a, if bool_decide (ref_Hash ref = ref_Hash head) then set_refs a (Refs a ++ [ref_Name ref]) else a).
Definition add_parent (parent : string) : recv Attestor unit :=
  assign (λ a, set_parents a (ParentHashes a ++ [parent])).
Definition tag_of (t : TagObject) : Tag :=
  mkTag (tag_Name t) (p_Name (tag_Tagger t)) (p_Email (tag_Tagger t)) (Format_RFC3339 (p_When (tag_Tagger t)))
    (tag_PGPSignature t) (tag_Message t).
Definition add_tag (head : Reference) (tagList : list Tag) (t : res TagObject) : res (list Tag) :=
  t ← t;
  Ok (if bool_decide (tag_Target t = ref_Hash head) then tagList ++ [tag_of t] else tagList).

(** [fmt.Errorf("...: %s", err)] *)
Definition describe {A} (msg : string) (m : res A) : res A :=
  match m with Err e => Err (Errorf (msg +:+ ": " +:+ fmt_err e)) | r => r end.

(** The end of [Attest]: the tool and the status, which is the empty map when it
    cannot be found. *)
Definition assign_status (m : res (gmap string Status)) : recv Attestor unit :=
  _ ← assign (λ a, set_status a (match m with Ok st => st | _ => ∅ end));
  _ ← call m; mret tt.
Definition assign_path (m : res string) : recv Attestor unit :=
  _ ← assign (λ a, set_binary a (match m with Ok p => p | _ => "" end) (GitBinHash a));
  _ ← call m; mret tt.
Definition assign_hash (m : res DigestSet) : recv Attestor unit :=
  _ ← assign (λ a, set_binary a (GitBinPath a) (match m with Ok d => d | _ => ∅ end));
  _ ← call m; mret tt.
Definition attest_status (workingDir : string) (ctx_Hashes : list DigestValue) (repo : Repository)
    : recv Attestor unit :=
  if GitExists then
    _ ← assign (λ a, set_tool a "go-git+git-bin");
    _ ← assign_path GitGetBinPath;
    _ ← assign_hash (GitGetBinHash ctx_Hashes);
    assign_status (GitGetStatus workingDir)
  else
    _ ← assign (λ a, set_tool a "go-git");
    assign_status (GoGitGetStatus repo).

(** [Attest] when there is a head. *)
Definition attest_head (workingDir : string) (ctx_Hashes : list DigestValue) (repo : Repository) (head : Reference)
    : recv Attestor unit :=
  commit ← call (CommitObject repo (ref_Hash head));
  _ ← assign (λ a, set_digest a {[mkDV SHA1 false false := commit_Hash commit]});
  remotes ← call (Repository_Remotes repo);
  _ ← for_each add_remote remotes;
  refs ← call (References repo);
  _ ← for_each (add_ref head) refs;
  _ ← assign (λ a, set_commit a head commit);
  _ ← for_each add_parent (commit_ParentHashes commit);
  tags ← call (describe "get tags error" (TagObjects repo));
  tagList ← call (describe "iterate tags error" (range_res (add_tag head) [] tags));
  _ ← assign (λ a, set_tags a tagList);
  _ ← assign (λ a, set_tree a (commit_TreeHash commit));
  attest_status workingDir ctx_Hashes repo.

Definition Attest (workingDir : string) (ctx_Hashes : list DigestValue) : recv Attestor unit :=
  repo ← call (PlainOpen workingDir);
  match Repository_Head repo with
  | Err e => if Contains (fmt_err e) "reference not found" then mret tt else call (Err e)
  | Panic w => call (Panic w)
  | Ok head => attest_head workingDir ctx_Hashes repo head
  end.

Definition commit_subject (a : Attestor) : gmap string DigestSet :=
  {["commithash:" +:+ CommitHash a := {[mkDV SHA1 false false := CommitHash a]}]}.

(** The values that become subjects by their SHA-256, in the source's order. *)
Definition named_values (a : Attestor) : list (string * string) :=
  [("authoremail", AuthorEmail a); ("committeremail", CommitterEmail a)] ++
  (pair "parenthash" <$> ParentHashes a) ++ [("refnameshort", RefNameShort a)].
Definition Subjects (a : Attestor) : res (gmap string DigestSet) :=
  match range_res (λ subjects kv,
          ds ← CalculateDigestSetFromBytes kv.2 [mkDV SHA256 false false];
          Ok (<[kv.1 +:+ ":" +:+ kv.2 := ds]> subjects)) (commit_subject a) (named_values a) with
  | Err _ => Ok ∅
  | r => r
  end.
Definition BackRefs (a : Attestor) : gmap string DigestSet := commit_subject a.
End git.
End Git.
