(* ===== verification/GitTheorems.v ===== *)
(** The git attestor (Git.v): what it says of the repository, and how it reads the
    status of the files from the git binary and from go-git. *)
From S2P Require Import Prelude Receiver GoStrings GoText Errors Crypto Digest Toy Registry Attestation Constraints Environment Hooks Context Host CI CITheorems Git.
From stdpp Require Import options.
Import Git.

#[local] Unset Default Proof Using.

(** * Status *)

(** A path as it stands in a line: not empty, without a line feed, and without white
    space at its ends. (A path that git puts in quotes stands there with its quotes.) *)
Definition plain_path (p : string) : Prop :=
  p ≠ "" ∧ space_prefix p = None ∧ space_suffix p = None ∧ byte_free (ascii_of_nat 10) p = true.

Definition status_line (e : string * (ascii * ascii)) : string :=
  String e.2.1 (String e.2.2 (String " " e.1)).
(** An output of such lines. *)
Fixpoint porcelain (l : list (string * (ascii * ascii))) : string :=
  match l with
  | [] => ""
  | e :: l => status_line e +:+ nl +:+ porcelain l
  end.

(** The codes that have a word of their own. *)
Definition status_codes : list (ascii * string) :=
  [(" "%char, "unmodified"); ("?"%char, "untracked"); ("M"%char, "modified"); ("A"%char, "added");
   ("D"%char, "deleted"); ("R"%char, "renamed"); ("C"%char, "copied"); ("U"%char, "updated")].
Definition status_of (codes : ascii * ascii) : Status := mkStatus (statusCodeString codes.1) (statusCodeString codes.2).

Lemma TrimSpace_plain p : plain_path p → TrimSpace (String " " p) = p.
Proof.
  intros (Hne & Hp & Hs & _). assert (space_prefix (String " " p) = Some " ") as Hsp.
  { unfold space_prefix. by destruct p. }
  assert (∀ n, TrimLeftSpace_go n p = p) as Hl by (intros [|n]; [done|]; cbn [TrimLeftSpace_go]; by rw Hp).
  unfold TrimSpace. cbn [slen]. cbn [TrimLeftSpace_go]. rw Hsp. cbn [drop_str slen]. rw Hl.
  destruct (slen p) as [|n]; [done|]. cbn [TrimRightSpace_go]. by rw Hs.
Qed.

Lemma parse_status_line_plain statuses e :
  plain_path e.1 → parse_status_line statuses (status_line e) = Ok (<[e.1 := status_of e.2]> statuses).
Proof. intros Hp. destruct e as [p [x y]]. unfold parse_status_line, status_line. cbn [fst snd] in Hp |- *. by rw (TrimSpace_plain p Hp). Qed.

Lemma SplitByte_line a s : byte_free (ascii_of_nat 10) a = true →
  SplitByte (a +:+ nl +:+ s) (ascii_of_nat 10) = a :: SplitByte s (ascii_of_nat 10).
Proof.
  induction a as [|x a IH]; [done|]. intros [Hx%negb_true_iff Ha]%andb_true_iff.
  change (String x a +:+ nl +:+ s) with (String x (a +:+ nl +:+ s)). cbn [SplitByte]. by rw Hx (IH Ha).
Qed.

(** A line that can be read back: neither of its codes is a line feed. *)
Definition plain_entry (e : string * (ascii * ascii)) : Prop :=
  plain_path e.1 ∧ e.2.1 ≠ ascii_of_nat 10 ∧ e.2.2 ≠ ascii_of_nat 10.

Lemma parse_porcelain_plain l : Forall plain_entry l →
  parse_porcelain (porcelain l) = Ok (foldl (λ m e, <[e.1 := status_of e.2]> m) ∅ l).
Proof.
  unfold parse_porcelain. generalize (∅ : gmap string Status). induction l as [|e l IH]; intros m Hl; [done|].
  apply Forall_cons in Hl as [He Hl]. cbn [porcelain]. rw SplitByte_line.
  - cbn [range_res]. rw parse_status_line_plain; [|by destruct He]. cbn [mbind res_bind]. by apply IH.
  - destruct He as ((_ & _ & _ & Hfree) & Hx & Hy). unfold status_line. cbn [byte_free].
    rw (bool_decide_eq_false_2 _ Hx) (bool_decide_eq_false_2 _ Hy). by rw Hfree.
Qed.

Section status.
Context `{GL : GitLib} `{UL : UrlLib} `{CL : CryptoLib} `{GI : GitoidLib} `{RO : RangeOrder}.

Definition changed (codes : ascii * ascii) : Prop := codes ≠ (" "%char, " "%char).

(** Unchanged files are left out. *)
Lemma gogit_loop (l : list (string * (ascii * ascii))) m :
  foldl (λ (gitStatuses : gmap string Status) (fs : string * (ascii * ascii)),
    let '(file, (staging, worktree)) := fs in
    if bool_decide (worktree = " "%char) && bool_decide (staging = " "%char) then gitStatuses
    else <[file := mkStatus (statusCodeString staging) (statusCodeString worktree)]> gitStatuses) m l =
  foldl (λ m e, <[e.1 := status_of e.2]> m) m (filter (λ e, changed e.2) l).
Proof.
  revert m. induction l as [|[p [x y]] l IH]; intros m; [done|]. cbn [foldl]. rw IH filter_cons.
  destruct (decide (changed (p, (x, y)).2)) as [Hc|Hc]; cbn [snd] in Hc.
  - destruct (bool_decide (y = _) && bool_decide (x = _)) eqn:Hxy; [|done]. exfalso.
    apply andb_true_iff in Hxy as [->%bool_decide_eq_true ->%bool_decide_eq_true]. by apply Hc.
  - destruct (decide ((x, y) = (" "%char, " "%char))) as [[= -> ->]|]; [done|by destruct Hc].
Qed.

Lemma NoDup_fst_filter {V} (P : string * V → Prop) `{∀ x, Decision (P x)} (l : list (string * V)) :
  NoDup l.*1 → NoDup (filter P l).*1.
Proof.
  induction l as [|e l IH]; [done|]. cbn [fmap list_fmap]. intros [He Hl]%NoDup_cons. rw filter_cons.
  destruct (decide (P e)); [|by apply IH]. cbn [fmap list_fmap]. apply NoDup_cons. split; [|by apply IH].
  intros (e' & Heq & Hin)%list_elem_of_fmap. apply He. rw Heq. apply list_elem_of_fmap. exists e'. split; [done|].
  by apply list_elem_of_filter in Hin as [_ ?].
Qed.

Lemma read_statuses (l : list (string * (ascii * ascii))) file st :
  NoDup l.*1 →
  foldl (λ (m : gmap string Status) e, <[e.1 := status_of e.2]> m) ∅ l !! file = Some st ↔
  ∃ codes, (file, codes) ∈ l ∧ st = status_of codes.
Proof.
  intros Hnd. rw (foldl_insert_lookup (λ _ c, status_of c)) //.
  setoid_rewrite (elem_of_list_to_map (M:=gmap string) l file); [|done]. destruct (_ !! file) as [c|]; naive_solver.
Qed.

(** C40: The status of the files. Of an output of git with a line for each path, made of two
    codes, a space and the path, exactly these paths are read back, each with the words
    of its two codes; and of go-git's status exactly the files that are changed. The eight
    codes that have a word are read as that word. *)
Theorem git_status_read repo workDir :
  (∀ l, git_status_porcelain workDir = Ok (porcelain l) → Forall plain_entry l → NoDup l.*1 →
     ∃ statuses, GitGetStatus workDir = Ok statuses ∧
       ∀ file st, statuses !! file = Some st ↔ ∃ codes, (file, codes) ∈ l ∧ st = status_of codes) ∧
  (∀ status, Worktree_Status repo = Ok status →
     ∃ statuses, GoGitGetStatus repo = Ok statuses ∧
       ∀ file st, statuses !! file = Some st ↔ ∃ codes, status !! file = Some codes ∧ changed codes ∧ st = status_of codes) ∧
  (∀ c word, (c, word) ∈ status_codes → statusCodeString c = word).
Proof.
  split_and!.
  - intros l Hout Hl Hnd. unfold GitGetStatus. rw Hout. cbn [mbind res_bind]. rw parse_porcelain_plain; [|done].
    eexists. split; [reflexivity|]. intros file st. by apply read_statuses.
  - intros status Hst. unfold GoGitGetStatus. rw Hst. cbn [mbind res_bind]. eexists. split; [reflexivity|].
    intros file st. rw gogit_loop read_statuses; [|apply NoDup_fst_filter, NoDup_fst_range].
    setoid_rewrite list_elem_of_filter. setoid_rewrite elem_of_range. naive_solver.
  - intros c word Hc. unfold status_codes in Hc. repeat (apply elem_of_cons in Hc as [[= -> ->]|Hc]; [done|]).
    by apply not_elem_of_nil in Hc.
Qed.

(** * Attest *)

Variable os_Open : string → res OpenFile.

Lemma add_remote_run urls a : add_remote urls a = (set_remotes a (Remotes a ++ (remote_url <$> urls)), Ok tt).
Proof.
  revert a. induction urls as [|u urls IH]; intros a.
  - unfold add_remote. cbn. rw right_id_L. by destruct a.
  - etrans; [apply (IH (set_remotes a (Remotes a ++ [remote_url u])))|]. cbn. by rw -assoc_L.
Qed.

Lemma add_remotes_run remotes a :
  for_each add_remote remotes a = (set_remotes a (Remotes a ++ (remote_url <$> concat remotes)), Ok tt).
Proof.
  revert a. induction remotes as [|urls remotes IH]; intros a.
  - cbn. rw right_id_L. by destruct a.
  - cbn [for_each]. unfold mbind, recv_bind. rw add_remote_run IH. cbn. by rw fmap_app assoc_L.
Qed.

Lemma add_parents_run parents a : for_each add_parent parents a = (set_parents a (ParentHashes a ++ parents), Ok tt).
Proof.
  revert a. induction parents as [|p parents IH]; intros a.
  - cbn. rw right_id_L. by destruct a.
  - etrans; [apply (IH (set_parents a (ParentHashes a ++ [p])))|]. cbn. by rw -assoc_L.
Qed.

(** An iterator that gives no error. *)
Definition all_given {A} (l : list (res A)) (xs : list A) : Prop := l = Ok <$> xs.

Lemma add_refs_run head refs a a' :
  for_each (add_ref head) refs a = (a', Ok tt) → ∃ xs, all_given refs xs ∧
    a' = set_refs a (Refs a ++ (ref_Name <$> filter (λ r, ref_Hash r = ref_Hash head) xs)).
Proof.
  revert a. induction refs as [|r refs IH]; intros a Hrun.
  - injection Hrun as <-. exists []. split; [done|]. cbn. rw right_id_L. by destruct a.
  - cbn [for_each] in Hrun. apply recv_bind_ok in Hrun as (s1 & [] & Hr & Hrun). unfold add_ref in Hr.
    apply recv_bind_ok in Hr as (s2 & x & [-> ->]%recv_call_ok & ->%recv_assign_ok).
    apply IH in Hrun as (xs & -> & ->). exists (x :: xs). split; [done|]. rw filter_cons.
    case_bool_decide as Hx; [rw decide_True|rw decide_False]; try done. cbn. by rw -assoc_L.
Qed.

Lemma add_tags_run head tags acc tagList :
  range_res (add_tag head) acc tags = Ok tagList → ∃ xs, all_given tags xs ∧
    tagList = acc ++ (tag_of <$> filter (λ t, tag_Target t = ref_Hash head) xs).
Proof.
  revert acc. induction tags as [|t tags IH]; intros acc Hrun.
  - injection Hrun as <-. exists []. split; [done|]. cbn. by rw right_id_L.
  - cbn [range_res] in Hrun. apply res_bind_ok in Hrun as (acc1 & Ht & Hrun). unfold add_tag in Ht.
    apply res_bind_ok in Ht as (x & -> & [= <-]). apply IH in Hrun as (xs & -> & ->). exists (x :: xs). split; [done|].
    rw filter_cons. case_bool_decide as Hx; [rw decide_True|rw decide_False]; try done. cbn. by rw -assoc_L.
Qed.

Lemma describe_ok {A} msg (m : res A) a : describe msg m = Ok a ↔ m = Ok a.
Proof. by destruct m. Qed.

(** What the attestor says of the status, and how it found it. *)
Definition status_found (workingDir : string) (ctx_Hashes : list DigestValue) (repo : Repository) (a : Attestor) : Prop :=
  match LookPath_git with
  | Ok path =>
      GitTool a = "go-git+git-bin" ∧ GitBinPath a = path ∧
      CalculateDigestSetFromFile os_Open path ctx_Hashes = Ok (GitBinHash a) ∧
      GitGetStatus workingDir = Ok (Status_ a)
  | _ => GitTool a = "go-git" ∧ GoGitGetStatus repo = Ok (Status_ a)
  end.

(** The fields that [attest_status] does not touch. *)
Definition same_commit (a a' : Attestor) : Prop :=
  CommitHash a' = CommitHash a ∧ CommitDigest a' = CommitDigest a ∧ Remotes a' = Remotes a ∧ Refs a' = Refs a ∧
  Author a' = Author a ∧ AuthorEmail a' = AuthorEmail a ∧ CommitterName a' = CommitterName a ∧
  CommitterEmail a' = CommitterEmail a ∧ CommitMessage a' = CommitMessage a ∧ Signature a' = Signature a ∧
  RefNameShort a' = RefNameShort a ∧ ParentHashes a' = ParentHashes a ∧ Tags a' = Tags a ∧ TreeHash a' = TreeHash a.

Lemma attest_status_run workingDir hashes repo a a' :
  attest_status os_Open workingDir hashes repo a = (a', Ok tt) →
  status_found workingDir hashes repo a' ∧ same_commit a a'.
Proof.
  unfold attest_status, status_found, GitExists, GitGetBinPath, GitGetBinHash, assign_path, assign_hash, assign_status.
  destruct LookPath_git as [path|e|w]; cbn [is_ok mbind res_bind]; intros Hrun; recv_inv; subst;
    repeat match goal with H : assign _ _ = _ |- _ => injection H as <- end; recv_inv; subst;
    repeat match goal with H : ?m = Ok _ |- context [match ?m with _ => _ end] => rw H end; done.
Qed.

(** C39: When there is a head, a successful [Attest] of the git attestor says of the
    repository what it holds: the commit of the head with its people, message,
    parents and tree; all remotes without their users; exactly the references and
    the tags that point to the head, in their order; and the status, from the git
    binary next to the binary's digest when there is one. *)
Theorem Git_Attest_spec workingDir hashes repo head a :
  PlainOpen workingDir = Ok repo → Repository_Head repo = Ok head →
  Attest os_Open workingDir hashes New = (a, Ok tt) →
  ∃ commit remotes refs tags,
    CommitObject repo (ref_Hash head) = Ok commit ∧ Repository_Remotes repo = Ok remotes ∧
    References repo = Ok (Ok <$> refs) ∧ TagObjects repo = Ok (Ok <$> tags) ∧
    CommitHash a = ref_Hash head ∧ CommitDigest a = {[mkDV SHA1 false false := commit_Hash commit]} ∧
    Remotes a = (remote_url <$> concat remotes) ∧
    Refs a = (ref_Name <$> filter (λ r, ref_Hash r = ref_Hash head) refs) ∧
    Tags a = (tag_of <$> filter (λ t, tag_Target t = ref_Hash head) tags) ∧
    (Author a, AuthorEmail a) = (p_Name (commit_Author commit), p_Email (commit_Author commit)) ∧
    (CommitterName a, CommitterEmail a) = (p_Name (commit_Committer commit), p_Email (commit_Committer commit)) ∧
    CommitMessage a = commit_Message commit ∧ Signature a = commit_PGPSignature commit ∧
    RefNameShort a = ref_Short head ∧ ParentHashes a = commit_ParentHashes commit ∧ TreeHash a = commit_TreeHash commit ∧
    status_found workingDir hashes repo a.
Proof.
  intros Hopen Hhead Hrun. unfold Attest in Hrun. recv_inv. rw Hopen in H. injection H as <-. rw Hhead in Hrun.
  unfold attest_head in Hrun. recv_inv.
  repeat match goal with u : () |- _ => destruct u end. rename select (describe "get tags error" _ = _) into Htags.
  apply describe_ok in Htags. rename select (describe "iterate tags error" _ = _) into Hlist. apply describe_ok in Hlist.
  rename select (for_each add_remote _ _ = _) into Hrem. rw add_remotes_run in Hrem. injection Hrem as <-.
  rename select (for_each (add_ref _) _ _ = _) into Href. apply add_refs_run in Href as (refs & -> & ->).
  rename select (for_each add_parent _ _ = _) into Hpar. rw add_parents_run in Hpar. injection Hpar as <-.
  apply add_tags_run in Hlist as (tags & -> & ->).
  apply attest_status_run in Hrun as [Hst (S1 & S2 & S3 & S4 & S5 & S6 & S7 & S8 & S9 & S10 & S11 & S12 & S13 & S14)].
  rw S1 S2 S3 S4 S5 S6 S7 S8 S9 S10 S11 S12 S13 S14. by eexists _, _, refs, tags.
Qed.

(** A repository without a commit is attested without an error, and its runs refer
    back to a commit without a hash. *)
Theorem Git_unborn_head workingDir hashes repo e :
  PlainOpen workingDir = Ok repo → Repository_Head repo = Err e → Contains (fmt_err e) "reference not found" = true →
  Attest os_Open workingDir hashes New = (New, Ok tt) ∧ BackRefs New = {["commithash:" := {[mkDV SHA1 false false := ""]}]}.
Proof. intros Hopen Hhead He. unfold Attest, mbind, recv_bind, call. rw Hopen Hhead He. done. Qed.

End status.

(** A renamed file is one entry, for both its names, and its new name is not
    there. *)
Theorem renamed_file_has_no_entry :
  parse_porcelain ("R  old.go -> new.go" +:+ nl) = Ok {["old.go -> new.go" := mkStatus "renamed" "unmodified"]}.
Proof. vm_compute. reflexivity. Qed.

(** * Examples *)

Definition toy_commit : Commit :=
  mkCommit "c1" (mkPerson "Ann" "ann@x" (mkTime 7 "t7")) (mkPerson "Bob" "bob@x" (mkTime 8 "t8")) "fix" "" ["c0"] "tree1".
(** A repository with a head c1, two references and a tag to it, and changes to two
    files. *)
#[local] Instance toy_git : GitLib := {|
  Repository := unit;
  PlainOpen _ := Ok tt;
  Repository_Head _ := Ok (mkReference "refs/heads/main" "main" "c1");
  CommitObject _ _ := Ok toy_commit;
  Repository_Remotes _ := Ok [["token@forge/x"]; ["https://mirror/x"]];
  References _ := Ok [Ok (mkReference "refs/heads/main" "main" "c1"); Ok (mkReference "refs/heads/old" "old" "c0")];
  TagObjects _ := Ok [Ok (mkTagObject "v1" "c1" (mkPerson "Ann" "ann@x" (mkTime 9 "t9")) "" "first")];
  Worktree_Status _ := Ok {["a.go" := ("M"%char, " "%char); "b.go" := ("?"%char, "?"%char)]};
  Format_RFC3339 t := time_text t;
  LookPath_git := Ok "/bin/git";
  git_status_porcelain _ := Ok (porcelain [("b.go", ("?"%char, "?"%char)); ("a.go", ("M"%char, " "%char))]);
|}.

Lemma git_status_read_witness :
  (∃ statuses, GitGetStatus "" = Ok statuses ∧
     (statuses !! "b.go" = Some (mkStatus "untracked" "untracked") ↔
      ∃ codes, ("b.go", codes) ∈ [("b.go", ("?"%char, "?"%char)); ("a.go", ("M"%char, " "%char))] ∧
               mkStatus "untracked" "untracked" = status_of codes)) ∧
  ∃ statuses, GoGitGetStatus (tt : @Repository toy_git) = Ok statuses.
Proof.
  destruct (git_status_read (tt : @Repository toy_git) "") as (H1 & H2 & _). split.
  - destruct (H1 [("b.go", ("?"%char, "?"%char)); ("a.go", ("M"%char, " "%char))]) as (statuses & Hs & Hl).
    + reflexivity.
    + repeat constructor; done.
    + repeat constructor; cbn; rewrite ?elem_of_cons ?elem_of_nil; intuition discriminate.
    + exists statuses. split; [exact Hs|]. apply Hl.
  - destruct (H2 _ eq_refl) as (statuses & Hs & _). by exists statuses.
Defined.

Abbreviation toy_attested := (Attest (λ p, Ok (mkOpenFile (Ok 0%Z) (Ok "git binary"))) "" [mkDV SHA256 false false] New).
Lemma Git_Attest_spec_witness : toy_attested = (toy_attested.1, Ok tt) ∧
  Refs toy_attested.1 = ["refs/heads/main"] ∧ Remotes toy_attested.1 = ["forge/x"; "https://mirror/x"] ∧
  Tag_Name <$> Tags toy_attested.1 = ["v1"].
Proof.
  assert (toy_attested = (toy_attested.1, Ok tt)) as Ha by (apply pair_of_snd; vm_compute; reflexivity).
  split; [exact Ha|].
  destruct (Git_Attest_spec _ "" [mkDV SHA256 false false] (tt : @Repository toy_git) (mkReference "refs/heads/main" "main" "c1") _
    eq_refl eq_refl Ha) as (commit & remotes & refs & tags & Hc & Hr & Hrefs & Htags & _).
  split_and!; vm_compute; reflexivity.
Defined.
