(* ===== verification/Fulcio.v ===== *)
(** signer/fulcio/fulcio.go and github.go: the signer that has a new key certified
    by Fulcio for the subject of an identity token.

    Fulcio, OIDC and gRPC are the class [FulcioApi], with an answer for each call of
    an operation; time passes between the attempts, and the context can be done. *)
From S2P Require Import Prelude GoStrings GoText Errors Crypto Keys Digest Registry Attestation Constraints Environment Hooks Context Host CI.
From stdpp Require Import options.

(** The answer of Fulcio: the kind of its certificate, with a chain that can be
    nil, or no certificate at all. *)
Inductive SigningCertificate :=
  | DetachedSct (chain : option (list string))
  | EmbeddedSct (chain : option (list string))
  | NoCertificate.

(** [CreateSigningCertificateRequest]: the token, the public key as PEM and the
    signature of the subject. *)
Record CSR := mkCSR { csr_Token : string; csr_PublicKey : bytes; csr_Proof : bytes }.

Class FulcioApi `{CL : CryptoLib} `{JL : JoseLib} := {
  GenerateKey : res ECDSAPrivateKey;
  (* the field of [x509.Certificate] *)
  IsCA : Certificate → bool;
  SignMessage : ECDSAPrivateKey → bytes → res bytes;
  MarshalPublicKeyToPEM : ECDSAPublicKey → res bytes;
  (* the claims "email" and "sub" *)
  UnsafeClaimsWithoutVerification : JSONWebToken → res (string * string);
  OIDConnect : string → string → string → res string;
  IsTerminal : bool;
  CAClient : Type;
  grpc_NewClient : string → bool → res CAClient;
  CreateSigningCertificate : CAClient → nat → CSR → res SigningCertificate;
  status_FromError : error → option Z;
  ctx_Err : nat → option error;
  json_Marshal_CSR : CSR → res bytes;
  protojson_Unmarshal : bytes → res SigningCertificate;
  json_Unmarshal_Token : bytes → res string;
}.

Module Fulcio.

Record FulcioSignerProvider := mkFulcio {
  FulcioURL : string;
  OidcIssuer : string;
  OidcClientID : string;
  Token : string;
  TokenPath : string;
  OidcRedirectUrl : string;
  UseHTTP : bool;
}.

Definition Option := FulcioSignerProvider → FulcioSignerProvider.
Definition WithFulcioURL (v : string) : Option := λ f,
  mkFulcio v (OidcIssuer f) (OidcClientID f) (Token f) (TokenPath f) (OidcRedirectUrl f) (UseHTTP f).
Definition WithOidcIssuer (v : string) : Option := λ f,
  mkFulcio (FulcioURL f) v (OidcClientID f) (Token f) (TokenPath f) (OidcRedirectUrl f) (UseHTTP f).
Definition WithOidcClientID (v : string) : Option := λ f,
  mkFulcio (FulcioURL f) (OidcIssuer f) v (Token f) (TokenPath f) (OidcRedirectUrl f) (UseHTTP f).
Definition WithToken (v : string) : Option := λ f,
  mkFulcio (FulcioURL f) (OidcIssuer f) (OidcClientID f) v (TokenPath f) (OidcRedirectUrl f) (UseHTTP f).
Definition WithTokenPath (v : string) : Option := λ f,
  mkFulcio (FulcioURL f) (OidcIssuer f) (OidcClientID f) (Token f) v (OidcRedirectUrl f) (UseHTTP f).
Definition WithOidcRedirectUrl (v : string) : Option := λ f,
  mkFulcio (FulcioURL f) (OidcIssuer f) (OidcClientID f) (Token f) (TokenPath f) v (UseHTTP f).
Definition WithUseHttp (v : bool) : Option := λ f,
  mkFulcio (FulcioURL f) (OidcIssuer f) (OidcClientID f) (Token f) (TokenPath f) (OidcRedirectUrl f) v.
Definition zero_Fulcio : FulcioSignerProvider := mkFulcio "" "" "" "" "" "" false.
Definition New (opts : list Option) : FulcioSignerProvider := foldl (λ f opt, opt f) zero_Fulcio opts.

(** The options of [init]; a provider of another type is handed back. *)
Section options.
Context {SP : Type} (project : SP → option FulcioSignerProvider) (inject : FulcioSignerProvider → SP).

Definition fulcio_setter {V} (opt : V → Option) (sp : SP) (v : V) : SP * option error :=
  match project sp with
  | None => (sp, Some (Errorf "provided signer provider is not a fulcio signer provider"))
  | Some fsp => (inject (opt v fsp), None)
  end.
Definition fulcio_options : list (Configurer SP) :=
  [ CString (NewConfigOption "url" "Fulcio address to sign with" "" (fulcio_setter WithFulcioURL));
    CString (NewConfigOption "oidc-issuer" "OIDC issuer to use for authentication" "" (fulcio_setter WithOidcIssuer));
    CString (NewConfigOption "oidc-client-id" "OIDC client ID to use for authentication" "" (fulcio_setter WithOidcClientID));
    CString (NewConfigOption "token"
      "Raw token string to use for authentication to fulcio (cannot be used in conjunction with --fulcio-token-path)" ""
      (fulcio_setter WithToken));
    CString (NewConfigOption "oidc-redirect-url"
      "OIDC redirect URL (Optional). The default oidc-redirect-url is 'http://localhost:0/auth/callback'." ""
      (fulcio_setter WithOidcRedirectUrl));
    CString (NewConfigOption "token-path"
      "Path to the file containing a raw token to use for authentication to fulcio (cannot be used in conjunction with --fulcio-token)"
      "" (fulcio_setter WithTokenPath));
    CBool (NewConfigOption "use-http" "HTTP/REST mode for Fulcio" false (fulcio_setter WithUseHttp)) ].
End options.

Definition allowedJWTAlgorithms : list string :=
  ["RS256"; "RS384"; "RS512"; "PS256"; "PS384"; "PS512"; "ES256"; "ES384"; "ES512"; "EdDSA"].

(** The retries of both files. *)
Definition maxRetries : nat := 3.

Section fulcio.
Context `{CL : CryptoLib} `{JL : JoseLib} `{FA : !FulcioApi}.
Context `{HL : HttpLib} `{UL : UrlLib} `{PE : ProcessEnv} `{HF : HostFiles}.

(** * github.go *)

(** [bodyStr[:500] + "..."] *)
Definition shorten (body : string) : string :=
  if bool_decide (500 < slen body) then take_str 500 body +:+ "..." else body.
Definition of_max (attempt : nat) : string := itoa (attempt + 1) +:+ "/" +:+ itoa maxRetries.

(** [client.Do], again with HTTP/1.1 where the server asks for it: the answer, the
    client and the number of requests so far. *)
Definition do_request (http1 : bool) (n : nat) (req : Request) : res Response * bool * nat :=
  match http_Do http1 n req with
  | Err e =>
      if Contains (fmt_err e) "HTTP_1_1_REQUIRED" then (http_Do true (S n) req, true, S (S n))
      else (Err e, http1, S n)
  | r => (r, http1, S n)
  end.

(** What an answer means: a token, or an error after which there is another
    attempt. *)
Definition token_of_answer (attempt : nat) (answer : res Response) : res string :=
  match answer with
  | Err e => Err (Wrapf ("failed to fetch token from GitHub Actions (attempt " +:+ of_max attempt +:+ ")") e)
  | Panic w => Panic w
  | Ok resp =>
      bodyBytes ← wrap ("failed to read response body (attempt " +:+ of_max attempt +:+ ")") (Body resp);
      if bool_decide (StatusCode resp ≠ StatusOK) then
        Err (Errorf ("unexpected status code " +:+ ztoa (StatusCode resp) +:+ " from GitHub Actions API (attempt " +:+
                     of_max attempt +:+ "), body: " +:+ shorten bodyBytes))
      else
        match json_Unmarshal_Token bodyBytes with
        | Panic w => Panic w
        | Err e =>
            let bodyStr := shorten bodyBytes in
            if HasPrefix (TrimSpace bodyStr) "<" then
              Err (Errorf ("received HTML response instead of JSON from GitHub Actions API (attempt " +:+ of_max attempt +:+
                           "), possible authentication or network issue. Response: " +:+ bodyStr))
            else if bool_decide (slen (TrimSpace bodyBytes) = 0) then
              Err (Errorf ("received empty response from GitHub Actions API (attempt " +:+ of_max attempt +:+ ")"))
            else
              Err (Wrapped ("failed to parse JSON response from GitHub Actions API (attempt " +:+ of_max attempt +:+ "): ")
                     e (". Response body: " +:+ bodyStr))
        | Ok value =>
            if bool_decide (value = "") then
              Err (Errorf ("received empty token value from GitHub Actions API (attempt " +:+ of_max attempt +:+ ")"))
            else Ok value
        end
  end.

(** The loop, with the number of attempts that are left and the last error, which
    is nil before the first attempt. *)
Fixpoint token_attempts (reqURL bearer : string) (remaining attempt : nat) (http1 : bool) (n : nat) (lastErr : error)
    : res string :=
  match remaining with
  | 0 => Err (Wrapf ("failed to fetch GitHub Actions token after " +:+ itoa maxRetries +:+ " attempts") lastErr)
  | S remaining =>
      req ← wrap "failed to create request" (NewRequest "GET" reqURL [("Authorization", "bearer " +:+ bearer)] "");
      let '(answer, http1, n) := do_request http1 n req in
      match token_of_answer attempt answer with
      | Ok token => Ok token
      | Err e => token_attempts reqURL bearer remaining (S attempt) http1 n e
      | Panic w => Panic w
      end
  end.

Definition fetchToken (tokenURL bearer audience : string) : res string :=
  if bool_decide (tokenURL = "") || bool_decide (bearer = "") || bool_decide (audience = "")
  then Err (Errorf "tokenURL, bearer, and audience cannot be empty")
  else
    u ← wrap "failed to parse token URL" (url_Parse tokenURL);
    if bool_decide (Query_Get u "audience" ≠ audience) && bool_decide (Query_Get u "audience" ≠ "")
    then Err (Errorf ("api error: tokenURL already has an audience, " +:+ Query_Get u "audience" +:+
                      ", and it does not match the audience, " +:+ audience))
    else token_attempts (url_String (Query_Add u "audience" audience)) bearer maxRetries 0 false 0 (Errorf "").

(** * Certificates *)

(** gRPC's codes. *)
Definition code_InvalidArgument : Z := 3.
Definition code_DeadlineExceeded : Z := 4.
Definition code_PermissionDenied : Z := 7.
Definition code_Unavailable : Z := 14.
Definition code_Unauthenticated : Z := 16.

Definition isRetryable (lastErr : error) : bool :=
  match status_FromError lastErr with
  | Some code => bool_decide (code = code_Unavailable) || bool_decide (code = code_DeadlineExceeded)
  | None =>
      negb (Contains (fmt_err lastErr) "invalid token" || Contains (fmt_err lastErr) "unauthorized" ||
            Contains (fmt_err lastErr) "permission denied" || Contains (fmt_err lastErr) "unauthenticated")
  end.

(** The loop of [getCert]: the certificate or the last error, or the error of the
    context ([inr]) when it is done before another attempt. *)
Fixpoint create_attempts (fc : CAClient) (cscr : CSR) (remaining attempt : nat) (last : res SigningCertificate)
    : res SigningCertificate + error :=
  match remaining with
  | 0 => inl last
  | S remaining =>
      match (if bool_decide (0 < attempt) then ctx_Err attempt else None) with
      | Some e => inr e
      | None =>
          match CreateSigningCertificate fc attempt cscr with
          | Err e => if isRetryable e then create_attempts fc cscr remaining (S attempt) (Err e) else inl (Err e)
          | r => inl r
          end
      end
  end.

(** The subject the token is for: the claim "email", else "sub". *)
Definition subject_of (claims : string * string) : string :=
  if bool_decide (claims.1 ≠ "") then claims.1 else claims.2.

Definition signing_request (key : ECDSAPrivateKey) (token subject : string) : res CSR :=
  proof ← SignMessage key subject;
  pubBytesPEM ← MarshalPublicKeyToPEM (ecdsa_public key);
  Ok (mkCSR token pubBytesPEM proof).

Definition getCert (key : ECDSAPrivateKey) (fc : CAClient) (token : string) : res SigningCertificate :=
  if bool_decide (token = "") then Err (Errorf "empty token provided to getCert")
  else if negb (Contains token ".")
  then Err (Errorf "invalid token format: token does not appear to be a JWT (missing dots)")
  else
    t ← on_error (λ e,
          if Contains (fmt_err e) "invalid character"
          then Wrapped "failed to parse JWT token: invalid JSON in token payload - " e
                 ". This may indicate the OIDC token endpoint returned an error response instead of a token"
          else Wrapf "failed to parse jwt token for fulcio" e)
          (jwt_ParseSigned token allowedJWTAlgorithms);
    claims ← wrap "failed to extract claims from JWT token" (UnsafeClaimsWithoutVerification t);
    if bool_decide (subject_of claims = "") then
      Err (Errorf ("no email or subject claim found in token. Claims: email=" +:+ QuoteToASCII claims.1 +:+
                   ", subject=" +:+ QuoteToASCII claims.2))
    else
      cscr ← signing_request key token (subject_of claims);
      match create_attempts fc cscr maxRetries 0 (Err (Errorf "")) with
      | inr e => Err e
      | inl (Err lastErr) =>
          if Contains (fmt_err lastErr) "rpc error" then
            Err (Wrapped ("failed to communicate with Fulcio service after " +:+ itoa maxRetries +:+ " attempts: ") lastErr
                   ". This may indicate a network issue or Fulcio service unavailability")
          else if Contains (fmt_err lastErr) "invalid token" || Contains (fmt_err lastErr) "unauthorized" then
            Err (Wrapped "fulcio rejected the OIDC token: " lastErr
                   ". This may indicate token expiration or invalid issuer configuration")
          else
            Err (Wrapf ("failed to create signing certificate from Fulcio after " +:+ itoa maxRetries +:+ " attempts") lastErr)
      | inl r => r
      end.

(** The request is one of its own: its number is that of no other operation. *)
Definition getCertHTTP (key : ECDSAPrivateKey) (fulcioURL token : string) : res SigningCertificate :=
  t ← wrap "failed to parse JWT token" (jwt_ParseSigned token allowedJWTAlgorithms);
  claims ← wrap "failed to extract claims from JWT token" (UnsafeClaimsWithoutVerification t);
  let subject := subject_of claims in
  if bool_decide (subject = "") then Err (Errorf "no email or subject claim found in token")
  else
    cscr ← signing_request key token subject;
    jsonPayload ← json_Marshal_CSR cscr;
    req ← NewRequest "POST" (fulcioURL +:+ "/api/v2/signingCert")
            [("Content-Type", "application/json"); ("Accept", "application/json")] jsonPayload;
    resp ← http_Do false 100 req;
    body ← wrap "failed to read response body" (Body resp);
    if bool_decide (StatusCode resp ≠ StatusOK) then
      Err (Errorf ("HTTP request failed with status: " +:+ Status resp +:+ ", body: " +:+ body))
    else wrap "failed to unmarshal response" (protojson_Unmarshal body).

(** [net.JoinHostPort] *)
Definition JoinHostPort (host port : string) : string :=
  if Contains host ":" then "[" +:+ host +:+ "]:" +:+ port else host +:+ ":" +:+ port.

Definition newClient (fulcioURL : string) (fulcioPort : Z) (isInsecure : bool) : res CAClient :=
  u ← url_Parse fulcioURL;
  if (bool_decide (url_Scheme u ≠ "https") && negb isInsecure) || bool_decide (url_Host u = "")
  then Err (Errorf ("invalid Fulcio URL: " +:+ fulcioURL))
  else grpc_NewClient ("passthrough:///" +:+ JoinHostPort (url_Hostname u) (ztoa fulcioPort)) isInsecure.

(** The raw token, case by case. *)
Definition raw_token (fsp : FulcioSignerProvider) : res string :=
  if bool_decide (Token fsp = "") && bool_decide (TokenPath fsp = "") && bool_decide (Getenv "GITHUB_ACTIONS" = "true") then
    let tokenURL := Getenv "ACTIONS_ID_TOKEN_REQUEST_URL" in
    if bool_decide (tokenURL = "") then Err (Errorf "ACTIONS_ID_TOKEN_REQUEST_URL is not set")
    else
      let requestToken := Getenv "ACTIONS_ID_TOKEN_REQUEST_TOKEN" in
      if bool_decide (requestToken = "") then Err (Errorf "ACTIONS_ID_TOKEN_REQUEST_TOKEN is not set")
      else wrap "failed to fetch GitHub Actions OIDC token" (fetchToken tokenURL requestToken "sigstore")
  else if bool_decide (TokenPath fsp ≠ "") && bool_decide (Token fsp ≠ "")
  then Err (Errorf "only one of --fulcio-token-path or --fulcio-raw-token can be used")
  else if bool_decide (Token fsp ≠ "") && bool_decide (TokenPath fsp = "") then Ok (Token fsp)
  else if bool_decide (TokenPath fsp ≠ "") && bool_decide (Token fsp = "")
  then wrap ("failed to read fulcio token from filepath " +:+ TokenPath fsp) (host_ReadFile (TokenPath fsp))
  else if bool_decide (Token fsp = "") && IsTerminal
  then OIDConnect (OidcIssuer fsp) (OidcClientID fsp) (OidcRedirectUrl fsp)
  else Err (Errorf "no token provided").

(** The chain of the answer; [GetChain] of a nil message is nil. *)
Definition chain_of (certResp : SigningCertificate) : option (list string) :=
  match certResp with DetachedSct chain | EmbeddedSct chain => chain | NoCertificate => None end.

(** The loop over the certificates: the last one that is no CA is the leaf, the
    others are the intermediates. *)
Definition add_certificate (total : nat) (acc : option Certificate * list Certificate) (ic : nat * string)
    : res (option Certificate * list Certificate) :=
  let (i, certPEM) := ic in
  let place := itoa (i + 1) +:+ "/" +:+ itoa total in
  match pem_Decode certPEM with
  | None => Err (Errorf ("failed to decode PEM block for certificate " +:+ place))
  | Some certDER =>
      cert ← wrap ("failed to parse certificate " +:+ place) (ParseCertificate (pem_Bytes certDER));
      Ok (if IsCA cert then (acc.1, acc.2 ++ [cert]) else (Some cert, acc.2))
  end.

Definition signer_of_chain (key : ECDSAPrivateKey) (certResp : SigningCertificate) : res Keys.Signer :=
  match chain_of certResp with
  | None => Panic "nil pointer dereference"
  | Some certs =>
      acc ← range_res (add_certificate (length certs)) (None, []) (zip (seq 0 (length certs)) certs);
      match acc.1 with
      | None => Err (Errorf "no leaf certificate found in Fulcio response")
      | Some leafCert => NewX509Signer (Some (ECDSASigner key SHA256)) (Some leafCert) acc.2 []
      end
  end.

Definition port_of (u : URL) : res Z :=
  if bool_decide (url_Port u ≠ "") then
    match Atoi (url_Port u) with
    | Err _ => Err (Errorf ("invalid port in Fulcio URL: " +:+ url_Port u))
    | r => r
    end
  else Ok 443%Z.

Definition Signer (fsp : FulcioSignerProvider) : res Keys.Signer :=
  u ← url_Parse (FulcioURL fsp);
  let scheme := if bool_decide (url_Scheme u = "") then "https" else url_Scheme u in
  port ← port_of u;
  if bool_decide (url_Host u = "") then Err (Errorf "fulcio URL must include a host")
  else
    let insecure := bool_decide (scheme = "http") in
    key ← GenerateKey;
    raw ← raw_token fsp;
    certResp ← (if UseHTTP fsp
                then wrap "failed to obtain certificate from Fulcio" (getCertHTTP key (FulcioURL fsp) raw)
                else
                  fClient ← newClient (scheme +:+ "://" +:+ url_Host u) port insecure;
                  wrap "failed to obtain certificate from Fulcio" (getCert key fClient raw));
    signer_of_chain key certResp.
End fulcio.
End Fulcio.
