(* ===== verification/CommandRun.v ===== *)
(** attestation/commandrun/commandrun.go: the attestor that runs a command, with
    the tracer of Ptrace.v (tracing_linux.go).

    os/exec is the class [ExecLib]: starting the command gives the process, the
    answers of the kernel to the tracer, the result of [Wait], and the output
    that is copied by the time it is read. *)
From S2P Require Import Prelude GoStrings GoText Errors Crypto Digest Constraints Attestation Environment Hooks Context Ptrace.
From stdpp Require Import options.

Module CommandRun.

Definition Name : string := "command-run".
Definition Type_ : string := "https://witness.dev/attestations/command-run/v0.1".
Definition RunType : string := ExecuteRunType.

(** [CommandRun]; [executeHooks] says whether the pointer to the hooks of the
    context is set. *)
Record CommandRun := mkCommandRun {
  Cmd : list string;
  Stdout : string;
  Stderr : string;
  ExitCode : Z;
  Processes : list ProcessInfo;
  silent : bool;
  materials : gmap string DigestSet;
  enableTracing : bool;
  executeHooks : bool;
}.

Definition Option := CommandRun → CommandRun.
Definition WithCommand (cmd : list string) : Option := λ cr,
  mkCommandRun cmd (Stdout cr) (Stderr cr) (ExitCode cr) (Processes cr) (silent cr) (materials cr)
    (enableTracing cr) (executeHooks cr).
Definition WithMaterials (ms : gmap string DigestSet) : Option := λ cr,
  mkCommandRun (Cmd cr) (Stdout cr) (Stderr cr) (ExitCode cr) (Processes cr) (silent cr) ms
    (enableTracing cr) (executeHooks cr).
Definition WithTracing (enabled : bool) : Option := λ cr,
  mkCommandRun (Cmd cr) (Stdout cr) (Stderr cr) (ExitCode cr) (Processes cr) (silent cr) (materials cr)
    enabled (executeHooks cr).
Definition WithSilent (s : bool) : Option := λ cr,
  mkCommandRun (Cmd cr) (Stdout cr) (Stderr cr) (ExitCode cr) (Processes cr) s (materials cr)
    (enableTracing cr) (executeHooks cr).
Definition New (opts : list Option) : CommandRun :=
  foldl (λ cr opt, opt cr) (mkCommandRun [] "" "" 0 [] false ∅ false false) opts.

Definition TracingEnabled (rc : CommandRun) : bool := enableTracing rc.

(** [DeclareHooks] keeps the pointer and declares nothing. *)
Definition DeclareHooks (rc : CommandRun) : CommandRun :=
  mkCommandRun (Cmd rc) (Stdout rc) (Stderr rc) (ExitCode rc) (Processes rc) (silent rc) (materials rc)
    (enableTracing rc) true.

Definition set_ExitCode (rc : CommandRun) (code : Z) : CommandRun :=
  mkCommandRun (Cmd rc) (Stdout rc) (Stderr rc) code (Processes rc) (silent rc) (materials rc)
    (enableTracing rc) (executeHooks rc).
Definition set_Processes (rc : CommandRun) (ps : list ProcessInfo) : CommandRun :=
  mkCommandRun (Cmd rc) (Stdout rc) (Stderr rc) (ExitCode rc) ps (silent rc) (materials rc)
    (enableTracing rc) (executeHooks rc).
Definition set_output (rc : CommandRun) (out err : string) : CommandRun :=
  mkCommandRun (Cmd rc) out err (ExitCode rc) (Processes rc) (silent rc) (materials rc)
    (enableTracing rc) (executeHooks rc).

(** What [Wait] answers: [*exec.ExitError] carries the exit code. *)
Inductive wait_result := Success | ExitError (code : Z) (e : error) | OtherError (e : error).

Record started := mkStarted {
  st_Pid : Z;
  st_Path : string;
  st_events : list wait_event;
  st_Wait : wait_result;
  st_stdout : string;
  st_stderr : string;
}.
(** The command, its directory, and whether it starts traced. *)
Class ExecLib := exec_Start : list string → string → bool → res started.

Section run.
Context `{CL : CryptoLib} `{GI : GitoidLib} `{GL : GlobLib} `{RO : RangeOrder} `{UL : UnixLib} `{EL : ExecLib}.
Context {A : Type}.
Implicit Types ctx : AttestationContext A.

(** [traceWithOptions]; without a context there are no hashes and no capturer.
    The capturer of the context is the one the tracer leaves. *)
Definition traceWithOptions (rc : CommandRun) (c : started) (actx : option (AttestationContext A)) (hk : ExecuteHooks)
    (hooks_only has_pre_exec has_pre_exit : bool) : option (CommandRun * ptraceContext * list ProcessInfo * err) :=
  let pctx := mkPtrace (st_Pid c) (st_Path c) ∅ 0
    (match actx with Some ctx => ctx_hashes ctx | None => [] end)
    (match actx with Some ctx => Some (ctx_capturer ctx) | None => None end)
    hk hooks_only has_pre_exec has_pre_exit in
  match runTrace (st_events c) pctx with
  | None => None
  | Some (pctx, Panic w) => Some (rc, pctx, [], Panic w)
  | Some (pctx, Err e) => Some (rc, pctx, [], Err e)
  | Some (pctx, Ok _) =>
      let rc := set_ExitCode rc (pt_exitCode pctx) in
      Some (rc, pctx, procInfoArray pctx,
            if bool_decide (pt_exitCode pctx = 0%Z) then nil_error
            else Err (Errorf ("exit status " +:+ ztoa (pt_exitCode pctx))))
  end.

(** The state after [runCmd]: the attestor, the capturer of the context, and the error. *)
Definition cmd_outcome := (CommandRun * Capture * err)%type.

(** The command has started: it is traced, runs with hooks, or is waited for. *)
Definition run_started (rc : CommandRun) (c : started) ctx (hk : ExecuteHooks) (hasPreExec hasPreExit : bool)
    : option cmd_outcome :=
  if enableTracing rc then
    match traceWithOptions rc c (Some ctx) hk false hasPreExec hasPreExit with
    | None => None
    | Some (rc, pctx, procs, e) =>
        Some (set_Processes rc procs, default (ctx_capturer ctx) (environmentCapturer pctx), e)
    end
  else if hasPreExec || hasPreExit then
    match traceWithOptions rc c None hk true hasPreExec hasPreExit with
    | None => None
    | Some (rc, _, _, e) => Some (rc, ctx_capturer ctx, e)
    end
  else
    Some (match st_Wait c with
          | Success => (rc, ctx_capturer ctx, nil_error)
          | ExitError code e => (set_ExitCode rc code, ctx_capturer ctx, Err e)
          | OtherError e => (rc, ctx_capturer ctx, Err e)
          end).

(** [runCmd]; [hk'] are the hooks of the context when the wait for them ends. *)
Definition runCmd (rc : CommandRun) ctx (hk' : ExecuteHooks) : option cmd_outcome :=
  let fails e := Some (rc, ctx_capturer ctx, e) in
  match Cmd rc with
  | [] => fails (Panic "index out of range [0] with length 0")
  | _ =>
    if negb (executeHooks rc) then fails (Panic "nil pointer dereference")
    else
      match wrap "failed waiting for hook registration" (WaitForDeclaredHooks (ctx_executeHooks ctx) hk') with
      | Err e => fails (Err e)
      | Panic w => fails (Panic w)
      | Ok _ =>
          let hasPreExec := HasHooks hk' StagePreExec in
          let hasPreExit := HasHooks hk' StagePreExit in
          match exec_Start (Cmd rc) (ctx_workingDir ctx) (enableTracing rc || (hasPreExec || hasPreExit)) with
          | Err e => fails (Err e)
          | Panic w => fails (Panic w)
          | Ok c =>
              match run_started rc c ctx hk' hasPreExec hasPreExit with
              | None => None
              | Some (rc, capturer, Panic w) => Some (rc, capturer, Panic w)
              | Some (rc, capturer, e) => Some (set_output rc (st_stdout c) (st_stderr c), capturer, e)
              end
          end
      end
  end.

Definition Attest (rc : CommandRun) ctx (hk' : ExecuteHooks) : option cmd_outcome :=
  match Cmd rc with
  | [] => Some (rc, ctx_capturer ctx,
                Err (ErrAttestor Name RunType "CommandRun attestation requires a command to run"))
  | _ => runCmd rc ctx hk'
  end.
End run.

(** The attestors of the dynamic type [*CommandRun]. *)
Class CommandRunOf (A : Type) := as_CommandRun : A → option CommandRun.
End CommandRun.
