(* ===== verification/CommandRunTheorems.v ===== *)
(** What the command attestor and its tracer guarantee (Ptrace.v, CommandRun.v):
    the exit code, the processes, the opened files; and the inputs on which they
    do something else. *)
From S2P Require Import Prelude GoStrings GoText Errors Crypto Digest Toy Constraints Environment Hooks Context Ptrace CommandRun.
From stdpp Require Import options.

(** * What the tracer saw *)

Section seen.
Context `{CL : CryptoLib} `{GI : GitoidLib} `{GL : GlobLib} `{RO : RangeOrder} `{UL : UnixLib}.
Implicit Types (p : ptraceContext) (ev : wait_event) (seen : list wait_event).

(** A process stops at the entry of a system call, with these registers. *)
Definition syscall_entry ev : option (Z * PtraceRegs) :=
  match wait_answer ev with
  | Ok (pid, status) =>
      if Stopped status && bool_decide (StopSignal status = Z.lor SIGTRAP 128) then
        match PtraceGetRegs (wait_os ev) pid, PtraceGetEventMsg (wait_os ev) pid with
        | Ok regs, Ok msg => if bool_decide (msg = PTRACE_EVENTMSG_SYSCALL_ENTRY) then Some (pid, regs) else None
        | _, _ => None
        end
      else None
  | _ => None
  end.

(** It is about to execute a program, whose name is at this address. *)
Definition execves ev : option (Z * Z) :=
  e ← syscall_entry ev;
  if bool_decide (getSyscallId e.2 = SYS_EXECVE) then Some (e.1, Rdi e.2) else None.
(** It is about to open a file, whose name can be read. *)
Definition opens ev : option (Z * string) :=
  e ← syscall_entry ev;
  if bool_decide (getSyscallId e.2 ≠ SYS_EXECVE ∧ getSyscallId e.2 = SYS_OPENAT) then
    match readSyscallReg (wait_os ev) e.1 (Rsi e.2) MAX_PATH_LEN with Ok file => Some (e.1, file) | _ => None end
  else None.

(** The file with its digests at that moment; without digests when it cannot be opened. *)
Definition opened (hashes : list DigestValue) ev : option ((Z * string) * option DigestSet) :=
  o ← opens ev;
  match CalculateDigestSetFromFile (os_OpenFile (wait_os ev)) o.2 hashes with
  | Ok d => Some (o, Some d)
  | Err e => if is_PathError e then Some (o, None) else None
  | Panic _ => None
  end.

(** What can be read of the process at that moment. *)
Definition executed {X} (f : OS → Z → Z → res X) ev : option (Z * X) :=
  e ← execves ev; match f (wait_os ev) e.1 e.2 with Ok x => Some (e.1, x) | _ => None end.
Definition program_name (os : OS) (pid addr : Z) : res string := readSyscallReg os pid addr MAX_PATH_LEN.
Definition program_digest (hashes : list DigestValue) (os : OS) (pid addr : Z) : res DigestSet :=
  name ← program_name os pid addr;
  if bool_decide (name = "") then Err (Errorf "no program") else CalculateDigestSetFromFile (os_OpenFile os) name hashes.
Definition comm_of (os : OS) (pid _ : Z) : res string := cleanString <$> os_ReadFile os (proc_path pid "comm").
Definition cmdline_of (os : OS) (pid _ : Z) : res string := cleanString <$> os_ReadFile os (proc_path pid "cmdline").
Definition exe_of (hashes : list DigestValue) (os : OS) (pid _ : Z) : res DigestSet :=
  CalculateDigestSetFromFile (os_OpenFile os) (proc_path pid "exe") hashes.
Definition parent_of (os : OS) (pid _ : Z) : res Z :=
  status ← os_ReadFile os (proc_path pid "status"); getPPIDFromStatus status.
Definition vuln_of (os : OS) (pid _ : Z) : res bool :=
  status ← os_ReadFile os (proc_path pid "status"); getSpecBypassIsVulnFromStatus status.

(** The last of the observations about a process, or about a file of it. *)
Definition last_seen {K X} `{EqDecision K} (f : wait_event → option (K * X)) seen (k : K) : option X :=
  foldl (λ acc ev, match f ev with
                   | Some (k', x) => if decide (k' = k) then Some x else acc
                   | None => acc
                   end) None seen.

(** The report of a process, apart from its environment and its files: each field is
    the last observation, if there was one. *)
Record reported (hashes : list DigestValue) (program : string) seen (pid : Z) (pi : ProcessInfo) : Prop := {
  reported_pid : pi_ProcessID pi = pid;
  reported_program : pi_Program pi = default program (last_seen (executed program_name) seen pid);
  reported_digest : pi_ProgramDigest pi = default ∅ (last_seen (executed (program_digest hashes)) seen pid);
  reported_comm : pi_Comm pi = default "" (last_seen (executed comm_of) seen pid);
  reported_cmdline : pi_Cmdline pi = default "" (last_seen (executed cmdline_of) seen pid);
  reported_exe : pi_ExeDigest pi = default ∅ (last_seen (executed (exe_of hashes)) seen pid);
  reported_parent : pi_ParentPID pi = default 0%Z (last_seen (executed parent_of) seen pid);
  reported_vuln : pi_SpecBypassIsVuln pi = default false (last_seen (executed vuln_of) seen pid);
}.

(** The processes that were seen to execute a program or open a file. *)
Definition active seen (pid : Z) : Prop :=
  ∃ ev, ev ∈ seen ∧ ((∃ addr, execves ev = Some (pid, addr)) ∨ ∃ file, opens ev = Some (pid, file)).

(** ** The invariant of the loop *)

Definition info p (pid : Z) : ProcessInfo := default (new_procInfo pid) (processes p !! pid).
Record sees (tracee : Z) (hashes : list DigestValue) (program : string) seen p : Prop := {
  sees_tracee : traceePid p = tracee;
  sees_hash : pt_hash p = hashes;
  sees_tracing : hooksOnly p = false;
  sees_reported pid : reported hashes (if decide (pid = tracee) then program else "") seen pid (info p pid);
  sees_opened pid file : pi_OpenedFiles (info p pid) !! file = last_seen (opened hashes) seen (pid, file);
  sees_active pid : pid = tracee ∨ active seen pid → is_Some (processes p !! pid);
}.

Lemma last_seen_snoc {K X} `{EqDecision K} (f : wait_event → option (K * X)) seen ev k :
  last_seen f (seen ++ [ev]) k =
  match f ev with Some (k', x) => if decide (k' = k) then Some x else last_seen f seen k | None => last_seen f seen k end.
Proof. unfold last_seen. by rw foldl_app. Qed.

(** The value of a call, or the old one. *)
Definition value_or {X} (old : X) (m : res X) : X := match m with Ok x => x | _ => old end.

Lemma executed_snoc {X} (f : OS → Z → Z → res X) (old : X) seen ev pid addr pid' :
  execves ev = Some (pid, addr) →
  default old (last_seen (executed f) (seen ++ [ev]) pid') =
  if decide (pid' = pid) then value_or (default old (last_seen (executed f) seen pid')) (f (wait_os ev) pid addr)
  else default old (last_seen (executed f) seen pid').
Proof.
  intros He. rw last_seen_snoc. unfold executed at 1. rw He. cbn.
  destruct (f (wait_os ev) pid addr); repeat case_decide; simplify_eq/=; done.
Qed.
Lemma not_executed_snoc {X} (f : OS → Z → Z → res X) seen ev pid' :
  execves ev = None → last_seen (executed f) (seen ++ [ev]) pid' = last_seen (executed f) seen pid'.
Proof. intros He. rw last_seen_snoc. unfold executed at 1. by rw He. Qed.

Lemma opened_snoc hashes seen ev pid file d k :
  opened hashes ev = Some (pid, file, d) →
  last_seen (opened hashes) (seen ++ [ev]) k = if decide ((pid, file) = k) then Some d else last_seen (opened hashes) seen k.
Proof. intros Ho. rw last_seen_snoc. by rw Ho. Qed.
Lemma not_opened_snoc hashes seen ev k :
  opened hashes ev = None → last_seen (opened hashes) (seen ++ [ev]) k = last_seen (opened hashes) seen k.
Proof. intros Ho. rw last_seen_snoc. by rw Ho. Qed.

Lemma active_snoc seen ev pid :
  active (seen ++ [ev]) pid ↔
  active seen pid ∨ (∃ addr, execves ev = Some (pid, addr)) ∨ ∃ file, opens ev = Some (pid, file).
Proof.
  unfold active. setoid_rewrite elem_of_app. setoid_rewrite list_elem_of_singleton. split.
  - intros (ev' & [Hin| ->] & H); [left; by exists ev'|by right].
  - intros [(ev' & Hin & H)|H]; [exists ev'; auto|exists ev; auto].
Qed.

(** An event that shows nothing. *)
Lemma sees_nothing tracee hashes program seen p ev :
  sees tracee hashes program seen p → execves ev = None → opens ev = None →
  sees tracee hashes program (seen ++ [ev]) p.
Proof.
  intros [] He Ho. split; [done..| | |].
  - intros pid. destruct (sees_reported0 pid). split; by rw ?(not_executed_snoc _ _ _ _ He).
  - intros pid file. rw not_opened_snoc; [done|]. unfold opened. by rw Ho.
  - intros pid. rw active_snoc. intros [?|[?|[[a Ha]|[a Ha]]]]; [by auto..|congruence|congruence].
Qed.

Lemma getProcInfo_info p pid p1 pi :
  getProcInfo p pid = (p1, pi) →
  pi = info p pid ∧ traceePid p1 = traceePid p ∧ pt_hash p1 = pt_hash p ∧ hooksOnly p1 = hooksOnly p ∧
  processes p1 = <[pid := pi]> (processes p).
Proof.
  unfold getProcInfo, info. destruct (processes p !! pid) as [pi0|] eqn:Hp; intros [= <- <-]; [|done].
  cbn. rw insert_id; done.
Qed.

(** A change of the entry of one process. *)
Lemma sees_update tracee hashes program seen p ev pid pi p' :
  sees tracee hashes program seen p →
  traceePid p' = traceePid p → pt_hash p' = pt_hash p → hooksOnly p' = hooksOnly p →
  processes p' = <[pid := pi]> (processes p) →
  (∀ pid', (∃ addr, execves ev = Some (pid', addr)) ∨ (∃ file, opens ev = Some (pid', file)) → pid' = pid) →
  reported hashes (if decide (pid = tracee) then program else "") (seen ++ [ev]) pid pi →
  (∀ file, pi_OpenedFiles pi !! file = last_seen (opened hashes) (seen ++ [ev]) (pid, file)) →
  sees tracee hashes program (seen ++ [ev]) p'.
Proof.
  intros [] Ht Hh Hk Hp Hev Hr Ho. split; [congruence..| | |].
  - intros pid'. unfold info. rw Hp. destruct (decide (pid' = pid)) as [->|Hne].
    + by rw lookup_insert_eq.
    + rw lookup_insert_ne; [|done]. assert (∀ {X} (f : OS → Z → Z → res X),
        last_seen (executed f) (seen ++ [ev]) pid' = last_seen (executed f) seen pid') as Hsame.
      { intros X f. rw last_seen_snoc. unfold executed at 1. destruct (execves ev) as [[pid1 addr]|] eqn:He; [|done].
        cbn. destruct (f _ _ _); [|done..]. rw decide_False; [done|]. intros ->.
        apply Hne, Hev. left. by eexists. }
      destruct (sees_reported0 pid'). split; by rw ?Hsame.
  - intros pid' file. unfold info. rw Hp. destruct (decide (pid' = pid)) as [->|Hne].
    + by rw lookup_insert_eq.
    + rw lookup_insert_ne; [|done]. rw last_seen_snoc. destruct (opened hashes ev) as [[[pid1 file1] d]|] eqn:He; [|apply sees_opened0].
      rw decide_False; [apply sees_opened0|]. intros [= -> ->]. apply Hne, Hev. right. unfold opened in He.
      destruct (opens ev) as [[pid2 file2]|]; [|done]. cbn in He. repeat case_match; simplify_eq; by eexists.
  - intros pid'. rw Hp active_snoc. destruct (decide (pid' = pid)) as [->|Hne]; [by rw lookup_insert_eq|].
    rw lookup_insert_ne; [|done]. intros [?|[?|H]]; [auto..|]. by destruct Hne; apply Hev.
Qed.

Lemma or_keep_Ok {X} (old : X) (m : res X) x : or_keep old m = Ok x ↔ x = value_or old m ∧ no_panic m.
Proof. unfold or_keep, no_panic. destruct m; naive_solver. Qed.

(** The capturer gives no error: it panics when a pattern does not compile. *)
Lemma match_first_no_err globs key e : match_first globs key ≠ Err e.
Proof. induction globs as [|[g|] globs IH]; cbn [match_first]; [done| |done]. by destruct (g key). Qed.
Lemma match_all_no_err globs key found e : match_all globs key found ≠ Err e.
Proof. revert found; induction globs as [|[g|] globs IH]; intros found; cbn [match_all]; done. Qed.
Lemma collect_no_err {X Y} (f : X → res (list Y)) l e : (∀ x e, f x ≠ Err e) → collect f l ≠ Err e.
Proof.
  intros Hf. induction l as [|x l IH]; cbn [collect]; [done|]. pose proof (Hf x) as Hx.
  destruct (f x) as [|e'|]; cbn [mbind res_bind]; [|by destruct (Hx e')|done]. by destruct (collect f l) as [|e'|]; cbn; congruence.
Qed.
Lemma captured_environ_no_err c env e : captured_environ c env ≠ Err e.
Proof.
  unfold captured_environ. destruct c as [c|]; [|done]. destruct (Capture_Capture c _) as [c' r] eqn:Hc.
  assert (∀ e, r ≠ Err e) as Hr; [|destruct r as [|e'|]; [done|by destruct (Hr e')|done]].
  injection Hc as _ <-. intros e'.
  enough (∀ m : res (list (string * string * string)), m ≠ Err e' → capture_variables <$> m ≠ Err e') as Hm.
  - apply Hm. destruct (filterVarsEnabled c); apply collect_no_err; intros v e2; destruct (splitVariable v) as [key val].
    + unfold filter_flag. case_bool_decide; [done|]. pose proof (match_first_no_err (glob_list (capture_keys c)) key) as Hg.
      destruct (match_first _ _) as [|e3|]; cbn; [done|by destruct (Hg e3)|done].
    + unfold hide_flag. case_bool_decide; [done|].
      pose proof (match_all_no_err (glob_list (capture_keys c)) key (bool_decide (key ∈ capture_keys c))) as Hg.
      destruct (match_all _ _ _) as [|e3|]; cbn; [done|by destruct (Hg e3)|done].
  - intros [| |] Hm; cbn; congruence.
Qed.
Lemma status_no_err (st : string) e : getSpecBypassIsVulnFromStatus st ≠ Err e.
Proof.
  unfold getSpecBypassIsVulnFromStatus. induction (SplitByte st line_feed) as [|l ls IH]; cbn [vuln_of_lines]; [done|].
  destruct (Contains l _); [|done]. destruct (second _) as [x| |] eqn:Hs; cbn [mbind res_bind]; [by destruct (Contains _ _)| |done].
  unfold second in Hs. by destruct (SplitByte l ":") as [|? []].
Qed.

Lemma bind_no_err {X Y} (m : res X) (f : X → res Y) :
  (∀ e, m ≠ Err e) → (∀ x e, f x ≠ Err e) → ∀ e, m ≫= f ≠ Err e.
Proof. intros Hm Hf e. destruct m as [x|e'|w]; cbn; [apply Hf|by destruct (Hm e')|done]. Qed.
Lemma or_keep_no_err {X} (old : X) m e : or_keep old m ≠ Err e.
Proof. by destruct m. Qed.

(** What the case of [execve] has done when it did not panic. *)
Lemma handle_execve_spec os p pid addr p' e :
  pi_ProcessID (info p pid) = pid → handle_execve os p pid addr = (p', e) → no_panic e →
  traceePid p' = traceePid p ∧ pt_hash p' = pt_hash p ∧ hooksOnly p' = hooksOnly p ∧
  ∃ pi', processes p' = <[pid := pi']> (processes p) ∧ let pi := info p pid in
    pi_ProcessID pi' = pid ∧ pi_Program pi' = value_or (pi_Program pi) (program_name os pid addr) ∧
    pi_ProgramDigest pi' = value_or (pi_ProgramDigest pi) (program_digest (pt_hash p) os pid addr) ∧
    pi_Comm pi' = value_or (pi_Comm pi) (comm_of os pid addr) ∧
    pi_Cmdline pi' = value_or (pi_Cmdline pi) (cmdline_of os pid addr) ∧
    pi_ExeDigest pi' = value_or (pi_ExeDigest pi) (exe_of (pt_hash p) os pid addr) ∧
    pi_ParentPID pi' = value_or (pi_ParentPID pi) (parent_of os pid addr) ∧
    pi_SpecBypassIsVuln pi' = value_or (pi_SpecBypassIsVuln pi) (vuln_of os pid addr) ∧
    pi_OpenedFiles pi' = pi_OpenedFiles pi.
Proof.
  intros Hkey. unfold handle_execve. destruct (getProcInfo p pid) as [p1 pi] eqn:Hg.
  apply getProcInfo_info in Hg as (-> & Ht & Hh & Hc & Hp). cbv zeta. rw !Hkey.
  match goal with |- context [match ?r with Ok _ => _ | _ => _ end = _] => destruct r as [[c pi']|e'|w] eqn:Hr end; cycle 1.
  { exfalso. revert Hr. repeat (apply bind_no_err; [|intros ?]); intros e''; try apply or_keep_no_err; try done.
    - by destruct (readSyscallReg _ _ _ _).
    - case_match; [|done]. revert e''. apply bind_no_err; [apply status_no_err|]. intros ?.
      apply bind_no_err; [apply or_keep_no_err|done].
    - case_match; [|done]. revert e''. apply bind_no_err; [apply captured_environ_no_err|done].
    - case_bool_decide; [done|]. apply or_keep_no_err. }
  { intros [= <- <-] Hn. by destruct (Hn w). }
  intros [= <- <-] _.
  assert (∀ q, traceePid (put_procInfo q pid pi') = traceePid q ∧ pt_hash (put_procInfo q pid pi') = pt_hash q ∧
    processes (put_procInfo q pid pi') = <[pid := pi']> (processes q)) as Hput by done.
  do 3 (split; [by destruct c|]). exists pi'. split.
  { transitivity (<[pid := pi']> (processes p1)); [by destruct c|]. rw Hp. apply insert_insert_eq. }
  res_inv. cbn -[info]. rewrite Hh in H6, H7. apply or_keep_Ok in H2 as [-> _], H5 as [-> _], H6 as [-> _].
  assert (x1.1 = value_or (pi_SpecBypassIsVuln (info p pid)) (vuln_of os pid addr) ∧
          x1.2 = value_or (pi_ParentPID (info p pid)) (parent_of os pid addr)) as [Hvuln Hparent].
  { unfold vuln_of, parent_of. apply or_keep_Ok in H0 as [-> Hst].
    destruct (os_ReadFile os (proc_path pid "status")) as [st| |w]; cbn in *; [|by simplify_eq|by destruct (Hst w)].
    apply res_bind_ok in H1 as (v & Hv & (n & Hn%or_keep_Ok & [= <-])%res_bind_ok). rw Hv. by destruct Hn as [-> _]. }
  split; [done|]. split; [|split; [|done]].
  - unfold program_name. by destruct (readSyscallReg os pid addr MAX_PATH_LEN); simplify_eq.
  - unfold program_digest, program_name. destruct (readSyscallReg os pid addr MAX_PATH_LEN) as [name| |]; simplify_eq/=.
    + case_bool_decide; simplify_eq; [done|]. by apply or_keep_Ok in H7 as [-> _].
    + done.
Qed.

(** The same of [openat]. *)
Lemma handle_openat_spec os p pid addr p' e :
  handle_openat os p pid addr = (p', e) → no_panic e →
  match readSyscallReg os pid addr MAX_PATH_LEN with
  | Ok file =>
      traceePid p' = traceePid p ∧ pt_hash p' = pt_hash p ∧ hooksOnly p' = hooksOnly p ∧
      processes p' = <[pid := match CalculateDigestSetFromFile (os_OpenFile os) file (pt_hash p) with
                              | Ok d => opened_file (info p pid) file (Some d)
                              | Err e => if is_PathError e then opened_file (info p pid) file None else info p pid
                              | Panic _ => info p pid
                              end]> (processes p)
  | _ => p' = p
  end.
Proof.
  unfold handle_openat. destruct (readSyscallReg _ _ _ _) as [file| |]; [|by intros [= <- <-]..].
  destruct (getProcInfo p pid) as [p1 pi] eqn:Hg. apply getProcInfo_info in Hg as (-> & Ht & Hh & Hk & Hp).
  rw Hh. destruct (CalculateDigestSetFromFile _ _ _) as [d|e0|w]; [| |by intros [= <- <-] Hn; destruct (Hn w)].
  - intros [= <- <-] _. do 3 (split; [done|]). cbn. rw Hp. apply insert_insert_eq.
  - intros [= <- <-] _. destruct (is_PathError e0); [|done].
    do 3 (split; [done|]). cbn. rw Hp. apply insert_insert_eq.
Qed.

(** ** The steps of the loop *)
Lemma sees_execve tracee hashes program seen p ev pid addr p' e :
  sees tracee hashes program seen p → execves ev = Some (pid, addr) → opens ev = None →
  handle_execve (wait_os ev) p pid addr = (p', e) → no_panic e → sees tracee hashes program (seen ++ [ev]) p'.
Proof.
  intros Hs He Ho H Hn. pose proof (sees_reported _ _ _ _ _ Hs pid) as [].
  apply handle_execve_spec in H as (Ht & Hh & Hk & pi' & Hp & H1 & H2 & H3 & H4 & H5 & H6 & H7 & H8 & H9); [|done..].
  rewrite (sees_hash _ _ _ _ _ Hs) in H3, H6.
  apply (sees_update _ _ _ _ p ev pid pi'); [done..| | |].
  - rw He Ho. intros pid' [[? [= -> _]]|[? ?]]; done.
  - split; [done|..]; rw (executed_snoc _ _ _ _ _ _ _ He) decide_True; congruence.
  - intros file. rw not_opened_snoc; [|by unfold opened; rw Ho]. rw H9. apply (sees_opened _ _ _ _ _ Hs).
Qed.

Lemma sees_openat tracee hashes program seen p ev pid addr p' e :
  sees tracee hashes program seen p → execves ev = None →
  opens ev = match readSyscallReg (wait_os ev) pid addr MAX_PATH_LEN with Ok file => Some (pid, file) | _ => None end →
  handle_openat (wait_os ev) p pid addr = (p', e) → no_panic e → sees tracee hashes program (seen ++ [ev]) p'.
Proof.
  intros Hs He Ho H Hn. apply handle_openat_spec in H; [|done].
  destruct (readSyscallReg _ _ _ _) as [file| |]; [|subst p'; by apply sees_nothing..].
  destruct H as (Ht & Hh & Hk & Hp). pose proof (sees_reported _ _ _ _ _ Hs pid) as Hr.
  pose proof (sees_opened _ _ _ _ _ Hs pid) as Hfiles. rewrite (sees_hash _ _ _ _ _ Hs) in Hp.
  eapply (sees_update _ _ _ _ p ev pid); [done..| | |].
  - rw He Ho. intros pid' [[? ?]|[? [= -> _]]]; done.
  - assert (reported hashes (if decide (pid = tracee) then program else "") (seen ++ [ev]) pid (info p pid)) as Hr'.
    { destruct Hr. split; by rw ?(not_executed_snoc _ _ _ _ He). }
    destruct Hr'. repeat case_match; by split.
  - intros file'. destruct (CalculateDigestSetFromFile _ file hashes) as [d|e0|w] eqn:Hd.
    + rw (opened_snoc hashes seen ev pid file (Some d)); [|by unfold opened; rw Ho; cbn; rw Hd]. cbn [opened_file pi_OpenedFiles].
      destruct (decide (file = file')) as [->|Hne]; [by rw lookup_insert_eq decide_True|].
      rw lookup_insert_ne // decide_False; [done|congruence].
    + destruct (is_PathError e0) eqn:Hpe.
      * rw (opened_snoc hashes seen ev pid file None); [|by unfold opened; rw Ho; cbn; rw Hd Hpe]. cbn [opened_file pi_OpenedFiles].
        destruct (decide (file = file')) as [->|Hne]; [by rw lookup_insert_eq decide_True|].
        rw lookup_insert_ne // decide_False; [done|congruence].
      * rw not_opened_snoc; [done|]. unfold opened. rw Ho. cbn. by rw Hd Hpe.
    + rw not_opened_snoc; [done|]. unfold opened. rw Ho. cbn. by rw Hd.
Qed.

Lemma sees_syscall tracee hashes program seen p ev pid status p' e :
  sees tracee hashes program seen p → wait_answer ev = Ok (pid, status) → Stopped status = true →
  StopSignal status = Z.lor SIGTRAP 128 →
  nextSyscall (wait_os ev) p pid = (p', e) → no_panic e → sees tracee hashes program (seen ++ [ev]) p'.
Proof.
  intros Hs Ha Hst Hsig. unfold nextSyscall.
  assert (syscall_entry ev = match PtraceGetRegs (wait_os ev) pid, PtraceGetEventMsg (wait_os ev) pid with
    | Ok regs, Ok msg => if bool_decide (msg = PTRACE_EVENTMSG_SYSCALL_ENTRY) then Some (pid, regs) else None
    | _, _ => None end) as Hentry.
  { unfold syscall_entry. rw Ha Hst. by rw bool_decide_eq_true_2. }
  assert (syscall_entry ev = None → sees tracee hashes program (seen ++ [ev]) p) as Hnone.
  { intros Hno. apply sees_nothing; [done|..]; [unfold execves|unfold opens]; by rw Hno. }
  destruct (PtraceGetRegs _ _) as [regs| |]; [|intros [= <- <-]; auto..].
  destruct (PtraceGetEventMsg _ _) as [msg| |]; [|intros [= <- <-]; auto..].
  case_bool_decide; [|intros [= <- <-]; auto]. unfold handleSyscall. case_bool_decide as H1; [|case_bool_decide as H2].
  - apply sees_execve; [done|unfold execves|unfold opens]; rw Hentry; cbn.
    + by rw bool_decide_eq_true_2.
    + rw bool_decide_eq_false_2; [done|naive_solver].
  - apply sees_openat; [done|unfold execves|unfold opens]; rw Hentry; cbn.
    + by rw bool_decide_eq_false_2.
    + by rw bool_decide_eq_true_2.
  - intros [= <- <-] _. apply sees_nothing; [done|unfold execves|unfold opens]; rw Hentry; cbn.
    + by rw bool_decide_eq_false_2.
    + rw bool_decide_eq_false_2; [done|naive_solver].
Qed.

Lemma sees_stop tracee hashes program seen p ev pid status p' r :
  sees tracee hashes program seen p → wait_answer ev = Ok (pid, status) → Stopped status = true →
  on_stop (wait_os ev) p pid status = Some (p', r) → no_panic r → sees tracee hashes program (seen ++ [ev]) p'.
Proof.
  intros Hs Ha Hst. unfold on_stop. case_bool_decide as Hsig.
  { destruct (nextSyscall _ _ _) as [p1 e] eqn:Hn. intros H Hnp. eapply sees_syscall; [done..| |].
    - rw Hn. by destruct e; simplify_eq.
    - destruct e; [done..|]. simplify_eq. by destruct (Hnp why). }
  assert (sees tracee hashes program (seen ++ [ev]) p) as Hsame.
  { apply sees_nothing; [done|unfold execves|unfold opens]; unfold syscall_entry; rw Ha Hst; by rw bool_decide_eq_false_2. }
  intros H _. repeat case_match; by simplify_eq.
Qed.

(** What the loop has seen when it ends: everything before the status that ended it. *)
Lemma trace_loop_sees tracee hashes program seen evs p p' os :
  sees tracee hashes program seen p → trace_loop evs p = Some (p', os, nil_error) →
  ∃ more last rest status, evs = more ++ last :: rest ∧ wait_answer last = Ok (tracee, status) ∧ os = wait_os last ∧
    (Exited status = true ∧ pt_exitCode p' = ExitStatus status ∨
     Exited status = false ∧ Signaled status = true ∧ pt_exitCode p' = (128 + Signal status)%Z) ∧
    sees tracee hashes program (seen ++ more) p'.
Proof.
  revert seen p; induction evs as [|ev evs IH]; intros seen p Hs; cbn [trace_loop]; [done|].
  assert (∀ q, sees tracee hashes program (seen ++ [ev]) q → trace_loop evs q = Some (p', os, nil_error) →
    ∃ more last rest status, ev :: evs = more ++ last :: rest ∧ wait_answer last = Ok (tracee, status) ∧ os = wait_os last ∧
    (Exited status = true ∧ pt_exitCode p' = ExitStatus status ∨
     Exited status = false ∧ Signaled status = true ∧ pt_exitCode p' = (128 + Signal status)%Z) ∧
    sees tracee hashes program (seen ++ more) p') as Hstep.
  { intros q Hq (more & last & rest & status & -> & Hl & Ho & Hc & Hsee)%(IH _ _ Hq).
    exists (ev :: more), last, rest, status. by rewrite -assoc_L in Hsee. }
  destruct (wait_answer ev) as [[pid status]| |] eqn:Ha; [|done..].
  pose proof (sees_tracee _ _ _ _ _ Hs) as Ht. rw Ht.
  destruct (bool_decide (pid = tracee) && Exited status) eqn:H1.
  { apply andb_true_iff in H1 as [->%bool_decide_eq_true H1]. intros [= <- <-].
    exists [], ev, evs, status. rw app_nil_r. split_and!; [done..|by left|by destruct Hs]. }
  destruct (bool_decide (pid = tracee) && Signaled status) eqn:H2.
  { apply andb_true_iff in H2 as [->%bool_decide_eq_true H2]. rewrite bool_decide_eq_true_2 in H1; [|done].
    intros [= <- <-]. exists [], ev, evs, status. rw app_nil_r. split_and!; [done..|by right|by destruct Hs]. }
  destruct (Stopped status) eqn:Hst.
  - destruct (on_stop _ _ _ _) as [[q r]|] eqn:Hon; [|done].
    destruct r as [i|e|w]; [| |done]; apply Hstep; eapply sees_stop; eauto; by intros w.
  - apply Hstep. apply sees_nothing; [done|unfold execves|unfold opens]; unfold syscall_entry; by rw Ha Hst.
Qed.
(** ** The end of the trace *)

(** A file of the traced process that could not be opened is tried again at the end,
    and is left out when it still cannot be read. *)
Definition retried (os : OS) (hashes : list DigestValue) (file : string) (d : option DigestSet) : option (option DigestSet) :=
  match d with
  | Some d => Some (Some d)
  | None => match CalculateDigestSetFromFile (os_OpenFile os) file hashes with Ok d => Some (Some d) | _ => None end
  end.

Lemma retry_step_spec os hashes acc f d acc' :
  retry_step os hashes acc (f, d) = Ok acc' → acc !! f = Some d →
  acc' !! f = retried os hashes f d ∧ ∀ f', f' ≠ f → acc' !! f' = acc !! f'.
Proof.
  unfold retry_step, retried. cbn [fst snd]. destruct d as [d|]; [by intros [= <-]|].
  destruct (CalculateDigestSetFromFile _ f hashes) as [d|e|w]; [| |done]; intros [= <-] _.
  - split; [apply lookup_insert_eq|]. intros f' Hne. by rw lookup_insert_ne.
  - split; [apply lookup_delete_eq|]. intros f' Hne. by rw lookup_delete_ne.
Qed.

Lemma retry_files_spec os hashes files files' f :
  retry_files os hashes files = Ok files' → files' !! f = d ← files !! f; retried os hashes f d.
Proof.
  unfold retry_files. intros H.
  assert (∀ l acc, NoDup l.*1 → range_res (retry_step os hashes) acc l = Ok files' →
    (∀ f d, (f, d) ∈ l → acc !! f = Some d) →
    (f ∉ l.*1 → files' !! f = acc !! f) ∧ (∀ d, (f, d) ∈ l → files' !! f = retried os hashes f d)) as Hall.
  { clear H. induction l as [|[f0 d0] l IH]; intros acc; cbn [range_res].
    - intros _ [= <-] _. split; [done|]. by intros d ?%not_elem_of_nil.
    - intros [Hf0 Hnd]%NoDup_cons (acc1 & Hs & H)%res_bind_ok Hacc.
      apply retry_step_spec in Hs as [Hs Hsame]; [|apply Hacc; left].
      assert (∀ f d, (f, d) ∈ l → acc1 !! f = Some d) as Hacc1.
      { intros f' d' Hin. rw Hsame; [by apply Hacc; right|]. intros ->. apply Hf0. apply list_elem_of_fmap. by exists (f0, d'). }
      destruct (IH acc1 Hnd H Hacc1) as [Hout Hin]. split.
      + intros [Hne Hl]%not_elem_of_cons. rw Hout; [by apply Hsame|done].
      + intros d [[= -> ->]|Hd]%elem_of_cons; [|by apply Hin]. by rw Hout. }
  destruct (Hall _ _ (NoDup_fst_range 3 files) H) as [Hout Hin]; [intros f' d Hd; by apply elem_of_range in Hd|].
  destruct (files !! f) as [d|] eqn:Hf; cbn.
  - apply Hin. by apply elem_of_range.
  - rw Hout; [done|]. intros ([f' d] & -> & Hd%elem_of_range)%list_elem_of_fmap. cbn in Hf. congruence.
Qed.

Lemma retry_files_no_err os hash files e : retry_files os hash files ≠ Err e.
Proof.
  unfold retry_files. generalize files at 1. induction (range_map 3 files) as [|fd l IH]; intros acc; [done|].
  cbn [range_res]. destruct (retry_step os hash acc fd) eqn:Hs; [apply IH| |done].
  unfold retry_step in Hs. destruct (fd.2); [done|].
  by destruct (CalculateDigestSetFromFile (os_OpenFile os) fd.1 hash).
Qed.

(** The final report of the files of a process. *)
Definition reported_files (os : OS) (hashes : list DigestValue) (tracee pid : Z) seen (file : string) : option (option DigestSet) :=
  d ← last_seen (opened hashes) seen (pid, file);
  if decide (pid = tracee) then retried os hashes file d else Some d.

Lemma info_elem p pid : is_Some (processes p !! pid) → processes p !! pid = Some (info p pid).
Proof. unfold info. by intros [pi ->]. Qed.

Lemma retryOpenedFiles_sees os tracee hashes program seen p p' :
  sees tracee hashes program seen p → retryOpenedFiles os p = Ok p' →
  pt_exitCode p' = pt_exitCode p ∧
  (∀ pid, pid = tracee ∨ active seen pid → is_Some (processes p' !! pid)) ∧
  ∀ pid pi, processes p' !! pid = Some pi →
    reported hashes (if decide (pid = tracee) then program else "") seen pid pi ∧
    ∀ file, pi_OpenedFiles pi !! file = reported_files os hashes tracee pid seen file.
Proof.
  intros []. unfold retryOpenedFiles. rw sees_tracee0. destruct (getProcInfo p tracee) as [p1 pi] eqn:Hg.
  assert (pt_exitCode p1 = pt_exitCode p) as Hcode.
  { revert Hg. unfold getProcInfo. by destruct (_ !! _); intros [= <- _]. }
  apply getProcInfo_info in Hg as (-> & Ht & Hh & _ & Hp). rw Hh sees_hash0.
  intros (files & Hf & [= <-])%res_bind_ok. cbn [pt_exitCode put_procInfo set_processes processes].
  split; [done|]. rw Ht sees_tracee0 Hp insert_insert_eq. split.
  - intros pid Hpid. destruct (decide (pid = tracee)) as [->|]; [by rw lookup_insert_eq|]. rw lookup_insert_ne; auto.
  - intros pid pi [[<- <-]|[Hne Hpi]]%lookup_insert_Some.
    + split; [by destruct (sees_reported0 tracee)|]. intros file. unfold reported_files. rw -sees_opened0.
      destruct (decide (tracee = tracee)); [|done]. by apply retry_files_spec.
    + assert (info p pid = pi) as <- by (unfold info; by rw Hpi). split; [done|].
      intros file. unfold reported_files. rw -sees_opened0. destruct (decide (pid = tracee)); [done|]. by destruct (_ !! file).
Qed.

Lemma run_tracing_sees os evs p p' os' :
  hooksOnly p = false → processes p = ∅ → run_tracing os evs p = Some (p', os', nil_error) →
  ∃ seen last rest status, evs = seen ++ last :: rest ∧ wait_answer last = Ok (traceePid p, status) ∧ os' = wait_os last ∧
    (Exited status = true ∧ pt_exitCode p' = ExitStatus status ∨
     Exited status = false ∧ Signaled status = true ∧ pt_exitCode p' = (128 + Signal status)%Z) ∧
    sees (traceePid p) (pt_hash p) (mainProgram p) seen p'.
Proof.
  intros Hk Hp. unfold run_tracing, getProcInfo. destruct (PtraceSetOptions _); [|done..]. rw Hp lookup_empty. cbn -[trace_loop].
  destruct (PtraceSyscall _ _ _); [|done..]. apply (trace_loop_sees _ _ _ []).
  assert (∀ pid, is_Some ((<[traceePid p := set_Program (new_procInfo (traceePid p)) (mainProgram p)]>
    (<[traceePid p := new_procInfo (traceePid p)]> (∅ : gmap Z ProcessInfo))) !! pid) ↔ pid = traceePid p) as Hdom.
  { intros pid. rw insert_insert_eq lookup_insert_is_Some lookup_empty. split; [intros [?|[_ [? ?]]]; done|auto]. }
  split; [done|done|done|..]; cbn [processes put_procInfo set_processes]; unfold info; cbn [processes put_procInfo set_processes].
  - intros pid. rw insert_insert_eq. destruct (decide (pid = traceePid p)) as [->|]; [by rw lookup_insert_eq|].
    by rw lookup_insert_ne.
  - intros pid file. rw insert_insert_eq. destruct (decide (pid = traceePid p)) as [->|]; [by rw lookup_insert_eq|].
    by rw lookup_insert_ne.
  - intros pid [?|(ev & Hev & _)]; [by apply Hdom|]. by apply not_elem_of_nil in Hev.
Qed.

(** The whole trace. *)
Lemma runTrace_sees evs p p' :
  hooksOnly p = false → processes p = ∅ → runTrace evs p = Some (p', nil_error) →
  ∃ first seen last rest status, evs = first :: seen ++ last :: rest ∧ wait_answer last = Ok (traceePid p, status) ∧
    (Exited status = true ∧ pt_exitCode p' = ExitStatus status ∨
     Exited status = false ∧ Signaled status = true ∧ pt_exitCode p' = (128 + Signal status)%Z) ∧
    (∀ pid, pid = traceePid p ∨ active seen pid → is_Some (processes p' !! pid)) ∧
    ∀ pid pi, processes p' !! pid = Some pi →
      reported (pt_hash p) (if decide (pid = traceePid p) then mainProgram p else "") seen pid pi ∧
      ∀ file, pi_OpenedFiles pi !! file = reported_files (wait_os last) (pt_hash p) (traceePid p) pid seen file.
Proof.
  intros Hh Hp. unfold runTrace, run_body. destruct evs as [|first evs]; [done|].
  destruct (wait_answer first); cycle 1. 1, 2: rw Hh; by repeat case_match.
  destruct (if hasPreExec p then _ else _) as [[]|]; [|by rw Hh; repeat case_match..|done]. rw Hh.
  destruct (run_tracing _ evs p) as [[[p1 os'] e]|] eqn:Hrun; [|done].
  assert (e = nil_error → hooksOnly p1 = false) as Hh1.
  { intros ->. by apply run_tracing_sees in Hrun as (? & ? & ? & ? & _ & _ & _ & _ & []). }
  destruct (hooksOnly p1) eqn:Hk; [by intros [= <- ->]; specialize (Hh1 eq_refl)|].
  destruct (retryOpenedFiles os' p1) as [p2|e2|w] eqn:Hr; intros [= <- ->].
  - apply run_tracing_sees in Hrun as (seen & last & rest & status & -> & Hl & -> & Hend & Hs); [|done..].
    destruct (retryOpenedFiles_sees _ _ _ _ _ _ _ Hs Hr) as (Hcode & Hact & Hrep).
    exists first, seen, last, rest, status. rw Hcode. done.
  - exfalso. unfold retryOpenedFiles in Hr. destruct (getProcInfo p1 (traceePid p1)) as [q pi].
    destruct (retry_files os' (pt_hash q) (pi_OpenedFiles pi)) as [| e3 |] eqn:Hr'; [done| |done].
    by apply (retry_files_no_err os' (pt_hash q) (pi_OpenedFiles pi) e3).
Qed.
End seen.

(** * The signals at a stop *)

(** A process gets its own signals back, and none of the tracer's. *)
Lemma on_stop_signal `{CL : CryptoLib} `{GI : GitoidLib} `{GL : GlobLib} `{RO : RangeOrder} `{UL : UnixLib}
    (os : OS) (p : ptraceContext) pid status p' injected :
  on_stop os p pid status = Some (p', Ok injected) →
  injected = if bool_decide (StopSignal status = Z.lor SIGTRAP 128 ∨ (StopSignal status = SIGTRAP ∧ eventCode status ≠ 0%Z))
             then 0%Z else StopSignal status.
Proof.
  unfold on_stop. case_bool_decide as H1.
  { rw bool_decide_eq_true_2; [|by left]. destruct (nextSyscall os p pid) as [p1 []]; by intros [= <- <-]. }
  case_bool_decide as H2; [case_bool_decide as H3|].
  - intros [= <- <-]. rw bool_decide_eq_false_2; [done|naive_solver].
  - rw (bool_decide_eq_true_2 (StopSignal status = Z.lor SIGTRAP 128 ∨ StopSignal status = SIGTRAP ∧ eventCode status ≠ 0%Z));
      [|by right].
    intros H. repeat case_match; by simplify_eq.
  - intros [= <- <-]. rw bool_decide_eq_false_2; [done|naive_solver].
Qed.

(** * The attestor *)

Section commandrun.
Context `{CL : CryptoLib} `{GI : GitoidLib} `{GL : GlobLib} `{RO : RangeOrder} `{UL : UnixLib}.
Context `{EL : CommandRun.ExecLib} {A : Type}.
Implicit Types ctx : AttestationContext A.
Import CommandRun.

(** The processes are reported once each. *)
Lemma procInfoArray_NoDup p :
  (∀ pid pi, processes p !! pid = Some pi → pi_ProcessID pi = pid) → NoDup (pi_ProcessID <$> procInfoArray p).
Proof.
  intros Hk. unfold procInfoArray. assert (pi_ProcessID <$> (range_map 1 (processes p)).*2 = (range_map 1 (processes p)).*1) as ->;
    [|apply NoDup_fst_range].
  rw -list_fmap_compose. apply list_fmap_ext. intros i [pid pi] Hi. simpl.
  apply list_elem_of_lookup_2, elem_of_range in Hi. by apply Hk.
Qed.

Lemma elem_of_procInfoArray p pi : pi ∈ procInfoArray p ↔ ∃ pid, processes p !! pid = Some pi.
Proof.
  unfold procInfoArray. rw list_elem_of_fmap. split.
  - intros ([pid pi'] & -> & H%elem_of_range). by exists pid.
  - intros [pid Hp]. exists (pid, pi). split; [done|]. by apply elem_of_range.
Qed.

(** C24: a traced command that is attested without an error ran to its end and exited
    with code 0: the kernel reported this status for its process. The attestation has
    the exit code, the output, and one report for each process: for the command's
    process and for every process that was seen to execute a program or open a file
    before that status. A report holds the last program name and digest, command name,
    command line, digest of the executable, parent and status that could be read at an
    execution of the process, and exactly the files that it was seen to open (with
    openat), with the digests of the last time, or without any when the system refused to
    open or read the file; such a file of the command's own process is tried again at the
    end, and left out when that fails. (An opening whose name or digests could not be had
    for another reason leaves no entry, see [opened].) *)
Theorem CommandRun_traced_success (rc rc' : CommandRun) ctx hk capturer :
  (∀ status, Signaled status = true → (0 ≤ Signal status)%Z) →
  TracingEnabled rc = true → Attest rc ctx hk = Some (rc', capturer, nil_error) →
  ∃ c first seen last rest status,
    exec_Start (Cmd rc) (ctx_workingDir ctx) true = Ok c ∧
    st_events c = first :: seen ++ last :: rest ∧ wait_answer last = Ok (st_Pid c, status) ∧
    Exited status = true ∧ ExitStatus status = 0%Z ∧
    ExitCode rc' = 0%Z ∧ Stdout rc' = st_stdout c ∧ Stderr rc' = st_stderr c ∧
    NoDup (pi_ProcessID <$> Processes rc') ∧
    (∀ pid, pid = st_Pid c ∨ active seen pid → ∃ pi, pi ∈ Processes rc' ∧ pi_ProcessID pi = pid) ∧
    (∀ pi, pi ∈ Processes rc' → let pid := pi_ProcessID pi in
       reported (ctx_hashes ctx) (if decide (pid = st_Pid c) then st_Path c else "") seen pid pi ∧
       ∀ file, pi_OpenedFiles pi !! file = reported_files (wait_os last) (ctx_hashes ctx) (st_Pid c) pid seen file).
Proof.
  intros Hsig Htr. unfold Attest, runCmd. destruct (Cmd rc) as [|c0 cs] eqn:Hcmd; [done|].
  destruct (negb (executeHooks rc)); [done|].
  destruct (wrap _ _); [|done..]. unfold TracingEnabled in Htr. rw Htr. cbn [orb].
  destruct (exec_Start _ _ true) as [c| |] eqn:Hstart; [|done..].
  unfold run_started. rw Htr. unfold traceWithOptions.
  destruct (runTrace _ _) as [[p' e]|] eqn:Hrun; [|done]. destruct e as [[]|e|w]; [|done..].
  apply runTrace_sees in Hrun as (first & seen & last & rest & status & Hevs & Hl & Hend & Hact & Hrep); [|done..].
  cbn [traceePid pt_hash mainProgram] in *.
  case_bool_decide as H0; [|done]. intros [= <- _]. exists c, first, seen, last, rest, status.
  assert (∀ pid pi, processes p' !! pid = Some pi → pi_ProcessID pi = pid) as Hkey.
  { intros pid pi Hpi. by destruct (Hrep pid pi Hpi) as [[] _]. }
  do 3 (split; [done|]). rewrite H0 in Hend.
  destruct Hend as [[H1 H2]|(_ & H1 & H2)]; [|apply Hsig in H1; lia].
  do 2 (split; [done|]). cbn. do 3 (split; [done|]). split; [by apply procInfoArray_NoDup|]. split.
  - intros pid [pi Hpi]%Hact. exists pi. split; [|by apply Hkey]. apply elem_of_procInfoArray. by exists pid.
  - intros pi [pid Hpi]%elem_of_procInfoArray. rewrite (Hkey pid pi Hpi). by apply Hrep.
Qed.

(** Reading a string of the traced process. Of the bytes read, padded with
    zeros to the size asked for, those before the first zero are the string; when
    none of them is a zero, which a process can arrange for the file name it
    opens, the tracer panics. *)
Theorem readSyscallReg_spec (os : OS) pid addr n data :
  ProcessVMReadv os pid addr = Ok data → slen data ≤ n →
  (byte_free nul data = true → slen data = n → 0 < n →
     readSyscallReg os pid addr n = Panic "slice bounds out of range [:-1]") ∧
  (byte_free nul data = true → slen data < n → readSyscallReg os pid addr n = Ok data) ∧
  (∀ s r, data = s +:+ String nul r → byte_free nul s = true → readSyscallReg os pid addr n = Ok s).
Proof.
  intros Hread Hn. unfold readSyscallReg. rw Hread. cbn [mbind res_bind]. split_and!.
  - intros Hfree Hlen Hpos. rw Hlen Nat.sub_diag /= string_app_nil_r. rw bool_decide_eq_false_2; [|lia].
    destruct (cut_byte nul data) as [s [t|]] eqn:Hcut; [|done].
    apply cut_byte_Some in Hcut as ->. exfalso. clear -Hfree.
    induction s as [|x s IH]; [done|]. apply IH. by apply andb_true_iff in Hfree as [_ ?].
  - intros Hfree Hlen. case_bool_decide as H0; [by destruct data|].
    destruct (n - slen data) as [|k] eqn:Hk; [lia|].
    trans (match cut_byte nul (data +:+ String nul (str_of_nats (replicate k 0))) with
           | (s, Some _) => Ok s | (_, None) => Panic "slice bounds out of range [:-1]" end : res string); [done|].
    by rw cut_byte_free.
  - intros s r -> Hfree. rw bool_decide_eq_false_2; [|rw slen_app /=; lia].
    by rw string_app_assoc string_app_cons cut_byte_free.
Qed.
End commandrun.

(** * Examples *)

(** The status words of Linux. *)
#[export] Instance linux : UnixLib := {|
  SIGTRAP := 5;
  PTRACE_EVENT_EXIT := 6;
  PTRACE_EVENTMSG_SYSCALL_ENTRY := 1;
  SYS_EXECVE := 59;
  SYS_OPENAT := 257;
  Exited w := bool_decide (Z.land w 127 = 0)%Z;
  ExitStatus w := Z.land (Z.shiftr w 8) 255;
  Signaled w := negb (bool_decide (Z.land w 127 = 0)%Z) && negb (bool_decide (Z.land w 127 = 127)%Z);
  Signal w := Z.land w 127;
  Stopped w := bool_decide (Z.land w 255 = 127)%Z;
  StopSignal w := Z.land (Z.shiftr w 8) 255;
  is_PathError e := true;
  is_ECHILD e := false;
|}%Z.

(** A kernel that agrees to everything: the process opens the file named by the
    memory it is asked for, and the message of its exit event is given. *)
Definition toy_os (memory : string) (msg : Z) : OS :=
  mkOS nil_error nil_error (λ _, Ok (mkRegs 257 0 1 0 0 0 0)) (λ _, Ok msg) (λ _ _, nil_error) (λ _ _, nil_error)
    (λ _ _, Ok memory) (λ _, Err (External "no such process")) (λ _, Ok (mkOpenFile (Ok 0%Z) (Ok "contents"))).
Definition stop_status (sig event : Z) : Z := (event * 65536 + sig * 256 + 127)%Z.
Definition ended (status : Z) : wait_event := mkWait (Ok (7, status)%Z) (toy_os "" 0).

(** The events of a process that execs, opens "/w/out", and then ends. *)
Definition opens_and_ends (memory : string) (status : Z) : list wait_event :=
  [ mkWait (Ok (7, stop_status 5 0)%Z) (toy_os "" 0);
    mkWait (Ok (7, stop_status 133 0)%Z) (toy_os memory 1);
    ended status ].
(** The events of a process that comes to its exit event, killed by the signal. *)
Definition killed (sig : Z) : list wait_event :=
  [ mkWait (Ok (7, stop_status 5 0)%Z) (toy_os "" 0);
    mkWait (Ok (7, stop_status 5 6)%Z) (toy_os "" sig);
    ended sig ].

Definition exit_hooks : ExecuteHooks :=
  mkHooks {[("net", StagePreExit) := true]} [mkHook "net" StagePreExit (λ _, nil_error) true] (Some true) true.
Definition toy_started (evs : list wait_event) : CommandRun.ExecLib := λ cmd dir traced,
  Ok (CommandRun.mkStarted 7 "/bin/make" evs CommandRun.Success "out" "").

Definition run_command (traced : bool) (hk : ExecuteHooks) (evs : list wait_event) : option (Z * err) :=
  match @CommandRun.Attest toy_crypto toy_gitoid (λ _, Err (External "no globs")) _ linux (toy_started evs) unit
          (CommandRun.DeclareHooks (CommandRun.New [CommandRun.WithCommand ["make"]; CommandRun.WithTracing traced]))
          (mkContext "" [] "/w" [] [] [mkDV SHA256 false false] [] ∅ ∅ "" (NewCapture []) [] hk) hk with
  | Some (rc, _, e) => Some (CommandRun.ExitCode rc, e)
  | None => None
  end.

Example traced_ok : run_command true zero_hooks (opens_and_ends "/w/out" 0) = Some (0%Z, nil_error).
Proof. vm_compute. reflexivity. Qed.
Example traced_fails :
  run_command true zero_hooks (opens_and_ends "/w/out" 256) = Some (1%Z, Err (Errorf "exit status 1")).
Proof. vm_compute. reflexivity. Qed.

Lemma CommandRun_traced_success_witness :
  ∃ rc' capturer,
    @CommandRun.Attest toy_crypto toy_gitoid (λ _, Err (External "no globs")) _ linux
      (toy_started (opens_and_ends "/w/out" 0)) unit
      (CommandRun.DeclareHooks (CommandRun.New [CommandRun.WithCommand ["make"]; CommandRun.WithTracing true]))
      (mkContext "" [] "/w" [] [] [mkDV SHA256 false false] [] ∅ ∅ "" (NewCapture []) [] zero_hooks) zero_hooks =
      Some (rc', capturer, nil_error) ∧
    CommandRun.ExitCode rc' = 0%Z ∧ ∃ pi, pi ∈ CommandRun.Processes rc' ∧ pi_ProcessID pi = 7%Z.
Proof.
  assert (match run_command true zero_hooks (opens_and_ends "/w/out" 0) with
          | Some (_, Ok _) => true | _ => false end = true) as Hok by (by vm_compute).
  unfold run_command in Hok.
  match type of Hok with context [CommandRun.Attest ?rc ?ctx ?hk] =>
    destruct (CommandRun.Attest rc ctx hk) as [[[rc' capturer] e]|] eqn:H end; [|done].
  destruct e as [[]| |]; [|done..]. exists rc', capturer. split; [done|].
  eapply (@CommandRun_traced_success toy_crypto toy_gitoid (λ _, Err (External "no globs")) _ linux) in H
    as (c & first & seen & last & rest & status & Hc & _ & _ & _ & _ & Hcode & _ & _ & _ & Hact & _); [| |reflexivity].
  - split; [exact Hcode|]. injection Hc as <-. exact (Hact 7%Z (or_introl eq_refl)).
  - intros status _. apply Z.land_nonneg. right. done.
Defined.

Lemma readSyscallReg_spec_witness :
  readSyscallReg (toy_os "/w/out" 0) 7 0 4096 = Ok "/w/out" ∧
  readSyscallReg (toy_os "/w" 0) 7 0 2 = Panic "slice bounds out of range [:-1]".
Proof.
  split.
  - apply (readSyscallReg_spec (toy_os "/w/out" 0) 7 0 4096 "/w/out"); [reflexivity|simpl; lia|reflexivity|simpl; lia].
  - apply (readSyscallReg_spec (toy_os "/w" 0) 7 0 2 "/w"); [reflexivity|simpl; lia|reflexivity|reflexivity|lia].
Defined.

(** With hooks that wait for the exit of a command that is not traced, a command
    killed by a signal counts as successful: of the status in the message of the
    exit event only the byte of the exit code is read, which is 0. A traced
    command with the same fate fails. *)
Theorem CommandRun_killed_succeeds :
  run_command false exit_hooks (killed 9) = Some (0%Z, nil_error) ∧
  run_command true exit_hooks (killed 9) = Some (137%Z, Err (Errorf "exit status 137")).
Proof. by vm_compute. Qed.

(** The process chooses the name of the file it opens: one without an end in the
    bytes that are read ends the tracer with a panic. *)
Theorem CommandRun_long_name_panics :
  run_command true zero_hooks (opens_and_ends (str_of_nats (replicate MAX_PATH_LEN 97)) 0) =
  Some (0%Z, Panic "slice bounds out of range [:-1]").
Proof. vm_compute. reflexivity. Qed.

(** The process chooses its name, which comes before its parent in the status
    file: it can have any parent reported. *)
Theorem getPPIDFromStatus_spoofed :
  getPPIDFromStatus ("Name:	make" +:+ nl +:+ "PPid:	7") = Ok 7%Z ∧
  getPPIDFromStatus ("Name:	1:PPid:" +:+ nl +:+ "PPid:	7") = Ok 1%Z.
Proof. by vm_compute. Qed.
