(* ===== verification/Product.v ===== *)
(** attestation/material/material.go (Module Material): the attestor that records the
    files of the working directory before the command runs; and
    attestation/product/product.go (Module Product): the attestor that records those that
    are new or changed after it.

    The library mimetype keeps a tree of detectors that [getFileContentType]
    extends on every call; the tree is the list of extensions made so far. *)
From S2P Require Import Prelude GoStrings Errors Crypto Digest Paths File Registry Attestation Constraints Hooks Environment Ptrace Context CommandRun.
From stdpp Require Import options.

Module Material.

Definition Name : string := "material".
Definition Type_ : string := "https://witness.dev/attestations/material/v0.1".
Definition RunType : string := MaterialRunType.

Record Attestor := mkAttestor { materials : gmap string DigestSet }.
Definition New (opts : list (Attestor → Attestor)) : Attestor := foldl (λ a opt, opt a) (mkAttestor ∅) opts.

Section attest.
Context `{CL : CryptoLib} `{GI : GitoidLib} `{RO : RangeOrder} `{FS : FileSystem} {A : Type}.

Definition Attest (a : Attestor) (ctx : AttestationContext A) : Attestor * err :=
  match RecordArtifacts ∅ (ctx_hashes ctx) false ∅ (ctx_dirHashGlobCompiled ctx) (ctx_workingDir ctx) ∅ with
  | Ok (m, _) => (mkAttestor m, nil_error)
  | Err e => (a, Err e)
  | Panic w => (a, Panic w)
  end.
Definition Materials (a : Attestor) : gmap string DigestSet := materials a.

(** Over the JSON encoding of a map of digest sets. *)
Definition MarshalJSON (json_Marshal : gmap string DigestSet → res bytes) (a : Attestor) : res bytes :=
  json_Marshal (materials a).
Definition UnmarshalJSON (json_Unmarshal : bytes → res (gmap string DigestSet)) (a : Attestor) (data : bytes)
    : Attestor * err :=
  match json_Unmarshal data with
  | Ok mats => (mkAttestor mats, nil_error)
  | Err e => (a, Err e)
  | Panic w => (a, Panic w)
  end.
End attest.
End Material.

Module Product.

Definition ProductName : string := "product".
Definition ProductType : string := "https://witness.dev/attestations/product/v0.1".
Definition RunType : string := ProductRunType.
Definition defaultIncludeGlob : string := "*".
Definition defaultExcludeGlob : string := "".

(** A glob that has not been compiled is nil. *)
Record Attestor := mkAttestor {
  products : gmap string Product;
  baseArtifacts : gmap string DigestSet;
  includeGlob : string;
  compiledIncludeGlob : option (string → bool);
  excludeGlob : string;
  compiledExcludeGlob : option (string → bool);
}.

Definition Option := Attestor → Attestor.
Definition WithIncludeGlob (glob : string) : Option := λ a,
  mkAttestor (products a) (baseArtifacts a) glob (compiledIncludeGlob a) (excludeGlob a) (compiledExcludeGlob a).
Definition WithExcludeGlob (glob : string) : Option := λ a,
  mkAttestor (products a) (baseArtifacts a) (includeGlob a) (compiledIncludeGlob a) glob (compiledExcludeGlob a).
Definition New (opts : list Option) : Attestor :=
  foldl (λ a opt, opt a) (mkAttestor ∅ ∅ defaultIncludeGlob None defaultExcludeGlob None) opts.

Definition set_products (a : Attestor) (ps : gmap string Product) : Attestor :=
  mkAttestor ps (baseArtifacts a) (includeGlob a) (compiledIncludeGlob a) (excludeGlob a) (compiledExcludeGlob a).

(** ** Content types *)

(** A string with its quotes written as apostrophes. *)
Definition quoted (s : string) : string := ReplaceByte s (ascii_of_nat 39) (ascii_of_nat 34).

Definition header (buf : bytes) : bytes := take_str (if bool_decide (500 < slen buf) then 500 else slen buf) buf.
Definition IsSPDXJson (buf : bytes) : bool :=
  Contains (header buf) (quoted "'spdxVersion':'SPDX-") || Contains (header buf) (quoted "'spdxVersion': 'SPDX-").
Definition IsCycloneDXJson (buf : bytes) : bool :=
  Contains (header buf) (quoted "'bomFormat':'CycloneDX'") || Contains (header buf) (quoted "'bomFormat': 'CycloneDX'").

(** An extension of the detectors: the type it refines, its test of the first
    bytes of a file, and the type it detects. *)
Record extension := mkExtension { ext_parent : string; ext_detect : bytes → bool; ext_mime : string }.
(** [mimetype.DetectFile] under the extensions made so far. *)
Class MimeLib := DetectFile : list extension → string → res string.

Definition detectors : list extension :=
  [ mkExtension "application/json" IsSPDXJson "application/spdx+json";
    mkExtension "application/json" IsCycloneDXJson "application/vnd.cyclonedx+json";
    mkExtension "text/xml"
      (λ buf, HasPrefix buf (quoted "<?xml version='1.0' encoding='UTF-8'?><bom xmlns='http://cyclonedx.org/schema/bom/"))
      "application/vnd.cyclonedx+xml";
    mkExtension "application/json" (λ buf, HasPrefix buf (quoted "{'@context':'https://openvex.dev/ns"))
      "application/vex+json";
    mkExtension "text/plain" (λ buf, HasPrefix buf "sha256:") "text/sha256+text" ].

Section attest.
Context `{CL : CryptoLib} `{GI : GitoidLib} `{GL : GlobLib} `{RO : RangeOrder} `{FS : FileSystem} `{ML : MimeLib}.
Context {A : Type} `{CR : CommandRun.CommandRunOf A}.

Definition getFileContentType (tree : list extension) (fileName : string) : list extension * res string :=
  let tree := tree ++ detectors in (tree, DetectFile tree fileName).

(** The type a product gets, from what the detection and [os.Stat] answer. *)
Definition mime_of (detected : res string) (filePath : string) : string :=
  let mimeType := match detected with Ok m => m | _ => "unknown" end in
  if bool_decide (mimeType = "application/octet-stream") then
    match os_Stat filePath with
    | Ok mode => if mode_IsDir mode then "text/directory" else mimeType
    | _ => mimeType
    end
  else mimeType.

Definition fromDigestMap (tree : list extension) (workingDir : string) (digestMap : gmap string DigestSet)
    : list extension * gmap string Product :=
  foldl (λ acc kv,
    let filePath := filepath_Join [workingDir; kv.1] in
    let (tree, detected) := getFileContentType acc.1 filePath in
    (tree, <[kv.1:=mkProduct (mime_of detected filePath) kv.2]> acc.2)) (tree, ∅) (range_map 4 digestMap).

(** The loop over the completed attestors: whether one of them traced its
    command, and the files its processes opened. *)
Definition traced_files (completed : list (CompletedAttestor A)) : bool * gmap string bool :=
  foldl (λ acc c,
    match CommandRun.as_CommandRun (comp_Attestor c) with
    | Some rc =>
        if CommandRun.TracingEnabled rc then
          (true, foldl (λ files process,
                    foldl (λ files fd, <[fd.1:=true]> files) files (range_map 5 (pi_OpenedFiles process)))
                  acc.2 (CommandRun.Processes rc))
        else acc
    | None => acc
    end) (false, ∅) completed.

(** The globs are compiled first; the attestor keeps those that were. *)
Definition compile_globs (a : Attestor) : Attestor * err :=
  match glob_Compile (includeGlob a) with
  | Err e => (a, Err e)
  | Panic w => (a, Panic w)
  | Ok inc =>
      let a := mkAttestor (products a) (baseArtifacts a) (includeGlob a) (Some inc) (excludeGlob a) (compiledExcludeGlob a) in
      match glob_Compile (excludeGlob a) with
      | Err e => (a, Err e)
      | Panic w => (a, Panic w)
      | Ok exc => (mkAttestor (products a) (baseArtifacts a) (includeGlob a) (compiledIncludeGlob a) (excludeGlob a) (Some exc),
                   nil_error)
      end
  end.

Definition Attest (tree : list extension) (a : Attestor) (ctx : AttestationContext A) : list extension * Attestor * err :=
  match compile_globs a with
  | (a, Err e) => (tree, a, Err e)
  | (a, Panic w) => (tree, a, Panic w)
  | (a, Ok _) =>
      let a := mkAttestor (products a) (ctx_Materials ctx) (includeGlob a) (compiledIncludeGlob a)
                 (excludeGlob a) (compiledExcludeGlob a) in
      let (processWasTraced, openedFileSet) := traced_files (CompletedAttestors ctx) in
      match RecordArtifacts (baseArtifacts a) (ctx_hashes ctx) processWasTraced openedFileSet
              (ctx_dirHashGlobCompiled ctx) (ctx_workingDir ctx) ∅ with
      | Err e => (tree, a, Err e)
      | Panic w => (tree, a, Panic w)
      | Ok (artifacts, _) =>
          let (tree, ps) := fromDigestMap tree (ctx_workingDir ctx) artifacts in
          (tree, set_products a ps, nil_error)
      end
  end.

Definition Products (a : Attestor) : gmap string Product := products a.

(** ** Subjects *)

Definition subject_name (productName : string) (product : Product) : string :=
  (if bool_decide (prod_MimeType product = "text/directory") then "dir" else "file") +:+ ":" +:+ productName.

Definition is_subject (a : Attestor) (productName : string) : bool :=
  let normalizedPath := ToSlash productName in
  if match compiledExcludeGlob a with Some g => g normalizedPath | None => false end then false
  else match compiledIncludeGlob a with Some g => g normalizedPath | None => true end.

Definition Subjects (a : Attestor) : gmap string DigestSet :=
  foldl (λ subjects kv,
    if is_subject a kv.1 then <[subject_name kv.1 kv.2 := prod_Digest kv.2]> subjects else subjects)
    ∅ (range_map 6 (products a)).

(** Over the JSON encoding of a map of products. *)
Definition MarshalJSON (json_Marshal : gmap string Product → res bytes) (a : Attestor) : res bytes :=
  json_Marshal (products a).
Definition UnmarshalJSON (json_Unmarshal : bytes → res (gmap string Product)) (a : Attestor) (data : bytes)
    : Attestor * err :=
  match json_Unmarshal data with
  | Ok prods => (set_products a prods, nil_error)
  | Err e => (a, Err e)
  | Panic w => (a, Panic w)
  end.
End attest.
End Product.
