(* ===== verification/ProductTheorems.v ===== *)
(** What the material and product attestors record (Product.v): the subjects are
    the products the globs select, and the products of a step are the files that
    are new or changed. *)
From S2P Require Import Prelude GoStrings Errors Crypto Digest Toy Paths File FileTheorems Registry Attestation Constraints Environment Hooks Context Ptrace CommandRun Product.
From stdpp Require Import options.

(** * Subjects *)

Section subjects.
Context `{RO : RangeOrder}.
Import Product.
Implicit Types a : Attestor.

Lemma subject_name_inj n1 p1 n2 p2 : subject_name n1 p1 = subject_name n2 p2 → n1 = n2.
Proof.
  unfold subject_name. do 2 case_bool_decide; cbn; intros Heq; by simplify_eq.
Qed.

Lemma Subjects_loop a l (acc : gmap string DigestSet) s d :
  NoDup l.*1 →
  (∀ s' d', acc !! s' = Some d' → ∀ n p, (n, p) ∈ l → s' ≠ subject_name n p) →
  foldl (λ subjects kv,
    if is_subject a kv.1 then <[subject_name kv.1 kv.2 := prod_Digest kv.2]> subjects else subjects) acc l !! s = Some d ↔
  acc !! s = Some d ∨
  ∃ n p, (n, p) ∈ l ∧ is_subject a n = true ∧ s = subject_name n p ∧ d = prod_Digest p.
Proof.
  revert acc. induction l as [|[n p] l IH]; intros acc Hnd Hacc; cbn [foldl fst snd].
  { split; [by left|]. by intros [?|(? & ? & ?%not_elem_of_nil & _)]. }
  inversion Hnd as [|? ? Hni Hnd']; subst. rw IH; [|done|].
  - destruct (is_subject a n) eqn:Hs.
    + rw lookup_insert_Some. split.
      * intros [[[<- <-]|[_ ?]]|(n' & p' & ? & ?)]; [right; exists n, p|by left|right; exists n', p'];
          split; [left|done|by right|done].
      * intros [Hd|(n' & p' & [?|Hin]%elem_of_cons & Hs' & -> & ->)]; [| |right; by exists n', p'].
        -- left. right. split; [|done]. intros <-. by apply (Hacc _ _ Hd n p (list_elem_of_here _ _)).
        -- simplify_eq. left. by left.
    + split.
      * intros [?|(n' & p' & ? & ?)]; [by left|right; exists n', p']. split; [by right|done].
      * intros [?|(n' & p' & [?|Hin]%elem_of_cons & Hs' & ?)]; [by left| |right; by exists n', p'].
        simplify_eq. congruence.
  - intros s' d' Hs' n' p' Hin ->. destruct (is_subject a n); [|by apply (Hacc _ _ Hs' n' p'); [right|]].
    apply lookup_insert_Some in Hs' as [[Heq _]|[_ Hs']].
    + apply subject_name_inj in Heq as ->. apply Hni. apply list_elem_of_fmap. by exists (n', p').
    + by apply (Hacc _ _ Hs' n' p'); [right|].
Qed.

(** The subjects of a product attestation, in any order the products are
    visited: exactly the products whose path the exclude glob does not match and
    the include glob does (a glob that was not compiled selects everything), each
    under its kind and path, with its digests. *)
Theorem Subjects_spec a s d :
  Subjects a !! s = Some d ↔
  ∃ name product, products a !! name = Some product ∧ s = subject_name name product ∧
    d = prod_Digest product ∧
    (∀ g, compiledExcludeGlob a = Some g → g name = false) ∧
    (∀ g, compiledIncludeGlob a = Some g → g name = true).
Proof.
  unfold Subjects. rw Subjects_loop; [|apply NoDup_fst_range|by intros s' d'; rw lookup_empty].
  rw lookup_empty. setoid_rewrite elem_of_range.
  assert (Hsel : ∀ n, is_subject a n = true ↔
    (∀ g, compiledExcludeGlob a = Some g → g n = false) ∧ (∀ g, compiledIncludeGlob a = Some g → g n = true)).
  { intros n. unfold is_subject, ToSlash.
    destruct (compiledExcludeGlob a) as [g|]; [destruct (g n) eqn:Hg|]; destruct (compiledIncludeGlob a); naive_solver. }
  setoid_rewrite Hsel. naive_solver.
Qed.
End subjects.

(** * What is recorded of a file *)

Section attest.
Context `{CL : CryptoLib} `{GI : GitoidLib} `{GL : GlobLib} `{RO : RangeOrder} `{ML : Product.MimeLib}.
Context {A : Type} `{CR : CommandRun.CommandRunOf A}.

(** Every digest gets a product under the same path, with the digest. *)
Lemma fromDigestMap_digests {FS : FileSystem} tree wd m :
  prod_Digest <$> (Product.fromDigestMap tree wd m).2 = m.
Proof.
  unfold Product.fromDigestMap.
  assert (Hl : ∀ l (acc : list Product.extension * gmap string Product), NoDup l.*1 →
    prod_Digest <$> (foldl (λ acc kv,
      let filePath := filepath_Join [wd; kv.1] in
      let (tree, detected) := Product.getFileContentType acc.1 filePath in
      (tree, <[kv.1:=mkProduct (Product.mime_of detected filePath) kv.2]> acc.2)) acc l).2 =
    foldl (λ acc kv, <[kv.1:=kv.2]> acc) (prod_Digest <$> acc.2) l).
  { induction l as [|[k v] l IH]; intros acc Hnd; [done|]. inversion Hnd; subst. cbn [foldl fst snd].
    rw IH; [|done]. f_equal. simpl. by rw fmap_insert. }
  rw Hl; [|apply NoDup_fst_range]. rw foldl_insert_range /= fmap_empty. by rw right_id_L.
Qed.

(** The file of these names below the directory is a regular one with this content. *)
Definition has_content (FS : FileSystem) (base : string) (tree : node) (ns : list string) (c : bytes) : Prop :=
  ∃ m mode, reaches [] [] tree ns m ∧ mode_IsDir m = false ∧
    mode_IsRegular mode = true ∧ os_Open (below base ns) = Ok (mkOpenFile (Ok mode) (Ok c)).

(** A directory that can be recorded: links aside, every file has a content. *)
Record recordable (FS : FileSystem) (base : string) (tree : node) : Prop := {
  rec_Lstat : os_Lstat base = Ok tree;
  rec_plain : plain_tree tree;
  rec_files ns m : reaches [] [] tree ns m → mode_IsDir m = false → ∃ c, has_content FS base tree ns c;
}.

Lemma content_digest {FS : FileSystem} base tree ns c hashes :
  has_content FS base tree ns c →
  CalculateDigestSetFromFile os_Open (below base ns) hashes = CalculateDigestSet (Ok c) hashes.
Proof.
  intros (m & mode & _ & _ & Hreg & Hopen). unfold CalculateDigestSetFromFile. rw Hopen. cbn [mbind res_bind].
  by rw isHashableFile_regular Hreg.
Qed.

Lemma has_content_fun {FS : FileSystem} base tree ns c c' :
  has_content FS base tree ns c → has_content FS base tree ns c' → c = c'.
Proof. intros (?&?&_&_&_&H) (?&?&_&_&_&H'). rw H in H'. by simplify_eq. Qed.

(** The names the walk comes to are valid. *)
Lemma reaches_valid globs pre n ns m :
  plain_tree n → Forall valid pre → reaches globs pre n ns m → Forall valid ns.
Proof.
  intros Hn Hpre H. induction H as [|pre m0 l name c ns m' Hd _ Hin _ IH]; [done|].
  inversion Hn as [|? ? _ Hl]; subst; [congruence|]. destruct (Hl _ _ Hin) as (Hv & c' & [= <-] & Hc).
  apply IH; [done|]. by apply Forall_app; auto.
Qed.

(** Without dirhash globs and traces, the artifacts of a recordable directory
    are its files, unless their digests equal those of the base artifact. *)
Lemma RecordArtifacts_contents {FS : FileSystem} baseArtifacts hashes base tree :
  linked hashes → recordable FS base tree →
  ∃ artifacts, RecordArtifacts baseArtifacts hashes false ∅ [] base ∅ = Ok (artifacts, ∅) ∧
    ∀ p ds, artifacts !! p = Some ds ↔ ∃ ns c, p = rel_path ns ∧ has_content FS base tree ns c ∧
      CalculateDigestSet (Ok c) hashes = Ok ds ∧ shouldRecord baseArtifacts false ∅ p ds = true.
Proof.
  intros Hlinked [Hlstat Hplain Hfiles].
  destruct (RecordArtifacts_plain baseArtifacts hashes false ∅ [] base ∅ tree Hlstat Hplain) as (arts & Harts & Hl).
  { intros ns m Hr. unfold readable. destruct (mode_IsDir m) eqn:Hd; [by left|].
    destruct (Hfiles ns m Hr Hd) as [c Hc]. rw (content_digest _ _ _ _ _ Hc).
    by apply CalculateDigestSet_total. }
  exists arts. split; [done|]. intros p ds. rw Hl. split.
  - intros (ns & m & Hr & Hart). unfold artifact_of in Hart. destruct (mode_IsDir m) eqn:Hd.
    { by destruct Hart as (? & _). }
    destruct Hart as (-> & Hds & Hs). destruct (Hfiles ns m Hr Hd) as [c Hc].
    exists ns, c. rw (content_digest _ _ _ _ _ Hc) in Hds. by split_and!.
  - intros (ns & c & -> & Hc & Hds & Hs). assert (Hc' := Hc). destruct Hc' as (m & mode & Hr & Hd & _).
    exists ns, m. split; [done|]. unfold artifact_of. rw Hd. by rw (content_digest _ _ _ _ _ Hc).
Qed.

(** ** Changes *)

Definition no_trace (ctx : AttestationContext A) : Prop :=
  Forall (λ c, match CommandRun.as_CommandRun (comp_Attestor c) with
               | Some rc => CommandRun.TracingEnabled rc = false | None => True end) (ctx_completed ctx).

Lemma no_trace_files ctx : no_trace ctx → Product.traced_files (CompletedAttestors ctx) = (false, ∅).
Proof.
  unfold no_trace, CompletedAttestors, Product.traced_files. induction 1 as [|c l Hc _ IH]; [done|].
  cbn [foldl]. destruct (CommandRun.as_CommandRun (comp_Attestor c)); [by rw Hc|done].
Qed.

Lemma shouldRecord_changed base p ds :
  shouldRecord base false ∅ p ds = true ↔ ∀ ds0, base !! p = Some ds0 → DigestSet_Equal ds ds0 = false.
Proof.
  unfold shouldRecord. rw andb_false_r. destruct (base !! p) as [ds0|].
  - rw negb_true_iff. naive_solver.
  - naive_solver.
Qed.

(** The products are the changes of the step. A material attestor records the
    working directory as it is before the command; when the product attestor
    runs after it, without tracing and with the same hashes, among them an
    injective one, it succeeds, and a file is a product exactly when there was no
    such file before or its content is different now. *)
Theorem products_are_the_changes (FS1 FS2 : FileSystem) tree1 tree2 (ctx1 ctx2 : AttestationContext A)
    mat0 prod0 tr inc exc dv h :
  recordable FS1 (ctx_workingDir ctx1) tree1 → recordable FS2 (ctx_workingDir ctx1) tree2 →
  ctx_dirHashGlobCompiled ctx1 = [] → ctx_dirHashGlobCompiled ctx2 = [] →
  ctx_workingDir ctx2 = ctx_workingDir ctx1 → ctx_hashes ctx2 = ctx_hashes ctx1 → no_trace ctx2 →
  linked (ctx_hashes ctx1) →
  dv ∈ ctx_hashes ctx1 → GitOID dv = false → hash_sum (dv_Hash dv) = Some h → Inj (=) (=) h →
  glob_Compile (Product.includeGlob prod0) = Ok inc → glob_Compile (Product.excludeGlob prod0) = Ok exc →
  ∃ mat, @Material.Attest _ _ _ FS1 A mat0 ctx1 = (mat, nil_error) ∧
    (ctx_materials ctx2 = Material.Materials mat →
     ∃ tr' prod, @Product.Attest _ _ _ _ FS2 _ A _ tr prod0 ctx2 = (tr', prod, nil_error) ∧
       ∀ ns c, has_content FS2 (ctx_workingDir ctx1) tree2 ns c →
         is_Some (Product.Products prod !! rel_path ns) ↔ ¬ has_content FS1 (ctx_workingDir ctx1) tree1 ns c).
Proof.
  intros Hrec1 Hrec2 Hg1 Hg2 Hwd Hhs Hnt Hlinked Hdv Hgit Hh Hinj Hinc Hexc.
  destruct (@RecordArtifacts_contents FS1 ∅ (ctx_hashes ctx1) _ tree1 Hlinked Hrec1) as (mats & Hmats & Hm).
  exists (Material.mkAttestor mats). unfold Material.Attest. rw Hg1 Hmats. split; [done|]. cbn. intros Hctx.
  destruct (@RecordArtifacts_contents FS2 mats (ctx_hashes ctx1) _ tree2 Hlinked Hrec2) as (prods & Hprods & Hp).
  unfold Product.Attest, Product.compile_globs. cbn. rw Hinc; cbn. rw Hexc; cbn. rw no_trace_files // Hg2 Hwd Hhs.
  unfold ctx_Materials. rw copy_into_id map_fmap_id right_id_L Hctx Hprods.
  assert (Hds := @fromDigestMap_digests FS2 tr (ctx_workingDir ctx1) prods).
  destruct (@Product.fromDigestMap _ FS2 _ tr (ctx_workingDir ctx1) prods) as [tr' ps]. cbn in Hds.
  exists tr', (Product.set_products (Product.mkAttestor (Product.products prod0) mats (Product.includeGlob prod0) (Some inc)
    (Product.excludeGlob prod0) (Some exc)) ps). split; [done|]. intros ns c Hc. cbn.
  assert (is_Some (ps !! rel_path ns) ↔ is_Some (prods !! rel_path ns)) as ->.
  { by rw -Hds lookup_fmap fmap_is_Some. }
  assert (Hval : ∀ FS tree, recordable FS (ctx_workingDir ctx1) tree → ∀ l d,
    has_content FS (ctx_workingDir ctx1) tree l d → Forall valid l).
  { intros FS tree [_ Hpl _] l d (m & _ & Hr & _). eapply (reaches_valid [] []); [done|constructor|done]. }
  assert (Heq : ∀ d d1 ds ds1, CalculateDigestSet (Ok d) (ctx_hashes ctx1) = Ok ds →
    CalculateDigestSet (Ok d1) (ctx_hashes ctx1) = Ok ds1 → DigestSet_Equal ds ds1 = true ↔ d = d1).
  { intros d d1 ds ds1 Hds1 Hds2. split.
    - by eapply (CalculateDigestSet_Equal_content d d1).
    - intros <-. eapply (CalculateDigestSet_Equal d); [done|done|]. exists dv. split_and!; [done..|].
      unfold digest_text, DigestValue_New. rw Hgit Hh. by eexists. }
  split.
  - intros [ds Hds'] Hc1. apply Hp in Hds' as (ns' & c' & Hns & Hc' & Hdig & Hs).
    apply rel_path_inj in Hns; [subst ns'|by eapply (Hval FS2)|by eapply (Hval FS2)].
    assert (c' = c) as -> by exact (has_content_fun _ _ _ _ _ Hc' Hc).
    assert (DigestSet_Equal ds ds = false) as Hno; [|by rw (proj2 (Heq c c ds ds Hdig Hdig)) in Hno].
    apply (proj1 (shouldRecord_changed mats _ ds) Hs), Hm. exists ns, c.
    split_and!; [done..|]. apply shouldRecord_changed. intros ?. by rw lookup_empty.
  - intros Hno. destruct (CalculateDigestSet_total c (ctx_hashes ctx1) Hlinked) as [ds Hdig].
    exists ds. apply Hp. exists ns, c. split_and!; [done..|]. apply shouldRecord_changed.
    intros ds0 Hds0. apply Hm in Hds0 as (ns' & c' & Hns & Hc' & Hdig' & _).
    apply rel_path_inj in Hns; [subst ns'|by eapply (Hval FS2)|by eapply (Hval FS1)].
    apply not_true_iff_false. intros Ht. apply Hno. by rw (proj1 (Heq c c' ds ds0 Hdig Hdig') Ht).
Qed.
End attest.

(** * Examples *)

(** Before the step the directory holds "f" and "sub/g", after it "f" has another
    content and "n" is new. *)
Definition before_step : FileSystem :=
  files_of [("/w", a_dir [("sub", a_dir [("g", a_file)]); ("f", a_file)])] []
    [("/w/f", "F"); ("/w/sub/g", "G")].
Definition after_step : FileSystem :=
  files_of [("/w", a_dir [("sub", a_dir [("g", a_file)]); ("f", a_file); ("n", a_file)])] []
    [("/w/f", "F2"); ("/w/sub/g", "G"); ("/w/n", "N")].

#[local] Instance toy_mime : Product.MimeLib := λ tree p, Ok "text/plain".
#[local] Instance toy_commands : CommandRun.CommandRunOf unit := λ _, None.
#[local] Instance literal_globs : GlobLib := λ p, Ok (λ s, bool_decide (p = "*" ∨ s = p)).

Definition toy_context (ms : gmap string DigestSet) : AttestationContext unit :=
  mkContext "" [] "/w" [] [] [sha256] [] ∅ ms "step" (NewCapture []) [] zero_hooks.
Definition step_materials : Material.Attestor :=
  (@Material.Attest toy_crypto toy_gitoid _ before_step unit (Material.New []) (toy_context ∅)).1.
Definition step_products (opts : list Product.Option) : Product.Attestor :=
  (@Product.Attest toy_crypto toy_gitoid literal_globs _ after_step toy_mime unit toy_commands [] (Product.New opts)
     (toy_context (Material.Materials step_materials))).1.2.

Example step_products_paths :
  merge_sort String.le (map_to_list (Product.Products (step_products []))).*1 = ["f"; "n"].
Proof. vm_compute. reflexivity. Qed.
Example step_subjects :
  (map_to_list (Product.Subjects (step_products [Product.WithExcludeGlob "n"]))).*1 = ["file:f"].
Proof. vm_compute. reflexivity. Qed.

Lemma recordable_of (FS : FileSystem) base tree :
  os_Lstat base = Ok tree → plain_tree tree →
  (∀ ns m, reaches [] [] tree ns m → mode_IsDir m = false →
     ∃ c, os_Open (below base ns) = Ok (mkOpenFile (Ok 0%Z) (Ok c))) →
  recordable FS base tree.
Proof.
  intros Hl Hp Hc. split; [done..|]. intros ns m Hr Hd. destruct (Hc ns m Hr Hd) as [c Ho]. by exists c, m, 0%Z.
Qed.
Lemma recordable_before : recordable before_step "/w" (a_dir [("sub", a_dir [("g", a_file)]); ("f", a_file)]).
Proof.
  apply recordable_of; [done|plain_trees|]. intros ns m Hr Hd.
  reach_inv Hr; eexists; reflexivity.
Qed.
Lemma recordable_after : recordable after_step "/w" (a_dir [("sub", a_dir [("g", a_file)]); ("f", a_file); ("n", a_file)]).
Proof.
  apply recordable_of; [done|plain_trees|]. intros ns m Hr Hd.
  reach_inv Hr; eexists; reflexivity.
Qed.

Lemma products_are_the_changes_witness :
  ∃ mat, @Material.Attest toy_crypto toy_gitoid _ before_step unit (Material.New []) (toy_context ∅) = (mat, nil_error) ∧
    (ctx_materials (toy_context (Material.Materials step_materials)) = Material.Materials mat →
     ∃ tr' prod, @Product.Attest toy_crypto toy_gitoid literal_globs _ after_step toy_mime unit toy_commands []
                   (Product.New []) (toy_context (Material.Materials step_materials)) = (tr', prod, nil_error) ∧
       ∀ ns c, has_content after_step "/w" (a_dir [("sub", a_dir [("g", a_file)]); ("f", a_file); ("n", a_file)]) ns c →
         is_Some (Product.Products prod !! rel_path ns) ↔
         ¬ has_content before_step "/w" (a_dir [("sub", a_dir [("g", a_file)]); ("f", a_file)]) ns c).
Proof.
  apply (@products_are_the_changes toy_crypto toy_gitoid literal_globs _ toy_mime unit toy_commands
    before_step after_step _ _ (toy_context ∅) (toy_context (Material.Materials step_materials))
    (Material.New []) (Product.New []) [] (λ s, bool_decide ("*" = "*" ∨ s = "*")) (λ s, bool_decide ("" = "*" ∨ s = ""))
    sha256 (λ d, "h" +:+ pretty SHA256 +:+ d)); try reflexivity.
  - apply recordable_before.
  - apply recordable_after.
  - constructor.
  - constructor; [right; exists (λ d, "h" +:+ pretty SHA256 +:+ d); reflexivity|constructor].
  - left.
  - intros a b Hab. by do 2 apply (inj (String.append _)) in Hab.
Defined.
