(* ===== verification/Documents.v ===== *)
(** Attestors of documents among the products: attestation/sarif/sarif.go,
    attestation/vex/vex.go and attestation/sbom/sbom.go (Modules Sarif, Vex and
    Sbom), over one model of the search for a candidate. *)
From S2P Require Import Prelude GoStrings Errors Crypto Digest Paths File Registry Attestation Constraints Environment Hooks Context GoText Product CommandRun.
From stdpp Require Import options.

(** ** What the attestors that look for a document among the products share:
    [getCandidate] of attestation/sarif, vex, oci and sbom. The files are those of
    the class [FileSystem]: they do not change while an attestor runs. *)
(** The loop over the products: its body goes on with the next one ([None]) or
    returns from the function. *)
Fixpoint candidate_loop {S} (body : string → Product → S → S * option err) (none : err) (l : list (string * Product))
    (s : S) : S * err :=
  match l with
  | [] => (s, none)
  | (path, product) :: l =>
      match body path product s with
      | (s, None) => candidate_loop body none l s
      | (s, Some e) => (s, e)
      end
  end.

(** [getCandidate]: an error without products, else the loop. *)
Definition get_candidate `{RO : RangeOrder} {S A} (site : nat) (body : string → Product → S → S * option err) (none : err)
    (ctx : AttestationContext A) (s : S) : S * err :=
  if bool_decide (size (ctx_products ctx) = 0) then (s, Err (Errorf "no products to attest"))
  else candidate_loop body none (range_map site (ctx_products ctx)) s.

Section candidates.
Context `{CL : CryptoLib} `{GI : GitoidLib} `{RO : RangeOrder} `{FS : FileSystem}.

(** The product's digests are those of its file. *)
Definition check_integrity (path : string) (product : Product) (hashes : list DigestValue) : res unit :=
  newDigestSet ← on_error (λ _, Errorf ("error calculating digest set from file: " +:+ path))
                   (CalculateDigestSetFromFile os_Open path hashes);
  if DigestSet_Equal newDigestSet (prod_Digest product) then Ok tt
  else Err (Errorf "integrity error: product digest set does not match candidate digest set").

(** [os.Open] and [io.ReadAll]. *)
Definition read_candidate (path shown : string) : res bytes :=
  f ← on_error (λ _, Errorf ("error opening file: " +:+ shown)) (os_Open path);
  on_error (λ _, Errorf ("error reading file: " +:+ shown)) (file_Read f).

(** [os.ReadFile] *)
Definition os_ReadFile (path : string) : res bytes := f ← os_Open path; file_Read f.
End candidates.

(** What leaves a body early. *)
Definition returns {A} (m : res A) : option err :=
  match m with Ok _ => None | Err e => Some (Err e) | Panic w => Some (Panic w) end.

(** ** attestation/sarif/sarif.go: the attestor of a SARIF report among the products.
    The report type and its JSON decoder, which decodes over the report that is
    there and can leave a part of it after an error, are parameters. *)
Module Sarif.

Definition Name : string := "sarif".
Definition Type_ : string := "https://witness.dev/attestations/sarif/v0.1".
Definition RunType : string := PostProductRunType.
Definition mimeTypes : list string := ["text/plain"; "application/json"].

Section sarif.
Context `{CL : CryptoLib} `{GI : GitoidLib} `{RO : RangeOrder} `{FS : FileSystem} {A : Type}.
Context {SarifReport : Type} (zero_Report : SarifReport).
Variable json_Unmarshal_Report : bytes → SarifReport → SarifReport * err.

Record Attestor := mkAttestor { Report : SarifReport; ReportFile : string; ReportDigestSet : DigestSet }.
Definition New : Attestor := mkAttestor zero_Report "" ∅.

(** The loop over the media types: its [continue] is that of this loop, so it does
    nothing. *)
Definition mime_loop (product : Product) : unit :=
  foldl (λ _ mimeType, if negb (Contains mimeType (prod_MimeType product)) then tt else tt) tt mimeTypes.

Definition candidate (hashes : list DigestValue) (path : string) (product : Product) (a : Attestor)
    : Attestor * option err :=
  let _ := mime_loop product in
  match (_ ← check_integrity path product hashes; read_candidate path path) with
  | Ok reportBytes =>
      let (report, e) := json_Unmarshal_Report reportBytes (Report a) in
      match e with
      | Ok _ => (mkAttestor report path (prod_Digest product), Some nil_error)
      | Err _ => (mkAttestor report (ReportFile a) (ReportDigestSet a), None)
      | Panic w => (mkAttestor report (ReportFile a) (ReportDigestSet a), Some (Panic w))
      end
  | m => (a, returns m)
  end.
Definition getCandidate (ctx : AttestationContext A) (a : Attestor) : Attestor * err :=
  get_candidate 16 (candidate (ctx_hashes ctx)) (Err (Errorf "no sarif file found")) ctx a.
Definition Attest (ctx : AttestationContext A) (a : Attestor) : Attestor * err := getCandidate ctx a.
End sarif.
End Sarif.

(** ** attestation/vex/vex.go: the attestor of an OpenVEX document among the products,
    like that of SARIF reports. *)
Module Vex.

Definition Name : string := "vex".
Definition Type_ : string := "https://openvex.dev/ns".
Definition RunType : string := PostProductRunType.

Section vex.
Context `{CL : CryptoLib} `{GI : GitoidLib} `{RO : RangeOrder} `{FS : FileSystem} {A : Type}.
Context {VEX : Type} (zero_VEX : VEX).
Variable json_Unmarshal_VEX : bytes → VEX → VEX * err.

Record Attestor := mkAttestor { VEXDocument : VEX; ReportFile : string; ReportDigestSet : DigestSet }.
Definition New : Attestor := mkAttestor zero_VEX "" ∅.

Definition candidate (hashes : list DigestValue) (path : string) (product : Product) (a : Attestor)
    : Attestor * option err :=
  match (_ ← check_integrity path product hashes; read_candidate path path) with
  | Ok reportBytes =>
      let (document, e) := json_Unmarshal_VEX reportBytes (VEXDocument a) in
      match e with
      | Ok _ => (mkAttestor document path (prod_Digest product), Some nil_error)
      | Err _ => (mkAttestor document (ReportFile a) (ReportDigestSet a), None)
      | Panic w => (mkAttestor document (ReportFile a) (ReportDigestSet a), Some (Panic w))
      end
  | m => (a, returns m)
  end.
Definition getCandidate (ctx : AttestationContext A) (a : Attestor) : Attestor * err :=
  get_candidate 17 (candidate (ctx_hashes ctx)) (Err (Errorf "no VEX file found")) ctx a.
Definition Attest (ctx : AttestationContext A) (a : Attestor) : Attestor * err := getCandidate ctx a.
End vex.
End Vex.

(** ** attestation/sbom/sbom.go: the attestor of an SBOM among the products, in the
    formats SPDX and CycloneDX. The documents of the two libraries, their decoders
    and the fields that are read are the class [SbomLib]; a nil pointer is [None]. *)
(** [SPDX] decodes JSON null to a nil document; the component of a CycloneDX BOM is
    behind two pointers. *)
Class SbomLib := {
  SpdxDocument : Type;
  CycloneDxBOM : Type;
  spdx_Unmarshal : bytes → res (option SpdxDocument);
  spdx_DocumentName : SpdxDocument → string;
  bom_Decode : bytes → res CycloneDxBOM;
  bom_Component : CycloneDxBOM → option (option (string * string));
}.

Module Sbom.

Definition Name : string := "sbom".
Definition Type_ : string := "https://witness.dev/attestations/sbom/v0.1".
Definition RunType : string := PostProductRunType.
Definition defaultExport : bool := false.
Definition SPDXPredicateType : string := "https://spdx.dev/Document".
Definition SPDXMimeType : string := "application/spdx+json".
Definition CycloneDxPredicateType : string := "https://cyclonedx.org/bom".
Definition CycloneDxMimeType : string := "application/vnd.cyclonedx+json".

Section sbom.
Context `{CL : CryptoLib} `{GI : GitoidLib} `{RO : RangeOrder} `{FS : FileSystem} {A : Type} `{SB : SbomLib}.

(** [SBOMDocument] is an interface: a decoded document, or what encoding/json makes
    of an attestation. *)
Inductive Document := NoDocument | SpdxDoc (d : option SpdxDocument) | CycloneDxDoc (b : CycloneDxBOM) | JsonValue (v : bytes).

Record SBOMAttestor := mkSBOM {
  SBOMDocument : Document;
  predicateType : string;
  export : bool;
  subjects : gmap string DigestSet;
}.
Definition Option := SBOMAttestor → SBOMAttestor.
Definition WithExport (b : bool) : Option := λ a, mkSBOM (SBOMDocument a) (predicateType a) b (subjects a).
Definition NewSBOMAttestor : SBOMAttestor := mkSBOM NoDocument Type_ false ∅.
Definition Type_of (a : SBOMAttestor) : string := predicateType a.
Definition Export (a : SBOMAttestor) : bool := export a.
Definition Subjects (a : SBOMAttestor) : gmap string DigestSet := subjects a.

Definition set_predicateType (a : SBOMAttestor) (t : string) : SBOMAttestor :=
  mkSBOM (SBOMDocument a) t (export a) (subjects a).
Definition add_subject (a : SBOMAttestor) (name : string) (ds : DigestSet) : SBOMAttestor :=
  mkSBOM (SBOMDocument a) (predicateType a) (export a) (<[name := ds]> (subjects a)).
Definition set_document (a : SBOMAttestor) (d : Document) : SBOMAttestor :=
  mkSBOM d (predicateType a) (export a) (subjects a).

Definition MarshalJSON (json_Marshal : Document → res bytes) (a : SBOMAttestor) : res bytes :=
  json_Marshal (SBOMDocument a).
(** Over encoding/json into an interface; bytes of neither format leave the
    predicate type. *)
Definition UnmarshalJSON (json_Unmarshal : bytes → res bytes) (data : bytes) (a : SBOMAttestor) : SBOMAttestor * err :=
  let a := if Product.IsSPDXJson data then set_predicateType a SPDXPredicateType
           else if Product.IsCycloneDXJson data then set_predicateType a CycloneDxPredicateType
           else a in
  match json_Unmarshal data with
  | Ok v => (set_document a (JsonValue v), nil_error)
  | Err e => (a, Err e)
  | Panic w => (a, Panic w)
  end.

(** The predicate type of a media type. *)
Definition predicate_of (mimeType : string) : option string :=
  if bool_decide (mimeType = SPDXMimeType) then Some SPDXPredicateType
  else if bool_decide (mimeType = CycloneDxMimeType) then Some CycloneDxPredicateType
  else None.

Definition if_named (k v : string) : gmap string string := if bool_decide (v ≠ "") then {[k := v]} else ∅.

(** The decoded document and the names that become subjects. *)
Definition decode_document (predicateType : string) (sbomBytes : bytes) : res (Document * gmap string string) :=
  if bool_decide (predicateType = SPDXPredicateType) then
    document ← wrap "error unmarshaling SPDX document" (spdx_Unmarshal sbomBytes);
    match document with
    | None => Panic "nil pointer dereference"
    | Some d => Ok (SpdxDoc (Some d), if_named "name" (spdx_DocumentName d))
    end
  else if bool_decide (predicateType = CycloneDxPredicateType) then
    bom ← wrap "error decoding CycloneDX BOM" (bom_Decode sbomBytes);
    match bom_Component bom with
    | Some (Some (name, version)) => Ok (CycloneDxDoc bom, if_named "version" version ∪ if_named "name" name)
    | _ => Panic "nil pointer dereference"
    end
  else Err (Errorf ("unsupported predicate type: " +:+ predicateType)).

Definition name_subject (a : SBOMAttestor) (kv : string * string) : res SBOMAttestor :=
  match CalculateDigestSetFromBytes kv.2 [mkDV SHA256 false false] with
  | Ok ds => Ok (add_subject a (kv.1 +:+ ":" +:+ kv.2) ds)
  | Err _ => Ok a
  | Panic w => Panic w
  end.

(** What one product of a known type gives; the first such product ends the loop,
    one way or the other. *)
Definition candidate (workingDir path : string) (product : Product) (a : SBOMAttestor) : SBOMAttestor * option err :=
  match predicate_of (prod_MimeType product) with
  | None => (a, None)
  | Some t =>
      let a := add_subject (set_predicateType a t) ("file:" +:+ path) (prod_Digest product) in
      match (sbomBytes ← read_candidate (filepath_Join [workingDir; path]) path; decode_document t sbomBytes) with
      | Ok (d, subjectsByName) =>
          let a := set_document a d in
          match range_res name_subject a (range_map 19 subjectsByName) with
          | Ok a => (a, Some nil_error)
          | Err e => (a, Some (Err e))
          | Panic w => (a, Some (Panic w))
          end
      | Err e => (a, Some (Err e))
      | Panic w => (a, Some (Panic w))
      end
  end.

Definition getCandidate (ctx : AttestationContext A) (a : SBOMAttestor) : SBOMAttestor * err :=
  if bool_decide (size (ctx_products ctx) = 0) then (a, Err (Errorf "no products to attest"))
  else candidate_loop (candidate (ctx_workingDir ctx)) (Err (Errorf "no SBOM file found"))
         (range_map 18 (ctx_products ctx)) (mkSBOM (SBOMDocument a) (predicateType a) (export a) ∅).
Definition Attest (ctx : AttestationContext A) (a : SBOMAttestor) : SBOMAttestor * err := getCandidate ctx a.
End sbom.
End Sbom.
