(* ===== verification/Images.v ===== *)
(** Images: internal/docker/metadata.go (Module Metadata), attestation/docker/docker.go
    (Module Docker) and attestation/oci/oci.go (Module Oci). *)
From S2P Require Import Prelude GoStrings GoText Errors Crypto Encodings Host Digest Paths File Registry Attestation Constraints Environment Hooks Context CI Documents Receiver.
From stdpp Require Import options.

(** ** internal/docker/metadata.go: the metadata file of a buildx build. encoding/json
    and the queries of URLs are the class [DockerJson]. *)
(** [strings.ReplaceAll] for an [old] that is not empty: [skip] bytes of a match are
    left to pass over. *)
Fixpoint replace_all (old new s : string) (skip : nat) : string :=
  match s with
  | "" => ""
  | String c s' =>
      match skip with
      | S skip => replace_all old new s' skip
      | 0 => if HasPrefix s old then new +:+ replace_all old new s' (slen old - 1)
             else String c (replace_all old new s' 0)
      end
  end.
Definition ReplaceAll (s old new : string) : string := replace_all old new s 0.

Module Metadata.

Record Digest := mkDigest { Sha256 : string }.
Record Material := mkMaterial { URI : string; mat_Digest : Digest }.
Record ConfigSource := mkConfigSource { EntryPoint : string }.
Record Args := mkArgs { Cmdline : string; Source : string }.
Record Local := mkLocal { Local_Name : string }.
Record Parameters := mkParameters { Frontend : string; Args_ : Args; Locals : list Local }.
Record Environment := mkEnvironment { env_Platform : string }.
Record Invocation := mkInvocation { ConfigSource_ : ConfigSource; Parameters_ : Parameters; Environment_ : Environment }.
Record Provenance := mkProvenance { BuildType : string; Materials : list Material; Invocation_ : Invocation }.
Record Platform := mkPlatform { Architecture : string; OS : string }.
Record ContainerImageDescriptor := mkDescriptor { MediaType : string; Descriptor_Digest : string; Size : Z; Platform_ : Platform }.
Record BuildInfo := mkBuildInfo {
  Provenance_ : gmap string Provenance;
  BuildRef : string;
  ContainerImageConfigDigest : string;
  ContainerImageDescriptor_ : ContainerImageDescriptor;
  ContainerImageDigest : string;
  ImageName : string;
}.
Definition set_provenance (b : BuildInfo) (p : gmap string Provenance) : BuildInfo :=
  mkBuildInfo p (BuildRef b) (ContainerImageConfigDigest b) (ContainerImageDescriptor_ b) (ContainerImageDigest b) (ImageName b).
Definition set_ref (b : BuildInfo) (ref : string) : BuildInfo :=
  mkBuildInfo (Provenance_ b) ref (ContainerImageConfigDigest b) (ContainerImageDescriptor_ b) (ContainerImageDigest b) (ImageName b).

(** [json.Unmarshal] by type: the struct without its method, the object with raw
    values, a provenance and a string; and [url.ParseQuery(u.RawQuery)], as the
    first value of each key. *)
Class DockerJson `{UL : UrlLib} := {
  json_Alias : bytes → res BuildInfo;
  json_raw : bytes → res (gmap string bytes);
  json_Provenance : bytes → res Provenance;
  json_string : bytes → res string;
  url_ParseQuery : URL → res (string → string);
}.

Section metadata.
Context `{UL : UrlLib} `{DJ : !DockerJson} `{RO : RangeOrder}.

Definition provenance_key : string := "buildx.build.provenance".
(** The character & as JSON writes it in HTML-safe text. *)
Definition escaped_and : string := String (ascii_of_nat 92) "u0026".

(** The platform that the URI of a material names. *)
Definition platform_of (uri : string) : option string :=
  match url_Parse (ReplaceAll uri escaped_and "&") with
  | Ok parsed =>
      match url_ParseQuery parsed with
      | Ok queryParams => if bool_decide (queryParams "platform" = "") then None else Some (queryParams "platform")
      | _ => None
      end
  | _ => None
  end.
(** The loop over the materials: the last platform counts, as the empty string
    when it cannot be unescaped. *)
Definition arch_of (materials : list Material) : string :=
  foldl (λ arch mat, match platform_of (URI mat) with
                     | Some platform => default "" (QueryUnescape platform)
                     | None => arch
                     end) "" materials.

(** One key of the object. *)
Definition add_key (b : BuildInfo) (kv : string * bytes) : res BuildInfo :=
  let (key, value) := kv in
  if bool_decide (key = "buildx.build.ref") then
    ref ← json_string value;
    Ok (set_ref b ref)
  else if Contains key provenance_key then
    match json_Provenance value with
    | Ok provenance =>
        arch ← (if bool_decide (key = provenance_key) then Ok (arch_of (Materials provenance))
                else match CutPrefix key (provenance_key +:+ "/") with
                     | Some arch => Ok arch
                     | None => Err (Errorf ("unexpected provenance prefix on key: " +:+ key))
                     end);
        Ok (set_provenance b (<[arch := provenance]> (Provenance_ b)))
    | Err _ => Ok b
    | Panic w => Panic w
    end
  else Ok b.

Definition BuildInfo_UnmarshalJSON (data : bytes) : res BuildInfo :=
  aux ← json_Alias data;
  raw ← json_raw data;
  range_res add_key (set_provenance aux ∅) (range_map 20 raw).
End metadata.
End Metadata.

(** ** attestation/docker/docker.go: the attestor of the images that buildx built, by
    the metadata files among the products. *)
Module Docker.

Definition Name : string := "docker".
Definition Type_ : string := "https://witness.dev/attestations/docker/v0.1".
Definition RunType : string := PostProductRunType.
Definition sha256MimeType : string := "text/sha256+text".
Definition jsonMimeType : string := "application/json".

Record Material := mkMaterial { URI : string; Architecture : string; mat_Digest : DigestSet }.
Record DockerProduct := mkDockerProduct {
  Materials : gmap string (list Material);
  ImageReferences : list string;
  ImageDigest : DigestSet;
}.
Record Manifest := mkManifest { Config : string; RepoTags : list string; Layers : list string }.
(** The map of products is nil until [Attest] makes one. *)
Record Attestor := mkAttestor { Products : gmap string DockerProduct }.
Definition New : Attestor := mkAttestor ∅.

Definition sha256_value : DigestValue := mkDV SHA256 false false.

Section docker.
Context `{CL : CryptoLib} `{GI : GitoidLib} `{RO : RangeOrder} `{FS : FileSystem} {A : Type}.
Context `{UL : UrlLib} `{DJ : !Metadata.DockerJson}.

Definition material_of (arch : string) (material : Metadata.Material) : Material :=
  mkMaterial (Metadata.URI material) arch {[sha256_value := Metadata.Sha256 (Metadata.mat_Digest material)]}.
Definition add_materials (materials : gmap string (list Material)) (p : string * Metadata.Provenance)
    : gmap string (list Material) :=
  foldl (λ materials material,
    <[p.1 := default [] (materials !! p.1) ++ [material_of p.1 material]]> materials) materials (Metadata.Materials p.2).

Definition docker_product (met : Metadata.BuildInfo) (trimmed : string) : DockerProduct :=
  mkDockerProduct (foldl add_materials ∅ (range_map 21 (Metadata.Provenance_ met))) [Metadata.ImageName met]
    {[sha256_value := trimmed]}.

(** An image without a digest of the expected form is passed over. *)
Definition setDockerCandidate (a : Attestor) (met : Metadata.BuildInfo) : Attestor :=
  match CutPrefix (Metadata.ContainerImageDigest met) "sha256:" with
  | None => a
  | Some trimmed => mkAttestor (<[trimmed := docker_product met trimmed]> (Products a))
  end.

(** One product: a file of JSON, as the type "application/json" contains its media
    type, that can be decoded. *)
Definition docker_candidate (workingDir : string) (mets : list Metadata.BuildInfo) (p : string * Product)
    : res (list Metadata.BuildInfo) :=
  let (path, product) := p in
  if Contains jsonMimeType (prod_MimeType product) then
    f ← wrap ("failed to read file " +:+ path) (os_ReadFile (filepath_Join [workingDir; path]));
    match Metadata.BuildInfo_UnmarshalJSON f with
    | Ok met => Ok (mets ++ [met])
    | Err _ => Ok mets
    | Panic w => Panic w
    end
  else Ok mets.
Definition getDockerCandidates (ctx : AttestationContext A) : res (list Metadata.BuildInfo) :=
  if bool_decide (size (ctx_products ctx) = 0) then Err (Errorf "no products to attest")
  else range_res (docker_candidate (ctx_workingDir ctx)) [] (range_map 22 (ctx_products ctx)).

Definition Attest (ctx : AttestationContext A) (a : Attestor) : Attestor * err :=
  match getDockerCandidates ctx with
  | Err e => (a, Err e)
  | Panic w => (a, Panic w)
  | Ok mets =>
      let a := foldl setDockerCandidate (mkAttestor ∅) mets in
      (a, if bool_decide (size (Products a) = 0) then Err (Errorf "no products to attest") else nil_error)
  end.

(** The subjects of one product. *)
Definition material_subject (subj : gmap string DigestSet) (m : Material) : res (gmap string DigestSet) :=
  add_subject "materialuri" (URI m)
    (<["materialdigest:" +:+ default "" (mat_Digest m !! sha256_value) := mat_Digest m]> subj).
Definition product_subjects (subj : gmap string DigestSet) (p : DockerProduct) : res (gmap string DigestSet) :=
  let subj := <["imagedigest:" +:+ default "" (ImageDigest p !! sha256_value) := ImageDigest p]> subj in
  subj ← range_res (λ subj ir, add_subject "imagereference" ir subj) subj (ImageReferences p);
  subj ← range_res (λ subj mat, range_res material_subject subj mat) subj (snd <$> range_map 23 (Materials p));
  range_res (λ subj ref, add_subject "imagereference" ref subj) subj (ImageReferences p).
Definition Subjects (a : Attestor) : res (gmap string DigestSet) :=
  range_res product_subjects ∅ (snd <$> range_map 24 (Products a)).
End docker.
End Docker.

(** ** attestation/oci/oci.go: the attestor of an image in a tar archive among the
    products. Archives, gzip and the detection of content types are the class
    [TarLib]. *)
(** How a call of [Read] ends, next to the bytes it gives. *)
Inductive read_end := ReadOk | ReadEOF | ReadErr (e : error).
(** An entry: [te_Read n] is its n-th [Read] into a buffer of its size. *)
Record TarEntry := mkEntry { te_Name : string; te_Size : nat; te_IsDir : bool; te_Read : nat → bytes * read_end }.
Class TarLib := {
  tar_Entries : bytes → list (res TarEntry);
  gzip_ReadAll : bytes → res bytes;
  DetectContentType : bytes → string;
}.

Module Oci.

Definition Name : string := "oci".
Definition Type_ : string := "https://witness.dev/attestations/oci/v0.1".
Definition RunType : string := PostProductRunType.
Definition mimeTypes : string := "application/x-tar".

Record Manifest := mkManifest { Config : string; RepoTags : list string; Layers : list string }.
Record Attestor := mkAttestor {
  TarDigest : DigestSet;
  Manifest_ : list Manifest;
  ImageTags : list string;
  LayerDiffIDs : list DigestSet;
  ImageID : DigestSet;
  ManifestRaw : bytes;
  ManifestDigest : DigestSet;
  tarFilePath : string;
}.
Definition New : Attestor := mkAttestor ∅ [] [] [] ∅ "" ∅ "".

Definition set_tar (a : Attestor) (d : DigestSet) (path : string) : Attestor :=
  mkAttestor d (Manifest_ a) (ImageTags a) (LayerDiffIDs a) (ImageID a) (ManifestRaw a) (ManifestDigest a) path.
Definition set_raw (a : Attestor) (raw : bytes) : Attestor :=
  mkAttestor (TarDigest a) (Manifest_ a) (ImageTags a) (LayerDiffIDs a) (ImageID a) raw (ManifestDigest a) (tarFilePath a).
Definition set_manifest (a : Attestor) (m : list Manifest) (d : DigestSet) : Attestor :=
  mkAttestor (TarDigest a) m (ImageTags a) (LayerDiffIDs a) (ImageID a) (ManifestRaw a) d (tarFilePath a).
Definition set_image (a : Attestor) (id : DigestSet) (layers : list DigestSet) (tags : list string) : Attestor :=
  mkAttestor (TarDigest a) (Manifest_ a) tags layers id (ManifestRaw a) (ManifestDigest a) (tarFilePath a).

Section oci.
Context `{CL : CryptoLib} `{GI : GitoidLib} `{RO : RangeOrder} `{FS : FileSystem} `{TL : TarLib} {A : Type}.
Variable json_Unmarshal_Manifest : bytes → list Manifest → list Manifest * err.

(** A buffer of [make([]byte, size)] after one [Read]: what was not read is zero. *)
Fixpoint zeros (n : nat) : bytes := match n with 0 => "" | S n => String (ascii_of_nat 0) (zeros n) end.
Definition filled (size : nat) (got : bytes) : bytes :=
  let got := take_str size got in got +:+ zeros (size - slen got).
Definition buffer (h : TarEntry) (n : nat) : bytes := filled (te_Size h) (te_Read h n).1.
(** The error of a [Read] that is not the end of the file. *)
Definition read_error (h : TarEntry) (n : nat) : res unit :=
  match (te_Read h n).2 with ReadErr e => Err e | _ => Ok tt end.

(** The entries of an archive; a file that cannot be read fails at the first. *)
Definition entries (path : string) : res (list (res TarEntry)) :=
  f ← os_Open path;
  Ok (match file_Read f with Ok b => tar_Entries b | Err e => [Err e] | Panic w => [Panic w] end).

Fixpoint find_config (config : string) (hashes : list DigestValue) (l : list (res TarEntry)) : res DigestSet :=
  match l with
  | [] => Err (Errorf "could not find config in tar file")
  | h :: l =>
      h ← h;
      if te_IsDir h then find_config config hashes l
      else if bool_decide (te_Name h = config) then
        _ ← read_error h 0;
        CalculateDigestSetFromBytes (buffer h 0) hashes
      else find_config config hashes l
  end.
Definition getImageID (m : Manifest) (hashes : list DigestValue) (tarFilePath : string) : res DigestSet :=
  l ← entries tarFilePath;
  find_config (Config m) hashes l.

(** The digest of a layer is that of its uncompressed contents. *)
Definition layer_digest (hashes : list DigestValue) (b : bytes) : res DigestSet :=
  if bool_decide (DetectContentType b = "application/x-gzip") then
    c ← gzip_ReadAll b;
    CalculateDigestSetFromBytes c hashes
  else CalculateDigestSetFromBytes b hashes.
(** One layer of the manifest, for an entry that has been read [n] times. *)
Definition add_layer (hashes : list DigestValue) (h : TarEntry) (acc : nat * list DigestSet) (layerFile : string)
    : res (nat * list DigestSet) :=
  if bool_decide (te_Name h = layerFile) then
    _ ← read_error h acc.1;
    d ← layer_digest hashes (buffer h acc.1);
    Ok (S acc.1, acc.2 ++ [d])
  else Ok acc.
Definition entry_layers (layers : list string) (hashes : list DigestValue) (ids : list DigestSet) (h : res TarEntry)
    : res (list DigestSet) :=
  h ← h;
  if te_IsDir h then Ok ids
  else snd <$> range_res (add_layer hashes h) (0, ids) layers.
Definition getLayerDIFFIDs (m : Manifest) (hashes : list DigestValue) (tarFilePath : string) : res (list DigestSet) :=
  l ← entries tarFilePath;
  range_res (entry_layers (Layers m) hashes) [] l.

Definition candidate (hashes : list DigestValue) (path : string) (product : Product) (a : Attestor)
    : Attestor * option err :=
  if negb (Contains mimeTypes (prod_MimeType product)) then (a, None)
  else match check_integrity path product hashes with
       | Ok _ => (set_tar a (prod_Digest product) path, Some nil_error)
       | m => (a, returns m)
       end.
Definition getCandidate (ctx : AttestationContext A) : recv Attestor unit :=
  get_candidate 25 (candidate (ctx_hashes ctx)) (Err (Errorf "no tar file found")) ctx.

(** The manifest's bytes, if it is there; the error of its [Read] is dropped. *)
Fixpoint find_manifest (l : list (res TarEntry)) : recv Attestor unit :=
  match l with
  | [] => mret tt
  | h :: l =>
      h ← call h;
      if (te_IsDir h : bool) then find_manifest l
      else if bool_decide (te_Name h = "manifest.json") then assign (λ a, set_raw a (buffer h 0))
      else find_manifest l
  end.
Definition parseMaifest (ctx : AttestationContext A) : recv Attestor unit :=
  a ← self;
  l ← call (wrap "error opening tar file" (entries (tarFilePath a)));
  _ ← find_manifest l;
  a ← self;
  manifestDigest ← call (CalculateDigestSetFromBytes (ManifestRaw a) (ctx_hashes ctx));
  let (m, e) := json_Unmarshal_Manifest (ManifestRaw a) (Manifest_ a) in
  _ ← assign (λ a, set_manifest a m manifestDigest);
  call e.

Definition Attest (ctx : AttestationContext A) : recv Attestor unit :=
  _ ← getCandidate ctx;
  _ ← parseMaifest ctx;
  a ← self;
  m ← call (match Manifest_ a with m :: _ => Ok m | [] => Panic "index out of range [0] with length 0" end);
  imageID ← call (getImageID m (ctx_hashes ctx) (tarFilePath a));
  layerDiffIDs ← call (getLayerDIFFIDs m (ctx_hashes ctx) (tarFilePath a));
  assign (λ a, set_image a imageID layerDiffIDs (RepoTags m)).

(** ** Subjects *)

Definition sha256_of (d : DigestSet) : string := default "" (d !! mkDV SHA256 false false).
Definition pad2 (n : nat) : string := if bool_decide (n < 10) then "0" +:+ itoa n else itoa n.
Definition add_tag (subj : gmap string DigestSet) (tag : string) : res (gmap string DigestSet) :=
  match CalculateDigestSetFromBytes tag [mkDV SHA256 false false] with
  | Ok hash => Ok (<["imagetag:" +:+ tag := hash]> subj)
  | Err _ => Ok subj
  | Panic w => Panic w
  end.
Definition add_layer_subject (subj : gmap string DigestSet) (l : nat * DigestSet) : gmap string DigestSet :=
  <["layerdiffid" +:+ pad2 l.1 +:+ ":" +:+ sha256_of l.2 := l.2]> subj.
Definition Subjects (a : Attestor) : res (gmap string DigestSet) :=
  let subj := <["imageid:" +:+ sha256_of (ImageID a) := ImageID a]>
    (<["tardigest:" +:+ sha256_of (TarDigest a) := TarDigest a]>
    {["manifestdigest:" +:+ sha256_of (ManifestDigest a) := ManifestDigest a]}) in
  subj ← range_res add_tag subj (ImageTags a);
  Ok (foldl add_layer_subject subj (zip (seq 0 (length (LayerDiffIDs a))) (LayerDiffIDs a))).
End oci.
End Oci.
