(* ===== verification/Packages.v ===== *)
(** Packages and their files: attestation/maven/maven.go (Module Maven),
    attestation/lockfiles/lockfiles.go (Module Lockfiles),
    attestation/system-packages/ (Module SystemPackages) and
    attestation/omnitrail/omnitrail.go (Module Omnitrail). *)
From S2P Require Import Prelude GoStrings GoText Errors Crypto Digest Paths File Registry Attestation Constraints Environment Hooks Context Documents.
From stdpp Require Import options.

(** ** attestation/maven/maven.go: the attestor of a Maven project. encoding/xml, which
    decodes over the attestor, is a parameter. *)
Module Maven.

Definition Name : string := "maven".
Definition Type_ : string := "https://witness.dev/attestations/maven/v0.1".
Definition RunType : string := PreMaterialRunType.
Definition defaultPomPath : string := "pom.xml".

Record MavenDependency := mkDependency { dep_GroupId : string; dep_ArtifactId : string; dep_Version : string; Scope : string }.
Record Attestor := mkAttestor {
  GroupId : string;
  ArtifactId : string;
  Version : string;
  ProjectName : string;
  Dependencies : list MavenDependency;
  pomPath : string;
}.
Definition Option := Attestor → Attestor.
Definition WithPom (path : string) : Option := λ a,
  mkAttestor (GroupId a) (ArtifactId a) (Version a) (ProjectName a) (Dependencies a) path.
Definition New (opts : list Option) : Attestor := foldl (λ a opt, opt a) (mkAttestor "" "" "" "" [] defaultPomPath) opts.

(** The option of [init], for attestors of the dynamic types [A]; [go_type] is what [%T]
    prints. *)
Definition maven_options {A} (project : A → option Attestor) (inject : Attestor → A) (go_type : A → string)
    : list (Configurer A) :=
  [ CString (NewConfigOption "pom-path"
      ("The path to the Project Object Model (POM) XML file used for task being attested (default " +:+ QuoteToASCII defaultPomPath +:+ ").")
      defaultPomPath
      (λ a path, match project a with
                 | None => (a, Some (Errorf ("unexpected attestor type: " +:+ go_type a +:+ " is not a maven attestor")))
                 | Some m => (inject (WithPom path m), None)
                 end)) ].

Section maven.
Context `{CL : CryptoLib} `{GI : GitoidLib} `{RO : RangeOrder} `{FS : FileSystem}.
Variable xml_Unmarshal : bytes → Attestor → Attestor * err.

(** The path is relative to the process, not to the context's directory. *)
Definition Attest (a : Attestor) : Attestor * err :=
  match os_ReadFile (pomPath a) with
  | Ok pomFileBytes => xml_Unmarshal pomFileBytes a
  | Err e => (a, Err e)
  | Panic w => (a, Panic w)
  end.

Definition coordinates (kind group artifact version : string) : string :=
  kind +:+ ":" +:+ group +:+ "/" +:+ artifact +:+ "@" +:+ version.
(** A dependency is a subject even when its digest cannot be computed. *)
Definition add_dependency (subjects : gmap string DigestSet) (dep : MavenDependency) : res (gmap string DigestSet) :=
  let depSubject := coordinates "dependency" (dep_GroupId dep) (dep_ArtifactId dep) (dep_Version dep) in
  match CalculateDigestSetFromBytes depSubject [mkDV SHA256 false false] with
  | Ok ds => Ok (<[depSubject := ds]> subjects)
  | Err _ => Ok (<[depSubject := ∅]> subjects)
  | Panic w => Panic w
  end.
Definition Subjects (a : Attestor) : res (gmap string DigestSet) :=
  let projectSubject := coordinates "project" (GroupId a) (ArtifactId a) (Version a) in
  subjects ← match CalculateDigestSetFromBytes projectSubject [mkDV SHA256 false false] with
             | Ok ds => Ok {[projectSubject := ds]}
             | Err _ => Ok ∅
             | Panic w => Panic w
             end;
  range_res add_dependency subjects (Dependencies a).
End maven.
End Maven.

(** ** attestation/lockfiles/lockfiles.go: the attestor of the lock files of package
    managers. *)
(** [filepath.Base] *)
Definition Base (path : string) : string :=
  match path with
  | "" => "."
  | _ => match List.rev (List.filter (λ e, negb (bool_decide (e = ""))) (SplitByte path slash)) with
         | [] => slash_str
         | e :: _ => e
         end
  end.

Module Lockfiles.

Definition Name : string := "lockfiles".
Definition Type_ : string := "https://witness.dev/attestations/lockfiles/v0.1".
Definition RunType : string := PreMaterialRunType.

Record LockfileInfo := mkLockfile { Filename : string; Content : string; lock_Digest : DigestSet }.
Record Attestor := mkAttestor { Lockfiles : list LockfileInfo }.
Definition NewLockfilesAttestor : Attestor := mkAttestor [].

Definition lockfilePatterns : list string :=
  ["Gemfile.lock"; "package-lock.json"; "yarn.lock"; "Cargo.lock"; "poetry.lock"; "Pipfile.lock"; "composer.lock";
   "go.sum"; "Podfile.lock"; "gradle.lockfile"; "pnpm-lock.yaml"].

Section lockfiles.
Context `{CL : CryptoLib} `{GI : GitoidLib} `{RO : RangeOrder} `{FS : FileSystem}.

(** [filepath.Glob] of a pattern without special characters. *)
Definition filepath_Glob (pattern : string) : res (list string) :=
  Ok (if is_ok (os_Lstat pattern) then [pattern] else []).

(** The matches of one pattern; the ones before an error stay recorded. *)
Fixpoint add_matches (matches : list string) (a : Attestor) : Attestor * err :=
  match matches with
  | [] => (a, nil_error)
  | m :: matches =>
      match (content ← wrap ("error reading " +:+ m) (os_ReadFile m);
             digest ← wrap ("error computing digest of " +:+ m)
                        (CalculateDigestSetFromBytes content [mkDV SHA256 false false]);
             Ok (mkLockfile (Base m) content digest)) with
      | Ok info => add_matches matches (mkAttestor (Lockfiles a ++ [info]))
      | Err e => (a, Err e)
      | Panic w => (a, Panic w)
      end
  end.
Fixpoint add_patterns (patterns : list string) (a : Attestor) : Attestor * err :=
  match patterns with
  | [] => (a, nil_error)
  | pattern :: patterns =>
      match wrap ("error searching for " +:+ pattern) (filepath_Glob pattern) with
      | Ok matches =>
          match add_matches matches a with
          | (a, Ok _) => add_patterns patterns a
          | r => r
          end
      | Err e => (a, Err e)
      | Panic w => (a, Panic w)
      end
  end.
(** The context is not used: the files are those of the process's directory. *)
Definition Attest (a : Attestor) : Attestor * err := add_patterns lockfilePatterns (mkAttestor []).

Definition Subjects (a : Attestor) : gmap string DigestSet :=
  foldl (λ (subjects : gmap string DigestSet) lockfile, <["file:" +:+ Filename lockfile := lock_Digest lockfile]> subjects)
    ∅ (Lockfiles a).
End lockfiles.
End Lockfiles.

(** ** attestation/system-packages: the attestor of the packages of the system, with
    the backends for rpm and dpkg. The commands are functions. *)
(** ** bufio.Scanner with its default split function *)

Definition MaxScanTokenSize : nat := 65536.
Definition carriage_return : ascii := ascii_of_nat 13.
Definition line_feed : ascii := ascii_of_nat 10.
(** [dropCR] *)
Fixpoint drop_cr (s : string) : string :=
  match s with
  | "" => ""
  | String c "" => if bool_decide (c = carriage_return) then "" else String c ""
  | String c s => String c (drop_cr s)
  end.
(** The lines, and whether a line that does not fit the buffer ended the scan. What
    comes after the last line feed is a line unless it is empty. *)
Fixpoint scan_lines (l : list string) : list string * option error :=
  match l with
  | [] => ([], None)
  | [last] =>
      if bool_decide (last = "") then ([], None)
      else if bool_decide (MaxScanTokenSize ≤ slen last) then ([], Some (External "bufio.Scanner: token too long"))
      else ([drop_cr last], None)
  | line :: l =>
      if bool_decide (MaxScanTokenSize ≤ slen line) then ([], Some (External "bufio.Scanner: token too long"))
      else let (lines, e) := scan_lines l in (drop_cr line :: lines, e)
  end.
Definition Scan (text : bytes) : list string * option error := scan_lines (SplitByte text line_feed).

(** [strings.Trim(s, c)] for one byte. *)
Fixpoint trim_left_byte (c : ascii) (s : string) : string :=
  match s with
  | "" => ""
  | String x s' => if bool_decide (x = c) then trim_left_byte c s' else s
  end.
Fixpoint trim_right_byte (c : ascii) (s : string) : string :=
  match s with
  | "" => ""
  | String x s => match trim_right_byte c s with
                  | "" => if bool_decide (x = c) then "" else String x ""
                  | t => String x t
                  end
  end.
Definition TrimByte (s : string) (c : ascii) : string := trim_right_byte c (trim_left_byte c s).

Module SystemPackages.

Definition Name : string := "system-packages".
Definition Type_ : string := "https://witness.dev/attestations/system-packages/v0.1".
Definition RunType : string := PreMaterialRunType.
Definition osReleasePath : string := "/etc/os-release".

Record Package := mkPackage { pkg_Name : string; pkg_Version : string }.

(** [execCommand(name, args).Output()] *)
Definition ExecCommand := string → list string → res bytes.
Record RPMBackend := mkRPM { rpm_osReleaseFile : string; rpm_execCommand : ExecCommand }.
Record DebianBackend := mkDebian { deb_osReleaseFile : string; deb_execCommand : ExecCommand }.
(** The backends; the last two embed one of the first two. *)
Inductive Backend := RPM (b : RPMBackend) | Debian (b : DebianBackend) | Ubuntu (b : DebianBackend) | RedHat (b : RPMBackend).

Record Attestor := mkAttestor {
  OS : string;
  Distribution : string;
  Version : string;
  Packages : list Package;
  Digest_ : DigestSet;
  backend : option Backend;
}.

(** ** /etc/os-release *)

Definition quote : ascii := ascii_of_nat 34.
(** One line: the distribution and the version so far. *)
Definition os_release_line (acc : string * string) (line : string) : string * string :=
  match SplitN2 line "=" with
  | [k; v] =>
      let key := TrimSpace k in
      let value := TrimByte (TrimSpace v) quote in
      if bool_decide (key = "ID") then (value, acc.2)
      else if bool_decide (key = "VERSION_ID") then (acc.1, value)
      else acc
  | _ => acc
  end.

(** One line of a list of packages. *)
Definition tab : ascii := ascii_of_nat 9.
Definition package_line (packages : list Package) (line : string) : list Package :=
  match SplitByte line tab with
  | [name; version] => packages ++ [mkPackage name version]
  | _ => packages
  end.

Section packages.
Context `{CL : CryptoLib} `{GI : GitoidLib} `{RO : RangeOrder} `{FS : FileSystem}.
Variable exec_Command : ExecCommand.
Variable json_Marshal : Attestor → res bytes.

Definition determineDistribution (osReleaseFile : string) : res (string * string * string) :=
  file ← os_Open osReleaseFile;
  text ← file_Read file;
  let (lines, e) := Scan text in
  match e with
  | Some e => Err e
  | None => let dv := foldl os_release_line ("", "") lines in Ok ("linux", dv.1, dv.2)
  end.

Definition NewRPMBackend (osReleaseFile : string) : Backend := RPM (mkRPM osReleaseFile exec_Command).
Definition NewDebianBackend (osReleaseFile : string) : Backend := Debian (mkDebian osReleaseFile exec_Command).
Definition NewUbuntuBackend (osReleaseFile : string) : Backend := Ubuntu (mkDebian osReleaseFile exec_Command).
Definition NewRedHatBackend (osReleaseFile : string) : Backend := RedHat (mkRPM osReleaseFile exec_Command).

Definition DetermineOSInfo (b : Backend) : res (string * string * string) :=
  match b with
  | RPM b | RedHat b => determineDistribution (rpm_osReleaseFile b)
  | Debian b | Ubuntu b => determineDistribution (deb_osReleaseFile b)
  end.

Definition rpm_GatherPackages (r : RPMBackend) : res (list Package) :=
  output ← rpm_execCommand r "rpm" ["-qa"; "--qf"; "%{NAME}" +:+ String tab "%{VERSION}" +:+ nl];
  let (lines, e) := Scan output in
  match e with Some e => Err e | None => Ok (foldl package_line [] lines) end.
(** The error of the scanner is not looked at. *)
Definition debian_GatherPackages (b : DebianBackend) : res (list Package) :=
  output ← deb_execCommand b "dpkg-query" ["-W"; "-f"; "${Package}" +:+ String tab "${Version}" +:+ nl];
  let (lines, _) := Scan output in
  Ok (foldl package_line [] lines).
Definition GatherPackages (b : Backend) : res (list Package) :=
  match b with
  | RPM b | RedHat b => rpm_GatherPackages b
  | Debian b | Ubuntu b => debian_GatherPackages b
  end.
Definition SetExecCommand (b : Backend) (cmd : ExecCommand) : Backend :=
  match b with
  | RPM b => RPM (mkRPM (rpm_osReleaseFile b) cmd)
  | RedHat b => RedHat (mkRPM (rpm_osReleaseFile b) cmd)
  | Debian b => Debian (mkDebian (deb_osReleaseFile b) cmd)
  | Ubuntu b => Ubuntu (mkDebian (deb_osReleaseFile b) cmd)
  end.

(** The distributions of rpm; any other one, or none, is taken for one of dpkg. *)
Definition rpm_distributions : list string :=
  ["fedora"; "rhel"; "centos"; "rocky"; "alma"; "oracle"; "suse"; "opensuse"; "amazon"].
Definition NewSystemPackagesAttestor : Attestor :=
  let b := match determineDistribution osReleasePath with
           | Ok (_, distribution, _) =>
               if bool_decide (distribution ∈ rpm_distributions) then NewRPMBackend osReleasePath
               else NewDebianBackend osReleasePath
           | _ => NewDebianBackend osReleasePath
           end in
  mkAttestor "" "" "" [] ∅ (Some b).

Definition Attest (a : Attestor) : Attestor * err :=
  match backend a with
  | None => (a, Panic "nil pointer dereference")
  | Some b =>
      match DetermineOSInfo b with
      | Err e => (a, Err e)
      | Panic w => (a, Panic w)
      | Ok (os, dist, version) =>
          let a := mkAttestor os dist version (Packages a) (Digest_ a) (Some b) in
          match GatherPackages b with
          | Err e => (a, Err e)
          | Panic w => (a, Panic w)
          | Ok packages =>
              let a := mkAttestor os dist version packages (Digest_ a) (Some b) in
              match (content ← json_Marshal (mkAttestor os dist version packages ∅ None);
                     CalculateDigestSetFromBytes content [mkDV SHA256 false false]) with
              | Ok digest => (mkAttestor os dist version packages digest (Some b), nil_error)
              | Err e => (a, Err e)
              | Panic w => (a, Panic w)
              end
          end
      end
  end.
End packages.
End SystemPackages.

(** ** attestation/omnitrail/omnitrail.go: the attestor of a trail of the working
    directory. The library omnitrail-go is the class [OmnitrailLib]. *)
Class OmnitrailLib := {
  Trail : Type;
  NewTrail : Trail;
  Trail_Add : string → Trail → Trail * err;
  TrailEnvelope : Type;
  Trail_Envelope : Trail → TrailEnvelope;
}.

Module Omnitrail.

Definition Name : string := "omnitrail".
Definition Type_ : string := "https://witness.dev/attestations/omnitrail/v0.1".
Definition RunType : string := PreMaterialRunType.

Section omnitrail.
Context `{OL : OmnitrailLib} {A : Type}.

Record Attestor := mkAttestor { Envelope : option TrailEnvelope }.
Definition NewOmnitrailAttestor : Attestor := mkAttestor None.
Definition Attest (ctx : AttestationContext A) (o : Attestor) : Attestor * err :=
  match Trail_Add (ctx_workingDir ctx) NewTrail with
  | (trail, Ok _) => (mkAttestor (Some (Trail_Envelope trail)), nil_error)
  | (_, Err e) => (o, Err e)
  | (_, Panic w) => (o, Panic w)
  end.
End omnitrail.
End Omnitrail.
