(* ===== verification/DocumentTheorems.v ===== *)
(** The attestors of documents among the products (Documents.v, Images.v):
    what they record is what a product holds. *)
From S2P Require Import Prelude GoStrings GoText Errors Crypto Digest Toy Paths File Registry Attestation Constraints Environment Hooks Context Host CI FileTheorems CITheorems Documents Images.
From stdpp Require Import options.

#[local] Unset Default Proof Using.

(** * The loop over the products *)

(** The body goes on with the next product for all of [l]. *)
Fixpoint passes {S} (body : string → Product → S → S * option err) (l : list (string * Product)) (s s' : S) : Prop :=
  match l with
  | [] => s' = s
  | (path, product) :: l => ∃ s1, body path product s = (s1, None) ∧ passes body l s1 s'
  end.

Lemma candidate_loop_inv {S} (body : string → Product → S → S * option err) none l s s' e :
  candidate_loop body none l s = (s', e) →
  (∃ l1 path product l2 s1, l = l1 ++ (path, product) :: l2 ∧ passes body l1 s s1 ∧ body path product s1 = (s', Some e)) ∨
  passes body l s s' ∧ e = none.
Proof.
  revert s. induction l as [|[path product] l IH]; intros s; cbn [candidate_loop passes].
  - intros [= <- <-]. by right.
  - destruct (body path product s) as [s1 [e1|]] eqn:Hb.
    + intros [= -> ->]. left. by exists [], path, product, l, s.
    + intros [(l1 & p & pr & l2 & s2 & -> & Hl1 & Hp)|[Hl ->]]%IH.
      * left. exists ((path, product) :: l1), p, pr, l2, s2. split; [done|]. split; [|done]. by exists s1.
      * right. split; [|done]. by exists s1.
Qed.

Lemma passes_same {S} (body : string → Product → S → S * option err) l s s' :
  (∀ path product s1 s2, body path product s1 = (s2, None) → s2 = s1) → passes body l s s' → s' = s.
Proof.
  intros Hb. revert s. induction l as [|[path product] l IH]; intros s; cbn [passes]; [done|].
  intros (s1 & H1%Hb & Hp%IH). congruence.
Qed.

(** A search that succeeds returned from the body for one of the products. *)
Lemma get_candidate_ok `{RO : RangeOrder} {S A} site body e0 (ctx : AttestationContext A) (s s' : S) :
  get_candidate site body (Err e0) ctx s = (s', nil_error) →
  ∃ path product s1, ctx_products ctx !! path = Some product ∧ body path product s1 = (s', Some nil_error) ∧
    ∃ l1 l2, range_map site (ctx_products ctx) = l1 ++ (path, product) :: l2 ∧ passes body l1 s s1.
Proof.
  unfold get_candidate. case_bool_decide; [done|].
  intros [(l1 & path & product & l2 & s1 & Hl & Hp & Hb)|[_ Hnone]]%candidate_loop_inv; [|done].
  exists path, product, s1. split; [|split; [done|by exists l1, l2]].
  apply (elem_of_range site). rw Hl. apply elem_of_app. right. left.
Qed.

Section documents.
Context `{CL : CryptoLib} `{GI : GitoidLib} `{RO : RangeOrder} `{FS : FileSystem} {A : Type}.

(** The file at [path] has the contents, and the digests of the product. *)
Definition intact (path : string) (product : Product) (hashes : list DigestValue) (contents : bytes) : Prop :=
  (∃ f, os_Open path = Ok f ∧ file_Read f = Ok contents) ∧
  ∃ ds, CalculateDigestSetFromFile os_Open path hashes = Ok ds ∧ DigestSet_Equal ds (prod_Digest product) = true.

Lemma check_and_read_ok path product hashes contents :
  (_ ← check_integrity path product hashes; read_candidate path path) = Ok contents →
  intact path product hashes contents.
Proof.
  intros ([] & Hc & Hr)%res_bind_ok. unfold check_integrity in Hc. apply res_bind_ok in Hc as (ds & Hds%on_error_ok & Hc).
  destruct (DigestSet_Equal ds (prod_Digest product)) eqn:He; [|done].
  unfold read_candidate in Hr. apply res_bind_ok in Hr as (f & Hf%on_error_ok & Hr%on_error_ok).
  split; [by exists f|by exists ds].
Qed.

(** ** Reports *)

Section reports.
Context {SarifReport VEX : Type} (zero_Report : SarifReport) (zero_VEX : VEX).
Variable json_Unmarshal_Report : bytes → SarifReport → SarifReport * err.
Variable json_Unmarshal_VEX : bytes → VEX → VEX * err.

(** A report that a sarif or vex attestor records is decoded from a product that
    still has its digests, whose path and digests are recorded with it. *)
Theorem reports_are_products (ctx : AttestationContext A) :
  (∀ a, Sarif.Attest json_Unmarshal_Report ctx (Sarif.New zero_Report) = (a, nil_error) →
    ∃ product contents report0, ctx_products ctx !! Sarif.ReportFile a = Some product ∧
      Sarif.ReportDigestSet a = prod_Digest product ∧
      intact (Sarif.ReportFile a) product (ctx_hashes ctx) contents ∧
      json_Unmarshal_Report contents report0 = (Sarif.Report a, nil_error)) ∧
  (∀ a, Vex.Attest json_Unmarshal_VEX ctx (Vex.New zero_VEX) = (a, nil_error) →
    ∃ product contents document0, ctx_products ctx !! Vex.ReportFile a = Some product ∧
      Vex.ReportDigestSet a = prod_Digest product ∧
      intact (Vex.ReportFile a) product (ctx_hashes ctx) contents ∧
      json_Unmarshal_VEX contents document0 = (Vex.VEXDocument a, nil_error)).
Proof.
  split; intros a (path & product & a1 & Hp & Hb & _)%get_candidate_ok.
  - unfold Sarif.candidate in Hb. destruct (_ ← check_integrity _ _ _; _) as [contents| |] eqn:Hc; [|done..].
    apply check_and_read_ok in Hc. destruct (json_Unmarshal_Report _ _) as [r [[]| |]] eqn:Hj; [|done..].
    injection Hb as <-. by exists product, contents, (Sarif.Report a1).
  - unfold Vex.candidate in Hb. destruct (_ ← check_integrity _ _ _; _) as [contents| |] eqn:Hc; [|done..].
    apply check_and_read_ok in Hc. destruct (json_Unmarshal_VEX _ _) as [r [[]| |]] eqn:Hj; [|done..].
    injection Hb as <-. by exists product, contents, (Vex.VEXDocument a1).
Qed.

(** The media type of a product plays no part in the search for a SARIF report. *)
Theorem Sarif_any_type hashes path m m' d a :
  Sarif.candidate json_Unmarshal_Report hashes path (mkProduct m d) a =
  Sarif.candidate json_Unmarshal_Report hashes path (mkProduct m' d) a.
Proof. done. Qed.
End reports.

(** ** SBOMs *)

Section sbom.
Context `{SB : SbomLib}.
Variable sha256 : bytes → bytes.
Hypothesis sha256_linked : hash_sum SHA256 = Some sha256.

(** The subjects of an SBOM: its file, and its names with their SHA-256. *)
Definition sbom_subject (path : string) (product : Product) (names : gmap string string) (k : string) (ds : DigestSet) : Prop :=
  k = "file:" +:+ path ∧ ds = prod_Digest product ∨
  ∃ n v, names !! n = Some v ∧ k = n +:+ ":" +:+ v ∧ ds = sha256_set sha256 v.

Lemma name_subjects names (a : Sbom.SBOMAttestor) :
  range_res Sbom.name_subject a names =
  Ok (Sbom.mkSBOM (Sbom.SBOMDocument a) (Sbom.predicateType a) (Sbom.export a)
        (foldl (λ m kv, <[(named sha256 kv).1 := (named sha256 kv).2]> m) (Sbom.subjects a) names)).
Proof using sha256_linked.
  revert a. induction names as [|kv names IH]; intros a; [by destruct a|]. cbn [range_res foldl].
  assert (Sbom.name_subject a kv = Ok (Sbom.add_subject a (named sha256 kv).1 (named sha256 kv).2)) as ->.
  { unfold Sbom.name_subject. by rw (CalculateDigestSet_sha256 sha256). }
  cbn [mbind res_bind]. by rw IH.
Qed.

Lemma named_inj n v n' v' : byte_free ":" n = true → byte_free ":" n' = true →
  (named sha256 (n, v)).1 = (named sha256 (n', v')).1 → n = n' ∧ v = v'.
Proof.
  intros Hn Hn' Heq. unfold named in Heq. cbn [fst snd] in Heq. change (":" +:+ v) with (String ":" v) in Heq.
  change (":" +:+ v') with (String ":" v') in Heq. apply (f_equal (cut_byte ":")) in Heq.
  rw !cut_byte_free in Heq; [|done..]. by injection Heq.
Qed.

(** Subjects with distinct names, inserted one by one. *)
Lemma named_subjects_lookup site (names : gmap string string) (m0 : gmap string DigestSet) k ds :
  (∀ n, is_Some (names !! n) → byte_free ":" n = true) →
  (∀ n v, names !! n = Some v → m0 !! (named sha256 (n, v)).1 = None) →
  foldl (λ m kv, <[(named sha256 kv).1 := (named sha256 kv).2]> m) m0 (range_map site names) !! k = Some ds ↔
  m0 !! k = Some ds ∨ ∃ n v, names !! n = Some v ∧ k = n +:+ ":" +:+ v ∧ ds = sha256_set sha256 v.
Proof.
  intros Hfree Hm0. set (l := range_map site names).
  assert (∀ m : gmap string DigestSet, foldl (λ m kv, <[(named sha256 kv).1 := (named sha256 kv).2]> m) m l =
          foldl (λ m kv, <[kv.1 := (λ _ d, d) kv.1 kv.2]> m) m (named sha256 <$> l)) as ->.
  { induction l as [|kv l' IH]; intros m; [done|]. cbn. apply IH. }
  assert (∀ n v, (n, v) ∈ l ↔ names !! n = Some v) as Hl by (intros; apply elem_of_range).
  assert (NoDup (named sha256 <$> l).*1) as Hnd.
  { rw -list_fmap_compose. apply NoDup_fmap_2_strong; [|apply (NoDup_fmap_1 fst), NoDup_fst_range].
    intros [n v] [n' v'] Hin%Hl Hin'%Hl Heq. apply named_inj in Heq as [-> ->]; [done|apply Hfree; by eexists..]. }
  rw (foldl_insert_lookup (λ _ d, d)) //.
  destruct (list_to_map (named sha256 <$> l) !! k) as [d|] eqn:Hk.
  - apply elem_of_list_to_map_2, list_elem_of_fmap in Hk as ([n v] & Hkv & Hin%Hl). unfold named in Hkv. injection Hkv as -> ->.
    split; [intros [= <-]; right; by exists n, v|]. intros [Hm|(n' & v' & Hn' & Heq & ->)].
    + specialize (Hm0 n v Hin). unfold named in Hm0. cbn [fst snd] in Hm0. by rw Hm0 in Hm.
    + apply named_inj in Heq as [-> ->]; [done|apply Hfree; by eexists..].
  - split; [by left|]. intros [Hm|(n & v & Hn & -> & ->)]; [done|].
    apply not_elem_of_list_to_map in Hk. destruct Hk. rw -list_fmap_compose. apply list_elem_of_fmap. exists (n, v). split; [done|by apply Hl].
Qed.

Lemma decode_names t contents d names : Sbom.decode_document t contents = Ok (d, names) →
  ∀ n, is_Some (names !! n) → n = "name" ∨ n = "version".
Proof.
  assert (∀ k v n, is_Some (Sbom.if_named k v !! n) → n = k) as Hif.
  { intros k v n. unfold Sbom.if_named. case_bool_decide; [by intros [? [<- _]%lookup_singleton_Some]|].
    by intros [? Hs%lookup_empty_Some]. }
  unfold Sbom.decode_document. case_bool_decide; [|case_bool_decide; [|done]]; intros Hdec; res_inv.
  - destruct x as [doc|]; [|done]. simplify_eq. intros n ->%Hif. by left.
  - destruct (bom_Component x) as [[[name version]|]|]; [|done..]. simplify_eq. intros n [v [Hv|[_ Hv]]%lookup_union_Some_raw].
    + right. eapply Hif. by eexists.
    + left. eapply Hif. by eexists.
Qed.

(** An SBOM attestor that succeeds holds the decoded document of a product of a
    known media type, under the predicate type of that format; its subjects are
    the product's file with its digests, and the names in the document with their
    SHA-256. *)
Theorem Sbom_Attest_sound (ctx : AttestationContext A) a0 a :
  Sbom.Attest ctx a0 = (a, nil_error) →
  ∃ path product f contents names,
    ctx_products ctx !! path = Some product ∧
    Sbom.predicate_of (prod_MimeType product) = Some (Sbom.Type_of a) ∧
    os_Open (filepath_Join [ctx_workingDir ctx; path]) = Ok f ∧ file_Read f = Ok contents ∧
    Sbom.decode_document (Sbom.Type_of a) contents = Ok (Sbom.SBOMDocument a, names) ∧
    ∀ k ds, Sbom.Subjects a !! k = Some ds ↔ sbom_subject path product names k ds.
Proof using sha256_linked.
  unfold Sbom.Attest, Sbom.getCandidate. case_bool_decide; [done|].
  intros [(l1 & path & product & l2 & s1 & Hl & Hp & Hb)|[_ Hnone]]%candidate_loop_inv; [|done].
  assert (ctx_products ctx !! path = Some product) as Hprod.
  { apply (elem_of_range 18). rw Hl. apply elem_of_app. right. left. }
  apply passes_same in Hp as ->; last first.
  { intros p pr s s'. unfold Sbom.candidate. destruct (Sbom.predicate_of _); [|by intros [= <-]].
    destruct (sbomBytes ← _; _) as [[d names]| |]; [|done..]. by destruct (range_res _ _ _). }
  unfold Sbom.candidate in Hb. destruct (Sbom.predicate_of (prod_MimeType product)) as [t|] eqn:Ht; [|done].
  destruct (sbomBytes ← _; _) as [[d names]| |] eqn:Hd; [|done..]. rw name_subjects in Hb. injection Hb as <-.
  apply res_bind_ok in Hd as (contents & Hr & Hd). unfold read_candidate in Hr.
  apply res_bind_ok in Hr as (f & Hf%on_error_ok & Hr%on_error_ok).
  exists path, product, f, contents, names. split_and!; [done..|]. intros k ds. cbn [Sbom.Subjects Sbom.subjects Sbom.set_document Sbom.add_subject Sbom.set_predicateType].
  assert (∀ n, is_Some (names !! n) → n = "name" ∨ n = "version") as Hn by (by eapply decode_names).
  rw (named_subjects_lookup 19 names).
  - unfold sbom_subject. rw lookup_insert_Some lookup_empty. naive_solver.
  - intros n Hs. by destruct (Hn n Hs) as [->| ->].
  - intros n v Hs. rw lookup_insert_ne; [apply lookup_empty|]. intros Heq. by destruct (Hn n) as [->| ->].
Qed.

(** A CycloneDX document without a component of its own stops the attestor with a
    panic, and so does JSON null where an SPDX document is expected. *)
Theorem Sbom_missing_component contents bom :
  bom_Decode contents = Ok bom → bom_Component bom = None ∨ bom_Component bom = Some None →
  Sbom.decode_document Sbom.CycloneDxPredicateType contents = Panic "nil pointer dereference".
Proof. intros Hd Hc. unfold Sbom.decode_document. cbn. rw Hd. cbn. by destruct Hc as [->| ->]. Qed.
End sbom.

(** ** Images *)

Section docker.
Context `{UL : UrlLib} `{DJ : !Metadata.DockerJson}.

(** A product that is a metadata file. *)
Definition describes (workingDir : string) (p : string * Product) (met : Metadata.BuildInfo) : Prop :=
  Contains Docker.jsonMimeType (prod_MimeType p.2) = true ∧
  ∃ contents, os_ReadFile (filepath_Join [workingDir; p.1]) = Ok contents ∧
    Metadata.BuildInfo_UnmarshalJSON contents = Ok met.

Lemma candidates_described workingDir l acc mets :
  range_res (Docker.docker_candidate workingDir) acc l = Ok mets →
  ∀ met, met ∈ mets ↔ met ∈ acc ∨ ∃ p, p ∈ l ∧ describes workingDir p met.
Proof.
  revert acc. induction l as [|[path product] l IH]; intros acc; cbn [range_res].
  - intros [= <-] met. split; [by left|]. intros [Hm|(p & Hp%not_elem_of_nil & _)]; done.
  - intros (acc1 & Hc & Hr)%res_bind_ok met. rw (IH _ Hr met). clear IH Hr.
    assert (met ∈ acc1 ↔ met ∈ acc ∨ describes workingDir (path, product) met) as ->.
    { unfold Docker.docker_candidate in Hc. unfold describes. cbn [fst snd].
      destruct (Contains _ _) eqn:Hmime.
      - apply res_bind_ok in Hc as (f & Hf%wrap_ok & Hc). destruct (Metadata.BuildInfo_UnmarshalJSON f) as [met1|e|w] eqn:Hj; [..|done].
        + injection Hc as <-. rw elem_of_app list_elem_of_singleton. split.
          * intros [Hm| ->]; [by left|]. right. split; [done|]. by exists f.
          * intros [Hm|(_ & f' & Hf' & Hj')]; [by left|]. right. congruence.
        + injection Hc as <-. split; [by left|]. intros [Hm|(_ & f' & Hf' & Hj')]; [done|]. congruence.
      - injection Hc as <-. split; [by left|]. intros [Hm|[? _]]; [|done]. done. }
    setoid_rewrite elem_of_cons. naive_solver.
Qed.

Lemma set_candidates mets a d :
  (∀ p, Docker.Products (foldl Docker.setDockerCandidate a mets) !! d = Some p →
    Docker.Products a !! d = Some p ∨
    ∃ met, met ∈ mets ∧ Metadata.ContainerImageDigest met = "sha256:" +:+ d ∧ p = Docker.docker_product met d) ∧
  (is_Some (Docker.Products a !! d) ∨ (∃ met, met ∈ mets ∧ Metadata.ContainerImageDigest met = "sha256:" +:+ d) →
   is_Some (Docker.Products (foldl Docker.setDockerCandidate a mets) !! d)).
Proof.
  revert a. induction mets as [|met mets IH]; intros a; cbn [foldl].
  - split; [by left|]. intros [Hd|(m & Hm%not_elem_of_nil & _)]; done.
  - destruct (IH (Docker.setDockerCandidate a met)) as [IH1 IH2]. clear IH. setoid_rewrite elem_of_cons. split.
    + intros p [Hp|(m & Hm & Hd & Hp)]%IH1; [|right; exists m; by auto]. unfold Docker.setDockerCandidate in Hp.
      destruct (CutPrefix _ _) as [t|] eqn:Hc; [|by left]. cbn in Hp. apply CutPrefix_Some in Hc.
      apply lookup_insert_Some in Hp as [[-> <-]|[_ Hp]]; [|by left]. right. exists met. by auto.
    + intros Hd. apply IH2. unfold Docker.setDockerCandidate. destruct (CutPrefix _ _) as [t|] eqn:Hc.
      * cbn. destruct (decide (t = d)) as [->|Ht]; [left; rw lookup_insert_eq; by eexists|].
        destruct Hd as [Hd|(m & [->|Hm] & Hm')]; [left; by rw lookup_insert_ne|..|right; by exists m].
        rw Hm' CutPrefix_app in Hc. by injection Hc as ->.
      * destruct Hd as [Hd|(m & [->|Hm] & Hm')]; [by left|..|right; by exists m]. by rw Hm' CutPrefix_app in Hc.
Qed.

Lemma add_materials_lookup m p arch :
  default [] (Docker.add_materials m p !! arch) =
  default [] (m !! arch) ++ (if decide (arch = p.1) then Docker.material_of arch <$> Metadata.Materials p.2 else []).
Proof.
  destruct p as [a prov]. unfold Docker.add_materials. cbn [fst snd]. generalize (Metadata.Materials prov) as l. intros l.
  revert m. induction l as [|x l IH]; intros m; cbn [foldl].
  - case_decide; cbn; by rw right_id_L.
  - rw IH. case_decide as Ha; [subst a; rw lookup_insert_eq; cbn; by rw -assoc_L|by rw lookup_insert_ne].
Qed.

Lemma docker_materials met d arch :
  default [] (Docker.Materials (Docker.docker_product met d) !! arch) =
  Docker.material_of arch <$> default [] (Metadata.Materials <$> Metadata.Provenance_ met !! arch).
Proof.
  cbn [Docker.Materials Docker.docker_product].
  assert (∀ l (m : gmap string (list Docker.Material)), NoDup l.*1 →
    default [] (foldl Docker.add_materials m l !! arch) = default [] (m !! arch) ++
    (Docker.material_of arch <$> default [] (Metadata.Materials <$> list_to_map (M:=gmap string Metadata.Provenance) l !! arch))) as Hl.
  { induction l as [|[a prov] l IH]; intros m Hnd; cbn [foldl]; [by rw right_id_L|].
    apply NoDup_cons in Hnd as [Ha Hnd]. rw (IH _ Hnd) add_materials_lookup. cbn [fst snd list_to_map].
    case_decide as Harch; rw -assoc_L; f_equal.
    - subst a. rw lookup_insert_eq. apply not_elem_of_list_to_map in Ha. rw Ha. cbn. by rw right_id_L.
    - by rw lookup_insert_ne. }
  rw Hl; [|apply NoDup_fst_range]. rw lookup_empty. cbn.
  assert (list_to_map (range_map 21 (Metadata.Provenance_ met)) = Metadata.Provenance_ met) as ->; [|done].
  etrans; [|apply list_to_map_to_list]. apply list_to_map_proper; [apply NoDup_fst_range|apply range_map_perm].
Qed.

(** The images of a docker attestor that succeeds are exactly those that
    metadata files among the products describe by a SHA-256: each under its digest
    and name, with the materials of its provenance, by architecture. *)
Theorem Docker_Attest_spec (ctx : AttestationContext A) a0 a :
  Docker.Attest ctx a0 = (a, nil_error) →
  let described met := ∃ path product, ctx_products ctx !! path = Some product ∧ describes (ctx_workingDir ctx) (path, product) met in
  Docker.Products a ≠ ∅ ∧
  (∀ d, is_Some (Docker.Products a !! d) ↔ ∃ met, described met ∧ Metadata.ContainerImageDigest met = "sha256:" +:+ d) ∧
  (∀ d p, Docker.Products a !! d = Some p → ∃ met, described met ∧ Metadata.ContainerImageDigest met = "sha256:" +:+ d ∧
    Docker.ImageReferences p = [Metadata.ImageName met] ∧ Docker.ImageDigest p = {[Docker.sha256_value := d]} ∧
    ∀ arch, default [] (Docker.Materials p !! arch) =
            Docker.material_of arch <$> default [] (Metadata.Materials <$> Metadata.Provenance_ met !! arch)).
Proof.
  unfold Docker.Attest, Docker.getDockerCandidates. case_bool_decide; [done|].
  destruct (range_res _ _ _) as [mets|e|w] eqn:Hm; [|done..]. case_bool_decide as Hsize; [done|]. intros [= <-]. cbv zeta.
  assert (∀ met, met ∈ mets ↔ ∃ path product, ctx_products ctx !! path = Some product ∧
            describes (ctx_workingDir ctx) (path, product) met) as Hin.
  { intros met. rw (candidates_described _ _ _ _ Hm met). split.
    - intros [Hn%not_elem_of_nil|([path product] & Hp%elem_of_range & Hd)]; [done|]. by exists path, product.
    - intros (path & product & Hp & Hd). right. exists (path, product). split; [by apply elem_of_range|done]. }
  split; [intros Hempty; by rw Hempty in Hsize|]. split.
  - intros d. destruct (set_candidates mets (Docker.mkAttestor ∅) d) as [H1 H2]. split.
    + intros [p [Hp|(met & Hmet & Hd & _)]%H1]; [by rw lookup_empty in Hp|]. exists met. by rw -Hin.
    + intros (met & Hmet & Hd). apply H2. right. exists met. by rw Hin.
  - intros d p Hp. destruct (set_candidates mets (Docker.mkAttestor ∅) d) as [H1 _].
    apply H1 in Hp as [Hp|(met & Hmet & Hd & ->)]; [by rw lookup_empty in Hp|]. exists met. rw -Hin.
    split_and!; [done..|]. apply docker_materials.
Qed.
End docker.
End documents.

(** * Examples *)

Definition toy_product (mime contents : string) : Product :=
  mkProduct mime (match CalculateDigestSetFromBytes contents [sha256] with Ok ds => ds | _ => ∅ end).
Definition toy_documents : FileSystem :=
  files_of [] [] [("a", "tool;!"); ("b", ";runs"); ("/w/app.json", "sha256:d1"); ("/w/bom.json", "my app")].
Definition toy_ctx (ps : list (string * Product)) : AttestationContext unit :=
  mkContext "" [] "/w" [] [] [sha256] [] (list_to_map ps) ∅ "step" (NewCapture []) [] zero_hooks.

(** A report of two fields, which are decoded one after the other; an exclamation
    mark cannot be decoded. *)
Definition toy_decode (data : bytes) (r : string * string) : (string * string) * err :=
  let (x, y) := cut_byte ";" data in
  let r := (if bool_decide (x = "") then r.1 else x, r.2) in
  if bool_decide (y = Some "!") then (r, Err (External "cannot unmarshal"))
  else ((r.1, default "" y), nil_error).

(** A product that cannot be decoded as a whole leaves its fields in the report of
    another one. *)
Theorem Sarif_mixes_products :
  @Sarif.Attest toy_crypto toy_gitoid _ toy_documents unit _ toy_decode
    (toy_ctx [("a", toy_product "" "tool;!"); ("b", toy_product "" ";runs")]) (Sarif.New ("", "")) =
  (Sarif.mkAttestor ("tool", "runs") "b" (prod_Digest (toy_product "" ";runs")), nil_error).
Proof. vm_compute. reflexivity. Qed.

Lemma reports_are_products_witness : ∃ a,
  @Sarif.Attest toy_crypto toy_gitoid _ toy_documents unit _ toy_decode
    (toy_ctx [("b", toy_product "" ";runs")]) (Sarif.New ("", "")) = (a, nil_error) ∧
  ∃ product contents report0, Sarif.ReportDigestSet a = prod_Digest product ∧
    toy_decode contents report0 = (Sarif.Report a, nil_error).
Proof.
  eassert (@Sarif.Attest toy_crypto toy_gitoid _ toy_documents unit _ toy_decode
    (toy_ctx [("b", toy_product "" ";runs")]) (Sarif.New ("", "")) = (_, nil_error)) as Ha by (vm_compute; reflexivity).
  eexists. split; [exact Ha|].
  destruct (proj1 (@reports_are_products toy_crypto toy_gitoid _ toy_documents unit _ _ ("", "") tt toy_decode (λ _ v, (v, nil_error))
    (toy_ctx [("b", toy_product "" ";runs")])) _ Ha) as (product & contents & report0 & _ & Hd & _ & Hr).
  exists product, contents, report0. split; [exact Hd|exact Hr].
Defined.

#[local] Instance toy_sbom : SbomLib := {|
  SpdxDocument := string; CycloneDxBOM := string; spdx_Unmarshal b := Ok (Some b); spdx_DocumentName d := d;
  bom_Decode b := Ok b; bom_Component b := Some (Some (b, "")) |}.

Lemma Sbom_Attest_sound_witness : ∃ a,
  @Sbom.Attest toy_crypto toy_gitoid _ toy_documents unit toy_sbom
    (toy_ctx [("bom.json", toy_product Sbom.SPDXMimeType "my app")]) Sbom.NewSBOMAttestor = (a, nil_error) ∧
  Sbom.Subjects a !! "name:my app" = Some (sha256_set (λ d, "h" +:+ pretty SHA256 +:+ d) "my app").
Proof.
  eassert (@Sbom.Attest toy_crypto toy_gitoid _ toy_documents unit toy_sbom
    (toy_ctx [("bom.json", toy_product Sbom.SPDXMimeType "my app")]) Sbom.NewSBOMAttestor = (_, nil_error)) as Ha
    by (vm_compute; reflexivity).
  eexists. split; [exact Ha|].
  assert (@hash_sum toy_crypto SHA256 = Some (λ d, "h" +:+ pretty SHA256 +:+ d)) as Hs by reflexivity.
  destruct (@Sbom_Attest_sound toy_crypto toy_gitoid _ toy_documents unit toy_sbom _ Hs
    (toy_ctx [("bom.json", toy_product Sbom.SPDXMimeType "my app")]) Sbom.NewSBOMAttestor _ Ha)
    as (path & product & f & contents & names & _).
  vm_compute. reflexivity.
Defined.

#[local] Instance toy_docker_json : Metadata.DockerJson := {|
  Metadata.json_Alias b := Ok (Metadata.mkBuildInfo ∅ "" "" (Metadata.mkDescriptor "" "" 0 (Metadata.mkPlatform "" "")) b "app");
  Metadata.json_raw b := Ok {["buildx.build.provenance/amd64" := "lib"]};
  Metadata.json_Provenance b := Ok (Metadata.mkProvenance "" [Metadata.mkMaterial b (Metadata.mkDigest "d2")]
    (Metadata.mkInvocation (Metadata.mkConfigSource "") (Metadata.mkParameters "" (Metadata.mkArgs "" "") []) (Metadata.mkEnvironment "")));
  Metadata.json_string b := Ok b;
  Metadata.url_ParseQuery u := Ok (λ _, "") |}.

Lemma Docker_Attest_spec_witness : ∃ a,
  Docker.Attest (FS:=toy_documents)
    (toy_ctx [("app.json", toy_product "application/json" "sha256:d1")]) Docker.New = (a, nil_error) ∧
  is_Some (Docker.Products a !! "d1") ∧ Docker.Products a ≠ ∅.
Proof.
  eassert (Docker.Attest (FS:=toy_documents)
    (toy_ctx [("app.json", toy_product "application/json" "sha256:d1")]) Docker.New = (_, nil_error)) as Ha
    by (vm_compute; reflexivity).
  eexists. split; [exact Ha|].
  destruct (Docker_Attest_spec (FS:=toy_documents)
    (toy_ctx [("app.json", toy_product "application/json" "sha256:d1")]) Docker.New _ Ha)
    as (Hne & _ & _).
  split; [vm_compute; by eexists|exact Hne].
Defined.
