(* ===== verification/OciTheorems.v ===== *)
(** The attestor of images in tar archives (Images.v): what it records of an archive
    whose entries can be read as a whole, and what becomes of layers that are
    listed twice. *)
From S2P Require Import Prelude Receiver GoStrings GoText Errors Crypto Digest Toy Paths File Registry Attestation Constraints Environment Hooks Context FileTheorems CI CITheorems Documents DocumentTheorems Images.
From stdpp Require Import options.
Import Oci.

#[local] Unset Default Proof Using.

(** * Archives *)

(** An entry that one [Read] gives as a whole; the next ones are at its end. *)
Definition whole (h : TarEntry) (contents : bytes) : Prop :=
  te_Size h = slen contents ∧ (te_Read h 0).1 = contents ∧ (∀ e, (te_Read h 0).2 ≠ ReadErr e) ∧
  ∀ n, te_Read h (S n) = ("", ReadEOF).

Lemma filled_whole c : filled (slen c) c = c.
Proof. unfold filled. rw take_str_all; [|done]. rw Nat.sub_diag. apply string_app_nil_r. Qed.
Lemma filled_end n : filled n "" = zeros n.
Proof. unfold filled. rw take_str_all; [|cbn; lia]. cbn [slen]. by rw Nat.sub_0_r. Qed.

Lemma whole_first h c : whole h c → buffer h 0 = c ∧ read_error h 0 = Ok tt.
Proof.
  intros (Hs & Hr & He & _). unfold buffer, read_error. rw Hr Hs filled_whole. split; [done|].
  destruct (te_Read h 0).2 as [| |e] eqn:H; [done..|by destruct (He e)].
Qed.
Lemma whole_again h c n : whole h c → buffer h (S n) = zeros (slen c) ∧ read_error h (S n) = Ok tt.
Proof. intros (Hs & _ & _ & Hr). unfold buffer, read_error. rw Hr. cbn [fst snd]. by rw filled_end Hs. Qed.

(** An archive: entries with names, which are directories or have contents. *)
Definition archive (es : list (res TarEntry)) (files : list (TarEntry * bytes)) : Prop :=
  es = Ok <$> files.*1 ∧ Forall (λ f, te_IsDir f.1 = false → whole f.1 f.2) files.

(** Its first file of a name. *)
Definition first_file (files : list (TarEntry * bytes)) (name : string) : option bytes :=
  snd <$> head (filter (λ f, te_IsDir f.1 = false ∧ te_Name f.1 = name) files).

Section oci.
Context `{CL : CryptoLib} `{GI : GitoidLib} `{RO : RangeOrder} `{FS : FileSystem} `{TL : TarLib} {A : Type}.

Lemma find_config_archive config hashes es files id :
  archive es files → find_config config hashes es = Ok id →
  ∃ c, first_file files config = Some c ∧ CalculateDigestSetFromBytes c hashes = Ok id.
Proof.
  intros [-> Hf]. unfold first_file. induction Hf as [|[h c] files Hh Hf IH]; [done|]. cbn [fmap list_fmap find_config fst].
  cbn [mbind res_bind]. rw filter_cons. cbn [fst snd] in *. destruct (te_IsDir h) eqn:Hdir.
  - destruct (decide _) as [[? _]|_]; [done|exact IH].
  - case_bool_decide as Hn; (destruct (decide _) as [[_ ?]|Hd]; [|try exact IH]); [|by destruct Hd|done].
    destruct (whole_first h c) as [-> ->]; [by apply Hh|]. cbn. by exists c.
Qed.

(** The search for the manifest sets its bytes only. *)
Lemma find_manifest_only es a a' r : find_manifest es a = (a', r) → a' = set_raw a (ManifestRaw a').
Proof.
  revert a. induction es as [|[h|e|w] es IH]; intros a; cbn [find_manifest]; unfold mbind, recv_bind, call.
  - intros [= <- <-]. by destruct a.
  - destruct (te_IsDir h); [apply IH|]. case_bool_decide; [by intros [= <- <-]|apply IH].
  - intros [= <- <-]. by destruct a.
  - intros [= <- <-]. by destruct a.
Qed.

Lemma find_manifest_archive es files a a' :
  archive es files → find_manifest es a = (a', Ok tt) →
  a' = match first_file files "manifest.json" with Some raw => set_raw a raw | None => a end.
Proof.
  intros [-> Hf]. unfold first_file. induction Hf as [|[h c] files Hh Hf IH]; cbn [fmap list_fmap find_manifest fst].
  { by intros [= <-]. }
  unfold mbind, recv_bind, call. rw filter_cons. cbn [fst snd] in *. destruct (te_IsDir h) eqn:Hdir.
  - destruct (decide _) as [[? _]|_]; [done|exact IH].
  - case_bool_decide as Hn; (destruct (decide _) as [[_ ?]|Hd]; [|try exact IH]); [|by destruct Hd|done].
    destruct (whole_first h c) as [-> _]; [by apply Hh|]. by intros [= <-].
Qed.

(** Layers that are listed once: one digest for an entry that is listed, none for
    the others. *)
Lemma add_layers_other hashes h layers acc :
  te_Name h ∉ layers → range_res (add_layer hashes h) acc layers = Ok acc.
Proof.
  induction layers as [|l layers IH]; [done|]. intros [Hl Hn]%not_elem_of_cons. cbn [range_res].
  assert (add_layer hashes h acc l = Ok acc) as ->; [|by apply IH]. unfold add_layer. by rw bool_decide_eq_false_2.
Qed.

Lemma entry_layers_whole layers hashes ids h c :
  NoDup layers → te_IsDir h = false → whole h c →
  entry_layers layers hashes ids (Ok h) =
  if decide (te_Name h ∈ layers) then (λ d, ids ++ [d]) <$> layer_digest hashes c else Ok ids.
Proof.
  intros Hnd Hdir Hw. unfold entry_layers. cbn [mbind res_bind]. rw Hdir. case_decide as Hin; [|by rw add_layers_other].
  induction Hnd as [|l layers Hl Hnd IH]; [by apply not_elem_of_nil in Hin|]. cbn [range_res]. unfold add_layer. fold (add_layer hashes h). cbn [fst snd].
  case_bool_decide as Hn.
  - subst l. destruct (whole_first h c Hw) as [-> ->]. cbn [mbind res_bind]. destruct (layer_digest hashes c) as [d| |]; [|done..].
    cbn. by rw add_layers_other.
  - apply IH. by apply elem_of_cons in Hin as [?|?].
Qed.

Lemma getLayerDIFFIDs_archive layers hashes es files ids0 ids :
  archive es files → NoDup layers →
  range_res (entry_layers layers hashes) ids0 es = Ok ids →
  ∃ new, ids = ids0 ++ new ∧
    Forall2 (λ f d, layer_digest hashes f.2 = Ok d) (filter (λ f, te_IsDir f.1 = false ∧ te_Name f.1 ∈ layers) files) new.
Proof.
  intros [-> Hf] Hnd. revert ids0. induction Hf as [|[h c] files Hh Hf IH]; intros ids0; cbn [fmap list_fmap range_res fst].
  { intros [= <-]. exists []. by rw right_id_L. }
  cbn [fst snd] in *. rw filter_cons. cbn [fst snd]. destruct (te_IsDir h) eqn:Hdir.
  - assert (entry_layers layers hashes ids0 (Ok h) = Ok ids0) as ->.
    { unfold entry_layers. cbn [mbind res_bind]. by rw Hdir. }
    intros (new & -> & Hnew)%IH. exists new.
    by destruct (decide _) as [[? _]|_].
  - rw (entry_layers_whole _ _ _ _ c Hnd Hdir); [|by apply Hh]. case_decide as Hin.
    + intros (ids1 & Hids1 & (new & -> & Hnew)%IH)%res_bind_ok. apply res_fmap_ok in Hids1 as (d & Hd & ->).
      exists (d :: new). rw -assoc_L. split; [done|].
      destruct (decide _) as [_|Hno]; [by constructor|by destruct Hno].
    + intros (new & -> & Hnew)%IH. exists new. by destruct (decide _) as [[_ ?]|_].
Qed.

Variable json_Unmarshal_Manifest : bytes → list Manifest → list Manifest * err.

(** C27: An image attestor that succeeds describes the image of a tar archive among
    the products that still has its digests: the manifest is the archive's, the
    identity of the image is the digest of the configuration the manifest names,
    and the layers, when none is listed twice, are the digests of the uncompressed
    contents of the listed files, in the order of the archive. *)
Theorem Oci_Attest_spec (ctx : AttestationContext A) a :
  Attest json_Unmarshal_Manifest ctx New = (a, Ok tt) →
  ∃ path product es m ms,
    ctx_products ctx !! path = Some product ∧ Contains mimeTypes (prod_MimeType product) = true ∧
    (∃ ds, CalculateDigestSetFromFile os_Open path (ctx_hashes ctx) = Ok ds ∧ DigestSet_Equal ds (prod_Digest product) = true) ∧
    TarDigest a = prod_Digest product ∧ entries path = Ok es ∧
    Manifest_ a = m :: ms ∧ json_Unmarshal_Manifest (ManifestRaw a) [] = (m :: ms, nil_error) ∧
    CalculateDigestSetFromBytes (ManifestRaw a) (ctx_hashes ctx) = Ok (ManifestDigest a) ∧
    ImageTags a = RepoTags m ∧
    ∀ files, archive es files →
      ManifestRaw a = default "" (first_file files "manifest.json") ∧
      (∃ config, first_file files (Config m) = Some config ∧
         CalculateDigestSetFromBytes config (ctx_hashes ctx) = Ok (ImageID a)) ∧
      (NoDup (Layers m) → Forall2 (λ f d, layer_digest (ctx_hashes ctx) f.2 = Ok d)
         (filter (λ f, te_IsDir f.1 = false ∧ te_Name f.1 ∈ Layers m) files) (LayerDiffIDs a)).
Proof.
  unfold Attest. intros Hrun. apply recv_bind_ok in Hrun as (a1 & [] & Hcand & Hrun).
  apply recv_bind_ok in Hrun as (a2 & [] & Hman & Hrun). recv_inv.
  apply get_candidate_ok in Hcand as (path & product & s1 & Hp & Hb & l1 & l2 & _ & Hpass).
  apply passes_same in Hpass as ->; last first.
  { intros p pr t t'. unfold candidate. destruct (negb _); [by intros [= <-]|]. destruct (check_integrity _ _ _); done. }
  unfold candidate in Hb. destruct (Contains mimeTypes _) eqn:Hmime; [|done]. cbn [negb] in Hb.
  destruct (check_integrity _ _ _) as [[]| |] eqn:Hc; [|done..]. injection Hb as <-.
  unfold check_integrity in Hc. apply res_bind_ok in Hc as (ds & Hds%on_error_ok & Hc).
  destruct (DigestSet_Equal ds _) eqn:Heq; [|done].
  unfold parseMaifest in Hman. recv_inv.
  destruct (json_Unmarshal_Manifest _ _) as [ms er] eqn:Hj. recv_inv.
  destruct x7. pose proof H4 as Hraw. apply find_manifest_only in Hraw. rw Hraw in Hj H0 H1 H2. cbn in Hj, H0, H1, H2.
  destruct ms as [|m ms]; [done|]. injection H0 as ->. unfold getImageID in H1. unfold getLayerDIFFIDs in H2.
  cbn in H3. rw H3 in H1 H2. cbn in H1, H2. exists path, product, x3, x2, ms. rw Hraw. cbn.
  do 2 (split; [done|]). split; [by exists ds|]. do 6 (split; [done|]). intros files Hfiles. split; [|split].
  - rw (find_manifest_archive _ _ _ _ Hfiles H4). by destruct (first_file files _).
  - by eapply find_config_archive.
  - intros Hnd. by destruct (getLayerDIFFIDs_archive _ _ _ _ _ _ Hfiles Hnd H2) as (new & -> & Hnew).
Qed.

(** A layer that is listed twice is read twice from one entry: the second read is
    at its end, and its digest that of a buffer of zeros. *)
Theorem Oci_repeated_layer hashes ids h c : te_IsDir h = false → whole h c →
  entry_layers [te_Name h; te_Name h] hashes ids (Ok h) =
  d1 ← layer_digest hashes c; d2 ← layer_digest hashes (zeros (slen c)); Ok (ids ++ [d1; d2]).
Proof.
  intros Hdir Hw. unfold entry_layers. cbn [mbind res_bind]. rw Hdir. cbn [range_res]. unfold add_layer. cbn [fst snd].
  rw !bool_decide_eq_true_2; [|done..]. destruct (whole_first h c Hw) as [-> ->]. cbn [mbind res_bind].
  destruct (layer_digest hashes c) as [d1| |]; [|done..]. cbn [mbind res_bind fst snd].
  destruct (whole_again h c 0 Hw) as [-> ->]. cbn [mbind res_bind].
  destruct (layer_digest hashes (zeros (slen c))) as [d2| |]; cbn; [|done..]. by rw -assoc_L.
Qed.
End oci.

(** * Examples *)

(** An entry that holds [c]. *)
Definition toy_entry (name c : string) : TarEntry :=
  mkEntry name (slen c) false (λ n, match n with 0 => (c, ReadOk) | S _ => ("", ReadEOF) end).
Definition toy_files : list (TarEntry * bytes) :=
  (λ nc, (toy_entry nc.1 nc.2, nc.2)) <$> [("l2", "two"); ("manifest.json", "m"); ("config", "cfg"); ("l1", "one")].
#[local] Instance toy_tar : TarLib :=
  {| tar_Entries b := Ok <$> toy_files.*1; gzip_ReadAll b := Err (External "gzip"); DetectContentType b := "text/plain" |}.
Definition toy_manifest (layers : list string) (_ : bytes) (_ : list Manifest) : list Manifest * err :=
  ([mkManifest "config" ["app:1"] layers], nil_error).
Definition toy_image : FileSystem := files_of [] [] [("app.tar", "tar")].
Definition toy_tar_ctx : AttestationContext unit := toy_ctx [("app.tar", toy_product "application/x-tar" "tar")].
Definition toy_digest (c : bytes) : DigestSet :=
  match CalculateDigestSetFromBytes c [sha256] with Ok d => d | _ => ∅ end.

Lemma toy_archive : archive (Ok <$> toy_files.*1) toy_files.
Proof. split; [done|]. repeat constructor; by intros. Qed.

Abbreviation toy_attested := (Attest (FS:=toy_image) (toy_manifest ["l1"; "l2"]) toy_tar_ctx New).
Lemma Oci_Attest_spec_witness : toy_attested = (toy_attested.1, Ok tt) ∧
  ManifestRaw toy_attested.1 = "m" ∧ ImageTags toy_attested.1 = ["app:1"] ∧
  LayerDiffIDs toy_attested.1 = [toy_digest "two"; toy_digest "one"].
Proof.
  assert (toy_attested = (toy_attested.1, Ok tt)) as Ha by (apply pair_of_snd; vm_compute; reflexivity).
  split; [exact Ha|].
  destruct (Oci_Attest_spec (FS:=toy_image) (toy_manifest ["l1"; "l2"]) toy_tar_ctx _ Ha)
    as (path & product & es & m & ms & Hp & _ & _ & _ & He & _ & Hm & _ & Ht & Hfiles).
  unfold toy_manifest in Hm. injection Hm as <- <-.
  change ((<["app.tar" := toy_product "application/x-tar" "tar"]> (∅ : gmap string Product)) !! path = Some product) in Hp.
  apply lookup_insert_Some in Hp as [[<- _]|[_ Hp]]; [|discriminate Hp].
  assert (es = Ok <$> toy_files.*1) as -> by (injection He as <-; reflexivity).
  destruct (Hfiles toy_files toy_archive) as (Hraw & _ & _).
  split; [exact Hraw|]. split; [exact Ht|vm_compute; reflexivity].
Defined.

(** A manifest without images ends the attestor with a panic. *)
Theorem Oci_empty_manifest : ∃ a w, Attest (FS:=toy_image) (λ _ _, ([], nil_error)) toy_tar_ctx New = (a, Panic w).
Proof. do 2 eexists. vm_compute. reflexivity. Qed.

(** Nothing is said of layers that the archive does not hold. *)
Theorem Oci_missing_layer : ∃ a,
  Attest (FS:=toy_image) (toy_manifest ["l1"; "l3"]) toy_tar_ctx New = (a, Ok tt) ∧ LayerDiffIDs a = [toy_digest "one"].
Proof. eexists. split; [vm_compute; reflexivity|]. vm_compute. reflexivity. Qed.
