(* ===== verification/PackageTheorems.v ===== *)
(** The attestors of packages (Packages.v): what is recorded of lock files and of
    the packages of the system. *)
From S2P Require Import Prelude GoStrings GoText Errors Crypto Digest Toy Paths File Registry Attestation Constraints Environment Hooks Context Host FileTheorems Documents CI CITheorems Images DocumentTheorems Packages.
From stdpp Require Import options.

#[local] Unset Default Proof Using.

(** * Lines *)

Lemma drop_cr_free s : byte_free carriage_return s = true → drop_cr s = s.
Proof.
  induction s as [|x s IH]; [done|]. cbn [byte_free]. intros [Hx%negb_true_iff Hs]%andb_true_iff.
  destruct s as [|y s]; [cbn; by rw Hx|]. change (String x (drop_cr (String y s)) = String x (String y s)). by rw IH.
Qed.
Lemma drop_cr_cons x s : s ≠ "" → drop_cr (String x s) = String x (drop_cr s).
Proof. by destruct s. Qed.
Lemma drop_cr_app a c b : drop_cr (a +:+ String c b) = a +:+ drop_cr (String c b).
Proof.
  induction a as [|x a IH]; [done|]. rw !string_app_cons drop_cr_cons; [by rw IH|].
  destruct a; [done|by rw string_app_cons].
Qed.

Lemma scan_lines_cons a l : l ≠ [] → slen a < MaxScanTokenSize →
  scan_lines (a :: l) = (drop_cr a :: (scan_lines l).1, (scan_lines l).2).
Proof.
  intros Hl Ha. destruct l as [|b l]; [done|]. change (scan_lines (a :: b :: l)) with
    (if bool_decide (MaxScanTokenSize ≤ slen a) then ([], Some (External "bufio.Scanner: token too long"))
     else let (lines, e) := scan_lines (b :: l) in (drop_cr a :: lines, e)).
  rw bool_decide_eq_false_2; [|lia]. by destruct (scan_lines (b :: l)).
Qed.
Lemma scan_lines_long a l : MaxScanTokenSize ≤ slen a →
  scan_lines (a :: l) = ([], Some (External "bufio.Scanner: token too long")).
Proof.
  intros Ha. destruct l as [|b l]; unfold scan_lines; [|by rw bool_decide_eq_true_2].
  rw bool_decide_eq_false_2; [by rw bool_decide_eq_true_2|]. intros ->. by apply Nat.leb_le in Ha.
Qed.

#[local] Opaque MaxScanTokenSize.

(** * Lists of packages *)
Section packages.
Import SystemPackages.

(** What rpm and dpkg-query print of packages in the formats they are given. *)
Definition render_line (p : Package) : string := pkg_Name p +:+ String tab (pkg_Version p).
Definition render (ps : list Package) (rest : string) : string :=
  foldr (λ p acc, render_line p +:+ String line_feed acc) rest ps.
(** Names and versions that fit a line of the list. *)
Definition printable (s : string) : bool :=
  byte_free tab s && byte_free line_feed s && byte_free carriage_return s.
Definition fits (p : Package) : Prop :=
  printable (pkg_Name p) = true ∧ printable (pkg_Version p) = true ∧ slen (render_line p) < MaxScanTokenSize.

Lemma printable_free s : printable s = true →
  byte_free tab s = true ∧ byte_free line_feed s = true ∧ byte_free carriage_return s = true.
Proof. unfold printable. by intros [[? ?]%andb_true_iff ?]%andb_true_iff. Qed.

Lemma package_line_render ps p : fits p → package_line ps (drop_cr (render_line p)) = ps ++ [p].
Proof.
  intros (Hn & Hv & _). apply printable_free in Hn as (Ht & _ & _), Hv as (Hvt & _ & Hcr).
  unfold render_line. rw drop_cr_app drop_cr_free; [|by cbn [byte_free]; rw Hcr].
  unfold package_line. rw SplitByte_cons_free; [|done]. rw SplitByte_free; [|done]. by destruct p.
Qed.

Lemma Scan_render ps rest : Forall fits ps →
  Scan (render ps rest) = ((drop_cr ∘ render_line <$> ps) ++ (Scan rest).1, (Scan rest).2).
Proof.
  unfold Scan. induction 1 as [|p ps Hp Hps IH]; [by destruct (scan_lines _)|]. cbn [render foldr].
  pose proof Hp as (Hn & Hv & Hlen). apply printable_free in Hn as (_ & Hn & _), Hv as (_ & Hv & _).
  rw SplitByte_cons_free.
  - rw scan_lines_cons; [|apply SplitByte_ne_nil|done]. fold (render ps rest). by rw IH.
  - unfold render_line. rw byte_free_app Hn. cbn [byte_free andb]. by rw Hv.
Qed.

Lemma package_lines_render acc ps : Forall fits ps → foldl package_line acc (drop_cr ∘ render_line <$> ps) = acc ++ ps.
Proof.
  intros Hps. revert acc. induction Hps as [|p ps Hp Hps IH]; intros acc; cbn; [by rw right_id_L|].
  rw package_line_render; [|done]. by rw IH -assoc_L.
Qed.

(** The packages that rpm and dpkg-query print, line by line in the formats that
    the backends ask for, are read back as the list of packages, when names and
    versions have no tab and no line end and a line fits the scanner's buffer. *)
Theorem packages_roundtrip cmd path ps : Forall fits ps →
  (cmd "rpm" ["-qa"; "--qf"; "%{NAME}" +:+ String tab "%{VERSION}" +:+ nl] = Ok (render ps "") →
   GatherPackages (NewRPMBackend cmd path) = Ok ps ∧ GatherPackages (NewRedHatBackend cmd path) = Ok ps) ∧
  (cmd "dpkg-query" ["-W"; "-f"; "${Package}" +:+ String tab "${Version}" +:+ nl] = Ok (render ps "") →
   GatherPackages (NewDebianBackend cmd path) = Ok ps ∧ GatherPackages (NewUbuntuBackend cmd path) = Ok ps).
Proof.
  intros Hps. assert (Scan (render ps "") = (drop_cr ∘ render_line <$> ps, None)) as Hs.
  { rw (Scan_render _ _ Hps). cbn. by rw right_id_L. }
  assert (foldl package_line [] (drop_cr ∘ render_line <$> ps) = ps) as Hf by apply (package_lines_render [] _ Hps).
  split; intros Hcmd; (split; unfold GatherPackages, rpm_GatherPackages, debian_GatherPackages; cbn; rw Hcmd; cbn; rw Hs; by rw Hf).
Qed.

(** A line that does not fit the scanner's buffer ends the list: rpm's backend says
    so, dpkg's returns the packages before it as if they were all. *)
Theorem packages_long_line cmd path ps line rest :
  Forall fits ps → byte_free line_feed line = true → MaxScanTokenSize ≤ slen line →
  (cmd "rpm" ["-qa"; "--qf"; "%{NAME}" +:+ String tab "%{VERSION}" +:+ nl] = Ok (render ps (line +:+ String line_feed rest)) →
   ∃ e, GatherPackages (NewRPMBackend cmd path) = Err e) ∧
  (cmd "dpkg-query" ["-W"; "-f"; "${Package}" +:+ String tab "${Version}" +:+ nl] = Ok (render ps (line +:+ String line_feed rest)) →
   GatherPackages (NewDebianBackend cmd path) = Ok ps).
Proof.
  intros Hps Hl Hlong.
  assert (Scan (line +:+ String line_feed rest) = ([], Some (External "bufio.Scanner: token too long"))) as Hr.
  { unfold Scan. rw SplitByte_cons_free; [|done]. by rw scan_lines_long. }
  split; intros Hcmd; unfold GatherPackages, rpm_GatherPackages, debian_GatherPackages; cbn; rw Hcmd; cbn; rw (Scan_render _ _ Hps) Hr; cbn.
  - by eexists.
  - rw right_id_L. by rw (package_lines_render [] _ Hps).
Qed.
End packages.

(** * Lock files *)
Section lockfiles.
Context `{CL : CryptoLib} `{GI : GitoidLib} `{FS : FileSystem}.
Import Lockfiles.

(** The file [path] is recorded as it is. *)
Definition recorded (path : string) (info : LockfileInfo) : Prop :=
  os_ReadFile path = Ok (Content info) ∧ Filename info = Base path ∧
  CalculateDigestSetFromBytes (Content info) [mkDV SHA256 false false] = Ok (lock_Digest info).

Lemma add_matches_ok matches a a' : add_matches matches a = (a', nil_error) →
  ∃ new, Lockfiles a' = Lockfiles a ++ new ∧ Forall2 recorded matches new.
Proof.
  revert a. induction matches as [|m matches IH]; intros a; cbn [add_matches].
  { intros [= <-]. exists []. by rw right_id_L. }
  destruct (content ← _; _) as [info| |] eqn:Hm; [|done..]. intros (new & Hnew & Hrec)%IH.
  exists (info :: new). rw Hnew. cbn [Lockfiles]. rw -assoc_L. split; [done|]. constructor; [|done].
  res_inv. by split_and!.
Qed.

Lemma add_patterns_ok patterns a a' : add_patterns patterns a = (a', nil_error) →
  ∃ new, Lockfiles a' = Lockfiles a ++ new ∧
    Forall2 recorded (filter (λ p, is_ok (os_Lstat p) = true) patterns) new.
Proof.
  revert a. induction patterns as [|p patterns IH]; intros a; cbn [add_patterns].
  { intros [= <-]. exists []. by rw right_id_L. }
  unfold filepath_Glob. cbn [wrap]. rw filter_cons. destruct (is_ok (os_Lstat p)) eqn:Hp.
  - destruct (add_matches [p] a) as [a1 [[]| |]] eqn:Hm; [|done..]. intros (new & -> & Hnew)%IH.
    apply add_matches_ok in Hm as (new1 & -> & H1). exists (new1 ++ new). rw -assoc_L. split; [done|].
    case_decide; [|done]. by apply (Forall2_app H1 Hnew).
  - intros (new & -> & Hnew)%IH. exists new. split; [done|]. by case_decide.
Qed.

(** A lock file attestor that succeeds records the lock files of the directory
    the process runs in, those of its patterns that are there, in their order, each
    with its name, its contents and their SHA-256, and each is a subject with that
    digest. *)
Theorem Lockfiles_Attest_spec a a' : Attest a = (a', nil_error) →
  Forall2 recorded (filter (λ p, is_ok (os_Lstat p) = true) lockfilePatterns) (Lockfiles a') ∧
  ∀ k ds, Subjects a' !! k = Some ds ↔
    ∃ info, info ∈ Lockfiles a' ∧ k = "file:" +:+ Filename info ∧ ds = lock_Digest info.
Proof.
  unfold Attest. intros (new & Hnew & Hrec)%add_patterns_ok. cbn in Hnew. rw Hnew. split; [done|].
  assert (NoDup (Filename <$> new)) as Hnd.
  { assert (Filename <$> new = Base <$> filter (λ p, is_ok (os_Lstat p) = true) lockfilePatterns) as ->.
    { clear -Hrec. induction Hrec as [|p info ps infos (_ & Hn & _) _ IH]; [done|]. cbn. by rw Hn IH. }
    assert (NoDup (Base <$> lockfilePatterns)) as Hb by (apply (bool_decide_unpack _); vm_compute; exact I).
    eapply sublist_NoDup; [exact Hb|]. apply fmap_sublist, sublist_filter. }
  intros k ds. unfold Subjects. rw Hnew. clear -Hnd.
  enough (∀ (m : gmap string DigestSet), (∀ i, i ∈ new → m !! ("file:" +:+ Filename i) = None) →
    foldl (λ (subjects : gmap string DigestSet) lockfile, <["file:" +:+ Filename lockfile := lock_Digest lockfile]> subjects) m new !! k = Some ds ↔
    m !! k = Some ds ∨ ∃ info, info ∈ new ∧ k = "file:" +:+ Filename info ∧ ds = lock_Digest info) as Hm.
  { rw Hm; [|done]. rw lookup_empty. naive_solver. }
  induction new as [|i new IH]; intros m Hm; cbn [foldl].
  { split; [by left|]. intros [?|(? & []%not_elem_of_nil & _)]. done. }
  rw fmap_cons in Hnd. apply NoDup_cons in Hnd as [Hi Hnd]. rw IH; [|done|].
  - rw lookup_insert_Some. setoid_rewrite elem_of_cons. specialize (Hm i (list_elem_of_here _ _)).
    split; [|naive_solver congruence]. intros [[[<- <-]|[_ ?]]|(info & ? & -> & ->)]; naive_solver.
  - intros j Hj. rw lookup_insert_ne; [apply Hm; by right|]. intros [= Heq]. rw !string_app_nil_l in Heq. apply Hi. rw Heq. by apply list_elem_of_fmap_2.
Qed.
End lockfiles.

(** * Maven *)
Section maven.
Context `{CL : CryptoLib} `{GI : GitoidLib}.
Variable sha256 : bytes → bytes.
Hypothesis sha256_linked : hash_sum SHA256 = Some sha256.
Import Maven.

(** The coordinates of a dependency. *)
Definition dependency_name (dep : MavenDependency) : string :=
  coordinates "dependency" (dep_GroupId dep) (dep_ArtifactId dep) (dep_Version dep).

(** The subjects of a project are its own coordinates and those of its dependencies,
    each with the SHA-256 of that very name; the project file is not one of them. *)
Theorem Maven_Subjects_spec a : ∃ subjects, Subjects a = Ok subjects ∧
  ∀ k ds, subjects !! k = Some ds ↔
    ds = sha256_set sha256 k ∧
    (k = coordinates "project" (GroupId a) (ArtifactId a) (Version a) ∨ ∃ dep, dep ∈ Dependencies a ∧ k = dependency_name dep).
Proof using sha256_linked.
  unfold Subjects. rw (CalculateDigestSet_sha256 sha256); [|done]. cbn [mbind res_bind].
  set (P := coordinates "project" _ _ _).
  enough (∀ (m : gmap string DigestSet) deps, ∃ subjects, range_res add_dependency m deps = Ok subjects ∧
    ∀ k ds, (∀ k' ds', m !! k' = Some ds' → ds' = sha256_set sha256 k') →
      subjects !! k = Some ds ↔ ds = sha256_set sha256 k ∧ (is_Some (m !! k) ∨ ∃ dep, dep ∈ deps ∧ k = dependency_name dep)) as H.
  { destruct (H {[P := sha256_set sha256 P]} (Dependencies a)) as (subjects & -> & Hs). exists subjects. split; [done|].
    intros k ds. rw Hs; [|by intros ? ? [<- <-]%lookup_singleton_Some]. rw lookup_singleton_is_Some. naive_solver. }
  intros m deps. revert m. induction deps as [|dep deps IH]; intros m.
  - exists m. split; [done|]. intros k ds Hm. split.
    + intros Hk. split; [by apply Hm|]. left. by exists ds.
    + intros [-> [[ds' Hk]|(? & []%not_elem_of_nil & _)]]. by rw Hk (Hm _ _ Hk).
  - cbn [range_res].
    assert (add_dependency m dep = Ok (<[dependency_name dep := sha256_set sha256 (dependency_name dep)]> m)) as ->.
    { unfold add_dependency. by rw (CalculateDigestSet_sha256 sha256). }
    cbn [mbind res_bind].
    destruct (IH (<[dependency_name dep := sha256_set sha256 (dependency_name dep)]> m)) as (subjects & -> & Hs).
    exists subjects. split; [done|]. intros k ds Hm. rw Hs.
    + rw lookup_insert_is_Some. setoid_rewrite elem_of_cons. destruct (decide (dependency_name dep = k)); naive_solver.
    + intros k' ds' [[<- <-]|[_ ?]]%lookup_insert_Some; [done|by apply Hm].
Qed.
End maven.

(** * Examples *)

Definition toy_packages : list SystemPackages.Package :=
  [SystemPackages.mkPackage "bash" "5.2"; SystemPackages.mkPackage "zlib" "1:1.3"].
Definition toy_command (out : bytes) : SystemPackages.ExecCommand := λ _ _, Ok out.

Lemma packages_roundtrip_witness :
  SystemPackages.GatherPackages (SystemPackages.NewRPMBackend (toy_command (render toy_packages "")) "") = Ok toy_packages.
Proof.
  assert (Forall fits toy_packages) as Hf
    by (repeat constructor; apply Nat.ltb_lt; vm_compute; reflexivity).
  exact (proj1 (proj1 (packages_roundtrip (toy_command (render toy_packages "")) "" toy_packages Hf) eq_refl)).
Defined.

(** A directory with two of the lock files and other files. *)
Definition toy_locks : FileSystem := files_of [("go.sum", a_file); ("main.go", a_file); ("yarn.lock", a_file)] [] [("go.sum", "s"); ("main.go", "m"); ("yarn.lock", "y")].

Lemma Lockfiles_Attest_spec_witness : ∃ a,
  Lockfiles.Attest (FS:=toy_locks) Lockfiles.NewLockfilesAttestor = (a, nil_error) ∧
  Lockfiles.Content <$> Lockfiles.Lockfiles a = ["y"; "s"] ∧
  is_Some (Lockfiles.Subjects a !! "file:go.sum").
Proof.
  eassert (Lockfiles.Attest (FS:=toy_locks) Lockfiles.NewLockfilesAttestor = (_, nil_error)) as Ha by (vm_compute; reflexivity).
  eexists. split; [exact Ha|].
  destruct (Lockfiles_Attest_spec (FS:=toy_locks) _ _ Ha) as [_ Hs]. split; [reflexivity|].
  eexists. apply Hs. eexists. split; [|split; [|reflexivity]]; [right; left|reflexivity].
Defined.

(** A distribution by its ID in /etc/os-release. *)
Definition toy_os (release : string) : FileSystem := files_of [] [] [(SystemPackages.osReleasePath, release)].
Definition is_rpm (b : option SystemPackages.Backend) : bool :=
  match b with Some (SystemPackages.RPM _ | SystemPackages.RedHat _) => true | _ => false end.

(** The names of rpm distributions are not the IDs that os-release has for all of
    them: those of AlmaLinux, Oracle Linux, Amazon Linux and openSUSE Leap are taken
    for distributions of dpkg. *)
Theorem rpm_distributions_missed :
  (λ id, is_rpm (SystemPackages.backend
     (SystemPackages.NewSystemPackagesAttestor (FS:=toy_os ("ID=" +:+ String SystemPackages.quote (id +:+ String SystemPackages.quote nl))) (toy_command ""))))
  <$> ["fedora"; "rhel"; "almalinux"; "ol"; "amzn"; "opensuse-leap"] = [true; true; false; false; false; false].
Proof. vm_compute. reflexivity. Qed.
