(* ===== verification/Provenance.v ===== *)
(** attestation/link/link.go and attestation/slsa/slsa.go: the attestors that turn
    the completed attestors into an in-toto link and a SLSA provenance (Modules
    Link and Slsa), through the interfaces that they look for. *)
From S2P Require Import Prelude Receiver GoStrings GoText Errors Crypto Digest Paths Registry Attestation Constraints Environment Hooks Context Host CI Git Ptrace CommandRun Product.
From stdpp Require Import options.

(** ** What the attestors of the in-toto link and of the SLSA provenance (Link.v and
    Slsa.v) share: resource descriptors, and their view of the other attestors.

    The messages of the in-toto attestation library are records; a message that is
    not there is [None]. [structpb.NewStruct] is the class [StructLib]. *)
(** What goes into a struct: strings, and maps of strings. *)
Inductive pb_value := PbString (s : string) | PbMap (m : gmap string string).
Class StructLib := {
  Struct : Type;
  NewStruct : gmap string pb_value → res Struct;
}.

(** The digests are nil when the digest set has no names. *)
Record ResourceDescriptor := mkRD { rd_Name : string; rd_Digest : gmap string string }.

(** [digests, _ := digestSet.ToNameMap()] *)
Definition names_or_nil `{RO : RangeOrder} (ds : DigestSet) : gmap string string :=
  match ToNameMap ds with Ok m => m | _ => ∅ end.

(** A digest set of each material, in the order of the range. *)
Definition descriptors `{RO : RangeOrder} (mats : gmap string DigestSet) : list ResourceDescriptor :=
  (λ kv, mkRD kv.1 (names_or_nil kv.2)) <$> range_map 12 mats.

(** The interfaces of the other attestors, as assertions on the dynamic types:
    the inner option of a [Data] is a nil pointer. *)
Class ProvenanceViews (A : Type) `{JL : JoseLib} `{CB : CodeBuildApi} := {
  CommandRun_Data : A → option (option CommandRun.CommandRun);
  Material_Materials : A → option (gmap string DigestSet);
  Environment_Data : A → option (option EnvAttestor);
  Product_Products : A → option (gmap string Product);
  Git_Data : A → option (option Git.Attestor);
  GitHub_Data : A → option (option GitHub.Attestor);
  GitLab_Data : A → option (option GitLab.Attestor);
  Jenkins_Data : A → option (option Jenkins.Attestor);
  CodeBuild_Data : A → option (option CodeBuild.Attestor);
}.

(** [attestor.(Iface)], which panics on another type, and [Data()] dereferenced. *)
Definition must {X} (iface : string) (o : option X) : res X :=
  match o with Some x => Ok x | None => Panic ("interface conversion: not " +:+ iface) end.
Definition deref {X} (o : option X) : res X :=
  match o with Some x => Ok x | None => Panic "nil pointer dereference" end.
Definition data_of {X} (iface : string) (o : option (option X)) : res X := d ← must iface o; deref d.

(** The names of the attestors that are looked for, next to those of the modules
    modelled elsewhere. *)
Definition environment_Name : string := "environment".
Definition oci_Name : string := "oci".

(** ** attestation/link/link.go: the in-toto link that is made of what the other attestors
    recorded. *)
Module Link.

Definition Name : string := "link".
Definition Type_ : string := "https://in-toto.io/attestation/link/v0.3".
Definition RunType : string := PostProductRunType.
Definition defaultExport : bool := false.

Section link.
Context `{RO : RangeOrder} `{SL : StructLib} `{JL : JoseLib} `{CB : CodeBuildApi}.
Context {A : Type} `{AO : AttestorOps A} `{PV : !ProvenanceViews A}.

Record PbLink := mkPbLink {
  link_Name : string;
  link_Command : list string;
  link_Materials : list ResourceDescriptor;
  link_Environment : option Struct;
}.
Record Link := mkLink { pbLink : PbLink; products : gmap string Product; export : bool }.

Definition Option := Link → Link.
Definition WithExport (b : bool) : Option := λ l, mkLink (pbLink l) (products l) b.
Definition New : Link := mkLink (mkPbLink "" [] [] None) ∅ false.
Definition Export (l : Link) : bool := export l.

Definition set_Name (l : Link) (name : string) : Link :=
  mkLink (mkPbLink name (link_Command (pbLink l)) (link_Materials (pbLink l)) (link_Environment (pbLink l)))
    (products l) (export l).
Definition set_Command (l : Link) (cmd : list string) : Link :=
  mkLink (mkPbLink (link_Name (pbLink l)) cmd (link_Materials (pbLink l)) (link_Environment (pbLink l)))
    (products l) (export l).
Definition add_Materials (l : Link) (mats : list ResourceDescriptor) : Link :=
  mkLink (mkPbLink (link_Name (pbLink l)) (link_Command (pbLink l)) (link_Materials (pbLink l) ++ mats)
            (link_Environment (pbLink l))) (products l) (export l).
Definition set_Environment (l : Link) (env : option Struct) : Link :=
  mkLink (mkPbLink (link_Name (pbLink l)) (link_Command (pbLink l)) (link_Materials (pbLink l)) env)
    (products l) (export l).
Definition set_products (l : Link) (ps : gmap string Product) : Link := mkLink (pbLink l) ps (export l).

(** One case of the switch in [Attest]. An environment that cannot become a
    struct leaves nil. *)
Definition add_attestor (c : CompletedAttestor A) : recv Link unit :=
  let a := comp_Attestor c in
  let name := Attestor_Name a in
  if bool_decide (name = CommandRun.Name) then
    data ← call (data_of "CommandRunAttestor" (CommandRun_Data a));
    assign (λ l, set_Command l (CommandRun.Cmd data))
  else if bool_decide (name = Material.Name) then
    mats ← call (must "MaterialAttestor" (Material_Materials a));
    assign (λ l, add_Materials l (descriptors mats))
  else if bool_decide (name = environment_Name) then
    data ← call (data_of "EnvironmentAttestor" (Environment_Data a));
    let s := NewStruct (PbString <$> ea_Variables data) in
    _ ← assign (λ l, set_Environment l (match s with Ok s => Some s | _ => None end));
    _ ← call s; mret tt
  else if bool_decide (name = Product.ProductName) then
    ps ← call (must "ProductAttestor" (Product_Products a));
    assign (λ l, set_products l ps)
  else mret tt.

Definition Attest (ctx : AttestationContext A) : recv Link unit :=
  _ ← assign (λ l, set_Name l (ctx_stepName ctx));
  for_each add_attestor (CompletedAttestors ctx).

(** Over encoding/json on the message. *)
Definition MarshalJSON (json_Marshal : PbLink → res bytes) (l : Link) : res bytes := json_Marshal (pbLink l).
Definition UnmarshalJSON (json_Unmarshal : bytes → PbLink → PbLink * err) (data : bytes) : recv Link unit :=
  λ l, let (pb, e) := json_Unmarshal data (pbLink l) in (mkLink pb (products l) (export l), e).

Definition Subjects (l : Link) : gmap string DigestSet :=
  copy_into 13 (λ productName, "file:" +:+ productName) prod_Digest ∅ (products l).
End link.
End Link.

(** ** attestation/slsa/slsa.go: the SLSA provenance that is made of what the other
    attestors recorded. *)
Module Slsa.

Definition Name : string := "slsa".
Definition Type_ : string := "https://slsa.dev/provenance/v1.0".
Definition RunType : string := PostProductRunType.
Definition defaultExport : bool := false.
Definition BuildType : string := "https://witness.dev/slsa-build@v0.1".
Definition DefaultBuilderId : string := "https://witness.dev/witness-default-builder@v0.1".
Definition GHABuilderId : string := "https://witness.dev/witness-github-action-builder@v0.1".
Definition GLCBuilderId : string := "https://witness.dev/witness-gitlab-component-builder@v0.1".
Definition JenkinsBuilderId : string := "https://witness.dev/witness-jenkins-component-builder@v0.1".
Definition AWSCodeBuildBuilderId : string := "https://witness.dev/witness-aws-codebuild-builder@v0.1".

Section slsa.
Context `{RO : RangeOrder} `{SL : StructLib} `{JL : JoseLib} `{CB : CodeBuildApi}.
Context {A : Type} `{AO : AttestorOps A} `{PV : !ProvenanceViews A}.

Record BuildDefinition := mkBuildDefinition {
  bd_BuildType : string;
  bd_ExternalParameters : option Struct;
  bd_InternalParameters : option Struct;
  bd_ResolvedDependencies : list ResourceDescriptor;
}.
Record RunDetails := mkRunDetails {
  builder_Id : string;
  md_InvocationId : string;
  md_StartedOn : option Time;
  md_FinishedOn : option Time;
}.
Record Provenance := mkProvenance {
  BuildDefinition_ : option BuildDefinition;
  RunDetails_ : option RunDetails;
  products : option (gmap string Product);
  subjects : option (gmap string DigestSet);
  export : bool;
}.

Definition Option := Provenance → Provenance.
Definition WithExport (b : bool) : Option := λ p,
  mkProvenance (BuildDefinition_ p) (RunDetails_ p) (products p) (subjects p) b.
Definition New : Provenance := mkProvenance None None None None false.
Definition Export (p : Provenance) : bool := export p.

(** What [Attest] fills in: the two messages and the internal parameters, next to
    the products and subjects of the attestor. *)
Record filling := mkFilling {
  f_bd : BuildDefinition;
  f_rd : RunDetails;
  f_internal : gmap string pb_value;
  f_products : option (gmap string Product);
  f_subjects : option (gmap string DigestSet);
}.
Definition set_builder (f : filling) (id invocation : string) : filling :=
  mkFilling (f_bd f) (mkRunDetails id invocation (md_StartedOn (f_rd f)) (md_FinishedOn (f_rd f)))
    (f_internal f) (f_products f) (f_subjects f).
Definition set_times (f : filling) (start finish : Time) : filling :=
  mkFilling (f_bd f) (mkRunDetails (builder_Id (f_rd f)) (md_InvocationId (f_rd f)) (Some start) (Some finish))
    (f_internal f) (f_products f) (f_subjects f).
Definition set_external (f : filling) (s : option Struct) : filling :=
  mkFilling (mkBuildDefinition (bd_BuildType (f_bd f)) s (bd_InternalParameters (f_bd f)) (bd_ResolvedDependencies (f_bd f)))
    (f_rd f) (f_internal f) (f_products f) (f_subjects f).
Definition set_internal (f : filling) (s : option Struct) : filling :=
  mkFilling (mkBuildDefinition (bd_BuildType (f_bd f)) (bd_ExternalParameters (f_bd f)) s (bd_ResolvedDependencies (f_bd f)))
    (f_rd f) (f_internal f) (f_products f) (f_subjects f).
Definition add_dependencies (f : filling) (deps : list ResourceDescriptor) : filling :=
  mkFilling (mkBuildDefinition (bd_BuildType (f_bd f)) (bd_ExternalParameters (f_bd f)) (bd_InternalParameters (f_bd f))
               (bd_ResolvedDependencies (f_bd f) ++ deps))
    (f_rd f) (f_internal f) (f_products f) (f_subjects f).
Definition set_env (f : filling) (env : gmap string string) : filling :=
  mkFilling (f_bd f) (f_rd f) (<["env" := PbMap env]> (f_internal f)) (f_products f) (f_subjects f).
Definition set_artifacts (f : filling) (ps : option (gmap string Product)) (ss : option (gmap string DigestSet)) : filling :=
  mkFilling (f_bd f) (f_rd f) (f_internal f) ps ss.

(** [if m == nil { m = new } else { for k, v := range new { m[k] = v } }] *)
Definition merge_into {V} (m : option (gmap string V)) (new : gmap string V) : option (gmap string V) :=
  match m with None => Some new | Some m => Some (copy_into 14 id id m new) end.

(** The claim "sha" is read, and asserted to be a string, but not used. *)
Definition read_sha_github (j : option Jwt.Attestor) : res unit :=
  match j with
  | None => Ok tt
  | Some j => match Jwt.Claims j !! "sha" with
              | Some (JString _) => Ok tt
              | _ => Panic "interface conversion: claim sha is not string"
              end
  end.
Definition read_sha_gitlab (j : option Jwt.Attestor) : res unit :=
  match j with
  | None => Ok tt
  | Some j => match Jwt.Claims j !! "sha" with
              | None | Some (JString _) => Ok tt
              | _ => Panic "interface conversion: claim sha is not string"
              end
  end.

(** One case of the switch in [Attest]. *)
Definition add_attestor (ctx : AttestationContext A) (c : CompletedAttestor A) : recv filling unit :=
  let a := comp_Attestor c in
  let name := Attestor_Name a in
  if bool_decide (name = environment_Name) then
    data ← call (data_of "EnvironmentAttestor" (Environment_Data a));
    assign (λ f, set_env f (ea_Variables data))
  else if bool_decide (name = Git.Name) then
    data ← call (data_of "GitAttestor" (Git_Data a));
    assign (λ f, add_dependencies f ((λ remote, mkRD remote (names_or_nil (Git.CommitDigest data))) <$> Git.Remotes data))
  else if bool_decide (name = GitHub.Name) then
    d ← call (must "GitHubAttestor" (GitHub_Data a));
    _ ← assign (λ f, set_builder f GHABuilderId (md_InvocationId (f_rd f)));
    data ← call (deref d);
    _ ← assign (λ f, set_builder f GHABuilderId (GitHub.PipelineUrl data));
    call (read_sha_github (GitHub.JWT data))
  else if bool_decide (name = GitLab.Name) then
    d ← call (must "GitLabAttestor" (GitLab_Data a));
    _ ← assign (λ f, set_builder f GLCBuilderId (md_InvocationId (f_rd f)));
    data ← call (deref d);
    _ ← assign (λ f, set_builder f GLCBuilderId (GitLab.PipelineUrl data));
    call (read_sha_gitlab (GitLab.JWT data))
  else if bool_decide (name = Jenkins.Name) then
    d ← call (must "JenkinsAttestor" (Jenkins_Data a));
    _ ← assign (λ f, set_builder f JenkinsBuilderId (md_InvocationId (f_rd f)));
    data ← call (deref d);
    assign (λ f, set_builder f JenkinsBuilderId (Jenkins.PipelineUrl data))
  else if bool_decide (name = CodeBuild.Name) then
    d ← call (must "AWSCodeBuildAttestor" (CodeBuild_Data a));
    _ ← assign (λ f, set_builder f AWSCodeBuildBuilderId (md_InvocationId (f_rd f)));
    data ← call (deref d);
    assign (λ f, set_builder f AWSCodeBuildBuilderId (CodeBuild.BuildARN (CodeBuild.Info data)))
  else if bool_decide (name = Material.Name) then
    mats ← call (must "MaterialAttestor" (Material_Materials a));
    assign (λ f, add_dependencies f (descriptors mats))
  else if bool_decide (name = CommandRun.Name) then
    data ← call (data_of "CommandRunAttestor" (CommandRun_Data a));
    let s := NewStruct {["command" := PbString (Join (CommandRun.Cmd data) " ")]} in
    _ ← assign (λ f, set_external f (match s with Ok s => Some s | _ => None end));
    _ ← call s;
    assign (λ f, set_times f (comp_StartTime c) (comp_EndTime c))
  else if bool_decide (name = Product.ProductName) then
    _ ← assign (λ f, set_artifacts f (merge_into (f_products f) (ctx_Products ctx)) (f_subjects f));
    ss ← call (must "Subjecter" (Subjecter_Subjects a));
    assign (λ f, set_artifacts f (f_products f) (merge_into (f_subjects f) ss))
  else if bool_decide (name = oci_Name) then
    ss ← call (must "Subjecter" (Subjecter_Subjects a));
    assign (λ f, set_artifacts f (f_products f) (merge_into (f_subjects f) ss))
  else mret tt.

Definition fill (ctx : AttestationContext A) : recv filling unit :=
  _ ← for_each (add_attestor ctx) (CompletedAttestors ctx);
  f ← self;
  let s := NewStruct (f_internal f) in
  _ ← assign (λ f, set_internal f (match s with Ok s => Some s | _ => None end));
  _ ← call s; mret tt.

Definition Attest (ctx : AttestationContext A) : recv Provenance unit := λ p,
  let f := mkFilling (mkBuildDefinition BuildType None None []) (mkRunDetails DefaultBuilderId "" None None) ∅
             (products p) (subjects p) in
  let (f, r) := fill ctx f in
  (mkProvenance (Some (f_bd f)) (Some (f_rd f)) (f_products f) (f_subjects f) (export p), r).

(** Over encoding/json on the message; the products and subjects are not encoded. *)
Definition MarshalJSON (json_Marshal : option BuildDefinition → option RunDetails → res bytes) (p : Provenance) : res bytes :=
  json_Marshal (BuildDefinition_ p) (RunDetails_ p).
Definition UnmarshalJSON
    (json_Unmarshal : bytes → option BuildDefinition → option RunDetails → option BuildDefinition * option RunDetails * err) (data : bytes)
    : recv Provenance unit := λ p,
  let '(bd, rd, e) := json_Unmarshal data (BuildDefinition_ p) (RunDetails_ p) in
  (mkProvenance bd rd (products p) (subjects p) (export p), e).

(** The subjects are those of the products; the collected ones are not used. *)
Definition Subjects (p : Provenance) : gmap string DigestSet :=
  copy_into 15 (λ productName, "file:" +:+ productName) prod_Digest ∅ (default ∅ (products p)).
End slsa.
End Slsa.
