(* ===== verification/ProvenanceTheorems.v ===== *)
(** What a link and a SLSA provenance say (Provenance.v): each part of them is what
    the attestors that completed recorded, in the order of their completion, or the
    last of it. *)
From S2P Require Import Prelude Receiver GoStrings GoText Errors Crypto Digest Toy Paths Registry Attestation Constraints Environment Hooks Context Host CI CITheorems Git Ptrace CommandRun Product Provenance.
From stdpp Require Import options.

#[local] Unset Default Proof Using.

(** structpb.NewStruct: "the map keys must be valid UTF-8", and so must strings. *)
Definition valid_value (v : pb_value) : Prop :=
  match v with
  | PbString s => valid_utf8 s = true
  | PbMap m => map_Forall (λ k s, valid_utf8 k = true ∧ valid_utf8 s = true) m
  end.
Class StructLaws `{SL : StructLib} :=
  NewStruct_valid m : map_Forall (λ k v, valid_utf8 k = true ∧ valid_value v) m → ∃ s, NewStruct m = Ok s.

(** Of the maybe many values the last one that is there, or the old one. *)
Definition latest {X} (old : X) (l : list X) : X := default old (last l).
Lemma latest_snoc {X} (old : X) l x : latest old (l ++ [x]) = x.
Proof. unfold latest. by rw last_snoc. Qed.

Lemma mapM_option_snoc {X Y} (f : X → option Y) l x ks k :
  mapM f l = Some ks → f x = Some k → mapM f (l ++ [x]) = Some (ks ++ [k]).
Proof.
  rw !mapM_Some. intros Hl Hx. apply Forall2_app; [done|]. by constructor.
Qed.

(** * The descriptors of materials *)

Section descriptors.
Context `{RO : RangeOrder}.

(** Each material once, with names that parse back to its digests. *)
Lemma descriptors_spec (mats : gmap string DigestSet) :
  (∀ d, d ∈ descriptors mats → ∃ ds, mats !! rd_Name d = Some ds ∧ rd_Digest d = names_or_nil ds) ∧
  NoDup (rd_Name <$> descriptors mats) ∧
  (∀ name ds, mats !! name = Some ds → mkRD name (names_or_nil ds) ∈ descriptors mats).
Proof.
  unfold descriptors. split; [|split].
  - intros d ([n ds] & -> & Hin%elem_of_range)%list_elem_of_fmap. by exists ds.
  - rw -list_fmap_compose. apply NoDup_fst_range.
  - intros name ds Hm. apply list_elem_of_fmap. exists (name, ds). split; [done|]. by apply elem_of_range.
Qed.

Lemma names_or_nil_back (ds : DigestSet) : supported ds → NewDigestSet (names_or_nil ds) = Ok ds.
Proof.
  intros Hs. unfold names_or_nil. destruct (ToNameMap_supported ds Hs) as (m & Hm & _). rw Hm.
  by apply (digest_names_roundtrip ds).
Qed.

#[local] Instance file_name_inj : Inj (=) (=) (λ productName : string, "file:" +:+ productName).
Proof. intros a b H. by apply (inj (String.append _)) in H. Qed.

Lemma file_subjects site (ps : gmap string Product) name :
  copy_into site (λ productName, "file:" +:+ productName) prod_Digest ∅ ps !! ("file:" +:+ name) =
  prod_Digest <$> ps !! name.
Proof.
  rw copy_into_inj right_id_L lookup_fmap.
  by rw (lookup_kmap (λ productName : string, "file:" +:+ productName)).
Qed.
End descriptors.

(** * link *)

Section link.
Context `{RO : RangeOrder} `{SL : StructLib} `{JL : JoseLib} `{CB : CodeBuildApi}.
Context {A : Type} `{AO : AttestorOps A} `{PV : !ProvenanceViews A}.
Import Link.

(** What a completed attestor puts into the link; [None] where it panics. *)
Inductive link_part :=
  | LCommand (cmd : list string)
  | LMaterials (mats : gmap string DigestSet)
  | LEnvironment (vars : gmap string string)
  | LProducts (ps : gmap string Product)
  | LNothing.
Definition link_part_of (c : CompletedAttestor A) : option link_part :=
  let a := comp_Attestor c in
  let name := Attestor_Name a in
  if bool_decide (name = CommandRun.Name) then data ← mjoin (CommandRun_Data a); Some (LCommand (CommandRun.Cmd data))
  else if bool_decide (name = Material.Name) then LMaterials <$> Material_Materials a
  else if bool_decide (name = environment_Name) then data ← mjoin (Environment_Data a); Some (LEnvironment (ea_Variables data))
  else if bool_decide (name = Product.ProductName) then LProducts <$> Product_Products a
  else Some LNothing.

Definition commands (k : link_part) : option (list string) := match k with LCommand c => Some c | _ => None end.
Definition materials (k : link_part) : list ResourceDescriptor := match k with LMaterials m => descriptors m | _ => [] end.
Definition variables (k : link_part) : option (gmap string string) := match k with LEnvironment v => Some v | _ => None end.
Definition recorded_products (k : link_part) : option (gmap string Product) := match k with LProducts p => Some p | _ => None end.

Definition link_of (l0 : Link) (ks : list link_part) (l : Link) : Prop :=
  link_Name (pbLink l) = link_Name (pbLink l0) ∧
  link_Command (pbLink l) = latest (link_Command (pbLink l0)) (omap commands ks) ∧
  link_Materials (pbLink l) = link_Materials (pbLink l0) ++ (ks ≫= materials) ∧
  match last (omap variables ks) with
  | None => link_Environment (pbLink l) = link_Environment (pbLink l0)
  | Some vars => ∃ s, NewStruct (PbString <$> vars) = Ok s ∧ link_Environment (pbLink l) = Some s
  end ∧
  Link.products l = latest (Link.products l0) (omap recorded_products ks) ∧ export l = export l0.

Ltac part_step :=
  rewrite ?omap_app ?bind_app /= ?right_id_L ?latest_snoc ?last_snoc.

Lemma data_of_ok {X} iface (o : option (option X)) x : data_of iface o = Ok x → mjoin o = Some x.
Proof. unfold data_of. by destruct o as [[y|]|]; intros; simplify_eq/=. Qed.
Lemma data_of_mjoin {X} iface (o : option (option X)) x : mjoin o = Some x → data_of iface o = Ok x.
Proof. by destruct o as [[y|]|]; intros; simplify_eq/=. Qed.
Lemma must_ok {X} iface (o : option X) x : must iface o = Ok x → o = Some x.
Proof. by destruct o; intros; simplify_eq/=. Qed.

Ltac view :=
  match goal with
  | H : data_of _ _ = Ok _ |- _ => apply data_of_ok in H; rewrite H
  | H : must _ _ = Ok _ |- _ => apply must_ok in H; rewrite H
  end.

Lemma add_attestor_link l0 ks c l1 l2 :
  link_of l0 ks l1 → add_attestor c l1 = (l2, Ok tt) →
  ∃ k, link_part_of c = Some k ∧ link_of l0 (ks ++ [k]) l2.
Proof.
  intros (Hn & Hc & Hm & He & Hp & Hx). unfold add_attestor, link_part_of.
  repeat case_bool_decide; intros Hr; recv_inv.
  - view. eexists. split; [done|]. unfold link_of. by part_step.
  - view. eexists. split; [done|]. unfold link_of. part_step. by rw Hm assoc_L.
  - view. eexists. split; [done|]. unfold link_of. part_step.
    select (NewStruct _ = _) (fun H => rewrite H). eauto 10.
  - view. eexists. split; [done|]. unfold link_of. by part_step.
  - eexists. split; [done|]. unfold link_of. by part_step.
Qed.

(** The attestors can say what they are asked for, and the environments can be
    encoded. *)
Definition link_part_valid (k : link_part) : Prop :=
  match k with
  | LEnvironment vars => map_Forall (λ k v, valid_utf8 k = true ∧ valid_utf8 v = true) vars
  | _ => True
  end.

Lemma add_attestor_link_total `{!StructLaws} c k l :
  link_part_of c = Some k → link_part_valid k → ∃ l', add_attestor c l = (l', Ok tt).
Proof.
  unfold add_attestor, link_part_of. repeat case_bool_decide; intros Hk Hv.
  - apply bind_Some in Hk as (d & Hd & _). unfold mbind, recv_bind, call. rw (data_of_mjoin _ _ _ Hd). by eexists.
  - apply fmap_Some in Hk as (m & Hm & _). unfold mbind, recv_bind, call. rw Hm. by eexists.
  - apply bind_Some in Hk as (d & Hd & [= <-]). unfold mbind, recv_bind, call. rw (data_of_mjoin _ _ _ Hd).
    destruct (NewStruct_valid (PbString <$> ea_Variables d)) as [s Hs].
    { intros k v. rw lookup_fmap. intros (x & Hx & ->)%fmap_Some. by apply (Hv k x). }
    rw Hs. by eexists.
  - apply fmap_Some in Hk as (m & Hm & _). unfold mbind, recv_bind, call. rw Hm. by eexists.
  - by eexists.
Qed.

Lemma for_each_total {S X} (f : X → recv S unit) l s :
  (∀ x s, x ∈ l → ∃ s', f x s = (s', Ok tt)) → ∃ s', for_each f l s = (s', Ok tt).
Proof.
  revert s. induction l as [|x l IH]; intros s Hall; [by eexists|]. cbn [for_each].
  destruct (Hall x s) as [s1 Hx]; [left|]. unfold mbind, recv_bind. rw Hx. apply IH. intros y s2 Hy. apply Hall. by right.
Qed.

(** What a link says: the step's name, the command of the last command run, the
    materials of all material attestors, the variables of the last environment, and
    as subjects the products of the last product attestor; it is made whenever the
    attestors of those names are what their names say and the variables are valid
    text, and only then. *)
Theorem Link_Attest_spec `{!StructLaws} ctx l0 :
  (∀ l, Attest ctx l0 = (l, Ok tt) →
     ∃ ks, mapM link_part_of (CompletedAttestors ctx) = Some ks ∧ link_of (set_Name l0 (ctx_stepName ctx)) ks l ∧
       ∀ name, Subjects l !! ("file:" +:+ name) =
               prod_Digest <$> latest (Link.products l0) (omap recorded_products ks) !! name) ∧
  (∀ ks, mapM link_part_of (CompletedAttestors ctx) = Some ks → Forall link_part_valid ks →
     ∃ l, Attest ctx l0 = (l, Ok tt)).
Proof.
  split.
  - unfold Attest. intros l Hr. recv_inv.
    eapply (for_each_ok _ (λ l' cs, ∃ ks, mapM link_part_of cs = Some ks ∧ link_of (set_Name l0 (ctx_stepName ctx)) ks l'))
      in Hr as (ks & Hks & Hl).
    + exists ks. split; [done|]. split; [done|]. intros name. unfold Subjects. rw file_subjects.
      destruct Hl as (_ & _ & _ & _ & -> & _). done.
    + exists []. split; [done|]. unfold link_of. by rw right_id_L.
    + intros s1 s2 c cs Hc (ks & Hks & Hl). destruct (add_attestor_link _ _ _ _ _ Hl Hc) as (k & Hk & Hl').
      exists (ks ++ [k]). split; [|done]. by apply mapM_option_snoc.
  - intros ks Hks Hv. unfold Attest. unfold mbind, recv_bind, assign. apply for_each_total. intros c l Hc.
    apply mapM_Some in Hks. apply list_elem_of_lookup in Hc as [i Hi].
    destruct (Forall2_lookup_l _ _ _ _ _ Hks Hi) as (k & Hki & Hk). eapply add_attestor_link_total; [done|].
    by eapply Forall_lookup_1.
Qed.
End link.

(** * slsa *)

Section slsa.
Context `{RO : RangeOrder} `{SL : StructLib} `{JL : JoseLib} `{CB : CodeBuildApi}.
Context {A : Type} `{AO : AttestorOps A} `{PV : !ProvenanceViews A}.
Import Slsa.
Implicit Types c : CompletedAttestor A.

(** What a completed attestor puts into the provenance; [None] where it panics. *)
Inductive slsa_part :=
  | PEnvironment (vars : gmap string string)
  | PDependencies (deps : list ResourceDescriptor)
  | PBuilder (id invocation : string)
  | PCommand (cmd : list string) (start finish : Time)
  | PProducts (ss : gmap string DigestSet)
  | PImage (ss : gmap string DigestSet)
  | PNothing.

(** A GitHub token has the claim "sha", and a GitLab token one that is a string if
    it has one. *)
Definition github_sha_ok (j : option Jwt.Attestor) : bool :=
  match j with
  | None => true
  | Some j => match Jwt.Claims j !! "sha" with Some (JString _) => true | _ => false end
  end.
Definition gitlab_sha_ok (j : option Jwt.Attestor) : bool :=
  match j with
  | None => true
  | Some j => match Jwt.Claims j !! "sha" with None | Some (JString _) => true | _ => false end
  end.

Definition slsa_part_of c : option slsa_part :=
  let a := comp_Attestor c in
  let name := Attestor_Name a in
  if bool_decide (name = environment_Name) then d ← mjoin (Environment_Data a); Some (PEnvironment (ea_Variables d))
  else if bool_decide (name = Git.Name) then
    d ← mjoin (Git_Data a);
    Some (PDependencies ((λ remote, mkRD remote (names_or_nil (Git.CommitDigest d))) <$> Git.Remotes d))
  else if bool_decide (name = GitHub.Name) then
    d ← mjoin (GitHub_Data a);
    if github_sha_ok (GitHub.JWT d) then Some (PBuilder GHABuilderId (GitHub.PipelineUrl d)) else None
  else if bool_decide (name = GitLab.Name) then
    d ← mjoin (GitLab_Data a);
    if gitlab_sha_ok (GitLab.JWT d) then Some (PBuilder GLCBuilderId (GitLab.PipelineUrl d)) else None
  else if bool_decide (name = Jenkins.Name) then
    d ← mjoin (Jenkins_Data a); Some (PBuilder JenkinsBuilderId (Jenkins.PipelineUrl d))
  else if bool_decide (name = CodeBuild.Name) then
    d ← mjoin (CodeBuild_Data a); Some (PBuilder AWSCodeBuildBuilderId (CodeBuild.BuildARN (CodeBuild.Info d)))
  else if bool_decide (name = Material.Name) then (λ mats, PDependencies (descriptors mats)) <$> Material_Materials a
  else if bool_decide (name = CommandRun.Name) then
    d ← mjoin (CommandRun_Data a); Some (PCommand (CommandRun.Cmd d) (comp_StartTime c) (comp_EndTime c))
  else if bool_decide (name = Product.ProductName) then PProducts <$> Subjecter_Subjects a
  else if bool_decide (name = oci_Name) then PImage <$> Subjecter_Subjects a
  else Some PNothing.

Definition dependencies (k : slsa_part) : list ResourceDescriptor := match k with PDependencies l => l | _ => [] end.
Definition builders (k : slsa_part) : option (string * string) := match k with PBuilder i u => Some (i, u) | _ => None end.
Definition environments (k : slsa_part) : option (gmap string string) := match k with PEnvironment v => Some v | _ => None end.
Definition runs (k : slsa_part) : option (list string * Time * Time) :=
  match k with PCommand c s f => Some (c, s, f) | _ => None end.
Definition product_part (k : slsa_part) : bool := match k with PProducts _ => true | _ => false end.

Definition internal_of (ks : list slsa_part) : gmap string pb_value :=
  match last (omap environments ks) with None => ∅ | Some vars => {["env" := PbMap vars]} end.

Definition filled (ctx : AttestationContext A) (ks : list slsa_part) (f : filling) : Prop :=
  bd_BuildType (f_bd f) = BuildType ∧ bd_InternalParameters (f_bd f) = None ∧
  bd_ResolvedDependencies (f_bd f) = ks ≫= dependencies ∧
  (builder_Id (f_rd f), md_InvocationId (f_rd f)) = latest (DefaultBuilderId, "") (omap builders ks) ∧
  match last (omap runs ks) with
  | None => bd_ExternalParameters (f_bd f) = None ∧ md_StartedOn (f_rd f) = None ∧ md_FinishedOn (f_rd f) = None
  | Some (cmd, start, finish) =>
      ∃ s, NewStruct {["command" := PbString (Join cmd " ")]} = Ok s ∧ bd_ExternalParameters (f_bd f) = Some s ∧
        md_StartedOn (f_rd f) = Some start ∧ md_FinishedOn (f_rd f) = Some finish
  end ∧
  f_internal f = internal_of ks ∧
  f_products f = (if existsb product_part ks then Some (ctx_products ctx) else None).

Lemma read_sha_github_ok j : read_sha_github j = Ok tt ↔ github_sha_ok j = true.
Proof. unfold read_sha_github, github_sha_ok. destruct j as [j|]; [|done]. by destruct (_ !! _) as [[]|]. Qed.
Lemma read_sha_gitlab_ok j : read_sha_gitlab j = Ok tt ↔ gitlab_sha_ok j = true.
Proof. unfold read_sha_gitlab, gitlab_sha_ok. destruct j as [j|]; [|done]. by destruct (_ !! _) as [[]|]. Qed.

Lemma merged_products (ctx : AttestationContext A) ks :
  merge_into (if existsb product_part ks then Some (ctx_products ctx) else None) (ctx_Products ctx) = Some (ctx_products ctx).
Proof.
  unfold ctx_Products. rw copy_into_id map_fmap_id right_id_L. destruct (existsb _ _); [|done].
  simpl. rw copy_into_id map_fmap_id. by rw (map_union_idemp (ctx_products ctx)).
Qed.

Lemma existsb_snoc {X} (f : X → bool) l x : existsb f (l ++ [x]) = existsb f l || f x.
Proof. rw existsb_app /=. by rw orb_false_r. Qed.

(** The assertions and the dereferencing, read off. *)
Ltac slsa_view :=
  repeat match goal with
  | H : data_of _ _ = Ok _ |- _ => apply data_of_ok in H
  | H : must _ _ = Ok _ |- _ => apply must_ok in H
  | H : deref ?d = Ok _ |- _ => destruct d; cbn in H; [|done]; injection H as ->
  | H : read_sha_github _ = Ok ?u |- _ => destruct u; apply read_sha_github_ok in H
  | H : read_sha_gitlab _ = Ok ?u |- _ => destruct u; apply read_sha_gitlab_ok in H
  end;
  repeat match goal with
  | H : _ = Some _ |- context [Environment_Data] => rewrite H; clear H
  | H : Git_Data _ = _ |- _ => rewrite H; clear H | H : mjoin (Git_Data _) = _ |- _ => rewrite H; clear H
  | H : GitHub_Data _ = _ |- _ => rewrite H; clear H
  | H : GitLab_Data _ = _ |- _ => rewrite H; clear H
  | H : Jenkins_Data _ = _ |- _ => rewrite H; clear H
  | H : CodeBuild_Data _ = _ |- _ => rewrite H; clear H
  | H : Material_Materials _ = _ |- _ => rewrite H; clear H
  | H : mjoin (CommandRun_Data _) = _ |- _ => rewrite H; clear H
  | H : Subjecter_Subjects _ = _ |- _ => rewrite H; clear H
  | H : github_sha_ok _ = true |- _ => rewrite /= H; clear H
  | H : gitlab_sha_ok _ = true |- _ => rewrite /= H; clear H
  end.
Ltac filled_step := unfold filled, internal_of; rewrite ?omap_app ?bind_app ?existsb_snoc /= ?right_id_L ?latest_snoc ?last_snoc ?orb_false_r.

Lemma add_attestor_slsa ctx ks c f1 f2 :
  filled ctx ks f1 → add_attestor ctx c f1 = (f2, Ok tt) →
  ∃ k, slsa_part_of c = Some k ∧ filled ctx (ks ++ [k]) f2.
Proof.
  intros (Hbt & Hin & Hd & Hb & Hr & Hi & Hp). unfold add_attestor, slsa_part_of.
  repeat case_bool_decide; intros Hrun; recv_inv; slsa_view; (eexists; split; [reflexivity|]); filled_step.
  - repeat split; [done..| |done]. rw Hi. unfold internal_of.
    destruct (last (omap environments ks)); [apply insert_singleton_eq|apply insert_empty].
  - by rw Hd.
  - done.
  - done.
  - done.
  - done.
  - by rw Hd.
  - select (NewStruct _ = _) (fun H => rewrite H). eauto 12.
  - by rw Hp merged_products orb_true_r.
  - done.
  - done.
Qed.

Definition slsa_part_valid (k : slsa_part) : Prop :=
  match k with
  | PEnvironment vars => map_Forall (λ k v, valid_utf8 k = true ∧ valid_utf8 v = true) vars
  | PCommand cmd _ _ => valid_utf8 (Join cmd " ") = true
  | _ => True
  end.

Ltac call_with H := unfold mbind, recv_bind, call, assign; cbn [must deref]; rw H.

Lemma add_attestor_slsa_total `{!StructLaws} ctx c k f :
  slsa_part_of c = Some k → slsa_part_valid k → ∃ f', add_attestor ctx c f = (f', Ok tt).
Proof.
  unfold add_attestor, slsa_part_of. repeat case_bool_decide; intros Hk Hv.
  - apply bind_Some in Hk as (d & Hd & _). call_with (data_of_mjoin "EnvironmentAttestor" _ _ Hd). by eexists.
  - apply bind_Some in Hk as (d & Hd & _). call_with (data_of_mjoin "GitAttestor" _ _ Hd). by eexists.
  - apply bind_Some in Hk as (d & Hd & Hk). destruct (GitHub_Data _) as [[g|]|]; [|done..]. injection Hd as ->.
    destruct (github_sha_ok _) eqn:Hs; [|done]. apply read_sha_github_ok in Hs. call_with Hs. by eexists.
  - apply bind_Some in Hk as (d & Hd & Hk). destruct (GitLab_Data _) as [[g|]|]; [|done..]. injection Hd as ->.
    destruct (gitlab_sha_ok _) eqn:Hs; [|done]. apply read_sha_gitlab_ok in Hs. call_with Hs. by eexists.
  - apply bind_Some in Hk as (d & Hd & Hk). destruct (Jenkins_Data _) as [[g|]|]; [|done..]. by eexists.
  - apply bind_Some in Hk as (d & Hd & Hk). destruct (CodeBuild_Data _) as [[g|]|]; [|done..]. by eexists.
  - apply fmap_Some in Hk as (m & Hm & _). call_with Hm. by eexists.
  - apply bind_Some in Hk as (d & Hd & [= <-]). call_with (data_of_mjoin "CommandRunAttestor" _ _ Hd).
    destruct (NewStruct_valid {["command" := PbString (Join (CommandRun.Cmd d) " ")]}) as [s Hs].
    { intros k v (<- & <-)%lookup_singleton_Some. done. }
    rw Hs. by eexists.
  - apply fmap_Some in Hk as (m & Hm & _). call_with Hm. by eexists.
  - apply fmap_Some in Hk as (m & Hm & _). call_with Hm. by eexists.
  - by eexists.
Qed.

(** What the provenance of the parts is. *)
Definition provenance_of (ctx : AttestationContext A) (ks : list slsa_part) (p : Provenance) : Prop :=
  ∃ f s, filled ctx ks f ∧ NewStruct (internal_of ks) = Ok s ∧
    BuildDefinition_ p = Some (f_bd (set_internal f (Some s))) ∧ RunDetails_ p = Some (f_rd f) ∧
    products p = f_products f.

Lemma fill_ok ctx p p' :
  products p = None → Attest ctx p = (p', Ok tt) →
  ∃ ks, mapM slsa_part_of (CompletedAttestors ctx) = Some ks ∧ provenance_of ctx ks p'.
Proof.
  intros Hp. unfold Attest. rw Hp. destruct (fill ctx _) as [f r] eqn:Hfill. intros [= <- ->].
  unfold fill in Hfill. recv_inv.
  eapply (for_each_ok _ (λ f cs, ∃ ks, mapM slsa_part_of cs = Some ks ∧ filled ctx ks f)) in H as (ks & Hks & Hf).
  - exists ks. split; [done|]. pose proof Hf as (_ & _ & _ & _ & _ & Hi & _).
    select (NewStruct _ = Ok _) (fun Hs => rewrite Hi in Hs |- *; rewrite Hs; eexists _, _; by eauto).
  - exists []. split; [done|]. by unfold filled.
  - intros f1 f2 c cs Hc (ks & Hks & Hf). destruct (add_attestor_slsa _ _ _ _ _ Hf Hc) as (k & Hk & Hf').
    exists (ks ++ [k]). split; [|done]. by apply mapM_option_snoc.
Qed.

Lemma internal_valid `{!StructLaws} ks : Forall slsa_part_valid ks → ∃ s, NewStruct (internal_of ks) = Ok s.
Proof.
  intros Hv. apply NewStruct_valid. unfold internal_of. destruct (last _) as [vars|] eqn:Hl; [|by apply map_Forall_empty].
  intros k v (<- & <-)%lookup_singleton_Some. split; [done|]. simpl.
  apply last_Some_elem_of, list_elem_of_omap in Hl as (k & Hk & Henv). rw Forall_forall in Hv.
  specialize (Hv k Hk). by destruct k; simplify_eq/=.
Qed.

(** C32: What a provenance says: the command of the last command run with its times,
    the variables of the last environment, the remotes of the git attestors and the
    materials of the material attestors as dependencies, the builder and invocation
    of the last attestor of a build system or else the default, and as subjects the
    products of the context when a product attestor completed. It is made whenever
    the attestors are what their names say and the texts are valid, and a GitHub
    token has its commit. *)
Theorem Slsa_Attest_spec `{!StructLaws} ctx p0 :
  products p0 = None →
  (∀ p, Attest ctx p0 = (p, Ok tt) →
     ∃ ks, mapM slsa_part_of (CompletedAttestors ctx) = Some ks ∧ provenance_of ctx ks p ∧
       ∀ name, Subjects p !! ("file:" +:+ name) =
               if existsb product_part ks then prod_Digest <$> ctx_products ctx !! name else None) ∧
  (∀ ks, mapM slsa_part_of (CompletedAttestors ctx) = Some ks → Forall slsa_part_valid ks →
     ∃ p, Attest ctx p0 = (p, Ok tt)).
Proof.
  intros Hp0. split.
  - intros p Hrun. destruct (fill_ok _ _ _ Hp0 Hrun) as (ks & Hks & Hp). exists ks. split; [done|]. split; [done|].
    intros name. unfold Subjects. rw file_subjects. destruct Hp as (f & s & Hf & _ & _ & _ & ->).
    destruct Hf as (_ & _ & _ & _ & _ & _ & ->). by destruct (existsb _ _).
  - intros ks Hks Hv. unfold Attest, fill. rw Hp0.
    destruct (for_each_total (add_attestor ctx) (CompletedAttestors ctx)
      (mkFilling (mkBuildDefinition BuildType None None []) (mkRunDetails DefaultBuilderId "" None None) ∅ None (subjects p0)))
      as [f Hf].
    { intros c f Hc. pose proof Hks as Hks'. apply mapM_Some in Hks'. apply list_elem_of_lookup in Hc as [i Hi].
      destruct (Forall2_lookup_l _ _ _ _ _ Hks' Hi) as (k & Hki & Hk). eapply add_attestor_slsa_total; [done|].
      by eapply Forall_lookup_1. }
    assert (f_internal f = internal_of ks) as Hi.
    { eapply (for_each_ok _ (λ f cs, ∃ ks, mapM slsa_part_of cs = Some ks ∧ filled ctx ks f)) in Hf as (ks' & Hks' & Hf).
      - simplify_eq. by destruct Hf as (_ & _ & _ & _ & _ & Hi & _).
      - exists []. split; [done|]. by unfold filled.
      - intros f1 f2 c cs Hc (ks2 & Hks2 & Hf2). destruct (add_attestor_slsa _ _ _ _ _ Hf2 Hc) as (k & Hk & Hf').
        exists (ks2 ++ [k]). split; [|done]. by apply mapM_option_snoc. }
    destruct (internal_valid ks Hv) as [s Hs]. unfold mbind, recv_bind, assign, self, call. rw Hf Hi Hs. by eexists.
Qed.

(** A GitHub token without a commit, or with one that is not a string, stops the
    provenance with a panic. *)
Theorem Slsa_github_without_sha ctx c f g :
  Attestor_Name (comp_Attestor c) = GitHub.Name → GitHub_Data (comp_Attestor c) = Some (Some g) →
  github_sha_ok (GitHub.JWT g) = false → ∃ f' w, add_attestor ctx c f = (f', Panic w).
Proof.
  intros Hn Hd Hs. unfold add_attestor. rw Hn. repeat (case_bool_decide; [done|]). case_bool_decide; [|done].
  unfold mbind, recv_bind, call, assign. rw Hd. cbn [must deref]. unfold read_sha_github, github_sha_ok in *.
  destruct (GitHub.JWT g) as [j|]; [|done]. destruct (Jwt.Claims j !! "sha") as [[]|]; try done; eexists _, _; reflexivity.
Qed.

(** The subjects of an image are collected, and are not among the provenance's. *)
Theorem Slsa_image_subjects_lost ctx c p0 ss s :
  CompletedAttestors ctx = [c] → Attestor_Name (comp_Attestor c) = oci_Name →
  Subjecter_Subjects (comp_Attestor c) = Some ss → NewStruct ∅ = Ok s → products p0 = None →
  ∃ p, Attest ctx p0 = (p, Ok tt) ∧ Subjects p = ∅.
Proof.
  intros Hc Hn Hss Hst Hp0. unfold Attest, fill. rw Hc. cbn [for_each]. unfold add_attestor. rw Hn.
  repeat (case_bool_decide; [done|]). case_bool_decide; [|done].
  unfold mbind, recv_bind, call, assign, self. rw Hss. cbn. rw Hst Hp0. cbn. eexists. split; [reflexivity|].
  unfold Subjects. cbn. by rw copy_into_inj kmap_empty fmap_empty right_id_L.
Qed.
End slsa.

(** * Examples *)

#[local] Instance toy_struct : StructLib := {| Struct := gmap string pb_value; NewStruct m := Ok m |}.
#[local] Instance toy_struct_laws : StructLaws.
Proof. intros m _. by exists m. Qed.
#[local] Instance toy_codebuild : CodeBuildApi := {|
  AwsConfig := unit; zero_AwsConfig := tt; LoadDefaultConfig := Ok tt; set_Region _ _ := tt; Build := unit;
  BatchGetBuilds _ _ := Ok []; json_Marshal_Build _ := Ok "" |}.

Inductive toy_attestor :=
  | ToyCommand (cmd : list string)
  | ToyMaterial (mats : gmap string DigestSet)
  | ToyEnvironment (vars : gmap string string)
  | ToyGit (remotes : list string)
  | ToyJenkins (url : string)
  | ToyProduct (ps : gmap string Product).
#[local] Instance toy_ops : AttestorOps toy_attestor := {|
  Attestor_Name a := match a with
    | ToyCommand _ => CommandRun.Name | ToyMaterial _ => Material.Name | ToyEnvironment _ => environment_Name
    | ToyGit _ => Git.Name | ToyJenkins _ => Jenkins.Name | ToyProduct _ => Product.ProductName end;
  Attestor_Type _ := ""; Attestor_RunType _ := "";
  Subjecter_Subjects a := match a with ToyProduct ps => Some (prod_Digest <$> ps) | _ => None end;
  Materialer_Materials _ := None; Producer_Products _ := None; BackReffer_BackRefs _ := None;
  Exporter_Export _ := None; MultiExporter_ExportedAttestations _ := None; Experimental_IsExperimental _ := None;
  json_Marshal_Attestor _ := Ok ""; json_Unmarshal_Attestor _ a := Ok (Some a) |}.
Definition toy_remotes (remotes : list string) : Git.Attestor :=
  Git.set_remotes (Git.set_digest Git.New {[mkDV SHA1 false false := "c0ffee"]}) remotes.
#[local] Instance toy_views : ProvenanceViews toy_attestor := {|
  CommandRun_Data a := match a with ToyCommand cmd => Some (Some (CommandRun.New [CommandRun.WithCommand cmd])) | _ => None end;
  Material_Materials a := match a with ToyMaterial m => Some m | _ => None end;
  Environment_Data a := match a with ToyEnvironment v => Some (Some (mkEnvAttestor "" "" "" v [])) | _ => None end;
  Product_Products a := match a with ToyProduct ps => Some ps | _ => None end;
  Git_Data a := match a with ToyGit rs => Some (Some (toy_remotes rs)) | _ => None end;
  GitHub_Data _ := None; GitLab_Data _ := None;
  Jenkins_Data a := match a with
    | ToyJenkins url => Some (Some (Jenkins.mkAttestor "" "" "" url "" "" "" "" "" "")) | _ => None end;
  CodeBuild_Data _ := None |}.

Definition toy_time (n : Z) : Time := mkTime n "".
Definition toy_done (a : toy_attestor) : CompletedAttestor toy_attestor :=
  mkCompletedAttestor a (toy_time 1) (toy_time 2) None.
Definition toy_materials : gmap string DigestSet := {["main.go" := {[mkDV SHA256 false false := "aa"]}]}.
Definition toy_products : gmap string Product := {["app" := mkProduct "text/plain" {[mkDV SHA256 false false := "bb"]}]}.
Definition toy_build : AttestationContext toy_attestor :=
  mkContext "" [] "" [] [] []
    (toy_done <$> [ToyEnvironment {["CI" := "true"]}; ToyGit ["https://host/repo"]; ToyJenkins "https://ci/1";
                   ToyMaterial toy_materials; ToyCommand ["go"; "build"]; ToyProduct toy_products])
    toy_products ∅ "build" (NewCapture []) [] zero_hooks.

Lemma toy_texts_valid : map_Forall (λ k v, valid_utf8 k = true ∧ valid_utf8 v = true) ({["CI" := "true"]} : gmap string string).
Proof. by intros k v (<- & <-)%lookup_singleton_Some. Qed.

Definition toy_link_parts : list link_part :=
  [LEnvironment {["CI" := "true"]}; LNothing; LNothing; LMaterials toy_materials; LCommand ["go"; "build"];
   LProducts toy_products].
Definition toy_slsa_parts : list slsa_part :=
  [PEnvironment {["CI" := "true"]}; PDependencies [mkRD "https://host/repo" {["sha1" := "c0ffee"]}];
   PBuilder Slsa.JenkinsBuilderId "https://ci/1"; PDependencies [mkRD "main.go" {["sha256" := "aa"]}];
   PCommand ["go"; "build"] (toy_time 1) (toy_time 2);
   PProducts {["app" := {[mkDV SHA256 false false := "bb"]}]}].

Lemma Link_Attest_spec_witness :
  ∃ l, Link.Attest toy_build Link.New = (l, Ok tt) ∧
    Link.link_Command (Link.pbLink l) = ["go"; "build"] ∧
    Link.Subjects l !! ("file:" +:+ "app") = Some {[mkDV SHA256 false false := "bb"]}.
Proof.
  assert (mapM link_part_of (CompletedAttestors toy_build) = Some toy_link_parts) as Hparts by (vm_compute; reflexivity).
  destruct (proj2 (Link_Attest_spec toy_build Link.New) _ Hparts) as [l Hl].
  { constructor; [exact toy_texts_valid|]. repeat (constructor; [exact I|]). constructor. }
  exists l. split; [done|].
  destruct (proj1 (Link_Attest_spec toy_build Link.New) l Hl) as (ks & Hks & Hlink & Hsub).
  rw Hparts in Hks. injection Hks as <-. split; [by destruct Hlink as (_ & -> & _)|]. by rw Hsub.
Defined.

Lemma Slsa_Attest_spec_witness :
  ∃ p bd rd, Slsa.Attest toy_build Slsa.New = (p, Ok tt) ∧
    Slsa.BuildDefinition_ p = Some bd ∧ Slsa.RunDetails_ p = Some rd ∧
    Slsa.bd_ResolvedDependencies bd = [mkRD "https://host/repo" {["sha1" := "c0ffee"]}; mkRD "main.go" {["sha256" := "aa"]}] ∧
    (Slsa.builder_Id rd, Slsa.md_InvocationId rd) = (Slsa.JenkinsBuilderId, "https://ci/1") ∧
    Slsa.Subjects p !! ("file:" +:+ "app") = Some {[mkDV SHA256 false false := "bb"]}.
Proof.
  assert (mapM slsa_part_of (CompletedAttestors toy_build) = Some toy_slsa_parts) as Hparts by (vm_compute; reflexivity).
  destruct (proj2 (Slsa_Attest_spec toy_build Slsa.New eq_refl) _ Hparts) as [p Hp].
  { constructor; [exact toy_texts_valid|]. do 3 (constructor; [exact I|]). constructor; [vm_compute; reflexivity|].
    constructor; [exact I|constructor]. }
  destruct (proj1 (Slsa_Attest_spec toy_build Slsa.New eq_refl) p Hp) as (ks & Hks & (f & s & Hf & _ & Hbd & Hrd & _) & Hsub).
  rw Hparts in Hks. injection Hks as <-. eexists p, _, _. split; [done|]. split; [done|]. split; [done|].
  destruct Hf as (_ & _ & Hdeps & Hb & _). split; [by rw /= Hdeps|]. split; [by rw Hb|]. by rw Hsub.
Defined.
