(* ===== verification/SecretScan.v ===== *)
(** attestation/secretscan: constants.go, types.go, utils.go, digest.go, config.go,
    detector.go, allowlist.go, findings.go and envscan.go. The scanner itself is
    SecretScanner.v, the decoders of encoding.go are Encodings.v.

    The gitleaks detector and its configuration are the class [GitleaksLib];
    user-supplied regular expressions are compiled by the class [RegexpLib]. A
    regular expression made with [QuoteMeta] matches its text literally. *)
From S2P Require Import Prelude GoStrings GoText Errors Crypto Digest Registry Attestation Constraints Environment Hooks Context.
From stdpp Require Import options.

(** [regexp.Compile], and [MatchString] of the result. *)
Class RegexpLib := regexp_Compile : string → res (string → bool).

(** A finding of gitleaks; the entropy is an opaque number. *)
Record report_Finding := mkReport {
  gf_RuleID : string;
  gf_Description : string;
  gf_StartLine : Z;
  gf_Match : string;
  gf_Secret : string;
  gf_Entropy : Z;
}.

(** github.com/zricethezav/gitleaks, with viper reading its configuration. *)
Class GitleaksLib := {
  Detector : Type;
  ViperConfig : Type;
  GitleaksConfig : Type;
  DetectBytes : Detector → bytes → list report_Finding;
  NewDetectorDefaultConfig : res Detector;
  NewDetector : GitleaksConfig → Detector;
  viper_ReadInConfig : string → err;
  viper_Unmarshal : string → res ViperConfig;
  Translate : ViperConfig → res GitleaksConfig;
  set_MaxTargetMegaBytes : Detector → Z → Detector;
  (* an allow list that has a description and nothing else *)
  append_Allowlist : Detector → string → Detector;
  is_NotExist : error → bool;
}.

Module SecretScan.

(** * constants.go *)

Definition defaultFailOnDetection : bool := false.
Definition defaultMaxFileSizeMB : Z := 10.
Definition defaultFilePerm : Z := 384.
Definition defaultConfigPath : string := "".
Definition defaultMaxDecodeLayers : Z := 3.
Definition redactionMatchContextSize : nat := 15.
Definition redactedValuePlaceholder : string := "[SENSITIVE-VALUE]".
Definition minSensitiveValueLength : nat := 4.
Definition maxMatchDisplayLength : nat := 40.
Definition truncatedMatchSegmentLength : nat := 8.
Definition maxScanRecursionDepth : nat := 3.

(** * types.go *)

Definition Name : string := "secretscan".
Definition Type_ : string := "https://witness.dev/attestations/secretscan/v0.1".
Definition RunType : string := PostProductRunType.

Record AllowList := mkAllowList {
  al_Description : string;
  al_Paths : list string;
  al_Regexes : list string;
  al_StopWords : list string;
}.

Record Finding := mkFinding {
  f_RuleID : string;
  f_Description : string;
  f_Location : string;
  f_Line : Z;
  f_Secret : DigestSet;
  f_Match : string;
  f_Entropy : Z;
  f_EncodingPath : list string;
  f_LocationApproximate : bool;
}.

(** What the attestor uses of its context: the hashes and the capturer. *)
Record ScanContext := mkScanContext { sc_hashes : list DigestValue; sc_capturer : Capture }.

Record Attestor := mkAttestor {
  failOnDetection : bool;
  maxFileSizeMB : Z;
  filePerm : Z;
  allowList : option AllowList;
  configPath : string;
  maxDecodeLayers : Z;
  Findings : list Finding;
  subjects : gmap string DigestSet;
  scan_ctx : option ScanContext;
}.

Record matchInfo := mkMatchInfo { lineNumber : nat; matchContext : string }.

(** * utils.go *)

Definition binaryPrefixes : list string :=
  [ "application/octet-stream"; "application/x-executable"; "application/x-mach-binary";
    "application/x-sharedlib"; "application/x-object" ].
Definition executableSuffixes : list string := [ "/x-executable"; "/x-sharedlib"; "/x-mach-binary" ].
Definition isBinaryFile (mimeType : string) : bool :=
  existsb (HasPrefix mimeType) binaryPrefixes || existsb (HasSuffix mimeType) executableSuffixes.

Definition truncateMatch (match_ : string) : string :=
  if bool_decide (maxMatchDisplayLength < slen match_) then
    take_str truncatedMatchSegmentLength match_ +:+ "..." +:+
    drop_str (slen match_ - truncatedMatchSegmentLength) match_
  else match_.

(** * config.go *)

Definition Option := Attestor → Attestor.
Definition set_config (a : Attestor) (fail : bool) (size perm : Z) (al : option AllowList) (path : string) (layers : Z) : Attestor :=
  mkAttestor fail size perm al path layers (Findings a) (subjects a) (scan_ctx a).
Definition WithFailOnDetection (b : bool) : Option := λ a,
  set_config a b (maxFileSizeMB a) (filePerm a) (allowList a) (configPath a) (maxDecodeLayers a).
Definition WithMaxFileSize (size : Z) : Option := λ a,
  if bool_decide (0 < size)%Z
  then set_config a (failOnDetection a) size (filePerm a) (allowList a) (configPath a) (maxDecodeLayers a) else a.
Definition WithFilePermissions (perm : Z) : Option := λ a,
  set_config a (failOnDetection a) (maxFileSizeMB a) perm (allowList a) (configPath a) (maxDecodeLayers a).
Definition WithAllowList (al : option AllowList) : Option := λ a,
  set_config a (failOnDetection a) (maxFileSizeMB a) (filePerm a) al (configPath a) (maxDecodeLayers a).
Definition WithConfigPath (path : string) : Option := λ a,
  set_config a (failOnDetection a) (maxFileSizeMB a) (filePerm a) (allowList a) path (maxDecodeLayers a).
Definition WithMaxDecodeLayers (layers : Z) : Option := λ a,
  if bool_decide (0 ≤ layers)%Z
  then set_config a (failOnDetection a) (maxFileSizeMB a) (filePerm a) (allowList a) (configPath a) layers else a.

Definition New (opts : list Option) : Attestor :=
  foldl (λ a opt, opt a)
    (mkAttestor defaultFailOnDetection defaultMaxFileSizeMB defaultFilePerm None defaultConfigPath
       defaultMaxDecodeLayers [] ∅ None) opts.

Definition Subjects (a : Attestor) : gmap string DigestSet := subjects a.

(** The options of [init], for attestors of the dynamic types [A]: [project] is
    the type assertion to [*Attestor], [inject] the way back, and [go_type] what
    [%T] prints. *)
Section options.
Context {A : Type} (project : A → option Attestor) (inject : Attestor → A) (go_type : A → string).

Definition option_setter {V} (f : Attestor → V → Attestor) : A → V → A * option error := λ a v,
  match project a with
  | None => (a, Some (Errorf ("unexpected attestor type: " +:+ go_type a +:+ " is not a secretscan attestor")))
  | Some s => (inject (f s v), None)
  end.

(** The allow list the options append to is made when it is first needed. *)
Definition get_allowList (a : Attestor) : AllowList :=
  default (mkAllowList "Witness secretscan allowlist" [] [] []) (allowList a).
Definition add_regex (a : Attestor) (regexPattern : string) : Attestor :=
  if bool_decide (regexPattern = "") then a
  else let al := get_allowList a in
       WithAllowList (Some (mkAllowList (al_Description al) (al_Paths al) (al_Regexes al ++ [regexPattern]) (al_StopWords al))) a.
Definition add_stopWord (a : Attestor) (stopWord : string) : Attestor :=
  if bool_decide (stopWord = "") then a
  else let al := get_allowList a in
       WithAllowList (Some (mkAllowList (al_Description al) (al_Paths al) (al_Regexes al) (al_StopWords al ++ [stopWord]))) a.

Definition secretscan_options : list (Configurer A) :=
  [ CBool (NewConfigOption "fail-on-detection" "Fail the attestation process if secrets are detected"
      defaultFailOnDetection (option_setter (λ a b, WithFailOnDetection b a)));
    CInt (NewConfigOption "max-file-size-mb" "Maximum file size to scan in megabytes"
      defaultMaxFileSizeMB (option_setter (λ a size, WithMaxFileSize size a)));
    CInt (NewConfigOption "max-decode-layers" "Maximum number of encoding layers to decode when searching for secrets"
      defaultMaxDecodeLayers (option_setter (λ a layers, WithMaxDecodeLayers layers a)));
    CString (NewConfigOption "config-path" "Path to custom Gitleaks configuration file"
      defaultConfigPath (option_setter (λ a path, WithConfigPath path a)));
    CString (NewConfigOption "allowlist-regex" "Regex pattern for content to ignore (can be specified multiple times)"
      "" (option_setter add_regex));
    CString (NewConfigOption "allowlist-stopword" "Specific string to ignore (can be specified multiple times)"
      "" (option_setter add_stopWord)) ].
End options.

Section scan.
Context `{CL : CryptoLib} `{GI : GitoidLib} `{GL : GlobLib} `{RO : RangeOrder}.
Context `{RX : RegexpLib} `{LK : GitleaksLib}.

(** * digest.go *)

(** Without a context the digest is SHA-256. *)
Definition secret_hashes (a : Attestor) : list DigestValue :=
  match scan_ctx a with Some c => sc_hashes c | None => [mkDV SHA256 false false] end.
Definition calculateSecretDigests (a : Attestor) (secret : string) : res DigestSet :=
  wrap "error calculating digest for secret" (CalculateDigestSetFromBytes secret (secret_hashes a)).

(** * detector.go *)

Definition loadCustomGitleaksConfig (a : Attestor) : res Detector :=
  _ ← match viper_ReadInConfig (configPath a) with
      | Err e =>
          if is_NotExist e
          then Err (Wrapf ("gitleaks config file not found at " +:+ configPath a) e)
          else Err (Wrapf ("error reading gitleaks config file " +:+ configPath a) e)
      | r => r
      end;
  viperConfig ← wrap ("error unmarshaling gitleaks config from " +:+ configPath a) (viper_Unmarshal (configPath a));
  cfg ← wrap ("error translating gitleaks config from " +:+ configPath a) (Translate viperConfig);
  Ok (NewDetector cfg).

(** The map from patterns to compiled patterns. *)
Definition compileRegexes (patterns : list string) : res (gmap string (string → bool)) :=
  range_res (λ (result : gmap string (string → bool)) pattern,
    compiledRegex ← wrap ("invalid regex pattern " +:+ QuoteToASCII pattern) (regexp_Compile pattern);
    Ok (<[pattern:=compiledRegex]> result)) ∅ patterns.

(** The allow list that is merged into the detector has the settings in its
    description, and only there. *)
Definition mergeAllowlistIntoGitleaksConfig (al : AllowList) (detector : Detector) : res Detector :=
  validatedPatterns ← wrap "error validating allowlist regexes" (compileRegexes (al_Regexes al));
  let d0 := foldl (λ d (kv : string * (string → bool)), d +:+ nl +:+ "Regex: " +:+ kv.1) "" (range_map 7 validatedPatterns) in
  let d1 := foldl (λ d w, d +:+ nl +:+ "Stop word: " +:+ w) d0 (al_StopWords al) in
  let d2 := foldl (λ d p, d +:+ nl +:+ "Path: " +:+ p) d1 (al_Paths al) in
  Ok (append_Allowlist detector d2).

(** An error of merging is logged. *)
Definition createDefaultGitleaksConfig (a : Attestor) : res Detector :=
  detector ← wrap "error creating default gitleaks detector" NewDetectorDefaultConfig;
  match allowList a with
  | None => Ok detector
  | Some al =>
      match mergeAllowlistIntoGitleaksConfig al detector with
      | Ok d => Ok d
      | Err _ => Ok detector
      | Panic w => Panic w
      end
  end.

Definition initGitleaksDetector (a : Attestor) : res Detector :=
  detector ← (if bool_decide (configPath a ≠ "") then loadCustomGitleaksConfig a
              else createDefaultGitleaksConfig a);
  Ok (if bool_decide (0 < maxFileSizeMB a)%Z then set_MaxTargetMegaBytes detector (maxFileSizeMB a) else detector).

(** * allowlist.go *)

(** A pattern that does not compile is passed over. *)
Definition matches_pattern (s pattern : string) : bool :=
  match regexp_Compile pattern with Ok re => re s | _ => false end.

Definition isAllowlisted (s : string) (al : option AllowList) (checkType : string) : bool :=
  match al with
  | None => false
  | Some al =>
      existsb (Contains s) (al_StopWords al) ||
      existsb (matches_pattern s) (al_Regexes al) ||
      (bool_decide (checkType = "content") && existsb (matches_pattern s) (al_Paths al))
  end.
Definition isContentAllowListed (content : string) (al : option AllowList) : bool :=
  isAllowlisted content al "content".
Definition isMatchAllowlisted (match_ : string) (al : option AllowList) : bool :=
  isAllowlisted match_ al "match".
Definition applies_allowlist (a : Attestor) : bool :=
  bool_decide (configPath a = "") && bool_decide (is_Some (allowList a)).
Definition isFileContentAllowListed (a : Attestor) (content filePath : string) : bool :=
  if applies_allowlist a then isContentAllowListed content (allowList a) else false.

(** * findings.go *)

Definition createSecureFinding (a : Attestor) (gf : report_Finding) (filePath : string)
    (encodingPath : list string) (isApproximate : bool) : res Finding :=
  digestSet ← wrap "error calculating digests for secret" (calculateSecretDigests a (gf_Secret gf));
  Ok (mkFinding (ToLower (gf_RuleID gf)) (gf_Description gf) filePath (gf_StartLine gf) digestSet
        (truncateMatch (gf_Match gf)) (gf_Entropy gf) encodingPath isApproximate).

(** The loop of [processGitleaksFindings]; the map of processed findings is
    never nil in the scanner. *)
Fixpoint processGitleaksFindings (a : Attestor) (gitleaksFindings : list report_Finding) (filePath : string)
    (isApproximate : bool) (processed : gset string) : res (gset string * list Finding) :=
  match gitleaksFindings with
  | [] => Ok (processed, [])
  | gf :: gfs =>
      if applies_allowlist a && isMatchAllowlisted (gf_Match gf) (allowList a)
      then processGitleaksFindings a gfs filePath isApproximate processed
      else
        let findingKey := filePath +:+ ":" +:+ gf_Secret gf in
        if bool_decide (findingKey ∈ processed)
        then processGitleaksFindings a gfs filePath isApproximate processed
        else
          let processed := {[findingKey]} ∪ processed in
          match createSecureFinding a gf filePath [] isApproximate with
          | Ok finding =>
              r ← processGitleaksFindings a gfs filePath isApproximate processed;
              Ok (r.1, finding :: r.2)
          | Err _ => processGitleaksFindings a gfs filePath isApproximate processed
          | Panic w => Panic w
          end
  end.

Definition set_Location (location : string) (f : Finding) : Finding :=
  mkFinding (f_RuleID f) (f_Description f) location (f_Line f) (f_Secret f) (f_Match f) (f_Entropy f)
    (f_EncodingPath f) (f_LocationApproximate f).
Definition setAttestationLocation (findings : list Finding) (attestorName : string) : list Finding :=
  set_Location ("attestation:" +:+ attestorName) <$> findings.
Definition setProductLocation (findings : list Finding) (productPath : string) : list Finding :=
  set_Location ("product:" +:+ productPath) <$> findings.

(** * envscan.go *)

Definition isEnvironmentVariableSensitive (key : string) (sensitiveEnvVars : gset string) : bool :=
  bool_decide (key ∈ sensitiveEnvVars) ||
  existsb (λ envVarPattern,
    Contains envVarPattern "*" &&
    match glob_Compile envVarPattern with Ok g => g key | _ => false end) (range_set 8 sensitiveEnvVars).

(** The capturer is asked for the variables it lets through; those it drops are
    the ones the user takes to be sensitive. *)
Definition getSensitiveEnvVarsList (os_Environ : list string) (capturer : option Capture)
    : option Capture * res (gset string) :=
  let sensitiveEnvVars := DefaultSensitiveEnvList in
  match capturer with
  | None => (None, Ok sensitiveEnvVars)
  | Some c =>
      let (c, processedEnvVars) := Capture_Capture c os_Environ in
      (Some c,
       processedKeys ← dom <$> processedEnvVars;
       Ok (foldl (λ sensitive envVar,
             let key := (splitVariable envVar).1 in
             if bool_decide (key ∈ (processedKeys : gset string)) then sensitive else {[key]} ∪ sensitive)
             sensitiveEnvVars os_Environ))
  end.

(** The places where a text that is not empty occurs, from left to right and not
    overlapping: what [FindAllStringIndex] gives for a quoted pattern. *)
Fixpoint find_literal_go (fuel off : nat) (s lit : string) : list nat :=
  match fuel with
  | 0 => []
  | S fuel =>
      if HasPrefix s lit then off :: find_literal_go fuel (off + slen lit) (drop_str (slen lit) s) lit
      else match s with
           | "" => []
           | String _ s => find_literal_go fuel (S off) s lit
           end
  end.
Definition find_literal (content lit : string) : list nat := find_literal_go (S (slen content)) 0 content lit.

(** The match at an offset with its context, the value itself replaced. *)
Definition redacted_match (content value : string) (startIdx : nat) : matchInfo :=
  let endIdx := startIdx + slen value in
  let startContextIdx := startIdx - redactionMatchContextSize in
  let endContextIdx := (endIdx + redactionMatchContextSize) `min` slen content in
  let contextPrefix := take_str (startIdx - startContextIdx) (drop_str startContextIdx content) in
  let contextSuffix := take_str (endContextIdx - endIdx) (drop_str endIdx content) in
  mkMatchInfo (length (SplitByte (take_str startIdx content) (ascii_of_nat 10)))
    (contextPrefix +:+ redactedValuePlaceholder +:+ contextSuffix).

(** [findPatternMatchesWithRedaction] for the quoted pattern of a value. *)
Definition findPatternMatchesWithRedaction (content value : string) : list matchInfo :=
  redacted_match content value <$> find_literal content value.

(** The variables with a value that is long enough and a sensitive name. *)
Definition sensitive_values (os_Environ : list string) (sensitiveEnvVars : gset string) : list (string * string) :=
  filter (λ kv, isEnvironmentVariableSensitive kv.1 sensitiveEnvVars = true)
    (filter (λ kv, minSensitiveValueLength ≤ slen kv.2) (splitVariable <$> os_Environ)).

Definition env_finding (a : Attestor) (filePath key value : string) (m : matchInfo) : res (list Finding) :=
  match calculateSecretDigests a value with
  | Ok digestSet =>
      Ok [mkFinding ("witness-env-value-" +:+ ReplaceByte key "_" "-")
            ("Sensitive environment variable value detected: " +:+ key) filePath (Z.of_nat (lineNumber m)) digestSet
            (truncateMatch (matchContext m)) 0 [] false]
  | Err _ => Ok []
  | Panic w => Panic w
  end.
(** A quoted pattern compiles if it is valid UTF-8. *)
Definition ScanForEnvVarValues (a : Attestor) (os_Environ : list string) (content filePath : string)
    (sensitiveEnvVars : gset string) : res (list Finding) :=
  collect (λ kv,
    if valid_utf8 kv.2
    then collect (env_finding a filePath kv.1 kv.2) (findPatternMatchesWithRedaction content kv.2)
    else Ok []) (sensitive_values os_Environ sensitiveEnvVars).

(** ** Decoded content *)

(** The loop over the prefixes, the longest first, down to three bytes. *)
Fixpoint longest_prefix (decodedContent value : string) (prefixLen : nat) : option string :=
  match prefixLen with
  | 0 => None
  | S n =>
      if bool_decide (prefixLen < 3) then None
      else if Contains decodedContent (take_str prefixLen value) then Some (take_str prefixLen value)
      else longest_prefix decodedContent value n
  end.

Definition partial_match (decodedContent value : string) : option string :=
  if bool_decide (3 ≤ slen value) then
    if Contains decodedContent (take_str 3 value +:+ nl) then Some (take_str 3 value +:+ nl)
    else longest_prefix decodedContent value (slen value - 1)
  else None.

(** The value that is reported, and whether it is a part of the variable's. *)
Definition match_value (decodedContent value : string) : option (string * bool) :=
  let exactMatch := Contains decodedContent value in
  let exactMatchWithNewline := Contains decodedContent (value +:+ nl) in
  let partial := partial_match decodedContent value in
  if exactMatchWithNewline then Some (value, false)
  else if exactMatch then Some (value, false)
  else match partial with Some partialValue => Some (partialValue, true) | None => None end.

(** The line with the value and what is shown of it. *)
Definition redacted_line (line matchValue : string) : string :=
  if bool_decide (slen line < 40) then Replace1 line matchValue "[REDACTED]"
  else
    let valueIndex := Z.to_nat (Index line matchValue) in
    let startIndex := valueIndex - 10 in
    let endIndex := slen line `min` (valueIndex + slen matchValue + 10) in
    Replace1 (take_str (endIndex - startIndex) (drop_str startIndex line)) matchValue "[REDACTED]".
Fixpoint find_line (lines : list string) (i : nat) (matchValue : string) : option (nat * string) :=
  match lines with
  | [] => None
  | line :: lines =>
      if Contains line matchValue then Some (S i, redacted_line line matchValue)
      else find_line lines (S i) matchValue
  end.
Definition shown_match (decodedContent matchValue : string) : nat * string :=
  match find_line (SplitByte decodedContent (ascii_of_nat 10)) 0 matchValue with
  | Some r => r
  | None => (0, "..." +:+ truncateMatch matchValue +:+ "...")
  end.

Definition decoded_finding (key encodingType sourceIdentifier : string) (isPartial : bool) (line : nat)
    (match_ : string) (digestSet : DigestSet) : Finding :=
  let partialSuffix := if isPartial then "-partial" else "" in
  mkFinding ("witness-encoded-env-value-" +:+ ReplaceByte key "_" "-" +:+ partialSuffix)
    ((if isPartial then "Partial encoded sensitive environment variable value detected: "
      else "Encoded sensitive environment variable value detected: ") +:+ key)
    sourceIdentifier (Z.of_nat line) digestSet match_ 0 [encodingType] true.

Fixpoint check_values_loop (a : Attestor) (decodedContent sourceIdentifier encodingType : string)
    (values : list (string * string)) (processed : gset string) : res (gset string * list Finding) :=
  match values with
  | [] => Ok (processed, [])
  | (key, value) :: values =>
      match match_value decodedContent value with
      | None => check_values_loop a decodedContent sourceIdentifier encodingType values processed
      | Some (matchValue, isPartial) =>
          match calculateSecretDigests a matchValue with
          | Err _ => check_values_loop a decodedContent sourceIdentifier encodingType values processed
          | Panic w => Panic w
          | Ok digestSet =>
              let (line, match_) := shown_match decodedContent matchValue in
              let findingKey := sourceIdentifier +:+ ":" +:+ itoa line +:+ ":" +:+ key +:+ ":" +:+ encodingType +:+
                                (if (isPartial : bool) then "-partial" else "") in
              if bool_decide (findingKey ∈ processed)
              then check_values_loop a decodedContent sourceIdentifier encodingType values processed
              else
                r ← check_values_loop a decodedContent sourceIdentifier encodingType values ({[findingKey]} ∪ processed);
                Ok (r.1, decoded_finding key encodingType sourceIdentifier isPartial line match_ digestSet :: r.2)
          end
      end
  end.
Definition checkDecodedContentForSensitiveValues (a : Attestor) (os_Environ : list string)
    (decodedContent sourceIdentifier encodingType : string) (sensitiveEnvVars : gset string)
    (processed : gset string) : res (gset string * list Finding) :=
  check_values_loop a decodedContent sourceIdentifier encodingType
    (sensitive_values os_Environ sensitiveEnvVars) processed.
End scan.
End SecretScan.
