(* ===== verification/SecretScanner.v ===== *)
(** attestation/secretscan/scanner.go: the scan of contents through layers of
    encoding, of the completed attestors and of the products.

    [scan_layers k] is [scanBytes] at depth [maxScanRecursionDepth + 1 - k]: the
    number [k] of layers that the recursion may still enter makes it structural.
    The environment of the process is the list [os_Environ]. *)
From S2P Require Import Prelude GoStrings GoText Errors Crypto Encodings Digest Paths Registry Attestation Constraints Environment Hooks Context Ptrace CommandRun SecretScan.
From stdpp Require Import options.

Module SecretScanner.
Import SecretScan.

(** The int64 an integer wraps around to. *)
Definition int64 (z : Z) : Z := ((z + 2 ^ 63) mod 2 ^ 64 - 2 ^ 63)%Z.

(** The files the scanner reads: the size [os.Stat] reports, and the contents. *)
Class ScanFS := {
  stat_Size : string → res Z;
  open_File : string → res Reader;
  MkdirTemp : err;
}.

(** encoding/json with indentation, and the interface [CommandRunAttestor], whose
    [Data] can be nil. *)
Class ScanJson (A : Type) := {
  json_MarshalIndent : A → res bytes;
  json_MarshalIndent_CommandRun : CommandRun.CommandRun → res bytes;
  CommandRunAttestor_Data : A → option (option CommandRun.CommandRun);
}.

(** What the findings are made from: the findings that are processed and the
    capturer of the context, which [Capture] changes. *)
Record scan_state := mkScanState { processedInThisScan : gset string; st_capturer : option Capture }.

Section scan.
Context `{CL : CryptoLib} `{GI : GitoidLib} `{GL : GlobLib} `{RO : RangeOrder}.
Context `{RX : RegexpLib} `{LK : GitleaksLib}.
Variable os_Environ : list string.

(** [fmt.Sprintf("%s", digestSet)]: sorted by the fields of the keys, which
    print as their hash. *)
Definition dv_rank (dv : DigestValue) : N :=
  (4 * dv_Hash dv + (if GitOID dv then 2 else 0) + (if DirHash dv then 1 else 0))%N.
Definition dv_le (a b : DigestValue * string) : Prop := (dv_rank a.1 ≤ dv_rank b.1)%N.
#[local] Instance dv_le_dec a b : Decision (dv_le a b).
Proof. unfold dv_le. apply _. Defined.
Definition fmt_DigestSet (ds : DigestSet) : string :=
  "map[" +:+ Join ((λ kv, Hash_String (dv_Hash kv.1) +:+ ":" +:+ kv.2) <$> merge_sort dv_le (map_to_list ds)) " " +:+ "]".

Definition get_sensitive (st : scan_state) : res (scan_state * gset string) :=
  let (c, r) := getSensitiveEnvVarsList os_Environ (st_capturer st) in
  vars ← r; Ok (mkScanState (processedInThisScan st) c, vars).

(** The findings of variables that are not processed yet. *)
Fixpoint filter_env_findings (sourceIdentifier : string) (envFindings : list Finding) (processed : gset string)
    : gset string * list Finding :=
  match envFindings with
  | [] => (processed, [])
  | finding :: fs =>
      let findingKey := sourceIdentifier +:+ ":" +:+ ztoa (f_Line finding) +:+ ":" +:+ fmt_DigestSet (f_Secret finding) in
      if bool_decide (findingKey ∈ processed) then filter_env_findings sourceIdentifier fs processed
      else let r := filter_env_findings sourceIdentifier fs ({[findingKey]} ∪ processed) in (r.1, finding :: r.2)
  end.

(** The encoding is put in front of the path of a finding in decoded content. *)
Definition prepend_encoding (name : string) (f : Finding) : Finding :=
  mkFinding (f_RuleID f) (f_Description f) (f_Location f) (f_Line f) (f_Secret f) (f_Match f) (f_Entropy f)
    (name :: f_EncodingPath f) true.

(** Decoded bytes that are worth a scan. *)
Definition worth_scanning (currentDepth : nat) (candidate decodedBytes : string) : bool :=
  bool_decide (minSensitiveValueLength ≤ slen decodedBytes) ||
  (bool_decide (0 < currentDepth) && bool_decide (0 < slen decodedBytes)) ||
  HasSuffix candidate "=".

Definition scan_result := (scan_state * list Finding)%type.

Section layers.
Variables (a : Attestor) (sourceIdentifier : string) (detector : Detector).

(** One candidate of one scanner; [rec] scans the decoded bytes one layer down. *)
Definition scan_candidate (rec : bytes → scan_state → res scan_result) (currentDepth : nat)
    (scanner : encodingScanner) (acc : scan_result) (candidate : string) : res scan_result :=
  match Decoder scanner candidate with
  | None => Ok acc
  | Some decodedBytes =>
      if worth_scanning currentDepth candidate decodedBytes then
        let decodedStr := TrimSpace decodedBytes in
        sv ← get_sensitive acc.1;
        env ← checkDecodedContentForSensitiveValues a os_Environ decodedStr sourceIdentifier (scanner_Name scanner)
                sv.2 (processedInThisScan sv.1);
        r ← rec decodedStr (mkScanState env.1 (st_capturer sv.1));
        Ok (r.1, acc.2 ++ env.2 ++ (prepend_encoding (scanner_Name scanner) <$> r.2))
      else Ok acc
  end.

Definition scan_encodings (rec : bytes → scan_state → res scan_result) (currentDepth : nat) (contentStr : string)
    (acc : scan_result) : res scan_result :=
  range_res (λ acc scanner,
    range_res (scan_candidate rec currentDepth scanner) acc (Finder scanner contentStr)) acc defaultEncodingScanners.

(** The layer itself: gitleaks, and at depth 0 the values of the environment. *)
Definition scan_layer (currentDepth : nat) (contentStr : string) (st : scan_state) : res scan_result :=
  gl ← processGitleaksFindings a (DetectBytes detector contentStr) sourceIdentifier
         (bool_decide (0 < currentDepth)) (processedInThisScan st);
  let st := mkScanState gl.1 (st_capturer st) in
  if bool_decide (currentDepth = 0) then
    sv ← get_sensitive st;
    envFindings ← ScanForEnvVarValues a os_Environ contentStr sourceIdentifier sv.2;
    let env := filter_env_findings sourceIdentifier envFindings (processedInThisScan sv.1) in
    Ok (mkScanState env.1 (st_capturer sv.1), gl.2 ++ env.2)
  else Ok (st, gl.2).

Fixpoint scan_layers (k : nat) (contentStr : bytes) (st : scan_state) : res scan_result :=
  match k with
  | 0 => Ok (st, [])
  | S k =>
      let currentDepth := maxScanRecursionDepth - k in
      if applies_allowlist a && isContentAllowListed contentStr (allowList a) then Ok (st, [])
      else
        layer ← scan_layer currentDepth contentStr st;
        if bool_decide (Z.of_nat currentDepth < maxDecodeLayers a)%Z
        then scan_encodings (scan_layers k) currentDepth contentStr layer
        else Ok layer
  end.

Definition scanBytes (contentBytes : bytes) (st : scan_state) (currentDepth : nat) : res scan_result :=
  scan_layers (S maxScanRecursionDepth - currentDepth) contentBytes st.

(** A scan of its own, with nothing processed; the capturer is the context's. *)
Definition fresh_scan (contentBytes : bytes) : res (Attestor * list Finding) :=
  r ← scanBytes contentBytes (mkScanState ∅ (sc_capturer <$> scan_ctx a)) 0;
  Ok (mkAttestor (failOnDetection a) (maxFileSizeMB a) (filePerm a) (allowList a) (configPath a) (maxDecodeLayers a)
        (Findings a) (subjects a)
        (match scan_ctx a, st_capturer r.1 with
         | Some c, Some cap => Some (mkScanContext (sc_hashes c) cap) | c, _ => c end), r.2).
End layers.

(** ** Files *)

Section files.
Context `{SF : ScanFS}.

(** [int64(a.maxFileSizeMB) * 1024 * 1024] *)
Definition maxSizeBytes (a : Attestor) : Z := int64 (int64 (int64 (maxFileSizeMB a) * 1024) * 1024).

Definition exceedsMaxFileSize (a : Attestor) (filePath : string) : res bool :=
  size ← wrap "error getting file info" (stat_Size filePath);
  Ok (bool_decide (0 < maxFileSizeMB a)%Z && bool_decide (maxSizeBytes a < size)%Z).

(** [io.LimitReader]: nothing is read when the limit is not positive. *)
Definition readFileContent (a : Attestor) (filePath : string) : res bytes :=
  file ← wrap "error opening file" (open_File filePath);
  content ← wrap "error reading file" file;
  Ok (take_str (Z.to_nat (maxSizeBytes a)) content).

Definition ScanFile (a : Attestor) (filePath : string) (detector : option Detector) : res (Attestor * list Finding) :=
  match detector with
  | None => Err (Errorf "nil detector provided")
  | Some detector =>
      exceeds ← exceedsMaxFileSize a filePath;
      if (exceeds : bool) then Ok (a, [])
      else
        content ← readFileContent a filePath;
        fresh_scan a filePath detector content
  end.

(** ** Attestors and products *)

Section attest.
Context {A : Type} `{AO : AttestorOps A} `{SJ : !ScanJson A}.
Variable detector : Detector.

Definition add_findings (a : Attestor) (fs : list Finding) : Attestor :=
  mkAttestor (failOnDetection a) (maxFileSizeMB a) (filePerm a) (allowList a) (configPath a) (maxDecodeLayers a)
    (Findings a ++ fs) (subjects a) (scan_ctx a).
Definition add_subject (a : Attestor) (name : string) (ds : DigestSet) : Attestor :=
  mkAttestor (failOnDetection a) (maxFileSizeMB a) (filePerm a) (allowList a) (configPath a) (maxDecodeLayers a)
    (Findings a) (<[name:=ds]> (subjects a)) (scan_ctx a).

Definition shouldSkipAttestor (attestor : A) : bool :=
  bool_decide (Attestor_Name attestor = Name) || bool_decide (Attestor_RunType attestor = RunType).

(** One part of a command run: nothing to scan, or a scan of its own. *)
Definition scan_part (acc : Attestor * list Finding) (identifier : string) (content : option bytes)
    : res (Attestor * list Finding) :=
  match content with
  | None => Ok acc
  | Some c => r ← fresh_scan acc.1 identifier detector c; Ok (r.1, acc.2 ++ r.2)
  end.
Definition scanCommandRunAttestor (a : Attestor) (data : option CommandRun.CommandRun) : res (Attestor * list Finding) :=
  match data with
  | None => Err (Errorf "nil CommandRun data")
  | Some cmdRun =>
      let non_empty s := if bool_decide (s = "") then None else Some s in
      out ← scan_part (a, []) "attestation:commandrun:stdout" (non_empty (CommandRun.Stdout cmdRun));
      err ← scan_part out "attestation:commandrun:stderr" (non_empty (CommandRun.Stderr cmdRun));
      json ← match json_MarshalIndent_CommandRun cmdRun with
             | Ok j => Ok (Some j) | Err _ => Ok None | Panic w => Panic w end;
      scan_part err "attestation:commandrun:json" json
  end.

Definition scanSingleAttestor (a : Attestor) (attestor : A) : res (Attestor * list Finding) :=
  match CommandRunAttestor_Data attestor with
  | Some data => scanCommandRunAttestor a data
  | None =>
      attestorJSON ← wrap ("error marshaling attestor " +:+ Attestor_Name attestor) (json_MarshalIndent attestor);
      fresh_scan a ("attestation_" +:+ Attestor_Name attestor +:+ ".json") detector attestorJSON
  end.

(** The loop over the completed attestors; an attestor that cannot be scanned is
    passed over. *)
Definition scan_completed (a : Attestor) (completed : CompletedAttestor A) : res Attestor :=
  let attestor := comp_Attestor completed in
  if shouldSkipAttestor attestor then Ok a
  else
    match scanSingleAttestor a attestor with
    | Ok (a, findings) => Ok (add_findings a (setAttestationLocation findings (Attestor_Name attestor)))
    | Err _ => Ok a
    | Panic w => Panic w
    end.
Definition scanAttestations (a : Attestor) (ctx : AttestationContext A) : res Attestor :=
  range_res scan_completed a (CompletedAttestors ctx).

Definition shouldSkipProduct (path : string) (product : Product) : bool :=
  bool_decide (prod_MimeType product = "text/directory") || isBinaryFile (prod_MimeType product).

(** [filepath.IsAbs] *)
Definition getAbsolutePath (path workingDir : string) : string :=
  if negb (is_rooted path) && bool_decide (workingDir ≠ "") then filepath_Join [workingDir; path] else path.

Definition scan_product (workingDir : string) (a : Attestor) (kv : string * Product) : res Attestor :=
  let (path, product) := kv in
  if shouldSkipProduct path product then Ok a
  else
    match ScanFile a (getAbsolutePath path workingDir) (Some detector) with
    | Ok (a, findings) =>
        Ok (add_subject (add_findings a (setProductLocation findings path)) ("product:" +:+ path) (prod_Digest product))
    | Err _ => Ok a
    | Panic w => Panic w
    end.
Definition scanProducts (a : Attestor) (ctx : AttestationContext A) : res Attestor :=
  range_res (scan_product (ctx_workingDir ctx)) a (range_map 9 (ctx_Products ctx)).
End attest.

(** [Attest]: the attestor, also next to an error. *)
Definition set_scan_ctx (a : Attestor) (c : ScanContext) : Attestor :=
  mkAttestor (failOnDetection a) (maxFileSizeMB a) (filePerm a) (allowList a) (configPath a) (maxDecodeLayers a)
    (Findings a) (subjects a) (Some c).
Definition Attest {A : Type} `{AO : AttestorOps A} `{SJ : !ScanJson A} (a : Attestor) (ctx : AttestationContext A)
    : Attestor * err :=
  let a := set_scan_ctx a (mkScanContext (ctx_hashes ctx) (ctx_capturer ctx)) in
  match wrap "error creating temp dir" MkdirTemp with
  | Err e => (a, Err e)
  | Panic w => (a, Panic w)
  | Ok _ =>
      match wrap "error initializing gitleaks detector" (initGitleaksDetector a) with
      | Err e => (a, Err e)
      | Panic w => (a, Panic w)
      | Ok detector =>
          match (a ← scanAttestations detector a ctx; scanProducts detector a ctx) with
          | Err e => (a, Err e)
          | Panic w => (a, Panic w)
          | Ok a =>
              (a, if failOnDetection a && bool_decide (0 < length (Findings a))
                  then Err (Errorf ("secret scanning failed: found " +:+ itoa (length (Findings a)) +:+ " secrets"))
                  else nil_error)
          end
      end
  end.
End files.
End scan.
End SecretScanner.
