(* ===== verification/SecretTheorems.v ===== *)
(** What the secret scanner finds and shows (SecretScan.v, SecretScanner.v): every
    secret the detector sees in a content that decodes from the scanned one is
    reported, by its digests; the recursion is bounded; and what the allow lists,
    the limits and the redaction do to that. *)
From S2P Require Import Prelude GoStrings GoText Errors Crypto Encodings Digest Toy Paths Registry Attestation Constraints Environment Hooks Context Ptrace CommandRun SecretScan SecretScanner.
From stdpp Require Import options.
Import SecretScan SecretScanner.

#[local] Unset Default Proof Using.

Section theorems.
Context `{CL : CryptoLib} `{GI : GitoidLib} `{GL : GlobLib} `{RO : RangeOrder}.
Context `{RX : RegexpLib} `{LK : GitleaksLib}.
Variable os_Environ : list string.

(** * The state of a scan *)

(** The capturer never panics. *)
Definition cap_ok (c : option Capture) : Prop := from_option (λ c, compiles (capture_keys c)) True c.

Lemma Capture_keeps_keys c env : capture_keys (Capture_Capture c env).1 = capture_keys c.
Proof.
  unfold Capture_Capture, capture_keys. cbn. destruct (disableSensitiveVarsDefault c); [done|].
  by rw -assoc_L idemp_L.
Qed.

Lemma get_sensitive_total st :
  cap_ok (st_capturer st) →
  ∃ st' vars, get_sensitive os_Environ st = Ok (st', vars) ∧
    processedInThisScan st' = processedInThisScan st ∧ cap_ok (st_capturer st').
Proof.
  intros Hc. unfold get_sensitive, getSensitiveEnvVarsList. destruct (st_capturer st) as [c|] eqn:Hst.
  - pose proof (Capture_keeps_keys c os_Environ) as Hk. pose proof (Capture_calls c os_Environ Hc) as Hcalls.
    destruct (Capture_Capture c os_Environ) as [c' r]. simpl in Hk, Hcalls. subst r. cbn [fmap res_fmap mbind res_bind].
    do 2 eexists. split; [done|]. split; [done|]. simpl. by rw Hk.
  - by do 2 eexists.
Qed.

Section scan.
Variables (a : Attestor) (src : string) (det : Detector).

(** The digests of the context can be calculated. *)
Hypothesis Hlinked : linked (secret_hashes a).

Lemma secret_digests_total s : ∃ ds, calculateSecretDigests a s = Ok ds.
Proof.
  unfold calculateSecretDigests, CalculateDigestSetFromBytes.
  destruct (CalculateDigestSet_total s _ Hlinked) as [ds ->]. by exists ds.
Qed.

(** The key under which a secret is processed. *)
Definition secret_key (secret : string) : string := src +:+ ":" +:+ secret.

(** The text that the finding of a variable's value is processed under: its line and its
    digests, or its line, the variable and the encoding. A secret that is this very
    text has the same key. *)
Definition variable_key (f : Finding) (text : string) : Prop :=
  text = ztoa (f_Line f) +:+ ":" +:+ fmt_DigestSet (f_Secret f) ∨
  ∃ line key enc part, f_Line f = Z.of_nat line ∧
    f_RuleID f = "witness-encoded-env-value-" +:+ ReplaceByte key "_" "-" +:+ part ∧
    text = itoa line +:+ ":" +:+ key +:+ ":" +:+ enc +:+ part.

(** The secret is reported: a finding has its digests; or the secret looks like the key
    of a finding, which is there. *)
Definition reported (fs : list Finding) (secret : string) : Prop :=
  ∃ f, f ∈ fs ∧ (calculateSecretDigests a secret = Ok (f_Secret f) ∨ variable_key f secret).

(** Every secret that was processed in between is reported. *)
Definition accounts (p p' : gset string) (fs : list Finding) : Prop :=
  p ⊆ p' ∧ ∀ secret, secret_key secret ∈ p' → secret_key secret ∈ p ∨ reported fs secret.

Lemma accounts_refl p : accounts p p [].
Proof. split; [done|]. auto. Qed.

Lemma reported_app fs fs' s : reported (fs ++ fs') s ↔ reported fs s ∨ reported fs' s.
Proof. unfold reported. setoid_rewrite elem_of_app. naive_solver. Qed.

Lemma accounts_trans p p1 p2 fs fs' : accounts p p1 fs → accounts p1 p2 fs' → accounts p p2 (fs ++ fs').
Proof.
  intros [Hs H] [Hs' H']. split; [set_solver|]. intros s Hk. rw reported_app.
  destruct (H' s Hk) as [Hk1|?]; [|auto]. destruct (H s Hk1); auto.
Qed.

(** A change of the findings that keeps their rules, lines and digests. *)
Lemma accounts_map (g : Finding → Finding) p p' fs :
  (∀ f, f_Secret (g f) = f_Secret f ∧ f_Line (g f) = f_Line f ∧ f_RuleID (g f) = f_RuleID f) →
  accounts p p' fs → accounts p p' (g <$> fs).
Proof.
  intros Hg [Hs H]. split; [done|]. intros s Hk. destruct (H s Hk) as [?|(f & Hf & Hd)]; [by left|right].
  exists (g f). split; [apply list_elem_of_fmap; by exists f|]. unfold variable_key.
  destruct (Hg f) as (-> & -> & ->). done.
Qed.

(** A finding accounts for the text of its key. *)
Lemma accounts_one p f text :
  (calculateSecretDigests a text = Ok (f_Secret f) ∨ variable_key f text) → accounts p ({[secret_key text]} ∪ p) [f].
Proof.
  intros Hf. split; [set_solver|]. intros s [Hk|Hk]%elem_of_union; [right|by left].
  apply elem_of_singleton in Hk. unfold secret_key in Hk.
  apply (inj (String.append src)) in Hk. apply (inj (String.append ":")) in Hk as ->. exists f. split; [left|done].
Qed.

(** ** The findings of the detector *)

Definition shown (gf : report_Finding) : Prop :=
  applies_allowlist a && isMatchAllowlisted (gf_Match gf) (allowList a) = false.

Lemma processGitleaks_spec gfs approx p :
  ∃ p' fs, processGitleaksFindings a gfs src approx p = Ok (p', fs) ∧ accounts p p' fs ∧
    (∀ gf, gf ∈ gfs → shown gf → secret_key (gf_Secret gf) ∈ p') ∧
    Forall (λ f, f_EncodingPath f = []) fs.
Proof.
  revert p. induction gfs as [|gf gfs IH]; intros p; cbn [processGitleaksFindings].
  { exists p, []. split; [done|]. split; [apply accounts_refl|]. split; [by intros ? ?%not_elem_of_nil|done]. }
  destruct (applies_allowlist a && _) eqn:Hal.
  { destruct (IH p) as (p' & fs & Hr & Hacc & Hall & Hpath). exists p', fs. split_and!; [done..| |done].
    intros gf' [->|Hin]%elem_of_cons Hs; [|by apply Hall]. unfold shown in Hs. congruence. }
  case_bool_decide as Hin.
  { destruct (IH p) as (p' & fs & Hr & Hacc & Hall & Hpath). exists p', fs. split_and!; [done..| |done].
    intros gf' [->|Hgf]%elem_of_cons Hs; [|by apply Hall]. destruct Hacc as [Hsub _]. by apply Hsub. }
  unfold createSecureFinding. destruct (secret_digests_total (gf_Secret gf)) as [ds Hds]. rw Hds. cbn [wrap mbind res_bind].
  destruct (IH ({[src +:+ ":" +:+ gf_Secret gf]} ∪ p)) as (p' & fs & Hr & Hacc & Hall & Hpath).
  rw Hr. cbn [mbind res_bind fst snd]. do 2 eexists. split; [done|]. split; [|split].
  - eapply (accounts_trans _ _ _ [_]); [apply (accounts_one _ _ (gf_Secret gf)); by left|done].
  - destruct Hacc as [Hsub _]. intros gf' [->|Hgf]%elem_of_cons Hs; [apply Hsub; unfold secret_key; set_solver|by apply Hall].
  - by constructor.
Qed.

(** ** The findings of variables *)

Lemma env_findings_total content vars :
  ∃ fs, ScanForEnvVarValues a os_Environ content src vars = Ok fs ∧ Forall (λ f, f_EncodingPath f = []) fs.
Proof.
  unfold ScanForEnvVarValues.
  assert (Hone : ∀ k v m, ∃ fs, env_finding a src k v m = Ok fs ∧ Forall (λ f, f_EncodingPath f = []) fs).
  { intros k v m. unfold env_finding. destruct (secret_digests_total v) as [ds ->].
    eexists. split; [done|]. by repeat constructor. }
  assert (Hcoll : ∀ {B} (g : B → res (list Finding)) l,
    (∀ x, ∃ fs, g x = Ok fs ∧ Forall (λ f, f_EncodingPath f = []) fs) →
    ∃ fs, collect g l = Ok fs ∧ Forall (λ f, f_EncodingPath f = []) fs).
  { intros B g l Hg. induction l as [|x l (fs & Hl & Hf)]; [by exists []|]. destruct (Hg x) as (fs1 & Hx & Hf1).
    cbn [collect]. rw Hx Hl. eexists. split; [done|]. by apply Forall_app. }
  apply Hcoll. intros [k v]. cbn [fst snd]. destruct (valid_utf8 v); [|by exists []].
  apply Hcoll. intros m. apply Hone.
Qed.

Lemma filter_env_accounts fs p :
  accounts p (filter_env_findings src fs p).1 (filter_env_findings src fs p).2 ∧
  (∀ f, f ∈ (filter_env_findings src fs p).2 → f ∈ fs).
Proof.
  revert p. induction fs as [|f fs IH]; intros p; cbn [filter_env_findings]; [by split; [apply accounts_refl|]|].
  case_bool_decide as Hin.
  { destruct (IH p) as [H1 H2]. split; [done|]. intros g Hg. right. by apply H2. }
  match goal with |- context [filter_env_findings src fs ?q] => destruct (IH q) as [H1 H2] end. cbn [fst snd].
  split.
  - eapply (accounts_trans _ _ _ [f]); [|done]. apply (accounts_one p f). right. by left.
  - intros g [->|Hg]%elem_of_cons; [left|right; by apply H2].
Qed.

Lemma check_values_spec dec enc values p :
  ∃ p' fs, check_values_loop a dec src enc values p = Ok (p', fs) ∧ accounts p p' fs ∧
    Forall (λ f, f_EncodingPath f = [enc]) fs.
Proof.
  revert p. induction values as [|[key value] values IH]; intros p; cbn [check_values_loop].
  { exists p, []. split; [done|]. by split; [apply accounts_refl|]. }
  destruct (match_value dec value) as [[mv part]|]; [|apply IH].
  destruct (secret_digests_total mv) as [ds ->]. destruct (shown_match dec mv) as [line m].
  case_bool_decide as Hin; [apply IH|].
  match goal with |- context [check_values_loop _ _ _ _ values ?q] => destruct (IH q) as (p' & fs & Hr & Hacc & Hpath) end.
  rw Hr. cbn [mbind res_bind fst snd]. do 2 eexists. split; [done|]. split; [|by constructor].
  eapply (accounts_trans _ _ _ [_]); [|done]. apply accounts_one. right. right.
  exists line, key, enc, (if part then "-partial" else ""). split; [done|]. split; [|done]. cbn [f_RuleID decoded_finding].
  by destruct part.
Qed.

(** ** The layers *)

Definition seen_content (s : string) : Prop :=
  applies_allowlist a && isContentAllowListed s (allowList a) = false.

(** [reach k c s]: with [k] layers left the scan of [c] comes to the content [s],
    decoded from parts of [c], and scans it. *)
Inductive reach : nat → string → string → Prop :=
  | reach_here k c : reach (S k) c c
  | reach_down k c scanner candidate decoded s :
      seen_content c → (Z.of_nat (maxScanRecursionDepth - k) < maxDecodeLayers a)%Z →
      scanner ∈ defaultEncodingScanners → candidate ∈ Finder scanner c →
      Decoder scanner candidate = Some decoded →
      worth_scanning (maxScanRecursionDepth - k) candidate decoded = true →
      reach k (TrimSpace decoded) s → reach (S k) c s.

(** The secrets the detector sees in what is reached are processed. *)
Definition processes (k : nat) (c : string) (p : gset string) : Prop :=
  ∀ s gf, reach k c s → seen_content s → gf ∈ DetectBytes det s → shown gf → secret_key (gf_Secret gf) ∈ p.

(** The longest path of encodings with [k] layers left. *)
Definition longest_path (k : nat) : nat := k `min` (Z.to_nat (maxDecodeLayers a) - (S maxScanRecursionDepth - k)).
Definition short_paths (n : nat) (fs : list Finding) : Prop := Forall (λ f, length (f_EncodingPath f) ≤ n) fs.

Record scanned (n : nat) (p : gset string) (r : scan_result) : Prop := {
  scanned_cap : cap_ok (st_capturer r.1);
  scanned_accounts : accounts p (processedInThisScan r.1) r.2;
  scanned_paths : short_paths n r.2;
}.

Lemma scan_layer_spec d c st n :
  cap_ok (st_capturer st) →
  ∃ r, scan_layer os_Environ a src det d c st = Ok r ∧ scanned n (processedInThisScan st) r ∧
    (∀ gf, gf ∈ DetectBytes det c → shown gf → secret_key (gf_Secret gf) ∈ processedInThisScan r.1).
Proof.
  intros Hcap. unfold scan_layer.
  destruct (processGitleaks_spec (DetectBytes det c) (bool_decide (0 < d)) (processedInThisScan st))
    as (p & fs & -> & Hacc & Hall & Hpath). cbn [mbind res_bind fst snd].
  assert (Hshort : ∀ l, Forall (λ f, f_EncodingPath f = []) l → short_paths n l).
  { intros l Hl. eapply Forall_impl; [done|]. intros f ->. simpl. lia. }
  case_bool_decide as Hd.
  - destruct (get_sensitive_total (mkScanState p (st_capturer st)) Hcap) as (st' & vars & -> & Hp & Hcap').
    cbn [mbind res_bind fst snd]. destruct (env_findings_total c vars) as (efs & -> & Hep). cbn [mbind res_bind].
    destruct (filter_env_accounts efs (processedInThisScan st')) as [Hacc' Hin']. simpl in Hp.
    eexists. split; [done|]. split; [split; cbn [fst snd st_capturer processedInThisScan]; [done| |]|].
    + eapply accounts_trans; [done|]. by rw -Hp.
    + apply Forall_app. split; [by apply Hshort|]. apply Hshort. apply Forall_forall. intros f Hf.
      rewrite Forall_forall in Hep. by apply Hep, Hin'.
    + intros gf Hgf Hs. destruct Hacc' as [Hsub _]. apply Hsub. rw Hp. by apply Hall.
  - eexists. split; [done|]. split; [split|]; [done|done|by apply Hshort|done].
Qed.

(** One candidate, when the scan one layer down is as it should be. *)
Lemma scan_candidate_spec rec d m n p scanner candidate acc :
  (∀ c st, cap_ok (st_capturer st) → ∃ r, rec c st = Ok r ∧ scanned m (processedInThisScan st) r) →
  S m ≤ n → 1 ≤ n → scanned n p acc →
  ∃ r, scan_candidate os_Environ a src rec d scanner acc candidate = Ok r ∧ scanned n p r ∧
    processedInThisScan acc.1 ⊆ processedInThisScan r.1 ∧
    (∀ decoded, Decoder scanner candidate = Some decoded → worth_scanning d candidate decoded = true →
       ∃ st r', rec (TrimSpace decoded) st = Ok r' ∧ cap_ok (st_capturer st) ∧
                processedInThisScan r'.1 = processedInThisScan r.1).
Proof.
  intros Hrec Hm Hn [Hcap Hacc Hpath]. unfold scan_candidate.
  destruct (Decoder scanner candidate) as [decoded|].
  2:{ exists acc. split_and!; [done|by split|done|done]. }
  destruct (worth_scanning d candidate decoded) eqn:Hw.
  2:{ exists acc. split_and!; [done|by split|done|]. intros ? [= <-] Hw'. congruence. }
  destruct (get_sensitive_total acc.1 Hcap) as (st1 & vars & -> & Hp1 & Hcap1). cbn [mbind res_bind fst snd].
  unfold checkDecodedContentForSensitiveValues.
  destruct (check_values_spec (TrimSpace decoded) (scanner_Name scanner) (sensitive_values os_Environ vars)
    (processedInThisScan st1)) as (p2 & efs & -> & Hacc2 & Hpath2). cbn [mbind res_bind fst snd].
  destruct (Hrec (TrimSpace decoded) (mkScanState p2 (st_capturer st1)) Hcap1) as (r & Hr & [Hcap3 Hacc3 Hpath3]).
  rw Hr. cbn [mbind res_bind]. eexists. split; [done|]. cbn [fst snd]. split; [split|split]; cbn [fst snd].
  - done.
  - eapply accounts_trans; [done|]. rw -Hp1. eapply accounts_trans; [done|]. by apply accounts_map.
  - apply Forall_app. split; [done|]. apply Forall_app. split.
    + eapply Forall_impl; [done|]. intros f ->. done.
    + apply Forall_fmap. eapply Forall_impl; [done|]. intros f Hf. simpl in *. lia.
  - destruct Hacc2 as [Hs2 _], Hacc3 as [Hs3 _]. simpl in Hs3. rw -Hp1. set_solver.
  - intros ? [= <-] _. exists (mkScanState p2 (st_capturer st1)), r. by split_and!.
Qed.

Lemma scan_layers_spec k : k ≤ S maxScanRecursionDepth → ∀ c st, cap_ok (st_capturer st) →
  ∃ r, scan_layers os_Environ a src det k c st = Ok r ∧
    scanned (longest_path k) (processedInThisScan st) r ∧ processes k c (processedInThisScan r.1).
Proof.
  induction k as [|k IH]; intros Hk c st Hcap; cbn [scan_layers].
  { exists (st, []). split; [done|]. split; [split; [done|apply accounts_refl|constructor]|].
    intros s gf Hr. inversion Hr. }
  specialize (IH ltac:(lia)). set (d := maxScanRecursionDepth - k).
  destruct (applies_allowlist a && _) eqn:Hal.
  { exists (st, []). split; [done|]. split; [split; [done|apply accounts_refl|constructor]|].
    intros s gf Hr Hseen. unfold seen_content in Hseen. inversion Hr; subst; [congruence|].
    unfold seen_content in *. congruence. }
  destruct (scan_layer_spec d c st (longest_path (S k)) Hcap) as (layer & -> & Hlayer & Hall). cbn [mbind res_bind].
  case_bool_decide as Hd.
  2:{ exists layer. split; [done|]. split; [done|]. intros s gf Hr Hseen Hgf Hs. inversion Hr; subst; [by apply Hall|done]. }
  assert (S (longest_path k) ≤ longest_path (S k)) as Hlen.
  { unfold longest_path, maxScanRecursionDepth in *. subst d. lia. }
  assert (Hrec : ∀ c' st', cap_ok (st_capturer st') → ∃ r, scan_layers os_Environ a src det k c' st' = Ok r ∧
    scanned (longest_path k) (processedInThisScan st') r).
  { intros c' st' Hc'. destruct (IH c' st' Hc') as (r & Hr & Hsc & _). by exists r. }
  set (grows := λ r1 r2 : scan_result, processedInThisScan r1.1 ⊆ processedInThisScan r2.1).
  assert (Reflexive grows) as Hrefl by (intros r; unfold grows; done).
  assert (Transitive grows) as Htrans by (intros r1 r2 r3; unfold grows; set_solver).
  assert (Hinner : ∀ scanner acc, scanned (longest_path (S k)) (processedInThisScan st) acc →
    ∃ r, range_res (scan_candidate os_Environ a src (scan_layers os_Environ a src det k) d scanner) acc (Finder scanner c) = Ok r ∧
      scanned (longest_path (S k)) (processedInThisScan st) r ∧ grows acc r ∧
      ∀ candidate, candidate ∈ Finder scanner c → ∀ decoded, Decoder scanner candidate = Some decoded →
        worth_scanning d candidate decoded = true → processes k (TrimSpace decoded) (processedInThisScan r.1)).
  { intros scanner acc Hacc. apply range_res_total; [done|done| | |done].
    - intros x s1 s2 HQ HR decoded Hdec Hw s gf H1 H2 H3 H4. apply HR. by eapply HQ.
    - intros candidate acc1 _ Hacc1.
      destruct (scan_candidate_spec _ d _ _ (processedInThisScan st) scanner candidate acc1 Hrec Hlen ltac:(lia) Hacc1)
        as (r & Hr & Hsc & Hgrow & Hdown). exists r. split_and!; [done..|].
      intros decoded Hdec Hw. destruct (Hdown decoded Hdec Hw) as (st2 & r2 & Hr2 & Hcap2 & Heq). rw -Heq.
      destruct (IH (TrimSpace decoded) st2 Hcap2) as (r3 & Hr3 & _ & Hproc). rw Hr2 in Hr3. by simplify_eq. }
  unfold scan_encodings.
  destruct (range_res_total (λ acc scanner, range_res (scan_candidate os_Environ a src (scan_layers os_Environ a src det k) d scanner)
    acc (Finder scanner c)) (scanned (longest_path (S k)) (processedInThisScan st)) grows
    (λ scanner r, ∀ candidate, candidate ∈ Finder scanner c → ∀ decoded, Decoder scanner candidate = Some decoded →
        worth_scanning d candidate decoded = true → processes k (TrimSpace decoded) (processedInThisScan r.1))
    defaultEncodingScanners layer) as (r & Hr & Hsc & Hgrow & Hdone).
  - done.
  - done.
  - intros x s1 s2 HQ HR candidate Hin decoded Hdec Hw s gf H1 H2 H3 H4. apply HR. by eapply HQ.
  - intros scanner acc _ Hacc. apply Hinner, Hacc.
  - done.
  - exists r. split; [exact Hr|]. split; [done|]. intros s gf Hreach Hseen Hgf Hs.
    inversion Hreach as [|? ? scanner candidate decoded ? _ _ Hsc' Hcand Hdec Hw Hdown]; subst.
    + apply Hgrow. by apply Hall.
    + eapply (Hdone scanner Hsc' candidate Hcand decoded Hdec Hw); done.
Qed.

Lemma fresh_scan_spec content :
  cap_ok (sc_capturer <$> scan_ctx a) →
  ∃ a' fs, fresh_scan os_Environ a src det content = Ok (a', fs) ∧
    short_paths (longest_path (S maxScanRecursionDepth)) fs ∧
    (∀ s gf, reach (S maxScanRecursionDepth) content s → seen_content s → gf ∈ DetectBytes det s → shown gf →
       reported fs (gf_Secret gf)) ∧
    (∃ c, a' = mkAttestor (failOnDetection a) (maxFileSizeMB a) (filePerm a) (allowList a) (configPath a)
                 (maxDecodeLayers a) (Findings a) (subjects a) c ∧
          cap_ok (sc_capturer <$> c) ∧ (sc_hashes <$> c) = (sc_hashes <$> scan_ctx a)).
Proof.
  intros Hcap. unfold fresh_scan, scanBytes. rw Nat.sub_0_r.
  destruct (scan_layers_spec (S maxScanRecursionDepth) ltac:(done) content (mkScanState ∅ (sc_capturer <$> scan_ctx a)) Hcap)
    as (r & -> & [Hc [Hsub Hacc] Hpath] & Hproc). cbn [mbind res_bind]. do 2 eexists. split; [done|].
  split; [done|]. split.
  - intros s gf Hr Hseen Hgf Hs. destruct (Hacc _ (Hproc s gf Hr Hseen Hgf Hs)) as [Hin|?]; [|done].
    by apply elem_of_empty in Hin.
  - eexists. split; [done|]. destruct (scan_ctx a) as [c|], (st_capturer r.1) as [cap|]; by split.
Qed.
End scan.

(** C30: completeness of the scan. It never fails, and whatever the detector sees
    in a content that is reached from the scanned one, by decoding parts of it
    again and again, is reported by its digests. This goes as
    deep as the configured number of layers, but no deeper than
    [maxScanRecursionDepth], which is three; contents and matches that an allow list
    of the attestor drops are left out. (A secret that is
    the text of another finding's key, such as "3:TOKEN:base64", is taken for that
    finding, which is there; [reported].) *)
Theorem scan_complete (a : Attestor) src det content :
  linked (secret_hashes a) → cap_ok (sc_capturer <$> scan_ctx a) →
  ∃ a' fs, fresh_scan os_Environ a src det content = Ok (a', fs) ∧
    ∀ s gf, reach a (S maxScanRecursionDepth) content s → seen_content a s →
      gf ∈ DetectBytes det s → shown a gf → reported a fs (gf_Secret gf).
Proof.
  intros Hl Hc. destruct (fresh_scan_spec a src det Hl content Hc) as (a' & fs & Hr & _ & Hall & _).
  exists a', fs. by split.
Qed.

(** C31: the recursion is bounded. A scan ends at any content, after at most four
    layers of decoding, and no more than the configured number: the path of
    encodings of a finding is no longer than both. *)
Theorem scan_depth_bounded (a : Attestor) src det content :
  linked (secret_hashes a) → cap_ok (sc_capturer <$> scan_ctx a) →
  ∃ a' fs, fresh_scan os_Environ a src det content = Ok (a', fs) ∧
    ∀ f, f ∈ fs → length (f_EncodingPath f) ≤ 4 ∧ (Z.of_nat (length (f_EncodingPath f)) ≤ Z.max 0 (maxDecodeLayers a))%Z.
Proof.
  intros Hl Hc. destruct (fresh_scan_spec a src det Hl content Hc) as (a' & fs & Hr & Hpath & _).
  exists a', fs. split; [done|]. intros f Hf. unfold short_paths in Hpath. rewrite Forall_forall in Hpath.
  apply Hpath in Hf. unfold longest_path, maxScanRecursionDepth in Hf. lia.
Qed.

(** A secret in base64 does not escape. When a content holds the base64 text
    of eleven or more bytes between bytes that belong to no such text, and one
    layer is to be decoded, what the detector sees in the decoded bytes is
    reported. *)
Theorem encoded_secret_found (a : Attestor) src det pre c1 s c2 post gf :
  linked (secret_hashes a) → cap_ok (sc_capturer <$> scan_ctx a) → allowList a = None →
  (0 < maxDecodeLayers a)%Z → separates c1 = true → separates c2 = true → 11 ≤ slen s →
  gf ∈ DetectBytes det (TrimSpace s) →
  ∃ a' fs, fresh_scan os_Environ a src det (pre +:+ String c1 (base64 s +:+ String c2 post)) = Ok (a', fs) ∧
    reported a fs (gf_Secret gf).
Proof.
  intros Hl Hc Hal Hlayers H1 H2 Hs Hgf.
  assert (Hseen : ∀ x, applies_allowlist a && x = false).
  { intros x. unfold applies_allowlist. rw Hal. rw (bool_decide_eq_false_2 (is_Some None)); [|by intros []].
    by rw andb_false_r. }
  destruct (fresh_scan_spec a src det Hl (pre +:+ String c1 (base64 s +:+ String c2 post)) Hc)
    as (a' & fs & Hr & _ & Hall & _). exists a', fs. split; [done|].
  apply (Hall (TrimSpace s) gf); [|apply Hseen|done|apply Hseen].
  apply (reach_down _ _ _ (mkScanner "base64" findPotentialBase64Strings decodeBase64String) (base64 s) s);
    [apply Hseen| |left|by apply find_base64_isolated|apply decodeBase64String_base64| |constructor].
  - by rw Nat.sub_diag.
  - unfold worth_scanning. rw bool_decide_eq_true_2; [done|]. unfold minSensitiveValueLength. lia.
Qed.

(** * The attestor *)

(** What a scan leaves alone. *)
Definition same_config (a a1 : Attestor) : Prop :=
  failOnDetection a1 = failOnDetection a ∧ maxFileSizeMB a1 = maxFileSizeMB a ∧ allowList a1 = allowList a ∧
  configPath a1 = configPath a ∧ maxDecodeLayers a1 = maxDecodeLayers a ∧
  sc_hashes <$> scan_ctx a1 = sc_hashes <$> scan_ctx a.
#[local] Instance same_config_refl : Reflexive same_config.
Proof. by intros a. Qed.
#[local] Instance same_config_trans : Transitive same_config.
Proof. intros a1 a2 a3 (?&?&?&?&?&?) (?&?&?&?&?&?). unfold same_config. split_and!; congruence. Qed.

Lemma same_config_hashes a a1 : same_config a a1 → secret_hashes a1 = secret_hashes a.
Proof.
  intros (_&_&_&_&_&H). unfold secret_hashes. destruct (scan_ctx a), (scan_ctx a1); simplify_eq/=; congruence.
Qed.
Lemma same_config_applies a a1 : same_config a a1 → applies_allowlist a1 = applies_allowlist a.
Proof. intros (_&_&H1&H2&_). unfold applies_allowlist. by rw H1 H2. Qed.

Lemma same_config_reach a a1 k c s : same_config a a1 → reach a k c s → reach a1 k c s.
Proof.
  intros Hs. assert (Ha := same_config_applies a a1 Hs). destruct Hs as (_&_&Hal&_&Hl&_).
  induction 1 as [|k c scanner candidate decoded s Hseen Hd Hsc Hcand Hdec Hw _ IH]; [constructor|].
  eapply reach_down; [|by rw Hl|done..]. unfold seen_content in *. by rw Ha Hal.
Qed.

(** The state the loops keep: the configuration, and findings that only grow. *)
Definition scan_ok (a a1 : Attestor) : Prop := same_config a a1 ∧ cap_ok (sc_capturer <$> scan_ctx a1).
Definition grows (a a1 : Attestor) : Prop := Findings a1 = [] → Findings a = [].
#[local] Instance grows_refl : Reflexive grows.
Proof. intros a. by unfold grows. Qed.
#[local] Instance grows_trans : Transitive grows.
Proof. intros a1 a2 a3. unfold grows. auto. Qed.

Section attest.
Context `{SF : ScanFS} {A : Type} `{AO : AttestorOps A} `{SJ : !ScanJson A}.
Variables (a0 : Attestor) (det : Detector).
Hypothesis Hlinked : linked (secret_hashes a0).

Lemma fresh_scan_ok a1 src content :
  scan_ok a0 a1 →
  ∃ a2 fs, fresh_scan os_Environ a1 src det content = Ok (a2, fs) ∧ scan_ok a0 a2 ∧ Findings a2 = Findings a1 ∧
    (∀ s gf, reach a0 (S maxScanRecursionDepth) content s → seen_content a0 s → gf ∈ DetectBytes det s → shown a0 gf →
       fs ≠ []).
Proof.
  intros [Hsame Hcap]. assert (Hh := same_config_hashes _ _ Hsame). assert (Ha := same_config_applies _ _ Hsame).
  destruct (fresh_scan_spec a1 src det ltac:(by rw Hh) content Hcap) as (a2 & fs & Hr & _ & Hall & c & -> & Hc & Heq).
  exists (mkAttestor (failOnDetection a1) (maxFileSizeMB a1) (filePerm a1) (allowList a1) (configPath a1)
    (maxDecodeLayers a1) (Findings a1) (subjects a1) c), fs.
  split; [done|]. split; [split; [|done]|split; [done|]].
  - etrans; [done|]. by split_and!.
  - intros s gf Hreach Hseen Hgf Hs ->. assert (Hal : allowList a1 = allowList a0) by apply Hsame.
    destruct (Hall s gf) as (f & Hf%not_elem_of_nil & _); [by eapply same_config_reach| |done| |done].
    + unfold seen_content in *. by rw Ha Hal.
    + unfold shown in *. by rw Ha Hal.
Qed.

Lemma add_findings_ok a1 fs : scan_ok a0 a1 → scan_ok a0 (add_findings a1 fs).
Proof. by intros [? ?]. Qed.
Lemma add_findings_grows a1 fs : grows a1 (add_findings a1 fs).
Proof. unfold grows. simpl. by intros [? _]%app_eq_nil. Qed.

Lemma scan_part_ok acc identifier content acc' :
  scan_ok a0 acc.1 → scan_part os_Environ det acc identifier content = Ok acc' →
  scan_ok a0 acc'.1 ∧ Findings acc'.1 = Findings acc.1.
Proof.
  intros Hok. unfold scan_part. destruct content as [c|]; [|by intros [= <-]].
  destruct (fresh_scan_ok acc.1 identifier c Hok) as (a2 & fs & -> & Hok2 & Hf & _). by intros [= <-].
Qed.

Lemma scanSingleAttestor_ok a1 attestor a2 fs :
  scan_ok a0 a1 → scanSingleAttestor os_Environ det a1 attestor = Ok (a2, fs) →
  scan_ok a0 a2 ∧ Findings a2 = Findings a1.
Proof.
  intros Hok. unfold scanSingleAttestor. destruct (CommandRunAttestor_Data attestor) as [[cr|]|]; [|done|].
  - unfold scanCommandRunAttestor.
    intros (out & Hout & (er & Her & (js & _ & Hjs)%res_bind_ok)%res_bind_ok)%res_bind_ok.
    apply scan_part_ok in Hout as [Ho Hf1]; [|done]. apply scan_part_ok in Her as [He Hf2]; [|done].
    apply scan_part_ok in Hjs as [Hj Hf3]; [|done]. cbn [fst] in *. split; [done|]. congruence.
  - intros (js & _ & Hjs)%res_bind_ok.
    destruct (fresh_scan_ok a1 ("attestation_" +:+ Attestor_Name attestor +:+ ".json") js Hok) as (a3 & fs3 & Hr & Hok3 & Hf & _).
    rw Hr in Hjs. by simplify_eq.
Qed.

Lemma scan_completed_ok completed a1 a2 :
  scan_ok a0 a1 → scan_completed os_Environ det a1 completed = Ok a2 → scan_ok a0 a2 ∧ grows a1 a2.
Proof.
  intros Hok. unfold scan_completed. destruct (shouldSkipAttestor _); [by intros [= <-]|].
  destruct (scanSingleAttestor _ _ _ _) as [[a3 fs]| |] eqn:Hs; [|by intros [= <-]|done].
  apply scanSingleAttestor_ok in Hs as [Hok3 Hf]; [|done]. intros [= <-].
  split; [by apply add_findings_ok|]. unfold grows. rw -Hf. apply add_findings_grows.
Qed.

(** The contents of a file that is scanned. *)
Definition scanned_file (a : Attestor) (filePath : string) (content : bytes) : Prop :=
  exceedsMaxFileSize a filePath = Ok false ∧ readFileContent a filePath = Ok content.

Lemma scan_product_ok wd kv a1 a2 :
  scan_ok a0 a1 → scan_product os_Environ det wd a1 kv = Ok a2 →
  (scan_ok a0 a2 ∧ grows a1 a2) ∧
  (shouldSkipProduct kv.1 kv.2 = false → ∀ content, scanned_file a0 (getAbsolutePath kv.1 wd) content →
   ∀ s gf, reach a0 (S maxScanRecursionDepth) content s → seen_content a0 s → gf ∈ DetectBytes det s → shown a0 gf →
     Findings a2 ≠ []).
Proof.
  intros Hok. unfold scan_product. destruct kv as [path product]. cbn [fst snd].
  destruct (shouldSkipProduct path product); [by intros [= <-]|].
  assert (Hsize : maxFileSizeMB a1 = maxFileSizeMB a0) by apply Hok.
  assert (exceedsMaxFileSize a1 = exceedsMaxFileSize a0) as He by (unfold exceedsMaxFileSize, maxSizeBytes; by rw Hsize).
  assert (readFileContent a1 = readFileContent a0) as Hrd by (unfold readFileContent, maxSizeBytes; by rw Hsize).
  unfold ScanFile. rw He Hrd. unfold scanned_file.
  destruct (exceedsMaxFileSize a0 _) as [[]| |]; cbn [mbind res_bind]; [|..|done].
  - intros [= <-]. split; [|by intros _ ? [? _]]. split; [by apply add_findings_ok|]. apply add_findings_grows.
  - destruct (readFileContent a0 _) as [content| |]; cbn [mbind res_bind]; [| |done].
    + destruct (fresh_scan_ok a1 (getAbsolutePath path wd) content Hok) as (a3 & fs & -> & Hok3 & Hf & Hall).
      intros [= <-]. split; [split; [by apply add_findings_ok|]|].
      * unfold grows. rw -Hf. apply add_findings_grows.
      * intros _ content' [_ [= <-]] s gf H1 H2 H3 H4 Hnil. simpl in Hnil.
        apply app_eq_nil in Hnil as [_ Hnil]. apply fmap_nil_inv in Hnil. by eapply Hall.
    + intros [= <-]. split; [by split|]. by intros _ ? [_ ?].
  - intros [= <-]. split; [by split|]. by intros _ ? [? _].
Qed.
End attest.

(** C29: a clean attestation is clean. When the attestor is to fail on detection
    and does not fail, there are no findings, and of the products of the context
    that are not skipped, the detector sees nothing at all in the contents that are
    read and in what decodes from them (as far as the scan decodes, [reach]), but
    what the allow lists drop. *)
Theorem Attest_clean `{SF : ScanFS} {A : Type} `{AO : AttestorOps A} `{SJ : !ScanJson A}
    (a a' : Attestor) (ctx : AttestationContext A) :
  linked (ctx_hashes ctx) → compiles (capture_keys (ctx_capturer ctx)) →
  failOnDetection a = true → Attest os_Environ a ctx = (a', nil_error) →
  Findings a' = [] ∧
  ∃ det, let a0 := set_scan_ctx a (mkScanContext (ctx_hashes ctx) (ctx_capturer ctx)) in
    initGitleaksDetector a0 = Ok det ∧
    ∀ path product content s gf, ctx_products ctx !! path = Some product → shouldSkipProduct path product = false →
      scanned_file a0 (getAbsolutePath path (ctx_workingDir ctx)) content →
      reach a0 (S maxScanRecursionDepth) content s → seen_content a0 s →
      gf ∈ DetectBytes det s → ¬ shown a0 gf.
Proof.
  intros Hlinked Hcap Hfail. unfold Attest. set (a0 := set_scan_ctx a _).
  destruct (wrap _ MkdirTemp) as [u| |]; [|done..].
  destruct (initGitleaksDetector a0) as [det| |] eqn:Hdet; cbn [wrap]; [|done..].
  destruct (_ ≫= _) as [a2| |] eqn:Hscan; [|done..].
  apply res_bind_ok in Hscan as (a1 & Ha1 & Ha2). unfold scanAttestations in Ha1. unfold scanProducts in Ha2.
  assert (Hok0 : scan_ok a0 a0) by done.
  assert (Hok1 : scan_ok a0 a1).
  { revert Ha1. apply range_res_inv; [|done]. intros a3 x a4 _ Hok3 Hs. by eapply scan_completed_ok. }
  assert (Hok2 : scan_ok a0 a2).
  { revert Ha2. apply range_res_inv; [|done]. intros a3 x a4 _ Hok3 Hs. by eapply scan_product_ok. }
  assert (failOnDetection a2 = true) as Hf2 by (destruct Hok2 as [(Hf & _) _]; by rw Hf).
  intros [= <- He]. rw Hf2 in He. case_bool_decide as Hlen; [done|].
  assert (Findings a2 = []) as Hnil by (destruct (Findings a2); simpl in Hlen; [done|lia]).
  split; [done|]. exists det. split; [done|]. intros path product content s gf Hp Hskip Hfile Hreach Hseen Hgf Hs.
  assert ((path, product) ∈ range_map 9 (ctx_Products ctx)) as Hin.
  { apply elem_of_range. unfold ctx_Products. by rw copy_into_id map_fmap_id right_id_L. }
  destruct (range_res_step _ (scan_ok a0) grows _ a1 a2 (path, product) _ _
    (λ x a3 a4 Hok Hr, proj1 (scan_product_ok a0 det Hlinked (ctx_workingDir ctx) x a3 a4 Hok Hr)) Hok1 Ha2 Hin)
    as (a3 & a4 & Hok3 & Hstep & Hgrow).
  apply (scan_product_ok a0 det Hlinked) in Hstep as [_ Hall]; [|done].
  eapply Hall; [done|done|done|done|done|done|]. by apply Hgrow.
Qed.
End theorems.

(** * Limits, allow lists, redaction *)

Section limits.
Context `{CL : CryptoLib} `{GI : GitoidLib} `{GL : GlobLib} `{RO : RangeOrder}.
Context `{RX : RegexpLib} `{LK : GitleaksLib} `{SF : ScanFS}.

Lemma int64_small z : (- 2 ^ 63 ≤ z < 2 ^ 63)%Z → int64 z = z.
Proof. intros Hz. unfold int64. rw Z.mod_small; lia. Qed.

(** The size limit. Below 2^43 megabytes, the limit is that many bytes: a file
    is passed over exactly when its size is known and larger, and of a file that
    is read no more bytes than that are read. At 2^43 megabytes the number of
    bytes has wrapped around, and every file is passed over. *)
Theorem file_size_limit (a : Attestor) filePath size :
  (0 < maxFileSizeMB a)%Z → stat_Size filePath = Ok size → (0 ≤ size)%Z →
  ((maxFileSizeMB a < 2 ^ 43)%Z →
     exceedsMaxFileSize a filePath = Ok (bool_decide (maxFileSizeMB a * 1048576 < size)%Z) ∧
     ∀ content, readFileContent a filePath = Ok content → (Z.of_nat (slen content) ≤ maxFileSizeMB a * 1048576)%Z) ∧
  (maxFileSizeMB a = 2 ^ 43 → exceedsMaxFileSize a filePath = Ok true)%Z.
Proof.
  intros Hpos Hstat Hsize. unfold exceedsMaxFileSize. rw Hstat. cbn [wrap mbind res_bind].
  rw (bool_decide_eq_true_2 _ Hpos). cbn [andb]. split.
  - intros Hlt. assert (maxSizeBytes a = maxFileSizeMB a * 1048576)%Z as Hmax.
    { unfold maxSizeBytes. rw !int64_small; lia. }
    rw Hmax. split; [done|]. unfold readFileContent. intros content (r & _ & (c & _ & [= <-])%res_bind_ok)%res_bind_ok.
    rw slen_take Hmax. lia.
  - intros Heq. unfold maxSizeBytes. rw Heq. rw bool_decide_eq_true_2; [done|].
    assert (int64 (int64 (int64 (2 ^ 43) * 1024) * 1024) = - 2 ^ 63)%Z as -> by (by vm_compute). lia.
Qed.

(** A file that is too large is not read, but it becomes a subject all the same. *)
Lemma oversize_is_subject os_Environ det wd (a : Attestor) path product :
  shouldSkipProduct path product = false →
  exceedsMaxFileSize a (getAbsolutePath path wd) = Ok true →
  ∃ a', scan_product os_Environ det wd a (path, product) = Ok a' ∧
    subjects a' = <["product:" +:+ path := prod_Digest product]> (subjects a) ∧ Findings a' = Findings a.
Proof.
  intros Hskip He. unfold scan_product, ScanFile. rw Hskip He. cbn [mbind res_bind].
  eexists. split; [done|]. split; [done|]. simpl. by rw right_id_L.
Qed.

(** A stop word, or a pattern, silences a whole content: when a content holds
    a stop word of the allow list anywhere, or one of its patterns or its path
    patterns matches the content, nothing in it or decoded from it is found. The
    path of the file plays no part. *)
Theorem allowlist_silences os_Environ (a : Attestor) src det content al w :
  configPath a = "" → allowList a = Some al →
  (w ∈ al_StopWords al ∧ Contains content w = true) ∨
  (w ∈ al_Regexes al ++ al_Paths al ∧ ∃ re, regexp_Compile w = Ok re ∧ re content = true) →
  ∃ a', fresh_scan os_Environ a src det content = Ok (a', []).
Proof.
  intros Hpath Hal Hw. unfold fresh_scan, scanBytes. rw Nat.sub_0_r. cbn [scan_layers].
  assert (applies_allowlist a && isContentAllowListed content (allowList a) = true) as ->.
  { unfold applies_allowlist. rw Hpath Hal. rw !bool_decide_eq_true_2; [|by eexists|done]. cbn [andb].
    unfold isContentAllowListed, isAllowlisted. rw !orb_true_iff. rw bool_decide_eq_true_2 //. cbn [andb].
    rw !existsb_exists. unfold matches_pattern. setoid_rewrite <-list_elem_of_In.
    destruct Hw as [[Hin Hc]|(Hin & re & Hre & Hm)]; [by do 2 left; exists w|].
    apply elem_of_app in Hin as [Hin|Hin]; [left; right|right]; exists w; by rw Hre. }
  by eexists.
Qed.

(** Short matches are shown as they are: of a match of up to 40 bytes, which holds
    the secret, nothing is cut. *)
Lemma short_match_shown (a : Attestor) gf filePath path approx f :
  createSecureFinding a gf filePath path approx = Ok f → slen (gf_Match gf) ≤ 40 → f_Match f = gf_Match gf.
Proof.
  unfold createSecureFinding. intros (ds & _ & [= <-])%res_bind_ok Hlen. simpl. unfold truncateMatch, maxMatchDisplayLength.
  rw bool_decide_eq_false_2; [done|lia].
Qed.

(** A capturer that hides values, as it does by default, lets every variable
    through, so none counts as sensitive beyond the default list: neither are the
    additional keys added, nor the excluded ones taken away. *)
Lemma obfuscation_ignores_keys os_Environ c :
  filterVarsEnabled c = false → compiles (capture_keys c) →
  (getSensitiveEnvVarsList os_Environ (Some c)).2 = Ok DefaultSensitiveEnvList.
Proof.
  intros Hf Hc. unfold getSensitiveEnvVarsList. pose proof (Capture_calls c os_Environ Hc) as Hcalls.
  assert (Hdom : ∀ v vars, v ∈ os_Environ →
    vars = capture_variables (os_Environ ≫= captured_call (filterVarsEnabled c) (capture_keys c) (excludeSensitiveVarsList c)) →
    (splitVariable v).1 ∈ dom vars).
  { intros v vars Hv ->. apply elem_of_dom.
    destruct (captured_lookup (filterVarsEnabled c) (capture_keys c) (excludeSensitiveVarsList c) os_Environ (splitVariable v).1 Hc)
      as (sens & _ & ->). rw Hf.
    assert (is_Some (last_value os_Environ (splitVariable v).1)) as [x ->]; [|by destruct sens; eexists].
    unfold last_value. apply last_is_Some. intros Hnil. do 2 apply fmap_nil_inv in Hnil.
    assert (v ∈ filter (λ v', (splitVariable v').1 = (splitVariable v).1) os_Environ) as Hin by (by apply list_elem_of_filter).
    rw Hnil in Hin. by apply not_elem_of_nil in Hin. }
  destruct (Capture_Capture c os_Environ) as [c' r]. simpl in Hcalls. subst r. cbn [fmap res_fmap mbind res_bind snd].
  f_equal. set (vars := capture_variables _) in *.
  assert (∀ l (acc : gset string), (∀ v, v ∈ l → (splitVariable v).1 ∈ dom vars) →
    foldl (λ sensitive envVar, let key := (splitVariable envVar).1 in
      if bool_decide (key ∈ (dom vars : gset string)) then sensitive else {[key]} ∪ sensitive) acc l = acc) as Hl.
  { induction l as [|v l IH]; intros acc Hin; [done|]. cbn [foldl]. rw bool_decide_eq_true_2; [|apply Hin; left].
    apply IH. intros x Hx. apply Hin. by right. }
  apply Hl. intros v Hv. by apply Hdom.
Qed.
End limits.

(** * Examples *)

#[local] Instance toy_regexp : RegexpLib := λ p, Ok (λ s, Contains s p).
(** The detector knows one secret. *)
#[local] Instance toy_gitleaks : GitleaksLib := {|
  Detector := unit; ViperConfig := unit; GitleaksConfig := unit;
  DetectBytes _ s := if Contains s "hunter2-secret" then [mkReport "Toy" "a secret" 1 "pw=hunter2-secret" "hunter2-secret" 0] else [];
  NewDetectorDefaultConfig := Ok tt;
  NewDetector _ := tt;
  viper_ReadInConfig _ := nil_error;
  viper_Unmarshal _ := Ok tt;
  Translate _ := Ok tt;
  set_MaxTargetMegaBytes d _ := d;
  append_Allowlist d _ := d;
  is_NotExist _ := false;
|}.
#[local] Instance toy_scan_globs : GlobLib := λ p, Ok (λ s, false).
#[local] Instance toy_scan_files : ScanFS := {|
  stat_Size p := Ok 14%Z; open_File p := Ok (Ok "hunter2-secret"); MkdirTemp := nil_error |}.

Definition scan_text (a : Attestor) (content : string) : res (list Finding) :=
  snd <$> @fresh_scan toy_crypto toy_gitoid toy_scan_globs _ toy_regexp toy_gitleaks ["DOCKER_USERNAME=tok-1234"] a "f" tt content.
Definition scan_paths (a : Attestor) (content : string) : res (list (list string)) :=
  (map f_EncodingPath) <$> scan_text a content.
Definition scan_matches (a : Attestor) (content : string) : res (list string) := (map f_Match) <$> scan_text a content.

(** Through base64, twice, and through hexadecimal digits in base64. *)
Example scan_nested :
  scan_paths (New []) ("x: " +:+ base64 (base64 "hunter2-secret") +:+ " " +:+ base64 (HexEncode "hunter2-secret")) =
  Ok [["base64"; "base64"]].
Proof. vm_compute. reflexivity. Qed.

Lemma scan_complete_witness :
  ∃ a' fs, @fresh_scan toy_crypto toy_gitoid toy_scan_globs _ toy_regexp toy_gitleaks [] (New []) "f" tt "pw=hunter2-secret" = Ok (a', fs) ∧
    @reported toy_crypto toy_gitoid _ (New []) fs "hunter2-secret".
Proof.
  destruct (@scan_complete toy_crypto toy_gitoid toy_scan_globs _ toy_regexp toy_gitleaks [] (New []) "f" tt "pw=hunter2-secret")
    as (a' & fs & Hr & Hall).
  - constructor; [right; exists (λ d, "h" +:+ pretty SHA256 +:+ d); reflexivity|constructor].
  - done.
  - exists a', fs. split; [done|].
    apply (Hall "pw=hunter2-secret" (mkReport "Toy" "a secret" 1 "pw=hunter2-secret" "hunter2-secret" 0)).
    + constructor.
    + reflexivity.
    + left.
    + reflexivity.
Defined.

Lemma scan_depth_bounded_witness :
  ∃ a' fs, @fresh_scan toy_crypto toy_gitoid toy_scan_globs _ toy_regexp toy_gitleaks [] (New []) "f" tt "pw=hunter2-secret" = Ok (a', fs) ∧
    ∀ f, f ∈ fs → length (f_EncodingPath f) ≤ 4 ∧ (Z.of_nat (length (f_EncodingPath f)) ≤ 3)%Z.
Proof.
  apply (@scan_depth_bounded toy_crypto toy_gitoid toy_scan_globs _ toy_regexp toy_gitleaks [] (New []) "f" tt "pw=hunter2-secret").
  - constructor; [right; exists (λ d, "h" +:+ pretty SHA256 +:+ d); reflexivity|constructor].
  - done.
Defined.

Lemma encoded_secret_found_witness :
  ∃ a' fs, @fresh_scan toy_crypto toy_gitoid toy_scan_globs _ toy_regexp toy_gitleaks [] (New []) "f" tt
             ("x:" +:+ String " " (base64 "hunter2-secret" +:+ String "." "")) = Ok (a', fs) ∧
    @reported toy_crypto toy_gitoid _ (New []) fs "hunter2-secret".
Proof.
  apply (@encoded_secret_found toy_crypto toy_gitoid toy_scan_globs _ toy_regexp toy_gitleaks [] (New []) "f" tt
    "x:" " " "hunter2-secret" "." "" (mkReport "Toy" "a secret" 1 "pw=hunter2-secret" "hunter2-secret" 0)).
  - constructor; [right; exists (λ d, "h" +:+ pretty SHA256 +:+ d); reflexivity|constructor].
  - done.
  - reflexivity.
  - reflexivity.
  - reflexivity.
  - reflexivity.
  - simpl. lia.
  - vm_compute. left.
Defined.

Lemma file_size_limit_witness :
  @exceedsMaxFileSize toy_scan_files (New []) "f" = Ok false ∧
  @exceedsMaxFileSize toy_scan_files (New [WithMaxFileSize (2 ^ 43)]) "f" = Ok true.
Proof.
  split.
  - exact (proj1 (proj1 (@file_size_limit toy_scan_files (New []) "f" 14%Z eq_refl eq_refl ltac:(lia)) eq_refl)).
  - exact (proj2 (@file_size_limit toy_scan_files (New [WithMaxFileSize (2 ^ 43)]) "f" 14%Z eq_refl eq_refl ltac:(lia)) eq_refl).
Defined.

Lemma allowlist_silences_witness :
  ∃ a', @fresh_scan toy_crypto toy_gitoid toy_scan_globs _ toy_regexp toy_gitleaks []
    (New [WithAllowList (Some (mkAllowList "" ["vendor/"] [] ["EXAMPLE"]))]) "f" tt "pw=hunter2-secret # not in vendor/" = Ok (a', []).
Proof.
  apply (@allowlist_silences toy_crypto toy_gitoid toy_scan_globs _ toy_regexp toy_gitleaks [] _ "f" tt _
    (mkAllowList "" ["vendor/"] [] ["EXAMPLE"]) "vendor/").
  - reflexivity.
  - reflexivity.
  - right. split; [left|]. exists (λ s, Contains s "vendor/"). split; reflexivity.
Defined.

(** No attestors, and files without the secret. *)
#[local] Instance no_attestors : AttestorOps Empty_set := {|
  Attestor_Name := λ a : Empty_set, match a with end; Attestor_Type := λ a : Empty_set, match a with end; Attestor_RunType := λ a : Empty_set, match a with end;
  Subjecter_Subjects := λ a : Empty_set, match a with end; Materialer_Materials := λ a : Empty_set, match a with end;
  Producer_Products := λ a : Empty_set, match a with end; BackReffer_BackRefs := λ a : Empty_set, match a with end;
  Exporter_Export := λ a : Empty_set, match a with end; MultiExporter_ExportedAttestations := λ a : Empty_set, match a with end;
  Experimental_IsExperimental := λ a : Empty_set, match a with end; json_Marshal_Attestor := λ a : Empty_set, match a with end;
  json_Unmarshal_Attestor := λ _ (a : Empty_set), match a with end;
|}.
#[local] Instance no_scan_json : ScanJson Empty_set := {|
  json_MarshalIndent := λ a : Empty_set, match a with end;
  json_MarshalIndent_CommandRun _ := Err (Errorf "no command was run");
  CommandRunAttestor_Data := λ a : Empty_set, match a with end;
|}.
Definition clean_files : ScanFS := {|
  stat_Size p := Ok 7%Z; open_File p := Ok (Ok "nothing"); MkdirTemp := nil_error |}.
Definition clean_products : gmap string Product := {["p" := mkProduct "text/plain" ∅]}.
Definition clean_ctx : AttestationContext Empty_set :=
  mkContext "" [] "/w" [] [] [mkDV SHA256 false false] [] clean_products ∅ "" (NewCapture []) [] zero_hooks.

Abbreviation clean_scan :=
  (@Attest toy_crypto toy_gitoid toy_scan_globs _ toy_regexp toy_gitleaks [] clean_files _ _ _ (New [WithFailOnDetection true]) clean_ctx).
Lemma Attest_clean_witness : clean_scan = (clean_scan.1, nil_error) ∧ Findings clean_scan.1 = [].
Proof.
  assert (clean_scan = (clean_scan.1, nil_error)) as Hok by (apply pair_of_snd; vm_compute; reflexivity).
  split; [exact Hok|].
  refine (proj1 (@Attest_clean toy_crypto toy_gitoid toy_scan_globs _ toy_regexp toy_gitleaks [] clean_files _ _ _ (New [WithFailOnDetection true]) _ clean_ctx _ _ eq_refl Hok)).
  - constructor; [right; exists (λ d, "h" +:+ pretty SHA256 +:+ d); reflexivity|constructor].
  - intros k _ _. by exists (λ s, false).
Defined.

(** What the redaction of a variable's value leaves: a second occurrence within
    the 15 bytes of context is shown, next to the placeholder. *)
Theorem redaction_shows_neighbours :
  scan_matches (New []) "tok-1234 tok-1234" = Ok ["[SENSITIVE-VALUE] tok-1234"] ∧
  scan_matches (New []) "pw=hunter2-secret" = Ok ["pw=hunter2-secret"].
Proof. by vm_compute. Qed.
