(* ===== verification/PolicySig.v ===== *)
(** internal/policy: the verification of the signature on a policy
    (internal/policy/policy.go). *)
From S2P Require Import Prelude GoStrings Errors Crypto Encodings Keys Timestamp Dsse Constraints Digest Registry Attestation Source VerifiedSource PolicyStep.

(** * Options *)

Section options.
Context `{CL : CryptoLib} `{TL : !TspLib}.

Record VerifyPolicySignatureOptions := mkVPSO {
  policyVerifiers : list (option Verifier);
  policyTimestampAuthorities : list TimestampVerifier;
  policyCARoots : list Certificate;
  policyCAIntermediates : list Certificate;
  policyCommonName : string;
  policyDNSNames : list string;
  policyEmails : list string;
  policyOrganizations : list string;
  policyURIs : list string;
  fulcioCertExtensions : gmap string string;
}.
Definition PolicySigOption := VerifyPolicySignatureOptions → VerifyPolicySignatureOptions.

Definition VerifyWithPolicyVerifiers (vs : list (option Verifier)) : PolicySigOption := λ vo,
  mkVPSO (policyVerifiers vo ++ vs) (policyTimestampAuthorities vo) (policyCARoots vo)
    (policyCAIntermediates vo) (policyCommonName vo) (policyDNSNames vo) (policyEmails vo)
    (policyOrganizations vo) (policyURIs vo) (fulcioCertExtensions vo).
Definition VerifyWithPolicyTimestampAuthorities (authorities : list TimestampVerifier) : PolicySigOption := λ vo,
  mkVPSO (policyVerifiers vo) authorities (policyCARoots vo)
    (policyCAIntermediates vo) (policyCommonName vo) (policyDNSNames vo) (policyEmails vo)
    (policyOrganizations vo) (policyURIs vo) (fulcioCertExtensions vo).
Definition VerifyWithPolicyCARoots (roots : list Certificate) : PolicySigOption := λ vo,
  mkVPSO (policyVerifiers vo) (policyTimestampAuthorities vo) roots
    (policyCAIntermediates vo) (policyCommonName vo) (policyDNSNames vo) (policyEmails vo)
    (policyOrganizations vo) (policyURIs vo) (fulcioCertExtensions vo).
Definition VerifyWithPolicyCAIntermediates (ints : list Certificate) : PolicySigOption := λ vo,
  mkVPSO (policyVerifiers vo) (policyTimestampAuthorities vo) (policyCARoots vo)
    ints (policyCommonName vo) (policyDNSNames vo) (policyEmails vo)
    (policyOrganizations vo) (policyURIs vo) (fulcioCertExtensions vo).
Definition VerifyWithPolicyFulcioCertExtensions (ext : gmap string string) : PolicySigOption := λ vo,
  mkVPSO (policyVerifiers vo) (policyTimestampAuthorities vo) (policyCARoots vo)
    (policyCAIntermediates vo) (policyCommonName vo) (policyDNSNames vo) (policyEmails vo)
    (policyOrganizations vo) (policyURIs vo) ext.
Definition VerifyWithPolicyCertConstraints (commonName : string)
    (dnsNames emails organizations uris : list string) : PolicySigOption := λ vo,
  mkVPSO (policyVerifiers vo) (policyTimestampAuthorities vo) (policyCARoots vo)
    (policyCAIntermediates vo) commonName dnsNames emails organizations uris (fulcioCertExtensions vo).

Definition NewVerifyPolicySignatureOptions (opts : list PolicySigOption) : VerifyPolicySignatureOptions :=
  foldl (λ vo opt, opt vo) (mkVPSO [] [] [] [] "*" ["*"] ["*"] ["*"] ["*"] ∅) opts.

(** * VerifyPolicySignature *)

Context `{GL : GlobLib} `{FL : FulcioLib} `{RO : RangeOrder}.

Definition root_id (root : Certificate) : string := base64 (Raw root).

(** The functionary that the options describe for certificates, and its trust
    bundles: the roots under the base64 text of their encoding. *)
Definition policy_functionary (vo : VerifyPolicySignatureOptions) : Functionary :=
  mkFunctionary "root"
    (mkCertConstraint (policyCommonName vo) (policyDNSNames vo) (policyEmails vo) (policyOrganizations vo)
       (policyURIs vo) (root_id <$> policyCARoots vo) (fulcioCertExtensions vo)) "".
Definition policy_bundles (vo : VerifyPolicySignatureOptions) : gmap string TrustBundle :=
  foldl (λ m root, <[root_id root := mkTrustBundle _ root []]> m) ∅ (policyCARoots vo).

Definition no_constraint : CertConstraint := mkCertConstraint "" [] [] [] [] [] ∅.

(** The loop body for one checked verifier: whether it passed. Entries with an
    error are not skipped. *)
Definition check_policy_verifier (vo : VerifyPolicySignatureOptions) (cv : CheckedVerifier) : res bool :=
  match cv_Verifier cv with
  | None => Panic nil_deref
  | Some verifier =>
      kid ← wrap "could not get verifier key id" (Verifier_KeyID verifier);
      let '(f, trustBundle) :=
        match verifier with
        | X509Verifier _ _ _ _ _ => (policy_functionary vo, policy_bundles vo)
        | _ => (mkFunctionary "key" no_constraint kid, ∅)
        end in
      match Functionary_Validate f (Some verifier) trustBundle with
      | Ok _ => Ok true
      | Err _ => Ok false
      | Panic w => Panic w
      end
  end.

Definition policy_sig_options (vo : VerifyPolicySignatureOptions) : list VerificationOption :=
  [ VerifyWithVerifiers (policyVerifiers vo);
    VerifyWithTimestampVerifiers (policyTimestampAuthorities vo);
    VerifyWithRoots (policyCARoots vo);
    VerifyWithIntermediates (policyCAIntermediates vo) ].

Definition VerifyPolicySignature (envelope : Envelope) (now : Z) (vo : VerifyPolicySignatureOptions) : err :=
  r ← Envelope_Verify envelope now (policy_sig_options vo);
  match r with
  | (_, Some e) => Err (Wrapf "could not verify policy" e)
  | (passedPolicyVerifiers, None) =>
      passed ← range_res (λ passed cv, b ← check_policy_verifier vo cv; Ok (passed || b)) false passedPolicyVerifiers;
      if (passed : bool) then nil_error
      else Err (Errorf "no policy verifiers passed verification")
  end.

(** ** Lemmas *)

Lemma passed_loop vo cvs b :
  range_res (λ passed cv, b ← check_policy_verifier vo cv; Ok (passed || b)) false cvs = Ok b →
  b = true → ∃ cv, cv ∈ cvs ∧ check_policy_verifier vo cv = Ok true.
Proof.
  intros Hr. set (Inv := λ b, b = true → ∃ cv, cv ∈ cvs ∧ check_policy_verifier vo cv = Ok true).
  revert Hr. apply (range_res_inv _ Inv); [|done].
  intros s cv s' Hin HI (x & Hx & [= <-])%res_bind_ok Hs. apply orb_true_iff in Hs as [Hs| ->]; [by apply HI|].
  by exists cv.
Qed.

Lemma VerifyPolicySignature_ok envelope now vo :
  VerifyPolicySignature envelope now vo = nil_error →
  ∃ cvs, Envelope_Verify envelope now (policy_sig_options vo) = Ok (cvs, None) ∧
    ∃ cv, cv ∈ cvs ∧ check_policy_verifier vo cv = Ok true.
Proof.
  unfold VerifyPolicySignature. intros ([cvs [e|]] & He & H)%res_bind_ok; [done|].
  exists cvs. split; [done|]. apply res_bind_ok in H as ([|] & Hp & H); [|done]. by eapply passed_loop.
Qed.

(** A passing entry is a plain verifier, or an X.509 verifier whose certificate
    meets the constraints. *)
Lemma check_policy_verifier_true vo cv :
  check_policy_verifier vo cv = Ok true →
  ∃ v, cv_Verifier cv = Some v ∧
    ((∀ c r i w t, v ≠ X509Verifier c r i w t) ∨
     ∃ c r i w t, v = X509Verifier c r i w t ∧ policyCARoots vo ≠ [] ∧
       certificate_accepted (func_CertConstraint (policy_functionary vo)) (mkView c i t) (policy_bundles vo)).
Proof.
  unfold check_policy_verifier. destruct (cv_Verifier cv) as [v|]; [|done].
  intros (kid & _ & H)%res_bind_ok. exists v. split; [done|].
  destruct v as [| | |c r i w t|]; [by left..| |by left]. right.
  destruct (Functionary_Validate _ _ _) as [[]| |] eqn:Hv; [|done..].
  apply Functionary_Validate_ok in Hv as (v & Heq & [[? _]|(c' & r' & i' & w' & t' & Hx & Hr & Hc)]); simplify_eq.
  exists c', r', i', w', t'. split; [done|]. split; [|done]. intros Hn. apply Hr. simpl. by rw Hn.
Qed.
End options.
