(* ===== verification/PolicyVerify.v ===== *)
(** slsa: verification summaries (slsa/verificationsummary.go), and
    attestation/policyverify: the attestor that verifies a policy
    (attestation/policyverify/policyverify.go). *)
From S2P Require Import Prelude GoStrings Errors Crypto Keys Digest Timestamp Dsse Intoto Registry Attestation Source VerifiedSource Constraints PolicyStep KMS Policy PolicySound PolicySig.

(** * slsa *)

Definition VerificationSummaryPredicate : string := "https://slsa.dev/verification_summary/v1".
Definition PassedVerificationResult : string := "PASSED".
Definition FailedVerificationResult : string := "FAILED".

Record ResourceDescriptor := mkResource { rd_URI : string; rd_Digest : DigestSet }.
Record VerificationSummary := mkSummary {
  vsum_VerifierID : string;
  vsum_TimeVerified : Z;
  vsum_Policy : ResourceDescriptor;
  vsum_InputAttestations : list ResourceDescriptor;
  vsum_VerificationResult : string;
}.
Definition zero_summary : VerificationSummary := mkSummary "" 0 (mkResource "" ∅) [] "".

(** * policyverify *)

(** encoding/json on policies. *)
Class PolicyJson := json_Unmarshal_Policy : bytes → res Policy.

Section policyverify.
Context `{CL : CryptoLib} `{TL : !TspLib} `{GI : GitoidLib} `{GL : GlobLib} `{FL : FulcioLib} `{RO : RangeOrder}.
Context {A : Type} `{AO : AttestorOps A} `{RL : RegoLib} {S : Type} `{SS : !Sourcer A S} `{PJ : PolicyJson}.

(** A source that is nil is dereferenced by the first search. *)
#[export] Instance nilable_Sourcer : Sourcer A (option S) := λ s name sds atts,
  match s with
  | None => (None, Panic nil_deref)
  | Some s => let '(s, r) := Search s name sds atts in (Some s, r)
  end.

Record PVAttestor := mkPVAttestor {
  pv_options : VerifyPolicySignatureOptions;
  pv_summary : VerificationSummary;
  pv_stepResults : gmap string (StepResult A);
  pv_policyEnvelope : Envelope;
  pv_collectionSource : option S;
  pv_subjectDigests : list string;
  pv_kmsProviderOptions : KMSSetters;
}.
Definition PVOption := PVAttestor → PVAttestor.

Definition PVVerifyWithPolicyVerificationOptions (opts : list PolicySigOption) : PVOption := λ a,
  mkPVAttestor (foldl (λ o opt, opt o) (pv_options a) opts) (pv_summary a) (pv_stepResults a)
    (pv_policyEnvelope a) (pv_collectionSource a) (pv_subjectDigests a) (pv_kmsProviderOptions a).
Definition PVVerifyWithPolicyEnvelope (env : Envelope) : PVOption := λ a,
  mkPVAttestor (pv_options a) (pv_summary a) (pv_stepResults a)
    env (pv_collectionSource a) (pv_subjectDigests a) (pv_kmsProviderOptions a).
Definition PVVerifyWithKMSProviderOptions (ko : KMSSetters) : PVOption := λ a,
  mkPVAttestor (pv_options a) (pv_summary a) (pv_stepResults a)
    (pv_policyEnvelope a) (pv_collectionSource a) (pv_subjectDigests a) ko.
Definition PVVerifyWithSubjectDigests (sets : list DigestSet) : PVOption := λ a,
  mkPVAttestor (pv_options a) (pv_summary a) (pv_stepResults a) (pv_policyEnvelope a) (pv_collectionSource a)
    (pv_subjectDigests a ++ (sets ≫= λ set, (range_map 0 set).*2)) (pv_kmsProviderOptions a).
Definition PVVerifyWithCollectionSource (s : option S) : PVOption := λ a,
  mkPVAttestor (pv_options a) (pv_summary a) (pv_stepResults a)
    (pv_policyEnvelope a) s (pv_subjectDigests a) (pv_kmsProviderOptions a).

Definition NewPVAttestor (opts : list PVOption) : PVAttestor :=
  foldl (λ a opt, opt a)
    (mkPVAttestor (NewVerifyPolicySignatureOptions []) zero_summary ∅ (mkEnvelope "" "" []) None [] ∅) opts.

Definition PV_Subjects (a : PVAttestor) : gmap string DigestSet :=
  <["policy:" +:+ rd_URI (vsum_Policy (pv_summary a)) := rd_Digest (vsum_Policy (pv_summary a))]>
    (foldl (λ subjects digest,
       <["artifact:" +:+ digest := ({[mkDV SHA256 false false := digest]} : DigestSet)]> subjects)
       ∅ (pv_subjectDigests a)).

(** The loop that describes the collections that passed; one whose digests cannot
    be calculated is skipped. *)
Definition input_attestations (hashes : list DigestValue) (stepResults : gmap string (StepResult A))
    : res (list ResourceDescriptor) :=
  collect (λ coll,
    match CalculateDigestSetFromBytes (Payload (ce_Envelope (cvr_Envelope coll))) hashes with
    | Ok digest => Ok [mkResource (ce_Reference (cvr_Envelope coll)) digest]
    | Err _ => Ok []
    | Panic w => Panic w
    end) ((range_map 0 stepResults).*2 ≫= sr_Passed).

Definition verificationSummaryFromResults (hashes : list DigestValue) (now : Z) (policyEnvelope : Envelope)
    (stepResults : gmap string (StepResult A)) (accepted : bool) : res VerificationSummary :=
  inputs ← input_attestations hashes stepResults;
  policyDigest ← wrap "failed to calculate policy digest"
                   (CalculateDigestSetFromBytes (Payload policyEnvelope) hashes);
  Ok (mkSummary "witness" now (mkResource PolicyPredicate policyDigest) inputs
        (if accepted then PassedVerificationResult else FailedVerificationResult)).

(** The verification options that the policy's keys, roots and timestamp
    authorities give. *)
Definition collection_options (pubkeys : gmap string Verifier) (bundles authorities : gmap string TrustBundle)
    : list VerificationOption :=
  let bundles := (range_map 0 bundles).*2 in
  [ Dsse.VerifyWithVerifiers (Some <$> (range_map 0 pubkeys).*2);
    Dsse.VerifyWithRoots (tb_Root <$> bundles);
    Dsse.VerifyWithIntermediates (bundles ≫= tb_Intermediates);
    Dsse.VerifyWithTimestampVerifiers
      ((λ b, TVTSP (NewTSPVerifier [VerifyWithCerts (tb_Root b :: tb_Intermediates b)])) <$>
         (range_map 0 authorities).*2) ].

(** [Attest]: the attestor after the call, and the error. [hashes] are those of
    the context; the clock is read by the signature check ([now]), by the
    verification of the collections ([clock]) and for the summary. *)
Definition PV_Attest (st : kms_state) (hashes : list DigestValue) (now : Z) (clock : nat → Z) (a : PVAttestor)
    : PVAttestor * err :=
  match (wrap "failed to verify policy signature"
           (VerifyPolicySignature (pv_policyEnvelope a) now (pv_options a));;
         pol ← wrap "failed to unmarshal policy from envelope"
                 (json_Unmarshal_Policy (Payload (pv_policyEnvelope a)));
         pubkeys ← wrap "failed to get public keys from policy"
                     (PublicKeyVerifiers st pol (pv_kmsProviderOptions a));
         bundles ← wrap "failed to load policy trust bundles" (TrustBundles pol);
         authorities ← wrap "failed to load policy timestamp authorities" (TimestampAuthorityTrustBundles pol);
         Ok (pol, collection_options pubkeys bundles authorities)) with
  | Err e => (a, Err e)
  | Panic w => (a, Panic w)
  | Ok (pol, opts) =>
      let verifiedSource := NewVerifiedSource clock (pv_collectionSource a) opts in
      let '(s, r) := Policy_Verify pol now
                       [WithSubjectDigests (pv_subjectDigests a); WithVerifiedSource (Some verifiedSource)] in
      let a := mkPVAttestor (pv_options a) (pv_summary a) (pv_stepResults a) (pv_policyEnvelope a)
                 (match s with Some s => vs_source s | None => pv_collectionSource a end)
                 (pv_subjectDigests a) (pv_kmsProviderOptions a) in
      match wrap "failed to verify policy" r with
      | Err e => (a, Err e)
      | Panic w => (a, Panic w)
      | Ok (accepted, stepResults) =>
          let summary := verificationSummaryFromResults hashes now (pv_policyEnvelope a) stepResults accepted in
          (mkPVAttestor (pv_options a) (match summary with Ok s => s | _ => zero_summary end) stepResults
             (pv_policyEnvelope a) (pv_collectionSource a) (pv_subjectDigests a) (pv_kmsProviderOptions a),
           wrap "failed to generate verification summary" summary;; nil_error)
      end
  end.

(** ** What a summary that passed means *)

Lemma summary_result hashes now env results accepted s :
  verificationSummaryFromResults hashes now env results accepted = Ok s →
  vsum_VerificationResult s = PassedVerificationResult ↔ accepted = true.
Proof.
  unfold verificationSummaryFromResults. intros (inputs & _ & (d & _ & H)%res_bind_ok)%res_bind_ok.
  simplify_eq. by destruct accepted.
Qed.

(** The pieces of a successful run. *)
Lemma PV_Attest_inv st hashes now clock a a' :
  PV_Attest st hashes now clock a = (a', nil_error) →
  ∃ pol pubkeys bundles authorities s accepted summary,
    VerifyPolicySignature (pv_policyEnvelope a) now (pv_options a) = nil_error ∧
    json_Unmarshal_Policy (Payload (pv_policyEnvelope a)) = Ok pol ∧
    PublicKeyVerifiers st pol (pv_kmsProviderOptions a) = Ok pubkeys ∧
    TrustBundles pol = Ok bundles ∧ TimestampAuthorityTrustBundles pol = Ok authorities ∧
    Policy_Verify pol now [WithSubjectDigests (pv_subjectDigests a);
      WithVerifiedSource (Some (NewVerifiedSource clock (pv_collectionSource a)
        (collection_options pubkeys bundles authorities)))] = (s, Ok (accepted, pv_stepResults a')) ∧
    verificationSummaryFromResults hashes now (pv_policyEnvelope a) (pv_stepResults a') accepted = Ok summary ∧
    pv_summary a' = summary.
Proof.
  unfold PV_Attest. destruct (wrap _ (VerifyPolicySignature _ _ _);; _) as [[pol opts]| |] eqn:Hpre; [|done..].
  apply res_bind_ok in Hpre as ([] & Hsig%wrap_ok & Hpre).
  apply res_bind_ok in Hpre as (pol' & Hpol%wrap_ok & Hpre).
  apply res_bind_ok in Hpre as (pubkeys & Hkeys%wrap_ok & Hpre).
  apply res_bind_ok in Hpre as (bundles & Hb%wrap_ok & Hpre).
  apply res_bind_ok in Hpre as (authorities & Ha%wrap_ok & Hpre). simplify_eq.
  destruct (Policy_Verify _ _ _) as [s r] eqn:Hv. cbv zeta.
  destruct (wrap "failed to verify policy" r) as [[accepted stepResults]| |] eqn:Hw; [|done..]. apply wrap_ok in Hw. subst r.
  intros [= <- H]. apply res_bind_ok in H as (summary & Hs%wrap_ok & _). cbn [pv_stepResults pv_summary pv_policyEnvelope] in *.
  exists pol, pubkeys, bundles, authorities, s, accepted, summary. rw Hs. done.
Qed.
End policyverify.
Arguments PVAttestor {CL} A S.
