(* ===== verification/Attestors.v ===== *)
(** The attestors of the repository behind the [Attestor] interface: their dynamic types
    as one sum, the methods and optional interfaces of each (the [Name], [Type], [RunType],
    [Subjects], [BackRefs], [Materials], [Products], [Export] and [Data] methods of the
    packages below attestation/), the assertions that link, slsa, product and secretscan
    make on them, and the registrations that their [init] functions make.

    The attestors that are not in the sum are registered next to it: that of policyverify
    runs alone (Verify.v), and that of the network trace runs all the time that the
    command does (NetworkProxy.v), while an [Attest] here is one step of a stage. *)
From S2P Require Import Prelude Receiver GoStrings GoText Errors Crypto Digest Host Paths File Registry Attestation Constraints Environment Hooks Context Ptrace CommandRun Product CI CloudIdentity K8s Git Documents Images Packages Provenance SecretScan SecretScanner NetworkTrace NetworkProxy PolicyVerify Timestamp PolicyStep Source.
From stdpp Require Import options.

(** * The dynamic types *)

Section sum.
Context `{JL : JoseLib} `{CB : CodeBuildApi} `{SB : SbomLib} `{SL : StructLib} `{OL : OmnitrailLib} `{KL : K8sLib}.
Context {SarifReport VEX : Type}.

Inductive attestor : Type :=
  | AEnvironment (a : EnvAttestor)
  | AGit (a : Git.Attestor)
  | AJwt (a : Jwt.Attestor)
  | AGitLab (a : GitLab.Attestor)
  | AGitHub (a : GitHub.Attestor)
  | AJenkins (a : Jenkins.Attestor)
  | ACodeBuild (a : CodeBuild.Attestor)
  | AGcpIit (a : GcpIit.Attestor)
  | AAwsIid (a : AwsIid.Attestor)
  | AMaven (a : Maven.Attestor)
  | ALockfiles (a : Lockfiles.Attestor)
  | ASystemPackages (a : SystemPackages.Attestor)
  | AOmnitrail (a : Omnitrail.Attestor)
  | AMaterial (a : Material.Attestor)
  | ACommandRun (a : CommandRun.CommandRun)
  | AProduct (a : Product.Attestor)
  | ASarif (a : @Sarif.Attestor SarifReport)
  | AVex (a : @Vex.Attestor VEX)
  | ASbom (a : Sbom.SBOMAttestor)
  | ADocker (a : Docker.Attestor)
  | AOci (a : Oci.Attestor)
  | AK8s (a : K8sManifest.Attestor)
  | ASecretScan (a : SecretScan.Attestor)
  | ALink (a : Link.Link)
  | ASlsa (a : Slsa.Provenance).

(** The methods [Name], [Type] and [RunType]. *)
Definition name_of (a : attestor) : string :=
  match a with
  | AEnvironment _ => environment_Name
  | AGit _ => Git.Name
  | AJwt _ => Jwt.Name
  | AGitLab _ => GitLab.Name
  | AGitHub _ => GitHub.Name
  | AJenkins _ => Jenkins.Name
  | ACodeBuild _ => CodeBuild.Name
  | AGcpIit _ => GcpIit.Name
  | AAwsIid _ => AwsIid.Name
  | AMaven _ => Maven.Name
  | ALockfiles _ => Lockfiles.Name
  | ASystemPackages _ => SystemPackages.Name
  | AOmnitrail _ => Omnitrail.Name
  | AMaterial _ => Material.Name
  | ACommandRun _ => CommandRun.Name
  | AProduct _ => Product.ProductName
  | ASarif _ => Sarif.Name
  | AVex _ => Vex.Name
  | ASbom _ => Sbom.Name
  | ADocker _ => Docker.Name
  | AOci _ => Oci.Name
  | AK8s _ => K8sManifest.Name
  | ASecretScan _ => SecretScan.Name
  | ALink _ => Link.Name
  | ASlsa _ => Slsa.Name
  end.

Definition environment_Type : string := "https://witness.dev/attestations/environment/v0.1".
Definition type_of (a : attestor) : string :=
  match a with
  | AEnvironment _ => environment_Type
  | AGit _ => Git.Type_
  | AJwt _ => Jwt.Type_
  | AGitLab _ => GitLab.Type_
  | AGitHub _ => GitHub.Type_
  | AJenkins _ => Jenkins.Type_
  | ACodeBuild _ => CodeBuild.Type_
  | AGcpIit _ => GcpIit.Type_
  | AAwsIid _ => AwsIid.Type_
  | AMaven _ => Maven.Type_
  | ALockfiles _ => Lockfiles.Type_
  | ASystemPackages _ => SystemPackages.Type_
  | AOmnitrail _ => Omnitrail.Type_
  | AMaterial _ => Material.Type_
  | ACommandRun _ => CommandRun.Type_
  | AProduct _ => Product.ProductType
  | ASarif _ => Sarif.Type_
  | AVex _ => Vex.Type_
  | ASbom a => Sbom.Type_of a
  | ADocker _ => Docker.Type_
  | AOci _ => Oci.Type_
  | AK8s _ => K8sManifest.Type_
  | ASecretScan _ => SecretScan.Type_
  | ALink _ => Link.Type_
  | ASlsa _ => Slsa.Type_
  end.

Definition run_type_of (a : attestor) : string :=
  match a with
  | AEnvironment _ => PreMaterialRunType
  | AGit _ => Git.RunType
  | AJwt _ => Jwt.RunType
  | AGitLab _ => GitLab.RunType
  | AGitHub _ => GitHub.RunType
  | AJenkins _ => Jenkins.RunType
  | ACodeBuild _ => CodeBuild.RunType
  | AGcpIit _ => GcpIit.RunType
  | AAwsIid _ => AwsIid.RunType
  | AMaven _ => Maven.RunType
  | ALockfiles _ => Lockfiles.RunType
  | ASystemPackages _ => SystemPackages.RunType
  | AOmnitrail _ => Omnitrail.RunType
  | AMaterial _ => Material.RunType
  | ACommandRun _ => CommandRun.RunType
  | AProduct _ => Product.RunType
  | ASarif _ => Sarif.RunType
  | AVex _ => Vex.RunType
  | ASbom _ => Sbom.RunType
  | ADocker _ => Docker.RunType
  | AOci _ => Oci.RunType
  | AK8s _ => K8sManifest.RunType
  | ASecretScan _ => SecretScan.RunType
  | ALink _ => Link.RunType
  | ASlsa _ => Slsa.RunType
  end.

(** ** The optional interfaces *)

(** [Subjects] and [BackRefs] panic only when SHA-256 is not linked into the program,
    which the packages of the attestors do. *)
Definition total (r : res (gmap string DigestSet)) : gmap string DigestSet :=
  match r with Ok m => m | _ => ∅ end.

Section digests.
Context `{CL : CryptoLib} `{GI : GitoidLib} `{RO : RangeOrder}.

Definition subjects_of (a : attestor) : option (res (gmap string DigestSet)) :=
  match a with
  | AGit a => Some (Git.Subjects a)
  | AGitLab a => Some (GitLab.Subjects a)
  | AGitHub a => Some (GitHub.Subjects a)
  | AJenkins a => Some (Jenkins.Subjects a)
  | ACodeBuild a => Some (CodeBuild.Subjects a)
  | AGcpIit a => Some (GcpIit.Subjects a)
  | AAwsIid a => Some (AwsIid.Subjects a)
  | AMaven a => Some (Maven.Subjects a)
  | ALockfiles a => Some (Ok (Lockfiles.Subjects a))
  | AProduct a => Some (Ok (Product.Subjects a))
  | ASbom a => Some (Ok (Sbom.Subjects a))
  | ADocker a => Some (Docker.Subjects a)
  | AOci a => Some (Oci.Subjects a)
  | AK8s a => Some (Ok (K8sManifest.Subjects a))
  | ASecretScan a => Some (Ok (SecretScan.Subjects a))
  | ALink a => Some (Ok (Link.Subjects a))
  | ASlsa a => Some (Ok (Slsa.Subjects a))
  | _ => None
  end.
Definition back_refs_of (a : attestor) : option (res (gmap string DigestSet)) :=
  match a with
  | AGit a => Some (Ok (Git.BackRefs a))
  | AGitLab a => Some (GitLab.BackRefs a)
  | AGitHub a => Some (GitHub.BackRefs a)
  | AJenkins a => Some (Jenkins.BackRefs a)
  | ACodeBuild a => Some (CodeBuild.BackRefs a)
  | _ => None
  end.
End digests.

Definition materials_of (a : attestor) : option (gmap string DigestSet) :=
  match a with AMaterial a => Some (Material.Materials a) | _ => None end.
Definition products_of (a : attestor) : option (gmap string Product) :=
  match a with AProduct a => Some (Product.Products a) | _ => None end.
Definition export_of (a : attestor) : option bool :=
  match a with
  | ASbom a => Some (Sbom.Export a)
  | ALink a => Some (Link.Export a)
  | ASlsa a => Some (Slsa.Export a)
  | _ => None
  end.

(** ** The assertions of other attestors: a [Data] method returns the receiver. *)
Definition command_of (a : attestor) : option CommandRun.CommandRun :=
  match a with ACommandRun rc => Some rc | _ => None end.
#[export] Instance attestor_views : ProvenanceViews attestor := {|
  CommandRun_Data a := Some <$> command_of a;
  Material_Materials := materials_of;
  Environment_Data a := match a with AEnvironment a => Some (Some a) | _ => None end;
  Product_Products := products_of;
  Git_Data a := match a with AGit a => Some (Some a) | _ => None end;
  GitHub_Data a := match a with AGitHub a => Some (Some a) | _ => None end;
  GitLab_Data a := match a with AGitLab a => Some (Some a) | _ => None end;
  Jenkins_Data a := match a with AJenkins a => Some (Some a) | _ => None end;
  CodeBuild_Data a := match a with ACodeBuild a => Some (Some a) | _ => None end;
|}.
#[export] Instance attestor_commands : CommandRun.CommandRunOf attestor := command_of.
End sum.
Arguments attestor {JL CB SB SL OL KL} SarifReport VEX.

(** * The [Attestor] interface *)

(** encoding/json on the dynamic types, the decoders of the attestors, and two encoders
    with indentation. Decoding keeps the dynamic type, unless the text is null. *)
Class AttestorJson (A SarifReport VEX : Type) := {
  json_Marshal_any : A → res bytes;
  json_Unmarshal_any : bytes → A → res (option A);
  json_MarshalIndent_any : A → res bytes;
  json_MarshalIndent_command : CommandRun.CommandRun → res bytes;
  zero_Report : SarifReport;
  json_Unmarshal_Report : bytes → SarifReport → SarifReport * err;
  zero_VEX : VEX;
  json_Unmarshal_VEX : bytes → VEX → VEX * err;
  json_Unmarshal_Value : bytes → res string;
  json_Unmarshal_Manifest : bytes → list Oci.Manifest → list Oci.Manifest * err;
  json_Marshal_SystemPackages : SystemPackages.Attestor → res bytes;
  xml_Unmarshal_Pom : bytes → Maven.Attestor → Maven.Attestor * err;
}.

(** The process: its variables, what the system says of the host and the user, and how it
    runs commands. *)
Class Machine := {
  os_Environ : list string;
  runtime_GOOS : string;
  os_Hostname : res string;
  user_Username : res string;
  exec_Command : SystemPackages.ExecCommand;
}.

Section ops.
Context `{CL : CryptoLib} `{GI : GitoidLib} `{GL : GlobLib} `{RO : RangeOrder}.
Context `{JL : JoseLib} `{CB : CodeBuildApi} `{SB : SbomLib} `{SL : StructLib} `{OL : OmnitrailLib} `{KL : K8sLib}.
Context {SarifReport VEX : Type}.
Notation A := (attestor SarifReport VEX).
Context `{AJ : !AttestorJson A SarifReport VEX}.

#[export] Instance attestor_ops : AttestorOps A := {|
  Attestor_Name := name_of;
  Attestor_Type := type_of;
  Attestor_RunType := run_type_of;
  Subjecter_Subjects a := total <$> subjects_of a;
  Materialer_Materials := materials_of;
  Producer_Products := products_of;
  BackReffer_BackRefs a := total <$> back_refs_of a;
  Exporter_Export := export_of;
  MultiExporter_ExportedAttestations _ := None;
  Experimental_IsExperimental _ := None;
  json_Marshal_Attestor := json_Marshal_any;
  json_Unmarshal_Attestor := json_Unmarshal_any;
|}.

#[export] Instance attestor_scan_json : SecretScanner.ScanJson A := {|
  SecretScanner.json_MarshalIndent := json_MarshalIndent_any;
  SecretScanner.json_MarshalIndent_CommandRun := json_MarshalIndent_command;
  SecretScanner.CommandRunAttestor_Data a := Some <$> command_of a;
|}.

(** ** [Attest] *)

(** The directory tree as it is while the attestors of a run type run. *)
Variable FS_at : string → FileSystem.
Context `{HF : HostFiles} `{PE : ProcessEnv} `{UL : UrlLib} `{HL : HttpLib} `{GT : GitLib} `{IA : !ImdsApi}.
Context `{DJ : !Metadata.DockerJson} `{TL : TarLib} `{RX : RegexpLib} `{LK : GitleaksLib} `{SF : SecretScanner.ScanFS}.
Context `{ML : Product.MimeLib} `{UX : UnixLib} `{EL : CommandRun.ExecLib} `{MA : Machine}.
(** The detectors of media types that the process has registered so far. *)
Variable mime_tree : list Product.extension.
(** Every command ends. *)
Class CommandsEnd := commands_end : ∀ (rc : CommandRun.CommandRun) (ctx : AttestationContext A) hk,
  is_Some (CommandRun.Attest rc ctx hk).
Context `{CE : !CommandsEnd}.

(** An attestor that leaves the capturer and the hooks of the context alone. *)
Definition outcome {X} (inject : X → A) (ctx : AttestationContext A) (r : X * err) : attest_outcome A :=
  mkOutcome (inject r.1) (ctx_capturer ctx) (ctx_executeHooks ctx) r.2.

Definition attest_environment (a : EnvAttestor) (ctx : AttestationContext A) : attest_outcome A :=
  let (c, r) := EnvAttestor_Attest runtime_GOOS os_Hostname user_Username (ctx_capturer ctx) a in
  match r with
  | Ok a => mkOutcome (AEnvironment a) c (ctx_executeHooks ctx) nil_error
  | Err e => mkOutcome (AEnvironment a) c (ctx_executeHooks ctx) (Err e)
  | Panic w => mkOutcome (AEnvironment a) c (ctx_executeHooks ctx) (Panic w)
  end.

(** [RunAttestors] has called [DeclareHooks], which keeps the pointer to the hooks, before
    the stage starts; no other attestor of the sum declares hooks, so that they are what
    they were when the command waits for them. *)
Definition attest_command (rc : CommandRun.CommandRun) (ctx : AttestationContext A) : attest_outcome A :=
  let '(rc, c, e) := is_Some_proj (commands_end (CommandRun.DeclareHooks rc) ctx (ctx_executeHooks ctx)) in
  mkOutcome (ACommandRun rc) c (ctx_executeHooks ctx) e.

Definition attest_product (a : Product.Attestor) (ctx : AttestationContext A) : attest_outcome A :=
  let '(_, a, e) := Product.Attest (FS:=FS_at ProductRunType) mime_tree a ctx in
  outcome AProduct ctx (a, e).

Definition attest (a : A) (ctx : AttestationContext A) : attest_outcome A :=
  let hashes := ctx_hashes ctx in
  let FS := FS_at (run_type_of a) in
  match a with
  | AEnvironment a => attest_environment a ctx
  | AGit a => outcome AGit ctx (Git.Attest os_Open (ctx_workingDir ctx) hashes a)
  | AJwt a => outcome AJwt ctx (Jwt.Attest 0 a)
  | AGitLab a => outcome AGitLab ctx (GitLab.Attest a)
  | AGitHub a => outcome AGitHub ctx (GitHub.Attest json_Unmarshal_Value a)
  | AJenkins a => outcome AJenkins ctx (Jenkins.Attest a)
  | ACodeBuild a => outcome ACodeBuild ctx (CodeBuild.Attest hashes a)
  | AGcpIit a => outcome AGcpIit ctx (GcpIit.Attest a)
  | AAwsIid a => outcome AAwsIid ctx (AwsIid.Attest hashes a)
  | AMaven a => outcome AMaven ctx (Maven.Attest xml_Unmarshal_Pom a)
  | ALockfiles a => outcome ALockfiles ctx (Lockfiles.Attest a)
  | ASystemPackages a => outcome ASystemPackages ctx (SystemPackages.Attest json_Marshal_SystemPackages a)
  | AOmnitrail a => outcome AOmnitrail ctx (Omnitrail.Attest ctx a)
  | AMaterial a => outcome AMaterial ctx (Material.Attest a ctx)
  | ACommandRun rc => attest_command rc ctx
  | AProduct a => attest_product a ctx
  | ASarif a => outcome ASarif ctx (Sarif.Attest json_Unmarshal_Report ctx a)
  | AVex a => outcome AVex ctx (Vex.Attest json_Unmarshal_VEX ctx a)
  | ASbom a => outcome ASbom ctx (Sbom.Attest ctx a)
  | ADocker a => outcome ADocker ctx (Docker.Attest ctx a)
  | AOci a => outcome AOci ctx (Oci.Attest json_Unmarshal_Manifest ctx a)
  | AK8s a => outcome AK8s ctx (K8sManifest.Attest ctx a)
  | ASecretScan a => outcome ASecretScan ctx (SecretScanner.Attest os_Environ a ctx)
  | ALink a => outcome ALink ctx (Link.Attest ctx a)
  | ASlsa a => outcome ASlsa ctx (Slsa.Attest ctx a)
  end.

(** Only the command attestor declares hooks, none of its own. *)
#[export] Instance attestor_run : Runnable A := {|
  Attest := attest;
  DeclareHooks a := match a with ACommandRun _ => Some (λ hooks, (hooks, nil_error)) | _ => None end;
|}.
End ops.

(** * The registrations of the packages *)

Definition PolicyVerify_Name : string := "policyverify".
Definition PolicyVerify_Type : string := VerificationSummaryPredicate.

Section registry.
Context `{CL : CryptoLib} `{TL : !TspLib} `{GI : GitoidLib} `{GL : GlobLib} `{FL : FulcioLib} `{RO : RangeOrder}.
Context `{JL : JoseLib} `{CB : CodeBuildApi} `{SB : SbomLib} `{SL : StructLib} `{OL : OmnitrailLib} `{KL : K8sLib}.
Context `{FS : FileSystem} `{PE : ProcessEnv} `{MA : Machine}.
Context {SarifReport VEX S : Type}.
Notation A := (attestor SarifReport VEX).
Context `{AJ : !AttestorJson A SarifReport VEX} `{RL : RegoLib} `{SS : !Sourcer A S}.
(** What [New] of the attestor of AWS returns when the configuration can be loaded; when it
    cannot, [New] returns nil. *)
Variable aws_New : AwsIid.Attestor.

Inductive registered : Type :=
  | Single (a : A)
  | NetworkTracer (a : NetTrace.Attestor)
  | PolicyVerifier (a : PVAttestor A S).

Definition registered_name (r : registered) : string :=
  match r with Single a => name_of a | NetworkTracer _ => NetTrace.Name | PolicyVerifier _ => PolicyVerify_Name end.
Definition registered_type (r : registered) : string :=
  match r with Single a => type_of a | NetworkTracer _ => NetTrace.Type_ | PolicyVerifier _ => PolicyVerify_Type end.
Definition registered_run_type (r : registered) : string :=
  match r with Single a => run_type_of a | NetworkTracer _ => ExecuteRunType | PolicyVerifier _ => VerifyRunType end.

(** What [%T] prints. *)
Definition go_type (r : registered) : string :=
  "*" +:+
  match r with
  | Single (AEnvironment _) => "environment.Attestor"
  | Single (AGit _) => "git.Attestor"
  | Single (AJwt _) => "jwt.Attestor"
  | Single (AGitLab _) => "gitlab.Attestor"
  | Single (AGitHub _) => "github.Attestor"
  | Single (AJenkins _) => "jenkins.Attestor"
  | Single (ACodeBuild _) => "aws_codebuild.Attestor"
  | Single (AGcpIit _) => "gcpiit.Attestor"
  | Single (AAwsIid _) => "aws_iid.Attestor"
  | Single (AMaven _) => "maven.Attestor"
  | Single (ALockfiles _) => "lockfiles.Attestor"
  | Single (ASystemPackages _) => "systempackages.Attestor"
  | Single (AOmnitrail _) => "omnitrail.Attestor"
  | Single (AMaterial _) => "material.Attestor"
  | Single (ACommandRun _) => "commandrun.CommandRun"
  | Single (AProduct _) => "product.Attestor"
  | Single (ASarif _) => "sarif.Attestor"
  | Single (AVex _) => "vex.Attestor"
  | Single (ASbom _) => "sbom.SBOMAttestor"
  | Single (ADocker _) => "docker.Attestor"
  | Single (AOci _) => "oci.Attestor"
  | Single (AK8s _) => "k8smanifest.Attestor"
  | Single (ASecretScan _) => "secretscan.Attestor"
  | Single (ALink _) => "link.Link"
  | Single (ASlsa _) => "slsa.Provenance"
  | NetworkTracer _ => "networktrace.Attestor"
  | PolicyVerifier _ => "policyverify.Attestor"
  end.

(** ** The options: a setter asserts the dynamic type first. *)
Definition setter {X V} (project : A → option X) (inject : X → A) (what : string) (f : V → X → X)
    : registered → V → registered * option error := λ r v,
  match r with
  | Single a =>
      match project a with
      | Some x => (Single (inject (f v x)), None)
      | None => (r, Some (Errorf ("unexpected attestor type: " +:+ go_type r +:+ " is not " +:+ what)))
      end
  | _ => (r, Some (Errorf ("unexpected attestor type: " +:+ go_type r +:+ " is not " +:+ what)))
  end.
Definition as_product (a : A) : option Product.Attestor := match a with AProduct a => Some a | _ => None end.
Definition as_sbom (a : A) : option Sbom.SBOMAttestor := match a with ASbom a => Some a | _ => None end.
Definition as_link (a : A) : option Link.Link := match a with ALink a => Some a | _ => None end.
Definition as_slsa (a : A) : option Slsa.Provenance := match a with ASlsa a => Some a | _ => None end.
Definition as_secretscan (r : registered) : option SecretScan.Attestor :=
  match r with Single (ASecretScan a) => Some a | _ => None end.
Definition as_aws (r : registered) : option AwsIid.Attestor := match r with Single (AAwsIid a) => Some a | _ => None end.
Definition as_maven (r : registered) : option Maven.Attestor := match r with Single (AMaven a) => Some a | _ => None end.
Definition as_k8s (r : registered) : option K8sManifest.Attestor := match r with Single (AK8s a) => Some a | _ => None end.

Definition product_options : list (Configurer registered) :=
  [ CString (NewConfigOption "include-glob"
      "Pattern to use when recording products. Files that match this pattern will be included as subjects on the attestation."
      Product.defaultIncludeGlob (setter as_product AProduct "a product attestor" Product.WithIncludeGlob));
    CString (NewConfigOption "exclude-glob"
      "Pattern to use when recording products. Files that match this pattern will be excluded as subjects on the attestation."
      Product.defaultExcludeGlob (setter as_product AProduct "a product attestor" Product.WithExcludeGlob)) ].
Definition sbom_options : list (Configurer registered) :=
  [ CBool (NewConfigOption "export" "Export the SBOM predicate in its own attestation"
      Sbom.defaultExport (setter as_sbom ASbom "an SBOM attestor" Sbom.WithExport)) ].
Definition link_options : list (Configurer registered) :=
  [ CBool (NewConfigOption "export" "Export the Link predicate in its own attestation"
      Link.defaultExport (setter as_link ALink "a Link provenance attestor" Link.WithExport)) ].
Definition slsa_options : list (Configurer registered) :=
  [ CBool (NewConfigOption "export" "Export the SLSA provenance predicate in its own attestation"
      Slsa.defaultExport (setter as_slsa ASlsa "a SLSA provenance attestor" Slsa.WithExport)) ].

(** ** The calls of [RegisterAttestation] and, for sbom, [RegisterAttestationWithTypes] *)
Record registration := mkRegistration {
  reg_name : string;
  reg_types : list string;
  reg_run : string;
  reg_factory : unit → registered;
  reg_options : list (Configurer registered);
}.
Definition plain (a : A) : registration := mkRegistration (name_of a) [type_of a] (run_type_of a) (λ _, Single a) [].
Definition with_options (a : A) (opts : list (Configurer registered)) : registration :=
  mkRegistration (name_of a) [type_of a] (run_type_of a) (λ _, Single a) opts.

(** The [init] function of each package. *)
Definition CodeBuild_init : registration := plain (ACodeBuild CodeBuild.New).
Definition AwsIid_init : registration :=
  with_options (AAwsIid aws_New) (AwsIid.aws_options as_aws (λ a, Single (AAwsIid a)) go_type).
Definition CommandRun_init : registration := plain (ACommandRun (CommandRun.New [])).
Definition Docker_init : registration := plain (ADocker Docker.New).
Definition Environment_init : registration := plain (AEnvironment (NewEnvAttestor os_Environ [])).
Definition GcpIit_init : registration := plain (AGcpIit GcpIit.New).
Definition Git_init : registration := plain (AGit Git.New).
Definition GitHub_init : registration := plain (AGitHub GitHub.New).
Definition GitLab_init : registration := plain (AGitLab (GitLab.New [])).
Definition Jenkins_init : registration := plain (AJenkins Jenkins.New).
Definition Jwt_init : registration := plain (AJwt (Jwt.New [])).
Definition K8sManifest_init : registration :=
  with_options (AK8s K8sManifest.New) (K8sManifest.k8s_options as_k8s (λ a, Single (AK8s a)) go_type).
Definition Link_init : registration := with_options (ALink Link.New) link_options.
Definition Lockfiles_init : registration := plain (ALockfiles (Lockfiles.mkAttestor [])).
Definition Material_init : registration := plain (AMaterial (Material.New [])).
Definition Maven_init : registration :=
  with_options (AMaven (Maven.New [])) (Maven.maven_options as_maven (λ a, Single (AMaven a)) go_type).
Definition Oci_init : registration := plain (AOci Oci.New).
Definition PolicyVerify_init : registration :=
  mkRegistration PolicyVerify_Name [PolicyVerify_Type] VerifyRunType (λ _, PolicyVerifier (NewPVAttestor [])) [].
Definition Product_init : registration := with_options (AProduct (Product.New [])) product_options.
Definition Sarif_init : registration := plain (ASarif (Sarif.New zero_Report)).
Definition Sbom_init : registration :=
  mkRegistration Sbom.Name [Sbom.Type_; Sbom.SPDXPredicateType; Sbom.CycloneDxPredicateType] Sbom.RunType
    (λ _, Single (ASbom Sbom.NewSBOMAttestor)) sbom_options.
Definition SecretScan_init : registration :=
  with_options (ASecretScan (SecretScan.New []))
    (SecretScan.secretscan_options as_secretscan (λ a, Single (ASecretScan a)) go_type).
Definition Slsa_init : registration := with_options (ASlsa Slsa.New) slsa_options.
Definition SystemPackages_init : registration :=
  plain (ASystemPackages (SystemPackages.NewSystemPackagesAttestor exec_Command)).
Definition Vex_init : registration := plain (AVex (Vex.New zero_VEX)).
Definition NetworkTrace_init : registration :=
  mkRegistration NetTrace.Name [NetTrace.Type_] ExecuteRunType (λ _, NetworkTracer NetTrace.New) [].
Definition Omnitrail_init : registration := plain (AOmnitrail Omnitrail.NewOmnitrailAttestor).

(** The packages that imports.go imports, in its order, and those of import_linux.go and
    imports_nonwindows.go. *)
Definition registrations : list registration :=
  [ CodeBuild_init; AwsIid_init; CommandRun_init; Docker_init; Environment_init; GcpIit_init; Git_init;
    GitHub_init; GitLab_init; Jenkins_init; Jwt_init; K8sManifest_init; Link_init; Lockfiles_init;
    Material_init; Maven_init; Oci_init; PolicyVerify_init; Product_init; Sarif_init; Sbom_init;
    SecretScan_init; Slsa_init; SystemPackages_init; Vex_init; NetworkTrace_init; Omnitrail_init ].

Definition register (fs : factory_state registered) (r : registration) : factory_state registered :=
  RegisterAttestationWithTypes fs (reg_name r) (reg_types r) (reg_run r) (reg_factory r) (reg_options r).
(** The [init] functions, in an order that the Go linker chooses. *)
Definition init_all (order : list registration) : factory_state registered := foldl register factory_init order.
End registry.
