(* ===== verification/Run.v ===== *)
(** witness: running attestors and signing the result (run.go, sign.go). *)
From S2P Require Import Prelude GoStrings Errors Crypto Keys Digest Timestamp Dsse Intoto Registry Attestation Source Constraints Environment Hooks Sched Context ContextRun VerifiedSource PolicyStep.

Section run.
Context `{CL : CryptoLib} `{TL : !TspLib} `{GL : GlobLib} `{RO : RangeOrder} `{SC : Scheduler} `{CK : Clock}.
Context {A : Type} `{AO : AttestorOps A} `{RA : !Runnable A} `{SJ : StatementJson} `{CJ : CollectionJson}.

(** What the operating system delivers: the working directory, and the
    randomness of the i-th signer in the n-th call of [Sign]. *)
Variable getwd : res string.
Variable rnd : nat → nat → bytes.

Record runOptions := mkRunOptions {
  ro_stepName : string;
  ro_signers : list (option Signer);
  ro_attestors : list A;
  ro_attestationOpts : list (@AttestationContextOption A);
  ro_timestampers : list Timestamper;
  ro_insecure : bool;
  ro_ignoreErrors : bool;
}.
Definition RunOption := runOptions → runOptions.

Definition RunWithInsecure (insecure : bool) : RunOption := λ ro,
  mkRunOptions (ro_stepName ro) (ro_signers ro) (ro_attestors ro) (ro_attestationOpts ro)
    (ro_timestampers ro) insecure (ro_ignoreErrors ro).
Definition RunWithIgnoreErrors (ignoreErrors : bool) : RunOption := λ ro,
  mkRunOptions (ro_stepName ro) (ro_signers ro) (ro_attestors ro) (ro_attestationOpts ro)
    (ro_timestampers ro) (ro_insecure ro) ignoreErrors.
Definition RunWithAttestors (attestors : list A) : RunOption := λ ro,
  mkRunOptions (ro_stepName ro) (ro_signers ro) (ro_attestors ro ++ attestors) (ro_attestationOpts ro)
    (ro_timestampers ro) (ro_insecure ro) (ro_ignoreErrors ro).
Definition RunWithAttestationOpts (opts : list (@AttestationContextOption A)) : RunOption := λ ro,
  mkRunOptions (ro_stepName ro) (ro_signers ro) (ro_attestors ro) opts
    (ro_timestampers ro) (ro_insecure ro) (ro_ignoreErrors ro).
Definition RunWithTimestampers (ts : list Timestamper) : RunOption := λ ro,
  mkRunOptions (ro_stepName ro) (ro_signers ro) (ro_attestors ro) (ro_attestationOpts ro)
    ts (ro_insecure ro) (ro_ignoreErrors ro).
Definition RunWithSigners (signers : list (option Signer)) : RunOption := λ ro,
  mkRunOptions (ro_stepName ro) (ro_signers ro ++ signers) (ro_attestors ro) (ro_attestationOpts ro)
    (ro_timestampers ro) (ro_insecure ro) (ro_ignoreErrors ro).

Record RunResult := mkRunResult {
  rr_Collection : Collection A;
  rr_SignedEnvelope : Envelope;
  rr_AttestorName : string;
}.
Definition zero_envelope : Envelope := mkEnvelope "" "" [].
Definition zero_RunResult : RunResult := mkRunResult (mkCollection "" []) zero_envelope "".

Definition validateRunOpts (ro : runOptions) : err :=
  if bool_decide (ro_stepName ro = "") then Err (Errorf "step name is required")
  else if bool_decide (length (ro_signers ro) = 0) && negb (ro_insecure ro) then
    Err (Errorf "at lease one signer is required if not in insecure mode")
  else nil_error.

(** [json.Marshal] of a collection: each attestation with its attestor's own
    encoding. *)
Definition Collection_Marshal (c : Collection A) : res bytes :=
  raws ← collect (λ ca,
           att ← json_Marshal_nilable (ca_Attestation ca);
           raw ← json_Marshal_proposed (mkProposed (ca_Type ca) att (ca_StartTime ca) (ca_EndTime ca));
           Ok [raw]) (coll_Attestations c);
  json_Marshal_Collection (coll_Name c) raws.

(** [createAndSignEnvelope], given the encoding of the predicate; [n] counts the
    calls. *)
Definition createAndSignEnvelope (n : nat) (marshalled : res bytes) (predType : string)
    (subjects : gmap string DigestSet) (opts : list SignOption) : res Envelope :=
  data ← marshalled;
  stmt ← NewStatement predType data subjects;
  stmtJson ← json_Marshal_Statement stmt;
  Sign (rnd n) IntotoPayloadType (Ok stmtJson) opts.

Definition sign_opts (ro : runOptions) : list SignOption :=
  [SignWithSigners (ro_signers ro); SignWithTimestampers (ro_timestampers ro)].

(** The envelope of an exported attestor: none in insecure mode. *)
Definition export_envelope (ro : runOptions) (n : nat) (a : A) (subjects : gmap string DigestSet) : res Envelope :=
  if ro_insecure ro then Ok zero_envelope
  else createAndSignEnvelope n (json_Marshal_Attestor a) (Attestor_Type a) subjects (sign_opts ro).

(** What the loop over the completed attestors adds for one: a result per
    exported attestation. An early return leaves the results so far. *)
Fixpoint export_all (ro : runOptions) (parent : A) (exported : list A) (result : list RunResult)
    : list RunResult * err :=
  match exported with
  | [] => (result, nil_error)
  | a :: exported =>
      match export_envelope ro (length result) a (default ∅ (Subjecter_Subjects a)) with
      | Ok envelope =>
          export_all ro parent exported
            (result ++ [mkRunResult (mkCollection "" []) envelope (Attestor_Name parent +:+ "/" +:+ Attestor_Name a)])
      | Err e => (result, Err (Wrapf ("failed to sign envelope for " +:+ Attestor_Name a) e))
      | Panic w => (result, Panic w)
      end
  end.

Definition export_one (ro : runOptions) (a : A) (result : list RunResult) : list RunResult * err :=
  match MultiExporter_ExportedAttestations a with
  | Some exported => export_all ro a exported result
  | None =>
      match Exporter_Export a, Subjecter_Subjects a with
      | Some true, Some subjects =>
          match export_envelope ro (length result) a subjects with
          | Ok envelope => (result ++ [mkRunResult (mkCollection "" []) envelope (Attestor_Name a)], nil_error)
          | Err e => (result, Err (Wrapf "failed to sign envelope" e))
          | Panic w => (result, Panic w)
          end
      | _, _ => (result, nil_error)
      end
  end.

Fixpoint export_loop (ro : runOptions) (completed : list (CompletedAttestor A)) (result : list RunResult)
    (errs : list error) : list RunResult * res (list error) :=
  match completed with
  | [] => (result, Ok errs)
  | r :: completed =>
      match comp_Error r with
      | Some e =>
          export_loop ro completed result
            (errs ++ [Wrapf ("attestor " +:+ Attestor_Name (comp_Attestor r) +:+ " failed") e])
      | None =>
          match export_one ro (comp_Attestor r) result with
          | (result, Ok _) => export_loop ro completed result errs
          | (result, Err e) => (result, Err e)
          | (result, Panic w) => (result, Panic w)
          end
      end
  end.

(** Which completed attestors go into the collection. *)
Definition in_collection (c : CompletedAttestor A) : bool :=
  match comp_Error c, MultiExporter_ExportedAttestations (comp_Attestor c), Exporter_Export (comp_Attestor c) with
  | Some _, _, _ => false
  | None, Some _, _ => false
  | None, None, Some true => false
  | None, None, _ => true
  end.

Definition collection_result (ro : runOptions) (completed : list (CompletedAttestor A)) (result : list RunResult)
    : list RunResult * err :=
  let coll := NewCollection (ro_stepName ro) (filter (λ c, in_collection c = true) completed) in
  match (if ro_insecure ro then Ok zero_envelope
         else createAndSignEnvelope (length result) (Collection_Marshal coll) CollectionType
                (Collection_Subjects coll) (sign_opts ro)) with
  | Ok envelope => (result ++ [mkRunResult coll envelope ""], nil_error)
  | Err e => (result, Err (Wrapf "failed to sign collection" e))
  | Panic w => (result, Panic w)
  end.

(** [run]: the results, also next to an error. *)
Definition run (stepName : string) (opts : list RunOption) : list RunResult * err :=
  let ro := foldl (λ ro opt, opt ro) (mkRunOptions stepName [] [] [] [] false false) opts in
  match validateRunOpts ro with
  | Err e => ([], Err e)
  | Panic w => ([], Panic w)
  | Ok _ =>
    match NewContext getwd stepName (ro_attestors ro) (ro_attestationOpts ro) with
    | Err e => ([], Err (Wrapf "failed to create attestation context" e))
    | Panic w => ([], Panic w)
    | Ok ctx =>
      match RunAttestors ctx with
      | (_, Err e) => ([], Err (Wrapf "failed to run attestors" e))
      | (_, Panic w) => ([], Panic w)
      | (ctx, Ok _) =>
        match export_loop ro (CompletedAttestors ctx) [] [] with
        | (result, Err e) => (result, Err e)
        | (result, Panic w) => (result, Panic w)
        | (result, Ok errs) =>
          if negb (ro_ignoreErrors ro) && bool_decide (0 < length errs) then
            (result, Err (Joined (Errorf "attestors failed with error messages" :: errs)))
          else collection_result ro (CompletedAttestors ctx) result
        end
      end
    end
  end.

Definition RunWithExports (stepName : string) (opts : list RunOption) : list RunResult * err := run stepName opts.

Definition Run (stepName : string) (opts : list RunOption) : RunResult * err :=
  let '(results, e) := run stepName opts in
  match results with
  | [] => (zero_RunResult, e)
  | [result] => (result, e)
  | _ => (zero_RunResult, Err (Errorf "expected a single result, got multiple"))
  end.

(** sign.go: [Sign], which writes the encoded envelope to a writer. *)
Definition witness_Sign (n : nat) (r : Reader) (dataType : string) (write : bytes → err) (opts : list SignOption) : err :=
  env ← Sign (rnd n) dataType r opts;
  data ← json_Marshal_Envelope env;
  write (data +:+ nl).

(** ** Lemmas *)

Definition run_options (stepName : string) (opts : list RunOption) : runOptions :=
  foldl (λ ro opt, opt ro) (mkRunOptions stepName [] [] [] [] false false) opts.

Lemma export_all_prefix ro parent exported result result' e :
  export_all ro parent exported result = (result', e) → result `prefix_of` result'.
Proof.
  revert result; induction exported as [|a l IH]; intros result; cbn [export_all]; [by intros [= <- _]|].
  destruct (export_envelope _ _ _ _) as [env| |]; [|by intros [= <- _]..].
  intros H%IH. etransitivity; [|done]. by eexists.
Qed.

Lemma export_one_prefix ro a result result' e :
  export_one ro a result = (result', e) → result `prefix_of` result'.
Proof.
  unfold export_one. destruct (MultiExporter_ExportedAttestations a); [apply export_all_prefix|].
  destruct (Exporter_Export a) as [[]|], (Subjecter_Subjects a); try by intros [= <- _].
  destruct (export_envelope _ _ _ _); intros [= <- _]; [by eexists|done..].
Qed.

(** What goes into the collection, as a property of the completed attestor: it did
    not fail and does not export itself. *)
Definition collected_attestor (c : CompletedAttestor A) : Prop :=
  comp_Error c = None ∧ MultiExporter_ExportedAttestations (comp_Attestor c) = None ∧
  Exporter_Export (comp_Attestor c) ≠ Some true.
Lemma in_collection_iff c : in_collection c = true ↔ collected_attestor c.
Proof.
  unfold in_collection, collected_attestor. destruct (comp_Error c), (MultiExporter_ExportedAttestations _),
    (Exporter_Export _) as [[]|]; naive_solver.
Qed.
Lemma elem_of_collection name completed ca :
  ca ∈ coll_Attestations (NewCollection name (filter (λ c, in_collection c = true) completed)) ↔
  ∃ c, c ∈ completed ∧ collected_attestor c ∧ ca = NewCollectionAttestation c.
Proof.
  cbn [coll_Attestations NewCollection]. rw list_elem_of_fmap. setoid_rewrite list_elem_of_filter.
  setoid_rewrite in_collection_iff. naive_solver.
Qed.

(** The errors that the loop collects are those of the completed attestors. *)
Lemma export_loop_errs ro completed result errs result' errs' :
  export_loop ro completed result errs = (result', Ok errs') →
  length errs' = length errs + length (filter (λ c, comp_Error c ≠ None) completed).
Proof.
  revert result errs; induction completed as [|c l IH]; intros result errs; cbn [export_loop].
  { intros [= _ <-]. rw filter_nil /=. lia. }
  destruct (comp_Error c) as [e|] eqn:He.
  - intros H%IH. rw filter_cons_True; [|by rw He]. rw H length_app /=. lia.
  - destruct (export_one _ _ _) as [r [[]| |]]; [|done..]. intros H%IH.
    rw filter_cons_False; [done|]. rw He. tauto.
Qed.

Lemma run_inv stepName opts results :
  run stepName opts = (results, nil_error) →
  let ro := run_options stepName opts in
  ∃ ctx ctx' result errs coll env,
    validateRunOpts ro = nil_error ∧
    NewContext getwd stepName (ro_attestors ro) (ro_attestationOpts ro) = Ok ctx ∧
    RunAttestors ctx = (ctx', nil_error) ∧
    export_loop ro (ctx_completed ctx') [] [] = (result, Ok errs) ∧
    (ro_ignoreErrors ro = true ∨ errs = []) ∧
    coll = NewCollection (ro_stepName ro) (filter (λ c, in_collection c = true) (ctx_completed ctx')) ∧
    (if ro_insecure ro then Ok zero_envelope
     else createAndSignEnvelope (length result) (Collection_Marshal coll) CollectionType
            (Collection_Subjects coll) (sign_opts ro)) = Ok env ∧
    results = result ++ [mkRunResult coll env ""].
Proof.
  unfold run. fold (run_options stepName opts). cbv zeta.
  destruct (validateRunOpts _) as [[]| |] eqn:Hval; [|done..].
  destruct (NewContext _ _ _ _) as [ctx| |] eqn:Hctx; [|done..].
  destruct (RunAttestors ctx) as [ctx' [[]| |]] eqn:Hrun; [|done..].
  unfold CompletedAttestors. destruct (export_loop _ _ _ _) as [result [errs| |]] eqn:Hexp; [|done..].
  destruct (negb _ && _) eqn:Hign; [done|]. unfold collection_result. cbv zeta.
  set (coll := NewCollection _ _). destruct (if ro_insecure _ then _ else _) as [env| |] eqn:Henv; [|done..].
  intros [= <-]. exists ctx, ctx', result, errs, coll, env. do 4 (split; [done|]). split; [|done].
  destruct (ro_ignoreErrors _); [by left|right]. simpl in Hign. apply bool_decide_eq_false in Hign.
  destruct errs; [done|simpl in Hign; lia].
Qed.

Lemma createAndSignEnvelope_inv n marshalled pt subjects opts env :
  createAndSignEnvelope n marshalled pt subjects opts = Ok env →
  ∃ data stmt text, marshalled = Ok data ∧ NewStatement pt data subjects = Ok stmt ∧
    json_Marshal_Statement stmt = Ok text ∧ Sign (rnd n) IntotoPayloadType (Ok text) opts = Ok env.
Proof.
  unfold createAndSignEnvelope. intros H. res_inv. by do 3 eexists.
Qed.

(** Context options change neither the attestors nor what has completed so far,
    for the options of this package. *)
Definition plain_option (opt : @AttestationContextOption A) : Prop :=
  ∀ ctx, ctx_completed (opt ctx) = ctx_completed ctx ∧ ctx_attestors (opt ctx) = ctx_attestors ctx.

Lemma NewContext_fields stepName attestors opts ctx :
  Forall plain_option opts → NewContext getwd stepName attestors opts = Ok ctx →
  ctx_completed ctx = [] ∧ ctx_attestors ctx = attestors.
Proof.
  intros Hopts. unfold NewContext. intros (wd & _ & H)%res_bind_ok. cbv zeta in H. injection H as <-.
  set (ctx0 := mkContext _ _ _ _ _ _ _ _ _ _ _ _ _).
  assert (Hg : ∀ ctx, ctx_completed ctx = [] ∧ ctx_attestors ctx = attestors →
    ctx_completed (foldl (λ ctx opt, opt ctx) ctx opts) = [] ∧
    ctx_attestors (foldl (λ ctx opt, opt ctx) ctx opts) = attestors).
  { induction Hopts as [|opt opts Hopt _ IH]; intros ctx Hc; [done|]. cbn [foldl]. apply IH.
    by destruct (Hopt ctx) as [-> ->]. }
  by apply Hg.
Qed.
End run.
