(* ===== verification/Verify.v ===== *)
(** witness: verifying a policy (verify.go). The policyverify attestor is run like
    any other, in a context of its own, and its result is read back from the
    collection. *)
From S2P Require Import Prelude GoStrings Errors Crypto Keys Digest Timestamp Dsse Intoto Registry Attestation Source Constraints Environment Hooks Sched Context ContextRun VerifiedSource PolicyStep KMS Policy PolicySound PolicySig PolicyVerify Run.

(** [VerifySignature]: the envelope, also next to a failed verification. *)
Definition VerifySignature `{CL : CryptoLib} `{TL : !TspLib} `{CJ : CollectionJson} (r : Reader) (now : Z)
    (verifiers : list (option Verifier)) : res (Envelope * option error) :=
  data ← r;
  match json_Unmarshal_Envelope data with
  | Err e => Ok (zero_envelope, Some (Wrapf "failed to parse dsse envelope" e))
  | Panic w => Panic w
  | Ok envelope =>
      v ← Envelope_Verify envelope now [Dsse.VerifyWithVerifiers verifiers];
      Ok (envelope, v.2)
  end.

(** How the policyverify attestor is one of the attestor types: its injection
    into them, the type assertion, and its methods. [Attest] reads the clock. *)
Class PolicyVerifyAttestor `{CL : CryptoLib} `{TL : !TspLib} `{GI : GitoidLib} `{GL : GlobLib} `{FL : FulcioLib}
    `{RO : RangeOrder} (A S : Type) `{AO : AttestorOps A} `{RA : !Runnable A} `{RL : RegoLib} `{SS : !Sourcer A S}
    `{PJ : PolicyJson} (st : kms_state) := {
  pv_inject : PVAttestor A S → A;
  pv_project : A → option (PVAttestor A S);
  pv_project_inject a : pv_project (pv_inject a) = Some a;
  pv_type a : Attestor_Type (pv_inject a) = VerificationSummaryPredicate;
  pv_run_type a : Attestor_RunType (pv_inject a) = VerifyRunType;
  (* no other attestor turns into a policyverify attestor by running *)
  pv_attest_project a ctx b :
    pv_project (out_attestor (Attest a ctx)) = Some b → ∃ a0, a = pv_inject a0;
  (* it declares no hooks and is not exported *)
  pv_hooks a : DeclareHooks (pv_inject a) = None;
  pv_exporter a : Exporter_Export (pv_inject a) = None;
  pv_multi a : MultiExporter_ExportedAttestations (pv_inject a) = None;
  (* the readings of the clock *)
  pv_now : AttestationContext A → Z;
  pv_clock : AttestationContext A → nat → Z;
  pv_attest a ctx :
    out_attestor (Attest (pv_inject a) ctx) = pv_inject (PV_Attest st (ctx_hashes ctx) (pv_now ctx) (pv_clock ctx) a).1 ∧
    out_error (Attest (pv_inject a) ctx) = (PV_Attest st (ctx_hashes ctx) (pv_now ctx) (pv_clock ctx) a).2;
}.

Section verify.
Context `{CL : CryptoLib} `{TL : !TspLib} `{GI : GitoidLib} `{GL : GlobLib} `{FL : FulcioLib} `{RO : RangeOrder}
        `{SC : Scheduler} `{CK : Clock}.
Context {A S : Type} `{AO : AttestorOps A} `{RA : !Runnable A} `{RL : RegoLib} `{SS : !Sourcer A S} `{PJ : PolicyJson}.
Context `{SJ : StatementJson} `{CJ : CollectionJson} {st : kms_state} `{PV : !PolicyVerifyAttestor A S st}.
Variable getwd : res string.
Variable rnd : nat → nat → bytes.

(** * Options *)

Record verifyOptions := mkVerifyOpts {
  vopt_attestorOptions : list (@PVOption CL A S);
  vopt_verifyPolicySignatureOptions : list PolicySigOption;
  vopt_runOptions : list (@RunOption CL A);
  vopt_signers : list (option Signer);
  vopt_kmsProviderOptions : KMSSetters;
}.
Definition VOption := verifyOptions → verifyOptions.

Definition add_attestor_options (opts : list PVOption) : VOption := λ vo,
  mkVerifyOpts (vopt_attestorOptions vo ++ opts) (vopt_verifyPolicySignatureOptions vo) (vopt_runOptions vo)
    (vopt_signers vo) (vopt_kmsProviderOptions vo).
Definition add_policy_option (opt : PolicySigOption) : VOption := λ vo,
  mkVerifyOpts (vopt_attestorOptions vo) (vopt_verifyPolicySignatureOptions vo ++ [opt]) (vopt_runOptions vo)
    (vopt_signers vo) (vopt_kmsProviderOptions vo).

Definition VerifyWithSigners (signers : list (option Signer)) : VOption := λ vo,
  mkVerifyOpts (vopt_attestorOptions vo) (vopt_verifyPolicySignatureOptions vo) (vopt_runOptions vo)
    (vopt_signers vo ++ signers) (vopt_kmsProviderOptions vo).
Definition VerifyWithSubjectDigests (sets : list DigestSet) : VOption :=
  add_attestor_options [PVVerifyWithSubjectDigests sets].
Definition VerifyWithCollectionSource (s : option S) : VOption :=
  add_attestor_options [PVVerifyWithCollectionSource s].
Definition VerifyWithAttestorOptions (opts : list PVOption) : VOption := add_attestor_options opts.
Definition VerifyWithRunOptions (opts : list RunOption) : VOption := λ vo,
  mkVerifyOpts (vopt_attestorOptions vo) (vopt_verifyPolicySignatureOptions vo) (vopt_runOptions vo ++ opts)
    (vopt_signers vo) (vopt_kmsProviderOptions vo).
Definition VPolicyFulcioCertExtensions (ext : gmap string string) : VOption :=
  add_policy_option (VerifyWithPolicyFulcioCertExtensions ext).
Definition VPolicyCertConstraints (cn : string) (dns emails orgs uris : list string) : VOption :=
  add_policy_option (VerifyWithPolicyCertConstraints cn dns emails orgs uris).
Definition VPolicyTimestampAuthorities (tvs : list TimestampVerifier) : VOption :=
  add_policy_option (VerifyWithPolicyTimestampAuthorities tvs).
Definition VPolicyCARoots (certs : list Certificate) : VOption := add_policy_option (VerifyWithPolicyCARoots certs).
Definition VPolicyCAIntermediates (certs : list Certificate) : VOption :=
  add_policy_option (VerifyWithPolicyCAIntermediates certs).
Definition VerifyWithKMSProviderOptions (ko : KMSSetters) : VOption := λ vo,
  mkVerifyOpts (vopt_attestorOptions vo) (vopt_verifyPolicySignatureOptions vo) (vopt_runOptions vo)
    (vopt_signers vo) ko.

(** * Verify *)

Record VerifyResult := mkVerifyResult {
  vr_RunResult : @RunResult A;
  vr_VerificationSummary : VerificationSummary;
  vr_StepResults : gmap string (StepResult A);
}.
Definition zero_VerifyResult : VerifyResult := mkVerifyResult zero_RunResult zero_summary ∅.

(** The attestor and the run options that [Verify] puts together. *)
Definition verify_attestor (policyEnvelope : Envelope) (policyVerifiers : list (option Verifier)) (vo : verifyOptions)
    : PVAttestor A S :=
  NewPVAttestor ([PVVerifyWithKMSProviderOptions (vopt_kmsProviderOptions vo)] ++ vopt_attestorOptions vo ++
    [PVVerifyWithPolicyEnvelope policyEnvelope;
     PVVerifyWithPolicyVerificationOptions
       (vopt_verifyPolicySignatureOptions vo ++ [VerifyWithPolicyVerifiers policyVerifiers])]).
Definition verify_run_options (a : PVAttestor A S) (vo : verifyOptions) : list RunOption :=
  vopt_runOptions vo ++
  [if bool_decide (0 < length (vopt_signers vo)) then RunWithSigners (vopt_signers vo) else RunWithInsecure true] ++
  [RunWithAttestors [pv_inject a]].

(** The loop over the attestations: the first with the predicate type of a
    summary decides. *)
Fixpoint read_summary (atts : list (CollectionAttestation A))
    : res (VerificationSummary * gmap string (StepResult A)) :=
  match atts with
  | [] => Ok (zero_summary, ∅)
  | att :: atts =>
      if bool_decide (ca_Type att = VerificationSummaryPredicate) then
        match type_assert pv_project (ca_Attestation att) with
        | None => Err (Errorf "unknown attestor")
        | Some a => Ok (pv_summary a, pv_stepResults a)
        end
      else read_summary atts
  end.

Definition Verify (policyEnvelope : Envelope) (policyVerifiers : list (option Verifier)) (opts : list VOption)
    : VerifyResult * err :=
  let vo := foldl (λ vo opt, opt vo) (mkVerifyOpts [] [] [] [] ∅) opts in
  let a := verify_attestor policyEnvelope policyVerifiers vo in
  match Run getwd rnd "policyverify" (verify_run_options a vo) with
  | (_, Err e) => (zero_VerifyResult, Err e)
  | (_, Panic w) => (zero_VerifyResult, Panic w)
  | (runResult, Ok _) =>
      match read_summary (coll_Attestations (rr_Collection runResult)) with
      | Err e => (zero_VerifyResult, Err e)
      | Panic w => (zero_VerifyResult, Panic w)
      | Ok (summary, stepResults) =>
          let vr := mkVerifyResult runResult summary stepResults in
          if bool_decide (vsum_VerificationResult summary ≠ PassedVerificationResult)
          then (vr, Err (Errorf "policy verification failed"))
          else (vr, nil_error)
      end
  end.

(** ** What a verification without error means *)

Lemma read_summary_passed atts summary results :
  read_summary atts = Ok (summary, results) → vsum_VerificationResult summary = PassedVerificationResult →
  ∃ ca att a, ca ∈ atts ∧ ca_Attestation ca = Some att ∧ pv_project att = Some a ∧
    pv_summary a = summary ∧ pv_stepResults a = results.
Proof.
  induction atts as [|ca atts IH]; cbn [read_summary]; [by intros [= <- <-]|].
  case_bool_decide.
  - destruct (ca_Attestation ca) as [att|] eqn:Hca; [|done]. cbn [type_assert].
    destruct (pv_project att) as [a|] eqn:Hp; [|done]. intros [= <- <-] _. exists ca, att, a.
    split; [left|done].
  - intros Hr Hs. destruct (IH Hr Hs) as (ca' & att & a & ? & ?). exists ca', att, a. eauto with elems.
Qed.

Lemma Run_inv stepName opts r :
  Run getwd rnd stepName opts = (r, nil_error) → run getwd rnd stepName opts = ([r], nil_error) ∨ r = zero_RunResult.
Proof.
  unfold Run. destruct (run _ _ _ _) as [results e].
  destruct results as [|r1 [|r2 rs]]; intros [= <- ->]; by auto.
Qed.

(** A completed attestor of the run is what some attestor of the options became
    by running. *)
Lemma completed_from_options stepName opts r ca att :
  Forall plain_option (ro_attestationOpts (run_options stepName opts)) →
  run getwd rnd stepName opts = ([r], nil_error) →
  ca ∈ coll_Attestations (rr_Collection r) → ca_Attestation ca = Some att →
  ∃ a0, a0 ∈ ro_attestors (run_options stepName opts) ∧ attested_as a0 att None.
Proof.
  intros Hopts Hr Hca Hatt. apply run_inv in Hr as (ctx & ctx' & result & errs & coll & env & _ & Hctx & Hrun & _ & _ & Hcoll & _ & Hres).
  destruct result as [|r0 [|? ?]]; [|done..]. injection Hres as ->. subst coll. cbn [rr_Collection coll_Attestations NewCollection] in Hca.
  destruct (NewContext_fields _ _ _ _ _ Hopts Hctx) as [Hnil Hatts].
  apply list_elem_of_fmap in Hca as (c & -> & [Hin Hc]%list_elem_of_filter).
  cbn [ca_Attestation NewCollectionAttestation] in Hatt. simplify_eq.
  apply RunAttestors_completed in Hrun as (order & news & Hcomp & Hst & _). rw Hnil /= in Hcomp.
  rw Hcomp in Hc. apply list_elem_of_In, in_concat in Hc as (new & Hnew & Hc).
  apply list_elem_of_In in Hnew, Hc. apply list_elem_of_lookup in Hnew as [i Hi].
  destruct (Forall2_lookup_r _ _ _ _ _ Hst Hi) as (stage & _ & D & HD & Hperm).
  apply list_elem_of_lookup in Hc as [j Hj]. destruct (Forall2_lookup_r _ _ _ _ _ HD Hj) as (a0 & Ha0 & Hca0).
  exists a0. split.
  - assert (a0 ∈ of_run_type (ctx_attestors ctx) stage) as Hof by (rw -Hperm; by eapply list_elem_of_lookup_2).
    unfold of_run_type in Hof. apply list_elem_of_filter in Hof as [_ ?]. by rw -Hatts.
  - unfold completed_as in Hca0. unfold in_collection in Hin. by destruct (comp_Error c).
Qed.
End verify.
