(* ===== verification/SignerTheorems.v ===== *)
(** The signers with files (FileSigner.v) and with Fulcio (Fulcio.v): which key,
    passphrase and certificates a signer has, and how often the services are asked. *)
From S2P Require Import Prelude GoStrings GoText Errors Crypto Keys Digest Toy Registry Attestation Constraints Environment Hooks Context Host FileSigner CI CITheorems Fulcio.
From stdpp Require Import options.

#[local] Unset Default Proof Using.

(** * signer/file *)

Section file.
Context `{CL : CryptoLib} `{PE : ProcessEnv} `{HF : HostFiles}.
Import FileSigner.
Implicit Types fsp : FileSignerProvider.

Definition newline_free (s : string) : Prop := ContainsAny_newlines s = false.
Fixpoint all_newlines (s : string) : bool :=
  match s with "" => true | String c s => is_newline c && all_newlines s end.

Lemma TrimRight_newlines_suffix s : ∃ n, all_newlines n = true ∧ s = TrimRight_newlines s +:+ n.
Proof.
  induction s as [|c s (n & Hn & Hs)]; [by exists ""|]. cbn [TrimRight_newlines].
  destruct (TrimRight_newlines s) as [|c' t] eqn:Ht.
  - change ("" +:+ n) with n in Hs. subst n. destruct (is_newline c) eqn:Hc.
    + exists (String c s). cbn. by rw Hc Hn.
    + exists s. done.
  - exists n. split; [done|]. cbn. by rw {1}Hs.
Qed.

Lemma TrimRight_newlines_all n : all_newlines n = true → TrimRight_newlines n = "".
Proof.
  induction n as [|c n IH]; [done|]. cbn. intros [Hc Hn]%andb_true_iff. by rw (IH Hn) Hc.
Qed.

Lemma TrimRight_newlines_free p n :
  newline_free p → all_newlines n = true → TrimRight_newlines (p +:+ n) = p.
Proof.
  unfold newline_free. intros Hp Hn. induction p as [|c p IH]; [by apply TrimRight_newlines_all|].
  change (String c p +:+ n) with (String c (p +:+ n)). cbn in Hp |- *. apply orb_false_iff in Hp as [Hc Hp]. rw (IH Hp). destruct p; [by rw Hc|done].
Qed.

(** What a passphrase file gives: the one line it has, up to any number of line
    ends after it. *)
Lemma read_passphrase_file fsp b :
  Passphrase fsp = None → PassphrasePath fsp ≠ "" → host_ReadFile (PassphrasePath fsp) = Ok b →
  ∀ r, read_passphrase fsp = Ok r ↔
       ∃ p n, r = Some p ∧ newline_free p ∧ all_newlines n = true ∧ b = p +:+ n.
Proof.
  intros Hp Hpath Hb r. unfold read_passphrase. rw Hp bool_decide_eq_true_2 // Hb. cbn [wrap mbind res_bind]. split.
  - destruct (ContainsAny_newlines _) eqn:Hc; [done|]. intros [= <-].
    destruct (TrimRight_newlines_suffix b) as (n & Hn & Hbn). by exists (TrimRight_newlines b), n.
  - intros (p & n & -> & Hfree & Hn & ->). rw TrimRight_newlines_free //. by rw Hfree.
Qed.

Lemma load_intermediates paths ints :
  collect (λ path, cert ← wrap "failed to load intermediate" (loadCert path); Ok [cert]) paths = Ok ints ↔
  Forall2 (λ path cert, loadCert path = Ok cert) paths ints.
Proof.
  revert ints. induction paths as [|path paths IH]; intros ints; cbn [collect].
  { split; [intros [= <-]; constructor|by inversion 1]. }
  split.
  - intros (cs & Hcs & (rest & Hrest & [= <-])%res_bind_ok)%res_bind_ok.
    apply res_bind_ok in Hcs as (cert & Hcert%wrap_ok & [= <-]). constructor; [done|]. by apply IH.
  - intros (cert & rest & Hcert & Hrest & ->)%Forall2_cons_inv_l. apply IH in Hrest. rw Hcert. cbn. by rw Hrest.
Qed.

(** Certificates do not change the kind of the key's signer. *)
Lemma NewSigner_certificates key opts s :
  NewSigner key opts = Ok s ↔
  ∃ inner, NewSigner key [SignWithHash (so_hash (foldl (λ o opt, opt o) (mkSignerOptions None [] [] SHA256) opts))] = Ok inner ∧
    let o := foldl (λ o opt, opt o) (mkSignerOptions None [] [] SHA256) opts in
    match so_cert o with
    | Some cert => s = X509Signer cert (so_roots o) (so_intermediates o) inner
    | None => s = inner
    end.
Proof.
  unfold NewSigner. cbn [foldl SignWithHash so_hash so_cert so_intermediates so_roots].
  destruct key as [[]|]; cbn [mbind res_bind]; try (split; [done|by intros (? & ? & ?)]).
  all: destruct (so_cert _) as [cert|]; cbn [NewX509Signer]; split;
    [intros [= <-]; by eexists|intros (inner & [= <-] & ->); done|intros [= <-]; by eexists|intros (inner & [= <-] & ->); done].
Qed.

(** The signer of a key file: it exists exactly when the key file parses under
    the passphrase and the certificates load; its key is the file's, with the
    certificate and the intermediates when a certificate is given. The passphrase
    is the explicit one, else the line of the file, else the environment's. *)
Theorem file_Signer_spec fsp :
  (∀ s, Signer fsp = Ok s ↔
     ∃ keyFile pass key inner ints,
       host_Open (KeyPath fsp) = Ok keyFile ∧ read_passphrase fsp = Ok pass ∧
       TryParseKeyFromReaderWithPassword keyFile pass = Ok key ∧ NewSigner key [] = Ok inner ∧
       Forall2 (λ path cert, loadCert path = Ok cert) (IntermediatePaths fsp) ints ∧
       if bool_decide (CertPath fsp = "") then s = inner
       else ∃ leaf, loadCert (CertPath fsp) = Ok leaf ∧ s = X509Signer leaf [] ints inner) ∧
  (∀ pass, read_passphrase fsp = Ok pass ↔
     match Passphrase fsp with
     | Some p => pass = Some p
     | None =>
         if bool_decide (PassphrasePath fsp = "") then pass = LookupEnv "WITNESS_KEY_PASSPHRASE"
         else ∃ p n, host_ReadFile (PassphrasePath fsp) = Ok (p +:+ n) ∧ newline_free p ∧ all_newlines n = true ∧ pass = Some p
     end).
Proof.
  split.
  - intros s. unfold Signer. split.
    + intros (kf & Hkf%wrap_ok & H)%res_bind_ok. apply res_bind_ok in H as (pass & Hpass & H).
      apply res_bind_ok in H as (key & Hkey%wrap_ok & H). apply res_bind_ok in H as (lo & Hlo & H).
      apply res_bind_ok in H as (io & Hio & H).
      assert (∃ ints, Forall2 (λ path cert, loadCert path = Ok cert) (IntermediatePaths fsp) ints ∧
        io = if bool_decide (0 < length (IntermediatePaths fsp)) then [SignWithIntermediates ints] else []) as (ints & Hints & ->).
      { case_bool_decide as Hl.
        - apply res_bind_ok in Hio as (ints & Hints%load_intermediates & [= <-]). by exists ints.
        - injection Hio as <-. exists []. destruct (IntermediatePaths fsp); [by split|simpl in Hl; lia]. }
      apply NewSigner_certificates in H as (inner & Hinner & Hs).
      exists kf, pass, key, inner, ints. do 3 (split; [done|]).
      destruct (decide (CertPath fsp = "")) as [Hc|Hc].
      * rw (bool_decide_eq_false_2 _ (λ H, H Hc)) in Hlo. injection Hlo as <-. rw (bool_decide_eq_true_2 _ Hc).
        revert Hinner Hs. case_bool_decide; done.
      * rw (bool_decide_eq_true_2 _ Hc) in Hlo. apply res_bind_ok in Hlo as (leaf & Hleaf%wrap_ok & [= <-]).
        rw (bool_decide_eq_false_2 _ Hc). revert Hinner Hs. case_bool_decide as Hl; cbn; intros Hinner Hs.
        { split; [done|]. split; [done|]. by exists leaf. }
        destruct (IntermediatePaths fsp); [|simpl in Hl; lia]. inversion Hints; subst.
        split; [done|]. split; [done|]. by exists leaf.
    + intros (kf & pass & key & inner & ints & Hkf & Hpass & Hkey & Hinner & Hints & Hs).
      rw Hkf. cbn [wrap mbind res_bind]. rw Hpass. cbn [mbind res_bind]. rw Hkey. cbn [wrap mbind res_bind].
      apply load_intermediates in Hints as Hcol. rw Hcol. cbn [mbind res_bind].
      case_bool_decide as Hc.
      * subst s. rw (bool_decide_eq_false_2 (CertPath fsp ≠ "") (λ H, H Hc)). cbn [mbind res_bind].
        case_bool_decide; cbn [mbind res_bind]; apply NewSigner_certificates; by exists inner.
      * destruct Hs as (leaf & Hleaf & ->). rw (bool_decide_eq_true_2 (CertPath fsp ≠ "") Hc). rw Hleaf. cbn [wrap mbind res_bind].
        case_bool_decide as Hl; cbn [mbind res_bind]; apply NewSigner_certificates; exists inner; (split; [done|]); cbn; [done|].
        destruct (IntermediatePaths fsp); [|simpl in Hl; lia]. by inversion Hints.
  - intros pass. destruct (Passphrase fsp) as [p|] eqn:Hp.
    { unfold read_passphrase. rw Hp. split; [by intros [= <-]|by intros ->]. }
    case_bool_decide as Hpath.
    { unfold read_passphrase. rw Hp Hpath. split; [by intros [= <-]|by intros ->]. }
    destruct (host_ReadFile (PassphrasePath fsp)) as [b|e|w] eqn:Hb.
    + rw (read_passphrase_file fsp b Hp Hpath Hb). naive_solver.
    + unfold read_passphrase. rw Hp bool_decide_eq_true_2 // Hb. cbn. split; [done|]. by intros (? & ? & ? & _).
    + unfold read_passphrase. rw Hp bool_decide_eq_true_2 // Hb. cbn. split; [done|]. by intros (? & ? & ? & _).
Qed.
End file.

(** * signer/fulcio *)

Section fulcio.
Context `{CL : CryptoLib} `{JL : JoseLib} `{FA : !FulcioApi}.
Context `{HL : HttpLib} `{UL : UrlLib} `{PE : ProcessEnv} `{HF : HostFiles}.
Import Fulcio.

(** ** Attempts *)

(** The attempts before the k-th were made, and failed in a way that allows
    another one. *)
Definition retried (fc : CAClient) (cscr : CSR) (k : nat) : Prop :=
  ∀ j, j < k → (∃ e, CreateSigningCertificate fc j cscr = Err e ∧ isRetryable e = true) ∧
               (0 < j → ctx_Err j = None).
(** An answer that ends the attempts. *)
Definition final (r : res SigningCertificate) : Prop := ∀ e, r = Err e → isRetryable e = false.

Lemma create_attempts_spec fc cscr remaining attempt last :
  retried fc cscr attempt → (remaining = 0 → 0 < attempt ∧ CreateSigningCertificate fc (attempt - 1) cscr = last) →
  let N := attempt + remaining in
  (∃ k, k < N ∧ attempt - 1 ≤ k ∧ retried fc cscr k ∧ (0 < k → ctx_Err k = None) ∧
        (final (CreateSigningCertificate fc k cscr) ∨ k = N - 1) ∧
        create_attempts fc cscr remaining attempt last = inl (CreateSigningCertificate fc k cscr)) ∨
  (∃ k e, 0 < k < N ∧ retried fc cscr k ∧ ctx_Err k = Some e ∧
        create_attempts fc cscr remaining attempt last = inr e).
Proof.
  revert attempt last. induction remaining as [|n IH]; intros attempt last Hr Hlast N; unfold N.
  { destruct (Hlast eq_refl) as [Hpos Hc]. left. exists (attempt - 1). split; [lia|]. split; [lia|].
    split; [intros j Hj; apply Hr; lia|]. split; [intros H0; apply (Hr (attempt - 1)); lia|]. split; [right; lia|].
    cbn. by rw Hc. }
  cbn [create_attempts]. destruct (if bool_decide (0 < attempt) then ctx_Err attempt else None) as [e|] eqn:Hctx.
  { right. case_bool_decide as Hpos; [|done]. exists attempt, e. split; [lia|]. done. }
  assert (0 < attempt → ctx_Err attempt = None) as Hnone by (intros Hpos; by rw bool_decide_eq_true_2 in Hctx).
  destruct (CreateSigningCertificate fc attempt cscr) as [sc|e|w] eqn:Hc.
  - left. exists attempt. rw Hc. split; [lia|]. split; [lia|]. do 2 (split; [done|]). split; [|done]. left. by intros e.
  - destruct (isRetryable e) eqn:He.
    + replace (attempt + S n) with (S attempt + n) by lia.
      edestruct (IH (S attempt) (Err e)) as [(k & Hk & Hge & H)|H].
      * intros j Hj. destruct (decide (j = attempt)) as [->|]; [split; [by exists e|done]|apply Hr; lia].
      * intros ->. split; [lia|]. by replace (S attempt - 1) with attempt by lia.
      * left. exists k. split; [lia|]. split; [lia|done].
      * by right.
    + left. exists attempt. rw Hc. split; [lia|]. split; [lia|]. do 2 (split; [done|]). split; [|done].
      left. intros e' [= <-]. done.
  - left. exists attempt. rw Hc. split; [lia|]. split; [lia|]. do 2 (split; [done|]). split; [|done]. left. by intros e.
Qed.

(** Fulcio is asked at most three times, and again only after an error that
    says it may help, while the context lasts; the first certificate is the result,
    and the error of the last attempt when there is none. *)
Theorem getCert_attempts fc cscr last :
  let r := create_attempts fc cscr maxRetries 0 last in
  (∃ k, k < 3 ∧ retried fc cscr k ∧ (0 < k → ctx_Err k = None) ∧
        (final (CreateSigningCertificate fc k cscr) ∨ k = 2) ∧ r = inl (CreateSigningCertificate fc k cscr)) ∨
  (∃ k e, 0 < k < 3 ∧ retried fc cscr k ∧ ctx_Err k = Some e ∧ r = inr e).
Proof.
  intros r. destruct (create_attempts_spec fc cscr maxRetries 0 last) as [(k & Hk & _ & H)|H].
  - intros j Hj. lia.
  - done.
  - left. exists k. done.
  - by right.
Qed.

(** ** The token of GitHub Actions *)

Definition token_request (reqURL bearer : string) : Request :=
  mkRequest "GET" reqURL [("Authorization", "bearer " +:+ bearer)] "".
(** The k-th request was answered with the token. *)
Definition answered (reqURL bearer token : string) (k : nat) : Prop :=
  ∃ http1 resp body, http_Do http1 k (token_request reqURL bearer) = Ok resp ∧ StatusCode resp = StatusOK ∧
    Body resp = Ok body ∧ json_Unmarshal_Token body = Ok token ∧ token ≠ "".

Lemma token_of_answer_ok attempt answer token :
  token_of_answer attempt answer = Ok token →
  ∃ resp body, answer = Ok resp ∧ StatusCode resp = StatusOK ∧ Body resp = Ok body ∧
    json_Unmarshal_Token body = Ok token ∧ token ≠ "".
Proof.
  unfold token_of_answer. destruct answer as [resp| |]; [|done..]. intros (body & Hbody%wrap_ok & H)%res_bind_ok.
  revert H. case_bool_decide as Hs; [done|].
  destruct (json_Unmarshal_Token body) as [value|e|w] eqn:Hj; [|repeat case_match; done|done].
  case_bool_decide; [done|]. intros [= <-]. by exists resp, body.
Qed.

Lemma do_request_requests http1 n req answer http1' n' :
  do_request http1 n req = (answer, http1', n') →
  n < n' ≤ n + 2 ∧ (∀ r, answer = Ok r → ∃ h k, n ≤ k < n' ∧ http_Do h k req = Ok r).
Proof.
  unfold do_request. destruct (http_Do http1 n req) as [r|e|w] eqn:Hd.
  - intros [= <- <- <-]. split; [lia|]. intros r' [= <-]. exists http1, n. split; [lia|done].
  - destruct (Contains _ _); intros [= <- <- <-]; (split; [lia|]); [|done]. intros r Hr. exists true, (S n). split; [lia|done].
  - intros [= <- <- <-]. split; [lia|]. done.
Qed.

Lemma token_attempts_ok reqURL bearer remaining attempt http1 n lastErr token :
  token_attempts reqURL bearer remaining attempt http1 n lastErr = Ok token →
  ∃ k, k < n + 2 * remaining ∧ answered reqURL bearer token k.
Proof.
  revert attempt http1 n lastErr. induction remaining as [|m IH]; intros attempt http1 n lastErr; [done|].
  cbn [token_attempts]. intros (req & Hreq%wrap_ok & H)%res_bind_ok.
  apply res_bind_ok in Hreq as (u & Hu & [= <-]). fold (token_request reqURL bearer) in H.
  destruct (do_request http1 n (token_request reqURL bearer)) as [[answer h1] n1] eqn:Hd.
  apply do_request_requests in Hd as [Hn Hans].
  destruct (token_of_answer attempt answer) as [t|e|w] eqn:Ht; [|apply IH in H as (k & Hk & Ha); exists k; split; [lia|done]|done].
  injection H as <-. apply token_of_answer_ok in Ht as (resp & body & -> & Hs & Hb & Hj & Hne).
  destruct (Hans resp eq_refl) as (h & k & Hk & Hdo). exists k. split; [lia|]. by exists h, resp, body.
Qed.

(** A token of GitHub Actions is one the token service answered with, with
    status 200, to one of at most six requests for the audience. *)
Theorem fetchToken_sound tokenURL bearer audience token :
  fetchToken tokenURL bearer audience = Ok token →
  ∃ u k, url_Parse tokenURL = Ok u ∧ k < 6 ∧ answered (url_String (Query_Add u "audience" audience)) bearer token k ∧
    (Query_Get u "audience" = "" ∨ Query_Get u "audience" = audience).
Proof.
  unfold fetchToken. destruct (_ || _); [done|]. intros (u & Hu%wrap_ok & H)%res_bind_ok.
  destruct (bool_decide (Query_Get u "audience" ≠ audience) && _) eqn:Hq; [done|].
  apply token_attempts_ok in H as (k & Hk & Ha). exists u, k. split; [done|]. split; [cbn in Hk; lia|]. split; [done|].
  apply andb_false_iff in Hq as [Hq|Hq]; apply bool_decide_eq_false in Hq; apply dec_stable in Hq; by [right|left].
Qed.

(** ** The signer *)

Definition parses_to (certPEM : string) (cert : Certificate) : Prop :=
  ∃ block, pem_Decode certPEM = Some block ∧ ParseCertificate (pem_Bytes block) = Ok cert.
Definition leaves (certs : list Certificate) : list Certificate := filter (λ c, IsCA c = false) certs.
Definition authorities (certs : list Certificate) : list Certificate := filter (λ c, IsCA c = true) certs.

Lemma add_certificates total l acc acc' :
  range_res (add_certificate total) acc l = Ok acc' →
  ∃ parsed, Forall2 parses_to l.*2 parsed ∧ acc'.2 = acc.2 ++ authorities parsed ∧
    acc'.1 = match last (leaves parsed) with Some c => Some c | None => acc.1 end.
Proof.
  revert acc. induction l as [|[i pem] l IH]; intros acc; cbn [range_res].
  { intros [= <-]. exists []. split; [constructor|]. cbn. by rw right_id_L. }
  intros (acc1 & H1 & (parsed & Hp & Ha & Hl)%IH)%res_bind_ok. unfold add_certificate in H1.
  destruct (pem_Decode pem) as [block|] eqn:Hpem; [|done]. apply res_bind_ok in H1 as (cert & Hcert%wrap_ok & [= <-]).
  exists (cert :: parsed). split; [constructor; [by exists block|done]|].
  unfold leaves, authorities in *. rw !filter_cons. destruct (IsCA cert) eqn:Hca; cbn in Ha, Hl |- *.
  - rw Ha. by rw -assoc_L.
  - split; [done|]. rw Hl last_cons. by destruct (last _).
Qed.

(** Fulcio answered a request for the key, made with the token and with the
    signature of the token's subject under the key. *)
Definition certified (key : ECDSAPrivateKey) (raw : string) (certResp : SigningCertificate) : Prop :=
  ∃ t claims proof pem, jwt_ParseSigned raw allowedJWTAlgorithms = Ok t ∧
    UnsafeClaimsWithoutVerification t = Ok claims ∧ subject_of claims ≠ "" ∧
    SignMessage key (subject_of claims) = Ok proof ∧ MarshalPublicKeyToPEM (ecdsa_public key) = Ok pem ∧
    let cscr := mkCSR raw pem proof in
    (∃ fc k, k < 3 ∧ CreateSigningCertificate fc k cscr = Ok certResp) ∨
    (∃ payload req resp body, json_Marshal_CSR cscr = Ok payload ∧ req_Body req = payload ∧
       http_Do false 100 req = Ok resp ∧ StatusCode resp = StatusOK ∧ Body resp = Ok body ∧
       protojson_Unmarshal body = Ok certResp).

Lemma signing_request_ok key raw subject cscr :
  signing_request key raw subject = Ok cscr →
  ∃ proof pem, SignMessage key subject = Ok proof ∧ MarshalPublicKeyToPEM (ecdsa_public key) = Ok pem ∧ cscr = mkCSR raw pem proof.
Proof. intros (proof & Hp & (pem & Hm & [= <-])%res_bind_ok)%res_bind_ok. by exists proof, pem. Qed.

Lemma getCert_certified key fc raw certResp : getCert key fc raw = Ok certResp → certified key raw certResp.
Proof.
  unfold getCert. case_bool_decide as Hraw; [done|]. destruct (negb _); [done|].
  intros (t & Ht%on_error_ok & H)%res_bind_ok. apply res_bind_ok in H as (claims & Hc%wrap_ok & H).
  revert H. case_bool_decide as Hs; [done|]. intros (cscr & Hcs & H)%res_bind_ok.
  apply signing_request_ok in Hcs as (proof & pem & Hproof & Hpem & ->).
  exists t, claims, proof, pem. do 5 (split; [done|]). left.
  destruct (create_attempts_spec fc (mkCSR raw pem proof) maxRetries 0 (Err (Errorf ""))) as [(k & Hk & _ & _ & _ & _ & Hr)|(k & e & _ & _ & _ & Hr)].
  { intros j Hj. lia. } { done. }
  - rw Hr in H. exists fc, k. split; [done|]. destruct (CreateSigningCertificate _ _ _) as [sc|e|w]; [done|by repeat case_match|done].
  - by rw Hr in H.
Qed.

Lemma getCertHTTP_certified key url raw certResp : getCertHTTP key url raw = Ok certResp → certified key raw certResp.
Proof.
  unfold getCertHTTP. intros (t & Ht%wrap_ok & H)%res_bind_ok. apply res_bind_ok in H as (claims & Hc%wrap_ok & H).
  revert H. case_bool_decide as Hs; [done|]. intros (cscr & Hcs & H)%res_bind_ok.
  apply signing_request_ok in Hcs as (proof & pem & Hproof & Hpem & ->).
  apply res_bind_ok in H as (payload & Hpay & H). apply res_bind_ok in H as (req & Hreq & H).
  apply res_bind_ok in H as (resp & Hresp & H). apply res_bind_ok in H as (body & Hbody%wrap_ok & H).
  revert H. case_bool_decide as Hst; [done|]. intros H%wrap_ok.
  apply res_bind_ok in Hreq as (u & _ & [= <-]).
  exists t, claims, proof, pem. do 5 (split; [done|]). right. eexists payload, _, resp, body. split; [done|]. split; [|done]. done.
Qed.

(** C33: A signer that Fulcio certified signs with the key that was made for it: it
    is the key of the request, which proved its possession for the subject of the
    token, and the signer's certificate and intermediates are those of the answer,
    the certificate being the last that is no authority. *)
Theorem Fulcio_Signer_sound fsp s :
  Signer fsp = Ok s →
  ∃ key raw certResp certs parsed leaf,
    GenerateKey = Ok key ∧ raw_token fsp = Ok raw ∧ certified key raw certResp ∧
    chain_of certResp = Some certs ∧ Forall2 parses_to certs parsed ∧ last (leaves parsed) = Some leaf ∧
    s = X509Signer leaf [] (authorities parsed) (ECDSASigner key SHA256).
Proof.
  unfold Signer. intros (u & Hu & H)%res_bind_ok. apply res_bind_ok in H as (port & Hport & H).
  revert H. case_bool_decide as Hhost; [done|]. intros (key & Hkey & H)%res_bind_ok. apply res_bind_ok in H as (raw & Hraw & H).
  apply res_bind_ok in H as (certResp & Hresp & H).
  assert (certified key raw certResp) as Hc.
  { destruct (UseHTTP fsp); [apply wrap_ok in Hresp; by eapply getCertHTTP_certified|].
    apply res_bind_ok in Hresp as (fc & _ & Hresp%wrap_ok). by eapply getCert_certified. }
  unfold signer_of_chain in H. destruct (chain_of certResp) as [certs|] eqn:Hchain; [|done].
  apply res_bind_ok in H as ([l ints] & Hadd & H). apply add_certificates in Hadd as (parsed & Hp & Hints & Hl).
  cbn [fst snd app] in *. rw snd_zip in Hp; [|by rw length_seq]. subst ints.
  destruct (last (leaves parsed)) as [leaf|] eqn:Hlast; subst l; [|done]. injection H as <-.
  by exists key, raw, certResp, certs, parsed, leaf.
Qed.

(** An answer without a certificate, which over HTTP is the empty object, stops the
    signer with a panic. *)
Theorem Fulcio_empty_answer key certResp :
  chain_of certResp = None → ∃ w, signer_of_chain key certResp = Panic w.
Proof. intros Hc. unfold signer_of_chain. rw Hc. by eexists. Qed.

(** The certificate is not compared with the key: the signer of an answer with a
    certificate for another key is made all the same. *)
Theorem Fulcio_foreign_leaf key certPEM leaf :
  parses_to certPEM leaf → IsCA leaf = false →
  signer_of_chain key (DetachedSct (Some [certPEM])) = Ok (X509Signer leaf [] [] (ECDSASigner key SHA256)).
Proof.
  intros (block & Hb & Hp) Hca. unfold signer_of_chain, chain_of. cbn [length seq zip range_res].
  unfold add_certificate. rw Hb. cbn [mbind res_bind]. rw Hp. cbn [wrap mbind res_bind]. by rw Hca.
Qed.
End fulcio.

(** * Examples *)

(** Fulcio answers the second attempt with a certificate of the token's subject,
    and an authority's. *)
#[local] Instance toy_fulcio : @FulcioApi toy_crypto toy_jose := {|
  GenerateKey := Ok "key"; IsCA c := bool_decide (CommonName c = "ca");
  SignMessage k m := Ok (k +:+ ":" +:+ m); MarshalPublicKeyToPEM k := Ok k;
  UnsafeClaimsWithoutVerification t := Ok ("alice", ""); OIDConnect _ _ _ := Err (Errorf "no terminal"); IsTerminal := false;
  CAClient := unit; grpc_NewClient _ _ := Ok tt;
  CreateSigningCertificate _ n c :=
    if bool_decide (n = 0) then Err (External "unavailable")
    else Ok (DetachedSct (Some [encode "CERTIFICATE" "alice"; encode "CERTIFICATE" "ca"]));
  status_FromError _ := Some Fulcio.code_Unavailable; ctx_Err _ := None;
  json_Marshal_CSR _ := Ok ""; protojson_Unmarshal _ := Ok NoCertificate; json_Unmarshal_Token := Ok |}.
#[local] Instance toy_http : HttpLib := λ _ n req,
  if bool_decide (n = 0) then Err (External "connection refused") else Ok (mkResponse 200 "200 OK" (Ok "token-1")).
#[local] Instance toy_env : ProcessEnv := λ key, if bool_decide (key = "WITNESS_KEY_PASSPHRASE") then Some "env" else None.
#[local] Instance toy_files : HostFiles := {|
  host_Open path :=
    if bool_decide (path = "key.pem") then Ok (Ok (encode "RSA PRIVATE KEY" "pkcs1priv|alice"))
    else if bool_decide (path = "cert.pem") then Ok (Ok (encode "CERTIFICATE" "alice;ca"))
    else Err (External "no such file");
  host_ReadFile path := if bool_decide (path = "token") then Ok "a.b.c" else Err (External "no such file") |}.

Lemma fetchToken_sound_witness :
  Fulcio.fetchToken "https://token" "bearer" "sigstore" = Ok "token-1" ∧
  ∃ u k, url_Parse "https://token" = Ok u ∧ k < 6 ∧
    answered (url_String (Query_Add u "audience" "sigstore")) "bearer" "token-1" k ∧
    (Query_Get u "audience" = "" ∨ Query_Get u "audience" = "sigstore").
Proof.
  assert (Fulcio.fetchToken "https://token" "bearer" "sigstore" = Ok "token-1") as H by (vm_compute; reflexivity).
  split; [exact H|]. exact (fetchToken_sound "https://token" "bearer" "sigstore" "token-1" H).
Defined.

Lemma Fulcio_Signer_sound_witness :
  ∃ s leaf, Fulcio.Signer (Fulcio.New [Fulcio.WithFulcioURL "https://fulcio"; Fulcio.WithTokenPath "token"]) = Ok s ∧
    s = X509Signer leaf [] [toy_certificate "ca"] (ECDSASigner ("key" : @ECDSAPrivateKey toy_crypto) SHA256) ∧
    CommonName leaf = "alice".
Proof.
  assert (Fulcio.Signer (Fulcio.New [Fulcio.WithFulcioURL "https://fulcio"; Fulcio.WithTokenPath "token"]) =
    Ok (X509Signer (toy_certificate "alice" : @Certificate toy_crypto) [] [toy_certificate "ca"]
          (ECDSASigner ("key" : @ECDSAPrivateKey toy_crypto) SHA256))) as H by (vm_compute; reflexivity).
  eexists _, _. split; [exact H|].
  destruct (Fulcio_Signer_sound _ _ H) as (key & raw & certResp & certs & parsed & leaf & _ & _ & _ & _ & _ & _ & Hs).
  split; [reflexivity|]. reflexivity.
Defined.

(** The key is signed with its certificate, without a passphrase file. *)
Example file_signer :
  @FileSigner.Signer toy_crypto (λ _, None) toy_files
    (FileSigner.New [FileSigner.WithKeyPath "key.pem"; FileSigner.WithCertPath "cert.pem"]) =
  Ok (X509Signer (toy_certificate "alice;ca") [] [] (RSASigner ("alice" : @RSAPrivateKey toy_crypto) SHA256)).
Proof. vm_compute. reflexivity. Qed.
