(* ===== verification/ToyWorld.v ===== *)
(** Concrete instances of the remaining parameter classes, next to those of
    Toy.v: attestors, JSON, globs, Fulcio extensions, rego, clock. They are used to
    evaluate the model on concrete inputs and to show that the hypotheses of the
    theorems can hold. *)
From S2P Require Import Prelude GoStrings Errors Crypto Keys Digest Timestamp Dsse Toy Intoto Registry Attestation Source Sched Constraints Environment Hooks Context VerifiedSource PolicyStep KMS Policy PolicySound PolicySig PolicyVerify Verify.

(** * Attestors *)

(** What a simple attestor answers, and whether its [Attest] fails. *)
Record toy_static := mkToy {
  toy_name : string; toy_type : string; toy_run : string;
  toy_materials : option (gmap string DigestSet);
  toy_products : option (gmap string Product);
  toy_subjects : option (gmap string DigestSet);
  toy_backrefs : option (gmap string DigestSet);
  toy_export : option bool;
  toy_fails : bool;
}.
Definition toy_plain (name typ run : string) : toy_static := mkToy name typ run None None None None None false.

(** The attestor types of the examples: simple ones, and policyverify. *)
Inductive toyA :=
  | TA (t : toy_static)
  | TPV (a : @PVAttestor toy_crypto toyA (MemorySource toyA)).

Definition toy_opt {X} (f : toy_static → option X) (a : toyA) : option X :=
  match a with TA t => f t | TPV _ => None end.

#[export] Instance toy_AO : AttestorOps toyA := {|
  Attestor_Name a := match a with TA t => toy_name t | TPV _ => "policyverify" end;
  Attestor_Type a := match a with TA t => toy_type t | TPV _ => VerificationSummaryPredicate end;
  Attestor_RunType a := match a with TA t => toy_run t | TPV _ => VerifyRunType end;
  Subjecter_Subjects a := match a with TA t => toy_subjects t | TPV _ => Some ∅ end;
  Materialer_Materials := toy_opt toy_materials;
  Producer_Products := toy_opt toy_products;
  BackReffer_BackRefs := toy_opt toy_backrefs;
  Exporter_Export := toy_opt toy_export;
  MultiExporter_ExportedAttestations _ := None;
  Experimental_IsExperimental _ := None;
  json_Marshal_Attestor a := Ok (match a with TA t => toy_name t | TPV _ => "policyverify" end);
  json_Unmarshal_Attestor data a := if bool_decide (data = "null") then Ok None else Ok (Some a);
|}.

(** * The other libraries *)

(** Patterns are matched literally, except for a star at both ends. *)
#[export] Instance toy_glob : GlobLib := λ p,
  if bool_decide (p = "[") then Err (External "syntax error in pattern")
  else if HasPrefix p "*" && HasSuffix p "*" && bool_decide (2 ≤ slen p)
  then Ok (λ s, Contains s (take_str (slen p - 2) (drop_str 1 p)))
  else Ok (λ s, bool_decide (s = p)).

#[export] Instance toy_fulcio : FulcioLib := {| Extensions_fields := ["Issuer"]; ParseExtensions _ := Ok ∅ |}.

(** A module "deny" denies everything, any other nothing. *)
#[export] Instance toy_rego : RegoLib := {|
  RegoModule := string;
  JsonValue := string;
  json_Decode b := Ok b;
  ast_ParseModule name m := Ok m;
  module_path m := "data." +:+ m;
  rego_Eval input ms q :=
    Ok [[mkExpression q (RVArray (if bool_decide ("deny" ∈ ms) then [RVString "denied"] else []))]];
|}.

Definition toy_time : Time := mkTime 0 "1970-01-01 00:00:00 +0000 UTC".
#[export] Instance toy_clock : Clock := λ _, toy_time.

(** * A collection in JSON *)

(** "S" is a statement whose subject has the digest "d1" and whose predicate "C"
    is the collection "build" with the single attestation "t"; "N" is the same
    with an attestation that is null. *)
Definition toy_statement (predicate : string) : Statement :=
  mkStatement StatementType [mkSubject "artifact" {["sha256" := "d1"]}] CollectionType predicate.
#[export] Instance toy_statement_json : StatementJson := {|
  json_Marshal_Statement s := Ok "S";
  json_Unmarshal_Statement b :=
    if bool_decide (b = "S") then Ok (toy_statement "C")
    else if bool_decide (b = "N") then Ok (toy_statement "N")
    else Err (External "unexpected end of JSON input");
|}.
#[export] Instance toy_collection_json : CollectionJson := {|
  json_Unmarshal_Collection b :=
    if bool_decide (b = "C" ∨ b = "N") then Ok ("build", [b]) else Err (External "unexpected end of JSON input");
  json_Marshal_Collection name raws := Ok "C";
  json_Unmarshal_proposed b := Ok (mkProposed "t" (if bool_decide (b = "N") then "null" else "{}") toy_time toy_time);
  json_Marshal_proposed p := Ok "P";
  json_Unmarshal_Envelope b := Err (External "unexpected end of JSON input");
  json_Marshal_Envelope e := Ok "E";
|}.

(** * A policy *)

(** The step "build" requires an attestation "t" and bob's key. *)
Definition toy_key_id (name : string) : string :=
  match @Verifier_KeyID toy_crypto (toy_ed name) with Ok kid => kid | _ => "" end.
Definition toy_functionary : Functionary :=
  mkFunctionary "publickey" no_constraint (toy_key_id "bob").
Definition toy_step : Step := mkStep "build" [toy_functionary] [mkPolicyAttestation "t" []] [].
Definition toy_policy : Policy :=
  mkPolicy (mkTime 10 "later") ∅ ∅ {["bob" := mkPolicyPublicKey (toy_key_id "bob") (encode "PUBLIC KEY" (encode "ed" "bob"))]}
    {["build" := toy_step]}.
(** Two steps: alice builds, and bob tests what she built. *)
Definition toy_policy_key (name : string) : PolicyPublicKey :=
  mkPolicyPublicKey (toy_key_id name) (encode "PUBLIC KEY" (encode "ed" name)).
Definition toy_key_of (name : string) : Functionary := mkFunctionary "publickey" no_constraint (toy_key_id name).
Definition toy_two_steps : Policy :=
  mkPolicy (mkTime 10 "later") ∅ ∅ {[toy_key_id "alice" := toy_policy_key "alice"; toy_key_id "bob" := toy_policy_key "bob"]}
    {["build" := mkStep "build" [toy_key_of "alice"] [mkPolicyAttestation "built" []] [];
      "test" := mkStep "test" [toy_key_of "bob"] [mkPolicyAttestation "used" []; mkPolicyAttestation "report" []] ["build"]]}.
#[export] Instance toy_policy_json : PolicyJson := λ b,
  if bool_decide (b = "POLICY") then Ok toy_policy else
  if bool_decide (b = "STEPS") then Ok toy_two_steps else Err (External "unexpected end of JSON input").

Definition toy_kms : @kms_state toy_crypto := @mkKmsState toy_crypto ∅ ∅.

(** * Running attestors *)

#[export] Instance toy_RA : Runnable toyA := {|
  Attest a ctx :=
    match a with
    | TA t => mkOutcome a (ctx_capturer ctx) (ctx_executeHooks ctx)
                (if toy_fails t then Err (Errorf "failed") else nil_error)
    | TPV p =>
        let r := PV_Attest toy_kms (ctx_hashes ctx) 1 (λ _, 1%Z) p in
        mkOutcome (TPV r.1) (ctx_capturer ctx) (ctx_executeHooks ctx) r.2
    end;
  DeclareHooks _ := None;
|}.

#[export] Program Instance toy_PV : PolicyVerifyAttestor toyA (MemorySource toyA) toy_kms := {|
  pv_inject := TPV;
  pv_project a := match a with TPV p => Some p | TA _ => None end;
  pv_now _ := 1%Z;
  pv_clock _ _ := 1%Z;
|}.
Next Obligation. done. Qed.
Next Obligation. done. Qed.
Next Obligation. done. Qed.
Next Obligation. intros [t|p] ctx b; simpl; [done|]. intros _. by exists p. Qed.
Next Obligation. done. Qed.
Next Obligation. done. Qed.
Next Obligation. done. Qed.
Next Obligation. done. Qed.

(** * A source with one signed collection *)

Definition toy_fs : factory_state toyA :=
  RegisterAttestation factory_init "t" "t" ProductRunType (λ _, TA (toy_plain "t" "t" ProductRunType)) [].
Definition toy_signed (signer payload : string) : Envelope :=
  mkEnvelope payload IntotoPayloadType
    [mkSignature "" (signer +:+ ":" +:+ preauthEncode IntotoPayloadType payload) "" [] []].
Definition toy_source : MemorySource toyA :=
  match LoadEnvelope toy_fs NewMemorySource "ref" (toy_signed "bob" "S") with Ok s => s | _ => NewMemorySource end.
