(* ===== verification/AttestorTheorems.v ===== *)
(** What the attestors do together (Attestors.v): the registry makes of every name and type
    the attestor that has it, and a run of them records the files that the command has
    changed. *)
From S2P Require Import Prelude Receiver GoStrings GoText Errors Crypto Digest Host Toy Paths File FileTheorems Registry Attestation Constraints Environment Hooks Sched Context ContextRun Ptrace CommandRun Product ProductTheorems CI CloudIdentity K8s Git Documents Images Packages Provenance SecretScan SecretScanner NetworkTrace NetworkProxy PolicyVerify CITheorems Timestamp PolicyStep Source Attestors.
From stdpp Require Import options.

#[local] Unset Default Proof Using.

(** * Registration *)

Section registration.
Context {JL : JoseLib} {CB : CodeBuildApi} {SB : SbomLib} {SL : StructLib} {OL : OmnitrailLib} {KL : K8sLib}.
Context {SarifReport VEX S : Type} {CL : CryptoLib} {TL : TspLib}.
Notation R := (registered (SarifReport:=SarifReport) (VEX:=VEX) (S:=S)).
Notation registration := (registration (SarifReport:=SarifReport) (VEX:=VEX) (S:=S)).
Implicit Types (r : registration) (l : list registration) (fs : factory_state R).

Definition entry_of r : Entry R := Registry.mkEntry (reg_factory r) (reg_name r) (reg_options r).

(** A registry holds exactly these registrations. *)
Record holds l fs : Prop := {
  holds_name r : r ∈ l → attestorRegistry fs !! reg_name r = Some (entry_of r);
  holds_no_name n : n ∉ reg_name <$> l → attestorRegistry fs !! n = None;
  holds_type r uri : r ∈ l → uri ∈ reg_types r → attestationsByType fs !! uri = Some (entry_of r);
  holds_no_type uri : uri ∉ l ≫= reg_types → attestationsByType fs !! uri = None;
}.

Lemma register_holds l r fs :
  reg_name r ∉ reg_name <$> l → (∀ uri, uri ∈ reg_types r → uri ∉ l ≫= reg_types) →
  holds l fs → holds (l ++ [r]) (register fs r).
Proof.
  intros Hn Ht [H1 H2 H3 H4]. split; unfold register, RegisterAttestationWithTypes, Register; cbn.
  - intros r' [Hr| ->%list_elem_of_singleton]%elem_of_app; [|by rw lookup_insert_eq].
    rw lookup_insert_ne; [by apply H1|]. intros Heq. apply Hn. apply list_elem_of_fmap. by exists r'.
  - intros n. rw fmap_app. intros Hn'. rw lookup_insert_ne; [|intros <-; apply Hn', elem_of_app; right; left].
    apply H2. set_solver.
  - intros r' uri Hr Huri. rw foldl_insert_same. case_decide as Hin.
    + apply elem_of_app in Hr as [Hr| ->%list_elem_of_singleton]; [|done].
      destruct (Ht uri Hin). apply list_elem_of_bind. by exists r'.
    + apply elem_of_app in Hr as [Hr| ->%list_elem_of_singleton]; [|done]. by apply H3.
  - intros uri. rw bind_app /= app_nil_r. intros Huri. rw foldl_insert_same decide_False; [|set_solver].
    apply H4. set_solver.
Qed.

Lemma init_holds l : NoDup (reg_name <$> l) → NoDup (l ≫= reg_types) → holds l (init_all l).
Proof.
  unfold init_all. induction l as [|r l IH] using rev_ind; intros Hn Ht.
  { by split; [intros r ?%not_elem_of_nil| |intros r uri ?%not_elem_of_nil|]. }
  rw foldl_app. cbn [foldl]. rewrite fmap_app in Hn. rewrite bind_app in Ht.
  apply NoDup_app in Hn as (Hn & Hr & _). apply NoDup_app in Ht as (Ht & Hu & _). apply register_holds; [| |by apply IH].
  - intros Hin. by apply (Hr _ Hin), list_elem_of_singleton.
  - intros uri Huri Hin. apply (Hu _ Hin). simpl. by rw app_nil_r.
Qed.

(** What [GetAttestor] makes of a name or, when it is no name, of a type. *)
Lemma get_held l fs r n :
  holds l fs → r ∈ l → n = reg_name r ∨ (n ∈ reg_types r ∧ n ∉ reg_name <$> l) →
  get_attestor fs n = match SetDefaultVals (reg_factory r ()) (reg_options r) with (_, Some e) => Err e | (a, None) => Ok a end.
Proof.
  intros [H1 H2 H3 _] Hr [ ->|[Hn Hno]]; unfold get_attestor, AttestorOptions, FactoryByName, FactoryByType, Registry_Entry.
  - by rw H1.
  - rw (H2 n Hno) (H3 r n Hr Hn). done.
Qed.
End registration.

(** ** The repository's attestors *)

Section types.
Context `{CL : CryptoLib} `{TL : !TspLib} `{JL : JoseLib} `{CB : CodeBuildApi} `{SB : SbomLib} `{SL : StructLib}
  `{OL : OmnitrailLib} `{KL : K8sLib} `{FS : FileSystem} `{PE : ProcessEnv} `{MA : Machine}.
Context {SarifReport VEX S : Type} `{AJ : !AttestorJson (attestor SarifReport VEX) SarifReport VEX}.
Variable aws_New : AwsIid.Attestor.
Notation R := (registered (SarifReport:=SarifReport) (VEX:=VEX) (S:=S)).
Notation reg := (registration (SarifReport:=SarifReport) (VEX:=VEX) (S:=S)).
Notation all := (registrations (S:=S) aws_New).

Lemma registrations_names : NoDup (reg_name <$> all) ∧ NoDup (all ≫= reg_types) ∧
  (∀ n, n ∈ reg_name <$> all → n ∉ all ≫= reg_types).
Proof.
  split; [|split].
  - apply (bool_decide_unpack _). by vm_compute.
  - apply (bool_decide_unpack _). by vm_compute.
  - assert (Forall (λ n, n ∉ all ≫= reg_types) (reg_name <$> all)) as H.
    { apply (bool_decide_unpack _). by vm_compute. }
    intros n Hn. by eapply Forall_forall in H.
Qed.

(** An attestor that has the name, the types and the run type of a registration; the type
    that a new sbom attestor has is the first of its three. *)
Definition fits (r : reg) (a : R) : Prop :=
  registered_name a = reg_name r ∧ head (reg_types r) = Some (registered_type a) ∧ registered_run_type a = reg_run r.
Definition defaults (r : reg) : R * option error := SetDefaultVals (reg_factory r ()) (reg_options r).

Lemma registrations_fit r : r ∈ all → fits r (reg_factory r ()) ∧ ∃ a, defaults r = (a, None) ∧ fits r a.
Proof.
  unfold registrations. intros Hr. repeat (apply elem_of_cons in Hr as [->|Hr]; [|]).
  all: try by apply not_elem_of_nil in Hr.
  all: split; [by split_and!|]; eexists; split; [reflexivity|by split_and!].
Qed.

Lemma registration_types r : r ∈ all →
  (∃ t, reg_types r = [t]) ∨ reg_types r = [Sbom.Type_; Sbom.SPDXPredicateType; Sbom.CycloneDxPredicateType].
Proof.
  unfold registrations. intros Hr. repeat (apply elem_of_cons in Hr as [->|Hr]; [|]).
  all: try by apply not_elem_of_nil in Hr.
  all: first [by left; eexists|by right].
Qed.

(** C38: in whatever order the packages are initialised, each name and each type that is
    registered is answered with the attestor of that registration, with its default
    options set: one that has this name and run type, and this type or, for the two
    document types of sbom, the type that sbom has before it has found a document.
    What is no name and no type is reported as not found. *)
Theorem GetAttestor_registered order n :
  order ≡ₚ all →
  (∀ r, r ∈ all → n = reg_name r ∨ n ∈ reg_types r →
     ∃ a, GetAttestor (init_all order) n = Ok a ∧ defaults r = (a, None) ∧ registered_name a = reg_name r ∧
       registered_run_type a = reg_run r ∧
       (n ∈ reg_types r → registered_type a = n ∨
          registered_type a = Sbom.Type_ ∧ n ∈ [Sbom.SPDXPredicateType; Sbom.CycloneDxPredicateType])) ∧
  (n ∉ reg_name <$> all → n ∉ all ≫= reg_types → GetAttestor (init_all order) n = Err (ErrAttestorNotFound n)).
Proof.
  intros Horder. destruct registrations_names as (Hn & Ht & Hd).
  assert (holds order (init_all order)) as Hh.
  { apply init_holds; by rewrite Horder. }
  rw GetAttestor_get. split.
  - intros r Hr Hnr. destruct (registrations_fit r Hr) as (_ & a & Ha & Hname & Htype & Hrun). exists a.
    split; [|split_and!; [done..|]].
    + rw (get_held order _ r) //.
      * by rw -/(defaults r) Ha.
      * by rewrite Horder.
      * destruct Hnr as [?|Hin]; [by left|right]. split; [done|]. rewrite Horder. intros Hno. apply (Hd n Hno).
        apply list_elem_of_bind. by exists r.
    + intros Hin. destruct (registration_types r Hr) as [[t Ht1]|Ht1]; rewrite Ht1 in Hin, Htype; simplify_eq/=.
      * left. symmetry. by apply list_elem_of_singleton in Hin.
      * apply elem_of_cons in Hin as [->|?]; [by left|by right].
  - intros Hnn Hnt. unfold get_attestor, FactoryByName, FactoryByType, Registry_Entry. destruct Hh as [_ H2 _ H4].
    by rw H2 ?H4; rewrite ?Horder.
Qed.
End types.

(** What makes the attestors that a collection is decoded into: a type that is registered
    is that of the registration that is found, and no other is found. *)
Lemma FactoryByType_registered `{CL : CryptoLib} `{TL : !TspLib} `{JL : JoseLib} `{CB : CodeBuildApi} `{SB : SbomLib}
    `{SL : StructLib} `{OL : OmnitrailLib} `{KL : K8sLib} `{FS : FileSystem} `{PE : ProcessEnv} `{MA : Machine}
    {SarifReport VEX S : Type} `{AJ : !AttestorJson (attestor SarifReport VEX) SarifReport VEX} aws_New order uri f :
  order ≡ₚ registrations (S:=S) aws_New → FactoryByType (init_all order) uri = Some f →
  ∃ r, r ∈ registrations (S:=S) aws_New ∧ uri ∈ reg_types r ∧ f = reg_factory r ∧ fits r (f ()).
Proof.
  intros Horder Hf. destruct (registrations_names (S:=S) aws_New) as (Hn & Ht & _).
  assert (holds order (init_all order)) as [_ _ H3 H4]. { apply init_holds; by rewrite Horder. }
  destruct (decide (uri ∈ order ≫= reg_types)) as [(r & Huri & Hr)%list_elem_of_bind|Hno].
  - exists r. unfold FactoryByType in Hf. rewrite (H3 r uri Hr Huri) in Hf. injection Hf as <-.
    rewrite Horder in Hr. split_and!; [done..|]. by apply (registrations_fit aws_New).
  - unfold FactoryByType in Hf. by rewrite (H4 uri Hno) in Hf.
Qed.

(** ** Subjects *)

Section subjects.
Context `{CL : CryptoLib} `{GI : GitoidLib} `{RO : RangeOrder}.
Context `{JL : JoseLib} `{CB : CodeBuildApi} `{SB : SbomLib} `{SL : StructLib} `{OL : OmnitrailLib} `{KL : K8sLib}.
Context {SarifReport VEX : Type}.
Variable sha256 : bytes → bytes.
Hypothesis sha256_linked : hash_sum SHA256 = Some sha256.

Lemma sha256_set_ok value : CalculateDigestSetFromBytes value [mkDV SHA256 false false] = Ok (CITheorems.sha256_set sha256 value).
Proof using sha256_linked. by apply CITheorems.CalculateDigestSet_sha256. Qed.
Lemma add_subject_ok kind value m : ∃ m', add_subject kind value m = Ok m'.
Proof using sha256_linked. unfold add_subject. rewrite sha256_set_ok. by eexists. Qed.
Lemma add_subjects_ok l : ∃ m, add_subjects l = Ok m.
Proof using sha256_linked. eexists. by apply CITheorems.add_subjects_total. Qed.

Lemma range_res_ok {X Y} (f : Y → X → res Y) l y : (∀ x y, ∃ y', f y x = Ok y') → ∃ y', range_res f y l = Ok y'.
Proof.
  intros Hf. revert y; induction l as [|x l IH]; intros y; [by eexists|]. cbn [range_res].
  destruct (Hf x y) as [y' ->]. apply IH.
Qed.

Lemma git_subjects_ok a : ∃ m, Git.Subjects a = Ok m.
Proof using sha256_linked.
  unfold Git.Subjects. destruct (range_res_ok (λ (subjects : gmap string DigestSet) (kv : string * string),
    ds ← CalculateDigestSetFromBytes kv.2 [mkDV SHA256 false false];
    Ok (<[kv.1 +:+ ":" +:+ kv.2 := ds]> subjects)) (Git.named_values a) (Git.commit_subject a)) as [m ->]; [|by eexists].
  intros kv m. rewrite sha256_set_ok. by eexists.
Qed.
Lemma maven_subjects_ok a : ∃ m, Maven.Subjects a = Ok m.
Proof using sha256_linked.
  unfold Maven.Subjects. cbv zeta. rewrite sha256_set_ok. apply range_res_ok. intros dep m. unfold Maven.add_dependency.
  cbv zeta. rewrite sha256_set_ok. by eexists.
Qed.
Lemma docker_subjects_ok a : ∃ m, Docker.Subjects a = Ok m.
Proof using sha256_linked.
  apply range_res_ok. intros p m. unfold Docker.product_subjects. cbv zeta.
  match goal with |- context [range_res ?f ?s ?l] => destruct (range_res_ok f l s) as [m1 ->] end; [intros; apply add_subject_ok|].
  cbn. match goal with |- context [range_res ?f ?s ?l] => destruct (range_res_ok f l s) as [m2 ->] end.
  { intros mats m'. apply range_res_ok. intros; apply add_subject_ok. }
  apply range_res_ok. intros; apply add_subject_ok.
Qed.
Lemma oci_subjects_ok a : ∃ m, Oci.Subjects a = Ok m.
Proof using sha256_linked.
  unfold Oci.Subjects. cbv zeta. match goal with |- context [range_res ?f ?s ?l] => destruct (range_res_ok f l s) as [m1 ->] end.
  - intros tag m. unfold Oci.add_tag. rewrite sha256_set_ok. by eexists.
  - by eexists.
Qed.
Lemma backref_ok {X} (f : X → gmap string DigestSet) (r : res X) : (∃ m, r = Ok m) → ∃ m, f <$> r = Ok m.
Proof. intros [m ->]. by eexists. Qed.

(** The subjects and the back references of all attestors can be computed, so that they
    are those of the sum's methods. *)
Lemma subjects_never_panic (a : attestor SarifReport VEX) r :
  subjects_of a = Some r ∨ back_refs_of a = Some r → r = Ok (total r).
Proof using sha256_linked.
  intros H. enough (∃ m, r = Ok m) as [m ->] by done.
  destruct a; destruct H as [H|H]; simplify_eq/=; try by eexists.
  all: first [apply git_subjects_ok | apply maven_subjects_ok | apply docker_subjects_ok | apply oci_subjects_ok
             | apply backref_ok | idtac].
  all: apply add_subjects_ok.
Qed.
End subjects.

(** * A run *)

(** ** Stages *)

Section stages.
Context `{RO : RangeOrder} {A : Type} `{AO : AttestorOps A} `{RA : !Runnable A}.
Implicit Types ctx : AttestationContext A.

(** What no attestor changes. *)
Definition setup ctx : string * list DigestValue * list (option (string → bool)) :=
  (ctx_workingDir ctx, ctx_hashes ctx, ctx_dirHashGlobCompiled ctx).

Definition thread_attestor (t : thread A) : A :=
  match t with Ready a | Started a _ | Attested a _ _ | AddMaterials a | AddProducts a => a end.

Lemma thread_step_setup now ctx t ctx' t' : thread_step now ctx t = Ok (ctx', t') → setup ctx' = setup ctx.
Proof.
  destruct t as [a|a s|a s e|a|a]; cbn [thread_step].
  - by intros [= <- _].
  - cbv zeta. destruct (out_error _); by intros [= <- _].
  - by intros [= <- _].
  - destruct (Materialer_Materials a); by intros [= <- _].
  - destruct (Producer_Products a); by intros [= <- _].
Qed.

Lemma declare_hooks_setup ctx atts ctx' e : declare_hooks ctx atts = (ctx', e) → setup ctx' = setup ctx.
Proof.
  revert ctx; induction atts as [|a atts IH]; intros ctx; cbn [declare_hooks]; [by intros [= <- _]|].
  destruct (DeclareHooks a) as [declare|]; [|apply IH].
  destruct (declare _) as [h [[]|e'|w]]; [apply (IH (set_hooks ctx h))|by intros [= <- _]..].
Qed.
Lemma declare_phase_of_setup stage ctx atts ctx' e :
  declare_phase_of stage ctx atts = (ctx', e) → setup ctx' = setup ctx.
Proof. unfold declare_phase_of. case_bool_decide; [apply declare_hooks_setup|]. by intros [= <- _]. Qed.

(** ** A stage of attestors without materials *)

Section quiet.
Variable Q : A → Prop.
Hypothesis Q_attest : ∀ a ctx, Q a → Q (out_attestor (Attest a ctx)).
Hypothesis Q_materials : ∀ a, Q a → Materialer_Materials a = None.

(** What such a stage keeps of [ctx0], and what it adds. *)
Definition kept ctx0 ctx : Prop :=
  setup ctx = setup ctx0 ∧ ctx_materials ctx = ctx_materials ctx0 ∧
  ∃ new, ctx_completed ctx = ctx_completed ctx0 ++ new ∧ Forall (λ c, Q (comp_Attestor c)) new.

Lemma kept_refl ctx : kept ctx ctx.
Proof. split_and!; [done..|]. exists []. by rw app_nil_r. Qed.
Lemma kept_trans ctx1 ctx2 ctx3 : kept ctx1 ctx2 → kept ctx2 ctx3 → kept ctx1 ctx3.
Proof.
  intros (Hs & Hm & new & Hc & Hq) (Hs' & Hm' & new' & Hc' & Hq'). split_and!; [congruence..|].
  exists (new ++ new'). split; [by rw Hc' Hc assoc_L|by apply Forall_app].
Qed.

Lemma thread_step_kept now ctx t ctx' t' :
  Q (thread_attestor t) → thread_step now ctx t = Ok (ctx', t') →
  kept ctx ctx' ∧ ∀ t1, t' = Some t1 → Q (thread_attestor t1).
Proof.
  intros HQ Hstep. assert (Hs := thread_step_setup _ _ _ _ _ Hstep).
  assert (Hsame : ctx_completed ctx' = ctx_completed ctx → ctx_materials ctx' = ctx_materials ctx → kept ctx ctx').
  { intros Hc Hm. split_and!; [done..|]. exists []. by rw app_nil_r. }
  destruct t as [a|a s|a s e|a|a]; cbn [thread_step thread_attestor] in *.
  - simplify_eq. split; [by apply Hsame|by intros ? [= <-]].
  - cbv zeta in Hstep. assert (Ha := Q_attest a ctx HQ).
    destruct (out_error (Attest a ctx)); simplify_eq; (split; [by apply Hsame|by intros ? [= <-]]).
  - simplify_eq. split.
    + split_and!; [done..|]. eexists. split; [done|]. by apply Forall_singleton.
    + destruct e; by intros ? [= <-].
  - rewrite (Q_materials a HQ) in Hstep. simplify_eq. split; [by apply Hsame|by intros ? [= <-]].
  - destruct (Producer_Products a); simplify_eq; (split; [by apply Hsame|done]).
Qed.

Lemma stage_kept c c' : rtc stage_step c c' → Forall (λ t, Q (thread_attestor t)) c.2 → kept c.1 c'.1.
Proof.
  induction 1 as [|c1 c2 c3 [now ctx l1 t l2 ctx' t' Ht] _ IH]; intros HQ; [apply kept_refl|]. cbn [fst snd] in *.
  apply Forall_app in HQ as [HQ1 [HQt HQ2]%Forall_cons].
  destruct (thread_step_kept _ _ _ _ _ HQt Ht) as [Hk Hq]. eapply kept_trans; [done|]. apply IH.
  apply Forall_app; split; [done|]. apply Forall_app; split; [|done]. destruct t' as [t1|]; [|constructor].
  apply Forall_singleton. by apply Hq.
Qed.
End quiet.

(** ** A stage of one attestor, which succeeds *)

Lemma single_step ctx t c : stage_step (ctx, [t]) c → ∃ now ctx' t', thread_step now ctx t = Ok (ctx', t') ∧ c = (ctx', option_list t').
Proof.
  intros H. inversion H as [now ctx0 l1 t0 l2 ctx' t' Ht Hc]. subst.
  destruct l1 as [|t1 l1]; [|by destruct l1]. simplify_eq/=. exists now, ctx', t'. split; [done|]. by rw app_nil_r.
Qed.
Lemma single_steps ctx t ctx' : rtc stage_step (ctx, [t]) (ctx', []) →
  ∃ now ctx1 t1, thread_step now ctx t = Ok (ctx1, t1) ∧ rtc stage_step (ctx1, option_list t1) (ctx', []).
Proof. intros H. inversion H as [|? c ? Hs Hr]; subst. apply single_step in Hs as (now & ctx1 & t1 & Ht & ->). by exists now, ctx1, t1. Qed.
Lemma no_steps ctx ctx' : rtc stage_step (ctx, []) (ctx', []) → ctx' = ctx.
Proof.
  intros H. inversion H as [|? c ? Hs _]; subst; [done|]. inversion Hs as [now ctx0 l1 t l2 c' t' Ht Hc].
  by destruct l1.
Qed.

Lemma stage_single ctx a ctx' :
  rtc stage_step (ctx, [Ready a]) (ctx', []) → out_error (Attest a ctx) = nil_error →
  let a' := out_attestor (Attest a ctx) in
  ∃ s e, ctx_completed ctx' = ctx_completed ctx ++ [mkCompletedAttestor a' s e None] ∧ setup ctx' = setup ctx ∧
    ctx_materials ctx' = match Materialer_Materials a' with
                         | Some m => copy_into 0 id id (ctx_materials ctx) m | None => ctx_materials ctx end.
Proof.
  intros (s & c1 & t1 & [= <- <-] & H)%single_steps Hok a'.
  apply single_steps in H as (now & c2 & t2 & Ht & H). cbn [thread_step] in Ht. cbv zeta in Ht. rewrite Hok in Ht. cbn in Ht. injection Ht as <- <-. cbn [option_list] in H.
  apply single_steps in H as (e & c3 & t3 & [= <- <-] & H).
  apply single_steps in H as (now' & c4 & t4 & [= <- <-] & H).
  apply single_steps in H as (now'' & c5 & t5 & [= <- <-] & ->%no_steps).
  exists s, e. fold a'. by destruct (Producer_Products a'), (Materialer_Materials a').
Qed.

(** ** The stages of a run *)

Lemma run_stages_cons `{SC : Scheduler} `{CK : Clock} groups stage order k ctx ctx' :
  run_stages groups (stage :: order) k ctx = (ctx', nil_error) →
  ∃ ctx1 ctx2 k', declare_phase_of stage ctx (default [] (groups !! stage)) = (ctx1, nil_error) ∧
    rtc stage_step (ctx1, Ready <$> default [] (groups !! stage)) (ctx2, []) ∧
    run_stages groups order k' ctx2 = (ctx', nil_error).
Proof.
  cbn [run_stages]. cbv zeta. destruct (declare_phase_of _ _ _) as [ctx1 [[]| |]] eqn:Hd; [|done..].
  destruct (run_stage _ _ _) as [ctx2| |] eqn:Hs; [|done..]. intros Hr. exists ctx1, ctx2. eexists.
  split; [done|]. split; [by eapply run_stage_rtc|done].
Qed.
End stages.

Section order.
Context `{RO : RangeOrder} {A : Type} `{AO : AttestorOps A} `{RA : !Runnable A} `{SC : Scheduler} `{CK : Clock}.

Lemma RunAttestors_run_stages (ctx ctx' : AttestationContext A) :
  RunAttestors ctx = (ctx', nil_error) → (∀ a, a ∈ ctx_attestors ctx → Attestor_RunType a ≠ VerifyRunType) →
  ∃ groups, (∀ rt, default [] (groups !! rt) = of_run_type (ctx_attestors ctx) rt) ∧
    run_stages groups runTypeOrder 0 ctx = (ctx', nil_error).
Proof.
  unfold RunAttestors. destruct (group_attestors (ctx_attestors ctx)) as [groups| |] eqn:Hg; [|done..].
  apply group_attestors_spec in Hg as (Hg & Hdom & _). intros Hr Hnv. exists groups. split; [done|].
  assert (groups !! VerifyRunType = None) as Hv.
  { apply eq_None_not_Some. rewrite Hdom. intros (a & Ha & Hrt). by apply (Hnv a). }
  unfold stage_order in Hr. by rewrite Hv in Hr.
Qed.
End order.

(** ** The attestors of the repository *)

Section run.
Context `{CL : CryptoLib} `{GI : GitoidLib} `{GL : GlobLib} `{RO : RangeOrder}.
Context `{JL : JoseLib} `{CB : CodeBuildApi} `{SB : SbomLib} `{SL : StructLib} `{OL : OmnitrailLib} `{KL : K8sLib}.
Context {SarifReport VEX : Type}.
Notation A := (attestor SarifReport VEX).
Context `{AJ : !AttestorJson A SarifReport VEX}.
Variable FS_at : string → FileSystem.
Context `{HF : HostFiles} `{PE : ProcessEnv} `{UL : UrlLib} `{HL : HttpLib} `{GT : GitLib} `{IA : !ImdsApi}.
Context `{DJ : !Metadata.DockerJson} `{TL : TarLib} `{RX : RegexpLib} `{LK : GitleaksLib} `{SF : SecretScanner.ScanFS}.
Context `{ML : Product.MimeLib} `{UX : UnixLib} `{EL : CommandRun.ExecLib} `{MA : Machine}.
Variable mime_tree : list Product.extension.
Context `{CE : !CommandsEnd (SarifReport:=SarifReport) (VEX:=VEX)}.
Notation attest := (attest FS_at mime_tree).
#[local] Instance run_here : Runnable A := attestor_run FS_at mime_tree.

Lemma is_Some_proj_eq {X} {o : option X} (H : is_Some o) : o = Some (is_Some_proj H).
Proof. destruct o; [done|by destruct H]. Qed.

(** Commands keep whether they are traced. *)
Lemma traceWithOptions_tracing rc c (actx : option (AttestationContext A)) hk b1 b2 b3 rc' p ps e :
  CommandRun.traceWithOptions rc c actx hk b1 b2 b3 = Some (rc', p, ps, e) →
  CommandRun.TracingEnabled rc' = CommandRun.TracingEnabled rc.
Proof. unfold CommandRun.traceWithOptions. cbv zeta. destruct (runTrace _ _) as [[? [[]| |]]|]; intros; by simplify_eq. Qed.
Lemma run_started_tracing rc c (ctx : AttestationContext A) hk b1 b2 rc' cap e :
  CommandRun.run_started rc c ctx hk b1 b2 = Some (rc', cap, e) →
  CommandRun.TracingEnabled rc' = CommandRun.TracingEnabled rc.
Proof.
  unfold CommandRun.run_started. destruct (CommandRun.enableTracing rc) eqn:Ht.
  - destruct (CommandRun.traceWithOptions _ _ _ _ _ _ _) as [[[[rc1 p] ps] e']|] eqn:Hr; [|done]. intros [= <- _ _].
    by apply traceWithOptions_tracing in Hr.
  - destruct (b1 || b2).
    + destruct (CommandRun.traceWithOptions _ _ _ _ _ _ _) as [[[[rc1 p] ps] e']|] eqn:Hr; [|done]. intros [= <- _ _].
      by apply traceWithOptions_tracing in Hr.
    + destruct (CommandRun.st_Wait c); intros [= <- _ _]; done.
Qed.
Lemma runCmd_tracing rc (ctx : AttestationContext A) hk rc' cap e :
  CommandRun.runCmd rc ctx hk = Some (rc', cap, e) → CommandRun.TracingEnabled rc' = CommandRun.TracingEnabled rc.
Proof.
  unfold CommandRun.runCmd. cbv zeta. destruct (CommandRun.Cmd rc); [by intros [= <- _ _]|].
  destruct (negb _); [by intros [= <- _ _]|]. destruct (wrap _ _); [|by intros [= <- _ _]..].
  destruct (CommandRun.exec_Start _ _ _); [|by intros [= <- _ _]..].
  destruct (CommandRun.run_started _ _ _ _ _ _) as [[[rc1 cap1] [[]| |]]|] eqn:Hr; [..|done]; intros [= <- _ _];
    by apply run_started_tracing in Hr.
Qed.
Lemma command_tracing rc (ctx : AttestationContext A) hk rc' cap e :
  CommandRun.Attest rc ctx hk = Some (rc', cap, e) → CommandRun.TracingEnabled rc' = CommandRun.TracingEnabled rc.
Proof. unfold CommandRun.Attest. destruct (CommandRun.Cmd rc) eqn:Hc; [by intros [= <- _ _]|apply runCmd_tracing]. Qed.

(** No material attestor and no traced command. *)
Definition untraced (a : A) : Prop :=
  match a with AMaterial _ => False | ACommandRun rc => CommandRun.TracingEnabled rc = false | _ => True end.
Lemma attest_untraced a ctx : untraced a → untraced (out_attestor (attest a ctx)).
Proof.
  destruct a; try done.
  - intros _. cbn. unfold attest_environment. by repeat case_match.
  - intros Ha. cbn. unfold attest_command. set (H := commands_end _ _ _).
    pose proof (is_Some_proj_eq H) as Hrc. destruct (is_Some_proj H) as [[rc' cap] e]. cbn. by apply command_tracing in Hrc as ->.
  - intros _. cbn. unfold attest_product. by repeat case_match.
Qed.
Lemma untraced_materials a : untraced a → materials_of a = None.
Proof. by destruct a. Qed.
Lemma not_verify a : run_type_of (SarifReport:=SarifReport) (VEX:=VEX) a ≠ VerifyRunType.
Proof. by destruct a. Qed.

(** A stage whose attestors are neither: what it keeps. *)
Lemma untraced_stage stage ctx ctx1 ctx2 atts :
  Forall untraced atts → declare_phase_of stage ctx atts = (ctx1, nil_error) →
  rtc stage_step (ctx1, Ready <$> atts) (ctx2, []) → kept untraced ctx ctx2.
Proof.
  intros Hatts Hd Hr. apply declare_phase_of_setup in Hd as Hs. apply declare_phase_of_fields in Hd as (Hc & Hm & _).
  assert (kept untraced ctx1 ctx2) as (Hs' & Hm' & new & Hc' & Hq).
  { apply (stage_kept (RA:=run_here) _ attest_untraced untraced_materials _ _ Hr). by apply Forall_fmap. }
  split_and!; [congruence..|]. exists new. by rewrite Hc' Hc.
Qed.

(** A stage of one attestor, from the context before the hooks are declared. *)
Definition attested_alone a ctx ctx2 : Prop :=
  ∃ ctx1, setup ctx1 = setup ctx ∧ ctx_completed ctx1 = ctx_completed ctx ∧ ctx_materials ctx1 = ctx_materials ctx ∧
    (out_error (attest a ctx1) = nil_error →
     ∃ s e, ctx_completed ctx2 = ctx_completed ctx ++ [mkCompletedAttestor (out_attestor (attest a ctx1)) s e None] ∧
       setup ctx2 = setup ctx ∧
       ctx_materials ctx2 = match materials_of (out_attestor (attest a ctx1)) with
                            | Some m => copy_into 0 id id (ctx_materials ctx) m | None => ctx_materials ctx end).
Lemma single_stage stage ctx ctx1 ctx2 a :
  declare_phase_of stage ctx [a] = (ctx1, nil_error) → rtc stage_step (ctx1, Ready <$> [a]) (ctx2, []) →
  attested_alone a ctx ctx2.
Proof.
  intros Hd Hr. apply declare_phase_of_setup in Hd as Hs. apply declare_phase_of_fields in Hd as (Hc & Hm & _).
  exists ctx1. split_and!; [done..|]. intros Hok.
  apply (stage_single _ _ _ Hr) in Hok as (s & e & Hc' & Hs' & Hm'). exists s, e.
  split_and!; [by rewrite Hc' Hc|congruence|]. by rewrite Hm' Hm.
Qed.

Lemma untraced_no_trace (l : list (CompletedAttestor A)) :
  Forall (λ c, untraced (comp_Attestor c)) l →
  Forall (λ c, match CommandRun.as_CommandRun (comp_Attestor c) with
               | Some rc => CommandRun.TracingEnabled rc = false | None => True end) l.
Proof. intros H. eapply Forall_impl; [exact H|]. intros c Hc. cbn in *. by destruct (comp_Attestor c). Qed.

(** The contexts of a run around its material and its product attestor. *)
Lemma run_around `{SC : Scheduler} `{CK : Clock} (ctx ctx' : AttestationContext A) mat0 prod0 :
  RunAttestors ctx = (ctx', nil_error) →
  of_run_type (ctx_attestors ctx) MaterialRunType = [AMaterial mat0] →
  of_run_type (ctx_attestors ctx) ProductRunType = [AProduct prod0] →
  (∀ rc, ACommandRun rc ∈ ctx_attestors ctx → CommandRun.TracingEnabled rc = false) →
  ∃ c1 c2 c3 c4 after, kept untraced ctx c1 ∧ attested_alone (AMaterial mat0) c1 c2 ∧ kept untraced c2 c3 ∧
    attested_alone (AProduct prod0) c3 c4 ∧ ctx_completed ctx' = ctx_completed c4 ++ after.
Proof.
  intros Hrun Hmat Hprod Hnt.
  apply RunAttestors_run_stages in Hrun as (groups & Hg & Hrun); [|by intros; apply not_verify].
  assert (Hstage : ∀ rt, rt ≠ MaterialRunType → Forall untraced (of_run_type (ctx_attestors ctx) rt)).
  { intros rt Hrt. apply Forall_forall. intros a [Ha Hin]%list_elem_of_filter. destruct a; try done. by apply Hnt. }
  unfold runTypeOrder in Hrun.
  apply run_stages_cons in Hrun as (? & c1 & k1 & Hd1 & Hr1 & Hrun). rewrite !Hg in Hd1, Hr1.
  apply run_stages_cons in Hrun as (? & c2 & k2 & Hd2 & Hr2 & Hrun). rewrite !Hg Hmat in Hd2, Hr2.
  apply run_stages_cons in Hrun as (? & c3 & k3 & Hd3 & Hr3 & Hrun). rewrite !Hg in Hd3, Hr3.
  apply run_stages_cons in Hrun as (? & c4 & k4 & Hd4 & Hr4 & Hrun). rewrite !Hg Hprod in Hd4, Hr4.
  apply (run_stages_completed (ctx_attestors ctx)) in Hrun as (news & Hc' & _); [|done].
  exists c1, c2, c3, c4, (concat news). split_and!; [| | | |done].
  - exact (untraced_stage _ _ _ _ _ (Hstage PreMaterialRunType ltac:(done)) Hd1 Hr1).
  - exact (single_stage _ _ _ _ _ Hd2 Hr2).
  - exact (untraced_stage _ _ _ _ _ (Hstage ExecuteRunType ltac:(done)) Hd3 Hr3).
  - exact (single_stage _ _ _ _ _ Hd4 Hr4).
Qed.

(** C25: a run of one material attestor, one product attestor, commands that are not traced
    and any other attestors, in every interleaving of its stages: when it returns without
    an error, both attestors have completed without one, and a file of the working directory
    as it is after the commands is a product exactly when there was no such file before
    them or its content is different now. *)
Theorem run_records_the_changes `{SC : Scheduler} `{CK : Clock} (ctx ctx' : AttestationContext A)
    mat0 prod0 tree1 tree2 inc exc dv h :
  RunAttestors ctx = (ctx', nil_error) →
  ctx_completed ctx = [] → ctx_materials ctx = ∅ → ctx_dirHashGlobCompiled ctx = [] →
  of_run_type (ctx_attestors ctx) MaterialRunType = [AMaterial mat0] →
  of_run_type (ctx_attestors ctx) ProductRunType = [AProduct prod0] →
  (∀ rc, ACommandRun rc ∈ ctx_attestors ctx → CommandRun.TracingEnabled rc = false) →
  recordable (FS_at MaterialRunType) (ctx_workingDir ctx) tree1 →
  recordable (FS_at ProductRunType) (ctx_workingDir ctx) tree2 →
  linked (ctx_hashes ctx) →
  dv ∈ ctx_hashes ctx → GitOID dv = false → hash_sum (dv_Hash dv) = Some h → Inj (=) (=) h →
  glob_Compile (Product.includeGlob prod0) = Ok inc → glob_Compile (Product.excludeGlob prod0) = Ok exc →
  ∃ before mat s1 e1 between prod s2 e2 after,
    ctx_completed ctx' = before ++ [mkCompletedAttestor (AMaterial mat) s1 e1 None] ++ between ++
                         [mkCompletedAttestor (AProduct prod) s2 e2 None] ++ after ∧
    ∀ ns c, has_content (FS_at ProductRunType) (ctx_workingDir ctx) tree2 ns c →
      is_Some (Product.Products prod !! rel_path ns) ↔
      ¬ has_content (FS_at MaterialRunType) (ctx_workingDir ctx) tree1 ns c.
Proof.
  intros Hrun Hc0 Hm0 Hg0 Hmat Hprod Hnt Hrec1 Hrec2 Hlinked Hdv Hgit Hh Hinj Hinc Hexc.
  apply (run_around _ _ mat0 prod0) in Hrun as (c2 & c4 & c6 & c8 & after & (Hs2 & Hm2 & pre & Hc2 & Hpre)
    & (cm & Hsm & Hcm & Hmm & Hr2) & (Hs6 & Hm6 & mid & Hc6 & Hmid) & (cp & Hsp & Hcp & Hmp & Hr4) & Hc'); [|done..].
  assert (Hsetm : setup cm = setup ctx) by congruence. injection Hsetm as Hw Hh' Hgl.
  assert (Htm : no_trace cm).
  { unfold no_trace. rewrite Hcm Hc2 Hc0. by apply untraced_no_trace. }
  destruct (products_are_the_changes (FS_at MaterialRunType) (FS_at ProductRunType) tree1 tree2 cm cm mat0 prod0
    mime_tree inc exc dv h) as (mat & Hma & _); rewrite ?Hw ?Hh' ?Hgl //.
  destruct Hr2 as (s1 & e1 & Hc4 & Hs4 & Hm4); [cbn; by rewrite Hma|]. cbn in Hc4, Hm4. rewrite Hma in Hc4, Hm4. cbn in Hc4, Hm4.
  rewrite Hm2 Hm0 copy_into_id map_fmap_id right_id_L in Hm4.
  assert (Hsetp : setup cp = setup ctx) by congruence. injection Hsetp as Hwp Hhp Hglp.
  destruct (products_are_the_changes (FS_at MaterialRunType) (FS_at ProductRunType) tree1 tree2 cm cp mat0 prod0
    mime_tree inc exc dv h) as (mat' & Hma' & Hpr); rewrite ?Hw ?Hwp ?Hh' ?Hhp ?Hgl ?Hglp //.
  { unfold no_trace. rewrite Hcp Hc6 Hc4 Hc2 Hc0. rewrite !Forall_app Forall_singleton.
    split_and!; [done|by apply untraced_no_trace|done|by apply untraced_no_trace]. }
  assert (mat' = mat) as -> by congruence.
  destruct Hpr as (tr' & prod & Hpa & Hchanges); [congruence|].
  destruct Hr4 as (s2 & e2 & Hc8 & _ & _); [cbn; unfold attest_product; by rewrite Hpa|].
  cbn in Hc8. unfold attest_product in Hc8. rewrite Hpa in Hc8. cbn in Hc8.
  exists pre, mat, s1, e1, mid, prod, s2, e2, after. split.
  - by rewrite Hc' Hc8 Hc6 Hc4 Hc2 Hc0 /= -!assoc_L.
  - rewrite -Hw. exact Hchanges.
Qed.
End run.

(** * An example

    A step in which the file "n" is made and "f" changed, with commands that succeed. *)
From S2P Require Import CloudTheorems DocumentTheorems ProvenanceTheorems KmsTheorems GitTheorems OciTheorems SecretTheorems CommandRunTheorems ToyWorld.
#[local] Existing Instances ProductTheorems.literal_globs ProductTheorems.toy_mime CITheorems.toy_url CITheorems.toy_jose
  CITheorems.ci_http CITheorems.ci_env CloudTheorems.ec2_config CloudTheorems.ec2_imds CloudTheorems.toy_k8s
  DocumentTheorems.toy_sbom DocumentTheorems.toy_docker_json ProvenanceTheorems.toy_struct KmsTheorems.toy_no_files
  GitTheorems.toy_git OciTheorems.toy_tar SecretTheorems.toy_regexp SecretTheorems.toy_gitleaks
  SecretTheorems.toy_scan_files CommandRunTheorems.linux ToyWorld.toy_clock.
#[local] Instance toy_trails : OmnitrailLib :=
  {| Trail := unit; NewTrail := tt; Trail_Add _ t := (t, nil_error); TrailEnvelope := unit; Trail_Envelope t := t |}.
#[local] Instance toy_exec : CommandRun.ExecLib := λ cmd dir traced,
  if traced then Err (External "no ptrace") else Ok (CommandRun.mkStarted 1 "" [] CommandRun.Success "made n" "").
#[local] Instance toy_machine : Machine :=
  {| os_Environ := []; runtime_GOOS := "linux"; os_Hostname := Ok "host"; user_Username := Ok "user";
     exec_Command _ _ := Err (External "no command") |}.

Notation toy_attestor := (attestor (string * string) unit).
#[local] Instance toy_json : AttestorJson toy_attestor (string * string) unit := {|
  json_Marshal_any a := Ok (name_of a);
  json_Unmarshal_any _ a := Ok (Some a);
  json_MarshalIndent_any a := Ok (name_of a);
  json_MarshalIndent_command _ := Ok "";
  zero_Report := ("", "");
  json_Unmarshal_Report _ r := (r, nil_error);
  zero_VEX := tt;
  json_Unmarshal_VEX _ v := (v, nil_error);
  json_Unmarshal_Value b := Ok b;
  json_Unmarshal_Manifest _ m := (m, nil_error);
  json_Marshal_SystemPackages _ := Ok "";
  xml_Unmarshal_Pom _ a := (a, nil_error);
|}.
#[local] Instance toy_commands_end : CommandsEnd (SarifReport:=string * string) (VEX:=unit).
Proof.
  intros rc ctx hk. unfold CommandRun.Attest, CommandRun.runCmd. cbv zeta. destruct (CommandRun.Cmd rc); [by eexists|].
  destruct (negb _); [by eexists|]. destruct (wrap _ _); [|by eexists..].
  unfold CommandRun.exec_Start, toy_exec. destruct (CommandRun.enableTracing rc) eqn:Ht; cbn [orb]; [by eexists|].
  destruct (HasHooks hk StagePreExec || HasHooks hk StagePreExit) eqn:Hh; [by eexists|].
  unfold CommandRun.run_started. rewrite Ht Hh. cbn. by eexists.
Defined.

Definition toy_fs (run_type : string) : FileSystem :=
  if bool_decide (run_type = MaterialRunType) then before_step else after_step.
Definition toy_step : AttestationContext toy_attestor :=
  mkContext "" [AProduct (Product.New []); ACommandRun (CommandRun.New [CommandRun.WithCommand ["make"]]);
                AEnvironment (NewEnvAttestor ["HOME=/root"] []); AMaterial (Material.New [])]
    "/w" [] [] [sha256] [] ∅ ∅ "step" (NewCapture []) [] zero_hooks.
#[local] Instance toy_runnable : Runnable toy_attestor := attestor_run toy_fs [].
Abbreviation toy_result := (RunAttestors (RA:=toy_runnable) toy_step).
Example toy_step_runs :
  (λ c, (name_of (comp_Attestor c), comp_Error c)) <$> ctx_completed toy_result.1 =
  [("environment", None); ("material", None); ("command-run", None); ("product", None)] ∧ toy_result.2 = nil_error.
Proof. vm_compute. done. Qed.

Lemma run_records_the_changes_witness :
  toy_result.2 = nil_error ∧
  ∃ before mat s1 e1 between prod s2 e2 after,
    ctx_completed toy_result.1 = before ++ [mkCompletedAttestor (AMaterial mat) s1 e1 None] ++ between ++
                                 [mkCompletedAttestor (AProduct prod) s2 e2 None] ++ after ∧
    ∀ ns c, has_content after_step "/w" (a_dir [("sub", a_dir [("g", a_file)]); ("f", a_file); ("n", a_file)]) ns c →
      is_Some (Product.Products prod !! rel_path ns) ↔
      ¬ has_content before_step "/w" (a_dir [("sub", a_dir [("g", a_file)]); ("f", a_file)]) ns c.
Proof.
  split; [vm_compute; reflexivity|].
  apply (run_records_the_changes toy_fs [] toy_step toy_result.1 (Material.New []) (Product.New [])
    (a_dir [("sub", a_dir [("g", a_file)]); ("f", a_file)])
    (a_dir [("sub", a_dir [("g", a_file)]); ("f", a_file); ("n", a_file)])
    (λ s, bool_decide ("*" = "*" ∨ s = "*")) (λ s, bool_decide ("" = "*" ∨ s = ""))
    sha256 (λ d, "h" +:+ pretty SHA256 +:+ d)).
  - apply pair_of_snd. vm_compute. reflexivity.
  - reflexivity.
  - reflexivity.
  - reflexivity.
  - vm_compute. reflexivity.
  - vm_compute. reflexivity.
  - intros rc Hrc. apply elem_of_cons in Hrc as [[=]|Hrc]. apply elem_of_cons in Hrc as [[= ->]|Hrc]; [reflexivity|].
    apply elem_of_cons in Hrc as [[=]|Hrc]. by apply list_elem_of_singleton in Hrc.
  - exact recordable_before.
  - exact recordable_after.
  - constructor; [right; exists (λ d, "h" +:+ pretty SHA256 +:+ d); reflexivity|constructor].
  - left.
  - reflexivity.
  - reflexivity.
  - intros a b Hab. by do 2 apply (inj (String.append _)) in Hab.
  - reflexivity.
  - reflexivity.
Defined.

(** The registrations, in the order of imports.go. *)
Definition toy_registrations : list (registration (SarifReport:=string * string) (VEX:=unit) (S:=unit)) :=
  registrations (FS:=before_step) CloudTheorems.ec2_attestor.
Lemma GetAttestor_registered_witness :
  ∃ a, GetAttestor (init_all toy_registrations) "https://cyclonedx.org/bom" = Ok a ∧ registered_name a = "sbom" ∧
    registered_run_type a = PostProductRunType.
Proof.
  destruct (GetAttestor_registered (S:=unit) (FS:=before_step) CloudTheorems.ec2_attestor toy_registrations
    "https://cyclonedx.org/bom" (reflexivity _)) as [Hfound _].
  destruct (Hfound (mkRegistration Sbom.Name [Sbom.Type_; Sbom.SPDXPredicateType; Sbom.CycloneDxPredicateType] Sbom.RunType
    (λ _, Single (ASbom Sbom.NewSBOMAttestor)) sbom_options)) as (a & Ha & _ & Hn & Hr & _).
  - do 20 right. left.
  - right. do 2 right. left.
  - exists a. split; [exact Ha|]. split; [exact Hn|exact Hr].
Defined.
