(* ===== verification/VerifyTheorems.v ===== *)
(** The properties of policy signatures and of the whole verification
    (internal/policy, attestation/policyverify, verify.go), with witnesses on the
    concrete instances of ToyWorld.v. *)
From S2P Require Import Prelude GoStrings Errors Crypto Keys Digest Timestamp Dsse Toy Intoto Registry Attestation Source Sched Constraints Environment Hooks Context ContextRun VerifiedSource PolicyStep KMS Policy PolicySound PolicySig PolicyVerify Run Verify ToyWorld.

Section verify.
Context `{CL : CryptoLib} `{TL : !TspLib} `{GI : GitoidLib} `{GL : GlobLib} `{FL : FulcioLib} `{RO : RangeOrder}
        `{SC : Scheduler} `{CK : Clock}.
Context {A S : Type} `{AO : AttestorOps A} `{RA : !Runnable A} `{RL : RegoLib} `{SS : !Sourcer A S} `{PJ : PolicyJson}.
Context `{SJ : StatementJson} `{CJ : CollectionJson} {st : kms_state} `{PV : !PolicyVerifyAttestor A S st}.

(** What a successful run of the policyverify attestor establishes. *)
Definition policy_verified (hashes : list DigestValue) (now : Z) (a : PVAttestor A S)
    (results : gmap string (StepResult A)) : Prop :=
  ∃ pol pubkeys bundles authorities,
    VerifyPolicySignature (pv_policyEnvelope a) now (pv_options a) = nil_error ∧
    json_Unmarshal_Policy (Payload (pv_policyEnvelope a)) = Ok pol ∧
    (now ≤ unix_nano (Expires pol))%Z ∧
    PublicKeyVerifiers st pol (pv_kmsProviderOptions a) = Ok pubkeys ∧
    TrustBundles pol = Ok bundles ∧ TimestampAuthorityTrustBundles pol = Ok authorities ∧
    policy_satisfied (result_justified (collection_options pubkeys bundles authorities)) pol bundles results.

Lemma PV_Attest_verified hashes now clock a a' :
  PV_Attest st hashes now clock a = (a', nil_error) →
  vsum_VerificationResult (pv_summary a') = PassedVerificationResult →
  policy_verified hashes now a (pv_stepResults a').
Proof.
  intros H Hp. apply PV_Attest_inv in H as (pol & pubkeys & bundles & auth & s & accepted & summary & Hsig & Hpol &
    Hkeys & Hb & Ha & Hv & Hsum & <-).
  apply (summary_result _ _ _ _ _ _ Hsum) in Hp as ->. exists pol, pubkeys, bundles, auth.
  set (opts := collection_options pubkeys bundles auth) in *.
  apply (Policy_Verify_satisfied (λ s : VerifiedSource (option S), vs_verifyOpts s = opts) (result_justified opts)) in Hv
    as (Hexp & b & Hb' & Hsat).
  - rw Hb in Hb'. simplify_eq. done.
  - by intros s' [= <-].
Qed.

(** The options of the caller that matter here: no attestors of its own, and
    context options that leave the context's attestors alone. *)
Definition caller_options (vo : @verifyOptions CL A S) : Prop :=
  let ro := run_options "policyverify" (vopt_runOptions vo) in
  ro_attestors ro = [] ∧ Forall plain_option (ro_attestationOpts ro).

Lemma verify_run_attestors a (vo : @verifyOptions CL A S) :
  caller_options vo →
  let ro := run_options "policyverify" (verify_run_options a vo) in
  ro_attestors ro = [pv_inject a] ∧ Forall plain_option (ro_attestationOpts ro).
Proof.
  intros [Hn Hp]. unfold verify_run_options, run_options in *. rw !foldl_app. cbn [foldl].
  case_bool_decide; cbn; rw Hn; by split.
Qed.

Lemma verify_attestor_envelope env vs (vo : @verifyOptions CL A S) :
  pv_policyEnvelope (verify_attestor env vs vo) = env.
Proof. unfold verify_attestor, NewPVAttestor. by rw !foldl_app. Qed.

Lemma Verify_inv getwd rnd env vs opts vr :
  let vo := foldl (λ vo opt, opt vo) (mkVerifyOpts [] [] [] [] ∅) opts in
  caller_options vo →
  Verify getwd rnd env vs opts = (vr, nil_error) →
  ∃ hashes now clock a', let a := verify_attestor env vs vo in
    PV_Attest st hashes now clock a = (a', nil_error) ∧
    vsum_VerificationResult (pv_summary a') = PassedVerificationResult ∧ pv_stepResults a' = vr_StepResults vr.
Proof.
  intros vo Hvo. unfold Verify. fold vo. cbv zeta. set (a := verify_attestor env vs vo).
  destruct (Run _ _ _ _) as [r [[]| |]] eqn:Hr; [|done..].
  destruct (read_summary _) as [[summary results]| |] eqn:Hs; [|done..].
  case_bool_decide as Hpass; [done|]. intros [= <-].
  apply (read_summary_passed _ _ _ Hs) in Hpass as Hread.
  destruct Hread as (ca & att & b & Hca & Hatt & Hproj & Hsum & Hres).
  destruct (verify_run_attestors a vo Hvo) as [Hatts Hplain].
  apply Run_inv in Hr as [Hr| ->]; [|by apply not_elem_of_nil in Hca].
  destruct (completed_from_options _ _ _ _ _ _ _ Hplain Hr Hca Hatt) as (a0 & Ha0 & (ctx & Hout & He)).
  rw Hatts in Ha0. apply list_elem_of_singleton in Ha0 as ->.
  destruct (pv_attest a ctx) as [Hout' He']. rw Hout' in Hout. subst att.
  rw pv_project_inject in Hproj. injection Hproj as Hb. subst b.
  destruct (PV_Attest st (ctx_hashes ctx) (pv_now ctx) (pv_clock ctx) a) as [a' e'] eqn:Hpv. cbn [fst snd] in *.
  exists (ctx_hashes ctx), (pv_now ctx), (pv_clock ctx), a'. cbn [vr_StepResults]. rw Hsum -Hres. split; [|done]. rw Hpv. congruence.
Qed.
End verify.

(** C1: the whole verification is sound: when [Verify] returns no error, the
    signature on the policy envelope was accepted under the caller's options, the
    envelope's payload is a policy that had not expired, and every step of that
    policy passed with evidence: collections whose envelopes carry a signature
    that a key, root and timestamp authority of the policy justify, made by a
    functionary of the step, with the attestations the step expects and rego
    policies that deny nothing, and with materials that agree with the artifacts
    of the steps they come from. *)
Theorem Verify_sound `{CL : CryptoLib} `{TL : !TspLib} `{GI : GitoidLib} `{GL : GlobLib} `{FL : FulcioLib}
    `{RO : RangeOrder} `{SC : Scheduler} `{CK : Clock} {A S : Type} `{AO : AttestorOps A} `{RA : !Runnable A}
    `{RL : RegoLib} `{SS : !Sourcer A S} `{PJ : PolicyJson} `{SJ : StatementJson} `{CJ : CollectionJson}
    {st : kms_state} `{PV : !PolicyVerifyAttestor A S st}
    (getwd : res string) (rnd : nat → nat → bytes) (env : Envelope) (vs : list (option Verifier))
    (opts : list VOption) (vr : VerifyResult) :
  let vo := foldl (λ vo opt, opt vo) (mkVerifyOpts [] [] [] [] ∅) opts in
  caller_options vo →
  Verify getwd rnd env vs opts = (vr, nil_error) →
  ∃ hashes now, policy_verified (st := st) hashes now (verify_attestor env vs vo) (vr_StepResults vr) ∧
    pv_policyEnvelope (verify_attestor env vs vo) = env.
Proof.
  intros vo Hvo H. destruct (Verify_inv _ _ _ _ _ _ Hvo H) as (hashes & now & clock & a' & Ha & Hp & <-).
  exists hashes, now. split; [by eapply PV_Attest_verified|apply verify_attestor_envelope].
Qed.

Definition toy_verify_options : list (@VOption toy_crypto toyA (MemorySource toyA)) :=
  [VerifyWithSubjectDigests [{[mkDV SHA256 false false := "d1"]}]; VerifyWithCollectionSource (Some toy_source)].
Definition toy_verify : VerifyResult * err :=
  Verify (st := toy_kms) (Ok "/") (λ _ _, "") (toy_signed "alice" "POLICY") [Some (toy_ed "alice")] toy_verify_options.

Lemma Verify_sound_witness :
  toy_verify.2 = nil_error ∧
  ∃ hashes now, policy_verified (st := toy_kms) hashes now
    (verify_attestor (toy_signed "alice" "POLICY") [Some (toy_ed "alice")]
       (foldl (λ vo opt, opt vo) (mkVerifyOpts [] [] [] [] ∅) toy_verify_options)) (vr_StepResults toy_verify.1) ∧
    pv_policyEnvelope (verify_attestor (toy_signed "alice" "POLICY") [Some (toy_ed "alice")]
       (foldl (λ vo opt, opt vo) (mkVerifyOpts [] [] [] [] ∅) toy_verify_options)) = toy_signed "alice" "POLICY".
Proof.
  assert (toy_verify = (toy_verify.1, nil_error)) as Hrun by (vm_cast_no_check (eq_refl toy_verify)).
  split; [exact (f_equal snd Hrun)|].
  apply (Verify_sound (st := toy_kms) (Ok "/") (λ _ _, "") (toy_signed "alice" "POLICY") [Some (toy_ed "alice")]
    toy_verify_options toy_verify.1).
  - split; [reflexivity|constructor].
  - exact Hrun.
Defined.

(** * The signature on a policy *)

Section policy_signature.
Context `{CL : CryptoLib} `{TL : !TspLib} `{GL : GlobLib} `{FL : FulcioLib} `{RO : RangeOrder}.
Implicit Types (vo : VerifyPolicySignatureOptions) (sig : Signature) (v : Verifier) (cv : CheckedVerifier).

(** What the caller trusts: its keys, roots, intermediates and timestamp
    authorities, and one signature is enough. *)
Definition policy_trust vo : verificationOptions :=
  mkVerificationOptions (policyCARoots vo) (policyCAIntermediates vo) (policyVerifiers vo) 1
    (policyTimestampAuthorities vo).

(** A verifier that a signature is checked with: one of the caller's, or the one
    of the certificate next to the signature. *)
Definition checked_for vo sig v : Prop :=
  Some v ∈ policyVerifiers vo ∨
  ∃ cert ints t, TryParseCertificate (sig_Certificate sig) = Ok cert ∧
    NewX509Verifier cert (ints ++ policyCAIntermediates vo) (policyCARoots vo) (Some t) = Ok v.

(** What the caller requires of a certificate: the four name constraints, a chain
    to one of the roots, and a match for every constrained Fulcio extension. *)
Definition meets_policy_constraints vo (cert : Certificate) (ints : list Certificate) (t : option Z) : Prop :=
  meets [policyCommonName vo] [CommonName cert] ∧ meets (policyDNSNames vo) (DNSNames cert) ∧
  meets (policyEmails vo) (EmailAddresses cert) ∧ meets (policyOrganizations vo) (Organization cert) ∧
  meets (policyURIs vo) (URIs cert) ∧
  (∃ root, root ∈ policyCARoots vo ∧ view_belongs (mkView cert ints t) root = nil_error) ∧
  ∃ extensions, ParseExtensions (Extensions cert) = Ok extensions ∧
    ∀ name, name ∈ Extensions_fields → field (fulcioCertExtensions vo) name ≠ "" →
      ∃ g, glob_Compile (field (fulcioCertExtensions vo) name) = Ok g ∧ g (field extensions name) = true.

(** A verifier that the caller accepts: a plain key, or a certificate that meets
    the constraints. *)
Definition accepted_verifier vo v : Prop :=
  match v with
  | X509Verifier cert _ ints _ t => meets_policy_constraints vo cert ints t
  | _ => True
  end.

Lemma policy_bundles_elem vo id b : policy_bundles vo !! id = Some b → tb_Root b ∈ policyCARoots vo.
Proof.
  unfold policy_bundles. induction (policyCARoots vo) as [|root roots IH] using rev_ind; [done|].
  rw foldl_app /= elem_of_app. intros [[_ <-]|[_ ?]]%lookup_insert_Some; [right; by left|left; auto].
Qed.

Lemma check_policy_verifier_accepts vo cv :
  check_policy_verifier vo cv = Ok true → ∃ v, cv_Verifier cv = Some v ∧ accepted_verifier vo v.
Proof.
  intros (v & Hv & [Hx|(c & r & i & w & t & -> & _ & Hc)])%check_policy_verifier_true; (eexists; split; [done|]).
  - destruct v as [| | |c r i w t|]; try done. by destruct (Hx c r i w t).
  - destruct Hc as (? & ? & ? & ? & ? & (id & b & Hb & _ & Hr) & He). repeat (split; [done|]). split; [|done].
    exists (tb_Root b). split; [by eapply policy_bundles_elem|done].
Qed.

(** The entry of a signature holds a verifier that the signature was checked
    with, whether or not it verified. *)
Lemma verifyX509Time_verifier cert ints rts pae sg t ov oe v :
  verifyX509Time cert ints rts pae sg t = Ok (ov, oe) → ov = Some v →
  NewX509Verifier cert ints rts (Some t) = Ok v.
Proof.
  unfold verifyX509Time. destruct (NewX509Verifier _ _ _ _) as [v'| |]; [|naive_solver..].
  intros (e & _ & ?)%res_bind_ok. naive_solver.
Qed.

(** The verifiers that the timestamp loops hold were made from the certificate. *)
Definition stamped (cert : Certificate) (ints rts : list Certificate) (st : stamp_state) : Prop :=
  ∀ v, Some v = passedVerifier st ∨ Some v ∈ failed st → ∃ t, NewX509Verifier cert ints rts (Some t) = Ok v.

Lemma check_timestamps_stamped cert ints rts pae sig tvs st :
  check_timestamps cert ints rts pae sig tvs = Ok st → stamped cert ints rts st.
Proof.
  unfold check_timestamps. apply (range_res_inv _ (stamped cert ints rts));
    [|by intros v [?|?%not_elem_of_nil]].
  intros s tv s' _ HP. apply (range_res_inv _ (stamped cert ints rts)); [|done].
  clear s' HP s. intros s ts s' _ HP. unfold check_timestamp.
  destruct (TimestampVerifier_Verify _ _ _) as [t| |]; [|intros; by simplify_eq|done].
  intros ([ov oe] & Hve & Hs)%res_bind_ok.
  destruct oe; simplify_eq/=; intros v; cbn [passedVerifier failed].
  - intros [?|[?|<-%list_elem_of_singleton]%elem_of_app]; [apply HP; by left|apply HP; by right|].
    exists t. by eapply verifyX509Time_verifier.
  - intros [<-|?]; [|apply HP; by right]. exists t. by eapply verifyX509Time_verifier.
Qed.

Lemma check_signature_checked vo now pae sig cvs cv v :
  check_signature (policy_trust vo) now pae sig = Ok cvs → cv ∈ cvs → cv_Verifier cv = Some v →
  checked_for vo sig v.
Proof.
  unfold check_signature. intros (fc & Hfc & H)%res_bind_ok Hin Hv.
  destruct fc as [cvs1|]; [|simplify_eq; by apply not_elem_of_nil in Hin].
  apply res_bind_ok in H as (cvs2 & H2 & H). simplify_eq. apply elem_of_app in Hin as [Hin|Hin].
  - case_bool_decide; [|simplify_eq; by apply not_elem_of_nil in Hin]. right.
    unfold check_certificate in Hfc. destruct (TryParseCertificate _) as [cert| |]; [|done..].
    apply res_bind_ok in Hfc as (ints & _ & Hfc). exists cert, ints. cbn [timestampVerifiers policy_trust] in Hfc.
    destruct (policyTimestampAuthorities vo) as [|tv tvs].
    + apply res_bind_ok in Hfc as ([ov oe] & Hve & Hfc). simplify_eq. apply list_elem_of_singleton in Hin as ->.
      exists now. split; [done|]. by eapply verifyX509Time_verifier.
    + apply res_bind_ok in Hfc as (st & Hst & Hfc). apply check_timestamps_stamped in Hst.
      enough (∃ t, NewX509Verifier cert (ints ++ policyCAIntermediates vo) (policyCARoots vo) (Some t) = Ok v)
        as [t ?] by (by exists t).
      apply Hst. destruct (passedTimestampVerifiers st); simplify_eq.
      * apply list_elem_of_fmap in Hin as (? & -> & ?). cbn in Hv. subst. by right.
      * apply list_elem_of_singleton in Hin as ->. by left.
  - left. apply (collect_elem _ _ _ cv) in H2. apply H2 in Hin as ([v'|] & ys & ? & Hy & Hcv);
      [|simplify_eq; by apply not_elem_of_nil in Hcv].
    apply res_bind_ok in Hy as (e & _ & Hy). simplify_eq. apply list_elem_of_singleton in Hcv as ->. by simplify_eq/=.
Qed.
End policy_signature.

(** C6: an accepted policy signature is a signature that the caller trusts, and
    the caller's constraints were checked. Some signature of the envelope over its
    content is accepted by one of the caller's verifiers, or by a certificate that
    chains to the caller's roots at the clock or at a time one of the caller's
    timestamp authorities attests. And some verifier that a signature of the
    envelope was checked with is a plain key of the caller, or is of a certificate
    that meets the caller's constraints on common name, DNS names, email addresses,
    organizations, URIs and Fulcio extensions and chains to one of its roots. (They
    need not be the same verifier: [VerifyPolicySignature_bypass].) *)
Theorem VerifyPolicySignature_sound `{CL : CryptoLib} `{TL : !TspLib} `{GL : GlobLib} `{FL : FulcioLib}
    `{RO : RangeOrder} (env : Envelope) (now : Z) (vo : VerifyPolicySignatureOptions) :
  VerifyPolicySignature env now vo = nil_error →
  (∃ sig cv, sig ∈ Signatures env ∧ cv_Error cv = None ∧
    justified (policy_trust vo) now (preauthEncode (PayloadType env) (Payload env)) sig cv) ∧
  (∃ sig v, sig ∈ Signatures env ∧ checked_for vo sig v ∧ accepted_verifier vo v).
Proof.
  intros (cvs & He & cv & Hcv & Hpass)%VerifyPolicySignature_ok.
  destruct (Envelope_Verify_entries _ _ _ _ _ He (Envelope_Verify_nonempty _ _ _ _ He)) as (Hc & _ & Hp & _).
  change (apply_verification_options (policy_sig_options vo)) with (policy_trust vo) in Hc. split.
  - apply verified_count_pos in Hp as (cv' & Hcv' & Hok).
    destruct (Envelope_Verify_justified _ _ _ _ _ _ He Hcv' Hok) as (sig & Hsig & Hj). by exists sig, cv'.
  - apply check_policy_verifier_accepts in Hpass as (v & Hv & Hacc).
    apply (collect_elem _ _ _ cv) in Hc. apply Hc in Hcv as (sig & ys & Hsig & Hys & Hy).
    exists sig, v. split; [done|]. split; [by eapply check_signature_checked|done].
Qed.

(** A certificate authority "ca", a certificate of mallory that it issued and one
    of alice; the caller requires the common name "alice". *)
Definition toy_ca : CertificateOf toy_key := toy_certificate "ca;ca".
Definition toy_alice_options : @VerifyPolicySignatureOptions toy_crypto :=
  NewVerifyPolicySignatureOptions [@VerifyWithPolicyCARoots toy_crypto [toy_ca];
    @VerifyWithPolicyCertConstraints toy_crypto "alice" ["*"] ["*"] ["*"] ["*"]].
Definition certificate_signature (cert sig : string) : Signature :=
  mkSignature "" sig (encode "CERTIFICATE" cert) [] [].

(** Alice's signature over the payload, with her certificate. *)
Definition alice_envelope : Envelope :=
  mkEnvelope "POLICY" "t" [certificate_signature "alice;ca" ("alice:" +:+ preauthEncode "t" "POLICY")].

Lemma VerifyPolicySignature_sound_witness :
  VerifyPolicySignature alice_envelope 0 toy_alice_options = nil_error ∧
  (∃ sig cv, sig ∈ Signatures alice_envelope ∧ cv_Error cv = None ∧
    justified (policy_trust toy_alice_options) 0 (preauthEncode "t" "POLICY") sig cv) ∧
  (∃ sig v, sig ∈ Signatures alice_envelope ∧ checked_for toy_alice_options sig v ∧
     accepted_verifier toy_alice_options v).
Proof.
  split; [vm_compute; reflexivity|].
  apply (VerifyPolicySignature_sound alice_envelope 0 toy_alice_options).
  vm_compute. reflexivity.
Defined.

(** Mallory's signature over the payload, and next to it alice's certificate with
    no signature at all. *)
Definition bypass_envelope : Envelope :=
  mkEnvelope "POLICY" "t"
    [certificate_signature "mallory;ca" ("mallory:" +:+ preauthEncode "t" "POLICY");
     certificate_signature "alice;ca" ""].

(** The checked verifiers of this envelope, and whether one that verified a
    signature fails the constraints. *)
Definition bypass_checked : list (@CheckedVerifier toy_crypto) :=
  match Envelope_Verify bypass_envelope 0 (policy_sig_options toy_alice_options) with Ok r => r.1 | _ => [] end.
Definition constraints_fail (cv : @CheckedVerifier toy_crypto) : bool :=
  match cv_Error cv with
  | Some _ => true
  | None => match check_policy_verifier toy_alice_options cv with Ok false => true | _ => false end
  end.

(** The certificate constraints on the policy signature can be bypassed: the
    loop that checks them also visits verifiers that failed to verify a signature.
    Here the caller requires the common name "alice"; the only valid signature is
    mallory's, whose certificate does not meet the constraints, alice's certificate
    stands next to an empty signature, and the policy signature is accepted. Alone,
    mallory's signature is rejected. *)
Theorem VerifyPolicySignature_bypass :
  VerifyPolicySignature bypass_envelope 0 toy_alice_options = nil_error ∧
  (∃ cvs, Envelope_Verify bypass_envelope 0 (policy_sig_options toy_alice_options) = Ok (cvs, None) ∧
     ∀ cv, cv ∈ cvs → cv_Error cv = None → check_policy_verifier toy_alice_options cv = Ok false) ∧
  VerifyPolicySignature (mkEnvelope "POLICY" "t" (take 1 (Signatures bypass_envelope))) 0 toy_alice_options =
    Err (Errorf "no policy verifiers passed verification").
Proof.
  split; [by vm_cast_no_check (eq_refl nil_error)|]. split; [|vm_compute; reflexivity].
  exists bypass_checked. split.
  - vm_cast_no_check (eq_refl (Envelope_Verify bypass_envelope 0 (policy_sig_options toy_alice_options))).
  - assert (forallb constraints_fail bypass_checked = true) as Hall by (vm_cast_no_check (eq_refl true)).
    intros cv Hcv He. rw forallb_forall in Hall. apply list_elem_of_In, Hall in Hcv as Hf.
    unfold constraints_fail in Hf. rw He in Hf. by destruct (check_policy_verifier _ cv) as [[]| |].
Qed.
