(* ===== verification/PolicyTheorems.v ===== *)
(** The properties of the policy engine (package policy), with witnesses on the
    concrete instances of ToyWorld.v. *)
From S2P Require Import Prelude GoStrings Errors Crypto Keys Digest Timestamp Dsse Toy Intoto Registry Attestation Source Sched Constraints Environment Hooks Context VerifiedSource PolicyStep KMS Policy PolicySound ToyWorld.

(** C2: an accepted policy is satisfied: if [Verify] returns true, the policy has
    not expired, and every step has collections that passed; each of these is a
    result of the source that keeps the source's promise, with a verifier that a
    functionary of the step accepts, the expected name, no errors, and every
    expected attestation with rego policies that give no deny reason; and for every
    step some passed collection's materials agree with the artifacts of the steps
    they come from. *)
Theorem Policy_Verify_sound `{CL : CryptoLib} `{TL : !TspLib} `{GL : GlobLib} `{FL : FulcioLib} `{RO : RangeOrder}
    {A S : Type} `{AO : AttestorOps A} `{RL : RegoLib} `{VS : !VerifiedSourcer A S}
    (source_inv : S → Prop) (promise : CollectionVerificationResult A → Prop)
    `{SL : !VerifiedSourceLaws A S source_inv promise}
    (p : Policy) (now : Z) (opts : list VerifyOption) (s' : option S) (results : gmap string (StepResult A)) :
  (∀ s, verifiedSource (policy_options opts) = Some s → source_inv s) →
  Policy_Verify p now opts = (s', Ok (true, results)) →
  (now ≤ unix_nano (Expires p))%Z ∧
  ∃ bundles, TrustBundles p = Ok bundles ∧ policy_satisfied promise p bundles results.
Proof. apply (Policy_Verify_satisfied source_inv promise). Qed.

(** The collections of the source, verified with bob's key. *)
Definition toy_bob : list (@VerificationOption toy_crypto) := [Dsse.VerifyWithVerifiers [Some (toy_ed "bob")]].
Definition toy_verified_source : VerifiedSource (MemorySource toyA) := NewVerifiedSource (λ _, 1%Z) toy_source toy_bob.
Definition toy_verify_opts : list (@VerifyOption (VerifiedSource (MemorySource toyA))) :=
  [WithSubjectDigests ["d1"]; WithVerifiedSource (Some toy_verified_source)].
Definition toy_policy_run := Policy_Verify toy_policy 1 toy_verify_opts.
Definition toy_results : gmap string (StepResult toyA) :=
  match toy_policy_run.2 with Ok r => r.2 | _ => ∅ end.

Lemma Policy_Verify_sound_witness :
  toy_policy_run.2 = Ok (true, toy_results) ∧
  (1 ≤ unix_nano (Expires toy_policy))%Z ∧
  ∃ bundles, TrustBundles toy_policy = Ok bundles ∧
    policy_satisfied (result_justified toy_bob) toy_policy bundles toy_results.
Proof.
  assert (toy_policy_run = (toy_policy_run.1, Ok (true, toy_results))) as Hrun
    by (vm_cast_no_check (eq_refl toy_policy_run)).
  split; [exact (f_equal snd Hrun)|].
  apply (Policy_Verify_sound (λ s : VerifiedSource (MemorySource toyA), vs_verifyOpts s = toy_bob) (result_justified toy_bob)
    toy_policy 1 toy_verify_opts toy_policy_run.1 toy_results).
  - intros s Hs. injection Hs as <-. reflexivity.
  - exact Hrun.
Defined.

(** C20: a policy that is met is accepted: when a source supplies, for every step, results
    that pass its checks and agree on artifacts with those of the steps that the
    artifacts come from, from the given subject digests on, then [Verify] returns true
    before the expiry of the policy, whatever the search depth and the order of the maps,
    and every step has passed collections, all of them the source's. *)
Theorem Policy_Verify_accepts `{CL : CryptoLib} `{TL : !TspLib} `{GL : GlobLib} `{FL : FulcioLib} `{RO : RangeOrder}
    {A S : Type} `{AO : AttestorOps A} `{RL : RegoLib} `{VS : !VerifiedSourcer A S}
    (p : Policy) (bundles : gmap string TrustBundle) (digests : list string) (supplied : S → Prop)
    (good : string → CollectionVerificationResult A → Prop) (now : Z) (opts : list VerifyOption) (s : S) :
  supplies p bundles digests supplied good → TrustBundles p = Ok bundles → supplied s →
  let vo := policy_options opts in
  checkVerifyOpts vo = Ok s → digests ⊆ subjectDigests vo → (now ≤ unix_nano (Expires p))%Z →
  ∃ s' results, Policy_Verify p now opts = (s', Ok (true, results)) ∧
    ∀ name step, Steps p !! name = Some step →
      ∃ r, results !! name = Some r ∧ sr_Passed r ≠ [] ∧
        ∀ c, c ∈ sr_Passed r → ∃ c0, good name c0 ∧ cvr_Envelope c = cvr_Envelope c0.
Proof. intros Hsup Hb Hs vo Ho Hd Hexp. by eapply (Policy_Verify_supplied p bundles digests supplied good Hsup now opts s). Qed.

(** A source that answers every search with one result, verified with bob's key. *)
Definition toy_result : CollectionVerificationResult toyA :=
  mkCVR [Some (toy_ed "bob")] []
    (mkCollectionEnvelope (toy_signed "bob" "S") (toy_statement "C")
       (mkCollection "build" [mkCollectionAttestation "t" (Some (TA (toy_plain "t" "t" ProductRunType))) toy_time toy_time]) "ref") [] [].
Definition one_result : VerifiedSourcer toyA unit := λ s _ _ _, (s, Ok [toy_result]).

Lemma one_result_supplies :
  supplies (VS := one_result) toy_policy ∅ ["d1"] (λ _, True) (λ name c, name = "build" ∧ c = toy_result).
Proof.
  split; cbn [Steps toy_policy].
  - by intros name step [<- <-]%lookup_singleton_Some.
  - intros name step s ds [<- <-]%lookup_singleton_Some _ _. exists s, [toy_result]. by repeat constructor.
  - intros name step c [<- <-]%lookup_singleton_Some [_ ->]. split; [done|by left| |].
    + intros e ->%list_elem_of_singleton. by eexists.
    + split.
      * exists (Some (toy_ed "bob")), toy_functionary. by vm_compute; repeat (split || left).
      * intros v f ->%list_elem_of_singleton ->%list_elem_of_singleton. left. by vm_compute.
  - intros name step from [<- <-]%lookup_singleton_Some ?%not_elem_of_nil. done.
Qed.

Lemma Policy_Verify_accepts_witness :
  ∃ s' results, Policy_Verify (VS := one_result) toy_policy 1 [WithSubjectDigests ["d1"]; WithVerifiedSource (Some tt)] =
    (s', Ok (true, results)).
Proof.
  destruct (Policy_Verify_accepts (VS := one_result) toy_policy ∅ ["d1"] (λ _, True) (λ name c, name = "build" ∧ c = toy_result)
    1 [WithSubjectDigests ["d1"]; WithVerifiedSource (Some tt)] tt) as (s' & results & H & _).
  - exact one_result_supplies.
  - vm_compute. reflexivity.
  - exact I.
  - reflexivity.
  - intros d Hd. exact Hd.
  - vm_compute. discriminate.
  - exists s', results. exact H.
Defined.

(** C19: a verification that cannot start says why, whatever the source: without a
    source, without subject digests, with a search depth below one, or after the
    policy's expiry. *)
Theorem Policy_Verify_rejects `{CL : CryptoLib} `{TL : !TspLib} `{GL : GlobLib} `{FL : FulcioLib} `{RO : RangeOrder}
    {A S : Type} `{AO : AttestorOps A} `{RL : RegoLib} `{VS : !VerifiedSourcer A S}
    (p : Policy) (now : Z) (s : S) (ds : list string) (depth : Z) :
  (Policy_Verify (A := A) p now [WithSubjectDigests ds; WithSearchDepth depth]).2 =
     Err (ErrInvalidOption "verified source" "a verified attestation source is required") ∧
  (Policy_Verify p now [WithVerifiedSource (Some s); WithSearchDepth depth]).2 =
     Err (ErrInvalidOption "subject digests" "at least one subject digest is required") ∧
  (ds ≠ [] → (depth < 1)%Z →
   (Policy_Verify p now [WithVerifiedSource (Some s); WithSubjectDigests ds; WithSearchDepth depth]).2 =
     Err (ErrInvalidOption "search depth" "search depth must be at least 1")) ∧
  (ds ≠ [] → (1 ≤ depth)%Z → (unix_nano (Expires p) < now)%Z →
   Policy_Verify p now [WithVerifiedSource (Some s); WithSubjectDigests ds; WithSearchDepth depth] =
     (Some s, Err (ErrPolicyExpired (Expires p)))).
Proof.
  split; [done|]. split; [done|]. unfold Policy_Verify. cbn [foldl].
  unfold checkVerifyOpts. cbn [verifiedSource subjectDigests searchDepth WithVerifiedSource WithSubjectDigests WithSearchDepth].
  split; intros Hds Hdepth; (rw (bool_decide_eq_false_2 (length ds = 0)); [|by intros ?%nil_length_inv]).
  - by rw bool_decide_eq_true_2.
  - intros Hexp. rw bool_decide_eq_false_2; [|lia]. by rw bool_decide_eq_true_2.
Qed.

Lemma Policy_Verify_rejects_witness :
  (Policy_Verify toy_policy 11 [WithVerifiedSource (Some toy_verified_source); WithSubjectDigests ["d1"];
     WithSearchDepth 1]).2 = Err (ErrPolicyExpired (Expires toy_policy)).
Proof.
  destruct (Policy_Verify_rejects (A := toyA) toy_policy 11 toy_verified_source ["d1"] 1) as (_ & _ & _ & H).
  rewrite H; [reflexivity|discriminate|lia|vm_compute; reflexivity].
Defined.

(** A policy without steps is satisfied by nothing at all: it is accepted
    without a single collection. *)
Theorem Policy_Verify_no_steps `{CL : CryptoLib} `{TL : !TspLib} `{GL : GlobLib} `{FL : FulcioLib} `{RO : RangeOrder}
    {A S : Type} `{AO : AttestorOps A} `{RL : RegoLib} `{VS : !VerifiedSourcer A S}
    (expires : Time) (now : Z) (s : S) (ds : list string) :
  ds ≠ [] → (now ≤ unix_nano expires)%Z →
  Policy_Verify (mkPolicy expires ∅ ∅ ∅ ∅) now [WithSubjectDigests ds; WithVerifiedSource (Some s)] =
    (Some s, Ok (true, ∅)).
Proof.
  intros Hds Hexp. unfold Policy_Verify, checkVerifyOpts. cbn [foldl verifiedSource subjectDigests searchDepth
    WithVerifiedSource WithSubjectDigests].
  rw (bool_decide_eq_false_2 (length ds = 0)); [|by intros ?%nil_length_inv].
  rw (bool_decide_eq_false_2 (3 < 1)%Z); [|done]. cbn [Expires].
  rw bool_decide_eq_false_2; [|lia].
  unfold TrustBundles, trustBundlesFromRoots, search_order, verifyArtifacts, all_pass. cbn [Roots Steps].
  rw !range_map_empty. cbn [range_res]. by rw /= !range_map_empty /= range_map_empty.
Qed.

Lemma Policy_Verify_no_steps_witness :
  (Policy_Verify (mkPolicy toy_time ∅ ∅ ∅ ∅) 0 [WithSubjectDigests ["d"]; WithVerifiedSource (Some toy_verified_source)]).2
  = Ok (true, ∅ : gmap string (StepResult toyA)).
Proof.
  rewrite (Policy_Verify_no_steps (A := toyA) toy_time 0 toy_verified_source ["d"]);
    [reflexivity|discriminate|vm_compute; discriminate].
Defined.

(** The check of one certificate attribute accepts exactly the certificates
    whose values are the constraints, each once, with a single empty string on
    either side counting as none; a lone ["*"] accepts everything. *)
Theorem checkCertConstraint_spec (attribute : string) (constraints values : list string) :
  checkCertConstraint attribute constraints values = nil_error ↔ meets constraints values.
Proof. apply checkCertConstraint_meets. Qed.

(** C13: a certificate that passes [Check] satisfies every constraint: the five
    attributes, a chain to a named root, and every extension field that is
    constrained. *)
Theorem CertConstraint_Check_sound `{CL : CryptoLib} `{GL : GlobLib} `{FL : FulcioLib} `{RO : RangeOrder}
    (cc : CertConstraint) (v : x509_view) (bundles : gmap string TrustBundle) :
  CertConstraint_Check cc v bundles = nil_error → certificate_accepted cc v bundles.
Proof. apply CertConstraint_Check_ok. Qed.

Definition toy_constraint : CertConstraint := mkCertConstraint "alice" ["*"] ["*"] ["*"] ["*"] ["ca"] ∅.
Definition toy_view : @x509_view toy_crypto := @mkView toy_crypto (toy_certificate "alice;ca") [] None.
Definition toy_bundles : gmap string (@TrustBundle toy_crypto) :=
  {["ca" := @mkTrustBundle toy_crypto (toy_certificate "ca;ca") []]}.

Lemma CertConstraint_Check_sound_witness :
  CertConstraint_Check toy_constraint toy_view toy_bundles = nil_error ∧
  certificate_accepted toy_constraint toy_view toy_bundles.
Proof.
  split; [vm_compute; reflexivity|]. apply CertConstraint_Check_sound. vm_compute. reflexivity.
Defined.

(** A constraint on an extension field whose pattern does not compile does not
    give an error: the check panics, whatever the certificate, as soon as its
    extensions can be parsed and the fields before it match. *)
Theorem checkExtensions_bad_pattern `{CL : CryptoLib} `{GL : GlobLib} `{FL : FulcioLib}
    (cc : CertConstraint) (ext : list (string * bytes)) (x : gmap string string)
    (before after : list string) (name : string) (e : error) :
  ParseExtensions ext = Ok x → Extensions_fields = before ++ name :: after →
  (∀ n, n ∈ before → check_field cc x n = nil_error) →
  field (cc_Extensions cc) name ≠ "" → glob_Compile (field (cc_Extensions cc) name) = Err e →
  checkExtensions cc ext = Panic (fmt_err e).
Proof.
  intros Hx Hf Hb Hne Hg. unfold checkExtensions. rw Hx Hf /= range_res_app.
  rw (proj2 (range_res_unit_ok _ _) Hb). cbn [mbind res_bind range_res].
  assert (check_field cc x name = Panic (fmt_err e)) as ->; [|done].
  unfold check_field. rw bool_decide_eq_false_2 //. unfold glob_MustCompile. by rw Hg.
Qed.

Lemma checkExtensions_bad_pattern_witness :
  checkExtensions (mkCertConstraint "" [] [] [] [] [] {["Issuer" := "["]}) [] = Panic "syntax error in pattern".
Proof.
  apply (checkExtensions_bad_pattern _ [] ∅ [] [] "Issuer" (External "syntax error in pattern")).
  - reflexivity.
  - reflexivity.
  - intros n Hn. by apply not_elem_of_nil in Hn.
  - vm_compute. discriminate.
  - vm_compute. reflexivity.
Defined.

(** C14: rego policies that pass were all asked: every module was parsed and
    evaluated on the attestor's JSON, the query names the deny rule of every
    package exactly once, and no deny rule gave a reason. *)
Theorem EvaluateRegoPolicy_sound {A : Type} `{AO : AttestorOps A} `{RL : RegoLib}
    (attestor : option A) (policies : list RegoPolicy) :
  EvaluateRegoPolicy attestor policies = nil_error → rego_passes attestor policies.
Proof. apply EvaluateRegoPolicy_ok. Qed.

Lemma EvaluateRegoPolicy_sound_witness :
  EvaluateRegoPolicy (Some (TA (toy_plain "n" "t" "r"))) [mkRegoPolicy "allow" "p1"; mkRegoPolicy "allow" "p2"] = nil_error ∧
  rego_passes (Some (TA (toy_plain "n" "t" "r"))) [mkRegoPolicy "allow" "p1"; mkRegoPolicy "allow" "p2"].
Proof. split; [vm_compute; reflexivity|]. apply EvaluateRegoPolicy_sound. vm_compute. reflexivity. Defined.

(** An attestation that the step expects and that the collection lacks, or has
    as null, is still handed to the rego policies; if they deny it, building the
    error dereferences the nil attestor, and the verification panics instead of
    rejecting the collection. *)
Theorem check_expected_missing_panic {A : Type} `{AO : AttestorOps A} `{RL : RegoLib}
    (s : Step) (found : gmap string (option A)) (acc : bool * list string) (expected : PolicyAttestation)
    (input : JsonValue) (q : rego_query) (rs : list (list rego_expression)) (reasons : list string) :
  found !! pa_Type expected = None ∨ found !! pa_Type expected = Some None →
  pa_RegoPolicies expected ≠ [] → json_Decode "null" = Ok input →
  range_res add_policy (mkRegoQuery "" ∅ []) (pa_RegoPolicies expected) = Ok q →
  rego_Eval input (rq_modules q) (rq_query q) = Ok rs →
  collect (λ expression, collect deny_reasons expression) rs = Ok reasons → reasons ≠ [] →
  check_expected s found acc expected = Panic nil_deref.
Proof.
  intros Hfound Hp Hin Hq Hrs Hreasons Hne.
  assert (EvaluateRegoPolicy None (pa_RegoPolicies expected) = Panic nil_deref) as He.
  { unfold EvaluateRegoPolicy. destruct (pa_RegoPolicies expected) as [|p0 ps]; [done|].
    cbn [json_Marshal_nilable mbind res_bind]. rw Hin; cbn [mbind res_bind].
    rw Hq; cbn [mbind res_bind]. rw Hrs; cbn [mbind res_bind]. rw Hreasons; cbn [mbind res_bind]. by destruct reasons. }
  unfold check_expected. destruct Hfound as [-> | ->]; cbn [mbind res_bind]; by rw He.
Qed.

Lemma check_expected_missing_panic_witness :
  check_expected toy_step (∅ : gmap string (option toyA)) (true, [])
    (mkPolicyAttestation "missing" [mkRegoPolicy "deny" "p"]) = Panic nil_deref.
Proof.
  eapply (check_expected_missing_panic (RL:=toy_rego) toy_step ∅ (true, [])
    (mkPolicyAttestation "missing" [mkRegoPolicy "deny" "p"]) "null").
  - left. reflexivity.
  - discriminate.
  - reflexivity.
  - reflexivity.
  - reflexivity.
  - vm_compute. reflexivity.
  - discriminate.
Defined.

(** The materials of a collection are compared with the artifacts of the first
    passed collection of each step they come from, and with no other: a mismatch
    ends the loop, so a matching collection behind a mismatching one does not
    help. *)
Theorem verifyCollectionArtifacts_first `{CL : CryptoLib} `{RO : RangeOrder} {A : Type} `{AO : AttestorOps A}
    (step : Step) (c : CollectionVerificationResult A) (results : gmap string (StepResult A)) :
  verifyCollectionArtifacts step c results = nil_error ↔
  ∀ from, from ∈ step_ArtifactsFrom step →
    ∃ c' rest, step_passed results from = c' :: rest ∧
      artifacts_agree (Collection_Materials (ce_Collection (cvr_Envelope c)))
        (Collection_Artifacts (ce_Collection (cvr_Envelope c'))).
Proof. apply verifyCollectionArtifacts_ok. Qed.

(** Collections of one attestation with materials or products. *)
Definition file_digest (d : string) : gmap string DigestSet := {["f" := {[mkDV SHA256 false false := d]}]}.
Definition toy_collection (t : toy_static) : CollectionVerificationResult toyA :=
  mkCVR [] [] (mkCollectionEnvelope (mkEnvelope "" "" []) (mkStatement "" [] "" "")
    (mkCollection "" [mkCollectionAttestation "t" (Some (TA t)) toy_time toy_time]) "") [] [].

(** The order of the collections of a step decides: with the same two
    collections, one of which has the material's digest, the artifacts verify when
    the matching collection comes first and fail when it comes second. *)
Theorem verifyCollectionArtifacts_order :
  let consumer := toy_collection (mkToy "n" "t" "r" (Some (file_digest "a")) None None None None false) in
  let good := toy_collection (mkToy "n" "t" "r" (Some (file_digest "a")) None None None None false) in
  let bad := toy_collection (mkToy "n" "t" "r" (Some (file_digest "b")) None None None None false) in
  let step := mkStep "test" [] [] ["build"] in
  let results passed : gmap string (StepResult toyA) := {["build" := mkStepResult "build" passed []]} in
  verifyCollectionArtifacts step consumer (results [good; bad]) = nil_error ∧
  is_ok (verifyCollectionArtifacts step consumer (results [bad; good])) = false.
Proof. split; vm_compute; reflexivity. Qed.

(** A statement with a predicate type other than a collection's is rejected and
    passed at once: when a functionary accepts its verifier, it stands among the
    rejected statements for its type and goes on as a passed collection. *)
Theorem checkFunctionaries_predicate_type `{CL : CryptoLib} `{GL : GlobLib} `{FL : FulcioLib} `{RO : RangeOrder}
    {A : Type} `{AO : AttestorOps A}
    (step : Step) (f : Functionary) (v : option Verifier) (st : CollectionVerificationResult A)
    (bundles : gmap string TrustBundle) :
  stmt_PredicateType (ce_Statement (cvr_Envelope st)) ≠ CollectionType →
  step_Functionaries step = [f] → cvr_Verifiers st = [v] → Functionary_Validate f v bundles = nil_error →
  ∃ st' reason, same_evidence st' st ∧
    checkFunctionaries step [st] bundles = Ok (mkStepResult (step_Name step) [st'] [mkRejected st reason]).
Proof.
  intros Hp Hf Hv Hok. eexists (mkCVR (cvr_Verifiers st) (cvr_ValidFunctionaries st ++ [v]) (cvr_Envelope st)
    (cvr_Errors st) (cvr_Warnings st)), _. split; [done|].
  unfold checkFunctionaries. cbn [range_res]. unfold check_statement. cbv zeta.
  unfold verifier_functionary_pairs. rw Hv Hf (bool_decide_eq_true_2 (0 < length [v])); [|by simpl; lia].
  cbn [mbind list_bind fmap list_fmap app range_res]. unfold check_functionary at 1. cbn [fst snd].
  rw Hok. unfold nil_error. cbn [mbind res_bind sr_Passed sr_Rejected sr_Step cvr_ValidFunctionaries]. rw bool_decide_eq_false_2; [|rw length_app; simpl; lia].
  rw bool_decide_eq_true_2; [|done]. by rw Hv.
Qed.

Lemma checkFunctionaries_predicate_type_witness :
  let st : CollectionVerificationResult toyA := mkCVR [Some (toy_ed "bob")] []
    (mkCollectionEnvelope (mkEnvelope "" "" []) (mkStatement "" [] "https://slsa.dev/provenance/v1" "") (mkCollection "" []) "") [] [] in
  ∃ st' reason, same_evidence st' st ∧
    checkFunctionaries toy_step [st] ∅ = Ok (mkStepResult "build" [st'] [mkRejected st reason]).
Proof.
  apply (checkFunctionaries_predicate_type toy_step toy_functionary (Some (toy_ed "bob"))); reflexivity || (intros H; discriminate H).
Defined.

(** The verifiers of a policy's public keys: when they can all be made, the map
    has exactly the key ids the keys declare, each id is the computed id of its
    verifier, and each verifier was made from a key of the policy with that id. *)
Theorem PublicKeyVerifiers_ids `{CL : CryptoLib} `{RO : RangeOrder} (st : kms_state) (p : Policy)
    (ko : KMSSetters) (m : gmap string Verifier) :
  PublicKeyVerifiers st p ko = Ok m →
  (∀ id v, m !! id = Some v → Verifier_KeyID v = Ok id ∧
     ∃ k key, PublicKeys p !! k = Some key ∧ pk_KeyID key = id ∧ key_verifier st ko key = Ok v) ∧
  (∀ k key, PublicKeys p !! k = Some key → is_Some (m !! pk_KeyID key)).
Proof.
  unfold PublicKeyVerifiers. intros Hm.
  set (P := λ (m : gmap string Verifier) (done : list (string * PolicyPublicKey)),
    (∀ id v, m !! id = Some v → Verifier_KeyID v = Ok id ∧
       ∃ kv, kv ∈ done ∧ pk_KeyID kv.2 = id ∧ key_verifier st ko kv.2 = Ok v) ∧
    (∀ kv, kv ∈ done → is_Some (m !! pk_KeyID kv.2))).
  assert (P m (range_map 0 (PublicKeys p))) as [H1 H2].
  { revert Hm. apply (range_res_ind _ P).
    - split; [by intros ? ? ?%lookup_empty_Some|by intros ? ?%not_elem_of_nil].
    - intros m0 l kv m1 [IH1 IH2] (v & Hv & (id & Hid & H)%res_bind_ok)%res_bind_ok _.
      case_bool_decide as Heq; [done|]. simplify_eq. split.
      + intros id v' [[<- <-]|[Hne Hl]]%lookup_insert_Some.
        * split; [done|]. exists kv. split; [|done]. apply elem_of_app. right. by left.
        * destruct (IH1 _ _ Hl) as (? & kv' & ? & ? & ?). split; [done|]. exists kv'.
          split; [|done]. apply elem_of_app. by left.
      + intros kv' [Hin| ->%list_elem_of_singleton]%elem_of_app.
        * destruct (decide (pk_KeyID kv.2 = pk_KeyID kv'.2)) as [->|Hne]; [by rw lookup_insert_eq|].
          rw lookup_insert_ne; [by apply IH2|done].
        * by rw lookup_insert_eq. }
  split.
  - intros id v (? & [k key] & Hkv%elem_of_range & ? & ?)%H1. split; [done|]. by exists k, key.
  - intros k key Hk. by apply (H2 (k, key)), elem_of_range.
Qed.

(** The keys of the policy of ToyWorld.v. *)
Definition toy_verifiers : gmap string (@Verifier toy_crypto) :=
  match PublicKeyVerifiers toy_kms toy_policy ∅ with Ok m => m | _ => ∅ end.

Lemma PublicKeyVerifiers_ids_witness :
  size toy_verifiers = 1 ∧
  (∀ k key, PublicKeys toy_policy !! k = Some key → is_Some (toy_verifiers !! pk_KeyID key)).
Proof.
  split; [vm_compute; reflexivity|].
  apply (PublicKeyVerifiers_ids toy_kms toy_policy ∅). vm_compute. reflexivity.
Defined.
