(* ===== verification/SourceTheorems.v ===== *)
(** The properties of the sources of collections (package source, with the
    client of package archivista), with witnesses on the instances of ToyWorld.v. *)
From S2P Require Import Prelude GoStrings Errors Crypto Keys Digest Timestamp Dsse Toy Intoto Registry Attestation Source Sched MultiSource VerifiedSource Archivista Constraints Environment Hooks Context PolicyStep KMS Policy PolicySound PolicySig PolicyVerify Verify ToyWorld.

(** * The memory source *)

Section loads.
Context `{RO : RangeOrder} {A : Type} `{AO : AttestorOps A} `{SJ : StatementJson} `{CJ : CollectionJson}.
Variable fs : factory_state A.

(** A caller that loads envelopes under their references and goes on when a load
    fails. *)
Definition try_load (s : MemorySource A) (l : string * Envelope) : MemorySource A :=
  match LoadEnvelope fs s l.1 l.2 with Ok s' => s' | _ => s end.
Definition load_all (loads : list (string * Envelope)) : MemorySource A :=
  foldl try_load NewMemorySource loads.

(** The collection an envelope holds, if it can be loaded. *)
Definition loadable (reference : string) (env : Envelope) : option (CollectionEnvelope A) :=
  match envelopeToCollectionEnvelope fs reference env with
  | Ok ce => match attestationIndex (coll_Attestations (ce_Collection ce)) with Ok _ => Some ce | _ => None end
  | _ => None
  end.

(** The abstract source: a reference stands for the first loadable envelope that
    was loaded under it. *)
Fixpoint first_loaded (loads : list (string * Envelope)) (reference : string) : option (CollectionEnvelope A) :=
  match loads with
  | [] => None
  | (r, env) :: loads =>
      match (if bool_decide (r = reference) then loadable reference env else None) with
      | Some ce => Some ce
      | None => first_loaded loads reference
      end
  end.

Lemma try_load_wf s l : memory_wf s → memory_wf (try_load s l).
Proof. unfold try_load. intros Hwf. destruct (LoadEnvelope _ _ _ _) eqn:E; [by eapply LoadEnvelope_wf|done..]. Qed.

Lemma load_all_wf loads : memory_wf (load_all loads).
Proof.
  unfold load_all. pose proof (NewMemorySource_wf (A := A)) as Hwf. revert Hwf. generalize (NewMemorySource (A := A)).
  induction loads as [|l loads IH]; intros s Hwf; [done|]. by apply IH, try_load_wf.
Qed.

Lemma try_load_lookup s r env ref :
  envelopesByReference (try_load s (r, env)) !! ref =
  match envelopesByReference s !! ref with
  | Some ce => Some ce
  | None => if bool_decide (r = ref) then loadable ref env else None
  end.
Proof.
  unfold try_load, LoadEnvelope, loadable. cbn [fst snd].
  case_bool_decide as Hr; [subst r|].
  - destruct (envelopesByReference s !! ref) eqn:Hl; [by rw Hl|].
    destruct (envelopeToCollectionEnvelope fs ref env) as [ce| |]; cbn [mbind res_bind]; [|by rw Hl..].
    destruct (attestationIndex _); cbn [mbind res_bind envelopesByReference]; [by rw lookup_insert_eq|by rw Hl..].
  - assert (∀ o : option (CollectionEnvelope A), match o with Some ce => Some ce | None => None end = o) as Ho by by intros [].
    rw Ho. destruct (envelopesByReference s !! r); [done|].
    destruct (envelopeToCollectionEnvelope fs r env) as [ce| |]; cbn [mbind res_bind]; [|done..].
    destruct (attestationIndex _); cbn [mbind res_bind envelopesByReference]; [by rw lookup_insert_ne|done..].
Qed.

Lemma load_all_lookup loads ref : envelopesByReference (load_all loads) !! ref = first_loaded loads ref.
Proof.
  unfold load_all.
  assert (∀ s, envelopesByReference (foldl try_load s loads) !! ref =
    match envelopesByReference s !! ref with Some ce => Some ce | None => first_loaded loads ref end) as Hg.
  { induction loads as [|[r env] loads IH]; intros s; cbn [foldl first_loaded]; [by destruct (_ !! _)|].
    rw IH try_load_lookup. by destruct (envelopesByReference s !! ref). }
  by rw Hg lookup_empty.
Qed.
End loads.

(** C8: a search of a memory source, after any sequence of loads, finds exactly the
    envelopes that match the query, each once: those whose collection has the
    name, whose subjects have one of the digests, and whose attestations have all
    the types, where each reference stands for the first loadable envelope loaded
    under it. The source is not changed. *)
Theorem MemorySource_Search_spec `{RO : RangeOrder} {A : Type} `{AO : AttestorOps A} `{SJ : StatementJson}
    `{CJ : CollectionJson} (fs : factory_state A) (loads : list (string * Envelope))
    (name : string) (subjectDigests attestations : list string) :
  ∃ found, MemorySource_Search (load_all fs loads) name subjectDigests attestations = (load_all fs loads, Ok found) ∧
    NoDup (ce_Reference <$> found) ∧
    ∀ ce, ce ∈ found ↔ (∃ ref, first_loaded fs loads ref = Some ce) ∧ matches_query name subjectDigests attestations ce.
Proof.
  pose proof (load_all_wf fs loads) as Hwf. eexists. split; [done|].
  split; [by apply MemorySource_Search_NoDup|]. intros ce. rw (MemorySource_Search_elem _ _ _ _ _ Hwf).
  by setoid_rewrite load_all_lookup.
Qed.

(** An envelope whose collection has a null attestation cannot be refused: it
    decodes without error, and loading it panics. *)
Theorem LoadEnvelope_null_attestation `{RO : RangeOrder} {A : Type} `{AO : AttestorOps A} `{SJ : StatementJson}
    `{CJ : CollectionJson} (fs : factory_state A) (s : MemorySource A) (reference : string) (env : Envelope)
    (ce : CollectionEnvelope A) (l1 l2 : list (CollectionAttestation A)) (ca : CollectionAttestation A) :
  envelopesByReference s !! reference = None → envelopeToCollectionEnvelope fs reference env = Ok ce →
  coll_Attestations (ce_Collection ce) = l1 ++ ca :: l2 →
  (∀ c, c ∈ l1 → is_Some (ca_Attestation c)) → ca_Attestation ca = None →
  ∃ w, LoadEnvelope fs s reference env = Panic w.
Proof.
  intros Hnew Hce Hl Hl1 Hca. unfold LoadEnvelope. rw Hnew Hce. cbn [mbind res_bind]. rw Hl.
  unfold attestationIndex. rw range_res_app. eexists.
  assert (∀ index, ∃ index', range_res (λ (index : gset string) att, match ca_Attestation att with
    | None => Panic "runtime error: invalid memory address or nil pointer dereference"
    | Some attestor => Ok (index ∪ {[Attestor_Type attestor]}) end) index l1 = Ok index') as Hok.
  { clear -Hl1. induction l1 as [|c l1 IH]; intros index; [by exists index|].
    destruct (Hl1 c) as [a Ha]; [left|]. cbn [range_res]. rw Ha. cbn [mbind res_bind]. apply IH. intros c' Hc'.
    apply Hl1. by right. }
  destruct (Hok ∅) as [index' Hi]. rw Hi. cbn [mbind res_bind range_res]. by rw Hca.
Qed.

(** The collection of the statement "N". *)
Definition toy_null_envelope : CollectionEnvelope toyA :=
  mkCollectionEnvelope (toy_signed "bob" "N") (toy_statement "N")
    (mkCollection "build" [mkCollectionAttestation "t" None toy_time toy_time]) "ref".

Lemma LoadEnvelope_null_attestation_witness :
  ∃ w, LoadEnvelope toy_fs NewMemorySource "ref" (toy_signed "bob" "N") = Panic w.
Proof.
  apply (LoadEnvelope_null_attestation toy_fs NewMemorySource "ref" (toy_signed "bob" "N") toy_null_envelope []
    [] (mkCollectionAttestation "t" None toy_time toy_time)).
  - reflexivity.
  - vm_compute. reflexivity.
  - reflexivity.
  - intros c Hc. by apply not_elem_of_nil in Hc.
  - reflexivity.
Defined.

(** * Several sources *)

(** C10: a search of several sources does not depend on the schedule: when every
    source answers, the result has the answers of all of them, each as often as it
    was given, and when one fails, the error of some source is returned, whatever
    the order in which the goroutines finish. The sources change as if they had
    been searched one after the other. *)
Theorem MultiSource_Search_spec `{SC : Scheduler} {A S : Type} `{SS : Sourcer A S} (s : MultiSource S)
    (name : string) (subjectDigests attestations : list string) :
  let answers := (λ src, Search src name subjectDigests attestations) <$> ms_sources s in
  let out := MultiSource_Search s name subjectDigests attestations in
  Forall no_panic answers.*2 →
  out.1 = NewMultiSource answers.*1 ∧
  ((∀ rss, answers.*2 = Ok <$> rss → ∃ rs, out.2 = Ok rs ∧ rs ≡ₚ concat rss) ∧
   ((∃ e, Err e ∈ answers.*2) → ∃ e, out.2 = Err e ∧ Err e ∈ answers.*2)).
Proof.
  intros answers out Hnp. split; [done|].
  assert (Forall no_panic (arrivals answers.*2)) as Hnp' by by rw arrivals_perm.
  unfold out, MultiSource_Search. cbv zeta. fold answers. cbn [fst snd].
  rw (receive_all _ _ Hnp'). cbn [mbind res_bind col_errors col_results app]. split.
  - intros rss Hrss. assert (omap err_of (arrivals answers.*2) = []) as He.
    { apply omap_err_of_nil; [done|]. intros o. rw arrivals_perm Hrss. by intros (? & -> & _)%list_elem_of_fmap. }
    rw He. eexists. split; [done|]. unfold ok_results. rw arrivals_perm Hrss. clear.
    induction rss as [|rs rss IH]; [done|]. rw fmap_cons bind_cons concat_cons. by rw IH.
  - intros [e He]. destruct (omap err_of (arrivals answers.*2)) as [|e' es] eqn:Hes.
    + pose proof (proj1 (omap_err_of_nil _ Hnp') Hes (Err e)) as Hc. rw arrivals_perm in Hc. by specialize (Hc He).
    + exists e'. split; [done|]. rw -(arrivals_perm answers.*2). apply elem_of_errors. rw Hes. left.
Qed.

(** What one source answers. *)
Definition envs_of_source (s : MemorySource toyA) : list (CollectionEnvelope toyA) :=
  match (Search s "build" ["d1"] ["t"]).2 with Ok rs => rs | _ => [] end.

(** Two copies of a source, searched in another order. *)
Lemma MultiSource_Search_spec_witness :
  let s := NewMultiSource [toy_source; NewMemorySource; toy_source] in
  ∃ rs, (@MultiSource_Search (λ _, 1) _ _ _ s "build" ["d1"] ["t"]).2 = Ok rs ∧ length rs = 2.
Proof.
  assert (let s := NewMultiSource [toy_source; NewMemorySource; toy_source] in
    ∃ rs, (@MultiSource_Search (λ _, 1) _ _ _ s "build" ["d1"] ["t"]).2 = Ok rs ∧
      rs ≡ₚ concat [envs_of_source toy_source; []; envs_of_source toy_source]) as (rs & Hrs & Hp).
  { apply (@MultiSource_Search_spec (λ _, 1) toyA _ _ (NewMultiSource [toy_source; NewMemorySource; toy_source]) "build" ["d1"] ["t"]).
    - apply Forall_forall. intros o Ho w ->. vm_compute in Ho. repeat (apply elem_of_cons in Ho as [Ho|Ho]; [discriminate Ho|]).
      by apply not_elem_of_nil in Ho.
    - vm_compute. reflexivity. }
  exists rs. split; [exact Hrs|]. apply Permutation_length in Hp. rewrite Hp. vm_compute. reflexivity.
Defined.

(** * The verified source *)

(** C9: a verified search answers with the envelopes of the underlying source in
    order, and each result is justified: it has a verifier exactly when it has no
    error, and each verifier accepted a signature over the content of this very
    envelope, being one the caller passed or the certificate of the signature that
    chains to the caller's roots. *)
Theorem VerifiedSource_Search_sound `{CL : CryptoLib} `{TL : !TspLib} {A S : Type} `{SS : Sourcer A S}
    (s s' : VerifiedSource S) (name : string) (subjectDigests attestations : list string)
    (rs : list (CollectionVerificationResult A)) :
  VerifiedSource_Search s name subjectDigests attestations = (s', Ok rs) →
  (Search (vs_source s) name subjectDigests attestations).2 = Ok (cvr_Envelope <$> rs) ∧
  Forall (result_justified (vs_verifyOpts s)) rs.
Proof. intros (envs & He & <- & HF)%VerifiedSource_Search_inv. done. Qed.

Definition toy_bob_source : VerifiedSource (MemorySource toyA) :=
  NewVerifiedSource (λ _, 1%Z) toy_source [Dsse.VerifyWithVerifiers [Some (toy_ed "bob")]].
Definition toy_found := VerifiedSource_Search toy_bob_source "build" ["d1"] ["t"].
Definition toy_found_results : list (CollectionVerificationResult toyA) :=
  match toy_found.2 with Ok rs => rs | _ => [] end.

Lemma VerifiedSource_Search_sound_witness :
  length toy_found_results = 1 ∧
  Forall (result_justified [Dsse.VerifyWithVerifiers [Some (toy_ed "bob")]]) toy_found_results.
Proof.
  split; [vm_compute; reflexivity|].
  apply (VerifiedSource_Search_sound toy_bob_source toy_found.1 "build" ["d1"] ["t"] toy_found_results).
  vm_cast_no_check (eq_refl toy_found).
Defined.

(** * Archivista *)

(** The server does not answer with the gitoids a query excludes. *)
Definition respects_exclusion (AR : ArchivistaApi) : Prop :=
  ∀ url vars opts gitoids g, api_GraphQlQuery url vars opts = Ok gitoids →
    g ∈ gitoids → g ∉ sv_ExcludeGitoids vars.

Section archivista.
Context {A : Type} `{AO : AttestorOps A} `{SJ : StatementJson} `{CJ : CollectionJson} `{AR : ArchivistaApi}.
Variable fs : factory_state A.
Implicit Types s : ArchivistaSource.

(** One search, successful or not. *)
Definition searched s s' : Prop := ∃ name ds atts r, ArchivistaSource_Search fs s name ds atts = (s', r).

(** A search of [s] comes to download the gitoid: the server answers with it, and gives
    envelopes for it and for the gitoids before it, of which those before it decode. *)
Definition downloads s (name : string) (ds atts : list string) (g : string) : Prop :=
  ∃ pre post, SearchGitoids (as_client s) (mkSearchGitoidVariables ds name atts (seenGitoids s)) = Ok (pre ++ g :: post) ∧
    (∀ g', g' ∈ pre → ∃ env ce, Client_Download (as_client s) g' = Ok env ∧ envelopeToCollectionEnvelope fs g' env = Ok ce) ∧
    is_ok (Client_Download (as_client s) g) = true.

Lemma download_all_all client seen envs pre g post seen' r :
  (∀ g', g' ∈ pre → ∃ env ce, Client_Download client g' = Ok env ∧ envelopeToCollectionEnvelope fs g' env = Ok ce) →
  is_ok (Client_Download client g) = true →
  download_all fs client seen envs (pre ++ g :: post) = (seen', r) → g ∈ seen'.
Proof.
  intros Hpre Hg. revert seen envs. induction pre as [|g0 pre IH]; intros seen envs; cbn [app download_all].
  - destruct (Client_Download client g) as [env| |]; [|done..].
    destruct (envelopeToCollectionEnvelope fs g env) as [ce| |].
    + intros (gs & rest & _ & -> & _)%download_all_seen. set_solver.
    + intros [= <- _]. set_solver.
    + intros [= <- _]. set_solver.
  - destruct (Hpre g0) as (env & ce & -> & ->); [left|]. apply IH. intros g' H. apply Hpre. by right.
Qed.

Lemma downloads_seen s name ds atts s' r g :
  ArchivistaSource_Search fs s name ds atts = (s', r) → downloads s name ds atts g → g ∈ seenGitoids s'.
Proof.
  unfold ArchivistaSource_Search. intros H (pre & post & Hq & Hpre & Hg). rw Hq in H.
  destruct (download_all _ _ _ _ _) as [seen res] eqn:Hd. injection H as <- _.
  by apply (download_all_all _ _ _ _ _ _ _ _ Hpre Hg) in Hd.
Qed.

Lemma searched_seen s s' : rtc searched s s' → seenGitoids s ⊆ seenGitoids s'.
Proof.
  induction 1 as [|s s1 s2 (name & ds & atts & r & H) _ IH]; [done|].
  apply ArchivistaSource_Search_inv in H as (_ & [[Hs _]|(gitoids & gs & rest & _ & _ & Hs & _)]).
  - by rw -Hs.
  - etrans; [|exact IH]. rw Hs. intros g Hg. apply elem_of_app. by left.
Qed.

Lemma answer_not_seen s name ds atts s' envs ce :
  respects_exclusion AR → ArchivistaSource_Search fs s name ds atts = (s', Ok envs) → ce ∈ envs →
  ce_Reference ce ∉ seenGitoids s.
Proof.
  intros Hlaw H Hce. apply ArchivistaSource_Search_inv in H as (_ & [[_ ?]|(gitoids & gs & rest & Hg & _ & _ & He)]); [done|].
  destruct (He _ eq_refl) as [_ Hrefs]. unfold SearchGitoids in Hg. apply res_bind_ok in Hg as (cl & _ & Hg).
  apply (Hlaw _ _ _ _ (ce_Reference ce) Hg). rw -Hrefs. by apply list_elem_of_fmap_2.
Qed.
End archivista.

(** C17: archivista never answers twice. Under a server that respects the exclusion, a search
    after any number of other searches returns no envelope that an earlier search returned,
    and none whose gitoid an earlier search downloaded, be it the first or the last of the
    answer. This holds also when that search failed, so what it downloaded is lost to every
    later one. *)
Theorem ArchivistaSource_Search_excludes {A : Type} `{AO : AttestorOps A} `{SJ : StatementJson} `{CJ : CollectionJson}
    `{AR : ArchivistaApi} (fs : factory_state A) (s s1 s2 s3 : ArchivistaSource) (n1 n2 : string)
    (ds1 ds2 as1 as2 : list string) (r1 : res (list (CollectionEnvelope A))) (envs : list (CollectionEnvelope A)) :
  respects_exclusion AR →
  ArchivistaSource_Search fs s n1 ds1 as1 = (s1, r1) → rtc (searched fs) s1 s2 →
  ArchivistaSource_Search fs s2 n2 ds2 as2 = (s3, Ok envs) →
  ∀ ce, ce ∈ envs →
    ce_Reference ce ∉ seenGitoids s ∧ ¬ downloads fs s n1 ds1 as1 (ce_Reference ce) ∧
    ∀ envs1 ce1, r1 = Ok envs1 → ce1 ∈ envs1 → ce_Reference ce ≠ ce_Reference ce1.
Proof.
  intros Hlaw H1 Hs H2 ce Hce. pose proof (answer_not_seen fs _ _ _ _ _ _ ce Hlaw H2 Hce) as Hno.
  pose proof (searched_seen fs _ _ Hs) as Hsub. split; [|split].
  - assert (rtc (searched fs) s s1) as Hs1%searched_seen by (apply rtc_once; by do 4 eexists).
    intros Hin. apply Hno, Hsub, Hs1, Hin.
  - intros Hd. apply Hno, Hsub. by eapply downloads_seen.
  - intros envs1 ce1 -> Hce1 Heq. apply Hno, Hsub. rw Heq.
    apply ArchivistaSource_Search_inv in H1 as (_ & [[_ ?]|(gitoids & gs & rest & _ & Hg & -> & He)]); [done|].
    destruct (He _ eq_refl) as [-> Hrefs]. rw app_nil_r in Hg. subst gs. rw -Hrefs. apply elem_of_app. right.
    by apply list_elem_of_fmap_2.
Qed.

(** A server with the gitoids "broken", whose envelope does not decode, and "good". *)
#[local] Instance toy_api : ArchivistaApi := {|
  api_Download url g opts :=
    Ok (if bool_decide (g = "broken") then toy_signed "bob" "garbage" else toy_signed "bob" "S");
  api_GraphQlQuery url vars opts := Ok (filter (λ g, g ∉ sv_ExcludeGitoids vars) ["broken"; "good"]);
  api_Store url e opts := Ok "gitoid";
|}.
Definition toy_archivista : ArchivistaSource := NewArchvistSource (Some (NewClient "http://archivista" [])).
Definition toy_search1 := ArchivistaSource_Search toy_fs toy_archivista "build" ["d1"] ["t"].
Definition toy_search2 := ArchivistaSource_Search toy_fs toy_search1.1 "build" ["d1"] ["t"].
Definition toy_search2_envs : list (CollectionEnvelope toyA) := match toy_search2.2 with Ok l => l | _ => [] end.

Lemma ArchivistaSource_Search_excludes_witness :
  is_ok toy_search1.2 = false ∧ ce_Reference <$> toy_search2_envs = ["good"] ∧
  ∀ ce, ce ∈ toy_search2_envs → ce_Reference ce ∉ seenGitoids toy_archivista ∧
    ¬ downloads toy_fs toy_archivista "build" ["d1"] ["t"] (ce_Reference ce) ∧
    ∀ envs1 ce1, toy_search1.2 = Ok envs1 → ce1 ∈ envs1 → ce_Reference ce ≠ ce_Reference ce1.
Proof.
  split; [vm_compute; reflexivity|]. split; [vm_compute; reflexivity|].
  apply (ArchivistaSource_Search_excludes toy_fs toy_archivista toy_search1.1 toy_search1.1 toy_search2.1 "build" "build" ["d1"] ["d1"]
    ["t"] ["t"] toy_search1.2 toy_search2_envs).
  - intros url vars opts gitoids g [= <-] Hg. apply list_elem_of_filter in Hg. apply Hg.
  - vm_compute. reflexivity.
  - apply rtc_refl.
  - vm_compute. reflexivity.
Defined.
