(* ===== verification/RunTheorems.v ===== *)
(** The properties of running attestors and signing the result (attestation
    contexts, run.go), with witnesses on the instances of ToyWorld.v. *)
From S2P Require Import Prelude GoStrings Errors Crypto Keys Digest Timestamp Dsse Toy Intoto Registry Attestation Source Sched Constraints Environment Hooks Context ContextRun VerifiedSource PolicyStep KMS Policy PolicySound PolicySig PolicyVerify Run Verify ToyWorld.

Lemma stage_steps_ready {A : Type} (attestors : list A) : stage_steps (Ready <$> attestors) = 5 * length attestors.
Proof.
  induction attestors as [|a l IH]; [done|]. rw fmap_cons.
  change (stage_steps (Ready a :: (Ready <$> l))) with (5 + stage_steps (Ready <$> l)). rw IH. simpl. lia.
Qed.

(** A stage ends, however its goroutines interleave: no run of a stage takes
    more than five steps per attestor, and when no attestor panics, running it
    under any scheduler ends with every goroutine done, in a state that the
    interleaving semantics reaches. *)
Theorem stage_terminates `{RO : RangeOrder} {A : Type} `{AO : AttestorOps A} `{RA : !Runnable A}
    `{SC : Scheduler} `{CK : Clock} (ctx : AttestationContext A) (attestors : list A) (k : nat) :
  Forall safe_attestor attestors →
  (∀ n c, nsteps stage_step n (ctx, Ready <$> attestors) c → n ≤ 5 * length attestors) ∧
  ∃ ctx', run_stage k ctx attestors = Ok ctx' ∧ rtc stage_step (ctx, Ready <$> attestors) (ctx', []).
Proof.
  intros Hs. split.
  - intros n c Hn%stage_run_bounded. rw -(stage_steps_ready attestors). cbn [snd] in Hn. lia.
  - destruct (run_stage_total k ctx attestors Hs) as [ctx' Hr]. exists ctx'. split; [done|].
    by eapply run_stage_rtc.
Qed.

(** Attestors of three stages, one of which fails. *)
Definition toy_digest (d : string) : DigestSet := {[mkDV SHA256 false false := d]}.
Definition toy_producer (name d : string) : toyA :=
  TA (mkToy name name ProductRunType None (Some {["f" := mkProduct "text/plain" (toy_digest d)]})
        (Some {["artifact" := toy_digest d]}) None None false).
Definition toy_failing : toyA := TA (mkToy "bad" "bad" ExecuteRunType None None None None None true).
Definition toy_attestors : list toyA := [toy_producer "p" "a"; TA (toy_plain "m" "m" MaterialRunType); toy_failing].
Definition toy_ctx (attestors : list toyA) : AttestationContext toyA :=
  mkContext "background" attestors "/" [] [] [] [] ∅ ∅ "step" (NewCapture []) [] zero_hooks.

(** Scheduled from the back. *)
Definition lifo : Scheduler := λ k, k.
Lemma stage_terminates_witness :
  ∃ ctx', run_stage (SC:=lifo) 0 (toy_ctx []) toy_attestors = Ok ctx' ∧
    rtc stage_step (toy_ctx [], Ready <$> toy_attestors) (ctx', []).
Proof.
  apply (stage_terminates (SC:=lifo) (toy_ctx []) toy_attestors 0).
  repeat (constructor; [intros ctx w; discriminate|]). constructor.
Defined.

(** A stage runs every attestor exactly once, whatever the interleaving: in any
    run that ends, what has completed is what had completed before followed by one
    entry per attestor, with what its [Attest] made of it and returned; the
    materials and products of those that did not fail are in the context, and
    nothing else was added to it. *)
Theorem stage_runs_all `{RO : RangeOrder} {A : Type} `{AO : AttestorOps A} `{RA : !Runnable A}
    (ctx ctx' : AttestationContext A) (attestors : list A) :
  rtc stage_step (ctx, Ready <$> attestors) (ctx', []) → stage_done attestors ctx ctx'.
Proof. apply stage_run_done. Qed.

Definition toy_stage : AttestationContext toyA :=
  match run_stage (SC:=lifo) 0 (toy_ctx []) toy_attestors with Ok ctx => ctx | _ => toy_ctx [] end.
Lemma stage_runs_all_witness :
  length (ctx_completed toy_stage) = 3 ∧ stage_done toy_attestors (toy_ctx []) toy_stage.
Proof.
  split; [vm_compute; reflexivity|]. apply stage_runs_all.
  apply (run_stage_rtc (SC:=lifo) 0). vm_cast_no_check (eq_refl (Ok toy_stage)).
Defined.

(** C11: [RunAttestors] runs the stages in order: if it ends without an error, what
    has completed is, stage by stage in the declared order, one entry per attestor
    of that run type; attestors of the verify type run alone or not at all. *)
Theorem RunAttestors_stages `{RO : RangeOrder} {A : Type} `{AO : AttestorOps A} `{RA : !Runnable A}
    `{SC : Scheduler} `{CK : Clock} (ctx ctx' : AttestationContext A) :
  RunAttestors ctx = (ctx', nil_error) →
  ∃ order news, ctx_completed ctx' = ctx_completed ctx ++ concat news ∧
    stages_completed (ctx_attestors ctx) order news ∧
    ((order = runTypeOrder ∧ ∀ a, a ∈ ctx_attestors ctx → Attestor_RunType a ≠ VerifyRunType) ∨
     (order = verifyTypeOrder ∧ ∀ a, a ∈ ctx_attestors ctx → Attestor_RunType a = VerifyRunType)).
Proof. apply RunAttestors_completed. Qed.

Definition toy_run : AttestationContext toyA * err := RunAttestors (SC:=lifo) (toy_ctx toy_attestors).
Lemma RunAttestors_stages_witness :
  (λ c, Attestor_Name (comp_Attestor c)) <$> ctx_completed toy_run.1 = ["m"; "bad"; "p"] ∧
  ∃ order news, ctx_completed toy_run.1 = [] ++ concat news ∧ stages_completed toy_attestors order news ∧ order = runTypeOrder.
Proof.
  split; [vm_compute; reflexivity|].
  destruct (RunAttestors_stages (SC:=lifo) (toy_ctx toy_attestors) toy_run.1) as (order & news & H1 & H2 & H3).
  - vm_cast_no_check (eq_refl toy_run).
  - exists order, news. split; [exact H1|]. split; [exact H2|]. destruct H3 as [[H3 _]|[_ H3]]; [exact H3|].
    specialize (H3 toy_failing). discriminate H3. right. right. left.
Defined.

(** Attestors with a run type that is none of the known ones are dropped without
    a word: the run succeeds and changes nothing. *)
Theorem RunAttestors_unknown_run_types `{RO : RangeOrder} {A : Type} `{AO : AttestorOps A} `{RA : !Runnable A}
    `{SC : Scheduler} `{CK : Clock} (ctx : AttestationContext A) :
  (∀ a, a ∈ ctx_attestors ctx → Attestor_RunType a ≠ "" ∧ Attestor_RunType a ∉ runTypeOrder ∧
     Attestor_RunType a ≠ VerifyRunType) →
  RunAttestors ctx = (ctx, nil_error).
Proof.
  intros Hrt. unfold RunAttestors.
  destruct (group_attestors_total (ctx_attestors ctx)) as [groups Hg]; [by intros a [? _]%Hrt|]. rw Hg.
  apply group_attestors_spec in Hg as (Hl & Hdom & _). unfold stage_order.
  destruct (groups !! VerifyRunType) as [l|] eqn:Hv.
  { destruct (proj1 (Hdom VerifyRunType)) as (a & Ha & Hr); [by eexists|]. by destruct (Hrt a Ha) as (_ & _ & ?). }
  assert (∀ stage, stage ∈ runTypeOrder → default [] (groups !! stage) = []) as Hempty.
  { intros stage Hst. destruct (groups !! stage) eqn:Hs; [|done].
    destruct (proj1 (Hdom stage)) as (a & Ha & <-); [by eexists|]. by destruct (Hrt a Ha) as (_ & ? & _). }
  clear -Hempty. generalize 0 as k. induction runTypeOrder as [|stage order IH]; intros k; [done|].
  cbn [run_stages]. cbv zeta. rw (Hempty stage); [|left]. unfold declare_phase_of, run_stage. cbn.
  case_bool_decide; cbn; apply IH; intros s Hs; apply Hempty; by right.
Qed.

Lemma RunAttestors_unknown_run_types_witness :
  RunAttestors (toy_ctx [TA (toy_plain "typo" "typo" "excute")]) = (toy_ctx [TA (toy_plain "typo" "typo" "excute")], nil_error).
Proof.
  apply RunAttestors_unknown_run_types. intros a [= ->]%list_elem_of_singleton.
  split; [discriminate|]. split; [|discriminate]. apply (bool_decide_eq_true_1 _). vm_compute. reflexivity.
Defined.

(** * Run *)

(** C4: what [Run] signs is the collection of what it ran: when it returns no error,
    the last result is the collection of the attestors that completed without an
    error and do not export themselves; its
    envelope holds the in-toto statement with that collection as the predicate and
    the collection's subjects, and verifies under the signers' own verifiers at any
    threshold up to their number. Unless errors are ignored, no attestor failed. *)
Theorem run_signed_collection `{CL : CryptoLib} `{TL : !TspLib} `{SL : !SignatureLaws} `{GL : GlobLib} `{RO : RangeOrder}
    `{SC : Scheduler} `{CK : Clock} {A : Type} `{AO : AttestorOps A} `{RA : !Runnable A} `{SJ : StatementJson}
    `{CJ : CollectionJson} (getwd : res string) (rnd : nat → nat → bytes) (stepName : string) (opts : list RunOption)
    (ss : list Signer) (vs : list Verifier) (results : list RunResult) (now k : Z) :
  let ro := run_options stepName opts in
  run getwd rnd stepName opts = (results, nil_error) →
  ro_insecure ro = false → ro_signers ro = Some <$> ss →
  Forall (λ s, key_signer s = true) ss → Forall2 (λ s v, Signer_Verifier s = Ok v) ss vs →
  (0 < k ≤ Z.of_nat (length ss))%Z →
  ∃ ctx ctx' exported coll env data stmt text cvs,
    NewContext getwd stepName (ro_attestors ro) (ro_attestationOpts ro) = Ok ctx ∧
    RunAttestors ctx = (ctx', nil_error) ∧
    results = exported ++ [mkRunResult coll env ""] ∧
    coll_Name coll = ro_stepName ro ∧
    (∀ ca, ca ∈ coll_Attestations coll ↔
       ∃ c, c ∈ ctx_completed ctx' ∧ collected_attestor c ∧ ca = NewCollectionAttestation c) ∧
    (ro_ignoreErrors ro = false → ∀ c, c ∈ ctx_completed ctx' → comp_Error c = None) ∧
    Collection_Marshal coll = Ok data ∧ NewStatement CollectionType data (Collection_Subjects coll) = Ok stmt ∧
    json_Marshal_Statement stmt = Ok text ∧ Payload env = text ∧ PayloadType env = IntotoPayloadType ∧
    Envelope_Verify env now [Dsse.VerifyWithVerifiers (Some <$> vs); VerifyWithThreshold k] = Ok (cvs, None).
Proof.
  intros ro (ctx & ctx' & exported & errs & coll & env & _ & Hctx & Hrun & Hexp & Hign & Hcoll & Henv & Hres)%run_inv
    Hins Hss Hkey Hvs Hk.
  fold ro in Hctx, Hexp, Hign, Hcoll, Henv, Hres. rw Hins in Henv.
  apply createAndSignEnvelope_inv in Henv as (data & stmt & text & Hd & Hst & Htext & Hsign).
  unfold sign_opts in Hsign. rw Hss in Hsign.
  destruct (Sign_key_verifies _ _ _ _ ss vs env now k Hkey Hvs Hsign Hk) as (Hp & Ht & cvs & Hv & _).
  exists ctx, ctx', exported, coll, env, data, stmt, text, cvs. do 3 (split; [done|]).
  split; [by rw Hcoll|]. split; [intros ca; rw Hcoll; apply elem_of_collection|]. split; [|done].
  intros Hno c Hc. destruct Hign as [?| ->]; [congruence|]. apply export_loop_errs in Hexp.
  destruct (comp_Error c) eqn:He; [|done]. exfalso. cbn [length] in Hexp.
  assert (c ∈ filter (λ c, comp_Error c ≠ None) (ctx_completed ctx')) as Hin
    by (apply list_elem_of_filter; split; [by rw He|done]).
  destruct (filter _ _); [by apply not_elem_of_nil in Hin|]. simpl in Hexp. lia.
Qed.

Definition toy_run_opts : list (@RunOption toy_crypto toyA) :=
  [RunWithAttestors [toy_producer "p" "a"; TA (toy_plain "m" "m" MaterialRunType)]; RunWithSigners [Some (toy_signer "alice")]].
Definition toy_signing := run (Ok "/") (λ _ _, "") "step" toy_run_opts.

Lemma run_signed_collection_witness :
  ∃ exported coll env cvs,
    toy_signing.1 = exported ++ [mkRunResult coll env ""] ∧ coll_Name coll = "step" ∧
    Envelope_Verify env 0 [Dsse.VerifyWithVerifiers [Some (toy_ed "alice")]; VerifyWithThreshold 1] = Ok (cvs, None).
Proof.
  destruct (run_signed_collection (Ok "/") (λ _ _, "") "step" toy_run_opts [toy_signer "alice"] [toy_ed "alice"]
    toy_signing.1 0 1) as (ctx & ctx' & exported & coll & env & data & stmt & text & cvs & _ & _ & H1 & H2 & _ & _ & _ & _ & _ & _ & _ & H3).
  - vm_cast_no_check (eq_refl toy_signing).
  - reflexivity.
  - reflexivity.
  - repeat constructor.
  - repeat constructor.
  - simpl. lia.
  - exists exported, coll, env, cvs. split; [exact H1|]. split; [exact H2|exact H3].
Defined.
