(* ===== verification/RoundTrip.v ===== *)
(** From runs to a verification: the collection that [Run] signs is, in its types and the
    contents of its attestors, the collection that a source loads, and [Verify] accepts it
    under a signed policy that expects what was run; with the laws this asks of the JSON
    encodings, for texts in UTF-8, and an instance of them. *)
From S2P Require Import Prelude GoStrings Errors Crypto Keys Digest Timestamp Dsse Toy Intoto Registry Attestation Source Sched Constraints Environment Hooks Context ContextRun VerifiedSource PolicyStep KMS Policy PolicySound PolicySig PolicyVerify Run Verify ToyWorld SourceTheorems GoText.

(** What encoding/json promises about the encodings. A text that it has written comes back
    unchanged out of a raw message; strings come back when they are valid UTF-8, since bytes
    that are not are replaced. *)
Class JsonLaws {A : Type} `{AO : AttestorOps A} `{SJ : StatementJson} `{CJ : CollectionJson} := {
  json_output : bytes → Prop;
  attestor_output a text : json_Marshal_Attestor a = Ok text → json_output text;
  collection_output name raws text : json_Marshal_Collection name raws = Ok text → json_output text;
  proposed_output p text : json_Marshal_proposed p = Ok text → json_output text;
  statement_back stmt text :
    valid_utf8 (stmt_Type stmt) = true → valid_utf8 (stmt_PredicateType stmt) = true → json_output (stmt_Predicate stmt) →
    (∀ s, s ∈ stmt_Subject stmt → valid_utf8 (subj_Name s) = true ∧
       map_Forall (λ name digest, valid_utf8 name = true ∧ valid_utf8 digest = true) (subj_Digest s)) →
    json_Marshal_Statement stmt = Ok text → json_Unmarshal_Statement text = Ok stmt;
  collection_back name raws text :
    valid_utf8 name = true → Forall json_output raws →
    json_Marshal_Collection name raws = Ok text → json_Unmarshal_Collection text = Ok (name, raws);
  proposed_back p text :
    valid_utf8 (proposed_Type p) = true → json_output (proposed_Attestation p) →
    json_Marshal_proposed p = Ok text →
    ∃ p', json_Unmarshal_proposed text = Ok p' ∧ proposed_Type p' = proposed_Type p ∧
      proposed_Attestation p' = proposed_Attestation p;
}.

Section roundtrip.
Context `{CL : CryptoLib} `{TL : !TspLib} `{RO : RangeOrder} {A : Type} `{AO : AttestorOps A}
  `{SJ : StatementJson} `{CJ : CollectionJson} `{JL : !JsonLaws}.
Variable fs : factory_state A.

(** The same contents: what a policy and a source read of an attestor. What the attestor
    keeps for itself, as the fields that a run of a command sets and that are not exported,
    can differ. *)
Record same_contents (a a' : A) : Prop := {
  same_type : Attestor_Type a' = Attestor_Type a;
  same_materials : Materialer_Materials a' = Materialer_Materials a;
  same_products : Producer_Products a' = Producer_Products a;
  same_json : json_Marshal_Attestor a' = json_Marshal_Attestor a;
}.

(** The attestor is of a registered type, whose factory makes an attestor that
    reads back the contents which this one writes. *)
Definition reads_back (typ : string) (a : A) : Prop :=
  ∃ factory, FactoryByType fs typ = Some factory ∧
    ∀ data, json_Marshal_Attestor a = Ok data →
      ∃ a', json_Unmarshal_Attestor data (factory ()) = Ok (Some a') ∧ same_contents a a'.

(** The attestation has an attestor that can be read back. *)
Definition attestation_reads_back (ca : CollectionAttestation A) : Prop :=
  ∃ a, ca_Attestation ca = Some a ∧ reads_back (ca_Type ca) a.

(** An attestation of the same type with the same contents. *)
Definition same_attestation (c c' : CollectionAttestation A) : Prop :=
  ca_Type c' = ca_Type c ∧
  ∃ a a', ca_Attestation c = Some a ∧ ca_Attestation c' = Some a' ∧ same_contents a a'.

(** The strings of the collection that are written into the statement and the predicate. *)
Definition valid_texts (coll : Collection A) : Prop :=
  valid_utf8 (coll_Name coll) = true ∧
  Forall (λ ca, valid_utf8 (ca_Type ca) = true) (coll_Attestations coll) ∧
  map_Forall (λ name ds, valid_utf8 name = true ∧ map_Forall (λ _ digest, valid_utf8 digest = true) ds)
    (Collection_Subjects coll).
#[global] Instance valid_texts_dec coll : Decision (valid_texts coll).
Proof. unfold valid_texts. apply _. Defined.

(** Each attestation is written as a text that reads back, and whose outer type is its own. *)
Lemma attestation_back (ca : CollectionAttestation A) raws :
  attestation_reads_back ca → valid_utf8 (ca_Type ca) = true →
  (att ← json_Marshal_nilable (ca_Attestation ca);
   raw ← json_Marshal_proposed (mkProposed (ca_Type ca) att (ca_StartTime ca) (ca_EndTime ca));
   Ok [raw]) = Ok raws →
  ∃ raw ca', raws = [raw] ∧ json_output raw ∧
    CollectionAttestation_UnmarshalJSON json_Unmarshal_proposed fs raw = Ok ca' ∧ same_attestation ca ca'.
Proof.
  intros (a & Ha & factory & Hf & Hread) Ht (att & Hatt & (raw & Hraw & [= <-])%res_bind_ok)%res_bind_ok.
  rw Ha in Hatt. pose proof (attestor_output _ _ Hatt) as Hout. apply Hread in Hatt as (a' & Hback & Hsame).
  pose proof (proposed_output _ _ Hraw). apply proposed_back in Hraw as (p & Hp & Hpt & Hpa); [|done..].
  cbn in Hpt, Hpa. exists raw. eexists. split; [done|]. split; [done|]. split.
  - unfold CollectionAttestation_UnmarshalJSON. rw Hp. cbn [mbind res_bind]. rw Hpt Hf Hpa. by rw Hback.
  - split; [done|]. by exists a, a'.
Qed.

Lemma Collection_Marshal_back (c : Collection A) data :
  valid_texts c → (∀ ca, ca ∈ coll_Attestations c → attestation_reads_back ca) →
  Collection_Marshal c = Ok data →
  ∃ c', Collection_Unmarshal fs data = Ok c' ∧ coll_Name c' = coll_Name c ∧
    Forall2 same_attestation (coll_Attestations c) (coll_Attestations c').
Proof.
  unfold Collection_Marshal, Collection_Unmarshal. intros (Hname & Htypes & _) Hback (raws & Hraws & Hdata)%res_bind_ok.
  cut (Forall json_output raws ∧
    ∃ cas, collect (λ text, ca ← CollectionAttestation_UnmarshalJSON json_Unmarshal_proposed fs text; Ok [ca]) raws = Ok cas ∧
      Forall2 same_attestation (coll_Attestations c) cas).
  { intros (Hout & cas & Hcas & HF). rw (collection_back _ _ _ Hname Hout Hdata). cbn [mbind res_bind fst snd]. rw Hcas.
    eexists. split; [done|]. by split. }
  clear Hdata. revert raws Hraws. induction (coll_Attestations c) as [|ca l IH]; intros raws; cbn [collect].
  { intros [= <-]. split; [done|]. by exists []. }
  intros (r1 & Hr1 & (r2 & Hr2 & [= <-])%res_bind_ok)%res_bind_ok.
  apply Forall_cons in Htypes as [Ht Htypes].
  destruct (attestation_back ca r1) as (raw & ca' & -> & Hout & Hone & Hsame); [apply Hback; left|done..|].
  destruct (IH Htypes (λ ca' H, Hback ca' (proj2 (elem_of_cons _ _ _) (or_intror H))) r2 Hr2) as (Houts & cas & Hcas & HF).
  split; [by constructor|]. cbn [app collect]. rw Hone. cbn [mbind res_bind]. rw Hcas. cbn [mbind res_bind].
  eexists. split; [done|]. by constructor.
Qed.
End roundtrip.

(** * What a run signs can be loaded and found *)

Section found.
Context `{CL : CryptoLib} `{TL : !TspLib} `{RO : RangeOrder} {A : Type} `{AO : AttestorOps A}
  `{SJ : StatementJson} `{CJ : CollectionJson} `{JL : !JsonLaws}.
Variable fs : factory_state A.

(** The names of the hashes are ASCII. *)
Lemma hashNames_utf8 dv name : hashNames !! dv = Some name → valid_utf8 name = true.
Proof.
  assert (map_Forall (λ _ name, valid_utf8 name = true) hashNames) as H by (apply (bool_decide_unpack _); by vm_compute).
  apply H.
Qed.

(** The statement of a collection reads back. *)
Lemma collection_statement_back (coll : Collection A) data stmt text :
  valid_texts coll → Collection_Marshal coll = Ok data →
  NewStatement CollectionType data (Collection_Subjects coll) = Ok stmt → json_Marshal_Statement stmt = Ok text →
  json_Unmarshal_Statement text = Ok stmt.
Proof.
  intros (_ & _ & Hsub) (raws & _ & Hdata)%res_bind_ok (subjs & Hs & [= <-])%res_bind_ok.
  apply statement_back; [by vm_compute..| |]; cbn [stmt_Predicate stmt_Subject]; [by eapply collection_output|].
  intros s Hin. apply (collect_elem _ _ _ _ Hs) in Hin as ([name ds] & ys & Hname%elem_of_range & Hys & Hin).
  apply res_bind_ok in Hys as (s' & Hs' & [= <-]). apply list_elem_of_singleton in Hin as ->.
  destruct (Hsub name ds Hname) as [Hn Hd]. apply res_bind_ok in Hs' as (m & Hm & [= <-]). cbn [fst snd] in Hm.
  split; [done|]. cbn [subj_Digest]. pose proof (ToNameMap_ok_supported _ _ Hm) as Hsup.
  destruct (ToNameMap_supported ds Hsup) as (m' & Hm' & Hl). rw Hm in Hm'. injection Hm' as ->.
  intros n d (dv & Hdv & Hh)%Hl. split; [by eapply hashNames_utf8|by eapply Hd].
Qed.

(** A signed statement of a collection decodes to that collection. *)
Lemma envelope_back (ref : string) (env : Envelope) (coll : Collection A) data stmt text :
  valid_texts coll → (∀ ca, ca ∈ coll_Attestations coll → attestation_reads_back fs ca) →
  Collection_Marshal coll = Ok data → NewStatement CollectionType data (Collection_Subjects coll) = Ok stmt →
  json_Marshal_Statement stmt = Ok text → Payload env = text →
  ∃ c', envelopeToCollectionEnvelope fs ref env = Ok (mkCollectionEnvelope env stmt c' ref) ∧
    coll_Name c' = coll_Name coll ∧ Forall2 same_attestation (coll_Attestations coll) (coll_Attestations c').
Proof.
  intros Hvalid Hback Hdata Hst Htext Hpay. unfold envelopeToCollectionEnvelope.
  destruct (Collection_Marshal_back fs coll data Hvalid Hback Hdata) as (c' & Hc' & Hn & HF).
  exists c'. rw Hpay (collection_statement_back _ _ _ _ Hvalid Hdata Hst Htext). cbn [mbind res_bind].
  apply NewStatement_digests in Hst as (_ & -> & _). rw Hc'. by split.
Qed.

(** Attestations that are not null have an index. *)
Lemma attestationIndex_ok (cas : list (CollectionAttestation A)) :
  (∀ ca, ca ∈ cas → is_Some (ca_Attestation ca)) → ∃ index, attestationIndex cas = Ok index.
Proof.
  unfold attestationIndex. generalize (∅ : gset string). induction cas as [|ca cas IH]; intros index Hall; [by exists index|].
  cbn [range_res]. destruct (Hall ca) as [a Ha]; [left|]. rw Ha. cbn [mbind res_bind]. apply IH.
  intros ca' Hca. apply Hall. by right.
Qed.

(** A memory source with one loaded envelope answers a query that the collection
    meets with that envelope. *)
Lemma load_one_found (ref : string) (env : Envelope) (ce : CollectionEnvelope A) (sds atts : list string) :
  envelopeToCollectionEnvelope fs ref env = Ok ce →
  (∀ ca, ca ∈ coll_Attestations (ce_Collection ce) → is_Some (ca_Attestation ca)) →
  matches_query (coll_Name (ce_Collection ce)) sds atts ce →
  ∃ s, LoadEnvelope fs NewMemorySource ref env = Ok s ∧
    MemorySource_Search s (coll_Name (ce_Collection ce)) sds atts = (s, Ok [ce]).
Proof.
  intros Hce Hall Hq. destruct (attestationIndex_ok _ Hall) as [index Hi].
  assert (∃ s, LoadEnvelope fs NewMemorySource ref env = Ok s ∧ envelopesByReference s !! ref = Some ce ∧
    referencesByCollectionName s !! coll_Name (ce_Collection ce) = Some [ref]) as (s & Hs & Hl & Hr).
  { unfold LoadEnvelope. cbn [envelopesByReference NewMemorySource]. rw lookup_empty Hce. cbn [mbind res_bind].
    rw Hi. cbn [mbind res_bind]. eexists. split; [done|].
    cbn [envelopesByReference referencesByCollectionName]. by rw !lookup_insert_eq lookup_empty. }
  exists s. split; [done|]. pose proof (LoadEnvelope_wf _ _ _ _ _ NewMemorySource_wf Hs) as Hwf.
  unfold MemorySource_Search. rw Hr /= right_id_L. do 2 f_equal.
  assert (ce ∈ memory_match s sds atts ref) as Hin by (by apply (memory_match_iff _ _ _ _ _ _ Hwf Hl)).
  unfold memory_match in *. rw Hl in Hin. rw Hl. destruct (_ && _); [done|by apply not_elem_of_nil in Hin].
Qed.
End found.

(** What a run signs, a source finds: the envelope of a successful run loads
    into a memory source under any reference, and a search by the step's name, any
    digest of any subject of the collection, and types of its attestations answers
    with that envelope, decoded to the collection of the run: the same name, the
    same types and the same contents of the attestors, one for one. The strings of the
    collection are valid UTF-8, and the attestors' types are registered with factories that
    read back their contents. *)
Theorem run_then_Search `{CL : CryptoLib} `{TL : !TspLib} `{GL : GlobLib} `{RO : RangeOrder}
    `{SC : Scheduler} `{CK : Clock} {A : Type} `{AO : AttestorOps A} `{RA : !Runnable A} `{SJ : StatementJson}
    `{CJ : CollectionJson} `{JL : !JsonLaws} (fs : factory_state A) (getwd : res string) (rnd : nat → nat → bytes)
    (stepName : string) (opts : list RunOption) (results : list RunResult) :
  let ro := run_options stepName opts in
  run getwd rnd stepName opts = (results, nil_error) → ro_insecure ro = false →
  (∀ r, r ∈ results → valid_texts (rr_Collection r)) →
  (∀ r ca, r ∈ results → ca ∈ coll_Attestations (rr_Collection r) → attestation_reads_back fs ca) →
  ∃ exported coll env, results = exported ++ [mkRunResult coll env ""] ∧ coll_Name coll = ro_stepName ro ∧
    ∀ ref name ds dv d atts,
      Collection_Subjects coll !! name = Some ds → ds !! dv = Some d →
      (∀ t, t ∈ atts → t ∈ ca_Type <$> coll_Attestations coll) →
      ∃ s ce, LoadEnvelope fs NewMemorySource ref env = Ok s ∧
        MemorySource_Search s (ro_stepName ro) [d] atts = (s, Ok [ce]) ∧
        ce_Envelope ce = env ∧ coll_Name (ce_Collection ce) = coll_Name coll ∧
        Forall2 same_attestation (coll_Attestations coll) (coll_Attestations (ce_Collection ce)).
Proof.
  intros ro (ctx & ctx' & exported & errs & coll & env & _ & _ & _ & _ & _ & Hcoll & Henv & Hres)%run_inv Hins Hvalid Hback.
  fold ro in Hcoll, Henv. rw Hins in Henv.
  apply createAndSignEnvelope_inv in Henv as (data & stmt & text & Hd & Hst & Htext & Hsign).
  apply Sign_signatures in Hsign as [Hpay _].
  pose proof (NewStatement_digests _ _ _ _ Hst) as (_ & _ & _ & Hdig).
  exists exported, coll, env. split; [done|]. split; [by rw Hcoll|].
  intros ref name ds dv d atts Hname Hdv Hatts.
  assert (mkRunResult coll env "" ∈ results) as Hin by (rw Hres; apply elem_of_app; right; left).
  destruct (envelope_back fs ref env coll data stmt text (Hvalid _ Hin) (λ ca, Hback _ ca Hin) Hd Hst Htext Hpay)
    as (c' & Hce & Hn & HF).
  destruct (load_one_found fs ref env _ [d] atts Hce) as (s & Hs & Hf).
  - cbn [ce_Collection]. intros ca' Hca'.
    destruct (Forall2_elem_of_r _ _ _ _ HF Hca') as (ca & _ & _ & a & a' & _ & -> & _). by eexists.
  - split; [done|]. cbn [ce_Statement ce_Collection]. split.
    + exists d. split; [left|]. by eapply Hdig.
    + intros t (ca & -> & Hca)%Hatts%list_elem_of_fmap.
      destruct (Forall2_elem_of_l _ _ _ _ HF Hca) as (ca' & Hca' & _ & a & a' & Ha & Ha' & Hsame).
      rw Hcoll in Hca. apply list_elem_of_fmap in Hca as (c & -> & _). injection Ha as <-.
      exists ca', a'. split; [done|]. split; [done|]. by rw (same_type _ _ Hsame).
  - exists s, (mkCollectionEnvelope env stmt c' ref). cbn [ce_Collection] in Hf. rw Hn in Hf.
    split; [done|]. split; [by rw Hcoll in Hf|]. done.
Qed.

(** * What runs sign, a policy that expects it accepts *)

Section same.
Context {A : Type} `{AO : AttestorOps A} `{RO : RangeOrder}.
Implicit Types c : Collection A.

(** What is read off a collection depends on the types and the contents only. *)
Lemma foldl_same {B} (R : B → B → Prop) (f : B → CollectionAttestation A → B) (l l' : list (CollectionAttestation A)) acc acc' :
  (∀ b b' ca ca', R b b' → same_attestation ca ca' → R (f b ca) (f b' ca')) →
  Forall2 same_attestation l l' → R acc acc' → R (foldl f acc l) (foldl f acc' l').
Proof.
  intros Hf HF. revert acc acc'. induction HF as [|ca ca' l l' Hsame _ IH]; intros acc acc' Hacc; [done|].
  cbn [foldl]. by apply IH, Hf.
Qed.

Lemma Collection_Materials_same c c' :
  Forall2 same_attestation (coll_Attestations c) (coll_Attestations c') → Collection_Materials c = Collection_Materials c'.
Proof.
  intros HF. apply (foldl_same eq); [|done..]. intros b _ ca ca' <- (_ & a & a' & -> & -> & Hs). cbn [type_assert].
  by rw (same_materials _ _ Hs).
Qed.
Lemma Collection_Artifacts_same c c' :
  Forall2 same_attestation (coll_Attestations c) (coll_Attestations c') → Collection_Artifacts c = Collection_Artifacts c'.
Proof.
  intros HF. unfold Collection_Artifacts. rw (foldl_same eq artifact_step _ (coll_Attestations c') (∅, ∅) (∅, ∅)); [done| |done..].
  intros b _ ca ca' <- (_ & a & a' & Ha & Ha' & Hs). unfold artifact_step. rw Ha Ha'. cbn [type_assert].
  by rw (same_materials _ _ Hs) (same_products _ _ Hs).
Qed.

(** The attestors that a policy finds have the same contents. *)
Lemma found_attestations_same c c' t attestor :
  Forall2 same_attestation (coll_Attestations c) (coll_Attestations c') →
  found_attestations c !! t = Some attestor →
  ∃ a a', attestor = Some a ∧ found_attestations c' !! t = Some (Some a') ∧ same_contents a a'.
Proof.
  intros HF. unfold found_attestations. revert attestor.
  apply (foldl_same (λ m m' : gmap string (option A), ∀ attestor, m !! t = Some attestor →
    ∃ a a', attestor = Some a ∧ m' !! t = Some (Some a') ∧ same_contents a a')); [|done|by intros attestor; rw lookup_empty].
  intros m m' ca ca' IH (Ht & a & a' & Ha & Ha' & Hs) attestor. rw Ht Ha Ha'.
  intros [[<- <-]|[Hne H]]%lookup_insert_Some.
  - exists a, a'. by rw lookup_insert_eq.
  - rw lookup_insert_ne //. by apply IH.
Qed.
End same.

(** A policy passes an attestor for its contents. *)
Lemma EvaluateRegoPolicy_same {A} `{AO : AttestorOps A} `{RL : RegoLib} (a a' : A) policies :
  same_contents a a' → EvaluateRegoPolicy (Some a') policies = EvaluateRegoPolicy (Some a) policies.
Proof. intros [Ht _ _ Hj]. unfold EvaluateRegoPolicy, json_Marshal_nilable. by rw Ht Hj. Qed.

Section signed_runs.
Context `{CL : CryptoLib} `{TL : !TspLib} `{GL : GlobLib} `{FL : FulcioLib} `{RO : RangeOrder} {A : Type} `{AO : AttestorOps A}
  `{RA : !Runnable A} `{RL : RegoLib} `{SJ : StatementJson} `{CJ : CollectionJson} `{JL : !JsonLaws} `{SL : !SignatureLaws}.
Variable fs : factory_state A.

(** The collection of a run and its envelope, with the signers of the run and the
    reference under which the envelope is loaded. *)
Record signed_run := mkSignedRun {
  run_ref : string;
  run_collection : Collection A;
  run_envelope : Envelope;
  run_signers : list Signer;
}.

(** The run was successful and signed, under some schedule, clock and randomness; the strings
    of its collection are valid UTF-8, and its attestors can be read back. *)
Definition comes_from_run (r : signed_run) : Prop :=
  ∃ (SC : Scheduler) (CK : Clock) getwd rnd stepName opts exported,
    let ro := run_options stepName opts in
    run getwd rnd stepName opts = (exported ++ [mkRunResult (run_collection r) (run_envelope r) ""], nil_error) ∧
    ro_insecure ro = false ∧ ro_signers ro = Some <$> run_signers r ∧ valid_texts (run_collection r) ∧
    ∀ ca, ca ∈ coll_Attestations (run_collection r) → attestation_reads_back fs ca.

Definition has_subject_digest (coll : Collection A) (d : string) : Prop :=
  ∃ name ds dv, Collection_Subjects coll !! name = Some ds ∧ ds !! dv = Some d.

(** What the envelope of a run is: it decodes to the collection of the run, its statement
    has the digests of the subjects, and its signatures are those of the signers. *)
Lemma signed_run_envelope r : comes_from_run r →
  (∃ stmt c', (∀ ref, envelopeToCollectionEnvelope fs ref (run_envelope r) =
       Ok (mkCollectionEnvelope (run_envelope r) stmt c' ref)) ∧
     coll_Name c' = coll_Name (run_collection r) ∧
     Forall2 same_attestation (coll_Attestations (run_collection r)) (coll_Attestations c') ∧
     ∀ d, has_subject_digest (run_collection r) d → statement_has_digest stmt d) ∧
  (∃ ts, Forall2 (λ s sig, ∃ rnd, sign_one rnd ts (preauthEncode (PayloadType (run_envelope r)) (Payload (run_envelope r))) s = Ok sig)
     (run_signers r) (Signatures (run_envelope r))) ∧
  ∀ ca, ca ∈ coll_Attestations (run_collection r) → ∃ a, ca_Attestation ca = Some a ∧ Attestor_Type a = ca_Type ca.
Proof.
  intros (SC & CK & getwd & rnd & stepName & opts & exported & Hrun & Hins & Hsig & Hvalid & Hback).
  apply run_inv in Hrun as (ctx & ctx' & result & errs & coll & env & _ & _ & _ & _ & _ & Hcoll & Henv & Hres).
  apply app_inj_tail in Hres as [_ [= Hc He]]. rw Hins -He -Hc in Henv. rw -Hc in Hcoll. clear Hc He.
  apply createAndSignEnvelope_inv in Henv as (data & stmt & text & Hd & Hst & Htext & Hsign).
  unfold sign_opts in Hsign. rw Hsig in Hsign. apply Sign_key_Forall2 in Hsign as (Hpay & Hpt & HF).
  pose proof (NewStatement_digests _ _ _ _ Hst) as (_ & _ & _ & Hdig). split; [|split].
  - destruct (envelope_back fs "" _ _ data stmt text Hvalid Hback Hd Hst Htext Hpay) as (c' & Hce & Hn & HF').
    exists stmt, c'. split; [|split; [done|]; split; [done|]].
    + intros ref. pose proof (collection_statement_back _ _ _ _ Hvalid Hd Hst Htext) as Hback'.
      unfold envelopeToCollectionEnvelope in *. rw Hpay Hback' in Hce. rw Hpay Hback'. cbn [mbind res_bind] in *.
      destruct (Collection_Unmarshal _ _); [|done..]. cbn [mbind res_bind] in *. congruence.
    + intros d (name & ds & dv & Hname & Hdv). by eapply Hdig.
  - rw Hpay Hpt. eexists. exact HF.
  - rw Hcoll. intros ca (c & -> & _)%list_elem_of_fmap. by eexists.
Qed.

(** ** The signatures *)

(** A verifier with a key and no certificate, which has an identifier that is not empty and
    does not panic. *)
Definition usable_verifier (v : Verifier) : Prop :=
  match v with RSAVerifier _ _ | ECDSAVerifier _ _ | ED25519Verifier _ => True | _ => False end ∧
  (∃ kid, kid ≠ "" ∧ Verifier_KeyID v = Ok kid) ∧ ∀ body sig, no_panic (Verifier_Verify v body sig).

Context (vopts : list VerificationOption).
Notation vo := (apply_verification_options vopts).
Definition usable_options : Prop := ∀ ov, ov ∈ verifiers vo → ∃ v, ov = Some v ∧ usable_verifier v.

(** Signers that hold keys, whose verifiers are among those of the options, and which are
    enough for the threshold. *)
Definition known_signers (ss : list Signer) : Prop :=
  (0 < threshold vo ≤ Z.of_nat (length ss))%Z ∧
  Forall (λ s, key_signer s = true ∧ ∃ v, Signer_Verifier s = Ok v ∧ Some v ∈ verifiers vo) ss.

Lemma signers_verifiers ss : known_signers ss →
  ∃ vs, Forall2 (λ s v, Signer_Verifier s = Ok v) ss vs ∧ ∀ v, v ∈ vs → Some v ∈ verifiers vo.
Proof.
  intros [_ HF]. induction HF as [|s ss (_ & v & Hv & Hin) _ (vs & HF & Hsub)].
  - exists []. split; [constructor|]. by intros v ?%not_elem_of_nil.
  - exists (v :: vs). split; [by constructor|]. intros v' [->|?]%elem_of_cons; [done|by apply Hsub].
Qed.

(** Entries without an error, when no signature has a certificate, have a verifier that
    was passed. *)
Lemma passed_verifiers e now cvs cv :
  Envelope_Verify e now vopts = Ok (cvs, None) → (∀ sig, sig ∈ Signatures e → sig_Certificate sig = "") →
  cv ∈ cvs → ∃ v, cv_Verifier cv = Some v ∧ Some v ∈ verifiers vo.
Proof.
  intros H Hcert Hcv. apply Envelope_Verify_entries in H as (Hc & _); [|by intros ->; apply not_elem_of_nil in Hcv].
  apply (collect_elem _ _ _ cv Hc) in Hcv as (sig & ys & Hsig & Hys & Hcv).
  unfold check_signature in Hys. rw (Hcert sig Hsig) in Hys. cbn in Hys.
  apply res_bind_ok in Hys as (from & Hfrom & Hys).
  rw bool_decide_eq_false_2 in Hfrom; [|lia]. injection Hfrom as <-.
  apply res_bind_ok in Hys as (cvs' & Hys & Heq). injection Heq as <-. unfold check_verifiers in Hys.
  apply (collect_elem _ _ _ cv Hys) in Hcv as ([v|] & zs & Hv & Hzs & Hcv); [|simplify_eq; by apply not_elem_of_nil in Hcv].
  apply res_bind_ok in Hzs as (e' & _ & Heq). injection Heq as <-. apply list_elem_of_singleton in Hcv as ->. by exists v.
Qed.

(** An envelope with the signatures of known signers is accepted, by their verifiers. *)
Lemma signed_envelope_verifies env ts ss now :
  Forall2 (λ s sig, ∃ rnd, sign_one rnd ts (preauthEncode (PayloadType env) (Payload env)) s = Ok sig) ss (Signatures env) →
  usable_options → known_signers ss →
  ∃ cvs, Envelope_Verify env now vopts = Ok (cvs, None) ∧
    (∀ cv, cv ∈ cvs → ∃ v, cv_Verifier cv = Some v ∧ usable_verifier v) ∧
    ∀ s v, s ∈ ss → Signer_Verifier s = Ok v → mkCheckedVerifier (Some v) [] None ∈ cvs.
Proof.
  intros HF Hus Hknown. destruct (signers_verifiers _ Hknown) as (vs & HF2 & Hsub). destruct Hknown as [Hk Hs].
  assert (Forall (λ s, key_signer s = true) ss) as Hkey by (eapply Forall_impl; [exact Hs|]; by intros s [? _]).
  destruct (signed_verifies ts _ _ _ _ Hkey HF2 HF) as [Hsigs Hvers].
  pose proof (Forall2_length _ _ _ HF) as Hlen.
  destruct (Envelope_Verify_complete env now vopts) as (cvs & Hcvs & Hin); [lia| |].
  { intros sig Hsig. destruct (Hsigs sig Hsig) as (Hc & v & Hv & Hok). split; [done|]. split.
    - exists v. split; [by apply Hsub|done].
    - intros v' Hv'. destruct (Hus _ Hv') as (? & [= <-] & _ & _ & Hnp). apply Hnp. }
  exists cvs. split; [done|]. split.
  - intros cv Hcv. destruct (passed_verifiers _ _ _ _ Hcvs (λ sig H, proj1 (Hsigs sig H)) Hcv) as (v & Hv & Hvin).
    exists v. split; [done|]. by destruct (Hus _ Hvin) as (? & [= <-] & ?).
  - intros s v Hss Hsv. destruct (Forall2_elem_of_l _ _ _ _ HF2 Hss) as (v' & Hv' & Heq).
    assert (v' = v) as -> by congruence. destruct (Hvers v Hv') as (_ & sig & Hsig & Hok).
    by apply (Hin sig v); [|apply Hsub|].
Qed.

(** ** The source *)

Lemma first_loaded_in l ref (ce : CollectionEnvelope A) : first_loaded fs l ref = Some ce → ∃ env, (ref, env) ∈ l.
Proof.
  induction l as [|[r env] l IH]; [done|]. cbn [first_loaded].
  case_bool_decide as Hr; [intros _; subst r; exists env; left|]. intros (e & ?)%IH. exists e. by right.
Qed.

(** What the verified source answers for an envelope of a run. *)
Definition run_result (name : string) (r : signed_run) (c : CollectionVerificationResult A) : Prop :=
  coll_Name (run_collection r) = name ∧ cvr_Errors c = [] ∧ ce_Envelope (cvr_Envelope c) = run_envelope r ∧
  coll_Name (ce_Collection (cvr_Envelope c)) = name ∧
  Forall2 same_attestation (coll_Attestations (run_collection r)) (coll_Attestations (ce_Collection (cvr_Envelope c))) ∧
  (∀ s v, s ∈ run_signers r → Signer_Verifier s = Ok v → Some v ∈ cvr_Verifiers c) ∧
  ∀ ov, ov ∈ cvr_Verifiers c → ∃ v, ov = Some v ∧ usable_verifier v.

Context (runs : list signed_run).
Definition run_loads : list (string * Envelope) := (λ r, (run_ref r, run_envelope r)) <$> runs.

(** A source that answers as a memory source does in which the runs were loaded. *)
Context {S : Type} `{SS : !Sourcer A S} (source : S).
Definition answers_runs : Prop := ∀ name ds atts,
  Search source name ds atts = (source, (MemorySource_Search (load_all fs run_loads) name ds atts).2).

Hypothesis Hrefs : NoDup (run_ref <$> runs).
Hypothesis Hruns : Forall comes_from_run runs.
Hypothesis Hknown : Forall (λ r, known_signers (run_signers r)) runs.
Hypothesis Husable : usable_options.
Hypothesis Hsource : answers_runs.

(** A reference stands for the collection of its run. *)
Lemma run_loaded r : r ∈ runs → ∃ stmt c',
  first_loaded fs run_loads (run_ref r) = Some (mkCollectionEnvelope (run_envelope r) stmt c' (run_ref r)) ∧
  coll_Name c' = coll_Name (run_collection r) ∧
  Forall2 same_attestation (coll_Attestations (run_collection r)) (coll_Attestations c') ∧
  (∀ d, has_subject_digest (run_collection r) d → statement_has_digest stmt d) ∧
  ∀ ca, ca ∈ coll_Attestations (run_collection r) → ∃ a, ca_Attestation ca = Some a ∧ Attestor_Type a = ca_Type ca.
Proof.
  clear Hknown Husable Hsource. unfold run_loads. induction runs as [|r0 l IH]; [by intros ?%not_elem_of_nil|].
  apply NoDup_cons in Hrefs as [Hni Hnd]. apply Forall_cons in Hruns as [Hr0 Hl].
  intros [->|Hr]%elem_of_cons; cbn [fmap list_fmap first_loaded].
  - destruct (signed_run_envelope _ Hr0) as ((stmt & c' & Hce & Hn & HF & Hd) & _ & Hatt).
    exists stmt, c'. split; [|by split_and!]. rw bool_decide_eq_true_2 //. unfold loadable. rw Hce.
    cbn [ce_Collection]. destruct (attestationIndex_ok (coll_Attestations c')) as [i ->]; [|done].
    intros ca' (ca & _ & _ & a & a' & _ & -> & _)%(Forall2_elem_of_r _ _ _ _ HF). by eexists.
  - rw bool_decide_eq_false_2; [by apply IH|]. intros Heq. apply Hni. rw Heq. by apply (list_elem_of_fmap_2 run_ref).
Qed.

Lemma first_loaded_run ref ce : first_loaded fs run_loads ref = Some ce → ∃ r, r ∈ runs ∧ run_ref r = ref.
Proof.
  intros (env & (r & [= -> ->] & Hr)%list_elem_of_fmap)%first_loaded_in. by exists r.
Qed.

Lemma verify_collection_run r stmt c' ref now :
  r ∈ runs → coll_Name c' = coll_Name (run_collection r) →
  Forall2 same_attestation (coll_Attestations (run_collection r)) (coll_Attestations c') →
  ∃ c, verify_collection vopts now (mkCollectionEnvelope (run_envelope r) stmt c' ref) = Ok c ∧
    run_result (coll_Name (run_collection r)) r c.
Proof.
  intros Hr Hn HF. pose proof (proj1 (Forall_forall _ _) Hruns r Hr) as Hrun. pose proof (proj1 (Forall_forall _ _) Hknown r Hr) as Hkn.
  apply signed_run_envelope in Hrun as (_ & (ts & Hsig) & _).
  destruct (signed_envelope_verifies _ ts _ now Hsig Husable Hkn) as (cvs & Hcvs & Hall & Hin).
  unfold verify_collection. cbn [ce_Envelope]. rw Hcvs. cbn [mbind res_bind]. eexists. split; [done|].
  assert (∀ s v, s ∈ run_signers r → Signer_Verifier s = Ok v → Some v ∈ cv_Verifier <$> passed_entries cvs) as Hpassed.
  { intros s v Hs Hv. apply list_elem_of_fmap. exists (mkCheckedVerifier (Some v) [] None). split; [done|].
    apply elem_of_passed_entries. split; [by eapply Hin|done]. }
  unfold run_result. cbn [cvr_Errors cvr_Envelope cvr_Verifiers ce_Envelope ce_Collection]. split_and!; try done.
  - rw bool_decide_eq_false_2; [done|]. intros Hz%nil_length_inv.
    destruct Hkn as [Hk HF']. destruct (run_signers r) as [|s ss] eqn:Hss; [simpl in Hk; lia|].
    apply Forall_cons in HF' as [(_ & v & Hv & _) _]. pose proof (Hpassed s v (list_elem_of_here _ _) Hv) as Hp.
    rw Hz in Hp. by apply not_elem_of_nil in Hp.
  - intros ov (cv & -> & [Hcv _]%elem_of_passed_entries)%list_elem_of_fmap. by apply Hall.
Qed.

(** A search that the collections of runs match finds their results, and nothing else. *)
Lemma run_search (clock : nat → Z) tick name ds atts :
  (∃ r, r ∈ runs ∧ coll_Name (run_collection r) = name ∧ ∃ d, d ∈ ds ∧ has_subject_digest (run_collection r) d) →
  (∀ r t, r ∈ runs → coll_Name (run_collection r) = name → t ∈ atts → t ∈ ca_Type <$> coll_Attestations (run_collection r)) →
  ∃ tick' cs, VerifiedSource_Search (mkVerifiedSource source vopts clock tick) name ds atts =
      (mkVerifiedSource source vopts clock tick', Ok cs) ∧
    cs ≠ [] ∧ Forall (λ c, ∃ r, r ∈ runs ∧ run_result name r c) cs.
Proof.
  intros (r0 & Hr0 & Hn0 & d & Hd & Hsub) Hatts. unfold VerifiedSource_Search.
  cbn [vs_source vs_verifyOpts vs_clock vs_tick]. rw Hsource. unfold MemorySource_Search. cbn [snd].
  pose proof (load_all_wf fs run_loads) as Hwf.
  assert (∀ ce, ce ∈ default [] (referencesByCollectionName (load_all fs run_loads) !! name)
      ≫= memory_match (load_all fs run_loads) ds atts ↔
    (∃ ref, first_loaded fs run_loads ref = Some ce) ∧ matches_query name ds atts ce) as Hfound.
  { intros ce. rw (MemorySource_Search_elem _ _ _ _ _ Hwf). by setoid_rewrite load_all_lookup. }
  set (envs := default [] _ ≫= _) in *. clearbody envs.
  match goal with |- context [collect ?f _] => set (g := f) end.
  assert (∀ i ce, ce ∈ envs → ∃ c r, g (i, ce) = Ok [c] ∧ r ∈ runs ∧ run_result name r c) as Hg.
  { intros i ce [[ref Hce] Hq]%Hfound. destruct (first_loaded_run _ _ Hce) as (r & Hr & <-).
    destruct (run_loaded r Hr) as (stmt & c' & Hl & Hn & HF & _). assert (ce = mkCollectionEnvelope (run_envelope r) stmt c' (run_ref r)) as ->
      by congruence. destruct Hq as [Hname _]. cbn [ce_Collection] in Hname.
    destruct (verify_collection_run r stmt c' (run_ref r) (clock (tick + i)) Hr Hn HF) as (c & Hc & Hres).
    exists c, r. unfold g. cbn [fst snd]. rw Hc. rw -Hn Hname in Hres. by split_and!. }
  assert (∀ ie, ie ∈ imap pair envs → ie.2 ∈ envs) as Himap.
  { intros ie (j & ce & -> & Hl)%elem_of_lookup_imap. by eapply list_elem_of_lookup_2. }
  destruct (collect_total g (imap pair envs)) as [cs Hcs].
  { intros [i ce] Hin. destruct (Hg i ce (Himap _ Hin)) as (c & r & -> & _). by eexists. }
  rw Hcs. do 2 eexists. split; [done|]. split.
  - destruct (run_loaded r0 Hr0) as (stmt & c' & Hl & Hn & HF & Hdig & Hatt).
    assert (mkCollectionEnvelope (run_envelope r0) stmt c' (run_ref r0) ∈ envs) as Hin.
    { apply Hfound. split; [by exists (run_ref r0)|]. split; [by rw -Hn0|]. split.
      - exists d. split; [done|]. by apply Hdig.
      - intros t (ca & -> & Hca)%(Hatts r0 t Hr0 Hn0)%list_elem_of_fmap.
        destruct (Forall2_elem_of_l _ _ _ _ HF Hca) as (ca' & Hca' & _ & a & a' & Ha & Ha' & Hs).
        destruct (Hatt ca Hca) as (a0 & Hsome & Ht). exists ca', a'. split; [done|]. split; [done|].
        rw (same_type _ _ Hs). congruence. }
    apply list_elem_of_lookup in Hin as [j Hj]. intros ->.
    destruct (Hg j _ (list_elem_of_lookup_2 _ _ _ Hj)) as (c & r & Hc & _).
    assert (c ∈ []) as ?%not_elem_of_nil; [|done]. apply (collect_elem _ _ _ _ Hcs).
    eexists (j, _), [c]. split; [|split; [exact Hc|left]]. apply elem_of_lookup_imap. by eexists j, _.
  - apply Forall_forall. intros c ([i ce] & ys & Hin & Hys & Hc)%(collect_elem _ _ _ _ Hcs).
    destruct (Hg i ce (Himap _ Hin)) as (c0 & r & Hc0 & Hr & Hres). rw Hys in Hc0. injection Hc0 as ->.
    apply list_elem_of_singleton in Hc as ->. by exists r.
Qed.

(** ** The policy *)

(** What the policy asks of the runs for one of its steps: one of them has the name of the
    step and one of the digests; and each of this name has the attestations that the step
    expects, was signed by one of its functionaries, and used the artifacts of the runs of
    the steps that they come from. *)
Record runs_meet (p : Policy) (digests : list string) (name : string) (step : Step) : Prop := {
  meet_name : step_Name step = name;
  meet_found : ∃ r, r ∈ runs ∧ coll_Name (run_collection r) = name ∧ ∃ d, d ∈ digests ∧ has_subject_digest (run_collection r) d;
  meet_attestations r : r ∈ runs → coll_Name (run_collection r) = name → meets_attestations step (run_collection r);
  meet_functionary r : r ∈ runs → coll_Name (run_collection r) = name →
    ∃ s v f, s ∈ run_signers r ∧ Signer_Verifier s = Ok v ∧ f ∈ step_Functionaries step ∧
      func_PublicKeyID f ≠ "" ∧ Verifier_KeyID v = Ok (func_PublicKeyID f);
  meet_artifacts from : from ∈ step_ArtifactsFrom step → is_Some (Steps p !! from) ∧
    ∀ r r', r ∈ runs → r' ∈ runs → coll_Name (run_collection r) = name → coll_Name (run_collection r') = from →
      artifacts_agree (Collection_Materials (run_collection r)) (Collection_Artifacts (run_collection r'));
}.

(** A functionary with a key answers every usable verifier. *)
Lemma Functionary_Validate_usable f v bundles : usable_verifier v →
  (Functionary_Validate f (Some v) bundles = nil_error ∨
     ∃ e t, Functionary_Validate f (Some v) bundles = Err e ∧ error_text e = Ok t) ∧
  (func_PublicKeyID f ≠ "" → Verifier_KeyID v = Ok (func_PublicKeyID f) → Functionary_Validate f (Some v) bundles = nil_error).
Proof.
  intros (Hkey & (kid & _ & Hkid) & _). unfold Functionary_Validate. rw Hkid. cbn [wrap mbind res_bind]. split.
  - case_bool_decide; [by left|right]. destruct v; try done; by do 2 eexists.
  - intros Hne [= ->]. by rw bool_decide_eq_true_2.
Qed.

Lemma runs_supply p bundles digests clock :
  (∀ name step, Steps p !! name = Some step → runs_meet p digests name step) →
  supplies p bundles digests (λ s, ∃ tick, s = mkVerifiedSource source vopts clock tick)
    (λ name c, ∃ r, r ∈ runs ∧ run_result name r c).
Proof.
  intros Hmeet. split.
  - intros name step Hs. apply (Hmeet _ _ Hs).
  - intros name step s ds Hs [tick ->] Hds. pose proof (Hmeet _ _ Hs) as [_ (r & Hr & Hn & d & Hd & Hsub) Hatt _ _].
    destruct (run_search clock tick name ds (pa_Type <$> step_Attestations step)) as (tick' & cs & Hsearch & Hne & HF).
    + exists r. split; [done|]. split; [done|]. exists d. split; [by apply Hds|done].
    + intros r' t Hr' Hn' (e & -> & He)%list_elem_of_fmap. destruct (Hatt r' Hr' Hn' e He) as (a & Hf & _).
      apply found_attestations_elem in Hf as (ca & Hca & <- & _). by apply (list_elem_of_fmap_2 ca_Type).
    + eexists _, cs. split; [exact Hsearch|]. split; [by exists tick'|]. by split.
  - intros name step c Hs (r & Hr & Hn & He & Henv & Hcn & HF & Hsig & Hvs).
    destruct (Hmeet _ _ Hs) as [Hsn _ Hatt Hfun _]. split; [done|left; by rw Hcn| |].
    + intros e Hin. destruct (Hatt r Hr Hn e Hin) as (attestor & Hfound & Hpass).
      destruct (found_attestations_same _ _ _ _ HF Hfound) as (a & a' & -> & Hfound' & Hsame).
      exists (Some a'). split; [done|]. by rw (EvaluateRegoPolicy_same a a').
    + split.
      * destruct (Hfun r Hr Hn) as (sg & v & f & Hsg & Hv & Hf & Hne & Hkid). exists (Some v), f.
        split; [by eapply Hsig|]. split; [done|]. destruct (Hvs (Some v)) as (v' & [= <-] & Hin); [by eapply Hsig|].
        by apply Functionary_Validate_usable.
      * intros ov f (v & -> & Hin)%Hvs _. by apply Functionary_Validate_usable.
  - intros name step from Hs Hfrom. destruct (Hmeet _ _ Hs) as [_ _ _ _ Hart]. destruct (Hart from Hfrom) as [Hsome Hagree].
    split; [done|]. intros c c' (r & Hr & Hn & _ & _ & _ & HF & _) (r' & Hr' & Hn' & _ & _ & _ & HF' & _).
    rw -(Collection_Materials_same _ _ HF) -(Collection_Artifacts_same _ _ HF'). by apply Hagree.
Qed.
End signed_runs.

(** * The whole verification *)

(** ** A run of one attestor of the verify stage *)

Section one.
Context `{CL : CryptoLib} `{TL : !TspLib} `{GL : GlobLib} `{RO : RangeOrder} `{SC : Scheduler} `{CK : Clock}
  {A : Type} `{AO : AttestorOps A} `{RA : !Runnable A} `{SJ : StatementJson} `{CJ : CollectionJson}.
Implicit Types ctx : AttestationContext A.

Lemma run_threads_single n k ctx t :
  run_threads (Datatypes.S n) k ctx [t] =
  (r ← thread_step (clock k) ctx t; run_threads n (Datatypes.S k) r.1 (option_list r.2)).
Proof.
  cbn [run_threads length]. rw Nat.mod_1_r. cbv zeta. cbn [lookup list_lookup].
  destruct (thread_step _ _ _) as [[c ot]| |]; [|done..]. cbn [mbind res_bind fst snd take drop app]. by rw app_nil_r.
Qed.

Lemma run_stage_single k ctx a : out_error (Attest a ctx) = nil_error →
  ∃ ctx' s e, run_stage k ctx [a] = Ok ctx' ∧
    ctx_completed ctx' = ctx_completed ctx ++ [mkCompletedAttestor (out_attestor (Attest a ctx)) s e None].
Proof.
  intros Hok. unfold run_stage. change (stage_steps (Ready <$> [a])) with 5.
  change (Ready <$> [a]) with [Ready a]. set (a' := out_attestor (Attest a ctx)).
  rw run_threads_single. cbn [thread_step mbind res_bind fst snd option_list].
  rw run_threads_single. cbn [thread_step]. cbv zeta. rw Hok. unfold nil_error. cbn [mbind res_bind fst snd option_list].
  do 3 (rw run_threads_single; cbn [thread_step mbind res_bind fst snd option_list]). fold a'.
  eexists _, _, _. split; [done|]. by destruct (Producer_Products a'), (Materialer_Materials a').
Qed.

Lemma RunAttestors_verify ctx a :
  ctx_attestors ctx = [a] → Attestor_RunType a = VerifyRunType → DeclareHooks a = None →
  out_error (Attest a ctx) = nil_error →
  ∃ ctx' s e, RunAttestors ctx = (ctx', nil_error) ∧
    ctx_completed ctx' = ctx_completed ctx ++ [mkCompletedAttestor (out_attestor (Attest a ctx)) s e None].
Proof.
  intros Hatts Hrt Hh Hok. unfold RunAttestors, group_attestors. rw Hatts. cbn [range_res]. cbv zeta. rw Hrt.
  rw bool_decide_eq_false_2; [|done]. cbn [mbind res_bind]. rw lookup_empty. cbn [default app].
  unfold stage_order. rw lookup_insert_eq. rw bool_decide_eq_false_2; [|rw insert_empty map_size_singleton; lia].
  unfold verifyTypeOrder. cbn [run_stages]. cbv zeta. rw lookup_insert_eq. cbn [default from_option id].
  assert (declare_phase_of VerifyRunType ctx [a] = (ctx, nil_error)) as ->.
  { unfold declare_phase_of. rw bool_decide_eq_false_2; [|done]. unfold check_no_declarer. cbn [range_res]. by rw Hh. }
  unfold nil_error at 1. destruct (run_stage_single 0 ctx a Hok) as (ctx' & s & e & -> & Hc).
  exists ctx', s, e. by split.
Qed.

(** The default hashes of a context. *)
Definition context_hashes : list DigestValue := [mkDV SHA256 false false; mkDV SHA256 true false; mkDV SHA1 true false].

(** [Run] in insecure mode with one attestor, which is not exported and succeeds. *)
Lemma Run_verify wd rnd name a :
  name ≠ "" → Attestor_RunType a = VerifyRunType → DeclareHooks a = None →
  (∀ ctx, ctx_hashes ctx = context_hashes → let a' := out_attestor (Attest a ctx) in
     out_error (Attest a ctx) = nil_error ∧ Exporter_Export a' = None ∧ MultiExporter_ExportedAttestations a' = None) →
  ∃ ctx s e, ctx_hashes ctx = context_hashes ∧
    Run (Ok wd) rnd name [RunWithInsecure true; RunWithAttestors [a]] =
      (mkRunResult (NewCollection name [mkCompletedAttestor (out_attestor (Attest a ctx)) s e None]) zero_envelope "", nil_error).
Proof.
  intros Hname Hrt Hh Ha. unfold Run, run. cbn [foldl RunWithInsecure RunWithAttestors app].
  unfold validateRunOpts. cbn [ro_stepName ro_signers ro_insecure length negb].
  rw (bool_decide_eq_false_2 (name = "")) //. rw andb_false_r. cbn [NewContext mbind res_bind foldl ro_attestationOpts].
  match goal with |- context [RunAttestors ?c] => set (ctx := c) end.
  assert (ctx_attestors ctx = [a] ∧ ctx_completed ctx = [] ∧ ctx_hashes ctx = context_hashes) as (Hatts & Hnil & Hhash) by done.
  clearbody ctx. destruct (Ha ctx Hhash) as (Hok & Hexp & Hmulti).
  destruct (RunAttestors_verify ctx a Hatts Hrt Hh Hok) as (ctx' & s & e & -> & Hc).
  exists ctx, s, e. split; [done|]. unfold CompletedAttestors. rw Hc Hnil. cbn [app].
  cbn [export_loop comp_Error comp_Attestor]. unfold export_one. rw Hmulti Hexp. unfold nil_error, RunWithAttestors, RunWithInsecure.
  cbn [export_loop ro_ignoreErrors ro_insecure ro_stepName ro_signers ro_attestors negb andb length app].
  rw bool_decide_eq_false_2; [|lia]. unfold collection_result. cbn [ro_insecure ro_stepName].
  assert (in_collection (mkCompletedAttestor (out_attestor (Attest a ctx)) s e None) = true) as Hin.
  { unfold in_collection. cbn [comp_Error comp_Attestor]. by rw Hmulti Hexp. }
  unfold NewCollection. rw (filter_cons_True (λ c, in_collection c = true) _ [] Hin) filter_nil. done.
Qed.
End one.

(** ** The policy and its verification *)

Section accepted.
Context `{CL : CryptoLib} `{TL : !TspLib} `{GI : GitoidLib} `{GL : GlobLib} `{FL : FulcioLib} `{RO : RangeOrder} {A S : Type}
  `{AO : AttestorOps A} `{RA : !Runnable A} `{RL : RegoLib} `{SS : !Sourcer A S} `{PJ : PolicyJson}
  `{SJ : StatementJson} `{CJ : CollectionJson} `{JL : !JsonLaws} `{SL : !SignatureLaws}.

Lemma check_policy_verifier_usable vo cv v :
  cv_Verifier cv = Some v → usable_verifier v → check_policy_verifier vo cv = Ok true.
Proof.
  unfold check_policy_verifier. intros -> (Hkey & (kid & Hne & Hkid) & Hnp). rw Hkid. cbn [wrap mbind res_bind].
  assert (∀ bs, Functionary_Validate (mkFunctionary "key" no_constraint kid) (Some v) bs = nil_error) as Hok.
  { intros bs. apply Functionary_Validate_usable; [by split; [|split; [exists kid|]]|done..]. }
  destruct v; try done; by rw Hok.
Qed.

(** A policy is accepted with the signatures of known signers. *)
Lemma VerifyPolicySignature_signed env ts ss now vo :
  Forall2 (λ s sig, ∃ rnd, sign_one rnd ts (preauthEncode (PayloadType env) (Payload env)) s = Ok sig) ss (Signatures env) →
  usable_options (policy_sig_options vo) → known_signers (policy_sig_options vo) ss →
  VerifyPolicySignature env now vo = nil_error.
Proof.
  intros HF Hus Hkn. destruct (signed_envelope_verifies _ _ ts ss now HF Hus Hkn) as (cvs & Hcvs & Hall & Hin).
  unfold VerifyPolicySignature. rw Hcvs. cbn [mbind res_bind].
  assert (cvs ≠ []) as Hne.
  { destruct Hkn as [Hk Hss]. destruct ss as [|s ss]; [simpl in Hk; lia|].
    apply Forall_cons in Hss as [(_ & v & Hv & _) _]. intros ->.
    pose proof (Hin s v (list_elem_of_here _ _) Hv) as H. by apply not_elem_of_nil in H. }
  match goal with |- context [range_res ?f false cvs] => set (g := f) end.
  assert (∀ l b, (∀ cv, cv ∈ l → check_policy_verifier vo cv = Ok true) →
    range_res g b l = Ok (b || bool_decide (l ≠ []))) as Hg.
  { induction l as [|cv l IH]; intros b Hl; [by rw orb_false_r|]. cbn [range_res].
    assert (g b cv = Ok true) as ->. { unfold g. rw Hl; [|left]. cbn [mbind res_bind]. by rw orb_true_r. }
    cbn [mbind res_bind]. rw IH; [|intros; apply Hl; by right]. by rw orb_true_r. }
  rw Hg; [by rw bool_decide_eq_true_2|]. intros cv (v & ? & ?)%Hall. by eapply check_policy_verifier_usable.
Qed.
End accepted.

(** Signers that hold keys, whose verifiers are of a kind. *)
Definition signed_by `{CL : CryptoLib} (P : Verifier → Prop) (ss : list Signer) : Prop :=
  ss ≠ [] ∧ Forall (λ s, key_signer s = true ∧ ∃ v, Signer_Verifier s = Ok v ∧ P v) ss.

Lemma signed_by_known `{CL : CryptoLib} `{TL : !TspLib} vopts (P : Verifier → Prop) ss :
  threshold (apply_verification_options vopts) = 1%Z →
  (∀ v, P v → Some v ∈ verifiers (apply_verification_options vopts)) → signed_by P ss → known_signers vopts ss.
Proof.
  intros Ht HP [Hne HF]. split.
  - rw Ht. destruct ss; [done|]. cbn [length]. lia.
  - eapply Forall_impl; [exact HF|]. intros s (Hk & v & Hv & Hin). split; [done|]. exists v. split; [done|by apply HP].
Qed.

Section attest.
Context `{CL : CryptoLib} `{TL : !TspLib} `{GI : GitoidLib} `{GL : GlobLib} `{FL : FulcioLib} `{RO : RangeOrder} {A S : Type}
  `{AO : AttestorOps A} `{RA : !Runnable A} `{RL : RegoLib} `{SS : !Sourcer A S} `{PJ : PolicyJson}
  `{SJ : StatementJson} `{CJ : CollectionJson} `{JL : !JsonLaws} `{SL : !SignatureLaws}.

(** SHA-256 is linked into the program. *)
Context (Hlinked : linked context_hashes).

Lemma summary_ok now env (results : gmap string (StepResult A)) accepted :
  ∃ s, verificationSummaryFromResults context_hashes now env results accepted = Ok s.
Proof.
  unfold verificationSummaryFromResults, input_attestations.
  match goal with |- context [collect ?f ?l] => destruct (collect_total f l) as [x ->] end.
  { intros c _. unfold CalculateDigestSetFromBytes.
    destruct (CalculateDigestSet_total (Payload (ce_Envelope (cvr_Envelope c))) _ Hlinked) as [d ->]. by eexists. }
  unfold CalculateDigestSetFromBytes. destruct (CalculateDigestSet_total (Payload env) _ Hlinked) as [d ->]. by eexists.
Qed.

Lemma nilable_answers fs (runs : list (signed_run (A := A))) (source : S) :
  answers_runs fs runs source → answers_runs (S := option S) fs runs (Some source).
Proof. unfold answers_runs. intros H name ds atts. unfold Search, nilable_Sourcer. by rw H. Qed.

Context (fs : factory_state A) (runs : list (signed_run (A := A))) (source : S) (st : kms_state).

(** The text of a policy, the keys that it names, which can all be used, and its roots. *)
Record policy_keys (text : bytes) (ko : KMSSetters) (p : Policy) (pubkeys : gmap string Verifier)
    (bundles authorities : gmap string TrustBundle) : Prop := {
  keys_policy : json_Unmarshal_Policy text = Ok p;
  keys_public : PublicKeyVerifiers st p ko = Ok pubkeys;
  keys_usable : map_Forall (λ _ v, usable_verifier v) pubkeys;
  keys_bundles : TrustBundles p = Ok bundles;
  keys_authorities : TimestampAuthorityTrustBundles p = Ok authorities;
}.

(** The results have envelopes of runs, for every step, and no others. *)
Definition passed_with_runs (p : Policy) (results : gmap string (StepResult A)) : Prop :=
  ∀ name step, Steps p !! name = Some step →
    ∃ r, results !! name = Some r ∧ sr_Passed r ≠ [] ∧
      ∀ c, c ∈ sr_Passed r → ∃ run, run ∈ runs ∧ coll_Name (run_collection run) = name ∧
        ce_Envelope (cvr_Envelope c) = run_envelope run.

Lemma PV_Attest_accepts now clock a p pubkeys bundles authorities :
  NoDup (run_ref <$> runs) → Forall (comes_from_run fs) runs → answers_runs fs runs source →
  VerifyPolicySignature (pv_policyEnvelope a) now (pv_options a) = nil_error →
  policy_keys (Payload (pv_policyEnvelope a)) (pv_kmsProviderOptions a) p pubkeys bundles authorities →
  Forall (λ r, signed_by (λ v, ∃ id, pubkeys !! id = Some v) (run_signers r)) runs →
  (now ≤ unix_nano (Expires p))%Z → pv_subjectDigests a ≠ [] → pv_collectionSource a = Some source →
  (∀ name step, Steps p !! name = Some step → runs_meet runs p (pv_subjectDigests a) name step) →
  ∃ a', PV_Attest st context_hashes now clock a = (a', nil_error) ∧
    vsum_VerificationResult (pv_summary a') = PassedVerificationResult ∧ passed_with_runs p (pv_stepResults a').
Proof.
  intros Hrefs Hruns Hsource Hsig [Hp Hpub Hus Hb Hta] Hsigned Hexp Hne Hsrc Hmeet.
  set (vopts := collection_options pubkeys bundles authorities).
  assert (∀ v, Some v ∈ verifiers (apply_verification_options vopts) ↔ ∃ id, pubkeys !! id = Some v) as Hv.
  { intros v. change (verifiers (apply_verification_options vopts)) with (Some <$> (range_map 0 pubkeys).*2).
    rw elem_of_some_fmap list_elem_of_fmap. split.
    - intros ([id v'] & -> & H%elem_of_range). by exists id.
    - intros [id H]. exists (id, v). split; [done|]. by apply elem_of_range. }
  assert (usable_options vopts) as Husable.
  { intros ov Hov. assert (∃ v, ov = Some v) as [v ->] by by apply list_elem_of_fmap in Hov as (v & -> & _); exists v.
    exists v. split; [done|]. apply Hv in Hov as [id H]. by apply (Hus id). }
  assert (Forall (λ r, known_signers vopts (run_signers r)) runs) as Hknown.
  { eapply Forall_impl; [exact Hsigned|]. intros r. apply signed_by_known; [done|]. intros v. apply Hv. }
  destruct (Policy_Verify_supplied p bundles (pv_subjectDigests a) _ _
    (runs_supply fs vopts runs (Some source) Hrefs Hruns Hknown Husable (nilable_answers _ _ _ Hsource) p bundles _ clock Hmeet)
    now [WithSubjectDigests (pv_subjectDigests a); WithVerifiedSource (Some (NewVerifiedSource clock (Some source) vopts))]
    (NewVerifiedSource clock (Some source) vopts)) as (s' & results & H & Hall); [|done..|by exists 0|].
  { unfold checkVerifyOpts. cbn. case_bool_decide as Hl; [by apply nil_length_inv in Hl|done]. }
  unfold PV_Attest. rw Hsig. cbn [nil_error wrap mbind res_bind]. rw Hp. cbn [wrap mbind res_bind].
  rw Hpub. cbn [wrap mbind res_bind]. rw Hb. cbn [wrap mbind res_bind]. rw Hta. cbn [wrap mbind res_bind].
  rw Hsrc. fold vopts. rw H. cbn [wrap]. cbn [pv_policyEnvelope].
  destruct (summary_ok now (pv_policyEnvelope a) results true) as [s Hs]. rw Hs. eexists. split; [done|].
  cbn [pv_summary pv_stepResults]. split; [by apply (summary_result _ _ _ _ _ _ Hs)|].
  intros name step Hstep. destruct (Hall name step Hstep) as (r & Hr & Hpass & Hc).
  exists r. split; [done|]. split; [done|]. intros c Hcin. destruct (Hc c Hcin) as (c0 & (run & Hrun & Hres) & ->).
  exists run. destruct Hres as (? & _ & ? & _). done.
Qed.
End attest.

(** C5: what runs sign, [Verify] accepts under a signed policy that expects it. A policy is
    signed, and verified with verifiers among which are those of its signers; a source
    answers as a memory source does into which the envelopes of successful runs were loaded,
    each under a reference of its own; each run is signed with keys that the policy names.
    If every step of the policy has a run with its name and one of the digests given, and
    all the runs with its name have the attestations it expects, a signer that is one of its
    functionaries, and materials that agree with the artifacts of the runs of the steps
    these come from, then before the policy expires [Verify] returns without an error, and
    every step has passed with the envelopes of its runs, whatever the schedules of the
    runs, the clocks and the orders of the maps.

    What it asks besides: the strings of a run's collection are valid UTF-8, since
    encoding/json replaces other bytes; each attestor is of a registered type and what it
    writes is read back by its factory's attestor with the same type, materials, products and
    JSON, though not the same unexported fields; encoding/json keeps to [JsonLaws]; SHA-256
    is linked; and the signature schemes accept what they have signed. The verifiers hold
    keys that are not certificates. *)
Theorem run_then_Verify `{CL : CryptoLib} `{TL : !TspLib} `{GI : GitoidLib} `{GL : GlobLib} `{FL : FulcioLib}
    `{RO : RangeOrder} `{SC : Scheduler} `{CK : Clock} {A S : Type} `{AO : AttestorOps A} `{RA : !Runnable A} `{RL : RegoLib}
    `{SS : !Sourcer A S} `{PJ : PolicyJson} `{SJ : StatementJson} `{CJ : CollectionJson} {st : kms_state}
    `{PV : !PolicyVerifyAttestor A S st} `{JL : !JsonLaws} `{SL : !SignatureLaws}
    (fs : factory_state A) (runs : list signed_run) (source : S) (wd : string) (rnd : nat → nat → bytes)
    (prnd : nat → bytes) (bodyType text : string) (ps : list Signer) (ts : list Timestamper) (pvs : list Verifier) (env : Envelope)
    (p : Policy) (pubkeys : gmap string Verifier) (bundles authorities : gmap string TrustBundle) (sets : list DigestSet) :
  let digests := sets ≫= λ set, (range_map 0 set).*2 in
  linked context_hashes →
  NoDup (run_ref <$> runs) → Forall (comes_from_run fs) runs → answers_runs fs runs source →
  Sign prnd bodyType (Ok text) [SignWithSigners (Some <$> ps); SignWithTimestampers ts] = Ok env →
  signed_by (λ v, v ∈ pvs) ps → Forall usable_verifier pvs →
  policy_keys st text ∅ p pubkeys bundles authorities →
  Forall (λ r, signed_by (λ v, ∃ id, pubkeys !! id = Some v) (run_signers r)) runs →
  (∀ ctx, (pv_now ctx ≤ unix_nano (Expires p))%Z) → digests ≠ [] →
  (∀ name step, Steps p !! name = Some step → runs_meet runs p digests name step) →
  ∃ vr, Verify (Ok wd) rnd env (Some <$> pvs) [VerifyWithSubjectDigests sets; VerifyWithCollectionSource (Some source)] =
      (vr, nil_error) ∧ passed_with_runs runs p (vr_StepResults vr).
Proof.
  intros digests Hlinked Hrefs Hruns Hsource Hsign Hps Hpvs Hkeys Hsigned Hexp Hne Hmeet.
  apply Sign_key_Forall2 in Hsign as (Hpay & Hpt & HF). unfold Verify.
  cbn [foldl VerifyWithSubjectDigests VerifyWithCollectionSource add_attestor_options vopt_attestorOptions vopt_runOptions
    vopt_signers vopt_verifyPolicySignatureOptions vopt_kmsProviderOptions app].
  match goal with |- context [verify_attestor _ _ ?o] => set (vo := o) end. set (a := verify_attestor _ _ vo).
  assert (∀ now clock, (now ≤ unix_nano (Expires p))%Z → ∃ a', PV_Attest st context_hashes now clock a = (a', nil_error) ∧
    vsum_VerificationResult (pv_summary a') = PassedVerificationResult ∧ passed_with_runs runs p (pv_stepResults a')) as Hatt.
  { intros now clock Hnow.
    apply (PV_Attest_accepts Hlinked fs runs source st now clock a p pubkeys bundles authorities); try done; [|by rw Hpay].
    apply (VerifyPolicySignature_signed _ ts ps); [by rw Hpay Hpt| |].
    - intros ov (v & -> & Hv)%list_elem_of_fmap. exists v. split; [done|]. by apply (proj1 (Forall_forall _ _) Hpvs).
    - apply (signed_by_known _ (λ v, v ∈ pvs)); [done| |done]. intros v Hv. by apply (list_elem_of_fmap_2 Some). }
  destruct (Run_verify wd rnd "policyverify" (pv_inject a)) as (ctx & s & e & Hctx & Hrun); [done|apply pv_run_type|apply pv_hooks| |].
  { intros ctx Hctx. cbv zeta. destruct (pv_attest a ctx) as [-> ->]. rw Hctx.
    destruct (Hatt (pv_now ctx) (pv_clock ctx) (Hexp ctx)) as (a' & -> & _).
    split; [done|]. split; [apply pv_exporter|apply pv_multi]. }
  change (verify_run_options a vo) with [RunWithInsecure true; RunWithAttestors [pv_inject a]]. rw Hrun.
  cbn [rr_Collection NewCollection coll_Attestations fmap list_fmap]. destruct (pv_attest a ctx) as [-> _]. rw Hctx.
  destruct (Hatt (pv_now ctx) (pv_clock ctx) (Hexp ctx)) as (a' & -> & Hpass & Hres).
  cbn [fst read_summary NewCollectionAttestation ca_Type ca_Attestation comp_Attestor]. rw pv_type.
  rw bool_decide_eq_true_2 //. cbn [type_assert]. rw pv_project_inject Hpass. rw bool_decide_eq_false_2; [|naive_solver].
  eexists. split; [done|]. exact Hres.
Qed.

(** * An instance of the laws

    Texts are framed: the length of a text in unary, then the text. *)
Module Framed.
Fixpoint unary (n : nat) : string := match n with 0 => "b" | S n => String "a" (unary n) end.
Fixpoint count (s : string) : nat * string :=
  match s with
  | EmptyString => (0, "")
  | String c s => if bool_decide (c = "a"%char) then (S (count s).1, (count s).2) else (0, s)
  end.
Definition frame (s : string) : string := unary (slen s) +:+ s.
Definition pack (l : list string) : string := foldr (λ s acc, frame s +:+ acc) "" l.
Fixpoint unpack_fuel (fuel : nat) (s : string) : list string :=
  match fuel, s with
  | S fuel, String _ _ =>
      let '(n, rest) := count s in take_str n rest :: unpack_fuel fuel (drop_str n rest)
  | _, _ => []
  end.
Definition unpack (s : string) : list string := unpack_fuel (slen s) s.

Lemma count_unary n s : count (unary n +:+ s) = (n, s).
Proof.
  induction n as [|n IH]; [done|].
  change (count (unary (S n) +:+ s)) with (S (count (unary n +:+ s)).1, (count (unary n +:+ s)).2). by rw IH.
Qed.
Lemma slen_unary n : slen (unary n) = S n.
Proof. induction n as [|n IH]; [done|]. cbn [unary String.length]. by rw IH. Qed.

Lemma unpack_pack_fuel l fuel : slen (pack l) ≤ fuel → unpack_fuel fuel (pack l) = l.
Proof.
  revert fuel; induction l as [|s l IH]; intros fuel Hf; [by destruct fuel|].
  cbn [pack foldr] in *. fold (pack l) in *. unfold frame in *. autorewrite with gostr in Hf. rw slen_unary in Hf.
  destruct fuel as [|fuel]; [lia|]. autorewrite with gostr.
  assert (∃ c t, unary (slen s) +:+ (s +:+ pack l) = String c t) as (c & t & Hc) by (destruct (slen s); by do 2 eexists).
  cbn [unpack_fuel]. rw Hc. rw -Hc count_unary take_str_app drop_str_app IH; [done|lia].
Qed.
Lemma unpack_pack l : unpack (pack l) = l.
Proof. by apply unpack_pack_fuel. Qed.

(** Numbers, by their bits. *)
Fixpoint bits (p : positive) : string :=
  match p with xH => "" | xO p => String "0" (bits p) | xI p => String "1" (bits p) end.
Fixpoint unbits (s : string) : positive :=
  match s with
  | EmptyString => xH
  | String c s => if bool_decide (c = "0"%char) then xO (unbits s) else xI (unbits s)
  end.
Lemma unbits_bits p : unbits (bits p) = p.
Proof. induction p as [p IH|p IH|]; cbn; [by rw IH..|done]. Qed.
Definition write_Z (z : Z) : string := bits (countable.encode z).
Definition read_Z (s : string) : Z := default 0%Z (countable.decode (unbits s)).
Lemma read_write_Z z : read_Z (write_Z z) = z.
Proof. unfold read_Z, write_Z. by rw unbits_bits decode_encode. Qed.

(** Maps of strings, by their entries. *)
Definition write_map (m : gmap string string) : string := pack ((λ kv, pack [kv.1; kv.2]) <$> map_to_list m).
Definition read_pair (s : string) : string * string :=
  match unpack s with [k; v] => (k, v) | _ => ("", "") end.
Definition read_map (s : string) : gmap string string := list_to_map (read_pair <$> unpack s).
Lemma read_write_map m : read_map (write_map m) = m.
Proof.
  unfold read_map, write_map. rw unpack_pack -list_fmap_compose. rw -{2}(list_to_map_to_list m). f_equal.
  rw -{2}(list_fmap_id (map_to_list m)). apply list_fmap_ext. intros _ [k v] _.
  unfold compose, read_pair. by rw unpack_pack.
Qed.

Definition write_subject (s : Subject) : string := pack [subj_Name s; write_map (subj_Digest s)].
Definition read_subject (s : string) : Subject :=
  match unpack s with [n; m] => mkSubject n (read_map m) | _ => mkSubject "" ∅ end.
Lemma read_write_subject s : read_subject (write_subject s) = s.
Proof. unfold read_subject, write_subject. rw unpack_pack read_write_map. by destruct s. Qed.

Definition malformed {X} : res X := Err (External "malformed").
Definition write_statement (st : Statement) : res string :=
  Ok (pack (stmt_Type st :: stmt_PredicateType st :: stmt_Predicate st :: (write_subject <$> stmt_Subject st))).
Definition read_statement (s : string) : res Statement :=
  match unpack s with
  | t :: pt :: p :: subjects => Ok (mkStatement t (read_subject <$> subjects) pt p)
  | _ => malformed
  end.
Definition write_collection (name : string) (raws : list bytes) : res bytes := Ok (pack (name :: raws)).
Definition read_collection (s : bytes) : res (string * list bytes) :=
  match unpack s with name :: raws => Ok (name, raws) | [] => malformed end.
Definition write_proposed (p : proposedAttestation) : res bytes :=
  Ok (pack [proposed_Type p; proposed_Attestation p; write_Z (unix_nano (proposed_StartTime p));
            write_Z (unix_nano (proposed_EndTime p))]).
Definition read_proposed (s : bytes) : res proposedAttestation :=
  match unpack s with
  | [t; a; st; en] => Ok (mkProposed t a (mkTime (read_Z st) "") (mkTime (read_Z en) ""))
  | _ => malformed
  end.

Definition framed_statement : StatementJson :=
  {| json_Marshal_Statement := write_statement; json_Unmarshal_Statement := read_statement |}.
Definition framed_collection : CollectionJson :=
  {| json_Unmarshal_Collection := read_collection; json_Marshal_Collection := write_collection;
     json_Unmarshal_proposed := read_proposed; json_Marshal_proposed := write_proposed;
     json_Unmarshal_Envelope _ := malformed; json_Marshal_Envelope _ := malformed |}.

Lemma Ok_inj {X} (a b : X) : Ok a = Ok b → a = b.
Proof. by intros [=]. Qed.
Lemma read_write_statement st text : write_statement st = Ok text → read_statement text = Ok st.
Proof.
  unfold write_statement, read_statement. intros <-%Ok_inj. rw unpack_pack -list_fmap_compose.
  rw (list_fmap_ext _ id); [by rw list_fmap_id; destruct st|]. intros _ s _. apply read_write_subject.
Qed.
Lemma read_write_collection name raws text :
  write_collection name raws = Ok text → read_collection text = Ok (name, raws).
Proof. unfold write_collection, read_collection. intros <-%Ok_inj. by rw unpack_pack. Qed.
Lemma read_write_proposed p text : write_proposed p = Ok text →
  ∃ p', read_proposed text = Ok p' ∧ proposed_Type p' = proposed_Type p ∧
    proposed_Attestation p' = proposed_Attestation p ∧
    unix_nano (proposed_StartTime p') = unix_nano (proposed_StartTime p) ∧
    unix_nano (proposed_EndTime p') = unix_nano (proposed_EndTime p).
Proof.
  unfold write_proposed, read_proposed. intros <-%Ok_inj. rw unpack_pack. eexists. split; [done|].
  cbn [proposed_Type proposed_Attestation proposed_StartTime proposed_EndTime unix_nano]. by rw !read_write_Z.
Qed.

(** This encoding reads back every text. *)
Lemma framed_laws {A} `{AO : AttestorOps A} : @JsonLaws A AO framed_statement framed_collection.
Proof.
  refine (@Build_JsonLaws A AO framed_statement framed_collection (λ _, True) _ _ _ _ _ _); [done..| | |].
  - intros stmt text _ _ _ _. apply read_write_statement.
  - intros name raws text _ _. apply read_write_collection.
  - intros p text _ _ (p' & ? & ? & ? & _)%read_write_proposed. by exists p'.
Qed.
End Framed.

(** The run of RunTheorems.v with this JSON. *)
Definition rt_attestor : toyA :=
  TA (mkToy "p" "p" ProductRunType None None (Some {["artifact" := {[mkDV SHA256 false false := "d1"]}]}) None None false).
Definition rt_factory : factory_state toyA :=
  RegisterAttestation (RegisterAttestation factory_init "p" "p" ProductRunType (λ _, rt_attestor) [])
    "m" "m" MaterialRunType (λ _, TA (toy_plain "m" "m" MaterialRunType)) [].
Definition rt_opts : list (@RunOption toy_crypto toyA) :=
  [RunWithAttestors [rt_attestor; TA (toy_plain "m" "m" MaterialRunType)]; RunWithSigners [Some (toy_signer "alice")]].
Abbreviation rt_run := (run (SJ := Framed.framed_statement) (CJ := Framed.framed_collection) (Ok "/") (λ _ _, "") "step" rt_opts).

Lemma rt_reads_back r ca :
  r ∈ rt_run.1 → ca ∈ coll_Attestations (rr_Collection r) →
  attestation_reads_back rt_factory ca.
Proof.
  assert (rr_Collection <$> rt_run.1 = [mkCollection "step"
    [mkCollectionAttestation "m" (Some (TA (toy_plain "m" "m" MaterialRunType))) toy_time toy_time;
     mkCollectionAttestation "p" (Some rt_attestor) toy_time toy_time]]) as Hc by (vm_compute; reflexivity).
  intros Hr%(list_elem_of_fmap_2 rr_Collection). rw Hc in Hr. clear Hc. apply list_elem_of_singleton in Hr as ->.
  assert (∀ a, a = TA (toy_plain "m" "m" MaterialRunType) ∨ a = rt_attestor → reads_back rt_factory (Attestor_Type a) a) as Hread.
  { intros a [-> | ->]; (eexists; split; [vm_compute; reflexivity|]; intros data <-%Framed.Ok_inj; eexists; split; [reflexivity|by split]). }
  cbn [coll_Attestations]. intros [->|[->|?%not_elem_of_nil]%elem_of_cons]%elem_of_cons; [| |done];
    (eexists; split; [reflexivity|]; cbn [ca_Type]).
  - apply (Hread (TA (toy_plain "m" "m" MaterialRunType))). by left.
  - apply (Hread rt_attestor). by right.
Qed.

Lemma rt_valid r : r ∈ rt_run.1 → valid_texts (rr_Collection r).
Proof.
  assert (Forall valid_texts (rr_Collection <$> rt_run.1)) as H by (apply (bool_decide_unpack _); vm_compute; exact I).
  intros Hr. exact (proj1 (Forall_forall _ _) H _ (list_elem_of_fmap_2 rr_Collection _ _ Hr)).
Qed.

Lemma run_then_Search_witness :
  ∃ env s ce, @LoadEnvelope canonical_order toyA _ Framed.framed_statement Framed.framed_collection rt_factory
      NewMemorySource "ref" env = Ok s ∧
    MemorySource_Search s "step" ["d1"] ["m"; "p"] = (s, Ok [ce]) ∧ ce_Envelope ce = env.
Proof.
  destruct (run_then_Search (SJ := Framed.framed_statement) (CJ := Framed.framed_collection) (JL := Framed.framed_laws)
    rt_factory (Ok "/") (λ _ _, "") "step" rt_opts rt_run.1) as (exported & coll & env & Hres & Hname & H).
  - apply pair_of_snd. vm_compute. reflexivity.
  - reflexivity.
  - exact rt_valid.
  - exact rt_reads_back.
  - assert (coll = rr_Collection (default zero_RunResult (last rt_run.1))) as Hcoll.
    { rewrite Hres last_snoc. reflexivity. }
    destruct (H "ref" "p/artifact" {[mkDV SHA256 false false := "d1"]} (mkDV SHA256 false false) "d1" ["m"; "p"])
      as (s & ce & Hs & Hf & He & _).
    + rewrite Hcoll. vm_compute. reflexivity.
    + vm_compute. reflexivity.
    + intros t Ht. rewrite Hcoll. apply (bool_decide_eq_true_1 (t ∈ _)).
      apply elem_of_cons in Ht as [->|Ht]; [vm_compute; reflexivity|]. apply list_elem_of_singleton in Ht as ->.
      vm_compute. reflexivity.
    + exists env, s, ce. split; [exact Hs|]. split; [exact Hf|exact He].
Defined.

(** ** Two runs and a policy with both steps *)

(** Alice builds an artifact; bob uses it and makes a report. *)
Definition rt_digest (d : string) : DigestSet := {[mkDV SHA256 false false := d]}.
Definition rt_built : toyA :=
  TA (mkToy "built" "built" ProductRunType None (Some {["artifact" := mkProduct "" (rt_digest "d1")]})
        (Some {["artifact" := rt_digest "d1"]}) None None false).
Definition rt_used : toyA :=
  TA (mkToy "used" "used" MaterialRunType (Some {["artifact" := rt_digest "d1"]}) None None None None false).
Definition rt_report : toyA :=
  TA (mkToy "report" "report" ProductRunType None None (Some {["report" := rt_digest "d2"]}) None None false).
Definition rt_factories : factory_state toyA :=
  foldl (λ fs a, RegisterAttestation fs (Attestor_Name a) (Attestor_Type a) (Attestor_RunType a) (λ _, a) [])
    factory_init [rt_built; rt_used; rt_report].

Definition rt_step_opts (attestors : list toyA) (signer : string) : list (@RunOption toy_crypto toyA) :=
  [RunWithAttestors attestors; RunWithSigners [Some (toy_signer signer)]].
Definition rt_step_run (name signer : string) (attestors : list toyA) :=
  run (SJ := Framed.framed_statement) (CJ := Framed.framed_collection) (Ok "/") (λ _ _, "") name (rt_step_opts attestors signer).
Definition rt_signed (name signer : string) (attestors : list toyA) : signed_run :=
  let r := default zero_RunResult (head (rt_step_run name signer attestors).1) in
  mkSignedRun ("ref of " +:+ name) (rr_Collection r) (rr_SignedEnvelope r) [toy_signer signer].
Definition rt_runs : list (signed_run (A := toyA)) :=
  [rt_signed "build" "alice" [rt_built]; rt_signed "test" "bob" [rt_used; rt_report]].

Lemma rt_run_comes name signer attestors :
  (name, signer, attestors) = ("build", "alice", [rt_built]) ∨ (name, signer, attestors) = ("test", "bob", [rt_used; rt_report]) →
  comes_from_run (SJ := Framed.framed_statement) (CJ := Framed.framed_collection) rt_factories (rt_signed name signer attestors).
Proof.
  intros Hcase. exists _, _, (Ok "/"), (λ _ _, ""), name, (rt_step_opts attestors signer), [].
  split; [|split; [reflexivity|split; [reflexivity|split]]].
  - destruct Hcase as [[= -> -> ->]|[= -> -> ->]]; vm_compute; reflexivity.
  - apply (bool_decide_unpack _). destruct Hcase as [[= -> -> ->]|[= -> -> ->]]; vm_compute; exact I.
  - assert (∀ a, a ∈ [rt_built; rt_used; rt_report] → reads_back rt_factories (Attestor_Type a) a) as Hread.
    { intros a Ha. repeat (apply elem_of_cons in Ha as [->|Ha]; [|]); [..|by apply not_elem_of_nil in Ha];
        (eexists; split; [vm_compute; reflexivity|]; intros data <-%Framed.Ok_inj; eexists; split; [reflexivity|by split]). }
    assert (∃ l, l ⊆ [rt_built; rt_used; rt_report] ∧
      (λ ca, (ca_Type ca, ca_Attestation ca)) <$> coll_Attestations (run_collection (rt_signed name signer attestors)) =
      (λ a, (Attestor_Type a, Some a)) <$> l) as (l & Hl & Heq).
    { exists attestors. destruct Hcase as [[= -> -> ->]|[= -> -> ->]]; (split; [set_solver|vm_compute; reflexivity]). }
    unfold attestation_reads_back. intros ca Hca%(list_elem_of_fmap_2 (λ ca, (ca_Type ca, ca_Attestation ca))). rewrite Heq in Hca.
    apply list_elem_of_fmap in Hca as (a & [= -> ->] & Ha). exists a. split; [reflexivity|]. by apply Hread, Hl.
Qed.

(** The runs with the name of a step. *)
Lemma rt_runs_named (P : signed_run → Prop) name :
  (name = "build" → P (rt_signed "build" "alice" [rt_built])) → (name = "test" → P (rt_signed "test" "bob" [rt_used; rt_report])) →
  ∀ r, r ∈ rt_runs → coll_Name (run_collection r) = name → P r.
Proof.
  intros H1 H2 r [->|[->|?%not_elem_of_nil]%elem_of_cons]%elem_of_cons Hn; [| |done].
  - apply H1. rw -Hn. by vm_compute.
  - apply H2. rw -Hn. by vm_compute.
Qed.

Ltac each_element H := repeat (apply elem_of_cons in H as [->|H]; [|]); [..|by apply not_elem_of_nil in H].

Lemma rt_two_steps_met name step :
  Steps toy_two_steps !! name = Some step → runs_meet rt_runs toy_two_steps ["d1"; "d2"] name step.
Proof.
  unfold toy_two_steps at 1. cbn [Steps].
  intros [[<- <-]|[_ [<- <-]%lookup_singleton_Some]]%lookup_insert_Some.
  - split; [done| | | |].
    + exists (rt_signed "build" "alice" [rt_built]). split; [left|]. split; [by vm_compute|].
      exists "d1". split; [left|]. exists "built/artifact", (rt_digest "d1"), (mkDV SHA256 false false). by vm_compute.
    + apply rt_runs_named; [|intros [=]]. intros _ e He. each_element He. eexists. split; vm_compute; reflexivity.
    + apply rt_runs_named; [|intros [=]]. intros _. exists (toy_signer "alice"), (toy_ed "alice"), (toy_key_of "alice").
      do 2 (split; [by vm_compute; try left|]). split; [left|]. by vm_compute.
    + by intros from ?%not_elem_of_nil.
  - split; [done| | | |].
    + exists (rt_signed "test" "bob" [rt_used; rt_report]). split; [right; left|]. split; [by vm_compute|].
      exists "d2". split; [right; left|]. exists "report/report", (rt_digest "d2"), (mkDV SHA256 false false). by vm_compute.
    + apply rt_runs_named; [intros [=]|]. intros _ e He. each_element He; eexists; split; vm_compute; reflexivity.
    + apply rt_runs_named; [intros [=]|]. intros _. exists (toy_signer "bob"), (toy_ed "bob"), (toy_key_of "bob").
      do 2 (split; [by vm_compute; try left|]). split; [left|]. by vm_compute.
    + intros from Hfrom. each_element Hfrom. split; [by eexists|]. intros r r' Hr Hr' Hn Hn'.
      revert r Hr Hn.
      apply (rt_runs_named (λ r, artifacts_agree (Collection_Materials (run_collection r)) (Collection_Artifacts (run_collection r')))).
      { intros [=]. } intros _. revert r' Hr' Hn'. apply rt_runs_named; [|intros [=]]. intros _.
      apply compareArtifacts_None. vm_compute. reflexivity.
Qed.

(** Carol signs the policy. *)
Definition rt_policy_envelope : res Envelope :=
  Sign (λ _, "") PolicyPredicate (Ok "STEPS") [SignWithSigners [Some (toy_signer "carol")]; SignWithTimestampers []].

Lemma toy_ed_usable name : toy_key_id name ≠ "" → @usable_verifier toy_crypto (toy_ed name).
Proof.
  intros Hid. split; [exact I|]. split; [exists (toy_key_id name); split; [exact Hid|reflexivity]|].
  intros body sig w. unfold Verifier_Verify, toy_ed, ED25519Verifier_Verify. destruct (ed25519_Verify _ _ _); discriminate.
Qed.

Lemma run_then_Verify_witness : ∃ env vr, rt_policy_envelope = Ok env ∧
  Verify (A := toyA) (S := MemorySource toyA) (SJ := Framed.framed_statement) (CJ := Framed.framed_collection) (st := toy_kms)
    (Ok "/") (λ _ _, "") env [Some (toy_ed "carol")] [VerifyWithSubjectDigests [rt_digest "d1"; rt_digest "d2"];
      VerifyWithCollectionSource (Some (load_all (SJ := Framed.framed_statement) (CJ := Framed.framed_collection) rt_factories (run_loads rt_runs)))] =
    (vr, nil_error).
Proof.
  destruct rt_policy_envelope as [env| |] eqn:Henv; [|discriminate|discriminate].
  destruct (run_then_Verify (S := MemorySource toyA) (SJ := Framed.framed_statement) (CJ := Framed.framed_collection) (st := toy_kms)
    (JL := Framed.framed_laws) rt_factories rt_runs
    (load_all (SJ := Framed.framed_statement) (CJ := Framed.framed_collection) rt_factories (run_loads rt_runs))
    "/" (λ _ _, "") (λ _, "") PolicyPredicate "STEPS" [toy_signer "carol"] [] [toy_ed "carol"] env toy_two_steps
    {[toy_key_id "alice" := toy_ed "alice"; toy_key_id "bob" := toy_ed "bob"]} ∅ ∅ [rt_digest "d1"; rt_digest "d2"]) as (vr & H & _).
  - apply (bool_decide_unpack _). vm_compute. exact I.
  - apply (bool_decide_unpack _). vm_compute. exact I.
  - apply Forall_cons; split; [|apply Forall_cons; split; [|apply Forall_nil; exact I]]; apply rt_run_comes; [left|right]; reflexivity.
  - intros name ds atts. reflexivity.
  - exact Henv.
  - split; [discriminate|]. apply Forall_cons; split; [|apply Forall_nil; exact I].
    split; [reflexivity|]. eexists. split; [reflexivity|left].
  - apply Forall_cons; split; [|apply Forall_nil; exact I]. apply toy_ed_usable. vm_compute. discriminate.
  - split; [reflexivity|vm_compute; reflexivity| |vm_compute; reflexivity|vm_compute; reflexivity].
    apply map_Forall_insert_2; [|apply map_Forall_singleton]; apply toy_ed_usable; vm_compute; discriminate.
  - apply Forall_cons; split; [|apply Forall_cons; split; [|apply Forall_nil; exact I]];
      (split; [discriminate|apply Forall_cons; split; [|apply Forall_nil; exact I]]);
      (split; [reflexivity|eexists; split; [reflexivity|]]);
      [exists (toy_key_id "alice")|exists (toy_key_id "bob")]; vm_compute; reflexivity.
  - intros ctx. vm_compute. discriminate.
  - discriminate.
  - exact rt_two_steps_met.
  - exists env, vr. split; [reflexivity|exact H].
Defined.
