(* ===== verification/DataTheorems.v ===== *)
(** The properties of the data that the other components exchange: digest sets
    (cryptoutil), statements (intoto), and captured environment variables
    (environment), with witnesses on the instances of Toy.v and ToyWorld.v. *)
From S2P Require Import Prelude GoStrings Errors Crypto Keys Digest Timestamp Dsse Toy Intoto Registry Attestation Source Sched Constraints Environment Hooks Context VerifiedSource PolicyStep KMS Policy PolicySound PolicySig PolicyVerify Verify ToyWorld.

(** * Digest sets *)

(** A digest set is calculated for exactly the requested digests: when the plain
    hashes of the list are linked into the program, the result has one entry per
    requested digest, its text being the hex text of the hash of the bytes, or the
    gitoid. *)
Theorem CalculateDigestSet_spec `{CL : CryptoLib} `{GI : GitoidLib} `{RO : RangeOrder} (data : bytes)
    (dvs : list DigestValue) :
  linked dvs →
  ∃ ds, CalculateDigestSet (Ok data) dvs = Ok ds ∧
    ∀ dv, ds !! dv = if decide (dv ∈ dvs) then digest_text dv data else None.
Proof.
  intros [ds Hds]%(CalculateDigestSet_total data). exists ds. split; [done|]. intros dv.
  by apply CalculateDigestSet_lookup.
Qed.

Lemma CalculateDigestSet_spec_witness :
  let dvs := [mkDV SHA256 false false; mkDV SHA256 true false; mkDV SHA1 true false] in
  ∃ ds, CalculateDigestSet (Ok "data") dvs = Ok ds ∧ ds !! mkDV SHA256 true false = Some "gitoid:blob:sha256:data".
Proof.
  intros dvs. destruct (CalculateDigestSet_spec "data" dvs) as (ds & Hds & Hl).
  - constructor; [right; vm_compute; by eexists|]. constructor; [by left|]. constructor; [by left|constructor].
  - exists ds. split; [exact Hds|]. rewrite Hl. vm_compute. reflexivity.
Defined.

(** Comparing digest sets compares contents: for two calculated digest sets whose
    lists share a linked plain hash that is injective, [Equal] holds exactly when
    the bytes are the same, whatever else the lists ask for. *)
Theorem DigestSet_Equal_content `{CL : CryptoLib} `{GI : GitoidLib} `{RO : RangeOrder} (a b : bytes)
    (dvs dvs' : list DigestValue) (ds ds' : DigestSet) (dv : DigestValue) (h : bytes → bytes) :
  CalculateDigestSet (Ok a) dvs = Ok ds → CalculateDigestSet (Ok b) dvs' = Ok ds' →
  dv ∈ dvs → dv ∈ dvs' → GitOID dv = false → hash_sum (dv_Hash dv) = Some h → Inj (=) (=) h →
  DigestSet_Equal ds ds' = true ↔ a = b.
Proof.
  intros H H' Hin Hin' Hg Hh Hinj. split; [by eapply CalculateDigestSet_Equal_content|].
  intros ->. apply (CalculateDigestSet_Equal b dvs dvs'); [done..|]. exists dv. split; [done|]. split; [done|].
  unfold digest_text, DigestValue_New. rw Hg Hh. by eexists.
Qed.

Definition sha256_and_gitoid : list DigestValue := [mkDV SHA256 false false; mkDV SHA256 true false].
Definition toy_digests (data : bytes) : DigestSet :=
  match CalculateDigestSet (Ok data) sha256_and_gitoid with Ok ds => ds | _ => ∅ end.
Lemma DigestSet_Equal_content_witness :
  DigestSet_Equal (toy_digests "a") (toy_digests "b") = true ↔ "a" = "b".
Proof.
  apply (DigestSet_Equal_content "a" "b" sha256_and_gitoid sha256_and_gitoid (toy_digests "a") (toy_digests "b")
    (mkDV SHA256 false false) (λ d, "h" +:+ pretty SHA256 +:+ d)).
  - vm_compute. reflexivity.
  - vm_compute. reflexivity.
  - left.
  - left.
  - reflexivity.
  - reflexivity.
  - intros x y Hxy. by do 2 apply (inj (String.append _)) in Hxy.
Defined.

(** Digest sets and their name maps, the form they have in JSON, correspond one
    to one: a set of known hashes has a name map, which parses back to the set; and
    a name map that parses is the name map of what it parses to. *)
Theorem digest_names_correspond `{RO : RangeOrder} (ds : DigestSet) (m : gmap string string) :
  supported ds →
  (∃ m', ToNameMap ds = Ok m' ∧ NewDigestSet m' = Ok ds) ∧
  (NewDigestSet m = Ok ds → ToNameMap ds = Ok m).
Proof.
  intros Hs. destruct (ToNameMap_supported ds Hs) as (m' & Hm' & Hl). split.
  - exists m'. split; [done|]. by apply digest_names_roundtrip.
  - intros Hds. rw Hm'. f_equal.
    assert (supported_names m) as Hsn.
    { intros n Hn. destruct (hashesByName !! n) as [dv|] eqn:E; [by eexists|].
      destruct (NewDigestSet_unsupported m n Hn E) as (? & ? & _). congruence. }
    destruct (NewDigestSet_supported m Hsn) as (ds' & Hds' & Hl'). rw Hds in Hds'. injection Hds' as <-.
    apply map_eq. intros n. apply option_eq. intros d. rw Hl. setoid_rewrite Hl'. split.
    + intros (dv & (n' & Hn' & Hh') & Hh). rw -hashNames_hashesByName in Hh'. congruence.
    + intros Hn. destruct (Hsn n) as [dv Hdv]; [by eexists|]. exists dv. split; [by exists n|].
      by apply hashNames_hashesByName.
Qed.

Lemma digest_names_correspond_witness :
  ToNameMap {[mkDV SHA256 true false := "g"; mkDV SHA1 false false := "d"]} =
    Ok {["gitoid:sha256" := "g"; "sha1" := "d"]}.
Proof.
  apply (digest_names_correspond {[mkDV SHA256 true false := "g"; mkDV SHA1 false false := "d"]}
    {["gitoid:sha256" := "g"; "sha1" := "d"]}).
  - intros dv [d [[<- _]|[_ [<- _]%lookup_singleton_Some]]%lookup_insert_Some]; by eexists.
  - vm_compute. reflexivity.
Defined.

(** * Statements *)

(** A statement names every subject once, with its digests: for subjects of known
    hashes the statement has the type, the predicate and one subject per name,
    whose digests parse back to that name's digest set; a subject with a hash that
    has no name makes the statement fail. *)
Theorem NewStatement_spec `{RO : RangeOrder} (pt : string) (p : bytes) (subjects : gmap string DigestSet)
    (name : string) (ds : DigestSet) (dv : DigestValue) :
  (supported_subjects subjects →
   ∃ subjs, NewStatement pt p subjects = Ok (mkStatement StatementType subjs pt p) ∧
     NoDup (subj_Name <$> subjs) ∧
     (∀ n, n ∈ subj_Name <$> subjs ↔ is_Some (subjects !! n)) ∧
     (∀ s, s ∈ subjs → subject_of subjects s)) ∧
  (subjects !! name = Some ds → is_Some (ds !! dv) → hashNames !! dv = None →
   ∃ h, NewStatement pt p subjects = Err (ErrUnsupportedHash h)).
Proof. split; [apply NewStatement_supported|apply NewStatement_unsupported]. Qed.

Lemma NewStatement_spec_witness :
  let subjects : gmap string DigestSet := {["a" := {[mkDV SHA256 false false := "d"]}]} in
  let bad : gmap string DigestSet := {["a" := {[mkDV SHA1 false true := "d"]}]} in
  (∃ subjs, NewStatement "t" "p" subjects = Ok (mkStatement StatementType subjs "t" "p") ∧ NoDup (subj_Name <$> subjs)) ∧
  ∃ h, NewStatement "t" "p" bad = Err (ErrUnsupportedHash h).
Proof.
  intros subjects bad. split.
  - destruct (NewStatement_spec "t" "p" subjects "" ∅ (mkDV SHA1 false true)) as [H _].
    destruct H as (subjs & H1 & H2 & _).
    + intros n ds [<- <-]%lookup_singleton_Some dv [d [<- _]%lookup_singleton_Some]. by eexists.
    + exists subjs. split; [exact H1|exact H2].
  - apply (NewStatement_spec "t" "p" bad "a" {[mkDV SHA1 false true := "d"]} (mkDV SHA1 false true)).
    + reflexivity.
    + by eexists.
    + vm_compute. reflexivity.
Defined.

(** * Environment variables *)

(** A capture holds, for every key, the last value that the environment gives it,
    with the sensitive ones removed or replaced by asterisks: sensitive are the
    keys of the final list and those that one of its patterns matches, except the
    excluded keys. The patterns are assumed to compile. *)
Theorem Capture_spec `{GL : GlobLib} `{RO : RangeOrder} (c : Capture) (env : list string) :
  compiles (capture_keys c) →
  ∃ vars, (Capture_Capture c env).2 = Ok vars ∧
    ∀ key, ∃ sens, (sens = true ↔ sensitive (capture_keys c) (excludeSensitiveVarsList c) key) ∧
      vars !! key = captured (filterVarsEnabled c) sens (last_value env key).
Proof.
  intros Hc. rw Capture_calls; [|done]. eexists. split; [done|]. intros key. by apply captured_lookup.
Qed.

Definition toy_capture : Capture := NewCapture [WithDisableDefaultSensitiveList; WithAdditionalKeys ["*KEY*"]; WithExcludeKeys ["KEYBOARD"]].
Lemma toy_capture_keys : capture_keys toy_capture = {["*KEY*"]}.
Proof. vm_compute. reflexivity. Qed.
Lemma toy_capture_excluded : excludeSensitiveVarsList toy_capture = {["KEYBOARD"]}.
Proof. vm_compute. reflexivity. Qed.

Lemma Capture_spec_witness :
  ∃ vars, (Capture_Capture toy_capture ["MY_KEY=a=b"; "KEYBOARD=us"]).2 = Ok vars ∧
    vars !! "MY_KEY" = Some "******" ∧ vars !! "KEYBOARD" = Some "us".
Proof.
  destruct (Capture_spec toy_capture ["MY_KEY=a=b"; "KEYBOARD=us"]) as (vars & Hv & H).
  - rewrite toy_capture_keys. intros k ->%elem_of_singleton _. vm_compute. by eexists.
  - exists vars. split; [exact Hv|]. rewrite toy_capture_keys toy_capture_excluded in H. split.
    + destruct (H "MY_KEY") as (sens & Hs & ->). destruct sens; [vm_compute; reflexivity|].
      discriminate (proj2 Hs). split; [by apply not_elem_of_singleton|].
      right. exists "*KEY*", (λ s, Contains s "KEY"). split; [by apply elem_of_singleton|]. split; [reflexivity|].
      split; [reflexivity|vm_compute; reflexivity].
    + destruct (H "KEYBOARD") as (sens & Hs & ->). destruct sens; [|vm_compute; reflexivity].
      destruct (proj1 Hs eq_refl) as [Hn _]. destruct Hn. by apply elem_of_singleton.
Defined.

(** The patterns of the default list. *)
Definition default_patterns : list string :=
  ["TOKEN"; "SECRET"; "API_KEY"; "PASSWORD"; "JWT"; "sshKey"; "passphrase"].

Definition default_keys : list string := elements DefaultSensitiveEnvList.

Lemma default_patterns_stars k :
  k ∈ DefaultSensitiveEnvList → Contains k "*" = true → ∃ p, p ∈ default_patterns ∧ k = "*" +:+ p +:+ "*".
Proof.
  assert (forallb (λ k, negb (Contains k "*") || existsb (λ p, String.eqb k ("*" +:+ p +:+ "*")) default_patterns)
    default_keys = true) as Hall by (vm_compute; reflexivity).
  rw forallb_forall in Hall. intros Hk%elem_of_elements Hc. specialize (Hall k (proj1 (list_elem_of_In _ _) Hk)).
  rw Hc in Hall. apply existsb_exists in Hall as (p & Hp & ->%String.eqb_eq). exists p. by rw list_elem_of_In.
Qed.

Lemma default_patterns_listed p : p ∈ default_patterns → "*" +:+ p +:+ "*" ∈ DefaultSensitiveEnvList.
Proof.
  assert (forallb (λ p, existsb (String.eqb ("*" +:+ p +:+ "*")) default_keys) default_patterns = true) as Hall
    by (vm_compute; reflexivity).
  rw forallb_forall in Hall. intros Hp%list_elem_of_In%Hall. apply existsb_exists in Hp as (k & Hk & ->%String.eqb_eq).
  by apply elem_of_elements, list_elem_of_In.
Qed.

(** A star at both ends matches the strings that contain what is between. *)
Definition star_patterns (GL : GlobLib) : Prop :=
  ∀ p, p ∈ default_patterns → ∃ g, glob_Compile ("*" +:+ p +:+ "*") = Ok g ∧ ∀ key, g key = Contains key p.

(** C16: by default no secret is captured: with the default list of sensitive keys, a
    variable whose key contains TOKEN, SECRET, API_KEY, PASSWORD, JWT, sshKey or
    passphrase shows as asterisks, or not at all when filtering, whatever its value
    and however often it is set. *)
Theorem Capture_default_hides `{GL : GlobLib} `{RO : RangeOrder} (filtering : bool) (env : list string) :
  star_patterns GL →
  ∃ vars, (Capture_Capture (NewCapture (if filtering then [WithFilterVarsEnabled] else [])) env).2 = Ok vars ∧
    ∀ key p, p ∈ default_patterns → Contains key p = true →
      vars !! key = if filtering then None else (λ _, "******") <$> last_value env key.
Proof.
  intros Hstar. set (c := NewCapture _).
  assert (capture_keys c = DefaultSensitiveEnvList ∧ excludeSensitiveVarsList c = ∅ ∧ filterVarsEnabled c = filtering)
    as (Hk & He & Hf).
  { assert (c = mkCapture DefaultSensitiveEnvList ∅ ∅ filtering false) as -> by (by destruct filtering).
    split; [apply (right_id_L ∅ (∪))|]. by split. }
  assert (compiles (capture_keys c)) as Hc.
  { rw Hk. intros k Hin Hst. destruct (default_patterns_stars k Hin Hst) as (p & Hp & ->).
    destruct (Hstar p Hp) as (g & Hg & _). by exists g. }
  rw Capture_calls; [|done]. eexists. split; [done|]. intros key p Hp Hkey.
  destruct (captured_lookup (filterVarsEnabled c) _ (excludeSensitiveVarsList c) env key Hc) as (sens & Hs & ->).
  assert (sens = true) as ->.
  { apply Hs. rw Hk He. split; [apply not_elem_of_empty|]. right. destruct (Hstar p Hp) as (g & Hg & Hm).
    exists ("*" +:+ p +:+ "*"), g. split; [by apply default_patterns_listed|].
    split; [apply (Contains_app_mid "" "*")|]. split; [done|]. by rw Hm. }
  rw Hf. by destruct (last_value env key), filtering.
Qed.

Lemma Capture_default_hides_witness :
  ∃ vars, (Capture_Capture (NewCapture []) ["GH_TOKEN=old"; "HOME=/"; "GH_TOKEN=x"]).2 = Ok vars ∧
    vars !! "GH_TOKEN" = Some "******".
Proof.
  destruct (Capture_default_hides false ["GH_TOKEN=old"; "HOME=/"; "GH_TOKEN=x"]) as (vars & Hv & H).
  - intros p Hp. repeat (apply elem_of_cons in Hp as [-> | Hp]; [eexists; split; [reflexivity|]; intros key; reflexivity|]).
    by apply not_elem_of_nil in Hp.
  - exists vars. split; [exact Hv|]. rewrite (H "GH_TOKEN" "TOKEN"); [vm_compute; reflexivity|left|vm_compute; reflexivity].
Defined.
